(* ===== verification/_CoqProject ===== *)
-Q . S2P
Prelude.v
Wire.v
Float64.v
Errors.v
AntiAffinity.v
VmHealth.v
Types.v
ResourcePool.v
CircuitBreaker.v
Retry.v
IpPool.v
ResourceManagement.v
IpPoolManager.v
IpLocks.v
ResourceQuotas.v
QuotaManager.v
RateLimiting.v
Proposals.v
Codecs.v
RaftCodec.v
Database.v
RaftStorage.v
DbTransaction.v
ResourceAdmission.v
StateMachine.v
Replicas.v
RaftTables.v
RaftCore.v
Batching.v
Scheduler.v
VmRecovery.v
IrohProtocol.v
ResourceApi.v
MemoryManager.v
CpuManager.v
ManagerFactory.v
ManagerLocks.v
VmBackend.v
NetworkIsolation.v
NodeShared.v
VmManager.v
Lifecycle.v
HealthScheduler.v
HealthState.v
RecoveryCoordinator.v
HealthMonitor.v
ClusterOps.v
TransactionLog.v
Enrollment.v
Security.v
VmService.v
RpcService.v
RaftTransport.v
