(* ===== verification/Prelude.v ===== *)
(** Verification of Blixard, a distributed orchestrator for microVMs
    (crate blixard-core under src/).

    * The program

    A cluster of nodes replicates a log with Raft.  Every committed entry is a
    proposal (raft/proposals.rs) that the state machine (raft/state_machine.rs)
    applies to a redb database, to the IP pool manager (ip_pool_manager.rs) and to
    the quota manager (quota_manager.rs).  The log, Raft's own state and snapshots
    are kept in the same database (raft_storage.rs) in a binary format
    (raft_codec.rs).  The Raft manager (raft/core.rs, with raft/config_manager.rs
    and raft/snapshot.rs) feeds ticks, proposals, messages and membership changes to
    the raft crate and carries out what it hands back; proposals reach it through a
    batcher (raft_batch_processor.rs), and nodes talk over framed streams
    (transport/iroh_protocol.rs).  VMs are admitted by resource accounting
    (resource_management.rs, resource_admission.rs) and quotas
    (resource_quotas.rs), placed by a scheduler (vm_scheduler_modules/) under
    anti-affinity rules (anti_affinity.rs), judged by health states
    (vm_health_types.rs) and restarted or migrated when they fail
    (vm_auto_recovery.rs).  A manager (vm_backend.rs) carries the committed commands
    out on a backend, which a wrapper can surround with firewall rules
    (network_isolated_backend.rs, vm_network_isolation.rs), and after a restart
    recovers what was persisted (vm_state_persistence.rs).  A monitor
    (vm_health_monitor.rs) of three parts checks the VMs in a loop
    (vm_health_scheduler.rs), keeps their health (vm_health_state_manager.rs) and
    coordinates recoveries (vm_health_recovery_coordinator.rs).  Nodes are enrolled
    with tokens or certificates (transport/iroh_identity_enrollment.rs), and calls
    of the VM service are authenticated and authorized (security.rs, cedar_authz.rs,
    transport/iroh_middleware.rs, transport/iroh_secure_vm_service.rs).  The
    components of a node share its state (node_shared/mod.rs), from which remote calls (transport/iroh_service.rs and the
    services on it) and the Raft transport (transport/iroh_raft_transport.rs) serve
    the rest of the cluster.  Memory and CPU managers behind one interface
    (resource_manager.rs, resource_managers/) hand out local resources.  Resource
    pools, retries, circuit breakers and life cycles (patterns/), rate limiters
    (common/rate_limiting.rs), database transactions
    (storage/database_transaction.rs) and a transaction log (transaction_log.rs) are
    shared utilities.

    * How it is modelled

    The translation is a shallow embedding.  A Rust function that can fail is a
    function to [outcome]: a value, an error, or a panic.  A method on mutable state
    is a state-passing function [st], which returns the state also when it fails.
    Integers are [Z]; arithmetic that can overflow goes through [arith_u] and
    [arith_s], which panic or wrap according to the build profile (class
    [Profile]), so theorems hold for both kinds of build.  Floating point is IEEE
    binary64 and binary32, computed ([Float64]).  A hash map is a [gmap]; code that
    iterates one is modelled for every iteration order (class [HashIter]).  Clocks,
    random numbers and hashes are arguments.  A database transaction works on a
    copy, and what redb does (begin, table operation or commit fails) is an argument
    ([txn_fault]).  The serializer is a class [Codec], with the law [CodecOk] that
    what was written reads back; [Wire] has an implementation, with which every
    hypothesis on codecs is instantiated in the witnesses.  The network library is
    a class in [IpPool] with a concrete instance.  The raft crate is a class
    [RaftLib] in [RaftCore], with no law assumed; its witnesses use a library for one
    voter.  Encryption, hashing and the policy engine are classes in [Security], and
    the JSON library a parameter of [TransactionLog].  The commands nft and iptables
    are the class [FirewallTools] of [NetworkIsolation], with what their manuals
    document as the laws [FirewallLaws]; a command may fail.

    * Files

    - [Prelude]: outcomes, state, machine integers, iterators, codecs, tactics and
      shared lemmas.  [Wire]: a concrete serializer.  [Float64]: floating point,
      with the lemmas that rounding keeps signs and does not make NaN, and that
      comparison is an order.  [Errors]: error/types.rs.
    - [AntiAffinity]: anti_affinity.rs.  [VmHealth]: vm_health_types.rs.  [Types]:
      types.rs.
    - [ResourcePool]: patterns/resource_pool.rs, with histories in which its
      calls overlap at every point where they wait.  [CircuitBreaker]: patterns/circuit_breaker.rs,
      with histories that interleave admissions and completions.  [Retry]:
      patterns/retry.rs, over operations that may also never complete; the loop has fuel [max 1 max_attempts], which is proved to
      be enough.
    - [IpPool]: ip_pool.rs.  [IpPoolManager]: ip_pool_manager.rs.  [IpLocks]: the
      order in which its operations take their locks, as a transition system.
    - [ResourceQuotas]: resource_quotas.rs.  [QuotaManager]: quota_manager.rs.
      [RateLimiting]: common/rate_limiting.rs.
    - [ResourceManagement]: resource_management.rs.  [ResourceAdmission]:
      resource_admission.rs.  [Scheduler]: vm_scheduler_modules/.  [VmRecovery]:
      vm_auto_recovery.rs, with the lock its operations take.
    - [Proposals]: raft/proposals.rs.  [Codecs]: serializers of the stored and the
      replicated types.  [RaftCodec]: raft_codec.rs.  [Database]: the tables of
      raft_storage.rs and redb's transactions.  [RaftStorage]: raft_storage.rs.
      [StateMachine]: raft/state_machine.rs.  [Replicas]: two nodes that apply the
      same log.  [RaftTables]: applying entries keeps Raft's own tables.
    - [RaftCore]: raft/core.rs, raft/config_manager.rs, raft/snapshot.rs,
      raft/bootstrap.rs and raft/messages.rs, as operations on the manager's state
      and a loop over events; the frame of every operation is proved once, for any
      relation on states.  [Batching]: raft_batch_processor.rs.  [IrohProtocol]:
      transport/iroh_protocol.rs.
    - [ResourceApi]: resource_manager.rs, the interface as a class with the promises
      its clients rely on and the composite manager proved against them.
      [MemoryManager] and [CpuManager]: resource_managers/memory_manager.rs and
      cpu_manager.rs, which discharge the promises.  [ManagerFactory]:
      resource_managers/mod.rs and migration_utils.rs.  [ManagerLocks]: the locks of
      the memory manager as a transition system.
    - [VmBackend]: the backend interface, mock backend and registry of
      vm_backend.rs, and vm_state_persistence.rs.  [VmManager]: the manager of
      vm_backend.rs, composed with the state machine, the scheduler and the node.
    - [NetworkIsolation]: vm_network_isolation.rs and network_isolated_backend.rs,
      with the verdict of the rules for a packet.
    - [Lifecycle]: patterns/lifecycle.rs, the interface as a class.
      [HealthScheduler]: vm_health_scheduler.rs.  [HealthState]:
      vm_health_state_manager.rs.  [RecoveryCoordinator]:
      vm_health_recovery_coordinator.rs, calls and tasks as a step relation.
      [HealthMonitor]: vm_health_monitor.rs, which composes them, with the tasks its
      start and stop spawn; vm_health_config.rs is divided among them.
    - [DbTransaction]: storage/database_transaction.rs.  [TransactionLog]:
      transaction_log.rs, the files as text.
    - [Enrollment]: transport/iroh_identity_enrollment.rs and the registry of
      identities of transport/iroh_middleware.rs.  [Security]: security.rs,
      cedar_authz.rs, the rest of the middleware and
      transport/iroh_secure_vm_service.rs.  [VmService]: transport/services/vm.rs and
      transport/iroh_vm_service.rs, composed with the state machine.
    - [NodeShared]: node_shared/mod.rs and node_registry.rs, with the tasks that
      write the Raft status as steps of their own.  [ClusterOps]:
      transport/cluster_operations_adapter.rs.  [RpcService]: a remote call from the
      client to the service and back (transport/iroh_service.rs,
      iroh_service_runner.rs and the Raft, health and cluster services).
      [RaftTransport]: transport/iroh_raft_transport.rs, with the network's answers
      as an argument.

    * What is proved

    - Replication: replicas that apply the same log agree up to timestamps; an entry
      that fails changes nothing; VM entries refine an abstract registry of VMs; a
      batch is the sequence of its proposals; the worker tables stay consistent.
    - The Raft manager: the committed entries of a ready state are applied once each
      and in order, and their proposals answered; no client is ever answered twice;
      what could not be saved is not acknowledged.  Proved defects: entries that
      commit while a message is handled are not applied, messages that wait for
      persistence are not sent, and membership changes are not restored after a
      restart.
    - Batching and framing: every proposal is handed on, lost with the closed channel
      or still waiting, once and in order, and batches respect their limits; the
      clients of a batch share its failure; messages round-trip through a
      stream, and a stream that is cut yields a prefix of them.
    - Storage: entries, hard state and configuration state round-trip through the
      codec, and truncated entries are refused; appended entries are read back;
      compaction keeps the rest of the log; a snapshot moves the state machine's
      tables from one node to another.
    - Addresses: no address is given to two VMs along any history; allocation,
      release and reloading from storage do what they say; the search finds the
      lowest free address; validation of a configuration is exactly its
      specification.
    - Quotas and rates: the quota check is exactly the specification, and usage that is
      recorded before the next check respects it; no window of a minute has more
      accepted requests than the limit and the calls that overlap.  Proved defects:
      overlapping calls exceed the limit and the quota.
    - Resources and placement: a node is never allocated beyond its effective
      capacity, admission preserves that, and the scheduler places a VM only where
      it fits, whenever it fits somewhere, on the best node by its score.
    - Local resources: along every history the memory manager stays within its
      capacity and, when calls follow one another, a core of an exclusive allocation
      belongs to no other; the composite manager refines one table of allocations.
      Proved defects: two interleaved allocations exceed the capacity or share an
      exclusive core, and the monitor and an allocation deadlock.
    - Recovery: a VM is restarted only when that is due; a VM whose restarts are used
      up blocks the recovery of all VMs, a proved defect.  After a restart every VM
      that was up is started again, on any backend that keeps the promises
      [BackendLaws], and the persisted table and its copy in memory agree.
    - VMs end to end: a VM created with scheduling is recorded on the node chosen for
      it.  Proved defects: a started VM stays Starting in the registry, and a
      migration stops the VM and moves nothing.  Nothing hands the committed
      commands to the VM manager, so no theorem relates the backend to the registry.
    - The VM service: a VM it reports as created is recorded and counted for its
      tenant once its proposal is committed, and one that is created and deleted
      leaves nothing behind.  Proved defects: the task that applies such a proposal
      panics, a VM created again is counted twice, and starting, stopping and
      migrating never succeed.
    - The cluster: the Raft status settles on the last report when its tasks run in
      order; a node with a consistent status reports one leader; joining over the
      network gives the caller what the operation returned.
    - The Raft transport: the buffer is a bounded stable priority queue and stays
      one; a node that joined receives the messages sent to it; a batch delivers
      every message once, in order within a priority.
    - Isolation: with nftables a VM reaches no address of the VM network but those
      its tenant had, whatever is added, removed or fails later.  Proved defects:
      the rules of a VM outlive it and serve the next VM with its address, iptables
      isolates no tenants, and a VM that could not be isolated runs.
    - Access: a token admits no more nodes than it has uses; patterns match exactly
      their language; every call of the secure service that is answered or changes the node was
      authorized, and so was every proposal submitted by one; secrets and tokens are
      read back.  Proved defects: the plain calls of that service are not authorized, a
      token whose use was not
      saved can be used again, and registering a node changes the rights of others.
    - Health: the checks of a VM have different names; recoveries stay within the number of permits, are not started twice
      for calls one after the other, and are attended until they end; a monitor used
      through its interface runs what its last call asked for.  Proved defects: the
      store of statuses only grows, the monitor of a node runs nothing, a check cycle never recovers a VM, and a
      recovery that panicked blocks its VM.
    - Logs and transactions: what was written to the transaction log is read back
      across rotations and writers; a write with retries is applied once or not at
      all; a restored table lists its data.  Proved defects: a torn write loses the
      next entry, and a closed log accepts writes.
    - Patterns: the permits of a pool are conserved however its calls overlap, a
      half-open circuit admits a bounded number of calls, and a retried operation is
      run within its number of attempts and its waiting time, and returns when its
      runs complete and its delays cannot panic.  Proved defects: a cleared pool can
      lose a permit.
    - Where the code does not do what it means to, a theorem says what it does
      instead: permits that leak, lock orders that deadlock, positions lost by a
      snapshot, blocking calls that panic, ids read in the other byte order, health
      states that never recover.

    * Bounds

    The only fuel is that of the retry loop (see above), of the IPv6 address search
    (the constant [MAX_ITERATIONS] of the code), of the division into batches of a
    recovery (the number of machines, proved to be enough by
    [VmBackend.chunks_concat]) and the nesting depth 2 of [StateMachine.apply_data]:
    a batch is applied to proposals that are not batches, so no third level is
    reached.  Waiting for a life cycle state has one turn per tenth of a second of the
    timeout, proved to be enough by [Lifecycle.wait_for_state_ends]; the log is
    proved for fewer than 99,999 operations, since the names of its files have five
    digits; a packet follows at most 16 nested jumps, as many as nftables allows.
    The wait of a join and the monitoring loop have the number of attempts
    of the code (10 and 20).

    * Not modelled

    The raft crate itself and the second event loop that is not used
    (raft/event_loop.rs, raft/handlers.rs); accepting connections and the streams
    of iroh below the messages; the image, quota, status and monitoring
    services (transport/); the REST API
    (api/); the microVM backend (crate blixard-vm), which runs processes of the
    operating system; discovery and image distribution; configuration files, the
    generation of certificates, metrics and tracing; the testing tools (vopr/,
    linearizability); modules that lib.rs leaves out of the build (audit, backup,
    remediation, escalation, caching); the terminal interface (crate blixard).
    Log messages and the texts of errors that only a human reads are left out of the
    modelled parts.  *)

From Stdlib Require Import ZArith Lia Sorted.
From stdpp Require Import base tactics numbers gmap strings pretty option.
From stdpp Require Import list relations.

Open Scope Z_scope.

Declare Scope rust_scope.
Delimit Scope rust_scope with rust.
Open Scope rust_scope.

(** * Outcomes of Rust code *)

(** The three ways a modelled function ends: a value ([Result::Ok] or a plain
    return), an error returned through [?], or a panic (arithmetic overflow in
    a build with overflow checks, a documented panic of a library call). *)
Inductive outcome (E A : Type) : Type :=
| Ok (a : A)
| Err (e : E)
| Panic.
Arguments Ok {E A} a.
Arguments Err {E A} e.
Arguments Panic {E A}.

Definition obind {E A B} (m : outcome E A) (k : A -> outcome E B) : outcome E B :=
  match m with
  | Ok a => k a
  | Err e => Err e
  | Panic => Panic
  end.

Notation "'let?' x ':=' c 'in' k" := (obind c (fun x => k))
  (at level 10, x pattern, c at level 100, k at level 200) : rust_scope.

Definition omap_ok {E A B} (f : A -> B) (m : outcome E A) : outcome E B :=
  let? a := m in Ok (f a).

Definition ok_or {E A} (e : E) (o : option A) : outcome E A :=
  match o with
  | Some a => Ok a
  | None => Err e
  end.

(** The results of a fallible loop over a list, in order. *)
Fixpoint otraverse {E A B} (f : A -> outcome E B) (l : list A) : outcome E (list B) :=
  match l with
  | [] => Ok []
  | x :: l' => obind (f x) (fun y => obind (otraverse f l') (fun ys => Ok (y :: ys)))
  end.

(** The left fold of a [for] loop whose body may return early. *)
Fixpoint ofold {E A B} (f : B -> A -> outcome E B) (b : B) (l : list A) : outcome E B :=
  match l with
  | [] => Ok b
  | x :: l' => let? b' := f b x in ofold f b' l'
  end.

Definition is_ok {E A} (m : outcome E A) : bool :=
  match m with Ok _ => true | _ => false end.

(** * Stateful code *)

(** A method on [&self]/[&mut self]: it reads a state and returns the outcome
    together with the state it leaves, also when it fails: what was mutated
    before an early return stays mutated. *)
Definition st (S E A : Type) : Type := S -> outcome E A * S.

Definition sret {S E A} (a : A) : st S E A := fun s => (Ok a, s).
Definition sfail {S E A} (e : E) : st S E A := fun s => (Err e, s).
Definition spanic {S E A} : st S E A := fun s => (Panic, s).
Definition sget {S E} : st S E S := fun s => (Ok s, s).
Definition sput {S E} (s' : S) : st S E unit := fun _ => (Ok tt, s').
Definition smodify {S E} (f : S -> S) : st S E unit := fun s => (Ok tt, f s).
Definition slift {S E A} (m : outcome E A) : st S E A := fun s => (m, s).

Definition sbind {S E A B} (m : st S E A) (k : A -> st S E B) : st S E B :=
  fun s =>
    match m s with
    | (Ok a, s') => k a s'
    | (Err e, s') => (Err e, s')
    | (Panic, s') => (Panic, s')
    end.

Notation "'let*' x ':=' c 'in' k" := (sbind c (fun x => k))
  (at level 10, x pattern, c at level 100, k at level 200) : rust_scope.

Notation "c ';*' k" := (sbind c (fun _ => k))
  (at level 199, k at level 200, right associativity) : rust_scope.

Fixpoint sfor {S E A} (f : A -> st S E unit) (l : list A) : st S E unit :=
  match l with
  | [] => sret tt
  | x :: l' => f x ;* sfor f l'
  end.

(** [let _ = m]: run [m] and drop its result. *)
Definition signore {S E A} (m : st S E A) : st S E unit :=
  fun s =>
    match m s with
    | (Panic, s') => (Panic, s')
    | (_, s') => (Ok tt, s')
    end.

(** * Machine integers *)

(** Whether the build checks for overflow: a debug build panics, a release
    build wraps.  The workspace's profiles leave the default, so every
    theorem holds for both values. *)
Class Profile : Type := overflow_checks : bool.

Definition wrap_u (w : Z) (z : Z) : Z := z mod 2 ^ w.
Definition wrap_s (w : Z) (z : Z) : Z := (z + 2 ^ (w - 1)) mod 2 ^ w - 2 ^ (w - 1).

Definition fits_u (w : Z) (z : Z) : bool := (0 <=? z) && (z <? 2 ^ w).
Definition fits_s (w : Z) (z : Z) : bool := (- 2 ^ (w - 1) <=? z) && (z <? 2 ^ (w - 1)).

(** The result of [+], [-] or [*] on a [w]-bit type, from the exact result. *)
Definition arith_u {P : Profile} {E} (w : Z) (z : Z) : outcome E Z :=
  if fits_u w z then Ok z else if overflow_checks then Panic else Ok (wrap_u w z).
Definition arith_s {P : Profile} {E} (w : Z) (z : Z) : outcome E Z :=
  if fits_s w z then Ok z else if overflow_checks then Panic else Ok (wrap_s w z).

Definition sat_sub (a b : Z) : Z := Z.max 0 (a - b).

Definition u32_max : Z := 2 ^ 32 - 1.
Definition u64_max : Z := 2 ^ 64 - 1.

(** Big- and little-endian byte strings of fixed width, bytes as [Z]. *)
Fixpoint le_bytes (n : nat) (z : Z) : list Z :=
  match n with
  | O => []
  | S n' => z mod 256 :: le_bytes n' (z / 256)
  end.

Fixpoint le_value (bs : list Z) : Z :=
  match bs with
  | [] => 0
  | b :: bs' => b + 256 * le_value bs'
  end.

(** [u64::to_le_bytes], [u64::from_le_bytes] and the big-endian pair. *)
Definition to_le_bytes (z : Z) : list Z := le_bytes 8 z.
Definition to_be_bytes (z : Z) : list Z := rev (le_bytes 8 z).
Definition from_le_bytes (bs : list Z) : option Z :=
  if (length bs =? 8)%nat then Some (le_value bs) else None.
Definition from_be_bytes (bs : list Z) : option Z :=
  if (length bs =? 8)%nat then Some (le_value (rev bs)) else None.

(** * Iterators *)

(** [Iterator::min_by_key] keeps the first of several minima,
    [Iterator::max_by_key] the last of several maxima. *)
Fixpoint min_by_from {A} (key : A -> Z) (best : A) (l : list A) : A :=
  match l with
  | [] => best
  | x :: l' => min_by_from key (if key x <? key best then x else best) l'
  end.

Fixpoint max_by_from {A} (key : A -> Z) (best : A) (l : list A) : A :=
  match l with
  | [] => best
  | x :: l' => max_by_from key (if key best <=? key x then x else best) l'
  end.

Definition min_by_key {A} (key : A -> Z) (l : list A) : option A :=
  match l with
  | [] => None
  | x :: l' => Some (min_by_from key x l')
  end.

Definition max_by_key {A} (key : A -> Z) (l : list A) : option A :=
  match l with
  | [] => None
  | x :: l' => Some (max_by_from key x l')
  end.

(** The stable sort by a key: an element goes before the first one with a greater
    key. *)
Fixpoint stable_insert {A} (key : A -> Z) (x : A) (l : list A) : list A :=
  match l with
  | [] => [x]
  | y :: l' => if key x <? key y then x :: l else y :: stable_insert key x l'
  end.

Definition stable_sort {A} (key : A -> Z) (l : list A) : list A :=
  fold_left (fun acc x => stable_insert key x acc) l [].

(** The order in which a [HashMap] is iterated is unspecified: code that
    iterates one is modelled against any order, a permutation of the map's
    entries. *)
Class HashIter : Type := {
  hash_iter : forall {K V : Type} `{Countable K}, gmap K V -> list (K * V);
  hash_iter_perm : forall {K V : Type} `{Countable K} (m : gmap K V),
    hash_iter m ≡ₚ map_to_list m
}.

(** The order [map_to_list] lists a map in is one such order. *)
#[refine] Instance canonical_iter : HashIter := {
  hash_iter := fun K V _ _ m => map_to_list m
}.
Proof. reflexivity. Defined.

(** * Byte codecs *)

(** What the code relies on of its serializer ([bincode]): two partial
    functions, and that what was written reads back as the same value. *)
Class Codec (A : Type) : Type := {
  ser : A -> option (list Z);
  de : list Z -> option A
}.

Class CodecOk (A : Type) `{Codec A} : Prop :=
  de_ser : forall (x : A) (b : list Z), ser x = Some b -> de b = Some x.

(** * Automation *)

Create HintDb rust.

(** Case analysis on the scrutinee of the first match in the goal or in a
    hypothesis, remembering the equation. *)
Ltac case_goal :=
  match goal with
  | |- context [match ?x with _ => _ end] =>
      lazymatch x with
      | context [match _ with _ => _ end] => fail
      | _ => let E := fresh "E" in destruct x eqn:E
      end
  end.

Ltac case_hyp H :=
  match type of H with
  | context [match ?x with _ => _ end] =>
      lazymatch x with
      | context [match _ with _ => _ end] => fail
      | _ => let E := fresh "E" in destruct x eqn:E
      end
  end.

(** Inverts a hypothesis about a stateful computation, branch by branch. *)
Ltac unfold_st :=
  unfold sret, sfail, spanic, sget, sput, smodify, slift, sbind, omap_ok, ok_or in *.

Ltac inv_st H :=
  unfold_st; simpl in H;
  repeat (case_hyp H; simpl in H; try discriminate H; try congruence);
  simplify_eq /=.

Ltac bools :=
  repeat match goal with
  | H : (_ && _)%bool = true |- _ => apply andb_prop in H as [? ?]
  | H : (_ || _)%bool = false |- _ => apply orb_false_elim in H as [? ?]
  | H : negb _ = true |- _ => apply negb_true_iff in H
  | H : negb _ = false |- _ => apply negb_false_iff in H
  | H : (_ <? _) = true |- _ => apply Z.ltb_lt in H
  | H : (_ <? _) = false |- _ => apply Z.ltb_ge in H
  | H : (_ <=? _) = true |- _ => apply Z.leb_le in H
  | H : (_ <=? _) = false |- _ => apply Z.leb_gt in H
  | H : (_ =? _) = true |- _ => apply Z.eqb_eq in H
  | H : (_ =? _) = false |- _ => apply Z.eqb_neq in H
  | H : (_ >? _) = _ |- _ => rewrite Z.gtb_ltb in H
  | H : (_ >=? _) = _ |- _ => rewrite Z.geb_leb in H
  | H : bool_decide _ = true |- _ => apply bool_decide_eq_true in H
  | H : bool_decide _ = false |- _ => apply bool_decide_eq_false in H
  end.

(** * Shared lemmas *)

Lemma obind_ok {E A B} (m : outcome E A) (k : A -> outcome E B) b :
  obind m k = Ok b <-> exists a, m = Ok a /\ k a = Ok b.
Proof. destruct m; simpl; naive_solver. Qed.

Lemma otraverse_ok {E A B} (f : A -> outcome E B) l ys :
  otraverse f l = Ok ys <-> Forall2 (fun x y => f x = Ok y) l ys.
Proof.
  revert ys. induction l as [|x l IH]; intros ys; simpl.
  - split; [by intros [= <-]|by intros ->%Forall2_nil_inv_l].
  - rewrite obind_ok. split.
    + intros (y & Hy & (zs & Hz & [= <-])%obind_ok). constructor; [done|by apply IH].
    + intros (y & zs & Hy & Hz%IH & ->)%Forall2_cons_inv_l. exists y. split; [done|]. by rewrite Hz.
Qed.

Lemma sbind_ok {S E A B} (m : st S E A) (k : A -> st S E B) s a s' :
  m s = (Ok a, s') -> sbind m k s = k a s'.
Proof. intros E1. unfold sbind. by rewrite E1. Qed.

(** The outcomes of a sequence: the first part fails, or the second follows. *)
Lemma sbind_inv {S E A B} (m : st S E A) (k : A -> st S E B) s o s' :
  sbind m k s = (o, s') ->
  (exists a s1, m s = (Ok a, s1) /\ k a s1 = (o, s')) \/
  (is_ok o = false /\ exists o1, m s = (o1, s') /\ is_ok o1 = false).
Proof. unfold sbind. destruct (m s) as [[a|e|] s1]; intros; simplify_eq; naive_solver. Qed.

Lemma sbind_ok_inv {S E A B} (m : st S E A) (k : A -> st S E B) s b s' :
  sbind m k s = (Ok b, s') -> exists a s1, m s = (Ok a, s1) /\ k a s1 = (Ok b, s').
Proof. intros [?|[? _]]%sbind_inv; [done|discriminate]. Qed.

(** ** Computations that stay within a relation *)

(** Every run of [c] takes a state to a related one, whatever its outcome. *)
Definition moves {S E A} (R : relation S) (c : st S E A) : Prop :=
  forall s o s', c s = (o, s') -> R s s'.

Section Moves.
Context {S E : Type} (R : relation S) `{!PreOrder R}.

Lemma moves_ret {A} (a : A) : moves R (sret (E:=E) a).
Proof. intros s o s' [= _ <-]. reflexivity. Qed.
Lemma moves_fail {A} (e : E) : moves R (sfail e : st S E A).
Proof. intros s o s' [= _ <-]. reflexivity. Qed.
Lemma moves_panic {A} : moves R (spanic : st S E A).
Proof. intros s o s' [= _ <-]. reflexivity. Qed.
Lemma moves_get : moves R (sget (E:=E)).
Proof. intros s o s' [= _ <-]. reflexivity. Qed.
Lemma moves_lift {A} (m : outcome E A) : moves R (slift m).
Proof. intros s o s' [= _ <-]. reflexivity. Qed.
Lemma moves_modify f : (forall s, R s (f s)) -> moves R (smodify (E:=E) f).
Proof. intros Hf s o s' [= _ <-]. apply Hf. Qed.
Lemma moves_bind {A B} (m : st S E A) (k : A -> st S E B) :
  moves R m -> (forall a, moves R (k a)) -> moves R (sbind m k).
Proof.
  intros Hm Hk s o s' [(a & s1 & E1 & E2)|(_ & o1 & E1 & _)]%sbind_inv; [|by eapply Hm].
  etransitivity; [by eapply Hm|by eapply Hk].
Qed.
(** Where the rest depends on the state that was read. *)
Lemma moves_read {B} (k : S -> st S E B) :
  (forall s o s', k s s = (o, s') -> R s s') -> moves R (sbind sget k).
Proof. intros Hk s o s'. apply Hk. Qed.
Lemma moves_for {A} (f : A -> st S E unit) l : (forall a, moves R (f a)) -> moves R (sfor f l).
Proof. intros Hf. induction l as [|a l IH]; simpl; [apply moves_ret|by apply moves_bind]. Qed.
End Moves.

Create HintDb moves.
#[export] Hint Resolve moves_ret moves_fail moves_panic moves_get moves_lift moves_modify moves_bind
  moves_for : moves.
#[export] Hint Extern 1 (PreOrder _) => typeclasses eauto : moves.

(** A sequence moves if its parts do. *)
Ltac moves_seq := apply moves_bind; [typeclasses eauto| |].

(** Every part of a sequence stays within the relation. *)
Ltac moves_all :=
  repeat first [ moves_seq; [|intros] | apply moves_get; typeclasses eauto
               | apply moves_ret; typeclasses eauto | apply moves_fail; typeclasses eauto
               | apply moves_lift; typeclasses eauto
               | apply moves_modify; intros; repeat case_match;
                   first [reflexivity|split_and!; reflexivity]
               | progress case_match ].

Lemma arith_u_fits {P : Profile} {E} w z :
  0 <= z < 2 ^ w -> arith_u (E:=E) w z = Ok z.
Proof.
  intros H. unfold arith_u, fits_u.
  destruct (Z.leb_spec 0 z), (Z.ltb_spec z (2 ^ w)); simpl; (done || lia).
Qed.

Lemma arith_s_fits {P : Profile} {E} w z :
  - 2 ^ (w - 1) <= z < 2 ^ (w - 1) -> arith_s (E:=E) w z = Ok z.
Proof.
  intros H. unfold arith_s, fits_s.
  destruct (Z.leb_spec (- 2 ^ (w - 1)) z), (Z.ltb_spec z (2 ^ (w - 1)));
    simpl; (done || lia).
Qed.

(** Whatever the build, an arithmetic result that is returned fits its type. *)
Lemma arith_u_range {P : Profile} {E} w z v :
  0 <= w -> arith_u (E:=E) w z = Ok v -> 0 <= v < 2 ^ w.
Proof.
  intros Hw H. unfold arith_u, fits_u, wrap_u in H.
  assert (0 < 2 ^ w) by (apply Z.pow_pos_nonneg; lia).
  destruct (Z.leb_spec 0 z), (Z.ltb_spec z (2 ^ w)), overflow_checks;
    simpl in H; simplify_eq; try lia; apply Z.mod_pos_bound; lia.
Qed.

Lemma sat_sub_le a b : 0 <= a -> 0 <= b -> 0 <= sat_sub a b <= a.
Proof. unfold sat_sub; lia. Qed.

Lemma le_bytes_length n z : length (le_bytes n z) = n.
Proof. revert z; induction n; intros; simpl; auto. Qed.

Lemma le_value_le_bytes n z : le_value (le_bytes n z) = z mod 256 ^ Z.of_nat n.
Proof.
  revert z; induction n as [|n IH]; intros z; simpl.
  - by rewrite Z.mod_1_r.
  - rewrite IH. replace (256 ^ Z.of_nat (S n)) with (256 * 256 ^ Z.of_nat n)
      by (rewrite Nat2Z.inj_succ, Z.pow_succ_r; lia).
    rewrite Z.rem_mul_r by (try apply Z.pow_pos_nonneg; lia). lia.
Qed.

Lemma from_to_le_bytes z : 0 <= z < 2 ^ 64 -> from_le_bytes (to_le_bytes z) = Some z.
Proof.
  intros H. unfold from_le_bytes, to_le_bytes.
  rewrite le_bytes_length; simpl Nat.eqb; cbv iota.
  rewrite le_value_le_bytes. f_equal. apply Z.mod_small.
  replace (256 ^ Z.of_nat 8) with (2 ^ 64) by reflexivity. lia.
Qed.

Lemma to_le_bytes_inj a b :
  0 <= a < 2 ^ 64 -> 0 <= b < 2 ^ 64 -> to_le_bytes a = to_le_bytes b -> a = b.
Proof.
  intros Ha Hb H. apply (f_equal from_le_bytes) in H.
  rewrite !from_to_le_bytes in H by done. congruence.
Qed.

(** A map after its keys of a list were removed one by one. *)
Lemma lookup_delete_keys {A} (l : list string) (m : gmap string A) k :
  fold_left (fun acc k => delete k acc) l m !! k = if decide (k ∈ l) then None else m !! k.
Proof.
  revert m. induction l as [|v l IH]; intros m; cbn [fold_left]; [done|].
  rewrite IH. destruct (decide (k = v)) as [->|?].
  - rewrite lookup_delete_eq. by destruct (decide (v ∈ l)), (decide (v ∈ v :: l)); set_solver.
  - rewrite lookup_delete_ne by done. destruct (decide (k ∈ l)), (decide (k ∈ v :: l)); set_solver.
Qed.

(** An invariant of the steps is an invariant of the histories. *)
Lemma rtc_invariant {A} (R : relation A) (I : A -> Prop) :
  (forall x y, I x -> R x y -> I y) -> forall x y, rtc R x y -> I x -> I y.
Proof. intros Hstep x y Hr. induction Hr; eauto. Qed.

(** A boolean fact about every integer below a literal bound, by evaluation. *)
Lemma forall_below (n : nat) (P : Z -> bool) :
  forallb (fun i => P (Z.of_nat i)) (seq 0 n) = true ->
  forall z, 0 <= z < Z.of_nat n -> P z = true.
Proof.
  intros H z Hz. rewrite forallb_forall in H.
  specialize (H (Z.to_nat z)). rewrite Z2Nat.id in H by lia.
  apply H, in_seq. lia.
Qed.

Section MinMax.
Context {A : Type} (key : A -> Z).

Lemma min_by_from_spec best l :
  (min_by_from key best l = best \/ min_by_from key best l ∈ l) /\
  key (min_by_from key best l) <= key best /\
  forall x, x ∈ l -> key (min_by_from key best l) <= key x.
Proof.
  revert best. induction l as [|y l IH]; intros best; simpl.
  { split_and!; [by left|lia|]. intros x Hx%not_elem_of_nil; done. }
  destruct (IH (if key y <? key best then y else best)) as (Hin & Hb & Hl).
  destruct (Z.ltb_spec (key y) (key best)).
  - split_and!; [|lia|].
    + destruct Hin as [->|Hin]; right; [left | by right].
    + intros x [->|Hx]%elem_of_cons; [lia|auto].
  - split_and!; [|lia|].
    + destruct Hin as [->|Hin]; [by left | right; by right].
    + intros x [->|Hx]%elem_of_cons; [lia|auto].
Qed.

Lemma max_by_from_spec best l :
  (max_by_from key best l = best \/ max_by_from key best l ∈ l) /\
  key best <= key (max_by_from key best l) /\
  forall x, x ∈ l -> key x <= key (max_by_from key best l).
Proof.
  revert best. induction l as [|y l IH]; intros best; simpl.
  { split_and!; [by left|lia|]. intros x Hx%not_elem_of_nil; done. }
  destruct (IH (if key best <=? key y then y else best)) as (Hin & Hb & Hl).
  destruct (Z.leb_spec (key best) (key y)).
  - split_and!; [|lia|].
    + destruct Hin as [->|Hin]; right; [left | by right].
    + intros x [->|Hx]%elem_of_cons; [lia|auto].
  - split_and!; [|lia|].
    + destruct Hin as [->|Hin]; [by left | right; by right].
    + intros x [->|Hx]%elem_of_cons; [lia|auto].
Qed.

Lemma min_by_key_spec l x :
  min_by_key key l = Some x -> x ∈ l /\ forall y, y ∈ l -> key x <= key y.
Proof.
  destruct l as [|z l]; simpl; [done|]. intros [= <-].
  destruct (min_by_from_spec z l) as (Hin & Hb & Hl). split.
  - destruct Hin as [->|Hin]; [left | by right].
  - intros y [->|Hy]%elem_of_cons; auto.
Qed.

Lemma max_by_key_spec l x :
  max_by_key key l = Some x -> x ∈ l /\ forall y, y ∈ l -> key y <= key x.
Proof.
  destruct l as [|z l]; simpl; [done|]. intros [= <-].
  destruct (max_by_from_spec z l) as (Hin & Hb & Hl). split.
  - destruct Hin as [->|Hin]; [left | by right].
  - intros y [->|Hy]%elem_of_cons; auto.
Qed.

Lemma min_by_key_none l : min_by_key key l = None <-> l = [].
Proof. destruct l; simpl; naive_solver. Qed.

Lemma max_by_key_none l : max_by_key key l = None <-> l = [].
Proof. destruct l; simpl; naive_solver. Qed.
End MinMax.

(** * The stable sort *)

Section StableSort.
Context {A : Type} (key : A -> Z).

Lemma stable_insert_perm x l : stable_insert key x l ≡ₚ x :: l.
Proof. induction l as [|y l IH]; simpl; [done|]. case_match; [done|]. rewrite IH. constructor. Qed.

Lemma stable_sort_perm l : stable_sort key l ≡ₚ l.
Proof.
  unfold stable_sort. change l with ([] ++ l) at 2. generalize (@nil A) as acc.
  induction l as [|x l IH]; intros acc; simpl; [by rewrite app_nil_r|].
  rewrite IH, stable_insert_perm. apply Permutation_middle.
Qed.

Definition key_sorted : list A -> Prop := StronglySorted (fun x y => key x <= key y).

Lemma stable_insert_sorted x l : key_sorted l -> key_sorted (stable_insert key x l).
Proof.
  unfold key_sorted. induction 1 as [|y l Hs IH Hy]; simpl; [by repeat constructor|].
  destruct (Z.ltb_spec (key x) (key y)).
  - constructor; [by constructor|]. constructor; [lia|]. eapply Forall_impl; [exact Hy|]. simpl. lia.
  - constructor; [done|]. rewrite stable_insert_perm. constructor; [lia|done].
Qed.

(** Among elements with the same key the new one comes last. *)
Lemma stable_insert_filter k x l :
  key_sorted l ->
  filter (fun y => key y = k) (stable_insert key x l) =
  filter (fun y => key y = k) l ++ (if decide (key x = k) then [x] else []).
Proof.
  unfold key_sorted. induction 1 as [|y l Hs IH Hy]; simpl; [rewrite filter_cons; by case_decide|].
  destruct (Z.ltb_spec (key x) (key y)); rewrite !filter_cons, ?IH; repeat case_decide; try lia; try done; rewrite ?app_nil_r; try done.
  all: destruct (filter (fun y => key y = k) l) as [|z l'] eqn:E; [done|]; exfalso.
  all: assert (Hz : z ∈ filter (fun y => key y = k) l) by (rewrite E; by left).
  all: apply list_elem_of_filter in Hz as [Hk Hin]; rewrite Forall_forall in Hy; specialize (Hy z Hin); simpl in Hy; lia.
Qed.

Lemma stable_sort_acc l acc :
  key_sorted acc ->
  let r := fold_left (fun acc x => stable_insert key x acc) l acc in
  key_sorted r /\ forall k, filter (fun y => key y = k) r = filter (fun y => key y = k) (acc ++ l).
Proof.
  revert acc. induction l as [|x l IH]; intros acc Ha; simpl; [by rewrite app_nil_r|].
  destruct (IH _ (stable_insert_sorted x acc Ha)) as [Hs Hf]. split; [done|]. intros k. rewrite Hf, !filter_app, filter_cons.
  rewrite stable_insert_filter by done. case_decide; by rewrite <- app_assoc.
Qed.

(** The sort orders by the key and keeps the order of elements with equal keys. *)
Lemma stable_sort_spec l :
  key_sorted (stable_sort key l) /\ forall k, filter (fun y => key y = k) (stable_sort key l) = filter (fun y => key y = k) l.
Proof. apply (stable_sort_acc l []). constructor. Qed.

End StableSort.

Lemma elem_of_hash_iter `{HashIter} `{Countable K} {V} (m : gmap K V) k v :
  (k, v) ∈ hash_iter m <-> m !! k = Some v.
Proof. rewrite hash_iter_perm. apply elem_of_map_to_list. Qed.

#[export] Hint Resolve sat_sub_le arith_u_fits arith_s_fits : rust.
