(* ===== verification/Wire.v ===== *)
(** A concrete serializer.  The development assumes of bincode only that what it
    serialized it deserializes as itself ([CodecOk]); this file has a serializer
    for which that holds, for the concrete instances of theorems that assume it.
    Values are written one after the other, lists and strings with their length
    first. *)

From Stdlib Require Import ZArith Lia List Ascii.
From stdpp Require Import base tactics numbers strings option list.
From S2P Require Import Prelude.

Open Scope Z_scope.

(** Writing, and reading with what follows. *)
Class Wire (A : Type) : Type := {
  put : A -> list Z;
  get : list Z -> option (A * list Z);
  get_put : forall (x : A) (rest : list Z), get (put x ++ rest) = Some (x, rest)
}.

Definition wire_codec (A : Type) `{Wire A} : Codec A := {|
  ser := fun x => Some (put x);
  de := fun b => match get b with Some (x, []) => Some x | _ => None end
|}.

Lemma wire_codec_ok (A : Type) `{Wire A} : CodecOk A (H:=wire_codec A).
Proof. intros x b [= <-]. simpl. by rewrite <- (app_nil_r (put x)), get_put. Qed.

#[export, refine] Instance wire_Z : Wire Z := {
  put := fun z => [z];
  get := fun b => match b with z :: rest => Some (z, rest) | [] => None end
}.
Proof. done. Defined.

(** A type that is written as another. *)
#[refine] Definition wire_via {A B} `{Wire B} (f : A -> B) (g : B -> A)
    (gf : forall x, g (f x) = x) : Wire A := {|
  put := fun x => put (f x);
  get := fun b => match get b with Some (y, rest) => Some (g y, rest) | None => None end
|}.
Proof. intros x rest. by rewrite get_put, gf. Defined.

#[export] Instance wire_bool : Wire bool :=
  wire_via (fun b => if b : bool then 1 else 0) (fun z => z =? 1)
    (fun b => match b with true => eq_refl | false => eq_refl end).

#[export, refine] Instance wire_prod {A B} `{Wire A} `{Wire B} : Wire (A * B) := {
  put := fun p => put p.1 ++ put p.2;
  get := fun b =>
    match get b with
    | Some (x, b1) => match get b1 with Some (y, rest) => Some ((x, y), rest) | None => None end
    | None => None
    end
}.
Proof. intros [x y] rest. simpl. by rewrite <- app_assoc, !get_put. Defined.

#[export, refine] Instance wire_option {A} `{Wire A} : Wire (option A) := {
  put := fun o => match o with Some x => 1 :: put x | None => [0] end;
  get := fun b =>
    match b with
    | [] => None
    | t :: b1 => if t =? 1 then match get b1 with Some (x, rest) => Some (Some x, rest) | None => None end
                 else Some (None, b1)
    end
}.
Proof. intros [x|] rest; simpl; [by rewrite get_put|done]. Defined.

Fixpoint get_n {A} `{Wire A} (n : nat) (b : list Z) : option (list A * list Z) :=
  match n with
  | O => Some ([], b)
  | S n' =>
      match get b with
      | Some (x, b1) => match get_n n' b1 with Some (l, rest) => Some (x :: l, rest) | None => None end
      | None => None
      end
  end.

Lemma get_n_put {A} `{Wire A} (l : list A) rest :
  get_n (length l) (concat (map put l) ++ rest) = Some (l, rest).
Proof. induction l; simpl; [done|]. by rewrite <- app_assoc, get_put, IHl. Qed.

#[export, refine] Instance wire_list {A} `{Wire A} : Wire (list A) := {
  put := fun l => Z.of_nat (length l) :: concat (map put l);
  get := fun b => match b with n :: b1 => get_n (Z.to_nat n) b1 | [] => None end
}.
Proof. intros l rest. cbn [app]. rewrite Nat2Z.id. apply get_n_put. Defined.

#[export] Instance wire_ascii : Wire Ascii.ascii.
Proof.
  apply (wire_via (fun c => Z.of_nat (Ascii.nat_of_ascii c)) (fun z => Ascii.ascii_of_nat (Z.to_nat z))).
  intros c. by rewrite Nat2Z.id, Ascii.ascii_nat_embedding.
Defined.

#[export] Instance wire_string : Wire string :=
  wire_via String.list_ascii_of_string String.string_of_list_ascii
    String.string_of_list_ascii_of_string.
