(* ===== verification/Float64.v ===== *)
(** IEEE 754 binary64 and binary32 as Rust's [f64] and [f32] use them: the
    arithmetic of the Standard Library's [SpecFloat] at the two precisions,
    literals, integer-to-float casts, and the saturating float-to-integer
    [as] casts.  Everything computes. *)

From Stdlib Require Import ZArith Lia SpecFloat.
From stdpp Require Import base tactics numbers.
From S2P Require Import Prelude.

Open Scope Z_scope.

Definition f64 : Type := spec_float.
Definition f32 : Type := spec_float.

(** ** binary64 *)

(** [z as f64]: round to nearest, ties to even. *)
Definition f64_of_Z (z : Z) : f64 := binary_normalize 53 1024 z 0 false.

Definition f64_add : f64 -> f64 -> f64 := SFadd 53 1024.
Definition f64_sub : f64 -> f64 -> f64 := SFsub 53 1024.
Definition f64_mul : f64 -> f64 -> f64 := SFmul 53 1024.
Definition f64_div : f64 -> f64 -> f64 := SFdiv 53 1024.

Definition f64_eqb : f64 -> f64 -> bool := SFeqb.
Definition f64_ltb : f64 -> f64 -> bool := SFltb.
Definition f64_leb : f64 -> f64 -> bool := SFleb.
Definition f64_partial_cmp : f64 -> f64 -> option comparison := SFcompare.

(** The literal [n / d] written in decimal, for [n] and [d] that are exact:
    one correctly rounded division gives the nearest double. *)
Definition f64_lit (n d : Z) : f64 := f64_div (f64_of_Z n) (f64_of_Z d).

(** [f64::max]: the other operand when one is NaN. *)
Definition f64_max (x y : f64) : f64 :=
  match x, y with
  | S754_nan, _ => y
  | _, S754_nan => x
  | _, _ => if f64_ltb x y then y else x
  end.

Definition f64_min (x y : f64) : f64 :=
  match x, y with
  | S754_nan, _ => y
  | _, S754_nan => x
  | _, _ => if f64_ltb y x then y else x
  end.

Definition f64_0 : f64 := S754_zero false.
Definition f64_1 : f64 := f64_of_Z 1.
Definition f64_100 : f64 := f64_of_Z 100.

(** The magnitude of a finite float, truncated. *)
Definition trunc_mag (m : positive) (e : Z) : Z :=
  if 0 <=? e then Z.pos m * 2 ^ e else Z.pos m / 2 ^ (- e).

(** [x as u32], [x as u64]: NaN and negatives to 0, overflow to the maximum. *)
Definition f64_as_u (w : Z) (x : f64) : Z :=
  match x with
  | S754_zero _ => 0
  | S754_nan => 0
  | S754_infinity true => 0
  | S754_infinity false => 2 ^ w - 1
  | S754_finite true _ _ => 0
  | S754_finite false m e => Z.min (trunc_mag m e) (2 ^ w - 1)
  end.

(** ** binary32 *)

Definition f32_of_Z (z : Z) : f32 := binary_normalize 24 128 z 0 false.
Definition f32_lit (n d : Z) : f32 := SFdiv 24 128 (f32_of_Z n) (f32_of_Z d).

(** ** Signs and order *)

(** A number (not NaN) with the given sign bit. *)
Definition signed (s : bool) (x : f64) : Prop :=
  match x with
  | S754_zero b | S754_infinity b | S754_finite b _ _ => b = s
  | S754_nan => False
  end.
Definition f64_pos : f64 -> Prop := signed false.
Definition is_finite_pos (x : f64) : Prop :=
  match x with S754_finite false _ _ => True | _ => False end.
Definition not_nan (x : f64) : Prop := x <> S754_nan.

(** [partial_cmp(..).unwrap_or(Equal)]. *)
Definition cmp_f64 (x y : f64) : comparison := default Eq (f64_partial_cmp x y).

(** ** Properties *)

Lemma trunc_mag_nonneg m e : 0 <= trunc_mag m e.
Proof.
  unfold trunc_mag. destruct (Z.leb_spec 0 e).
  - pose proof (Z.pow_nonneg 2 e). nia.
  - apply Z.div_pos; [lia|]. apply Z.pow_pos_nonneg; lia.
Qed.

Lemma f64_as_u_range w x : 0 <= w -> 0 <= f64_as_u w x < 2 ^ w.
Proof.
  intros Hw. assert (0 < 2 ^ w) by (apply Z.pow_pos_nonneg; lia).
  destruct x as [s|[]| |[] m e]; simpl; try lia.
  pose proof (trunc_mag_nonneg m e). lia.
Qed.


(** ** Rounding keeps signs *)

(** The mantissa after shifts to the right. *)
Lemma shr_1_m r : 0 <= shr_m r -> shr_m (shr_1 r) = shr_m r / 2.
Proof.
  destruct r as [m r s]. simpl. intros Hm. destruct m as [|[p|p|]|p]; simpl; try done.
  - apply (Z.div_unique (Zpos p~1) 2 (Zpos p) 1); lia.
  - apply (Z.div_unique (Zpos p~0) 2 (Zpos p) 0); lia.
Qed.

Lemma iter_shr_m n r : 0 <= shr_m r -> shr_m (SpecFloat.iter_pos shr_1 n r) = shr_m r / 2 ^ Zpos n.
Proof.
  revert r. induction n as [n IH|n IH|]; intros r Hr; cbn [SpecFloat.iter_pos].
  - assert (0 <= shr_m (shr_1 r)) by (rewrite shr_1_m by done; apply Z.div_pos; lia).
    assert (0 <= shr_m (SpecFloat.iter_pos shr_1 n (shr_1 r))) by (rewrite IH by done; apply Z.div_pos; lia).
    rewrite !IH, shr_1_m by done. rewrite !Z.div_div by lia. f_equal.
    replace (Zpos n~1) with (1 + Zpos n + Zpos n) by lia. rewrite !Z.pow_add_r by lia. lia.
  - assert (0 <= shr_m (SpecFloat.iter_pos shr_1 n r)) by (rewrite IH by done; apply Z.div_pos; lia).
    rewrite !IH by done. rewrite !Z.div_div by lia. f_equal.
    replace (Zpos n~0) with (Zpos n + Zpos n) by lia. rewrite !Z.pow_add_r by lia. lia.
  - by rewrite shr_1_m.
Qed.

Lemma digits2_log2 p : Zpos (digits2_pos p) = Z.log2 (Zpos p) + 1.
Proof.
  induction p as [p IH|p IH|]; simpl digits2_pos; [| |done]; rewrite Pos2Z.inj_succ, IH.
  - change (Zpos p~1) with (2 * Zpos p + 1). rewrite Z.log2_succ_double by lia. lia.
  - change (Zpos p~0) with (2 * Zpos p). rewrite Z.log2_double by lia. lia.
Qed.

Lemma record_of_loc_m m l : shr_m (shr_record_of_loc m l) = m.
Proof. by destruct l as [|[]]. Qed.

Lemma shr_fexp_m m e l r e' : 0 <= m ->
  shr_fexp 53 1024 m e l = (r, e') ->
  shr_m r = m / 2 ^ (Z.max 0 (fexp 53 1024 (Zdigits2 m + e) - e)) /\
  e' = Z.max e (fexp 53 1024 (Zdigits2 m + e)).
Proof.
  intros Hm. unfold shr_fexp, shr. set (n := fexp 53 1024 _ - e).
  assert (fexp 53 1024 (Zdigits2 m + e) = n + e) as -> by lia.
  destruct n as [|n|n]; intros E; simplify_eq.
  - rewrite record_of_loc_m, Z.max_id, Z.pow_0_r, Z.div_1_r. lia.
  - rewrite iter_shr_m by (by rewrite record_of_loc_m). rewrite record_of_loc_m, Z.max_r by lia. lia.
  - rewrite record_of_loc_m, Z.max_l, Z.pow_0_r, Z.div_1_r by lia. lia.
Qed.

Lemma round_even_le m l : m <= round_nearest_even m l <= m + 1.
Proof. destruct l as [|[]]; simpl; try lia. destruct (Z.even m); lia. Qed.

Lemma round_aux_signed s m e l : 0 <= m -> signed s (binary_round_aux 53 1024 s m e l).
Proof.
  intros Hm. unfold binary_round_aux.
  destruct (shr_fexp _ _ m e l) as [r1 e1] eqn:E1. apply shr_fexp_m in E1 as [Hm1 _]; [|done].
  assert (0 <= shr_m r1) by (rewrite Hm1; apply Z.div_pos; lia).
  pose proof (round_even_le (shr_m r1) (loc_of_shr_record r1)) as Hr.
  destruct (shr_fexp _ _ (round_nearest_even _ _) e1 loc_Exact) as [r2 e2] eqn:E2.
  apply shr_fexp_m in E2 as [Hm2 _]; [|lia].
  assert (0 <= shr_m r2) by (rewrite Hm2; apply Z.div_pos; lia).
  destruct (shr_m r2); [done| |lia]. by destruct (_ <=? _).
Qed.

Lemma fexp_max e : fexp 53 1024 e = Z.max (e - 53) (-1074).
Proof. reflexivity. Qed.

Lemma Zdigits2_log2 m : 0 < m -> Zdigits2 m = Z.log2 m + 1.
Proof. destruct m; simpl; try lia. intros _. apply digits2_log2. Qed.

(** A result in the normal range does not underflow or overflow. *)
Lemma round_aux_finite s m e :
  0 < m -> e <= 971 -> -1022 <= Z.log2 m + e <= 1022 ->
  exists m' e', binary_round_aux 53 1024 s m e loc_Exact = S754_finite s m' e'.
Proof.
  intros Hm He9 He. unfold binary_round_aux.
  destruct (shr_fexp _ _ m e _) as [r1 e1] eqn:E1. apply shr_fexp_m in E1 as [Hm1 He1]; [|lia].
  rewrite fexp_max, Zdigits2_log2 in Hm1, He1 by done.
  destruct (Z.log2_spec m Hm) as [Hlo Hhi].
  assert (0 < shr_m r1 /\ Z.log2 (shr_m r1) + e1 = Z.log2 m + e) as [Hp1 Hl1].
  { rewrite Hm1, He1. destruct (Z.le_gt_cases (Z.log2 m) 52).
    - rewrite Z.max_l, Z.pow_0_r, Z.div_1_r by lia. lia.
    - rewrite Z.max_r by lia. split; [apply Z.div_str_pos; split; [lia|]|].
      + etrans; [|exact Hlo]. apply Z.pow_le_mono_r; lia.
      + rewrite <- Z.shiftr_div_pow2, Z.log2_shiftr by lia. lia. }
  pose proof (round_even_le (shr_m r1) (loc_of_shr_record r1)) as Hr.
  set (m2 := round_nearest_even _ _) in *.
  destruct (shr_fexp _ _ m2 e1 loc_Exact) as [r2 e2] eqn:E2.
  apply shr_fexp_m in E2 as [Hm2 He2]; [|lia].
  rewrite fexp_max, Zdigits2_log2 in Hm2, He2 by lia.
  assert (Z.log2 (shr_m r1) <= Z.log2 m2 <= Z.log2 (shr_m r1) + 1) as Hl2.
  { split; [apply Z.log2_le_mono; lia|]. etrans; [apply Z.log2_le_mono, Hr|].
    apply Z.log2_succ_le. }
  assert (0 < shr_m r2).
  { pose proof (Z.log2_nonneg m2).
    rewrite Hm2. apply Z.div_str_pos. split; [lia|].
    etrans; [|apply Z.log2_spec; lia]. apply Z.pow_le_mono_r; lia. }
  destruct (shr_m r2) as [|p|p]; [lia| |lia]. exists p, e2.
  destruct (Z.leb_spec e2 (1024 - 53)); [done|]. lia.
Qed.

Lemma shl_align_pos m e e' : 
  let '(m', e'') := shl_align m e e' in Z.log2 (Zpos m') + e'' = Z.log2 (Zpos m) + e /\ e'' <= e.
Proof.
  unfold shl_align. destruct (e' - e) as [|d|d] eqn:Ed; [split; [done|lia]..|].
  assert (Zpos (Pos.iter xO m d) = Zpos m * 2 ^ Zpos d) as ->.
  { rewrite <- Z.shiftl_mul_pow2 by lia. unfold Z.shiftl. by apply (Pos.iter_swap_gen _ _ Zpos xO (Z.mul 2)). }
  rewrite Z.log2_mul_pow2 by lia. lia.
Qed.

Lemma binary_round_finite s m e :
  e <= 971 -> -1022 <= Z.log2 (Zpos m) + e <= 1022 ->
  exists m' e', binary_round 53 1024 s m e = S754_finite s m' e'.
Proof.
  intros He9 He. unfold binary_round. pose proof (shl_align_pos m e (fexp 53 1024 (Zpos (digits2_pos m) + e))) as Hs.
  destruct (shl_align _ _ _) as [m' e']. apply round_aux_finite; lia.
Qed.

(** An unsigned machine integer becomes a positive finite double, or zero. *)
Lemma f64_of_Z_finite z : 0 < z < 2 ^ 64 -> is_finite_pos (f64_of_Z z).
Proof.
  intros Hz. unfold f64_of_Z, binary_normalize. destruct z as [|p|p]; [lia| |lia].
  destruct (binary_round_finite false p 0) as (m' & e' & ->); [lia| |done].
  assert (Z.log2 (Zpos p) < 64) by (apply Z.log2_lt_pow2; lia).
  pose proof (Z.log2_nonneg (Zpos p)). lia.
Qed.

Lemma f64_normalize_pos m e s : 0 <= m -> s = false -> f64_pos (binary_normalize 53 1024 m e s).
Proof.
  intros Hm ->. unfold binary_normalize. destruct m as [|p|p]; [done| |lia].
  unfold binary_round. destruct (shl_align _ _ _) as [m' e']. by apply round_aux_signed.
Qed.

Lemma f64_of_Z_pos z : 0 <= z -> f64_pos (f64_of_Z z).
Proof. intros. by apply f64_normalize_pos. Qed.

Lemma f64_add_pos x y : f64_pos x -> f64_pos y -> f64_pos (f64_add x y).
Proof.
  destruct x as [b|b| |b m e], y as [b'|b'| |b' m' e']; simpl; try done; intros -> ->; try done.
  by apply f64_normalize_pos.
Qed.

Lemma f64_mul_pos x y : f64_pos x -> is_finite_pos y -> f64_pos (f64_mul x y).
Proof.
  destruct y as [b'|b'| |[] m' e']; try done.
  destruct x as [b|b| |b m e]; simpl; try done; intros ->; try done. intros _. by apply round_aux_signed.
Qed.

Lemma f64_div_pos x y : f64_pos x -> is_finite_pos y -> f64_pos (f64_div x y).
Proof.
  destruct y as [b'|b'| |[] m' e']; try done.
  destruct x as [b|b| |b m e]; try done; intros Hb _; simpl in Hb; subst b; try done.
  unfold f64_div, SFdiv, SFdiv_core_binary. 
  set (m1 := match _ with Z0 => _ | Zpos _ => _ | Zneg _ => _ end).
  assert (0 <= m1) as Hm1.
  { unfold m1. case_match; [lia| |lia]. apply Z.shiftl_nonneg. lia. }
  pose proof (Z.div_pos m1 (Zpos m') Hm1 ltac:(lia)) as Hq. unfold Z.div in Hq.
  destruct (Z.div_eucl m1 (Zpos m')) as [q r]. by apply round_aux_signed.
Qed.

(** ** Order *)

Lemma f64_pos_not_nan x : f64_pos x -> not_nan x.
Proof. by intros Hx ->. Qed.

Lemma cmp_f64_flip x y : cmp_f64 y x = CompOpp (cmp_f64 x y).
Proof.
  destruct x as [[]|[]| |[] m e], y as [[]|[]| |[] m' e']; try done; unfold cmp_f64; simpl;
    rewrite (Z.compare_antisym e e'); destruct (e ?= e'); simpl; try done;
    change (Pos.compare_cont Eq) with Pos.compare; rewrite (Pos.compare_antisym m m'); done.
Qed.

Lemma cmp_f64_trans x y z :
  not_nan y -> cmp_f64 x y <> Gt -> cmp_f64 y z <> Gt -> cmp_f64 x z <> Gt.
Proof.
  intros Hy. destruct y as [[]|[]| |[] m' e']; [..|done| |]; destruct x as [[]|[]| |[] m e], z as [[]|[]| |[] n f];
    try done; unfold cmp_f64; simpl; change (Pos.compare_cont Eq) with Pos.compare;
    destruct (Z.compare_spec e e'), (Z.compare_spec e' f), (Z.compare_spec e f); try done; try lia;
    destruct (Pos.compare_spec m m'), (Pos.compare_spec m' n), (Pos.compare_spec m n); (done || lia).
Qed.

#[export] Hint Resolve f64_as_u_range f64_of_Z_pos f64_of_Z_finite f64_add_pos f64_mul_pos f64_div_pos
  f64_pos_not_nan : rust.
