(* ===== verification/Errors.v ===== *)
(** The error type shared by every component (blixard-core/src/error/types.rs).
    Boxed [source] errors and free text that only a human reads (messages,
    reasons, formatted quantities) are dropped; the fields that identify what
    failed are kept. *)

From Stdlib Require Import ZArith.
From stdpp Require Import base strings.
From S2P Require Import Prelude.

Open Scope Z_scope.

Inductive BlixardError : Type :=
| ServiceNotFound (service : string)
| ServiceAlreadyExists (service : string)
| ServiceManagementError
| StorageError
| StorageTransactionError
| StorageTableError
| RaftError
| ClusterError
| ClusterJoin
| NodeError
| ConfigurationError (component : string)
| ConfigError
| Configuration
| Connection
| NetworkError
| SerializationError
| IoError
| SystemError
| Storage (operation : string)
| Raft (operation : string)
| Serialization (operation : string)
| Internal (message : string)
| NotImplemented (feature : string)
| VmOperationFailed (operation : string)
| VmOperationError (operation vm_name : string)
| SchedulingError (message : string)
| Security
| AuthorizationError
| NotFound (resource : string)
| NotInitialized (component : string)
| NotLeader (operation : string) (leader_id : option Z)
| InvalidInput (field : string)
| Validation (field : string)
| JsonError
| GrpcError
| P2PError
| QuotaExceeded (resource : string) (limit requested : Z)
| NodeNotFound (node_id : Z)
| InsufficientResources
| ResourceExhausted (resource : string)
| ResourceUnavailable (resource_type : string)
| LockPoisoned (operation : string)
| AlreadyExists (resource : string)
| InvalidOperation (operation : string)
| InvalidConfiguration
| Timeout (operation : string) (duration : Z)
| ConnectionError (address : string)
| TemporaryFailure
| DatabaseError (operation : string)
| Multiple (context : string) (errors : list BlixardError).

(** [BlixardResult<T>], with panics. *)
Abbreviation BlixardResult := (outcome BlixardError).
