(* ===== verification/AntiAffinity.v ===== *)
(** Anti-affinity rules and the constraint checker
    (blixard-core/src/anti_affinity.rs). *)

From Stdlib Require Import ZArith Lia List.
From stdpp Require Import base tactics numbers gmap strings option.
From stdpp Require Import list.
From S2P Require Import Prelude Float64.

Open Scope Z_scope.

(** * Rules *)

Inductive AntiAffinityType : Type :=
| Hard
| Soft (weight : f64).

Record AntiAffinityRule : Type := mkRule {
  rule_type : AntiAffinityType;
  group_key : string;
  max_per_node : Z;
  scope : option string
}.

Definition rule_hard (g : string) : AntiAffinityRule := mkRule Hard g 1 None.
Definition rule_soft (g : string) (w : f64) : AntiAffinityRule := mkRule (Soft w) g 1 None.
Definition with_max_per_node (r : AntiAffinityRule) (m : Z) : AntiAffinityRule :=
  mkRule (rule_type r) (group_key r) m (scope r).
Definition with_scope (r : AntiAffinityRule) (s : string) : AntiAffinityRule :=
  mkRule (rule_type r) (group_key r) (max_per_node r) (Some s).

(** [AntiAffinityRules] is the vector of rules. *)
Abbreviation AntiAffinityRules := (list AntiAffinityRule).

Definition add_rule (rules : AntiAffinityRules) (r : AntiAffinityRule) : AntiAffinityRules :=
  rules ++ [r].

Definition is_hard (r : AntiAffinityRule) : bool :=
  match rule_type r with Hard => true | Soft _ => false end.

Definition has_hard_constraints (rules : AntiAffinityRules) : bool := existsb is_hard rules.
Definition hard_constraints (rules : AntiAffinityRules) : list AntiAffinityRule :=
  List.filter is_hard rules.
Definition soft_constraints (rules : AntiAffinityRules) : list (AntiAffinityRule * f64) :=
  omap (fun r => match rule_type r with Soft w => Some (r, w) | Hard => None end) rules.

(** * Checker *)

(** [group_distribution]: group key to node id to number of VMs. *)
Abbreviation AntiAffinityChecker := (gmap string (gmap Z Z)).

(** One VM of the distribution handed to the constructor:
    name, groups, node. *)
Definition Placement : Type := string * list string * Z.

(** [*node_counts.entry(node_id).or_insert(0) += 1]. The counter cannot
    overflow: it is bounded by the size of the input vectors. *)
Definition count_one (node : Z) (d : AntiAffinityChecker) (g : string) : AntiAffinityChecker :=
  let node_counts := default ∅ (d !! g) in
  <[g := <[node := default 0 (node_counts !! node) + 1]> node_counts]> d.

Definition count_vm (d : AntiAffinityChecker) (p : Placement) : AntiAffinityChecker :=
  let '(_, groups, node) := p in foldl (count_one node) d groups.

Definition checker_new (vm_distribution : list Placement) : AntiAffinityChecker :=
  foldl count_vm ∅ vm_distribution.

(** The count a rule is compared with. *)
Definition current_count (d : AntiAffinityChecker) (g : string) (node : Z) : Z :=
  default 0 (d !! g ≫= fun nodes => nodes !! node).

(** The arguments of the message [check_hard_constraints] formats. *)
Record HardViolation : Type := mkViolation {
  v_group : string;
  v_count : Z;
  v_node : Z;
  v_max : Z
}.

Fixpoint check_rules (d : AntiAffinityChecker) (node : Z) (rules : list AntiAffinityRule)
    : outcome HardViolation unit :=
  match rules with
  | [] => Ok tt
  | r :: rules' =>
      let c := current_count d (group_key r) node in
      if max_per_node r <=? c
      then Err (mkViolation (group_key r) c node (max_per_node r))
      else check_rules d node rules'
  end.

Definition check_hard_constraints (d : AntiAffinityChecker) (rules : AntiAffinityRules)
    (candidate_node : Z) : outcome HardViolation unit :=
  check_rules d candidate_node (hard_constraints rules).

Definition calculate_soft_constraint_penalty (d : AntiAffinityChecker)
    (rules : AntiAffinityRules) (candidate_node : Z) : f64 :=
  foldl (fun total '(r, weight) =>
    let c := current_count d (group_key r) candidate_node in
    if max_per_node r <=? c
    then f64_add total (f64_mul (f64_of_Z (c - max_per_node r + 1)) weight)
    else total) f64_0 (soft_constraints rules).

Definition violating_of_rule (d : AntiAffinityChecker) (r : AntiAffinityRule) : gset Z :=
  match d !! group_key r with
  | Some node_counts => dom (filter (fun '(_, c) => max_per_node r <= c) node_counts)
  | None => ∅
  end.

Definition get_violating_nodes (d : AntiAffinityChecker) (rules : AntiAffinityRules) : gset Z :=
  foldl (fun acc r => acc ∪ violating_of_rule d r) ∅ (hard_constraints rules).

Definition check_placement (d : AntiAffinityChecker) (_vm_name : string)
    (candidate_node : Z) (rules : AntiAffinityRules) : outcome HardViolation unit :=
  check_hard_constraints d rules candidate_node.

Definition get_group_distribution (d : AntiAffinityChecker) (g : string) : option (gmap Z Z) :=
  d !! g.

(** * What the checker counts *)

(** How often group [g] is listed by VMs placed on [node]. *)
Fixpoint occurrences (g : string) (groups : list string) : Z :=
  match groups with
  | [] => 0
  | g' :: gs => (if bool_decide (g' = g) then 1 else 0) + occurrences g gs
  end.

Definition group_count (vms : list Placement) (g : string) (node : Z) : Z :=
  foldr (fun '(_, groups, n) acc =>
    (if bool_decide (n = node) then occurrences g groups else 0) + acc) 0 vms.

Lemma current_count_count_one n d g' g node :
  current_count (count_one n d g') g node =
  current_count d g node + (if bool_decide (g' = g /\ n = node) then 1 else 0).
Proof.
  unfold current_count, count_one.
  case_bool_decide as Hd.
  - destruct Hd as [-> ->]. rewrite lookup_insert_eq; simpl.
    rewrite lookup_insert_eq; simpl. by destruct (d !! g).
  - destruct (decide (g' = g)) as [->|Hg].
    + rewrite lookup_insert_eq; simpl.
      rewrite lookup_insert_ne by naive_solver.
      destruct (d !! g); simpl; [|rewrite lookup_empty; simpl]; lia.
    + rewrite lookup_insert_ne by done. lia.
Qed.

Lemma current_count_groups n groups d g node :
  current_count (foldl (count_one n) d groups) g node =
  current_count d g node + (if bool_decide (n = node) then occurrences g groups else 0).
Proof.
  revert d. induction groups as [|g' gs IH]; intros d; simpl.
  - case_bool_decide; lia.
  - rewrite IH, current_count_count_one.
    repeat case_bool_decide; try lia; naive_solver.
Qed.

Lemma current_count_vms vms d g node :
  current_count (foldl count_vm d vms) g node =
  current_count d g node + group_count vms g node.
Proof.
  revert d. induction vms as [|[[nm gs] n] vms IH]; intros d; simpl; [lia|].
  rewrite IH, current_count_groups. lia.
Qed.

Lemma check_rules_ok d node rules :
  check_rules d node rules = Ok tt <->
  Forall (fun r => current_count d (group_key r) node < max_per_node r) rules.
Proof.
  induction rules as [|r rules IH]; simpl; [by split; [constructor|]|].
  rewrite Forall_cons, <-IH.
  destruct (Z.leb_spec (max_per_node r) (current_count d (group_key r) node));
    naive_solver lia.
Qed.

Lemma check_rules_err d node rules v :
  check_rules d node rules = Err v ->
  exists r, r ∈ rules /\ v = mkViolation (group_key r) (current_count d (group_key r) node)
                               node (max_per_node r)
            /\ max_per_node r <= current_count d (group_key r) node.
Proof.
  induction rules as [|r rules IH]; simpl; [done|].
  destruct (Z.leb_spec (max_per_node r) (current_count d (group_key r) node)).
  - intros [= <-]. exists r. split_and!; [left|done|lia].
  - intros (r' & ? & ?)%IH. exists r'. split; [by right|done].
Qed.

Lemma check_rules_total d node rules :
  check_rules d node rules = Ok tt \/ exists v, check_rules d node rules = Err v.
Proof.
  induction rules as [|r rules IH]; simpl; [by left|].
  destruct (_ <=? _); [right; eauto|done].
Qed.

Lemma hard_constraints_elem r rules :
  r ∈ hard_constraints rules <-> r ∈ rules /\ rule_type r = Hard.
Proof.
  unfold hard_constraints. rewrite !list_elem_of_In, filter_In. unfold is_hard.
  destruct (rule_type r); naive_solver.
Qed.

Lemma get_violating_nodes_elem d rules node :
  node ∈ get_violating_nodes d rules <->
  exists r, r ∈ hard_constraints rules /\ node ∈ violating_of_rule d r.
Proof.
  unfold get_violating_nodes.
  assert (Hacc : forall acc l, node ∈ foldl (fun acc r => acc ∪ violating_of_rule d r) acc l <->
    node ∈ acc \/ exists r, r ∈ l /\ node ∈ violating_of_rule d r).
  { intros acc l. revert acc. induction l as [|r l IH]; intros acc; simpl.
    - split; [by left|]. intros [?|(r & Hr%not_elem_of_nil & _)]; done.
    - rewrite IH, elem_of_union. setoid_rewrite elem_of_cons. naive_solver. }
  rewrite Hacc. set_solver.
Qed.

Lemma violating_of_rule_elem d r node :
  node ∈ violating_of_rule d r <->
  exists nodes c, d !! group_key r = Some nodes /\ nodes !! node = Some c /\ max_per_node r <= c.
Proof.
  unfold violating_of_rule. destruct (d !! group_key r) as [nodes|] eqn:E.
  - rewrite elem_of_dom. unfold is_Some. setoid_rewrite map_lookup_filter_Some.
    naive_solver.
  - rewrite elem_of_empty. naive_solver.
Qed.

(** * Properties *)

(** The checker built from a distribution counts, for every group and
    node, exactly how often VMs placed on that node list the group. *)
Theorem checker_new_counts vms g node :
  current_count (checker_new vms) g node = group_count vms g node.
Proof. unfold checker_new. rewrite current_count_vms. reflexivity. Qed.

(** For rules that allow at least one VM per node, the set of violating
    nodes is exactly the set of nodes a placement check refuses. *)
Theorem violating_nodes_are_refused d rules node :
  (forall r, r ∈ rules -> rule_type r = Hard -> 1 <= max_per_node r) ->
  node ∈ get_violating_nodes d rules <->
  exists v, check_hard_constraints d rules node = Err v.
Proof.
  intros Hpos. rewrite get_violating_nodes_elem. unfold check_hard_constraints. split.
  - intros (r & Hr & (nodes & c & Hd & Hn & Hc)%violating_of_rule_elem).
    destruct (check_rules_total d node (hard_constraints rules)) as [Hok|?]; [|done].
    apply check_rules_ok in Hok. rewrite Forall_forall in Hok.
    specialize (Hok r Hr). unfold current_count in Hok. rewrite Hd in Hok; simpl in Hok.
    rewrite Hn in Hok; simpl in Hok. lia.
  - intros (v & (r & Hr & -> & Hc)%check_rules_err). exists r. split; [done|].
    apply violating_of_rule_elem. unfold current_count in Hc.
    apply hard_constraints_elem in Hr as [Hr Ht]. specialize (Hpos r Hr Ht).
    destruct (d !! group_key r) as [nodes|]; simpl in Hc; [|lia].
    destruct (nodes !! node) as [c|] eqn:E; simpl in Hc; [|lia]. eauto.
Qed.

Lemma violating_nodes_are_refused_witness :
  let d := checker_new [("web1", ["web-app"], 1); ("web2", ["web-app"], 1);
                        ("web3", ["web-app"], 2)]%string in
  let rules := [with_max_per_node (rule_hard "web-app") 2] in
  1 ∈ get_violating_nodes d rules <-> exists v, check_hard_constraints d rules 1 = Err v.
Proof.
  intros d rules. apply (violating_nodes_are_refused d rules 1).
  intros r Hr _. apply list_elem_of_singleton in Hr as ->. simpl. lia.
Defined.
