(* ===== verification/VmHealth.v ===== *)
(** VM health checks: configuration types and the health status state machine
    (blixard-core/src/vm_health_types.rs). *)

From Stdlib Require Import ZArith Lia List SpecFloat.
From stdpp Require Import base tactics numbers gmap strings option.
From stdpp Require Import list relations.
From S2P Require Import Prelude Float64 Errors.

Open Scope Z_scope.

(** * Configuration *)

Inductive HealthCheckType : Type :=
| Http (url : string) (expected_status timeout_secs : Z)
       (headers : option (list (string * string)))
| Tcp (address : string) (timeout_secs : Z)
| Script (command : string) (args : list string) (expected_exit_code timeout_secs : Z)
| Console (healthy_pattern : string) (unhealthy_pattern : option string) (timeout_secs : Z)
| Process (process_name : string) (min_instances : Z)
| GuestAgent (timeout_secs : Z).

Inductive HealthCheckPriority : Type := Quick | Deep | Comprehensive.

Inductive RecoveryAction : Type :=
| NoAction
| RestartService (service_name : string)
| RestartVm
| MigrateVmTo (target_node : option Z)
| StopVm
| CustomScript (script_path : string) (args : list string).

(** Durations in nanoseconds. *)
Record RecoveryEscalation : Type := mkEscalation {
  actions : list (RecoveryAction * Z);
  max_attempts : Z;
  reset_after : Z
}.

Record HealthCheck : Type := mkHealthCheck {
  hc_name : string;
  check_type : HealthCheckType;
  hc_critical : bool;
  hc_weight : f32;
  hc_priority : HealthCheckPriority;
  recovery_escalation : option RecoveryEscalation;
  hc_failure_threshold : Z
}.

Record VmHealthCheckConfig : Type := mkHealthConfig {
  checks : list HealthCheck;
  check_interval_secs : Z;
  failure_threshold : Z;
  success_threshold : Z;
  initial_delay_secs : Z
}.

Definition default_health_config : VmHealthCheckConfig := mkHealthConfig [] 30 3 2 60.

#[export] Instance HealthCheckPriority_eq_dec : EqDecision HealthCheckPriority.
Proof. solve_decision. Defined.

Definition priority_code (p : HealthCheckPriority) : Z :=
  match p with Quick => 0 | Deep => 1 | Comprehensive => 2 end.

Definition timeout_multiplier (p : HealthCheckPriority) : f32 :=
  match p with Quick => f32_of_Z 1 | Deep => f32_of_Z 2 | Comprehensive => f32_of_Z 3 end.

(** * Health status *)

Inductive HealthState : Type :=
| Healthy | Degraded | Unhealthy | Unresponsive | Critical | Unknown.

#[export] Instance HealthState_eq_dec : EqDecision HealthState.
Proof. solve_decision. Defined.

Definition needs_attention (s : HealthState) : bool :=
  match s with Unhealthy | Unresponsive | Critical => true | _ => false end.
Definition is_operational (s : HealthState) : bool :=
  match s with Healthy | Degraded => true | _ => false end.
Definition escalation_level (s : HealthState) : Z :=
  match s with
  | Healthy => 0 | Degraded => 1 | Unhealthy => 2 | Unresponsive => 3 | Critical => 4
  | Unknown => 0
  end.
Definition requires_immediate_action (s : HealthState) : bool :=
  match s with Critical | Unresponsive => true | _ => false end.

Record HealthCheckResult : Type := mkCheckResult {
  check_name : string;
  success : bool;
  duration_ms : Z;
  timestamp_secs : Z;
  priority : HealthCheckPriority;
  critical : bool;
  recovery_action : option RecoveryAction
}.

Record VmHealthStatus : Type := mkHealthStatus {
  state : HealthState;
  score : f32;
  check_results : list HealthCheckResult;
  last_healthy_at_secs : option Z;
  consecutive_failures : Z;
  consecutive_successes : Z
}.

Definition default_health_status : VmHealthStatus :=
  mkHealthStatus Unknown (S754_zero false) [] None 0 0.

(** [iter().filter(p).count()]. *)
Definition count_results (p : HealthCheckResult -> bool) (rs : list HealthCheckResult) : Z :=
  Z.of_nat (length (List.filter p rs)).

Definition calculate_score (s : VmHealthStatus) : VmHealthStatus :=
  let sc :=
    match check_results s with
    | [] => S754_zero false
    | rs => SFdiv 24 128 (f32_of_Z (count_results success rs)) (f32_of_Z (Z.of_nat (length rs)))
    end in
  mkHealthStatus (state s) sc (check_results s) (last_healthy_at_secs s)
    (consecutive_failures s) (consecutive_successes s).

Definition is_comprehensive (r : HealthCheckResult) : bool :=
  bool_decide (priority r = Comprehensive).

(** The state [update_state] moves to; [twice] is [failure_threshold * 2]. *)
Definition next_state (config : VmHealthCheckConfig) (twice : Z) (s : VmHealthStatus) : HealthState :=
  let rs := check_results s in
  let critical_failures := count_results (fun r => critical r && negb (success r)) rs in
  let comprehensive_failures :=
    count_results (fun r => is_comprehensive r && negb (success r)) rs in
  let total_comprehensive := count_results is_comprehensive rs in
  if (0 <? critical_failures) && (twice <=? consecutive_failures s)
  then Critical
  else if (0 <? critical_failures)
       || ((comprehensive_failures =? total_comprehensive) && (0 <? total_comprehensive))
  then Unhealthy
  else if match rs with [] => true | _ => false end
       || (failure_threshold config <=? consecutive_failures s)
  then Unresponsive
  else if SFleb (f32_lit 9 10) (score s) then Healthy
  else if SFleb (f32_lit 5 10) (score s) then Degraded
  else Unhealthy.

(** [update_state]. [failure_threshold * 2] is evaluated only when a critical
    check failed ([&&] is lazy). *)
Definition update_state `{Profile} (config : VmHealthCheckConfig) (now : Z)
    (s : VmHealthStatus) : BlixardResult VmHealthStatus :=
  let critical_failures :=
    count_results (fun r => critical r && negb (success r)) (check_results s) in
  let? twice := (if 0 <? critical_failures
                 then arith_u 32 (failure_threshold config * 2) else Ok 0) in
  let st' := next_state config twice s in
  if bool_decide (st' = Healthy) then
    let? succ := arith_u 32 (consecutive_successes s + 1) in
    Ok (mkHealthStatus st' (score s) (check_results s) (Some now) 0 succ)
  else
    let? fails := arith_u 32 (consecutive_failures s + 1) in
    Ok (mkHealthStatus st' (score s) (check_results s) (last_healthy_at_secs s) fails 0).

Definition get_highest_failing_priority (s : VmHealthStatus) : option HealthCheckPriority :=
  foldl (fun highest r =>
    if success r then highest
    else match highest with
         | None => Some (priority r)
         | Some current =>
             if priority_code current <? priority_code (priority r)
             then Some (priority r) else highest
         end) None (check_results s).

Definition should_escalate_checks (s : VmHealthStatus) (current : HealthCheckPriority) : bool :=
  match current with
  | Comprehensive => false
  | p => existsb (fun r => bool_decide (priority r = p) && negb (success r)) (check_results s)
  end.

(** The loop of [should_trigger_recovery] over the results, latest first. *)
Fixpoint failing_run (name : string) (rs : list HealthCheckResult) (acc : Z) : Z :=
  match rs with
  | [] => acc
  | r :: rs' =>
      if bool_decide (check_name r = name)
      then if success r then acc else failing_run name rs' (acc + 1)
      else failing_run name rs' acc
  end.

Definition should_trigger_recovery (s : VmHealthStatus) (name : string) (threshold : Z) : bool :=
  threshold <=? failing_run name (rev (check_results s)) 0.

(** One round of health checking: new results are recorded, the score and the
    state are recomputed. *)
Definition with_results (rs : list HealthCheckResult) (s : VmHealthStatus) : VmHealthStatus :=
  mkHealthStatus (state s) (score s) rs (last_healthy_at_secs s)
    (consecutive_failures s) (consecutive_successes s).

Inductive health_round `{Profile} (config : VmHealthCheckConfig)
    : VmHealthStatus -> VmHealthStatus -> Prop :=
| health_round_step s rs now s' :
    update_state config now (calculate_score (with_results rs s)) = Ok s' ->
    health_round config s s'.

(** * Lemmas *)

Lemma next_state_stuck config twice s :
  failure_threshold config <= consecutive_failures s -> next_state config twice s <> Healthy.
Proof.
  intros Hf. unfold next_state. repeat case_match; try done.
  bools. lia.
Qed.

Lemma count_results_pos p rs : 0 < count_results p rs <-> exists r, r ∈ rs /\ p r = true.
Proof.
  unfold count_results. split.
  - destruct (List.filter p rs) as [|r l] eqn:E; simpl; [lia|]. intros _.
    exists r. assert (In r (List.filter p rs)) as Hr by (rewrite E; by left).
    apply filter_In in Hr as [??]. split; [by apply list_elem_of_In|done].
  - intros (r & Hr%list_elem_of_In & Hp).
    assert (In r (List.filter p rs)) as Hin by (apply filter_In; done).
    destruct (List.filter p rs); [done|]. simpl. lia.
Qed.

Lemma failing_run_mono name rs acc : acc <= failing_run name rs acc.
Proof.
  revert acc. induction rs as [|r rs IH]; intros acc; simpl; [lia|].
  case_bool_decide; [destruct (success r)|]; [lia| |].
  - specialize (IH (acc + 1)). lia.
  - apply IH.
Qed.

Section Rounds.
Context `{Profile} (config : VmHealthCheckConfig).

Lemma update_state_stuck now s s' :
  failure_threshold config <= consecutive_failures s ->
  update_state config now s = Ok s' ->
  state s' <> Healthy /\
  exists f, arith_u (E:=BlixardError) 32 (consecutive_failures s + 1) = Ok f /\
            consecutive_failures s' = f.
Proof.
  intros Hf Hu. unfold update_state in Hu.
  apply obind_ok in Hu as (twice & _ & Hu).
  case_bool_decide as Hs; [by apply next_state_stuck in Hs|].
  apply obind_ok in Hu as (f & Hf' & [= <-]). simpl. eauto.
Qed.

Lemma update_state_counters now s s' :
  update_state config now s = Ok s' ->
  (state s' = Healthy /\ consecutive_failures s' = 0 /\ last_healthy_at_secs s' = Some now) \/
  (state s' <> Healthy /\ consecutive_successes s' = 0
     /\ last_healthy_at_secs s' = last_healthy_at_secs s).
Proof.
  intros Hu. unfold update_state in Hu. apply obind_ok in Hu as (twice & _ & Hu).
  case_bool_decide; apply obind_ok in Hu as (f & _ & [= <-]); simpl; auto.
Qed.

Lemma health_rounds_stuck n s s' :
  failure_threshold config <= consecutive_failures s ->
  0 <= consecutive_failures s -> consecutive_failures s + Z.of_nat n < 2 ^ 32 ->
  nsteps (health_round config) n s s' ->
  (0 < n)%nat -> state s' <> Healthy /\ consecutive_failures s' = consecutive_failures s + Z.of_nat n.
Proof.
  intros Hf H0 Hb Hn. revert Hf H0 Hb.
  induction Hn as [s|n s1 s2 s3 Hstep Hn IH]; intros Hf H0 Hb Hpos; [lia|].
  destruct Hstep as [s rs now s' Hu].
  apply update_state_stuck in Hu as (Hs & f & Hf' & Hc); [|done]. simpl in *.
  rewrite arith_u_fits in Hf' by lia. injection Hf' as <-.
  destruct n as [|n].
  - inversion Hn; subst. split; [done|lia].
  - destruct IH as [Hs3 Hc3]; [lia..|]. split; [done|]. lia.
Qed.
End Rounds.

(** * Properties *)

(** Once the consecutive failures of a VM have reached the failure
    threshold, no later round of checks marks it healthy again, whatever the
    checks return: for as long as the failure counter does not wrap, every
    round leaves a state other than [Healthy] and counts one more failure. *)
Theorem health_never_recovers `{Profile} config n s s' :
  failure_threshold config <= consecutive_failures s ->
  0 <= consecutive_failures s -> consecutive_failures s + Z.of_nat n < 2 ^ 32 ->
  (0 < n)%nat -> nsteps (health_round config) n s s' ->
  state s' <> Healthy /\ consecutive_failures s' = consecutive_failures s + Z.of_nat n.
Proof. eauto using health_rounds_stuck. Qed.

(** A single passing check, and a status that already failed three times. *)
Definition passing_check : HealthCheckResult :=
  mkCheckResult "ping" true 1 0 Quick true None.
Definition thrice_failed : VmHealthStatus :=
  mkHealthStatus Unhealthy (S754_zero false) [passing_check] None 3 0.

Lemma health_never_recovers_witness :
  exists s', nsteps (health_round (H:=true) default_health_config) 1 thrice_failed s' /\
    state s' <> Healthy /\ consecutive_failures s' = 3 + Z.of_nat 1.
Proof.
  eexists.
  assert (Hn : nsteps (health_round (H:=true) default_health_config) 1 thrice_failed
    (mkHealthStatus Unresponsive (f32_of_Z 1) [passing_check] None 4 0)).
  { eapply nsteps_l; [|apply nsteps_O].
    apply (health_round_step (H:=true) _ _ [passing_check] 0). vm_compute. reflexivity. }
  split; [exact Hn|].
  apply (health_never_recovers (H:=true) default_health_config 1 thrice_failed);
    [vm_compute; congruence|vm_compute; congruence|vm_compute; reflexivity|lia|exact Hn].
Defined.
