(* ===== verification/Types.v ===== *)
(** Core domain types (blixard-core/src/types.rs): VM configurations, states,
    commands, identifiers and their conversions. *)

From Stdlib Require Import ZArith Lia List Ascii.
From stdpp Require Import base tactics numbers gmap strings option.
From stdpp Require Import list.
From S2P Require Import Prelude Float64 Errors AntiAffinity VmHealth.

Open Scope Z_scope.

(** * VM identifiers *)

(** A [Uuid] is its 16 bytes. *)
Abbreviation VmId := (list Z).

(** [VmId::from_string], from the 64-bit hash of the string
    ([DefaultHasher]). *)
Definition vm_id_of_hash (hash : Z) : VmId :=
  let byte sh := wrap_u 8 (Z.shiftr hash sh) in
  [byte 56; byte 48; byte 40; byte 32; byte 24; byte 16;
   Z.lor 0x40 (wrap_u 8 (Z.land (Z.shiftr hash 12) 0x0f));
   byte 8;
   Z.lor 0x80 (wrap_u 8 (Z.land (Z.shiftr hash 4) 0x3f));
   byte 0; byte 32; byte 24; byte 16; byte 8; byte 0; byte 56].

(** * Node and VM configuration *)

Record NodeTopology : Type := mkTopology {
  datacenter : string;
  zone : string;
  rack : string
}.

Definition default_topology : NodeTopology :=
  mkTopology "default-dc" "default-zone" "default-rack".

Record LocalityPreference : Type := mkLocality {
  preferred_datacenter : option string;
  preferred_zone : option string;
  enforce_same_datacenter : bool;
  spread_across_zones : bool;
  max_latency_ms : option Z;
  excluded_datacenters : list string
}.

Definition default_locality : LocalityPreference := mkLocality None None false false None [].

Record VmConfig : Type := mkVmConfig {
  vm_name : string;
  config_path : string;
  vcpus : Z;
  memory : Z;
  tenant_id : string;
  ip_address : option string;
  metadata : option (gmap string string);
  anti_affinity : option AntiAffinityRules;
  vm_priority : Z;
  preemptible : bool;
  locality_preference : LocalityPreference;
  health_check_config : option VmHealthCheckConfig
}.

Definition default_vm_config : VmConfig :=
  mkVmConfig "" "" 1 1024 "default" None None None 500 true default_locality None.

(** The four refusals of [VmConfig::validate], in its order. *)
Inductive VmConfigDefect : Type :=
| PriorityOutOfRange (p : Z)
| EmptyName
| NoVcpus
| NoMemory.

Definition vm_config_validate (c : VmConfig) : outcome VmConfigDefect unit :=
  if 1000 <? vm_priority c then Err (PriorityOutOfRange (vm_priority c))
  else if String.eqb (vm_name c) "" then Err EmptyName
  else if vcpus c =? 0 then Err NoVcpus
  else if memory c =? 0 then Err NoMemory
  else Ok tt.

(** * VM status *)

Inductive VmStatus : Type := Creating | Starting | Running | Stopping | Stopped | Failed.

#[export] Instance VmStatus_eq_dec : EqDecision VmStatus.
Proof. solve_decision. Defined.

Definition vm_status_to_string (s : VmStatus) : string :=
  match s with
  | Creating => "creating" | Starting => "starting" | Running => "running"
  | Stopping => "stopping" | Stopped => "stopped" | Failed => "failed"
  end.

(** [str::to_lowercase] on ASCII. No other character lowers to one of the
    letters the parsers below match on. *)
Definition lower_ascii (a : ascii) : ascii :=
  let n := nat_of_ascii a in
  if (65 <=? n)%nat && (n <=? 90)%nat then ascii_of_nat (n + 32) else a.
Fixpoint to_lowercase (s : string) : string :=
  match s with
  | EmptyString => EmptyString
  | String a s' => String (lower_ascii a) (to_lowercase s')
  end.

Definition vm_status_from_str (s : string) : BlixardResult VmStatus :=
  let l := to_lowercase s in
  if String.eqb l "creating" then Ok Creating
  else if String.eqb l "starting" then Ok Starting
  else if String.eqb l "running" then Ok Running
  else if String.eqb l "stopping" then Ok Stopping
  else if String.eqb l "stopped" then Ok Stopped
  else if String.eqb l "failed" then Ok Failed
  else Err (ConfigurationError "vm_status").

Definition vm_status_to_i32 (s : VmStatus) : Z :=
  match s with
  | Creating => 1 | Starting => 2 | Running => 3 | Stopping => 4 | Stopped => 5 | Failed => 6
  end.

Definition vm_status_try_from_i32 (value : Z) : BlixardResult VmStatus :=
  match value with
  | 1 => Ok Creating | 2 => Ok Starting | 3 => Ok Running
  | 4 => Ok Stopping | 5 => Ok Stopped | 6 => Ok Failed
  | _ => Err (ConfigurationError "vm_status")
  end.

(** * Node state *)

Inductive NodeState : Type :=
| Uninitialized | Initialized | JoiningCluster | Active | LeavingCluster | NodeStateError.

Definition node_state_to_string (s : NodeState) : string :=
  match s with
  | Uninitialized => "uninitialized" | Initialized => "initialized"
  | JoiningCluster => "joining_cluster" | Active => "active"
  | LeavingCluster => "leaving_cluster" | NodeStateError => "error"
  end.

Definition node_state_from_str (s : string) : BlixardResult NodeState :=
  let l := to_lowercase s in
  if String.eqb l "uninitialized" then Ok Uninitialized
  else if String.eqb l "initialized" then Ok Initialized
  else if String.eqb l "joining_cluster" || String.eqb l "joining-cluster" then Ok JoiningCluster
  else if String.eqb l "active" then Ok Active
  else if String.eqb l "leaving_cluster" || String.eqb l "leaving-cluster" then Ok LeavingCluster
  else if String.eqb l "error" then Ok NodeStateError
  else Err (ConfigurationError "node_state").

(** * VM state and commands *)

(** Timestamps are the clock readings, as integers. *)
Record VmState : Type := mkVmState {
  vs_name : string;
  vs_config : VmConfig;
  vs_status : VmStatus;
  vs_node_id : Z;
  vs_created_at : Z;
  vs_updated_at : Z
}.

Record VmMigrationTask : Type := mkMigration {
  mt_vm_name : string;
  source_node_id : Z;
  target_node_id : Z;
  live_migration : bool;
  force : bool
}.

Inductive VmCommand : Type :=
| VmCreate (config : VmConfig) (node_id : Z)
| VmStart (name : string)
| VmStop (name : string)
| VmDelete (name : string)
| VmUpdateStatus (name : string) (status : VmStatus)
| VmMigrate (task : VmMigrationTask).

Definition set_vs_status (s : VmStatus) (v : VmState) : VmState :=
  mkVmState (vs_name v) (vs_config v) s (vs_node_id v) (vs_created_at v) (vs_updated_at v).
Definition set_vs_node (n : Z) (v : VmState) : VmState :=
  mkVmState (vs_name v) (vs_config v) (vs_status v) n (vs_created_at v) (vs_updated_at v).

Lemma version_byte n : 0 <= n < 16 -> Z.lor 0x40 n = 64 + n /\ Z.shiftr (64 + n) 4 = 4.
Proof.
  intros H. pose proof (forall_below 16
    (fun n => (Z.lor 0x40 n =? 64 + n) && (Z.shiftr (64 + n) 4 =? 4)) eq_refl n H) as Hb.
  cbv beta in Hb. bools. auto.
Qed.

Lemma variant_byte n : 0 <= n < 64 -> Z.lor 0x80 n = 128 + n /\ Z.shiftr (128 + n) 6 = 2.
Proof.
  intros H. pose proof (forall_below 64
    (fun n => (Z.lor 0x80 n =? 128 + n) && (Z.shiftr (128 + n) 6 =? 2)) eq_refl n H) as Hb.
  cbv beta in Hb. bools. auto.
Qed.

Lemma land_mask_range z k : 0 <= k -> 0 <= Z.land z (Z.ones k) < 2 ^ k.
Proof.
  intros Hk. rewrite Z.land_ones by done. apply Z.mod_pos_bound, Z.pow_pos_nonneg; lia.
Qed.

(** * Properties *)

(** The identifier derived from any hash is a well-formed version-4 UUID:
    sixteen bytes, version nibble 4 and variant bits 10. *)
Theorem vm_id_is_uuid_v4 hash :
  length (vm_id_of_hash hash) = 16%nat /\
  Forall (fun b => 0 <= b < 256) (vm_id_of_hash hash) /\
  (exists b6, vm_id_of_hash hash !! 6%nat = Some b6 /\ Z.shiftr b6 4 = 4) /\
  (exists b8, vm_id_of_hash hash !! 8%nat = Some b8 /\ Z.shiftr b8 6 = 2).
Proof.
  pose proof (land_mask_range (Z.shiftr hash 12) 4 ltac:(lia)) as H6.
  pose proof (land_mask_range (Z.shiftr hash 4) 6 ltac:(lia)) as H8.
  change (Z.ones 4) with 15 in H6. change (Z.ones 6) with 63 in H8.
  apply version_byte in H6 as H6'. apply variant_byte in H8 as H8'.
  assert (Hb : forall z, 0 <= wrap_u 8 z < 256) by (intros z; apply Z.mod_pos_bound; lia).
  unfold vm_id_of_hash, wrap_u.
  rewrite (Z.mod_small (Z.land (Z.shiftr hash 12) 15)) by lia.
  rewrite (Z.mod_small (Z.land (Z.shiftr hash 4) 63)) by lia.
  destruct H6' as [-> ?], H8' as [-> ?].
  split_and!; [done| |eauto|eauto].
  repeat constructor; try apply Hb; lia.
Qed.

(** Every VM status and node state survives printing and parsing, in any
    letter case for the status, and the numeric codes convert both ways. *)
Theorem status_round_trips :
  (forall s, vm_status_from_str (vm_status_to_string s) = Ok s) /\
  (forall s t, to_lowercase t = vm_status_to_string s -> vm_status_from_str t = Ok s) /\
  (forall s, vm_status_try_from_i32 (vm_status_to_i32 s) = Ok s) /\
  (forall z s, vm_status_try_from_i32 z = Ok s -> z = vm_status_to_i32 s) /\
  (forall s, node_state_from_str (node_state_to_string s) = Ok s).
Proof.
  split_and!.
  - by intros [].
  - intros s t E. unfold vm_status_from_str. rewrite E. by destruct s.
  - by intros [].
  - intros z s. unfold vm_status_try_from_i32. repeat case_match; naive_solver.
  - by intros [].
Qed.
