(* ===== verification/ResourcePool.v ===== *)
(** The generic resource pool (blixard-core/src/patterns/resource_pool.rs): a
    queue of idle resources, a semaphore that limits how many are out, and a
    factory.

    Each operation is defined as the code writes it, for a call that runs alone.  In
    the histories calls overlap: a call in progress is at a [stage], and a step takes
    one of them from one lock or call of the factory to the next ([advance]);
    [acquire_stages] and [return_stages] relate the two.  Waiting for a permit ends
    when the permit is granted; an acquisition may be cancelled while it waits for
    something. *)

From Stdlib Require Import ZArith Lia List.
From stdpp Require Import base tactics numbers gmap strings option.
From stdpp Require Import list relations.
From S2P Require Import Prelude Errors.

Open Scope Z_scope.

(** * Interfaces *)

(** The trait [PoolableResource]. *)
Class PoolableResource (T : Type) : Type := {
  is_valid : T -> bool;
  reset : T -> BlixardResult T
}.

(** The trait [ResourceFactory]; [F] is the state the factory keeps. *)
Class ResourceFactory (F T : Type) : Type := {
  create : st F BlixardError T;
  destroy : T -> st F BlixardError unit
}.

(** * State *)

Record PoolConfig : Type := mkPoolConfig {
  max_size : Z;
  min_size : Z;
  acquire_timeout : Z;
  validate_on_acquire : bool;
  reset_on_acquire : bool
}.

Definition default_pool_config : PoolConfig := mkPoolConfig 10 0 30 true false.

(** [permits] is the number of permits the semaphore has left. *)
Record ResourcePool (T : Type) : Type := mkPool {
  available : list T;
  permits : Z;
  pool_config : PoolConfig;
  total_created : Z
}.
Arguments mkPool {T} available permits pool_config total_created.
Arguments available {T} r.
Arguments permits {T} r.
Arguments pool_config {T} r.
Arguments total_created {T} r.

Record PoolStats : Type := mkStats {
  stats_available : Z;
  stats_in_use : Z;
  stats_total_created : Z;
  stats_max_size : Z
}.

(** [tokio::sync::Semaphore::MAX_PERMITS] on a 64-bit target; creating a
    semaphore with more permits, or adding permits beyond it, panics. *)
Definition MAX_PERMITS : Z := 2 ^ 61 - 1.

(** * Operations *)

Section Operations.
Context `{Profile} {F T : Type} `{PoolableResource T} `{ResourceFactory F T}.

(** The pool together with the state of its factory. *)
Definition pool_state : Type := ResourcePool T * F.

Definition set_available (l : list T) (p : ResourcePool T) : ResourcePool T :=
  mkPool l (permits p) (pool_config p) (total_created p).
Definition set_permits (n : Z) (p : ResourcePool T) : ResourcePool T :=
  mkPool (available p) n (pool_config p) (total_created p).
Definition set_total_created (n : Z) (p : ResourcePool T) : ResourcePool T :=
  mkPool (available p) (permits p) (pool_config p) n.

Definition on_pool (f : ResourcePool T -> ResourcePool T) : st pool_state BlixardError unit :=
  smodify (fun '(p, fs) => (f p, fs)).

Definition on_factory {A} (m : st F BlixardError A) : st pool_state BlixardError A :=
  fun '(p, fs) => let '(r, fs') := m fs in (r, (p, fs')).

Definition pool_new (config : PoolConfig) : BlixardResult (ResourcePool T) :=
  if MAX_PERMITS <? max_size config then Panic
  else Ok (mkPool [] (max_size config) config 0).

(** The loop of [initialize]: resources created, and whether any creation
    failed. *)
Fixpoint initialize_loop (n : nat) (created : Z) (failed : bool)
    : st pool_state BlixardError (Z * bool) :=
  match n with
  | O => sret (created, failed)
  | S n' => fun s =>
      match on_factory create s with
      | (Ok r, s') =>
          (on_pool (fun p => set_available (available p ++ [r]) p) ;*
           initialize_loop n' (created + 1) failed) s'
      | (Err _, s') => initialize_loop n' created true s'
      | (Panic, s') => (Panic, s')
      end
  end.

Definition initialize : st pool_state BlixardError unit :=
  let* (p, _) := sget in
  let* (created, failed) := initialize_loop (Z.to_nat (min_size (pool_config p))) 0 false in
  on_pool (set_total_created created) ;*
  if (created =? 0) && failed then sfail (Internal "Failed to initialize pool")
  else sret tt.

Definition pop_front : st pool_state BlixardError (option T) :=
  fun '(p, fs) =>
    match available p with
    | [] => (Ok None, (p, fs))
    | r :: l => (Ok (Some r), (set_available l p, fs))
    end.

(** [*self.total_created.lock().await += 1] (and [-= 1]). *)
Definition bump_total (d : Z) : st pool_state BlixardError unit :=
  let* (p, _) := sget in
  let* n := slift (arith_u 64 (total_created p + d)) in
  on_pool (set_total_created n).

(** The part of [acquire_with_timeout] that runs with the permit held. *)
Definition acquire_body : st pool_state BlixardError T :=
  let* popped := pop_front in
  let* resource :=
    match popped with
    | Some r => sret r
    | None => let* r := on_factory create in bump_total 1 ;* sret r
    end in
  let* (p, _) := sget in
  let* resource :=
    (if validate_on_acquire (pool_config p) && negb (is_valid resource)
     then on_factory (destroy resource) ;* on_factory create
     else sret resource) in
  if reset_on_acquire (pool_config p) then slift (reset resource) else sret resource.

Definition add_permit : st pool_state BlixardError unit :=
  let* (p, _) := sget in
  if MAX_PERMITS <? permits p + 1 then spanic
  else on_pool (set_permits (permits p + 1)).

(** The permit guard: dropped on every exit but the last, where it is
    forgotten. *)
Definition with_permit {A} (m : st pool_state BlixardError A) : st pool_state BlixardError A :=
  fun s =>
    let s1 := (set_permits (permits (fst s) - 1) (fst s), snd s) in
    match m s1 with
    | (Ok r, s') => (Ok r, s')
    | (e, s') => (e, (set_permits (permits (fst s') + 1) (fst s'), snd s'))
    end.

Definition acquire_with_timeout (duration : Z) : st pool_state BlixardError T :=
  let* (p, _) := sget in
  if permits p <=? 0
  then sfail (Timeout "acquire resource from pool" duration)
  else with_permit acquire_body.

Definition acquire : st pool_state BlixardError T :=
  let* (p, _) := sget in acquire_with_timeout (acquire_timeout (pool_config p)).

Definition try_acquire : st pool_state BlixardError T := acquire_with_timeout 0.

(** What dropping a [PooledResource] that still holds its resource runs. *)
Definition recycle (resource : T) : st pool_state BlixardError unit :=
  if is_valid resource
  then on_pool (fun p => set_available (available p ++ [resource]) p)
  else signore (on_factory (destroy resource)) ;* bump_total (-1).

Definition return_resource (resource : T) : st pool_state BlixardError unit :=
  recycle resource ;* add_permit.

(** [PooledResource::take] gives the resource away: nothing is returned to the
    pool, neither the resource nor the permit. *)
Definition take (resource : T) : st pool_state BlixardError T := sret resource.

Definition stats (p : ResourcePool T) : PoolStats :=
  let available_count := Z.of_nat (length (available p)) in
  mkStats available_count (sat_sub (total_created p) available_count)
    (total_created p) (max_size (pool_config p)).

Definition clear : st pool_state BlixardError unit :=
  let* (p, _) := sget in
  on_pool (set_available []) ;*
  sfor (fun r => on_factory (destroy r)) (available p) ;*
  on_pool (set_total_created 0).

(** * Histories of a pool *)

(** Where a call in progress is: an acquisition that has its permit, the return of a
    resource that was dropped, or a clear. *)
Inductive stage : Type :=
| AcqPop
| AcqCreate
| AcqCount (r : T)
| AcqCheck (r : T)
| AcqRecreate
| AcqReset (r : T)
| RetStart (r : T)
| RetCount
| RetPermit
| ClrDrain
| ClrDestroy (l : list T).

(** What a step of a call leads to: the next stage; an acquisition that ends with a
    resource, or without one; a return that ends, or panics before the permit is
    released; a clear that ends. *)
Inductive progress : Type :=
| Next (s : stage)
| Acquired (r : T)
| AcquireFails
| Returned
| ReturnPanics
| Cleared.

(** The next stage after a part of a call that succeeds. *)
Definition then_or {A} (m : st pool_state BlixardError A) (next : A -> progress) (failed : progress) (s : pool_state)
    : progress * pool_state :=
  match m s with (Ok a, s') => (next a, s') | (_, s') => (failed, s') end.

Definition advance (t : stage) (s : pool_state) : progress * pool_state :=
  let config := pool_config (fst s) in
  match t with
  | AcqPop => then_or pop_front (fun o => match o with Some r => Next (AcqCheck r) | None => Next AcqCreate end) AcquireFails s
  | AcqCreate => then_or (on_factory create) (fun r => Next (AcqCount r)) AcquireFails s
  | AcqCount r => then_or (bump_total 1) (fun _ => Next (AcqCheck r)) AcquireFails s
  | AcqCheck r =>
      if validate_on_acquire config && negb (is_valid r)
      then then_or (on_factory (destroy r)) (fun _ => Next AcqRecreate) AcquireFails s
      else (Next (AcqReset r), s)
  | AcqRecreate => then_or (on_factory create) (fun r => Next (AcqReset r)) AcquireFails s
  | AcqReset r => then_or (if reset_on_acquire config then slift (reset r) else sret r) Acquired AcquireFails s
  | RetStart r =>
      if is_valid r then then_or (on_pool (fun p => set_available (available p ++ [r]) p)) (fun _ => Next RetPermit) ReturnPanics s
      else then_or (signore (on_factory (destroy r))) (fun _ => Next RetCount) ReturnPanics s
  | RetCount => then_or (bump_total (-1)) (fun _ => Next RetPermit) ReturnPanics s
  | RetPermit => then_or add_permit (fun _ => Returned) ReturnPanics s
  | ClrDrain => then_or (on_pool (set_available [])) (fun _ => Next (ClrDestroy (available (fst s)))) Cleared s
  | ClrDestroy (r :: l) => then_or (on_factory (destroy r)) (fun _ => Next (ClrDestroy l)) Cleared s
  | ClrDestroy [] => then_or (on_pool (set_total_created 0)) (fun _ => Cleared) Cleared s
  end.

(** The pool and its factory, the resources that are out and will be returned, the
    calls in progress, how many resources have been taken for good, and how many
    permits were lost in a return that panicked. *)
Record pool_world : Type := mkWorld {
  w_state : pool_state;
  w_held : list T;
  w_calls : list stage;
  w_taken : Z;
  w_lost : Z
}.

Definition add_permits (d : Z) (s : pool_state) : pool_state := (set_permits (permits (fst s) + d) (fst s), snd s).

Definition acquiring (t : stage) : bool :=
  match t with AcqPop | AcqCreate | AcqCount _ | AcqCheck _ | AcqRecreate | AcqReset _ => true | _ => false end.

(** The world after a step of a call; an acquisition that fails drops its permit. *)
Definition settle (pr : progress) (s : pool_state) (calls : list stage) (w : pool_world) : pool_world :=
  match pr with
  | Next t => mkWorld s (w_held w) (t :: calls) (w_taken w) (w_lost w)
  | Acquired r => mkWorld s (r :: w_held w) calls (w_taken w) (w_lost w)
  | AcquireFails => mkWorld (add_permits 1 s) (w_held w) calls (w_taken w) (w_lost w)
  | Returned | Cleared => mkWorld s (w_held w) calls (w_taken w) (w_lost w)
  | ReturnPanics => mkWorld s (w_held w) calls (w_taken w) (w_lost w + 1)
  end.

(** A holder may have changed the resource before it is dropped ([get_mut]). *)
Inductive pool_step : pool_world -> pool_world -> Prop :=
| step_acquire w :
    0 < permits (fst (w_state w)) ->
    pool_step w (mkWorld (add_permits (-1) (w_state w)) (w_held w) (AcqPop :: w_calls w) (w_taken w) (w_lost w))
| step_advance w calls1 t calls2 pr s :
    w_calls w = calls1 ++ t :: calls2 -> advance t (w_state w) = (pr, s) -> pool_step w (settle pr s (calls1 ++ calls2) w)
| step_cancel w calls1 t calls2 :
    w_calls w = calls1 ++ t :: calls2 -> acquiring t = true ->
    pool_step w (settle AcquireFails (w_state w) (calls1 ++ calls2) w)
| step_drop w held1 r held2 r' :
    w_held w = held1 ++ r :: held2 ->
    pool_step w (mkWorld (w_state w) (held1 ++ held2) (RetStart r' :: w_calls w) (w_taken w) (w_lost w))
| step_take w held1 r held2 :
    w_held w = held1 ++ r :: held2 ->
    pool_step w (mkWorld (w_state w) (held1 ++ held2) (w_calls w) (w_taken w + 1) (w_lost w))
| step_clear w :
    pool_step w (mkWorld (w_state w) (w_held w) (ClrDrain :: w_calls w) (w_taken w) (w_lost w)).

Definition pool_start (config : PoolConfig) (w : pool_world) : Prop :=
  exists p fs s, pool_new config = Ok p /\ initialize (p, fs) = (Ok tt, s) /\ w = mkWorld s [] [] 0 0.

(** The calls that have a permit. *)
Definition with_a_permit (t : stage) : bool := match t with ClrDrain | ClrDestroy _ => false | _ => true end.
Definition busy (calls : list stage) : Z := Z.of_nat (length (List.filter with_a_permit calls)).

Definition permits_conserved (config : PoolConfig) (w : pool_world) : Prop :=
  max_size config <= MAX_PERMITS /\ pool_config (fst (w_state w)) = config /\
  permits (fst (w_state w)) + busy (w_calls w) + Z.of_nat (length (w_held w)) + w_taken w + w_lost w = max_size config /\
  0 <= permits (fst (w_state w)) /\ 0 <= w_taken w /\ 0 <= w_lost w.

(** * Lemmas *)

(** [keeps_permits m]: [m] changes neither the permits nor the configuration. *)
Definition keeps_permits {A} (m : st pool_state BlixardError A) : Prop :=
  forall p fs o p' fs', m (p, fs) = (o, (p', fs')) ->
    permits p' = permits p /\ pool_config p' = pool_config p.

Lemma keeps_ret {A} (a : A) : keeps_permits (sret a).
Proof. intros p fs o p' fs'. unfold sret. naive_solver. Qed.

Lemma keeps_fail {A} e : keeps_permits (A:=A) (sfail e).
Proof. intros p fs o p' fs'. unfold sfail. naive_solver. Qed.

Lemma keeps_lift {A} (o : BlixardResult A) : keeps_permits (slift o).
Proof. intros p fs o' p' fs'. unfold slift. naive_solver. Qed.

Lemma keeps_get : keeps_permits sget.
Proof. intros p fs o p' fs'. unfold sget. naive_solver. Qed.

Lemma keeps_on_factory {A} (m : st F BlixardError A) : keeps_permits (on_factory m).
Proof. intros p fs o p' fs'. unfold on_factory. destruct (m fs). naive_solver. Qed.

Lemma keeps_on_pool f :
  (forall p, permits (f p) = permits p /\ pool_config (f p) = pool_config p) ->
  keeps_permits (on_pool f).
Proof. intros Hf p fs o p' fs'. unfold on_pool, smodify. naive_solver. Qed.

Lemma keeps_bind {A B} (m : st pool_state BlixardError A) (k : A -> st pool_state BlixardError B) :
  keeps_permits m -> (forall a, keeps_permits (k a)) -> keeps_permits (sbind m k).
Proof.
  intros Hm Hk p fs o p' fs' E. unfold sbind in E.
  destruct (m (p, fs)) as [[a|e|] [p1 fs1]] eqn:E1; apply Hm in E1 as [Hp Hc].
  - apply Hk in E as [Hp' Hc']. by rewrite Hp', Hc'.
  - naive_solver.
  - naive_solver.
Qed.

Lemma keeps_sfor {A} (f : A -> st pool_state BlixardError unit) l :
  (forall a, keeps_permits (f a)) -> keeps_permits (sfor f l).
Proof.
  intros Hf. induction l; simpl; [apply keeps_ret|]. by apply keeps_bind.
Qed.

Lemma keeps_signore {A} (m : st pool_state BlixardError A) :
  keeps_permits m -> keeps_permits (signore m).
Proof.
  intros Hm p fs o p' fs' E. unfold signore in E.
  destruct (m (p, fs)) as [[a|e|] [p1 fs1]] eqn:E1; apply Hm in E1; naive_solver.
Qed.

Ltac keeps :=
  repeat first
    [ apply keeps_bind; [|intros ?]
    | apply keeps_ret | apply keeps_fail | apply keeps_lift | apply keeps_get
    | apply keeps_on_factory | apply keeps_signore
    | apply keeps_sfor; intros ?
    | apply keeps_on_pool; intros ?; split; reflexivity
    | case_match ].

Lemma keeps_bump d : keeps_permits (bump_total d).
Proof. unfold bump_total. keeps. Qed.

Lemma keeps_pop_front : keeps_permits pop_front.
Proof.
  intros p fs o p' fs'. unfold pop_front. destruct (available p); naive_solver.
Qed.

Lemma keeps_acquire_body : keeps_permits acquire_body.
Proof.
  unfold acquire_body. apply keeps_bind; [apply keeps_pop_front|intros popped].
  keeps; apply keeps_bump.
Qed.

Lemma keeps_clear : keeps_permits clear.
Proof. unfold clear. keeps. Qed.

Lemma keeps_initialize_loop n created failed : keeps_permits (initialize_loop n created failed).
Proof.
  revert created failed. induction n as [|n IH]; intros created failed; [apply keeps_ret|].
  intros p fs o p' fs' E. simpl in E.
  destruct (create fs) as [[r|e|] fs1]; simpl in E.
  - unfold sbind, on_pool, smodify in E. apply IH in E. simpl in E. done.
  - by apply IH in E.
  - naive_solver.
Qed.

Lemma keeps_initialize : keeps_permits initialize.
Proof. unfold initialize. keeps. apply keeps_initialize_loop. Qed.

(** An acquisition that succeeds keeps one permit, one that fails none. *)
Lemma acquire_permits d p fs o p' fs' :
  acquire_with_timeout d (p, fs) = (o, (p', fs')) ->
  pool_config p' = pool_config p /\
  match o with
  | Ok _ => 0 < permits p /\ permits p' = permits p - 1
  | _ => permits p' = permits p
  end.
Proof.
  unfold acquire_with_timeout, sbind, sget. simpl.
  destruct (Z.leb_spec (permits p) 0); [unfold sfail; naive_solver|].
  unfold with_permit; simpl.
  destruct (acquire_body _) as [o1 [p1 fs1]] eqn:E1.
  apply keeps_acquire_body in E1 as [Hp Hc]; simpl in Hp, Hc.
  destruct o1; intros [= <- <- <-]; simpl; split; try done; lia.
Qed.

Lemma keeps_recycle r : keeps_permits (recycle r).
Proof. unfold recycle. keeps; apply keeps_bump. Qed.

(** ** A call alone *)

(** Advancing one call until it ends. *)
Fixpoint run_alone (fuel : nat) (t : stage) (s : pool_state) : progress * pool_state :=
  match fuel, advance t s with
  | S fuel', (Next t', s') => run_alone fuel' t' s'
  | _, r => r
  end.

(** An acquisition that no other call interrupts goes through its stages. *)
Lemma acquire_stages s :
  run_alone 5 AcqPop s =
    match acquire_body s with (Ok r, s') => (Acquired r, s') | (_, s') => (AcquireFails, s') end.
Proof.
  destruct s as [p fs]. unfold run_alone, advance, then_or, acquire_body, pop_front, bump_total, on_pool, on_factory. unfold_st. simpl.
  destruct (available p) as [|r l]; simpl.
  - destruct (create fs) as [[r|e|] fs1]; simpl; [|done..]. destruct (arith_u 64 _) as [n|e|]; simpl; [|done..].
    destruct (validate_on_acquire _ && _); simpl.
    + destruct (destroy r fs1) as [[[]|e|] fs2]; simpl; [|done..]. destruct (create fs2) as [[r2|e|] fs3]; simpl; [|done..].
      destruct (reset_on_acquire _); simpl; [by destruct (reset r2)|done].
    + destruct (reset_on_acquire _); simpl; [by destruct (reset r)|done].
  - destruct (validate_on_acquire _ && _); simpl.
    + destruct (destroy r fs) as [[[]|e|] fs2]; simpl; [|done..]. destruct (create fs2) as [[r2|e|] fs3]; simpl; [|done..].
      destruct (reset_on_acquire _); simpl; [by destruct (reset r2)|done].
    + destruct (reset_on_acquire _); simpl; [by destruct (reset r)|done].
Qed.

Lemma return_stages r s :
  run_alone 2 (RetStart r) s =
    match return_resource r s with (Ok _, s') => (Returned, s') | (_, s') => (ReturnPanics, s') end.
Proof.
  assert (Hend : forall s1, advance RetPermit s1 =
    match add_permit s1 with (Ok _, s') => (Returned, s') | (_, s') => (ReturnPanics, s') end) by done.
  unfold return_resource, recycle, sbind. cbn [run_alone]. unfold advance at 1. destruct (is_valid r).
  - unfold then_or at 1, on_pool, smodify. cbn -[add_permit advance]. rewrite Hend. by destruct (add_permit _) as [[] ?].
  - unfold then_or at 1. destruct (signore (on_factory (destroy r)) s) as [[] s1]; [|done..].
    unfold advance at 1, then_or at 1. destruct (bump_total (-1) s1) as [[] s2]; [|done..].
    rewrite Hend. by destruct (add_permit s2) as [[] ?].
Qed.

(** ** Any call *)

(** What a step does to the permits. *)
Lemma advance_permits t s pr s' :
  advance t s = (pr, s') ->
  pool_config (fst s') = pool_config (fst s) /\
  match pr with
  | Next t' => permits (fst s') = permits (fst s) /\ with_a_permit t' = with_a_permit t
  | Acquired _ | AcquireFails => permits (fst s') = permits (fst s) /\ with_a_permit t = true
  | Returned => permits (fst s') = permits (fst s) + 1 /\ with_a_permit t = true
  | ReturnPanics => permits (fst s') = permits (fst s) /\ with_a_permit t = true
  | Cleared => permits (fst s') = permits (fst s) /\ with_a_permit t = false
  end.
Proof.
  assert (Hpart : forall A (m : st pool_state BlixardError A) next failed,
    keeps_permits m -> then_or m next failed s = (pr, s') ->
    permits (fst s') = permits (fst s) /\ pool_config (fst s') = pool_config (fst s) /\ (pr = failed \/ exists a, pr = next a)).
  { intros A m next failed Hm. unfold then_or. destruct s as [p fs]. destruct (m (p, fs)) as [o [p1 fs1]] eqn:Em.
    apply Hm in Em as [Hp Hc]. destruct o; intros [= <- <-]; simpl; split_and!; eauto. }
  assert (Hk : forall A (m : st F BlixardError A), keeps_permits (on_factory m)) by (intros; apply keeps_on_factory).
  assert (Ho : forall l, keeps_permits (on_pool (set_available l))) by (intros; by apply keeps_on_pool).
  destruct t as [| |r|r| |r|r| | | |[|r l]]; cbn [advance]; intros E.
  - apply (Hpart _ _ _ _ keeps_pop_front) in E as (-> & -> & [->|[[] ->]]); done.
  - apply (Hpart _ _ _ _ (Hk _ _)) in E as (-> & -> & [->|[a ->]]); done.
  - apply (Hpart _ _ _ _ (keeps_bump 1)) in E as (-> & -> & [->|[a ->]]); done.
  - destruct (_ && _); [|by injection E as <- <-]. apply (Hpart _ _ _ _ (Hk _ _)) in E as (-> & -> & [->|[a ->]]); done.
  - apply (Hpart _ _ _ _ (Hk _ _)) in E as (-> & -> & [->|[a ->]]); done.
  - apply Hpart in E as (-> & -> & [->|[a ->]]); [done|done|]. destruct (reset_on_acquire _); [apply keeps_lift|apply keeps_ret].
  - destruct (is_valid r).
    + apply Hpart in E as (-> & -> & [->|[a ->]]); [done|done|]. by apply keeps_on_pool.
    + apply (Hpart _ _ _ _ (keeps_signore _ (Hk _ _))) in E as (-> & -> & [->|[a ->]]); done.
  - apply (Hpart _ _ _ _ (keeps_bump (-1))) in E as (-> & -> & [->|[a ->]]); done.
  - destruct s as [p fs]. unfold then_or, add_permit, sbind, sget, on_pool, smodify in E.
    destruct (MAX_PERMITS <? permits p + 1); injection E as <- <-; done.
  - apply (Hpart _ _ _ _ (Ho _)) in E as (-> & -> & [->|[a ->]]); done.
  - apply Hpart in E as (-> & -> & [->|[a ->]]); [done|done|]. by apply keeps_on_pool.
  - apply (Hpart _ _ _ _ (Hk _ _)) in E as (-> & -> & [->|[a ->]]); done.
Qed.

Lemma busy_cons t calls : busy (t :: calls) = (if with_a_permit t then 1 else 0) + busy calls.
Proof. unfold busy. simpl. destruct (with_a_permit t); simpl; lia. Qed.

Lemma busy_middle calls1 t calls2 : busy (calls1 ++ t :: calls2) = (if with_a_permit t then 1 else 0) + busy (calls1 ++ calls2).
Proof. unfold busy. rewrite !List.filter_app. simpl. destruct (with_a_permit t); rewrite !length_app; simpl; lia. Qed.

Lemma busy_nonneg calls : 0 <= busy calls.
Proof. unfold busy. lia. Qed.

Lemma pool_step_conserves config w w' :
  permits_conserved config w -> pool_step w w' -> permits_conserved config w'.
Proof.
  intros (Hm & Hc & Hsum & Hp & Ht & Hl) Hstep. unfold permits_conserved.
  destruct Hstep as [w Hpos|w c1 t c2 pr s Hcalls E|w c1 t c2 Hcalls Ha|w h1 r h2 r' Hheld|w h1 r h2 Hheld|w]; simpl.
  - rewrite busy_cons. simpl. split_and!; (done || lia).
  - rewrite Hcalls, busy_middle in Hsum. pose proof (busy_nonneg (c1 ++ c2)).
    apply advance_permits in E as [Hc' E]. destruct pr; destruct E as [E1 E2]; simpl; rewrite ?busy_cons, ?E2 in *; rewrite ?E1;
      rewrite ?Hc'; cbn [length]; split_and!; (done || lia).
  - rewrite Hcalls, busy_middle in Hsum. replace (with_a_permit t) with true in Hsum by (by destruct t). split_and!; (done || lia).
  - rewrite Hheld, length_app in Hsum. rewrite busy_cons, length_app. simpl in *. split_and!; (done || lia).
  - rewrite Hheld, length_app in Hsum. rewrite length_app. simpl in *. split_and!; (done || lia).
  - rewrite busy_cons. simpl. split_and!; (done || lia).
Qed.

(** No return panics where sums wrap around and destroying does not panic. *)
Definition unlost (config : PoolConfig) (w : pool_world) : Prop := permits_conserved config w /\ w_lost w = 0.

Lemma pool_step_unlost config w w' :
  overflow_checks = false -> (forall r fs, fst (destroy (F:=F) (T:=T) r fs) <> Panic) ->
  unlost config w -> pool_step w w' -> unlost config w'.
Proof.
  intros Hwrap Hd [Hcon Hl] Hstep. split; [by eapply pool_step_conserves|].
  destruct Hcon as (Hm & Hc & Hsum & Hp & Ht & _).
  destruct Hstep as [w Hpos|w c1 t c2 pr s Hcalls E|w c1 t c2 Hcalls Ha|w h1 r h2 r' Hheld|w h1 r h2 Hheld|w]; try done.
  destruct pr; try done. exfalso. destruct (w_state w) as [p fs] eqn:Ew. cbn [fst] in *.
  pose proof (busy_nonneg (w_calls w)). rewrite Hcalls, busy_middle in Hsum. pose proof (busy_nonneg (c1 ++ c2)).
  destruct t as [| | | | | |r| | | |[|r l]]; cbn [advance] in E; unfold then_or in E;
    try (case_match; by repeat (case_match; try done)); try (by repeat (case_match; try done)).
  - destruct (is_valid r); [done|]. unfold signore, on_factory in E. specialize (Hd r fs).
    destruct (destroy r fs) as [[] fs']; cbn in *; done.
  - unfold bump_total, sbind, sget, slift, arith_u in E. cbn in E. rewrite Hwrap in E. by destruct (fits_u _ _).
  - unfold add_permit, sbind, sget in E. cbn in E. simpl in Hsum. destruct (Z.ltb_spec MAX_PERMITS (permits p + 1)); [lia|done].
Qed.

Lemma pool_start_conserved config w :
  0 <= max_size config -> pool_start config w -> unlost config w.
Proof.
  intros Hpos (p & fs & [p' fs'] & Hnew & Hinit & ->).
  unfold pool_new in Hnew. destruct (Z.ltb_spec MAX_PERMITS (max_size config)); [done|]. injection Hnew as <-.
  apply keeps_initialize in Hinit as [Hp Hc]. unfold unlost, permits_conserved; simpl in *.
  rewrite Hp, Hc. unfold busy. simpl. split_and!; (done || lia).
Qed.

Lemma acquire_available d p fs r p' fs' :
  acquire_with_timeout d (p, fs) = (Ok r, (p', fs')) -> available p' = tail (available p).
Proof.
  unfold acquire_with_timeout, sbind at 1, sget at 1. simpl.
  case_match; [done|]. unfold with_permit. simpl.
  destruct (acquire_body _) as [[r1|e|] [p1 fs1]] eqn:E1; try done.
  intros [= -> -> ->]. revert E1.
  unfold acquire_body, pop_front, bump_total, on_pool, on_factory. unfold_st. simpl.
  destruct (available p) as [|r0 l] eqn:Ea; intros E1; inv_st E1; by rewrite ?Ea.
Qed.

(** Dropping a valid resource puts it at the back of the queue. *)
Lemma return_valid r p fs :
  is_valid r = true -> permits p + 1 <= MAX_PERMITS ->
  return_resource r (p, fs) =
    (Ok tt, (mkPool (available p ++ [r]) (permits p + 1) (pool_config p) (total_created p), fs)).
Proof.
  intros Hv Hm. unfold return_resource, recycle, add_permit, sbind, sget, on_pool, smodify.
  rewrite Hv. simpl. destruct (Z.ltb_spec MAX_PERMITS (permits p + 1)); [lia|done].
Qed.

(** * Properties *)

(** C35: permit conservation.  In every history of acquisitions (that succeed, fail or
    are cancelled), drops, takes and clears, overlapping in any way, the permits
    left, the calls that have one, the resources out, the resources taken for good and
    the permits lost in returns that panicked add up to the configured maximum.  Hence
    never more than [max_size] resources are out at a time, and over its whole life the
    pool gives away at most [max_size] resources by [take].  No permit is lost where
    sums wrap around and the factory's destroy does not panic. *)
Theorem pool_permits_conserved config w w' :
  0 <= max_size config -> pool_start config w -> rtc pool_step w w' ->
  permits (fst (w_state w')) + busy (w_calls w') + Z.of_nat (length (w_held w')) + w_taken w' + w_lost w' = max_size config /\
  Z.of_nat (length (w_held w')) <= max_size config /\ w_taken w' <= max_size config /\
  (overflow_checks = false -> (forall r fs, fst (destroy (F:=F) (T:=T) r fs) <> Panic) -> w_lost w' = 0).
Proof.
  intros Hpos Hs Hr. apply pool_start_conserved in Hs as Hu; [|done].
  pose proof (rtc_invariant _ _ (pool_step_conserves config) _ _ Hr (proj1 Hu)) as (_ & _ & Hsum & ? & ? & ?).
  pose proof (busy_nonneg (w_calls w')). split_and!; [done|lia|lia|]. intros Hwrap Hd.
  apply (rtc_invariant pool_step (unlost config)) in Hr as [_ Hl]; [done| |done].
  intros x y. by apply pool_step_unlost.
Qed.

(** Acquiring and dropping is a rotation: after a resource was acquired and
    dropped while still valid, the pool has its permits back, the factory is as
    the acquisition left it, and the queue is the old queue without its head and
    with the resource at its end. *)
Theorem acquire_drop_rotates d p fs r p1 fs1 :
  permits p <= MAX_PERMITS ->
  acquire_with_timeout d (p, fs) = (Ok r, (p1, fs1)) -> is_valid r = true ->
  return_resource r (p1, fs1) =
    (Ok tt, (mkPool (tail (available p) ++ [r]) (permits p) (pool_config p) (total_created p1),
             fs1)).
Proof.
  intros Hm Ha Hv. apply acquire_available in Ha as Hav.
  apply acquire_permits in Ha as (Hc & Hp & Hp').
  rewrite return_valid by (done || lia). rewrite Hav, Hc. do 4 f_equal. lia.
Qed.
End Operations.

(** * A concrete pool *)

(** Numbered resources that a counter hands out, as in the unit tests of
    resource_pool.rs. *)
#[export] Instance counter_resource : PoolableResource Z := {
  is_valid := fun r => 0 <=? r;
  reset := fun r => Ok r
}.
#[export] Instance counter_factory : ResourceFactory Z Z := {
  create := fun n => (Ok n, n + 1);
  destroy := fun _ => sret tt
}.

Definition counter_config : PoolConfig := mkPoolConfig 3 1 30 true false.
Definition counter_start : pool_world (F:=Z) (T:=Z) := mkWorld (mkPool [0] 3 counter_config 1, 1) [] [] 0 0.
(** Two acquisitions that overlap: the first resource is taken, the second is out. *)
Definition counter_end : pool_world (F:=Z) (T:=Z) := mkWorld (mkPool [] 1 counter_config 2, 2) [1] [] 1 0.

Lemma pool_permits_conserved_witness :
  permits (fst (w_state counter_end)) + busy (w_calls counter_end) + Z.of_nat (length (w_held counter_end)) + w_taken counter_end
    + w_lost counter_end = max_size counter_config /\
  Z.of_nat (length (w_held counter_end)) <= max_size counter_config /\ w_taken counter_end <= max_size counter_config /\
  (true = false -> (forall r fs : Z, fst (destroy r fs) <> Panic) -> w_lost counter_end = 0).
Proof.
  apply (pool_permits_conserved (H:=true) counter_config counter_start).
  - simpl. lia.
  - exists (mkPool [] 3 counter_config 0), 0, (mkPool [0] 3 counter_config 1, 1). split_and!; reflexivity.
  - eapply rtc_l; [apply (step_acquire (H:=true)); reflexivity|].
    eapply rtc_l; [apply (step_acquire (H:=true)); reflexivity|].
    eapply rtc_l; [eapply (step_advance (H:=true) _ [] AcqPop [AcqPop]); reflexivity|].
    eapply rtc_l; [eapply (step_advance (H:=true) _ [AcqCheck 0] AcqPop []); reflexivity|].
    eapply rtc_l; [eapply (step_advance (H:=true) _ [AcqCreate] (AcqCheck 0) []); reflexivity|].
    eapply rtc_l; [eapply (step_advance (H:=true) _ [] (AcqReset 0) [AcqCreate]); reflexivity|].
    eapply rtc_l; [eapply (step_take (H:=true) _ [] 0 []); reflexivity|].
    do 4 (eapply rtc_l; [eapply (step_advance (H:=true) _ [] _ []); reflexivity|]).
    apply rtc_refl.
Defined.

(** Clearing forgets the resources that are out: returning one that is no longer
    valid then panics where overflow is checked, and its permit is lost. *)
Theorem cleared_pool_loses_permit :
  let out : pool_state (F:=Z) (T:=Z) := (mkPool [] 2 counter_config 1, 1) in
  let cleared := snd (clear out) in
  fst (return_resource (H:=true) (-1) out) = Ok tt /\
  fst (return_resource (H:=true) (-1) cleared) = Panic /\
  permits (fst (snd (return_resource (H:=true) (-1) cleared))) = 2.
Proof. split_and!; reflexivity. Qed.

Lemma acquire_drop_rotates_witness :
  return_resource (H:=true) 0 (mkPool [7] 2 counter_config 2, 2) =
    (Ok tt, (mkPool ([7] ++ [0]) 3 counter_config 2, 2)).
Proof.
  apply (acquire_drop_rotates (H:=true) 0 (mkPool [0; 7] 3 counter_config 2) 2 0);
    [vm_compute; congruence|reflexivity|reflexivity].
Defined.
