(* ===== verification/CircuitBreaker.v ===== *)
(** The circuit breaker (blixard-core/src/patterns/circuit_breaker.rs).

    A call is two steps, admission and completion, between which other calls
    may run: histories interleave them.  Instants and durations are integers;
    the clock is an argument.  Cloning (which shares the state and copies the
    counters) is not modelled. *)

From Stdlib Require Import ZArith Lia List.
From stdpp Require Import base tactics numbers gmap strings option.
From stdpp Require Import list relations.
From S2P Require Import Prelude Float64 Errors.

Open Scope Z_scope.

(** * Configuration *)

Inductive CircuitBreakerState : Type := Closed | Open | HalfOpen.

#[export] Instance CircuitBreakerState_eq_dec : EqDecision CircuitBreakerState.
Proof. solve_decision. Defined.

Definition show_breaker_state (s : CircuitBreakerState) : string :=
  match s with Closed => "closed" | Open => "open" | HalfOpen => "half-open" end.

Record CircuitBreakerConfig : Type := mkBreakerConfig {
  failure_threshold : Z;
  reset_timeout : Z;
  half_open_max_calls : Z;
  minimum_request_threshold : Z;
  success_threshold_ratio : f64;
  is_circuit_breaking_error : BlixardError -> bool;
  enable_logging : bool;
  operation_timeout : option Z
}.

Definition default_circuit_breaking_error_check (e : BlixardError) : bool :=
  match e with
  | NetworkError | ConnectionError _ | Timeout _ _ | TemporaryFailure | ResourceExhausted _
  | ResourceUnavailable _ => true
  | _ => false
  end.

(** Durations in seconds. *)
Definition default_breaker_config : CircuitBreakerConfig :=
  mkBreakerConfig 5 60 3 10 (f64_lit 8 10) default_circuit_breaking_error_check true (Some 30).

(** * The breaker *)

Record CircuitBreaker : Type := mkBreaker {
  breaker_name : string;
  breaker_config : CircuitBreakerConfig;
  breaker_state : CircuitBreakerState;
  consecutive_failures : Z;
  half_open_calls : Z;
  last_opened_at : option Z;
  last_closed_at : option Z;
  last_failure_at : option Z;
  last_success_at : option Z;
  total_calls : Z;
  successful_calls : Z;
  failed_calls : Z;
  rejected_calls : Z
}.

Definition breaker_new (name : string) (config : CircuitBreakerConfig) : CircuitBreaker :=
  mkBreaker name config Closed 0 0 None None None None 0 0 0 0.

(** Field updates. *)
Definition with_state (s : CircuitBreakerState) (b : CircuitBreaker) : CircuitBreaker :=
  mkBreaker (breaker_name b) (breaker_config b) s (consecutive_failures b) (half_open_calls b)
    (last_opened_at b) (last_closed_at b) (last_failure_at b) (last_success_at b)
    (total_calls b) (successful_calls b) (failed_calls b) (rejected_calls b).
Definition with_consecutive (n : Z) (b : CircuitBreaker) : CircuitBreaker :=
  mkBreaker (breaker_name b) (breaker_config b) (breaker_state b) n (half_open_calls b)
    (last_opened_at b) (last_closed_at b) (last_failure_at b) (last_success_at b)
    (total_calls b) (successful_calls b) (failed_calls b) (rejected_calls b).
Definition with_half_open (n : Z) (b : CircuitBreaker) : CircuitBreaker :=
  mkBreaker (breaker_name b) (breaker_config b) (breaker_state b) (consecutive_failures b) n
    (last_opened_at b) (last_closed_at b) (last_failure_at b) (last_success_at b)
    (total_calls b) (successful_calls b) (failed_calls b) (rejected_calls b).
Definition with_opened (t : option Z) (b : CircuitBreaker) : CircuitBreaker :=
  mkBreaker (breaker_name b) (breaker_config b) (breaker_state b) (consecutive_failures b)
    (half_open_calls b) t (last_closed_at b) (last_failure_at b) (last_success_at b)
    (total_calls b) (successful_calls b) (failed_calls b) (rejected_calls b).
Definition with_closed (t : option Z) (b : CircuitBreaker) : CircuitBreaker :=
  mkBreaker (breaker_name b) (breaker_config b) (breaker_state b) (consecutive_failures b)
    (half_open_calls b) (last_opened_at b) t (last_failure_at b) (last_success_at b)
    (total_calls b) (successful_calls b) (failed_calls b) (rejected_calls b).
Definition with_marks (failure success : option Z) (b : CircuitBreaker) : CircuitBreaker :=
  mkBreaker (breaker_name b) (breaker_config b) (breaker_state b) (consecutive_failures b)
    (half_open_calls b) (last_opened_at b) (last_closed_at b) failure success
    (total_calls b) (successful_calls b) (failed_calls b) (rejected_calls b).
Definition with_counters (t s f r : Z) (b : CircuitBreaker) : CircuitBreaker :=
  mkBreaker (breaker_name b) (breaker_config b) (breaker_state b) (consecutive_failures b)
    (half_open_calls b) (last_opened_at b) (last_closed_at b) (last_failure_at b) (last_success_at b)
    t s f r.

(** [fetch_add] wraps around. *)
Definition count_total (b : CircuitBreaker) : CircuitBreaker :=
  with_counters (wrap_u 64 (total_calls b + 1)) (successful_calls b) (failed_calls b) (rejected_calls b) b.
Definition count_success (b : CircuitBreaker) : CircuitBreaker :=
  with_counters (total_calls b) (wrap_u 64 (successful_calls b + 1)) (failed_calls b) (rejected_calls b) b.
Definition count_failure (b : CircuitBreaker) : CircuitBreaker :=
  with_counters (total_calls b) (successful_calls b) (wrap_u 64 (failed_calls b + 1)) (rejected_calls b) b.
Definition count_rejected (b : CircuitBreaker) : CircuitBreaker :=
  with_counters (total_calls b) (successful_calls b) (failed_calls b) (wrap_u 64 (rejected_calls b + 1)) b.

(** * The builder *)

Record CircuitBreakerBuilder : Type := mkBreakerBuilder {
  builder_name : string;
  builder_config : CircuitBreakerConfig
}.

Definition breaker_builder_new (name : string) : CircuitBreakerBuilder :=
  mkBreakerBuilder name default_breaker_config.
Definition set_failure_threshold (x : Z) (b : CircuitBreakerBuilder) : CircuitBreakerBuilder :=
  let c := builder_config b in
  mkBreakerBuilder (builder_name b)
    (mkBreakerConfig x (reset_timeout c) (half_open_max_calls c) (minimum_request_threshold c) (success_threshold_ratio c) (is_circuit_breaking_error c) (enable_logging c) (operation_timeout c)).
Definition set_reset_timeout (x : Z) (b : CircuitBreakerBuilder) : CircuitBreakerBuilder :=
  let c := builder_config b in
  mkBreakerBuilder (builder_name b)
    (mkBreakerConfig (failure_threshold c) x (half_open_max_calls c) (minimum_request_threshold c) (success_threshold_ratio c) (is_circuit_breaking_error c) (enable_logging c) (operation_timeout c)).
Definition set_half_open_max_calls (x : Z) (b : CircuitBreakerBuilder) : CircuitBreakerBuilder :=
  let c := builder_config b in
  mkBreakerBuilder (builder_name b)
    (mkBreakerConfig (failure_threshold c) (reset_timeout c) x (minimum_request_threshold c) (success_threshold_ratio c) (is_circuit_breaking_error c) (enable_logging c) (operation_timeout c)).
Definition set_minimum_request_threshold (x : Z) (b : CircuitBreakerBuilder) : CircuitBreakerBuilder :=
  let c := builder_config b in
  mkBreakerBuilder (builder_name b)
    (mkBreakerConfig (failure_threshold c) (reset_timeout c) (half_open_max_calls c) x (success_threshold_ratio c) (is_circuit_breaking_error c) (enable_logging c) (operation_timeout c)).
Definition set_success_threshold_ratio (x : f64) (b : CircuitBreakerBuilder) : CircuitBreakerBuilder :=
  let c := builder_config b in
  mkBreakerBuilder (builder_name b)
    (mkBreakerConfig (failure_threshold c) (reset_timeout c) (half_open_max_calls c) (minimum_request_threshold c) x (is_circuit_breaking_error c) (enable_logging c) (operation_timeout c)).
Definition set_operation_timeout (x : option Z) (b : CircuitBreakerBuilder) : CircuitBreakerBuilder :=
  let c := builder_config b in
  mkBreakerBuilder (builder_name b)
    (mkBreakerConfig (failure_threshold c) (reset_timeout c) (half_open_max_calls c) (minimum_request_threshold c) (success_threshold_ratio c) (is_circuit_breaking_error c) (enable_logging c) x).
Definition set_enable_logging (x : bool) (b : CircuitBreakerBuilder) : CircuitBreakerBuilder :=
  let c := builder_config b in
  mkBreakerBuilder (builder_name b)
    (mkBreakerConfig (failure_threshold c) (reset_timeout c) (half_open_max_calls c) (minimum_request_threshold c) (success_threshold_ratio c) (is_circuit_breaking_error c) x (operation_timeout c)).
Definition set_error_predicate (x : BlixardError -> bool) (b : CircuitBreakerBuilder) : CircuitBreakerBuilder :=
  let c := builder_config b in
  mkBreakerBuilder (builder_name b)
    (mkBreakerConfig (failure_threshold c) (reset_timeout c) (half_open_max_calls c) (minimum_request_threshold c) (success_threshold_ratio c) x (enable_logging c) (operation_timeout c)).
Definition breaker_build (b : CircuitBreakerBuilder) : CircuitBreaker :=
  breaker_new (builder_name b) (builder_config b).

Section Breaker.
Context `{Profile}.

Definition breaker_op (A : Type) : Type := st CircuitBreaker BlixardError A.

(** [should_allow_request]; [Instant::elapsed] saturates at zero. *)
Definition should_allow_request (now : Z) : breaker_op bool :=
  let* b := sget in
  let config := breaker_config b in
  match breaker_state b with
  | Closed => sret true
  | Open =>
      match last_opened_at b with
      | Some opened_at =>
          if reset_timeout config <=? sat_sub now opened_at
          then smodify (fun b => with_half_open 0 (with_state HalfOpen b)) ;* sret true
          else sret false
      | None => sret false
      end
  | HalfOpen =>
      if half_open_calls b <? half_open_max_calls config
      then let* n := slift (arith_u 32 (half_open_calls b + 1)) in
           smodify (with_half_open n) ;* sret true
      else sret false
  end.

Definition on_success (now : Z) : breaker_op unit :=
  smodify count_success ;*
  smodify (fun b => with_marks (last_failure_at b) (Some now) (with_consecutive 0 b)) ;*
  let* b := sget in
  if bool_decide (breaker_state b = HalfOpen)
     && (minimum_request_threshold (breaker_config b) <=? total_calls b)
     && f64_leb (success_threshold_ratio (breaker_config b))
          (f64_div (f64_of_Z (successful_calls b)) (f64_of_Z (total_calls b)))
  then smodify (fun b => with_closed (Some now) (with_state Closed b))
  else sret tt.

Definition on_failure (now : Z) : breaker_op unit :=
  smodify count_failure ;*
  let* b := sget in
  let* n := slift (arith_u 32 (consecutive_failures b + 1)) in
  smodify (fun b => with_marks (Some now) (last_success_at b) (with_consecutive n b)) ;*
  let* b := sget in
  (if (failure_threshold (breaker_config b) <=? consecutive_failures b)
      && negb (bool_decide (breaker_state b = Open))
   then smodify (fun b => with_opened (Some now) (with_state Open b)) else sret tt) ;*
  let* b := sget in
  if bool_decide (breaker_state b = HalfOpen)
  then smodify (fun b => with_half_open 0 (with_opened (Some now) (with_state Open b)))
  else sret tt.

(** The first part of [call]: a request is admitted or refused. *)
Definition begin_call (now : Z) : breaker_op unit :=
  let* allowed := should_allow_request now in
  if allowed : bool then smodify count_total
  else smodify count_rejected ;* sfail TemporaryFailure.

(** What an admitted operation ends with. *)
Inductive completion : Type := Completed (result : BlixardResult unit) | TimedOut.

Definition result_of (b : CircuitBreaker) (c : completion) : BlixardResult unit :=
  match c with
  | Completed r => r
  | TimedOut => Err (Timeout ("circuit breaker '" +:+ breaker_name b +:+ "'")
                       (default 0 (operation_timeout (breaker_config b))))
  end.

(** The second part of [call]: the result is recorded and returned. *)
Definition end_call (now : Z) (c : completion) : breaker_op unit :=
  let* b := sget in
  match result_of b c with
  | Ok _ => on_success now
  | Err e => (if is_circuit_breaking_error (breaker_config b) e then on_failure now else sret tt) ;* sfail e
  | Panic => spanic
  end.

(** [call] without another call in between. *)
Definition call (now1 now2 : Z) (c : completion) : breaker_op unit :=
  begin_call now1 ;* end_call now2 c.

Definition force_open (now : Z) (b : CircuitBreaker) : CircuitBreaker :=
  with_opened (Some now) (with_state Open b).
Definition force_close (now : Z) (b : CircuitBreaker) : CircuitBreaker :=
  with_closed (Some now) (with_consecutive 0 (with_state Closed b)).
Definition reset_stats (b : CircuitBreaker) : CircuitBreaker :=
  mkBreaker (breaker_name b) (breaker_config b) (breaker_state b) 0 0 None None None None 0 0 0 0.

Definition failure_rate (b : CircuitBreaker) : f64 :=
  if 0 <? total_calls b then f64_div (f64_of_Z (failed_calls b)) (f64_of_Z (total_calls b)) else f64_0.

(** * Histories *)

(** A breaker, the calls that were admitted and have not ended, and how many
    were admitted since the circuit became half-open. *)
Record breaker_world : Type := mkBreakerWorld {
  w_breaker : CircuitBreaker;
  w_in_flight : Z;
  w_probes : Z
}.

Definition is_half_open (b : CircuitBreaker) : bool := bool_decide (breaker_state b = HalfOpen).

Inductive breaker_step : breaker_world -> breaker_world -> Prop :=
| step_admit now b b' n p :
    begin_call now b = (Ok tt, b') ->
    breaker_step (mkBreakerWorld b n p)
      (mkBreakerWorld b' (n + 1)
         (if is_half_open b' then (if is_half_open b then p + 1 else 1) else p))
| step_refuse now b b' n p e :
    begin_call now b = (Err e, b') ->
    breaker_step (mkBreakerWorld b n p) (mkBreakerWorld b' n p)
| step_end now c b b' n p o :
    0 < n -> end_call now c b = (o, b') -> o <> Panic ->
    breaker_step (mkBreakerWorld b n p) (mkBreakerWorld b' (n - 1) p)
| step_force_open now b n p :
    breaker_step (mkBreakerWorld b n p) (mkBreakerWorld (force_open now b) n p)
| step_force_close now b n p :
    breaker_step (mkBreakerWorld b n p) (mkBreakerWorld (force_close now b) n p).

(** [k] calls one after the other with the same completion. *)
Fixpoint calls (k : nat) (now : Z) (c : completion) (b : CircuitBreaker) : CircuitBreaker :=
  match k with
  | O => b
  | S k' => snd (call now now c (calls k' now c b))
  end.

(** Attempts at the given times: what each is answered, and the breaker. *)
Fixpoint attempts (times : list Z) (b : CircuitBreaker) : list (BlixardResult unit) * CircuitBreaker :=
  match times with
  | [] => ([], b)
  | t :: times' =>
      let '(o, b1) := begin_call t b in
      let '(os, b2) := attempts times' b1 in
      (o :: os, b2)
  end.

(** * Lemmas *)

(** The probes counted while the circuit is half-open. *)
Definition probes_inv (w : breaker_world) : Prop :=
  let b := w_breaker w in
  0 <= half_open_max_calls (breaker_config b) < 2 ^ 32 /\
  (breaker_state b = HalfOpen ->
     w_probes w = half_open_calls b + 1 /\
     0 <= half_open_calls b <= half_open_max_calls (breaker_config b)).

Lemma end_call_keeps now c b o b' :
  end_call now c b = (o, b') ->
  breaker_config b' = breaker_config b /\
  (breaker_state b' = HalfOpen -> breaker_state b = HalfOpen /\ half_open_calls b' = half_open_calls b).
Proof.
  unfold end_call, on_success, on_failure. unfold_st. intros E. simpl in E.
  destruct (result_of b c) as [u|e|]; [| |by simplify_eq].
  - destruct b; simpl in *. repeat case_match; simplify_eq/=; done.
  - destruct b; simpl in *. repeat case_match; simplify_eq/=; bools; naive_solver.
Qed.

Lemma begin_call_probes now b o b' n p :
  begin_call now b = (o, b') -> probes_inv (mkBreakerWorld b n p) ->
  probes_inv (mkBreakerWorld b' (n + 1)
    (if is_ok o then (if is_half_open b' then (if is_half_open b then p + 1 else 1) else p) else p)).
Proof.
  intros E [Hmax Hp]. simpl in Hmax, Hp. unfold begin_call, should_allow_request in E. unfold_st. simpl in E.
  unfold is_half_open, probes_inv. simpl.
  destruct (breaker_state b) eqn:Es; simpl in E.
  - simplify_eq/=. rewrite Es. done.
  - destruct (last_opened_at b); [|simplify_eq/=; by rewrite Es].
    destruct (reset_timeout _ <=? _); simplify_eq/=; [|by rewrite Es].
    split; [done|]. intros _. split; lia.
  - specialize (Hp eq_refl) as [-> Hh]. destruct (Z.ltb_spec (half_open_calls b) (half_open_max_calls (breaker_config b))).
    + rewrite arith_u_fits in E by lia. simplify_eq/=. rewrite Es. simpl. split; [done|]. intros _. lia.
    + simplify_eq/=. rewrite Es. done.
Qed.

Lemma breaker_step_probes w w' : probes_inv w -> breaker_step w w' -> probes_inv w'.
Proof.
  intros Hinv Hstep. destruct Hstep as [now b b' n p E|now b b' n p e E|now c b b' n p o Hn E Ho|now b n p|now b n p].
  - by apply (begin_call_probes _ _ _ _ n p) in E.
  - by apply (begin_call_probes _ _ _ _ n p) in E.
  - apply end_call_keeps in E as [Hc Hs]. destruct Hinv as [Hmax Hp]. simpl in *.
    unfold probes_inv. simpl. rewrite Hc. split; [done|]. intros Hb. destruct (Hs Hb) as [Hb0 ->]. auto.
  - destruct Hinv as [Hmax _]. split; [done|]. done.
  - destruct Hinv as [Hmax _]. split; [done|]. done.
Qed.

(** A half-open circuit whose probes are used up refuses. *)
Lemma exhausted_refuses now b :
  breaker_state b = HalfOpen -> half_open_max_calls (breaker_config b) <= half_open_calls b ->
  begin_call now b = (Err TemporaryFailure, count_rejected b).
Proof.
  intros Hs Hh. unfold begin_call, should_allow_request. unfold_st. simpl. rewrite Hs.
  destruct (Z.ltb_spec (half_open_calls b) (half_open_max_calls (breaker_config b))); [lia|done].
Qed.

Lemma exhausted_attempts times b :
  breaker_state b = HalfOpen -> half_open_max_calls (breaker_config b) <= half_open_calls b ->
  fst (attempts times b) = map (fun _ => Err TemporaryFailure) times /\
  breaker_state (snd (attempts times b)) = HalfOpen.
Proof.
  revert b. induction times as [|t times IH]; intros b Hs Hh; simpl; [done|].
  rewrite exhausted_refuses by done. specialize (IH (count_rejected b) Hs Hh).
  destruct (attempts times (count_rejected b)) as [os b2]. simpl in *. destruct IH as [-> ->]. done.
Qed.

(** One more breaking failure of a closed circuit. *)
Lemma failing_call now e b :
  is_circuit_breaking_error (breaker_config b) e = true ->
  breaker_state b = Closed -> 0 <= consecutive_failures b < 2 ^ 32 - 1 ->
  let b' := snd (call now now (Completed (Err e)) b) in
  breaker_config b' = breaker_config b /\
  consecutive_failures b' = consecutive_failures b + 1 /\
  (if failure_threshold (breaker_config b) <=? consecutive_failures b + 1
   then breaker_state b' = Open /\ last_opened_at b' = Some now
   else breaker_state b' = Closed).
Proof.
  intros He Hs Hc. unfold call, begin_call, should_allow_request, end_call, on_failure. unfold_st.
  simpl. rewrite Hs. simpl. rewrite He. simpl. rewrite arith_u_fits by lia. simpl. rewrite Hs. simpl.
  destruct (_ <=? _); simpl; [done|]. rewrite Hs. done.
Qed.

Lemma failing_calls now e b k :
  is_circuit_breaking_error (breaker_config b) e = true ->
  breaker_state b = Closed -> consecutive_failures b = 0 ->
  failure_threshold (breaker_config b) < 2 ^ 32 -> Z.of_nat k < failure_threshold (breaker_config b) ->
  let b' := calls k now (Completed (Err e)) b in
  breaker_config b' = breaker_config b /\ breaker_state b' = Closed /\ consecutive_failures b' = Z.of_nat k.
Proof.
  intros He Hs Hc Ht. induction k as [|k IH]; intros Hk; [done|]. cbn [calls].
  destruct IH as (IHc & IHs & IHn); [lia|]. set (b1 := calls k now _ b) in *.
  destruct (failing_call now e b1) as (H1 & H2 & H3); [by rewrite IHc|done|lia|].
  rewrite IHc in H1, H3. rewrite IHn in H2, H3.
  destruct (Z.leb_spec (failure_threshold (breaker_config b)) (Z.of_nat k + 1)); [lia|].
  split_and!; [done|done|]. simpl in *. lia.
Qed.

(** * Properties *)

(** A closed circuit stays closed through fewer than [failure_threshold] consecutive breaking failures; the
    one that reaches the threshold opens it, and until [reset_timeout] has passed every call is refused with
    [TemporaryFailure] without running its operation or changing anything but the count of refusals. *)
Theorem opens_at_threshold now e b :
  is_circuit_breaking_error (breaker_config b) e = true ->
  breaker_state b = Closed -> consecutive_failures b = 0 ->
  1 <= failure_threshold (breaker_config b) < 2 ^ 32 ->
  let failing k := calls k now (Completed (Err e)) b in
  (forall k, Z.of_nat k < failure_threshold (breaker_config b) -> breaker_state (failing k) = Closed) /\
  let b' := failing (Z.to_nat (failure_threshold (breaker_config b))) in
  breaker_state b' = Open /\
  forall t c, sat_sub t now < reset_timeout (breaker_config b) ->
    call t t c b' = (Err TemporaryFailure, count_rejected b').
Proof.
  intros He Hs Hc Ht failing. split; [intros k Hk; apply failing_calls; auto; lia|].
  remember (Z.to_nat (failure_threshold (breaker_config b) - 1)) as k eqn:Ek.
  replace (Z.to_nat (failure_threshold (breaker_config b))) with (S k) by lia. intros b'.
  destruct (failing_calls now e b k) as (IHc & IHs & IHn); [auto|auto|auto|lia|lia|].
  destruct (failing_call now e (failing k)) as (H1 & H2 & H3);
    [by unfold failing; rewrite IHc|done|unfold failing; lia|].
  unfold failing in H1, H2, H3. rewrite IHc in H1, H3. rewrite IHn in H2, H3.
  destruct (Z.leb_spec (failure_threshold (breaker_config b)) (Z.of_nat k + 1)); [|lia].
  change (snd _) with b' in *. destruct H3 as [Hs' Ho']. split; [done|]. intros t c Hlt.
  unfold call, begin_call, should_allow_request. unfold_st. simpl. rewrite Hs', Ho', H1.
  destruct (Z.leb_spec (reset_timeout (breaker_config b)) (sat_sub t now)); [lia|done].
Qed.

(** However calls, completions and forced transitions interleave, since a circuit last became half-open
    at most [half_open_max_calls + 1] calls were admitted: the call that makes it half-open is not counted. *)
Theorem half_open_admissions_bounded name config w :
  0 <= half_open_max_calls config < 2 ^ 32 ->
  rtc breaker_step (mkBreakerWorld (breaker_new name config) 0 0) w ->
  breaker_state (w_breaker w) = HalfOpen ->
  w_probes w <= half_open_max_calls (breaker_config (w_breaker w)) + 1.
Proof.
  intros Hm Hr Hs. assert (probes_inv w) as [_ Hp].
  { revert Hr. apply (rtc_ind_r (fun v => probes_inv v)); [by split|].
    intros v v' _ Hstep IH. eauto using breaker_step_probes. }
  destruct (Hp Hs). lia.
Qed.

(** With the default configuration, five failures, the reset timeout and then four successful probes leave
    the circuit half-open for good: nine calls are fewer than [minimum_request_threshold], the probes are used
    up, and whenever a call is attempted afterwards it is refused. *)
Theorem default_breaker_sticks_half_open name times :
  let failed := calls 5 0 (Completed (Err NetworkError)) (breaker_new name default_breaker_config) in
  let recovered := calls 4 60 (Completed (Ok tt)) failed in
  successful_calls recovered = 4 /\
  fst (attempts times recovered) = map (fun _ => Err TemporaryFailure) times /\
  breaker_state (snd (attempts times recovered)) = HalfOpen.
Proof.
  intros failed recovered.
  split; [by destruct H|]. apply exhausted_attempts; destruct H; vm_compute; congruence.
Qed.
End Breaker.

(** * Witnesses *)

Lemma opens_at_threshold_witness :
  let failing k := calls (H:=true) k 0 (Completed (Err NetworkError)) (breaker_new "db" default_breaker_config) in
  breaker_state (failing 4%nat) = Closed /\ breaker_state (failing 5%nat) = Open.
Proof.
  destruct (opens_at_threshold (H:=true) 0 NetworkError (breaker_new "db" default_breaker_config))
    as [Hc [Ho _]]; [done|done|done|by vm_compute|].
  split; [by apply Hc|exact Ho].
Defined.

(** A breaker that failed five times and was probed at second 60. *)
Lemma half_open_admissions_bounded_witness :
  exists w, breaker_state (w_breaker w) = HalfOpen /\
    w_probes w <= half_open_max_calls (breaker_config (w_breaker w)) + 1.
Proof.
  set (c := default_breaker_config). set (b0 := breaker_new "db" c).
  set (b1 := force_open 0 b0).
  set (b2 := snd (begin_call (H:=true) 60 b1)).
  exists (mkBreakerWorld b2 1 1). split; [by vm_compute|].
  apply (half_open_admissions_bounded (H:=true) "db" c); [by vm_compute| |by vm_compute].
  eapply rtc_l; [apply (step_force_open 0)|]. eapply rtc_l; [|apply rtc_refl].
  change (mkBreakerWorld b2 1 1) with
    (mkBreakerWorld b2 (0 + 1) (if is_half_open b2 then (if is_half_open b1 then 0 + 1 else 1) else 0)).
  apply (step_admit 60). reflexivity.
Defined.
