(* ===== verification/Retry.v ===== *)
(** Retries with backoff (blixard-core/src/patterns/retry.rs).

    Durations are nanoseconds.  [f64::powf] has no specified precision, so it
    is an argument, and so are the random numbers drawn by the [rand] crate,
    of which the model uses only that they lie in the range asked for.  The
    operation is any stateful computation, which may also panic or never
    complete; logging is left out. *)

From Stdlib Require Import ZArith Lia List SpecFloat.
From stdpp Require Import base tactics numbers gmap strings option.
From stdpp Require Import list relations.
From S2P Require Import Prelude Float64 Errors.

Open Scope Z_scope.

(** * Durations *)

(** [Duration::MAX]: [u64::MAX] seconds and 999,999,999 nanoseconds. *)
Definition duration_max : Z := u64_max * 1000000000 + 999999999.
Definition from_millis (ms : Z) : Z := ms * 1000000.
Definition from_secs (s : Z) : Z := s * 1000000000.
Definition as_millis (d : Z) : Z := d / 1000000.
Definition dur_saturating_add (a b : Z) : Z := Z.min (a + b) duration_max.
Definition dur_saturating_mul (a n : Z) : Z := Z.min (a * n) duration_max.

Definition is_duration (d : Z) : Prop := 0 <= d <= duration_max.

(** * Backoff *)

Class Powf : Type := powf : f64 -> f64 -> f64.

(** A custom function may panic: [None]. *)
Inductive BackoffStrategy : Type :=
| Fixed (duration : Z)
| Linear (base max : Z)
| Exponential (base max : Z) (multiplier : f64)
| Fibonacci (base max : Z)
| Custom (f : Z -> option Z).

Section Backoff.
Context `{Profile} `{Powf}.

(** The loop [for _ in 2..=n] of [fibonacci], [k] rounds from [(a, b)]. *)
Fixpoint fib_loop (k : nat) (a b : Z) : BlixardResult Z :=
  match k with
  | O => Ok b
  | S k' => let? temp := arith_u 32 (a + b) in fib_loop k' b temp
  end.

Definition fibonacci (n : Z) : BlixardResult Z :=
  if n =? 0 then Ok 0
  else if n =? 1 then Ok 1
  else fib_loop (Z.to_nat (n - 1)) 0 1.

Definition delay (strategy : BackoffStrategy) (attempt : Z) : BlixardResult Z :=
  match strategy with
  | Fixed duration => Ok duration
  | Linear base max => Ok (Z.min (dur_saturating_mul base attempt) max)
  | Exponential base max multiplier =>
      let factor := powf multiplier (f64_of_Z (sat_sub attempt 1)) in
      let delay_ms := f64_as_u 64 (f64_mul (f64_of_Z (as_millis base)) factor) in
      Ok (Z.min (from_millis delay_ms) max)
  | Fibonacci base max =>
      let? fib := fibonacci attempt in
      Ok (Z.min (dur_saturating_mul base fib) max)
  | Custom f => match f attempt with Some d => Ok d | None => Panic end
  end.
End Backoff.

Definition default_backoff : BackoffStrategy :=
  Exponential (from_millis 100) (from_secs 30) (f64_of_Z 2).

(** * Jitter *)

Inductive JitterStrategy : Type :=
| JitterNone
| Proportional
| ProportionalRange (min max : f64)
| JitterFixed (max_jitter : Z)
| Full
| Decorrelated (base : Z).

Definition default_jitter : JitterStrategy := ProportionalRange (f64_lit 1 2) (f64_lit 3 2).

(** The random numbers drawn at an attempt, from the range asked for. *)
Class Rng : Type := {
  rng_f64 : Z -> f64 -> f64 -> f64;
  rng_int : Z -> Z -> Z -> Z;
  rng_bool : Z -> bool;
  rng_int_range : forall attempt lo hi, lo <= hi -> lo <= rng_int attempt lo hi <= hi
}.

Section Jitter.
Context `{Rng}.

(** [gen_range] panics on an empty range, and on a range of floats whose width
    is not finite. *)
Definition range_ok (lo hi : f64) : bool :=
  f64_ltb lo hi && match f64_sub hi lo with S754_finite _ _ _ => true | _ => false end.
Definition gen_range_f64 (attempt : Z) (lo hi : f64) : BlixardResult f64 :=
  if range_ok lo hi then Ok (rng_f64 attempt lo hi) else Panic.
Definition gen_range_int (attempt : Z) (lo hi : Z) : BlixardResult Z :=
  if lo <=? hi then Ok (rng_int attempt lo hi) else Panic.

Definition scale_delay (base_delay : Z) (factor : f64) : Z :=
  from_millis (f64_as_u 64 (f64_mul (f64_of_Z (as_millis base_delay)) factor)).

(** In [JitterFixed] both branches of the first [gen_bool] give the same
    duration: the number drawn is not negative. *)
Definition apply_jitter (base_delay : Z) (strategy : JitterStrategy) (attempt : Z) : BlixardResult Z :=
  match strategy with
  | JitterNone => Ok base_delay
  | Proportional =>
      let? factor := gen_range_f64 attempt (f64_lit 1 2) (f64_lit 3 2) in
      Ok (scale_delay base_delay factor)
  | ProportionalRange min max =>
      let? factor := gen_range_f64 attempt min max in
      Ok (scale_delay base_delay factor)
  | JitterFixed max_jitter =>
      let? jitter_ms := gen_range_int attempt 0 (wrap_s 64 (as_millis max_jitter)) in
      let jitter := from_millis jitter_ms in
      Ok (if rng_bool attempt then dur_saturating_add base_delay jitter else sat_sub base_delay jitter)
  | Full =>
      let max_delay_ms := wrap_u 64 (as_millis base_delay) in
      if max_delay_ms =? 0 then Ok base_delay
      else let? ms := gen_range_int attempt 0 max_delay_ms in Ok (from_millis ms)
  | Decorrelated base =>
      let min_delay := wrap_u 64 (as_millis base) in
      let max_delay := Z.min (wrap_u 64 (as_millis base_delay) * 3) u64_max in
      if max_delay <=? min_delay then Ok base
      else let? ms := gen_range_int attempt min_delay max_delay in Ok (from_millis ms)
  end.
End Jitter.

(** * Configurations *)

Record RetryConfig : Type := mkRetryConfig {
  max_attempts : Z;
  backoff : BackoffStrategy;
  jitter : bool;
  jitter_strategy : JitterStrategy;
  max_total_delay : option Z;
  is_retryable : BlixardError -> bool;
  operation_name : option string
}.

Definition default_is_retryable (e : BlixardError) : bool :=
  match e with
  | NetworkError | Timeout _ _ | ConnectionError _ | TemporaryFailure => true
  | _ => false
  end.

Definition default_retry_config : RetryConfig :=
  mkRetryConfig 3 default_backoff true default_jitter None default_is_retryable None.

Definition fixed_config (attempts d : Z) : RetryConfig :=
  mkRetryConfig attempts (Fixed d) true default_jitter None default_is_retryable None.

Definition exponential_config (attempts : Z) : RetryConfig :=
  mkRetryConfig attempts (Exponential (from_millis 100) (from_secs 30) (f64_of_Z 2)) true default_jitter
    None default_is_retryable None.

Definition for_network_operations (name : string) : RetryConfig :=
  mkRetryConfig 5 (Exponential (from_millis 100) (from_secs 10) (f64_lit 16 10)) true
    (Decorrelated (from_millis 50)) (Some (from_secs 30))
    (fun e => match e with
              | NetworkError | ConnectionError _ | Timeout _ _ | TemporaryFailure => true
              | _ => false end)
    (Some name).

Definition for_critical_operations (name : string) : RetryConfig :=
  mkRetryConfig 10 (Exponential (from_millis 50) (from_secs 60) (f64_lit 15 10)) true
    Full (Some (from_secs 300))
    (fun e => match e with
              | ConfigurationError _ | NotImplemented _ | Validation _ => false
              | _ => true end)
    (Some name).

Definition for_vm_operations (name : string) : RetryConfig :=
  mkRetryConfig 7 (Exponential (from_millis 200) (from_secs 30) (f64_lit 18 10)) true
    (ProportionalRange (f64_lit 8 10) (f64_lit 12 10)) (Some (from_secs 120))
    (fun e => match e with
              | VmOperationFailed _ | ResourceExhausted _ | TemporaryFailure | Timeout _ _ => true
              | _ => false end)
    (Some name).

Definition with_operation_name (name : string) (c : RetryConfig) : RetryConfig :=
  mkRetryConfig (max_attempts c) (backoff c) (jitter c) (jitter_strategy c) (max_total_delay c)
    (is_retryable c) (Some name).
Definition with_jitter_strategy (s : JitterStrategy) (c : RetryConfig) : RetryConfig :=
  mkRetryConfig (max_attempts c) (backoff c) (jitter c) s (max_total_delay c)
    (is_retryable c) (operation_name c).

(** The configurations of the [presets] module. *)
Definition retry_network_config : RetryConfig :=
  mkRetryConfig 5 (Exponential (from_millis 100) (from_secs 10) (f64_of_Z 2)) true default_jitter
    (Some (from_secs 30))
    (fun e => match e with NetworkError | ConnectionError _ | Timeout _ _ => true | _ => false end)
    (Some "network_operation").

Definition retry_database_config : RetryConfig :=
  mkRetryConfig 3 (Fixed (from_millis 100)) false JitterNone (Some (from_secs 5))
    (fun e => match e with DatabaseError _ | TemporaryFailure => true | _ => false end)
    (Some "database_operation").

Definition retry_critical_config : RetryConfig :=
  mkRetryConfig 10 (Fibonacci (from_millis 100) (from_secs 60)) true default_jitter
    (Some (from_secs 300))
    (fun e => match e with ConfigurationError _ | NotImplemented _ => false | _ => true end)
    (Some "critical_operation").

(** * The retry loop *)

(** How a future ends: with a result (a panic is one), or never. *)
Inductive ending (T : Type) : Type :=
| Completes (result : BlixardResult T)
| Hangs.
Arguments Completes {T} result.
Arguments Hangs {T}.

(** What a retried operation does, in order: runs and waits. *)
Inductive retry_event (T : Type) : Type :=
| Ran (x : ending T)
| Slept (duration : Z).
Arguments Ran {T} x.
Arguments Slept {T} duration.

Section Loop.
Context `{Profile} `{Powf} `{Rng} {S T : Type}.
Context (config : RetryConfig) (operation : S -> ending T * S).

(** The delay before the next run. *)
Definition next_delay (attempt : Z) : BlixardResult Z :=
  let? d := delay (backoff config) attempt in
  if jitter config then apply_jitter d (jitter_strategy config) attempt else Ok d.

(** [loop] with [attempt] runs and [total] of waiting so far: how it ends, the
    state, and the runs and waits from here on. *)
Fixpoint retry_loop (fuel : nat) (attempt total : Z) (s : S) : option (ending T * S * list (retry_event T)) :=
  match fuel with
  | O => None
  | Datatypes.S fuel' =>
      match arith_u (E:=BlixardError) 32 (attempt + 1) with
      | Ok attempt =>
          let '(x, s1) := operation s in
          match x with
          | Completes (Err e) =>
              if max_attempts config <=? attempt then Some (x, s1, [Ran x])
              else if negb (is_retryable config e) then Some (x, s1, [Ran x])
              else
                match next_delay attempt with
                | Ok d =>
                    let total := dur_saturating_add total d in
                    if match max_total_delay config with Some m => m <? total | None => false end
                    then Some (x, s1, [Ran x])
                    else match retry_loop fuel' attempt total s1 with
                         | Some (x', s', es) => Some (x', s', Ran x :: Slept d :: es)
                         | None => None
                         end
                | _ => Some (Completes Panic, s1, [Ran x])
                end
          | _ => Some (x, s1, [Ran x])
          end
      | _ => Some (Completes Panic, s, [])
      end
  end.

(** Enough fuel: one run, and one more for each attempt allowed. *)
Definition retry_fuel : nat := Z.to_nat (Z.max 1 (max_attempts config)).
Definition retry (s : S) : option (ending T * S * list (retry_event T)) :=
  retry_loop retry_fuel 0 0 s.
End Loop.

Record RetryBuilder (S T : Type) : Type := mkRetryBuilder {
  rb_config : RetryConfig;
  rb_operation : option (S -> ending T * S)
}.
Arguments mkRetryBuilder {S T} rb_config rb_operation.
Arguments rb_config {S T} r.
Arguments rb_operation {S T} r.

Definition retry_builder_new {S T} : RetryBuilder S T := mkRetryBuilder default_retry_config None.

Definition rb_max_attempts {S T} (x : Z) (b : RetryBuilder S T) : RetryBuilder S T :=
  let c := rb_config b in
  mkRetryBuilder
    (mkRetryConfig x (backoff c) (jitter c) (jitter_strategy c) (max_total_delay c) (is_retryable c) (operation_name c))
    (rb_operation b).
Definition rb_backoff {S T} (x : BackoffStrategy) (b : RetryBuilder S T) : RetryBuilder S T :=
  let c := rb_config b in
  mkRetryBuilder
    (mkRetryConfig (max_attempts c) x (jitter c) (jitter_strategy c) (max_total_delay c) (is_retryable c) (operation_name c))
    (rb_operation b).
Definition rb_jitter {S T} (x : bool) (b : RetryBuilder S T) : RetryBuilder S T :=
  let c := rb_config b in
  mkRetryBuilder
    (mkRetryConfig (max_attempts c) (backoff c) x (jitter_strategy c) (max_total_delay c) (is_retryable c) (operation_name c))
    (rb_operation b).
Definition rb_max_total_delay {S T} (x : Z) (b : RetryBuilder S T) : RetryBuilder S T :=
  let c := rb_config b in
  mkRetryBuilder
    (mkRetryConfig (max_attempts c) (backoff c) (jitter c) (jitter_strategy c) (Some x) (is_retryable c) (operation_name c))
    (rb_operation b).
Definition rb_is_retryable {S T} (x : BlixardError -> bool) (b : RetryBuilder S T) : RetryBuilder S T :=
  let c := rb_config b in
  mkRetryBuilder
    (mkRetryConfig (max_attempts c) (backoff c) (jitter c) (jitter_strategy c) (max_total_delay c) x (operation_name c))
    (rb_operation b).
Definition rb_set_operation {S T} (f : S -> ending T * S) (b : RetryBuilder S T) : RetryBuilder S T :=
  mkRetryBuilder (rb_config b) (Some f).

Definition rb_execute `{Profile} `{Powf} `{Rng} {S T} (b : RetryBuilder S T) (s : S)
  : option (ending T * S * list (retry_event T)) :=
  match rb_operation b with
  | None => Some (Completes (Err (Internal "No operation provided to retry")), s, [])
  | Some operation => retry (rb_config b) operation s
  end.

(** * Traces *)

Definition runs {T} (es : list (retry_event T)) : list (ending T) :=
  omap (fun e => match e with Ran x => Some x | Slept _ => None end) es.
Definition waits {T} (es : list (retry_event T)) : list Z :=
  omap (fun e => match e with Ran _ => None | Slept d => Some d end) es.
Definition sum_of (l : list Z) : Z := foldr Z.add 0 l.

(** The Fibonacci numbers. *)
Fixpoint fib (n : nat) : Z :=
  match n with
  | O => 0
  | S n' => match n' with O => 1 | S n'' => fib n' + fib n'' end
  end.

(** The most a capped strategy waits. *)
Definition backoff_cap (strategy : BackoffStrategy) : option Z :=
  match strategy with
  | Fixed d => Some d
  | Linear _ max | Exponential _ max _ | Fibonacci _ max => Some max
  | Custom _ => None
  end.

(** Whether the loop may go on after [n] runs of which the last failed with [e]. *)
Definition may_retry (config : RetryConfig) (n : Z) (e : BlixardError) : bool :=
  (n <? max_attempts config) && is_retryable config e.

(** A delay can be computed for every attempt without a panic. *)
Definition delays_safe `{Profile} (config : RetryConfig) : Prop :=
  match backoff config with
  | Fibonacci _ _ => overflow_checks = false \/ max_attempts config <= 48
  | Custom f => forall n, is_Some (f n)
  | _ => True
  end /\
  (jitter config = true ->
   match jitter_strategy config with
   | ProportionalRange min max => range_ok min max = true
   | JitterFixed m => 0 <= as_millis m < 2 ^ 63
   | _ => True
   end).

(** Every run of the operation completes, without a panic. *)
Definition completes {S T} (operation : S -> ending T * S) : Prop :=
  forall s, exists r, fst (operation s) = Completes r /\ r <> Panic.

(** * Lemmas *)

Section LoopLemmas.
Context `{Profile} `{Powf} `{Rng} {S T : Type}.
Context (config : RetryConfig) (operation : S -> ending T * S).
Context (Hmax : 0 <= max_attempts config < 2 ^ 32).

Let limit : Z := Z.max 1 (max_attempts config).

(** The loop ends within its fuel, after at most the runs that were left. *)
Lemma retry_loop_ends fuel attempt total s :
  0 <= attempt < limit -> Z.of_nat fuel = limit - attempt ->
  exists x s' es, retry_loop config operation fuel attempt total s = Some (x, s', es) /\
    1 <= Z.of_nat (length (runs es)) <= limit - attempt.
Proof.
  revert attempt total s. induction fuel as [|fuel IH]; intros attempt total s Ha Hf; [lia|].
  cbn [retry_loop]. rewrite arith_u_fits by lia. destruct (operation s) as [x s1].
  destruct x as [[v|e|]|]; [do 3 eexists; split; [done|simpl; lia]| |do 3 eexists; split; [done|simpl; lia]..].
  destruct (Z.leb_spec (max_attempts config) (attempt + 1)); [do 3 eexists; split; [done|simpl; lia]|].
  destruct (negb _); [do 3 eexists; split; [done|simpl; lia]|].
  destruct (next_delay config (attempt + 1)) as [d|e'|]; [|do 3 eexists; split; [done|simpl; lia]..].
  destruct (match max_total_delay config with Some _ => _ | None => _ end);
    [do 3 eexists; split; [done|simpl; lia]|].
  destruct (IH (attempt + 1) (dur_saturating_add total d) s1) as (r' & s' & es & -> & Hn); [lia|lia|].
  do 3 eexists; split; [done|]. cbn [runs omap list_omap length]. unfold runs in Hn. lia.
Qed.

(** The waits fit in what is left of [max_total_delay]. *)
Lemma retry_loop_waits fuel attempt total s r s' es m :
  max_total_delay config = Some m -> m < duration_max -> total <= m ->
  retry_loop config operation fuel attempt total s = Some (r, s', es) ->
  sum_of (waits es) <= m - total.
Proof.
  intros Em Hm. revert attempt total s es. induction fuel as [|fuel IH]; intros attempt total s es Ht E; [done|].
  cbn [retry_loop] in E. rewrite Em in E.
  destruct (arith_u 32 (attempt + 1)) as [a| |]; [|simplify_eq; simpl; lia..].
  destruct (operation s) as [[[v|e|]|] s1]; [simplify_eq; simpl; lia| |simplify_eq; simpl; lia..].
  destruct (max_attempts config <=? a); [simplify_eq; simpl; lia|].
  destruct (negb _); [simplify_eq; simpl; lia|].
  destruct (next_delay config a) as [d|e'|]; [|simplify_eq; simpl; lia..].
  destruct (Z.ltb_spec m (dur_saturating_add total d)) as [|Hle]; [simplify_eq; simpl; lia|].
  destruct (retry_loop _ _ _ _ _ _) as [[[r2 s2] es2]|] eqn:E2; [|done]. simplify_eq.
  apply IH in E2; [|done]. cbn [waits omap list_omap sum_of foldr]. unfold waits, sum_of in E2.
  unfold dur_saturating_add in *. lia.
Qed.

(** How a trace explains the end, after [attempt] runs and [total] of waiting:
    it is the end of the last run, or a panic over a delay; the runs before it
    failed with errors that may be retried; and when the last one also may be,
    its delay would have exceeded [max_total_delay]. *)
Definition explains (attempt total : Z) (x : ending T) (es : list (retry_event T)) : Prop :=
  (last (runs es) = Some x \/
   x = Completes Panic /\ exists n, attempt < n < max_attempts config /\ forall d, next_delay config n <> Ok d) /\
  (forall i y, (Datatypes.S i < length (runs es))%nat -> runs es !! i = Some y ->
     exists e, y = Completes (Err e) /\ may_retry config (attempt + 1 + Z.of_nat i) e = true) /\
  (forall e, x = Completes (Err e) -> may_retry config (attempt + Z.of_nat (length (runs es))) e = true ->
     exists m d, max_total_delay config = Some m /\
       next_delay config (attempt + Z.of_nat (length (runs es))) = Ok d /\
       m < total + sum_of (waits es) + d).

Lemma explains_once attempt total x :
  (forall e, x = Completes (Err e) -> may_retry config (attempt + 1) e = true ->
     exists m d, max_total_delay config = Some m /\ next_delay config (attempt + 1) = Ok d /\ m < total + d) ->
  explains attempt total x [Ran x].
Proof.
  intros He. split_and!; [by left|simpl; intros i y Hi; lia|].
  intros e Ee Hm. destruct (He e Ee Hm) as (m & d & ? & ? & ?). exists m, d. simpl. split_and!; [done|done|lia].
Qed.

Lemma explains_panic attempt total y :
  attempt + 1 < max_attempts config -> (forall d, next_delay config (attempt + 1) <> Ok d) ->
  explains attempt total (Completes Panic) [Ran y].
Proof.
  intros Ha Hd. split_and!; [right|simpl; intros i z Hi; lia|done]. split; [done|].
  exists (attempt + 1). split; [lia|done].
Qed.

Lemma explains_step attempt total total' d x e es :
  may_retry config (attempt + 1) e = true -> (1 <= length (runs es))%nat -> total' <= total + d ->
  explains (attempt + 1) total' x es ->
  explains attempt total x (Ran (Completes (Err e)) :: Slept d :: es).
Proof.
  intros Hm Hlen Htot (H1' & H2' & H3'). unfold explains.
  change (runs (Ran (Completes (Err e)) :: Slept d :: es)) with (Completes (Err e) :: runs es).
  change (waits (Ran (Completes (Err e)) :: Slept d :: es)) with (d :: waits es). split_and!.
  - destruct H1' as [Hl|(-> & n & Hn & Hd)]; [left|right; split; [done|exists n; split; [lia|done]]].
    destruct (runs es); [done|]. by rewrite last_cons, Hl.
  - intros [|i] y Hi Hx; simpl in Hx.
    + simplify_eq. exists e. split; [done|]. by rewrite Z.add_0_r.
    + simpl in Hi. destruct (H2' i y) as (e' & -> & He'); [lia|done|]. exists e'. split; [done|].
      rewrite <- He'. f_equal. lia.
  - intros e' Hr He'. simpl length in *.
    replace (attempt + Z.of_nat (Datatypes.S (length (runs es))))
      with (attempt + 1 + Z.of_nat (length (runs es))) in * by lia.
    destruct (H3' e' Hr He') as (m & d' & ? & ? & ?). exists m, d'. simpl. split_and!; [done|done|lia].
Qed.

Lemma retry_loop_explains fuel attempt total s r s' es :
  0 <= attempt < limit -> Z.of_nat fuel = limit - attempt ->
  retry_loop config operation fuel attempt total s = Some (r, s', es) -> explains attempt total r es.
Proof.
  revert attempt total s es. induction fuel as [|fuel IH]; intros attempt total s es Ha Hf E; [lia|].
  cbn [retry_loop] in E. rewrite arith_u_fits in E by lia.
  destruct (operation s) as [[[v|e|]|] s1]; [simplify_eq; apply explains_once; discriminate| |
    simplify_eq; apply explains_once; discriminate..].
  destruct (Z.leb_spec (max_attempts config) (attempt + 1)).
  { simplify_eq. apply explains_once. intros e' _ Hm. unfold may_retry in Hm. bools. lia. }
  destruct (is_retryable config e) eqn:Er; simpl in E.
  2:{ simplify_eq. apply explains_once. intros e' [= <-] Hm. unfold may_retry in Hm. bools. congruence. }
  destruct (next_delay config (attempt + 1)) as [d|e'|] eqn:Ed;
    [|simplify_eq; apply explains_panic; [lia|congruence]..].
  assert (may_retry config (attempt + 1) e = true) as Hm.
  { unfold may_retry. rewrite Er, andb_true_r. apply Z.ltb_lt. lia. }
  destruct (match max_total_delay config with Some _ => _ | None => _ end) eqn:Et.
  { simplify_eq. apply explains_once. intros e' _ _.
    destruct (max_total_delay config) as [m|]; [|done]. bools. exists m, d.
    unfold dur_saturating_add in Et. split_and!; [done|done|lia]. }
  destruct (retry_loop _ _ _ _ _ _) as [[[r2 s2] es2]|] eqn:E2; [|done]. simplify_eq.
  destruct (retry_loop_ends fuel (attempt + 1) (dur_saturating_add total d) s1)
    as (r3 & s3 & es3 & E3 & Hn); [lia|lia|]. rewrite E2 in E3. simplify_eq.
  eapply explains_step; [done|lia| |eapply IH; [| |exact E2]; lia].
  unfold dur_saturating_add. lia.
Qed.
End LoopLemmas.

(** Fibonacci numbers in linear time, for evaluation. *)
Fixpoint fib_pair (n : nat) : Z * Z :=
  match n with O => (0, 1) | S n' => let '(a, b) := fib_pair n' in (b, a + b) end.

Lemma fib_pair_fib n : fib_pair n = (fib n, fib (S n)).
Proof.
  induction n as [|n IH]; [done|]. cbn [fib_pair]. rewrite IH.
  change (fib (S (S n))) with (fib (S n) + fib n). f_equal. lia.
Qed.

Lemma fib_loop_fib `{Profile} k i :
  (forall j, (j <= k)%nat -> 0 <= fib (S i + j) < 2 ^ 32) ->
  fib_loop k (fib i) (fib (S i)) = Ok (fib (S i + k)).
Proof.
  revert i. induction k as [|k IH]; intros i Hb; [by rewrite Nat.add_0_r|]. cbn [fib_loop].
  assert (fib i + fib (S i) = fib (S (S i))) as -> by (change (fib (S (S i))) with (fib (S i) + fib i); lia).
  rewrite arith_u_fits by (specialize (Hb 1%nat); rewrite Nat.add_1_r in Hb; apply Hb; lia). cbn [obind].
  rewrite IH; [f_equal; f_equal; lia|].
  intros j Hj. replace (S (S i) + j)%nat with (S i + S j)%nat by lia. apply Hb. lia.
Qed.

Lemma fib_small n : (n < 48)%nat -> 0 <= fib n < 2 ^ 32.
Proof.
  intros Hn. replace (fib n) with (fst (fib_pair n)) by (by rewrite fib_pair_fib).
  assert (forall z, 0 <= z < 48 -> fits_u 32 (fst (fib_pair (Z.to_nat z))) = true) as Hb.
  { apply (forall_below 48). vm_compute. reflexivity. }
  specialize (Hb (Z.of_nat n)). rewrite Nat2Z.id in Hb. unfold fits_u in Hb.
  destruct (andb_prop _ _ (Hb ltac:(lia))). bools. lia.
Qed.

(** A capped strategy never waits longer than its cap, before jitter. *)
Lemma delay_within_cap `{Profile} `{Powf} strategy attempt d m :
  delay strategy attempt = Ok d -> backoff_cap strategy = Some m -> d <= m.
Proof.
  destruct strategy as [x|b mx|b mx f|b mx|f]; simpl; intros E Em; simplify_eq; try lia.
  destruct (fibonacci attempt); simpl in E; simplify_eq; lia.
Qed.

Lemma fibonacci_fib `{Profile} n : 0 <= n < 48 -> fibonacci n = Ok (fib (Z.to_nat n)).
Proof.
  intros Hn. unfold fibonacci.
  destruct (Z.eqb_spec n 0) as [->|]; [done|]. destruct (Z.eqb_spec n 1) as [->|]; [done|].
  change 0 with (fib 0) at 1. change 1 with (fib 1) at 2.
  rewrite fib_loop_fib by (intros j Hj; apply fib_small; lia). do 2 f_equal. lia.
Qed.

Lemma fib_loop_unchecked `{Profile} k a b : overflow_checks = false -> exists z, fib_loop k a b = Ok z.
Proof.
  intros Ho. revert a b. induction k as [|k IH]; intros a b; [by exists b|]. cbn [fib_loop].
  unfold arith_u. rewrite Ho. by destruct (fits_u _ _); apply IH.
Qed.

(** Where the configuration allows it, a delay is computed for every attempt
    after which another run may follow. *)
Lemma delay_safe `{Profile} `{Powf} config attempt :
  delays_safe config -> 0 <= attempt < max_attempts config -> exists d, delay (backoff config) attempt = Ok d.
Proof.
  intros [Hb _] Ha. unfold delay. destruct (backoff config) as [x|b m|b m f|b m|f]; try by eexists.
  - destruct Hb as [Ho|Hm].
    + unfold fibonacci. destruct (attempt =? 0); [by eexists|]. destruct (attempt =? 1); [by eexists|].
      destruct (fib_loop_unchecked (Z.to_nat (attempt - 1)) 0 1 Ho) as [z ->]. by eexists.
    + rewrite fibonacci_fib by lia. by eexists.
  - destruct (Hb attempt) as [d ->]. by exists d.
Qed.

Lemma gen_range_int_ok `{Rng} attempt lo hi : lo <= hi -> exists z, gen_range_int attempt lo hi = Ok z.
Proof. intros Hle. unfold gen_range_int. rewrite (proj2 (Z.leb_le _ _) Hle). by eexists. Qed.

Lemma next_delay_safe `{Profile} `{Powf} `{Rng} config attempt :
  delays_safe config -> 0 <= attempt < max_attempts config -> exists d, next_delay config attempt = Ok d.
Proof.
  intros Hs Ha. destruct (delay_safe config attempt Hs Ha) as [d Hd]. destruct Hs as [_ Hj].
  unfold next_delay. rewrite Hd. cbn [obind]. destruct (jitter config); [|by exists d]. specialize (Hj eq_refl).
  unfold apply_jitter. destruct (jitter_strategy config) as [| |lo hi|m| |base]; [by eexists|by eexists| | | |].
  - unfold gen_range_f64. rewrite Hj. by eexists.
  - destruct (gen_range_int_ok attempt 0 (wrap_s 64 (as_millis m))) as [z ->]; [|by eexists].
    unfold wrap_s. rewrite Z.mod_small by lia. lia.
  - case_match; [by eexists|].
    destruct (gen_range_int_ok attempt 0 (wrap_u 64 (as_millis d))) as [z ->]; [|by eexists].
    unfold wrap_u. by apply Z.mod_pos_bound.
  - destruct (Z.leb_spec (Z.min (wrap_u 64 (as_millis d) * 3) u64_max) (wrap_u 64 (as_millis base))); [by eexists|].
    edestruct gen_range_int_ok as [z Hz]; [|rewrite Hz; by eexists]. lia.
Qed.

(** The operation's runs are results of the operation. *)
Lemma retry_loop_runs `{Profile} `{Powf} `{Rng} {S T} (config : RetryConfig) (operation : S -> ending T * S)
    fuel attempt total s x s' es :
  retry_loop config operation fuel attempt total s = Some (x, s', es) ->
  Forall (fun y => exists s1, fst (operation s1) = y) (runs es).
Proof.
  revert attempt total s es. induction fuel as [|fuel IH]; intros attempt total s es E; [done|].
  cbn [retry_loop] in E. destruct (arith_u 32 (attempt + 1)) as [a| |]; [|simplify_eq; constructor..].
  assert (Hrun : forall y s1, operation s = (y, s1) -> exists s2, fst (operation s2) = y)
    by (intros y s1 Ey; exists s; by rewrite Ey).
  destruct (operation s) as [y s1]. specialize (Hrun y s1 eq_refl).
  repeat case_match; simplify_eq; repeat constructor; try done; by eapply IH.
Qed.

(** * Properties *)

(** C40: [retry] runs the operation at least once and at most [max_attempts] times (once when that is zero), and
    all the waiting between the runs stays within [max_total_delay], where one below [Duration::MAX] is set.
    This holds of any operation, also of one that panics or never completes: the loop itself always ends.
    [retry] returns, with the value or the error of the last run, when every run of the operation completes
    without a panic and no delay panics: for [Fibonacci], without overflow checks or with at most 48 attempts;
    for a custom backoff, when the function does not panic; with jitter, when a [ProportionalRange] is not
    empty and has a finite width and a [Fixed] jitter is below 2^63 ms. *)
Theorem retry_terminates `{Profile} `{Powf} `{Rng} {S T} (config : RetryConfig)
    (operation : S -> ending T * S) (s : S) :
  0 <= max_attempts config < 2 ^ 32 ->
  exists x s' es, retry config operation s = Some (x, s', es) /\
    1 <= Z.of_nat (length (runs es)) <= Z.max 1 (max_attempts config) /\
    (forall m, max_total_delay config = Some m -> 0 <= m < duration_max -> sum_of (waits es) <= m) /\
    (completes operation -> delays_safe config ->
     exists r, x = Completes r /\ r <> Panic /\ last (runs es) = Some x).
Proof.
  intros Hm. destruct (retry_loop_ends config operation Hm (retry_fuel config) 0 0 s)
    as (x & s' & es & E & Hn); [lia|unfold retry_fuel; lia|].
  exists x, s', es. split_and!; [exact E|lia|lia| |].
  - intros m Em Hmd.
    pose proof (retry_loop_waits config operation _ _ _ _ _ _ _ m Em (proj2 Hmd) (proj1 Hmd) E). lia.
  - intros Hc Hs. pose proof (retry_loop_runs _ _ _ _ _ _ _ _ _ E) as Hr.
    destruct (retry_loop_explains config operation Hm (retry_fuel config) 0 0 s x s' es)
      as ([Hl|(_ & n & Hn' & Hd)] & _); [lia|unfold retry_fuel; lia|exact E| |].
    + rewrite Forall_forall in Hr. destruct (Hr x) as [s1 <-]; [by apply last_Some_elem_of|].
      destruct (Hc s1) as (r & Er & Hp). by exists r.
    + destruct (next_delay_safe config n Hs) as [d Ed]; [lia|]. by destruct (Hd d).
Qed.

(** [retry] ends as the last run ended (or panics computing a delay); every earlier run failed with
    a retryable error while attempts were left; and when the last run failed in that way too, the next delay
    would have taken the waiting past [max_total_delay]. *)
Theorem retry_result_explained `{Profile} `{Powf} `{Rng} {S T} (config : RetryConfig)
    (operation : S -> ending T * S) (s : S) x s' es :
  0 <= max_attempts config < 2 ^ 32 ->
  retry config operation s = Some (x, s', es) -> explains config 0 0 x es.
Proof. intros Hm E. eapply retry_loop_explains; [done| | |exact E]; [lia|unfold retry_fuel; lia]. Qed.

(** The delays of the ready-made configurations never panic. *)
Theorem stock_delays_safe `{Profile} name n d :
  Forall delays_safe [default_retry_config; fixed_config n d; exponential_config n; for_network_operations name;
    for_critical_operations name; for_vm_operations name; retry_network_config; retry_database_config;
    retry_critical_config].
Proof.
  repeat (apply Forall_cons; split); [..|constructor];
    (split; [|by intros Hj; try discriminate; vm_compute]); try exact I. right. vm_compute. discriminate.
Qed.

(** [fibonacci] is the Fibonacci function up to 47; from attempt 48 on it does not fit [u32], and a build
    with overflow checks panics instead of waiting. *)
Theorem fibonacci_reference `{Profile} :
  (forall n, 0 <= n < 48 -> fibonacci n = Ok (fib (Z.to_nat n))) /\
  fibonacci 48 = if overflow_checks then Panic else Ok (fib 48 - 2 ^ 32).
Proof.
  split; [exact fibonacci_fib|].
  replace (fib 48) with (fst (fib_pair 48)) by (by rewrite fib_pair_fib).
  destruct H; vm_compute; reflexivity.
Qed.

(** * Witnesses *)

#[local] Instance demo_profile : Profile := true.
#[local] Instance demo_powf : Powf := fun x _ => x.
#[local] Instance demo_rng : Rng := {
  rng_f64 := fun _ lo _ => lo; rng_int := fun _ lo _ => lo; rng_bool := fun _ => true;
  rng_int_range := fun _ lo hi Hle => conj (Z.le_refl lo) Hle
}.

(** An operation that fails twice, then succeeds. *)
Definition third_time (n : Z) : ending Z * Z :=
  (Completes (if n <? 2 then Err NetworkError else Ok n), n + 1).

Lemma retry_terminates_witness :
  exists r s' es, retry default_retry_config third_time 0 = Some (Completes r, s', es) /\ r <> Panic /\
    1 <= Z.of_nat (length (runs es)) <= 3.
Proof.
  destruct (retry_terminates default_retry_config third_time 0) as (x & s' & es & E & Hn & _ & Hr); [by vm_compute|].
  destruct Hr as (r & -> & Hp & _).
  - intros n. exists (if n <? 2 then Err NetworkError else Ok n). split; [reflexivity|]. by destruct (n <? 2).
  - split; [exact I|]. intros _. vm_compute. reflexivity.
  - exists r, s', es. split; [exact E|]. split; [exact Hp|exact Hn].
Defined.

Definition demo_run := default (Hangs, 0, []) (retry default_retry_config third_time 0).

Lemma demo_run_result : retry default_retry_config third_time 0 = Some demo_run.
Proof. reflexivity. Qed.

Lemma retry_result_explained_witness :
  fst (fst demo_run) = Completes (Ok 2) /\ explains default_retry_config 0 0 (fst (fst demo_run)) (snd demo_run).
Proof.
  split; [by vm_compute|].
  apply (retry_result_explained default_retry_config third_time 0 (fst (fst demo_run)) (snd (fst demo_run)));
    [by vm_compute|]. rewrite demo_run_result. by destruct demo_run as [[? ?] ?].
Defined.
