(* ===== verification/IpPool.v ===== *)
(** IP address pools (blixard-core/src/ip_pool.rs): pool configuration and its
    validation, the search for a free address, the address factory, and the pool
    state backed by a resource pool.

    The factory and the pool state share one set of allocated addresses (an
    [Arc<RwLock<..>>]): [e_shared] is that set, and the factory is run on it.
    The factory keeps the configuration the pool was created with,
    [e_factory_config]; the configuration in [e_state] is the one updates
    change.  The locks are never poisoned: no section that holds one panics. *)

From Stdlib Require Import ZArith Lia List.
From stdpp Require Import base tactics numbers gmap strings pretty option.
From stdpp Require Import list relations.
From S2P Require Import Prelude Float64 Errors Types ResourcePool.

Open Scope Z_scope.

(** * Addresses *)

(** [std::net::IpAddr], with the integer value of the address. *)
Inductive IpAddr : Type := V4 (a : Z) | V6 (a : Z).

#[export] Instance IpAddr_eq_dec : EqDecision IpAddr.
Proof. solve_decision. Defined.
#[export] Instance IpAddr_countable : Countable IpAddr.
Proof.
  refine (inj_countable'
    (fun i => match i with V4 a => inl a | V6 a => inr a end)
    (fun s => match s with inl a => V4 a | inr a => V6 a end) _).
  by intros [].
Defined.

(** What the code uses of the [ipnet] crate: networks and whether a network
    contains an address. *)
Class IpNetLib : Type := {
  IpNet : Type;
  net_contains : IpNet -> IpAddr -> bool
}.

Abbreviation IpPoolId := Z.

(** [Display] for [IpPoolId]. *)
Definition show_pool_id (id : IpPoolId) : string := "pool-" +:+ pretty id.

(** * Pool configuration *)

Section Config.
Context `{Profile} `{IpNetLib}.

Record IpPoolConfig : Type := mkIpPoolConfig {
  id : IpPoolId;
  name : string;
  subnet : IpNet;
  vlan_id : option Z;
  gateway : IpAddr;
  dns_servers : list IpAddr;
  allocation_start : IpAddr;
  allocation_end : IpAddr;
  topology_hint : option string;
  reserved_ips : gset IpAddr;
  enabled : bool;
  tags : gmap string string
}.

Definition config_error (component : string) : BlixardResult unit :=
  Err (ConfigurationError component).

Definition validate_range (c : IpPoolConfig) : BlixardResult unit :=
  match allocation_start c, allocation_end c with
  | V4 s, V4 e => if e <? s then config_error "ip_pool.allocation_range" else Ok tt
  | V6 s, V6 e => if e <? s then config_error "ip_pool.allocation_range" else Ok tt
  | _, _ => config_error "ip_pool.allocation_range"
  end.

Definition validate_vlan (c : IpPoolConfig) : BlixardResult unit :=
  match vlan_id c with
  | Some vlan => if (vlan =? 0) || (4094 <? vlan) then config_error "ip_pool.vlan_id" else Ok tt
  | None => Ok tt
  end.

(** The reserved addresses are checked in the order of the [BTreeSet]; all
    failures are the same error up to its message. *)
Definition validate (c : IpPoolConfig) : BlixardResult unit :=
  if negb (net_contains (subnet c) (gateway c)) then config_error "ip_pool.gateway"
  else if negb (net_contains (subnet c) (allocation_start c))
  then config_error "ip_pool.allocation_start"
  else if negb (net_contains (subnet c) (allocation_end c))
  then config_error "ip_pool.allocation_end"
  else
    let? _ := validate_range c in
    let? _ := (if forallb (net_contains (subnet c)) (elements (reserved_ips c))
               then Ok tt else config_error "ip_pool.reserved_ips") in
    validate_vlan c.

Definition total_capacity (c : IpPoolConfig) : BlixardResult Z :=
  let reserved := Z.of_nat (size (reserved_ips c)) in
  match allocation_start c, allocation_end c with
  | V4 s, V4 e =>
      let? d := arith_u 32 (e - s) in
      let? n := arith_u 32 (d + 1) in
      arith_u 64 (n - reserved)
  | V6 s, V6 e =>
      let? d := arith_u 128 (e - s) in
      let? n := arith_u 128 (d + 1) in
      arith_u 64 (Z.min n u64_max - reserved)
  | _, _ => Ok 0
  end.

(** * Search for a free address *)

(** [for i in start..=end]: the first of [n] consecutive values that is free. *)
Fixpoint search4 (free : IpAddr -> bool) (n : nat) (i : Z) : option IpAddr :=
  match n with
  | O => None
  | S n' => if free (V4 i) then Some (V4 i) else search4 free n' (i + 1)
  end.

(** [for i in 0..n] over [start + i]. *)
Fixpoint search6 (free : IpAddr -> bool) (start : Z) (n : nat) (i : Z)
    : BlixardResult (option IpAddr) :=
  match n with
  | O => Ok None
  | S n' =>
      let? a := arith_u 128 (start + i) in
      if free (V6 a) then Ok (Some (V6 a)) else search6 free start n' (i + 1)
  end.

Definition MAX_ITERATIONS : Z := 10000.

Definition search_range (free : IpAddr -> bool) (c : IpPoolConfig)
    : BlixardResult (option IpAddr) :=
  match allocation_start c, allocation_end c with
  | V4 s, V4 e => Ok (search4 free (Z.to_nat (e - s + 1)) s)
  | V6 s, V6 e =>
      let? d := arith_u 128 (e - s) in
      let? n := arith_u 128 (d + 1) in
      search6 free s (Z.to_nat (Z.min MAX_ITERATIONS n)) 0
  | _, _ => Ok None
  end.

(** ** The factory *)

Definition is_ip_available (config : IpPoolConfig) (allocated : gset IpAddr) (ip : IpAddr) : bool :=
  negb (bool_decide (ip ∈ allocated))
  && negb (bool_decide (ip ∈ reserved_ips config))
  && net_contains (subnet config) ip
  && negb (bool_decide (ip = gateway config)).

Definition find_next_available_ip (config : IpPoolConfig) (allocated : gset IpAddr)
    : BlixardResult (option IpAddr) :=
  search_range (is_ip_available config allocated) config.

Record IpAddress : Type := mkIpAddress {
  ip : IpAddr;
  pool_id : IpPoolId;
  ip_valid : bool
}.

#[export] Instance IpAddress_poolable : PoolableResource IpAddress := {
  is_valid := ip_valid;
  reset := fun r => Ok (mkIpAddress (ip r) (pool_id r) true)
}.

(** [IpAddressFactory]: its configuration and the shared set. *)
Definition IpAddressFactory : Type := IpPoolConfig * gset IpAddr.

Definition factory_create : st IpAddressFactory BlixardError IpAddress :=
  let* (config, allocated) := sget in
  let* found := slift (find_next_available_ip config allocated) in
  let* a := slift (ok_or (ResourceExhausted ("IP addresses in pool " +:+ show_pool_id (id config)))
                         found) in
  sput (config, {[a]} ∪ allocated) ;*
  sret (mkIpAddress a (id config) true).

Definition factory_destroy (r : IpAddress) : st IpAddressFactory BlixardError unit :=
  smodify (fun '(config, allocated) => (config, allocated ∖ {[ip r]})).

#[export] Instance IpAddressFactory_factory : ResourceFactory IpAddressFactory IpAddress := {
  create := factory_create;
  destroy := factory_destroy
}.

(** * Pool state *)

Record IpPoolState : Type := mkIpPoolState {
  config : IpPoolConfig;
  allocated_ips : gset IpAddr;
  total_allocated : Z;
  last_allocation : option Z
}.

Definition pool_state_new (c : IpPoolConfig) : IpPoolState := mkIpPoolState c ∅ 0 None.

Definition is_available (s : IpPoolState) (a : IpAddr) : bool :=
  negb (bool_decide (a ∈ allocated_ips s))
  && negb (bool_decide (a ∈ reserved_ips (config s)))
  && net_contains (subnet (config s)) a
  && negb (bool_decide (a = gateway (config s))).

Definition next_available_ip (s : IpPoolState) : BlixardResult (option IpAddr) :=
  search_range (is_available s) (config s).

Definition state_utilization_percent (s : IpPoolState) : BlixardResult f64 :=
  let? total := total_capacity (config s) in
  if total =? 0 then Ok f64_100
  else Ok (f64_mul (f64_div (f64_of_Z (Z.of_nat (size (allocated_ips s)))) (f64_of_Z total))
                   f64_100).

Definition state_has_capacity (s : IpPoolState) : BlixardResult bool :=
  if enabled (config s)
  then omap_ok (fun o => match o with Some _ => true | None => false end) (next_available_ip s)
  else Ok false.

(** * Pool state with a resource pool *)

Record EnhancedIpPoolState : Type := mkEnhanced {
  e_state : IpPoolState;
  e_pool : option (ResourcePool IpAddress);
  e_factory_config : IpPoolConfig;
  e_shared : gset IpAddr
}.

Definition ip_pool_config (capacity : Z) : PoolConfig := mkPoolConfig capacity 0 30 true false.

Definition from_existing_state (s : IpPoolState) : BlixardResult EnhancedIpPoolState :=
  let? capacity := total_capacity (config s) in
  let? p := pool_new (ip_pool_config capacity) in
  let '(o, (p', (_, shared))) := initialize (p, (config s, allocated_ips s)) in
  let? _ := o in
  Ok (mkEnhanced s (Some p') (config s) shared).

Definition enhanced_new (c : IpPoolConfig) : BlixardResult EnhancedIpPoolState :=
  from_existing_state (pool_state_new c).

(** [allocate_ip]; [now] is the clock. *)
Definition allocate_ip (now : Z) : st EnhancedIpPoolState BlixardError IpAddress :=
  let* e := sget in
  let* p := slift (ok_or (Internal "Resource pool not initialized") (e_pool e)) in
  let '(acquired, (p', (fc, shared))) := acquire (p, (e_factory_config e, e_shared e)) in
  sput (mkEnhanced (e_state e) (Some p') fc shared) ;*
  let* r := slift acquired in
  let s := e_state e in
  sput (mkEnhanced (mkIpPoolState (config s) ({[ip r]} ∪ allocated_ips s)
                      (total_allocated s) (last_allocation s)) (Some p') fc shared) ;*
  let* n := slift (arith_u 64 (total_allocated s + 1)) in
  sput (mkEnhanced (mkIpPoolState (config s) ({[ip r]} ∪ allocated_ips s) n (Some now))
          (Some p') fc shared) ;*
  sret r.

Definition release_ip (a : IpAddr) : st EnhancedIpPoolState BlixardError unit :=
  smodify (fun e =>
    let s := e_state e in
    let n := if bool_decide (a ∈ allocated_ips s) then sat_sub (total_allocated s) 1
             else total_allocated s in
    mkEnhanced (mkIpPoolState (config s) (allocated_ips s ∖ {[a]}) n (last_allocation s))
      (e_pool e) (e_factory_config e) (e_shared e ∖ {[a]})).

Definition has_capacity (e : EnhancedIpPoolState) : BlixardResult bool :=
  if enabled (config (e_state e)) then
    match e_pool e with
    | Some p => Ok (stats_in_use (stats p) <? stats_max_size (stats p))
    | None => state_has_capacity (e_state e)
    end
  else Ok false.

Definition utilization_percent (e : EnhancedIpPoolState) : BlixardResult f64 :=
  match e_pool e with
  | Some p =>
      let s := stats p in
      if stats_max_size s =? 0 then Ok f64_100
      else Ok (f64_mul (f64_div (f64_of_Z (stats_in_use s)) (f64_of_Z (stats_max_size s))) f64_100)
  | None => state_utilization_percent (e_state e)
  end.

Definition get_pool_stats (e : EnhancedIpPoolState) : option PoolStats :=
  stats <$> e_pool e.

Definition sync_state (e : EnhancedIpPoolState) : EnhancedIpPoolState :=
  match e_pool e with
  | Some _ =>
      let s := e_state e in
      mkEnhanced (mkIpPoolState (config s) (e_shared e) (Z.of_nat (size (e_shared e)))
                    (last_allocation s)) (e_pool e) (e_factory_config e) (e_shared e)
  | None => e
  end.

(** * Requests and records *)

Record IpAllocation : Type := mkIpAllocation {
  alloc_ip : IpAddr;
  alloc_pool_id : IpPoolId;
  alloc_vm_id : VmId;
  alloc_mac_address : string;
  allocated_at : Z;
  expires_at : option Z
}.

Inductive IpPoolCommand : Type :=
| CreatePool (config : IpPoolConfig)
| UpdatePool (config : IpPoolConfig)
| DeletePool (pool_id : IpPoolId)
| SetPoolEnabled (pool_id : IpPoolId) (enabled : bool)
| ReserveIps (pool_id : IpPoolId) (ips : gset IpAddr)
| ReleaseReservedIps (pool_id : IpPoolId) (ips : gset IpAddr).

Inductive IpPoolSelectionStrategy : Type :=
| LeastUtilized | MostUtilized | RoundRobin | TopologyAware | Random.

Record IpAllocationRequest : Type := mkIpRequest {
  req_vm_id : VmId;
  req_preferred_pool : option IpPoolId;
  req_required_tags : gmap string string;
  req_topology_hint : option string;
  req_selection_strategy : IpPoolSelectionStrategy;
  req_mac_address : string
}.

Record NetworkConfig : Type := mkNetworkConfig {
  nc_ip_address : IpAddr;
  nc_subnet : IpNet;
  nc_gateway : IpAddr;
  nc_dns_servers : list IpAddr;
  nc_vlan_id : option Z;
  nc_mac_address : string
}.

Record IpAllocationResult : Type := mkIpResult {
  allocation : IpAllocation;
  network_config : NetworkConfig
}.

(** * Specifications *)

(** What [validate] accepts. *)
Definition config_wf (c : IpPoolConfig) : Prop :=
  net_contains (subnet c) (gateway c) = true /\
  net_contains (subnet c) (allocation_start c) = true /\
  net_contains (subnet c) (allocation_end c) = true /\
  (match allocation_start c, allocation_end c with
   | V4 s, V4 e | V6 s, V6 e => s <= e
   | _, _ => False
   end) /\
  (forall a, a ∈ reserved_ips c -> net_contains (subnet c) a = true) /\
  (forall vlan, vlan_id c = Some vlan -> vlan <> 0 /\ vlan <= 4094).

(** [a] is one of the addresses the search of [c] looks at: the whole range for
    IPv4, its first [MAX_ITERATIONS] addresses for IPv6. *)
Definition searched (c : IpPoolConfig) (a : IpAddr) : Prop :=
  match allocation_start c, allocation_end c, a with
  | V4 s, V4 e, V4 x => s <= x <= e
  | V6 s, V6 e, V6 x => s <= x <= e /\ x < s + MAX_ITERATIONS
  | _, _, _ => False
  end.

(** [a] comes before [b]. *)
Definition ip_below (a b : IpAddr) : Prop :=
  match a, b with V4 x, V4 y | V6 x, V6 y => x < y | _, _ => False end.

(** The range of [c] has machine-width ends that are in order. *)
Definition range_ok (c : IpPoolConfig) : Prop :=
  match allocation_start c, allocation_end c with
  | V4 s, V4 e => 0 <= s <= e /\ e < 2 ^ 32
  | V6 s, V6 e => 0 <= s <= e /\ e < 2 ^ 128 /\ e - s + 1 < 2 ^ 128
  | _, _ => False
  end.

(** The permits a pool has left: how many addresses it can still give out. *)
Definition pool_permits (e : EnhancedIpPoolState) : Z :=
  match e_pool e with Some p => permits p | None => 0 end.

(** The invariant of a pool state: its resource pool never holds an idle
    address, the permits left and the addresses created add up to the capacity
    the pool was created with, and the two sets of allocated addresses and the
    counter agree. *)
Definition enhanced_inv (e : EnhancedIpPoolState) : Prop :=
  exists p capacity,
    e_pool e = Some p /\ pool_config p = ip_pool_config capacity /\
    capacity <= MAX_PERMITS /\ available p = [] /\
    0 <= permits p /\ 0 <= total_created p /\
    permits p + total_created p = capacity /\
    e_shared e = allocated_ips (e_state e) /\
    total_allocated (e_state e) = Z.of_nat (size (allocated_ips (e_state e))) /\
    Z.of_nat (size (allocated_ips (e_state e))) + permits p < 2 ^ 64.

(** What an allocation does to the pool state. *)
Definition with_allocated (now : Z) (a : IpAddr) (e : EnhancedIpPoolState) : EnhancedIpPoolState :=
  let s := e_state e in
  mkEnhanced
    (mkIpPoolState (config s) ({[a]} ∪ allocated_ips s) (total_allocated s + 1) (Some now))
    ((fun p => mkPool [] (permits p - 1) (pool_config p) (total_created p + 1)) <$> e_pool e)
    (e_factory_config e) ({[a]} ∪ e_shared e).

(** The operations on one pool, and a run of them that counts the addresses
    given out. *)
Inductive ip_op : Type := OpAllocate (now : Z) | OpRelease (a : IpAddr) | OpSync.

Fixpoint run_ops (ops : list ip_op) (e : EnhancedIpPoolState) : Z * EnhancedIpPoolState :=
  match ops with
  | [] => (0, e)
  | OpAllocate now :: ops' =>
      let '(o, e1) := allocate_ip now e in
      let '(n, e2) := run_ops ops' e1 in
      (if is_ok o then n + 1 else n, e2)
  | OpRelease a :: ops' => run_ops ops' (snd (release_ip a e))
  | OpSync :: ops' => run_ops ops' (sync_state e)
  end.

(** The outcome of a search for a free address. *)
Definition search_result (free : IpAddr -> bool) (c : IpPoolConfig) (o : option IpAddr) : Prop :=
  match o with
  | Some a => searched c a /\ free a = true /\
              forall b, searched c b -> ip_below b a -> free b = false
  | None => forall b, searched c b -> free b = false
  end.

(** * Lemmas *)

Lemma search4_spec free n i :
  match search4 free n i with
  | Some a => exists x, a = V4 x /\ i <= x < i + Z.of_nat n /\ free (V4 x) = true /\
                forall y, i <= y < x -> free (V4 y) = false
  | None => forall y, i <= y < i + Z.of_nat n -> free (V4 y) = false
  end.
Proof.
  revert i. induction n as [|n IH]; intros i; simpl; [lia|].
  destruct (free (V4 i)) eqn:E.
  - exists i. split_and!; (done || lia).
  - specialize (IH (i + 1)). destruct (search4 free n (i + 1)) as [a|].
    + destruct IH as (x & -> & Hx & Hf & Hlow). exists x. split_and!; try (done || lia).
      intros y Hy. destruct (decide (y = i)) as [->|]; [done|apply Hlow; lia].
    + intros y Hy. destruct (decide (y = i)) as [->|]; [done|apply IH; lia].
Qed.

Lemma search6_spec free s n i :
  0 <= s -> 0 <= i -> s + i + Z.of_nat n <= 2 ^ 128 ->
  match search6 free s n i with
  | Ok (Some a) => exists x, a = V6 x /\ s + i <= x < s + i + Z.of_nat n /\
                free (V6 x) = true /\ forall y, s + i <= y < x -> free (V6 y) = false
  | Ok None => forall y, s + i <= y < s + i + Z.of_nat n -> free (V6 y) = false
  | _ => False
  end.
Proof.
  intros Hs. revert i. induction n as [|n IH]; intros i Hi Hb; [simpl; lia|].
  cbn [search6]. rewrite arith_u_fits by (unfold fits_u; lia). cbn [obind].
  destruct (free (V6 (s + i))) eqn:E.
  - exists (s + i). split_and!; (done || lia).
  - specialize (IH (i + 1) ltac:(lia) ltac:(lia)).
    destruct (search6 free s n (i + 1)) as [[a|]| |]; try done.
    + destruct IH as (x & -> & Hx & Hf & Hlow). exists x. split_and!; try (done || lia).
      intros y Hy. destruct (decide (y = s + i)) as [->|]; [done|apply Hlow; lia].
    + intros y Hy. destruct (decide (y = s + i)) as [->|]; [done|apply IH; lia].
Qed.

Lemma search_range_spec free c :
  range_ok c -> exists o, search_range free c = Ok o /\ search_result free c o.
Proof.
  unfold range_ok, search_range, search_result, searched.
  destruct (allocation_start c) as [s|s], (allocation_end c) as [e|e]; try done; intros Hr.
  - eexists; split; [done|]. pose proof (search4_spec free (Z.to_nat (e - s + 1)) s) as Hs.
    rewrite Z2Nat.id in Hs by lia. destruct (search4 _ _ _) as [a|].
    + destruct Hs as (x & -> & Hx & Hf & Hlow). split_and!; [lia|lia|done|].
      intros [y|y] Hy Hlt; [|done]. apply Hlow. simpl in Hlt. lia.
    + intros [y|y] Hy; [|done]. apply Hs. lia.
  - rewrite arith_u_fits by (unfold fits_u; lia). cbn [obind].
    rewrite arith_u_fits by (unfold fits_u; lia). cbn [obind].
    pose proof (search6_spec free s (Z.to_nat (Z.min MAX_ITERATIONS (e - s + 1))) 0) as Hs.
    assert (HM : 0 < MAX_ITERATIONS) by done.
    rewrite Z2Nat.id in Hs by lia. specialize (Hs ltac:(lia) ltac:(lia) ltac:(lia)).
    destruct (search6 _ _ _ _) as [[a|]| |]; try done; eexists; (split; [done|]).
    + destruct Hs as (x & -> & Hx & Hf & Hlow). split_and!; [lia|lia|lia|done|].
      intros [y|y] Hy Hlt; [done|]. apply Hlow. simpl in Hlt. lia.
    + intros [y|y] Hy; [done|]. apply Hs. lia.
Qed.

Lemma is_ip_available_spec c allocated a :
  is_ip_available c allocated a = true <->
  a ∉ allocated /\ a ∉ reserved_ips c /\ net_contains (subnet c) a = true /\ a <> gateway c.
Proof.
  unfold is_ip_available. rewrite !andb_true_iff, !negb_true_iff, !bool_decide_eq_false. tauto.
Qed.

(** An acquisition from a pool without idle addresses creates one. *)
Lemma acquire_creates p capacity fc shared :
  pool_config p = ip_pool_config capacity -> available p = [] ->
  0 < permits p -> 0 <= total_created p < 2 ^ 64 - 1 ->
  acquire (p, (fc, shared)) =
    match find_next_available_ip fc shared with
    | Ok (Some a) => (Ok (mkIpAddress a (id fc) true),
        (mkPool [] (permits p - 1) (pool_config p) (total_created p + 1), (fc, {[a]} ∪ shared)))
    | Ok None => (Err (ResourceExhausted ("IP addresses in pool " +:+ show_pool_id (id fc))),
        (p, (fc, shared)))
    | Err x => (Err x, (p, (fc, shared)))
    | Panic => (Panic, (p, (fc, shared)))
    end.
Proof.
  intros Hc Ha Hp Ht. unfold acquire, acquire_with_timeout, with_permit, acquire_body, pop_front,
    bump_total, on_factory, on_pool, factory_create. unfold_st.
  destruct p as [av pe cf tc]. simpl in *. subst. simpl.
  destruct (Z.leb_spec pe 0); [lia|]. unfold factory_create. unfold_st.
  destruct (find_next_available_ip fc shared) as [[a|]|x|] eqn:Ef; simpl; rewrite ?Ef; simpl;
    try (unfold set_permits; simpl; replace (pe - 1 + 1) with pe by lia; done).
  rewrite arith_u_fits by (unfold fits_u; lia). done.
Qed.

Lemma acquire_exhausted p (fs : IpAddressFactory) :
  permits p <= 0 ->
  acquire (p, fs) =
    (Err (Timeout "acquire resource from pool" (acquire_timeout (pool_config p))), (p, fs)).
Proof.
  intros Hp. unfold acquire, acquire_with_timeout. unfold_st. simpl.
  destruct (Z.leb_spec (permits p) 0); [done|lia].
Qed.

Lemma allocate_ip_eq now e :
  enhanced_inv e ->
  allocate_ip now e =
    if pool_permits e <=? 0
    then (Err (Timeout "acquire resource from pool" 30), e)
    else match find_next_available_ip (e_factory_config e) (e_shared e) with
         | Ok (Some a) =>
             (Ok (mkIpAddress a (id (e_factory_config e)) true), with_allocated now a e)
         | Ok None =>
             (Err (ResourceExhausted
                ("IP addresses in pool " +:+ show_pool_id (id (e_factory_config e)))), e)
         | Err x => (Err x, e)
         | Panic => (Panic, e)
         end.
Proof.
  intros (p & capacity & Hp & Hc & Hm & Ha & Hpe & Ht & Hsum & Hsh & Hn & Hlt).
  destruct e as [s o fc sh]; simpl in *. subst o.
  unfold allocate_ip, pool_permits, with_allocated. unfold_st. simpl.
  destruct (Z.leb_spec (permits p) 0) as [Hle|Hgt].
  - rewrite acquire_exhausted by done. by rewrite Hc.
  - rewrite (acquire_creates p capacity) by (unfold MAX_PERMITS in *; done || lia).
    destruct (find_next_available_ip fc sh) as [[a|]|x|]; try done.
    rewrite arith_u_fits by (unfold fits_u; lia). done.
Qed.

Lemma with_allocated_inv now a e :
  enhanced_inv e -> 0 < pool_permits e -> a ∉ e_shared e -> enhanced_inv (with_allocated now a e).
Proof.
  intros (p & capacity & Hp & Hc & Hm & Ha & Hpe & Ht & Hsum & Hsh & Hn & Hlt) Hpos Hfresh.
  unfold pool_permits in Hpos. rewrite Hp in Hpos.
  assert (Hsz : Z.of_nat (size ({[a]} ∪ allocated_ips (e_state e))) =
    Z.of_nat (size (allocated_ips (e_state e))) + 1).
  { rewrite <- Hsh, size_union, size_singleton; [lia|set_solver]. }
  eexists _, capacity. unfold with_allocated. rewrite Hp. simpl. rewrite Hsz, Hsh.
  split_and!; (done || simpl; lia).
Qed.

Lemma release_ip_inv a e : enhanced_inv e -> enhanced_inv (snd (release_ip a e)).
Proof.
  intros (p & capacity & Hp & Hc & Hm & Ha & Hpe & Ht & Hsum & Hsh & Hn & Hlt).
  exists p, capacity. unfold release_ip, smodify; simpl.
  set (l := allocated_ips (e_state e)) in *.
  assert (Hsz : Z.of_nat (size (l ∖ {[a]})) =
    if bool_decide (a ∈ l) then Z.of_nat (size l) - 1 else Z.of_nat (size l)).
  { case_bool_decide as Hin.
    - rewrite size_difference by set_solver. rewrite size_singleton.
      assert (size l <> 0)%nat by (rewrite size_non_empty_iff; set_solver). lia.
    - by replace (l ∖ {[a]}) with l by set_solver. }
  rewrite Hsz, Hn, Hsh. unfold sat_sub. split_and!; try done; case_bool_decide; lia.
Qed.

Lemma sync_state_inv e : enhanced_inv e -> enhanced_inv (sync_state e) /\ sync_state e = e.
Proof.
  intros Hi. assert (sync_state e = e) as ->; [|done].
  destruct Hi as (p & capacity & Hp & _ & _ & _ & _ & _ & _ & Hsh & Hn & _).
  destruct e as [[c l n la] o fc sh]. unfold sync_state; simpl in *. by subst.
Qed.

(** A fresh pool state satisfies the invariant and has its capacity as permits. *)
Lemma from_existing_inv s e :
  total_allocated s = Z.of_nat (size (allocated_ips s)) ->
  Z.of_nat (size (allocated_ips s)) < 2 ^ 63 ->
  from_existing_state s = Ok e ->
  enhanced_inv e /\ e_state e = s /\ e_factory_config e = config s /\
  total_capacity (config s) = Ok (pool_permits e).
Proof.
  intros Hn Hlt. unfold from_existing_state.
  destruct (total_capacity (config s)) as [capacity|x|] eqn:Hcap; try done.
  unfold pool_new. simpl. destruct (Z.ltb_spec MAX_PERMITS capacity); [done|].
  unfold initialize, on_pool. unfold_st. simpl.
  assert (0 <= capacity).
  { unfold total_capacity in Hcap. repeat case_match; simplify_eq; try done;
      repeat (apply obind_ok in Hcap as (? & ? & Hcap)); apply arith_u_range in Hcap; lia. }
  intros [= <-]. simpl. split_and!; try done.
  eexists _, capacity. simpl. unfold MAX_PERMITS in *. split_and!; (done || simpl; lia).
Qed.

Lemma release_ip_permits a e : pool_permits (snd (release_ip a e)) = pool_permits e.
Proof. done. Qed.

(** What an allocation does, on every branch. *)
Definition allocation_result (now : Z) (e : EnhancedIpPoolState)
    (o : BlixardResult IpAddress) (e' : EnhancedIpPoolState) : Prop :=
  let fc := e_factory_config e in
  let allocated := allocated_ips (e_state e) in
  match o with
  | Ok r =>
      ip r ∉ allocated /\ searched fc (ip r) /\ ip r ∉ reserved_ips fc /\
      ip r <> gateway fc /\ net_contains (subnet fc) (ip r) = true /\
      (forall b, searched fc b -> ip_below b (ip r) -> is_ip_available fc allocated b = false) /\
      e' = with_allocated now (ip r) e
  | Err _ =>
      e' = e /\
      (pool_permits e = 0 \/ forall b, searched fc b -> is_ip_available fc allocated b = false)
  | Panic => False
  end.

Lemma allocate_ip_result now e :
  enhanced_inv e -> range_ok (e_factory_config e) ->
  exists o e', allocate_ip now e = (o, e') /\ allocation_result now e o e' /\
    pool_permits e' = pool_permits e - (if is_ok o then 1 else 0) /\
    enhanced_inv e' /\ e_factory_config e' = e_factory_config e.
Proof.
  intros Hi Hr. rewrite allocate_ip_eq by done.
  assert (Hsh : e_shared e = allocated_ips (e_state e)) by (destruct Hi as (?&?&?); tauto).
  assert (Hpos : 0 <= pool_permits e).
  { destruct Hi as (p & ? & Hp & ?). unfold pool_permits. rewrite Hp. tauto. }
  unfold allocation_result. rewrite <- Hsh.
  destruct (Z.leb_spec (pool_permits e) 0) as [Hle|Hgt].
  { eexists _, _. split; [done|]. simpl. split_and!; try done; [left; lia|lia]. }
  unfold find_next_available_ip.
  destruct (search_range_spec (is_ip_available (e_factory_config e) (e_shared e)) _ Hr)
    as ([a|] & -> & Hres); simpl in Hres; eexists _, _; (split; [done|]); simpl.
  - destruct Hres as (Hin & Hav & Hlow). pose proof Hav as Hav'.
    apply is_ip_available_spec in Hav as (? & ? & ? & ?). split_and!; try done.
    + destruct Hi as (p & ? & Hp & ?). unfold pool_permits, with_allocated. by rewrite Hp.
    + by apply with_allocated_inv.
  - split_and!; try done; [by right|lia].
Qed.

Lemma run_ops_permits ops e n e' :
  enhanced_inv e -> range_ok (e_factory_config e) -> run_ops ops e = (n, e') ->
  0 <= n /\ n + pool_permits e' = pool_permits e /\ enhanced_inv e'.
Proof.
  revert e n e'. induction ops as [|[now|a|] ops IH]; intros e n e' Hi Hr Hrun; simpl in Hrun.
  - simplify_eq. split_and!; (done || lia).
  - destruct (allocate_ip_result now e Hi Hr) as (o & e1 & Ho & _ & Hp & Hi1 & Hf1).
    rewrite Ho in Hrun. destruct (run_ops ops e1) as [n2 e2] eqn:E2.
    apply IH in E2 as (? & ? & ?); [|done|by rewrite Hf1].
    destruct (is_ok o); simplify_eq; split_and!; (done || lia).
  - apply IH in Hrun as (? & ? & ?); [done|by apply release_ip_inv|done].
  - destruct (sync_state_inv e Hi) as [_ He]. rewrite He in Hrun. by apply IH in Hrun.
Qed.

Lemma guard_ok (b : bool) component (k : BlixardResult unit) :
  (if negb b then Err (ConfigurationError component) else k) = Ok tt <-> b = true /\ k = Ok tt.
Proof. destruct b; simpl; naive_solver. Qed.

Lemma obind_unit_ok (m k : BlixardResult unit) :
  obind m (fun _ => k) = Ok tt <-> m = Ok tt /\ k = Ok tt.
Proof. destruct m as [[]| |]; simpl; naive_solver. Qed.

Lemma validate_range_ok c :
  validate_range c = Ok tt <->
  match allocation_start c, allocation_end c with
  | V4 s, V4 e | V6 s, V6 e => s <= e
  | _, _ => False
  end.
Proof.
  unfold validate_range, config_error.
  destruct (allocation_start c) as [s|s], (allocation_end c) as [e|e]; try done;
    destruct (Z.ltb_spec e s); split; (done || lia).
Qed.

Lemma validate_vlan_ok c :
  validate_vlan c = Ok tt <-> forall vlan, vlan_id c = Some vlan -> vlan <> 0 /\ vlan <= 4094.
Proof.
  unfold validate_vlan, config_error. destruct (vlan_id c) as [v|]; [|naive_solver].
  destruct (Z.eqb_spec v 0), (Z.ltb_spec 4094 v); simpl; split; try done;
    intros Hv; try (intros ? [= <-]; lia); specialize (Hv v eq_refl); lia.
Qed.

Lemma reserved_ok c component :
  (if forallb (net_contains (subnet c)) (elements (reserved_ips c)) then Ok tt
   else Err (ConfigurationError component)) = Ok tt <->
  forall a, a ∈ reserved_ips c -> net_contains (subnet c) a = true.
Proof.
  transitivity (forallb (net_contains (subnet c)) (elements (reserved_ips c)) = true).
  { destruct (forallb _ _); naive_solver. }
  rewrite forallb_forall. setoid_rewrite <- list_elem_of_In. by setoid_rewrite elem_of_elements.
Qed.

(** * Properties *)

(** [validate] accepts exactly the well-formed configurations: gateway and
    both ends of the range inside the subnet, one address family, an ordered
    range, every reserved address inside the subnet, and a VLAN id between 1
    and 4094 when there is one. *)
Theorem validate_ok_iff c : validate c = Ok tt <-> config_wf c.
Proof.
  unfold validate, config_wf, config_error. rewrite !guard_ok, !obind_unit_ok, validate_range_ok,
    validate_vlan_ok, reserved_ok. tauto.
Qed.

(** [next_available_ip] returns the lowest free address among the addresses
    it looks at (the whole range for IPv4, its first 10000 addresses for IPv6),
    and [None] exactly when none of them is free; free means not allocated, not
    reserved, inside the subnet and not the gateway. *)
Theorem next_available_ip_lowest s :
  range_ok (config s) ->
  exists o, next_available_ip s = Ok o /\ search_result (is_available s) (config s) o.
Proof. apply search_range_spec. Qed.

(** An allocation from a pool state that satisfies the invariant either
    returns a fresh address (the lowest free one of the range of the factory's
    configuration, not reserved there and not the gateway), records it in both
    allocated sets and spends one permit, or fails and changes nothing, and
    then the permits are spent or the factory's range has no free address. It
    never panics, and the invariant holds afterwards. *)
Theorem allocate_ip_correct now e :
  enhanced_inv e -> range_ok (e_factory_config e) ->
  exists o e', allocate_ip now e = (o, e') /\ enhanced_inv e' /\ allocation_result now e o e'.
Proof.
  intros Hi Hr. destruct (allocate_ip_result now e Hi Hr) as (o & e' & ? & ? & _ & ? & _).
  by exists o, e'.
Qed.

(** Released addresses do not restore capacity. In every run of
    allocations, releases and synchronisations of a pool state, the addresses
    given out and the permits left add up to the capacity the pool was created
    with; after that many allocations every further one fails and
    [has_capacity] is false, whatever was released in between. *)
Theorem pool_lifetime_capacity c e ops n e' :
  range_ok c -> enhanced_new c = Ok e -> run_ops ops e = (n, e') ->
  exists capacity, total_capacity c = Ok capacity /\ n <= capacity /\
    (n = capacity -> has_capacity e' = Ok false /\
       forall now, allocate_ip now e' = (Err (Timeout "acquire resource from pool" 30), e')).
Proof.
  intros Hr Hnew Hrun. apply from_existing_inv in Hnew as (Hi & Hs & Hf & Hcap); [|done|done].
  simpl in *. exists (pool_permits e). split; [done|].
  apply run_ops_permits in Hrun as (Hn & Hsum & Hi'); [|done|by rewrite Hf].
  pose proof Hi' as (p & cap & Hp & Hc & _ & Ha & Hpe & Ht & Hcons & _).
  assert (Hpp : pool_permits e' = permits p) by (unfold pool_permits; by rewrite Hp).
  split; [lia|]. intros ->. split.
  - unfold has_capacity. rewrite Hp. unfold stats, sat_sub. rewrite Ha, Hc. simpl.
    case_match; [|done]. do 2 f_equal. apply Z.ltb_ge. lia.
  - intros now. rewrite allocate_ip_eq by done. case_match; [done|]. bools. lia.
Qed.
End Config.

(** * A concrete pool *)

(** IPv4 networks as a base address and a prefix length. *)
Definition prefix_nets : IpNetLib := {|
  IpNet := Z * Z;
  net_contains := fun '(base, len) a =>
    match a with
    | V4 x => x / 2 ^ (32 - len) =? base / 2 ^ (32 - len)
    | V6 _ => false
    end
|}.

(** 10.0.0.[n]. *)
Definition ten (n : Z) : IpAddr := V4 (10 * 2 ^ 24 + n).

(** The pool of the unit tests, 10.0.0.[lo] to 10.0.0.[hi] in 10.0.0.0/24. *)
Definition test_pool (lo hi : Z) : IpPoolConfig (H0:=prefix_nets) :=
  mkIpPoolConfig (H0:=prefix_nets) 1 "test-pool" (10 * 2 ^ 24, 24) (Some 100) (ten 1) []
    (ten lo) (ten hi) None ∅ true ∅.

(** The result of [enhanced_new] on a pool of two addresses. *)
Definition test_state : EnhancedIpPoolState (H0:=prefix_nets) :=
  mkEnhanced (H0:=prefix_nets) (pool_state_new (test_pool 10 11))
    (Some (mkPool [] 2 (ip_pool_config 2) 0)) (test_pool 10 11) ∅.

Lemma test_state_inv : enhanced_inv test_state.
Proof.
  exists (mkPool [] 2 (ip_pool_config 2) 0), 2.
  split_and!; by vm_compute.
Qed.

Lemma test_pool_range lo hi : 0 <= lo <= hi -> hi < 256 -> range_ok (test_pool lo hi).
Proof. intros. unfold range_ok, test_pool, ten. simpl. lia. Qed.

Lemma next_available_ip_lowest_witness :
  exists o, next_available_ip (H:=true) (pool_state_new (test_pool 10 20)) = Ok o /\
    search_result (is_available (pool_state_new (test_pool 10 20))) (test_pool 10 20) o.
Proof. apply (next_available_ip_lowest (pool_state_new (test_pool 10 20))); by apply test_pool_range. Defined.

Lemma allocate_ip_correct_witness :
  exists o e', allocate_ip (H:=true) 7 test_state = (o, e') /\ enhanced_inv e' /\
    allocation_result 7 test_state o e'.
Proof.
  apply (allocate_ip_correct (H:=true) 7 test_state); [apply test_state_inv|by apply test_pool_range].
Defined.

(** Two allocations and two releases exhaust a pool of two addresses. *)
Definition demo_ops : list ip_op :=
  [OpAllocate 1; OpRelease (ten 10); OpAllocate 2; OpRelease (ten 10)].

Lemma demo_ops_run :
  let '(n, e') := run_ops (H:=true) demo_ops test_state in
  bool_decide (allocated_ips (e_state e') = ∅) = true /\ n = 2.
Proof. vm_compute. split; reflexivity. Qed.

Lemma pool_lifetime_capacity_witness :
  let '(n, e') := run_ops (H:=true) demo_ops test_state in
  allocated_ips (e_state e') = ∅ /\ n = 2 /\
  exists capacity, total_capacity (H:=true) (test_pool 10 11) = Ok capacity /\ n <= capacity /\
    (n = capacity -> has_capacity (H:=true) e' = Ok false /\
       forall now, allocate_ip (H:=true) now e' =
         (Err (Timeout "acquire resource from pool" 30), e')).
Proof.
  pose proof demo_ops_run as Hrun. destruct (run_ops demo_ops test_state) as [n e'] eqn:E.
  destruct Hrun as [Hnone Hn]. split; [by apply bool_decide_eq_true in Hnone|]. split; [exact Hn|].
  apply (pool_lifetime_capacity (H:=true) (test_pool 10 11) test_state demo_ops n e');
    [by apply test_pool_range|reflexivity|exact E].
Defined.
