(* ===== verification/ResourceManagement.v ===== *)
(** Resource reservation and overcommit (blixard-core/src/resource_management.rs):
    what a node has, what is allocated and reserved on it, and the cluster's
    nodes.  CPU cores are [u32]; memory and disk are [u64]. *)

From Stdlib Require Import ZArith Lia List.
From stdpp Require Import base tactics numbers gmap strings option.
From stdpp Require Import list relations.
From S2P Require Import Prelude Float64 Errors.

Open Scope Z_scope.

(** * Data *)

Record OvercommitPolicy : Type := mkPolicy {
  cpu_overcommit_ratio : f64;
  memory_overcommit_ratio : f64;
  disk_overcommit_ratio : f64;
  enforce_hard_limits : bool;
  system_reserve_percentage : f64
}.

Definition default_policy : OvercommitPolicy := mkPolicy f64_1 f64_1 f64_1 true (f64_lit 1 10).
Definition policy_conservative : OvercommitPolicy := default_policy.
Definition policy_moderate : OvercommitPolicy :=
  mkPolicy (f64_of_Z 2) (f64_lit 12 10) (f64_lit 11 10) true (f64_lit 15 100).
Definition policy_aggressive : OvercommitPolicy :=
  mkPolicy (f64_of_Z 4) (f64_lit 15 10) (f64_lit 13 10) false (f64_lit 5 100).

Record ResourceReservation : Type := mkReservation {
  reservation_id : string;
  reservation_owner : string;
  reserved_cpu : Z;
  reserved_memory : Z;
  reserved_disk : Z;
  reservation_priority : Z;
  reservation_hard : bool;
  reservation_expires : option Z
}.

(** [PhysicalResources] and [AllocatedResources] have the same fields. *)
Record Resources : Type := mkResources { r_cpu : Z; r_memory : Z; r_disk : Z }.

Definition no_resources : Resources := mkResources 0 0 0.

Record NodeResourceState : Type := mkNodeState {
  physical_resources : Resources;
  allocated_resources : Resources;
  reservations : gmap string ResourceReservation;
  overcommit_policy : OvercommitPolicy
}.

Definition set_allocated (a : Resources) (s : NodeResourceState) : NodeResourceState :=
  mkNodeState (physical_resources s) a (reservations s) (overcommit_policy s).
Definition set_reservations (r : gmap string ResourceReservation) (s : NodeResourceState)
    : NodeResourceState :=
  mkNodeState (physical_resources s) (allocated_resources s) r (overcommit_policy s).

(** * A node *)

Definition node_state_new (cpu_cores memory_mb disk_gb : Z) (policy : OvercommitPolicy)
    : NodeResourceState :=
  mkNodeState (mkResources cpu_cores memory_mb disk_gb) no_resources ∅ policy.

Definition effective_capacity (s : NodeResourceState) : Resources :=
  let policy := overcommit_policy s in
  let physical := physical_resources s in
  let reserve_factor := f64_sub f64_1 (system_reserve_percentage policy) in
  let scaled n ratio := f64_mul (f64_mul (f64_of_Z n) ratio) reserve_factor in
  mkResources
    (f64_as_u 32 (scaled (r_cpu physical) (cpu_overcommit_ratio policy)))
    (f64_as_u 64 (scaled (r_memory physical) (memory_overcommit_ratio policy)))
    (f64_as_u 64 (scaled (r_disk physical) (disk_overcommit_ratio policy))).

Definition available_resources (s : NodeResourceState) : Resources :=
  let e := effective_capacity s in
  let a := allocated_resources s in
  mkResources (sat_sub (r_cpu e) (r_cpu a)) (sat_sub (r_memory e) (r_memory a))
    (sat_sub (r_disk e) (r_disk a)).

Definition can_allocate (s : NodeResourceState) (cpu memory disk : Z) : bool :=
  let a := available_resources s in
  (cpu <=? r_cpu a) && (memory <=? r_memory a) && (disk <=? r_disk a).

Section Node.
Context `{Profile} `{HashIter}.

Definition node_op (A : Type) : Type := st NodeResourceState BlixardError A.

Definition allocate (cpu memory disk : Z) : node_op unit :=
  let* s := sget in
  if negb (can_allocate s cpu memory disk) then sfail InsufficientResources
  else
    let a := allocated_resources s in
    let* c := slift (arith_u 32 (r_cpu a + cpu)) in
    sput (set_allocated (mkResources c (r_memory a) (r_disk a)) s) ;*
    let* m := slift (arith_u 64 (r_memory a + memory)) in
    sput (set_allocated (mkResources c m (r_disk a)) s) ;*
    let* d := slift (arith_u 64 (r_disk a + disk)) in
    sput (set_allocated (mkResources c m d) s).

Definition release (cpu memory disk : Z) (s : NodeResourceState) : NodeResourceState :=
  let a := allocated_resources s in
  set_allocated (mkResources (sat_sub (r_cpu a) cpu) (sat_sub (r_memory a) memory)
    (sat_sub (r_disk a) disk)) s.

Definition add_reservation (r : ResourceReservation) : node_op unit :=
  let* s := sget in
  if reservation_hard r
     && negb (can_allocate s (reserved_cpu r) (reserved_memory r) (reserved_disk r))
  then sfail InsufficientResources
  else
    allocate (reserved_cpu r) (reserved_memory r) (reserved_disk r) ;*
    smodify (fun s => set_reservations (<[reservation_id r := r]> (reservations s)) s).

Definition remove_reservation (reservation_id : string) (s : NodeResourceState)
    : option ResourceReservation * NodeResourceState :=
  match reservations s !! reservation_id with
  | Some r =>
      (Some r, release (reserved_cpu r) (reserved_memory r) (reserved_disk r)
                 (set_reservations (delete reservation_id (reservations s)) s))
  | None => (None, s)
  end.

Definition is_expired (now : Z) (r : ResourceReservation) : bool :=
  match reservation_expires r with Some e => e <? now | None => false end.

Definition cleanup_expired_reservations (now : Z) (s : NodeResourceState) : NodeResourceState :=
  let expired_ids :=
    map fst (List.filter (fun kv => is_expired now (snd kv)) (hash_iter (reservations s))) in
  fold_left (fun s id => snd (remove_reservation id s)) expired_ids s.

Definition percentage (allocated physical : Z) : f64 :=
  if 0 <? physical
  then f64_mul (f64_div (f64_of_Z allocated) (f64_of_Z physical)) f64_100
  else f64_0.

Definition utilization_percentages (s : NodeResourceState) : f64 * f64 * f64 :=
  let p := physical_resources s in
  let a := allocated_resources s in
  (percentage (r_cpu a) (r_cpu p), percentage (r_memory a) (r_memory p), percentage (r_disk a) (r_disk p)).

Definition is_overcommitted (s : NodeResourceState) : bool :=
  let '(cpu_util, memory_util, disk_util) := utilization_percentages s in
  let policy := overcommit_policy s in
  f64_ltb (f64_mul (cpu_overcommit_ratio policy) f64_100) cpu_util
  || f64_ltb (f64_mul (memory_overcommit_ratio policy) f64_100) memory_util
  || f64_ltb (f64_mul (disk_overcommit_ratio policy) f64_100) disk_util.
End Node.

(** * The cluster *)

Record ClusterResourceManager : Type := mkCluster {
  node_states : gmap Z NodeResourceState;
  cluster_policy : OvercommitPolicy
}.

Definition cluster_new (policy : OvercommitPolicy) : ClusterResourceManager := mkCluster ∅ policy.

Definition set_node_states (m : gmap Z NodeResourceState) (c : ClusterResourceManager)
    : ClusterResourceManager := mkCluster m (cluster_policy c).

Definition register_node (node_id cpu_cores memory_mb disk_gb : Z) (c : ClusterResourceManager)
    : ClusterResourceManager :=
  set_node_states
    (<[node_id := node_state_new cpu_cores memory_mb disk_gb (cluster_policy c)]> (node_states c)) c.

Definition update_node_policy (node_id : Z) (policy : OvercommitPolicy)
    : st ClusterResourceManager BlixardError unit :=
  let* c := sget in
  match node_states c !! node_id with
  | Some s => sput (set_node_states (<[node_id := mkNodeState (physical_resources s)
      (allocated_resources s) (reservations s) policy]> (node_states c)) c)
  | None => sfail (NodeNotFound node_id)
  end.

Definition get_node_state (node_id : Z) (c : ClusterResourceManager) : option NodeResourceState :=
  node_states c !! node_id.

Record ClusterResourceSummary : Type := mkSummary {
  total_physical : Resources;
  total_allocated : Resources;
  total_reserved : Resources;
  node_count : Z
}.

Section Cluster.
Context `{Profile} `{HashIter}.

Definition find_nodes_with_capacity (cpu memory disk : Z) (c : ClusterResourceManager) : list Z :=
  map fst (List.filter (fun kv => can_allocate (snd kv) cpu memory disk) (hash_iter (node_states c))).

Definition add_resources (total r : Resources) : BlixardResult Resources :=
  let? c := arith_u 32 (r_cpu total + r_cpu r) in
  let? m := arith_u 64 (r_memory total + r_memory r) in
  let? d := arith_u 64 (r_disk total + r_disk r) in
  Ok (mkResources c m d).

Definition resources_of_reservation (r : ResourceReservation) : Resources :=
  mkResources (reserved_cpu r) (reserved_memory r) (reserved_disk r).

Definition add_node (acc : Resources * Resources * Resources) (s : NodeResourceState)
    : BlixardResult (Resources * Resources * Resources) :=
  let '(p, a, r) := acc in
  let? p' := add_resources p (physical_resources s) in
  let? a' := add_resources a (allocated_resources s) in
  let? r' := ofold (fun t kv => add_resources t (resources_of_reservation (snd kv))) r
               (hash_iter (reservations s)) in
  Ok (p', a', r').

Definition cluster_summary (c : ClusterResourceManager) : BlixardResult ClusterResourceSummary :=
  let? (p, a, r) := ofold (fun acc kv => add_node acc (snd kv)) (no_resources, no_resources, no_resources)
                      (hash_iter (node_states c)) in
  Ok (mkSummary p a r (Z.of_nat (size (node_states c)))).
End Cluster.

(** * Specifications *)

Definition le_resources (a b : Resources) : Prop :=
  r_cpu a <= r_cpu b /\ r_memory a <= r_memory b /\ r_disk a <= r_disk b.

Definition plus_resources (a b : Resources) : Resources :=
  mkResources (r_cpu a + r_cpu b) (r_memory a + r_memory b) (r_disk a + r_disk b).

(** What is allocated is within the effective capacity. *)
Definition node_ok (s : NodeResourceState) : Prop :=
  le_resources no_resources (allocated_resources s) /\
  le_resources (allocated_resources s) (effective_capacity s).

(** Unsigned amounts. *)
Definition unsigned (r : Resources) : Prop := le_resources no_resources r.

(** What happens to a node under a fixed policy. *)
Inductive node_event : Type :=
| EvAllocate (r : Resources)
| EvRelease (r : Resources)
| EvReserve (r : ResourceReservation)
| EvUnreserve (reservation_id : string)
| EvCleanup (now : Z).

Definition event_ok (e : node_event) : Prop :=
  match e with
  | EvAllocate r | EvRelease r => unsigned r
  | EvReserve r => unsigned (resources_of_reservation r)
  | EvUnreserve _ | EvCleanup _ => True
  end.

Section NodeLemmas.
Context `{Profile} `{HashIter}.

Definition run_event (e : node_event) : node_op unit :=
  match e with
  | EvAllocate r => allocate (r_cpu r) (r_memory r) (r_disk r)
  | EvRelease r => smodify (release (r_cpu r) (r_memory r) (r_disk r))
  | EvReserve r => add_reservation r
  | EvUnreserve i => smodify (fun s => snd (remove_reservation i s))
  | EvCleanup now => smodify (cleanup_expired_reservations now)
  end.

(** Reservations hold unsigned amounts. *)
Definition reservations_ok (s : NodeResourceState) : Prop :=
  map_Forall (fun _ r => unsigned (resources_of_reservation r)) (reservations s).

Definition node_step (s s' : NodeResourceState) : Prop :=
  exists e o, event_ok e /\ run_event e s = (o, s').

Lemma capacity_range s :
  0 <= r_cpu (effective_capacity s) < 2 ^ 32 /\ 0 <= r_memory (effective_capacity s) < 2 ^ 64 /\
  0 <= r_disk (effective_capacity s) < 2 ^ 64.
Proof. split_and!; apply f64_as_u_range; lia. Qed.

Lemma can_allocate_iff s c m d :
  node_ok s -> 0 <= c -> 0 <= m -> 0 <= d ->
  can_allocate s c m d = true <->
  le_resources (plus_resources (allocated_resources s) (mkResources c m d)) (effective_capacity s).
Proof.
  intros [(H1' & H2' & H3') (H4' & H5' & H6')] Hc Hm Hd. simpl in H1', H2', H3'.
  unfold can_allocate, available_resources, le_resources, sat_sub. cbn [r_cpu r_memory r_disk plus_resources].
  rewrite !andb_true_iff, !Z.leb_le. lia.
Qed.

Lemma allocate_eq s c m d :
  node_ok s -> 0 <= c -> 0 <= m -> 0 <= d ->
  allocate c m d s =
    if can_allocate s c m d
    then (Ok tt, set_allocated (plus_resources (allocated_resources s) (mkResources c m d)) s)
    else (Err InsufficientResources, s).
Proof.
  intros Hok Hc Hm Hd. unfold allocate. unfold_st. cbv beta.
  destruct (can_allocate s c m d) eqn:Ea; simpl negb; cbv iota; [|done].
  apply can_allocate_iff in Ea as (E1 & E2 & E3); try done. cbn [r_cpu r_memory r_disk plus_resources] in E1, E2, E3.
  destruct Hok as [(H1' & H2' & H3') _]. simpl in H1', H2', H3'. pose proof (capacity_range s).
  rewrite arith_u_fits by lia. rewrite arith_u_fits by lia. by rewrite arith_u_fits by lia.
Qed.

Lemma set_allocated_capacity a s : effective_capacity (set_allocated a s) = effective_capacity s.
Proof. done. Qed.

Lemma allocate_ok_inv s c m d o s' :
  node_ok s -> 0 <= c -> 0 <= m -> 0 <= d -> allocate c m d s = (o, s') ->
  node_ok s' /\ o <> Panic /\ reservations s' = reservations s /\
  physical_resources s' = physical_resources s /\ overcommit_policy s' = overcommit_policy s.
Proof.
  intros Hok Hc Hm Hd. rewrite allocate_eq by done. destruct (can_allocate s c m d) eqn:Ea.
  - intros [= <- <-]. split_and!; try done. apply can_allocate_iff in Ea; try done.
    destruct Hok as [(H1' & H2' & H3') _]. simpl in H1', H2', H3'. split; [|done].
    unfold le_resources; simpl. lia.
  - by intros [= <- <-].
Qed.

Lemma release_ok s c m d : node_ok s -> 0 <= c -> 0 <= m -> 0 <= d -> node_ok (release c m d s).
Proof.
  intros [(H1' & H2' & H3') (H4' & H5' & H6')] Hc Hm Hd. simpl in H1', H2', H3'.
  assert (Hcap : effective_capacity (release c m d s) = effective_capacity s) by done.
  unfold node_ok. rewrite Hcap. revert H4' H5' H6'. generalize (effective_capacity s). intros cap ???.
  unfold le_resources, release, sat_sub. simpl. lia.
Qed.

(** The state a node is in: allocated within capacity, reservations unsigned. *)
Definition node_inv (s : NodeResourceState) : Prop := node_ok s /\ reservations_ok s.

Lemma remove_reservation_inv i s : node_inv s -> node_inv (snd (remove_reservation i s)).
Proof.
  intros [Hok Hr]. unfold remove_reservation. destruct (reservations s !! i) as [r|] eqn:Ei; [|done].
  destruct (Hr _ _ Ei) as (H1' & H2' & H3'). simpl. split.
  - by apply release_ok.
  - unfold reservations_ok. simpl. by apply map_Forall_delete.
Qed.

Lemma cleanup_inv now s : node_inv s -> node_inv (cleanup_expired_reservations now s).
Proof.
  unfold cleanup_expired_reservations. generalize (map fst (List.filter
    (fun kv : string * ResourceReservation => is_expired now (snd kv)) (hash_iter (reservations s)))).
  intros ids. revert s. induction ids as [|i ids IH]; intros s Hs; simpl; [done|].
  by apply IH, remove_reservation_inv.
Qed.

Lemma event_inv e s o s' :
  event_ok e -> node_inv s -> run_event e s = (o, s') -> node_inv s' /\ o <> Panic.
Proof.
  intros He [Hok Hr]. destruct e as [r|r|r|i|now]; simpl.
  - destruct He as (H1' & H2' & H3'). intros E.
    apply allocate_ok_inv in E as (Hok' & Ho & Hres & _); try done. split; [|done].
    split; [done|]. unfold reservations_ok. by rewrite Hres.
  - destruct He as (H1' & H2' & H3'). intros [= <- <-]. split; [|done]. split; [by apply release_ok|done].
  - pose proof He as (H1' & H2' & H3'). simpl in H1', H2', H3'. unfold add_reservation. unfold sbind at 1, sget.
    case_match; [by intros [= <- <-]|]. unfold sbind.
    destruct (allocate _ _ _ s) as [o1 s1] eqn:E1.
    apply allocate_ok_inv in E1 as (Hok' & Ho & Hres & Hp & Hpol); try done.
    destruct o1; intros [= <- <-]; [|by split; [split; [done|unfold reservations_ok; rewrite Hres]|]..].
    split; [|done]. split; [done|]. unfold reservations_ok. simpl. rewrite Hres.
    by apply map_Forall_insert_2.
  - intros [= <- <-]. split; [|done]. by apply remove_reservation_inv.
  - intros [= <- <-]. split; [|done]. by apply cleanup_inv.
Qed.

Lemma node_new_inv c m d p : node_inv (node_state_new c m d p).
Proof.
  assert (Hcap : forall s, unsigned (effective_capacity s)).
  { intros s. pose proof (capacity_range s) as Hr. revert Hr. generalize (effective_capacity s).
    intros cap Hr. unfold unsigned, le_resources, no_resources. simpl. lia. }
  split; [|apply map_Forall_empty]. split; [by split_and!|]. apply Hcap.
Qed.

(** A reservation that is added under a new id and removed leaves the node as it
    was. *)
Lemma reservation_roundtrip r s s1 :
  node_inv s -> unsigned (resources_of_reservation r) -> reservations s !! reservation_id r = None ->
  add_reservation r s = (Ok tt, s1) -> remove_reservation (reservation_id r) s1 = (Some r, s).
Proof.
  intros [Hok Hr] (H1' & H2' & H3') Hnew. simpl in H1', H2', H3'. unfold add_reservation. unfold sbind at 1, sget.
  case_match; [done|]. unfold sbind. rewrite allocate_eq by done.
  destruct (can_allocate _ _ _ _) eqn:Ea; [|done]. intros [= <-].
  unfold remove_reservation. simpl. rewrite lookup_insert_eq. f_equal.
  destruct Hok as [(H4' & H5' & H6') _]. simpl in H4', H5', H6'.
  unfold release, set_reservations, set_allocated, sat_sub. simpl. rewrite delete_insert_id by done.
  destruct s as [p [ac am ad] rs pol]. simpl in *. do 2 f_equal; lia.
Qed.

(** Adding two reservations under one id keeps the first one's resources
    allocated for ever: no id is left to remove them by. *)
Lemma duplicate_reservation_leaks r1 r2 s s1 s2 :
  node_inv s -> unsigned (resources_of_reservation r1) -> unsigned (resources_of_reservation r2) ->
  reservation_id r1 = reservation_id r2 -> reservations s !! reservation_id r1 = None ->
  add_reservation r1 s = (Ok tt, s1) -> add_reservation r2 s1 = (Ok tt, s2) ->
  let s3 := snd (remove_reservation (reservation_id r1) s2) in
  reservations s3 = reservations s /\
  allocated_resources s3 = plus_resources (allocated_resources s) (resources_of_reservation r1).
Proof.
  intros Hinv (A1 & A2 & A3) (B1 & B2 & B3) Hid Hnew. simpl in A1, A2, A3, B1, B2, B3.
  assert (Hok1 : forall t r t', node_ok t -> unsigned (resources_of_reservation r) ->
    add_reservation r t = (Ok tt, t') ->
    t' = set_reservations (<[reservation_id r := r]> (reservations t)) (set_allocated
      (plus_resources (allocated_resources t) (resources_of_reservation r)) t) /\ node_ok t').
  { intros t r t' Ht (C1 & C2 & C3). simpl in C1, C2, C3. unfold add_reservation. unfold sbind at 1, sget.
    case_match; [done|]. unfold sbind. destruct (allocate _ _ _ t) as [o t1] eqn:E1.
    pose proof E1 as E2. apply allocate_ok_inv in E2 as (Hok & _); try done.
    rewrite allocate_eq in E1 by done. destruct (can_allocate _ _ _ _); simplify_eq; [|done].
    intros [= <-]. done. }
  destruct Hinv as [Hok Hr]. intros E1 E2. apply Hok1 in E1 as [-> Hok2]; try done.
  apply Hok1 in E2 as [-> _]; try done. unfold remove_reservation. simpl. rewrite <- Hid, lookup_insert_eq. simpl.
  split; [by rewrite insert_insert_eq, delete_insert_id|].
  destruct Hok as [(D1 & D2 & D3) _]. simpl in D1, D2, D3. unfold sat_sub, plus_resources. simpl. f_equal; lia.
Qed.

Lemma find_nodes_spec c m d (cl : ClusterResourceManager) n :
  n ∈ find_nodes_with_capacity c m d cl <->
  exists s, node_states cl !! n = Some s /\ can_allocate s c m d = true.
Proof.
  unfold find_nodes_with_capacity. rewrite list_elem_of_In, in_map_iff. split.
  - intros ([n' s] & <- & Hin). apply List.filter_In in Hin as [Hin Hc].
    apply list_elem_of_In, elem_of_hash_iter in Hin. eauto.
  - intros (s & Hs & Hc). exists (n, s). split; [done|]. apply List.filter_In. split; [|done].
    by apply list_elem_of_In, elem_of_hash_iter.
Qed.

(** * Properties *)

(** C31: a node is never overcommitted beyond its policy: along any sequence of
    allocations, releases, reservations, their removals and cleanups on a new
    node, what is allocated stays within the effective capacity in CPU, memory
    and disk, and the next operation does not panic. *)
Theorem node_within_capacity cpu memory disk policy s :
  rtc node_step (node_state_new cpu memory disk policy) s ->
  le_resources (allocated_resources s) (effective_capacity s) /\
  forall e o s', event_ok e -> run_event e s = (o, s') -> o <> Panic.
Proof.
  intros Hsteps. assert (Hinv : node_inv s).
  { apply (rtc_invariant node_step node_inv) in Hsteps; [done| |apply node_new_inv].
    intros x y Hx (e & o & He & E). by eapply event_inv in E as [? _]. }
  split; [by destruct Hinv as [[_ ?] _]|]. intros e o s' He E. by eapply event_inv in E as [_ ?].
Qed.
End NodeLemmas.

(** * Witnesses *)

#[local] Instance demo_profile : Profile := true.
#[local] Existing Instance canonical_iter.

Definition demo_node : NodeResourceState := node_state_new 8 16384 100 policy_moderate.

Lemma node_within_capacity_witness :
  exists s, run_event (EvAllocate (mkResources 4 8192 20)) demo_node = (Ok tt, s) /\
    allocated_resources s = mkResources 4 8192 20 /\
    le_resources (allocated_resources s) (effective_capacity s) /\
    forall e o s', event_ok e -> run_event e s = (o, s') -> o <> Panic.
Proof.
  exists (set_allocated (mkResources 4 8192 20) demo_node).
  split; [vm_compute; reflexivity|]. split; [reflexivity|].
  apply (node_within_capacity 8 16384 100 policy_moderate). apply rtc_once.
  exists (EvAllocate (mkResources 4 8192 20)), (Ok tt). split; [|vm_compute; reflexivity].
  unfold event_ok, unsigned, le_resources. simpl. lia.
Defined.
