(* ===== verification/IpPoolManager.v ===== *)
(** The IP pool manager (blixard-core/src/ip_pool_manager.rs): all pools, the
    allocations by address and by VM, and pool selection.

    An operation runs under its locks as one step, except [allocate_ip], which
    selects a pool under a read lock, drops it, and allocates under write locks:
    the two parts are [choose_pool] and [allocate_from].  [now1] and [now2] are
    the two clock readings, [rnd] what the random generator returns. *)

From Stdlib Require Import ZArith Lia List.
From stdpp Require Import base tactics numbers gmap strings pretty option.
From stdpp Require Import list relations.
From S2P Require Import Prelude Float64 Errors Types ResourcePool IpPool.

Open Scope Z_scope.

Section Manager.
Context `{Profile} `{IpNetLib} `{HashIter}.

Record IpPoolManager : Type := mkManager {
  pools : gmap IpPoolId EnhancedIpPoolState;
  allocations : gmap IpAddr IpAllocation;
  vm_allocations : gmap VmId (list IpAddr);
  round_robin_counter : Z
}.

Definition manager_new : IpPoolManager := mkManager ∅ ∅ ∅ 0.

Definition mgr (A : Type) : Type := st IpPoolManager BlixardError A.

Definition set_pools (p : gmap IpPoolId EnhancedIpPoolState) (m : IpPoolManager) : IpPoolManager :=
  mkManager p (allocations m) (vm_allocations m) (round_robin_counter m).

Definition pool_name (pool_id : IpPoolId) : string := "IP pool " +:+ show_pool_id pool_id.

(** [entry(vm_id).or_insert_with(Vec::new).push(ip)]. *)
Definition push_vm_ip (vm_id : VmId) (a : IpAddr) (m : gmap VmId (list IpAddr))
    : gmap VmId (list IpAddr) :=
  <[vm_id := default [] (m !! vm_id) ++ [a]]> m.

(** * Loading *)

(** The pool state that [load_from_storage] builds for one configuration. *)
Fixpoint mark_allocated (allocs : list IpAllocation) (s : IpPoolState) : BlixardResult IpPoolState :=
  match allocs with
  | [] => Ok s
  | al :: allocs' =>
      if alloc_pool_id al =? id (config s) then
        let? n := arith_u 64 (total_allocated s + 1) in
        mark_allocated allocs'
          (mkIpPoolState (config s) ({[alloc_ip al]} ∪ allocated_ips s) n (last_allocation s))
      else mark_allocated allocs' s
  end.

Definition load_pool (allocs : list IpAllocation) (c : IpPoolConfig) : mgr unit :=
  slift (validate c) ;*
  let* s := slift (mark_allocated allocs (pool_state_new c)) in
  let* e := slift (from_existing_state s) in
  smodify (fun m => set_pools (<[id (config (e_state e)) := e]> (pools m)) m).

Definition load_allocation (al : IpAllocation) : mgr unit :=
  smodify (fun m => mkManager (pools m) (<[alloc_ip al := al]> (allocations m))
    (push_vm_ip (alloc_vm_id al) (alloc_ip al) (vm_allocations m)) (round_robin_counter m)).

Definition load_from_storage (configs : list IpPoolConfig) (allocs : list IpAllocation) : mgr unit :=
  sfor (load_pool allocs) configs ;* sfor load_allocation allocs.

(** * Pool commands *)

Definition create_pool (c : IpPoolConfig) : mgr unit :=
  slift (validate c) ;*
  let* m := sget in
  match pools m !! id c with
  | Some _ => sfail (AlreadyExists (pool_name (id c)))
  | None =>
      let* e := slift (enhanced_new c) in
      smodify (fun m => set_pools (<[id c := e]> (pools m)) m)
  end.

(** [pools.get_mut(&pool_id).ok_or_else(..)?], followed by an assignment. *)
Definition modify_pool (pool_id : IpPoolId)
    (f : EnhancedIpPoolState -> BlixardResult EnhancedIpPoolState) : mgr unit :=
  let* m := sget in
  let* e := slift (ok_or (NotFound (pool_name pool_id)) (pools m !! pool_id)) in
  let* e' := slift (f e) in
  sput (set_pools (<[pool_id := e']> (pools m)) m).

Definition set_config (c : IpPoolConfig) (e : EnhancedIpPoolState) : EnhancedIpPoolState :=
  let s := e_state e in
  mkEnhanced (mkIpPoolState c (allocated_ips s) (total_allocated s) (last_allocation s))
    (e_pool e) (e_factory_config e) (e_shared e).

Definition update_pool (c : IpPoolConfig) : mgr unit :=
  slift (validate c) ;*
  modify_pool (id c) (fun e => Ok (sync_state (set_config c e))).

Definition delete_pool (pool_id : IpPoolId) : mgr unit :=
  let* m := sget in
  let* e := slift (ok_or (NotFound (pool_name pool_id)) (pools m !! pool_id)) in
  if bool_decide (allocated_ips (e_state e) = ∅)
  then sput (set_pools (delete pool_id (pools m)) m)
  else sfail (InvalidOperation "delete pool").

Definition with_enabled (b : bool) (c : IpPoolConfig) : IpPoolConfig :=
  mkIpPoolConfig (id c) (name c) (subnet c) (vlan_id c) (gateway c) (dns_servers c)
    (allocation_start c) (allocation_end c) (topology_hint c) (reserved_ips c) b (tags c).

Definition with_reserved (l : gset IpAddr) (c : IpPoolConfig) : IpPoolConfig :=
  mkIpPoolConfig (id c) (name c) (subnet c) (vlan_id c) (gateway c) (dns_servers c)
    (allocation_start c) (allocation_end c) (topology_hint c) l (enabled c) (tags c).

Definition set_pool_enabled (pool_id : IpPoolId) (b : bool) : mgr unit :=
  modify_pool pool_id (fun e => Ok (set_config (with_enabled b (config (e_state e))) e)).

Definition can_reserve (s : IpPoolState) (a : IpAddr) : bool :=
  net_contains (subnet (config s)) a && negb (bool_decide (a ∈ allocated_ips s)).

Definition reserve_ips (pool_id : IpPoolId) (ips : gset IpAddr) : mgr unit :=
  modify_pool pool_id (fun e =>
    let s := e_state e in
    if forallb (can_reserve s) (elements ips)
    then Ok (set_config (with_reserved (reserved_ips (config s) ∪ ips) (config s)) e)
    else Err (InvalidOperation "reserve IP")).

Definition release_reserved_ips (pool_id : IpPoolId) (ips : gset IpAddr) : mgr unit :=
  modify_pool pool_id (fun e =>
    let c := config (e_state e) in
    Ok (set_config (with_reserved (reserved_ips c ∖ ips) c) e)).

Definition process_command (command : IpPoolCommand) : mgr unit :=
  match command with
  | CreatePool c => create_pool c
  | UpdatePool c => update_pool c
  | DeletePool pool_id => delete_pool pool_id
  | SetPoolEnabled pool_id b => set_pool_enabled pool_id b
  | ReserveIps pool_id ips => reserve_ips pool_id ips
  | ReleaseReservedIps pool_id ips => release_reserved_ips pool_id ips
  end.

(** * Pool selection *)

Definition tags_match (required : gmap string string) (c : IpPoolConfig) : bool :=
  forallb (fun '(key, value) => bool_decide (tags c !! key = Some value)) (map_to_list required).

Definition topology_compatible (hint : option string) (c : IpPoolConfig) : bool :=
  match hint, topology_hint c with
  | Some h, Some ph => bool_decide (ph = h)
  | _, _ => true
  end.

Definition eligible (request : IpAllocationRequest) (e : EnhancedIpPoolState) : BlixardResult bool :=
  let c := config (e_state e) in
  if negb (enabled c) then Ok false
  else if negb (tags_match (req_required_tags request) c) then Ok false
  else if negb (topology_compatible (req_topology_hint request) c) then Ok false
  else has_capacity e.

Fixpoint eligible_pools (request : IpAllocationRequest) (l : list (IpPoolId * EnhancedIpPoolState))
    : BlixardResult (list (IpPoolId * EnhancedIpPoolState)) :=
  match l with
  | [] => Ok []
  | (pid, e) :: l' =>
      let? b := eligible request e in
      let? rest := eligible_pools request l' in
      Ok (if b then (pid, e) :: rest else rest)
  end.

(** [(utilization * 1000.0) as u64]. *)
Definition utilization_key (u : f64) : Z := f64_as_u 64 (f64_mul u (f64_of_Z 1000)).

Definition utilizations (l : list (IpPoolId * EnhancedIpPoolState))
    : BlixardResult (list (IpPoolId * f64)) :=
  otraverse (fun '(pid, e) => omap_ok (fun u => (pid, u)) (utilization_percent e)) l.

Definition min_by_safe {A} (key : A -> Z) (l : list A) : BlixardResult A :=
  ok_or (InvalidOperation "minimum selection") (min_by_key key l).

Definition max_by_safe {A} (key : A -> Z) (l : list A) : BlixardResult A :=
  ok_or (InvalidOperation "maximum selection") (max_by_key key l).

(** [choose_random]: the generator picks one of the indices. *)
Definition choose_random {A} (rnd : nat) (l : list A) : BlixardResult A :=
  ok_or (InvalidOperation "random selection") (nth_error l (rnd mod length l)).

Definition least_utilized (l : list (IpPoolId * EnhancedIpPoolState)) : BlixardResult IpPoolId :=
  let? us := utilizations l in
  omap_ok fst (min_by_safe (fun '(_, u) => utilization_key u) us).

Definition most_utilized (l : list (IpPoolId * EnhancedIpPoolState)) : BlixardResult IpPoolId :=
  let? us := utilizations l in
  omap_ok fst (max_by_safe (fun '(_, u) => utilization_key u) us).

Definition round_robin (l : list (IpPoolId * EnhancedIpPoolState)) : mgr IpPoolId :=
  let* m := sget in
  let n := Z.of_nat (length l) in
  let index := round_robin_counter m mod n in
  let* next := slift (arith_u 64 (round_robin_counter m + 1)) in
  sput (mkManager (pools m) (allocations m) (vm_allocations m) (next mod n)) ;*
  match nth_error l (Z.to_nat index) with
  | Some (pid, _) => sret pid
  | None => spanic
  end.

Definition topology_aware (hint : option string) (l : list (IpPoolId * EnhancedIpPoolState))
    : BlixardResult IpPoolId :=
  let matching := match hint with
    | Some h => List.find (fun '(_, e) => bool_decide (topology_hint (config (e_state e)) = Some h)) l
    | None => None
    end in
  match matching with
  | Some (pid, _) => Ok pid
  | None => least_utilized l
  end.

Definition select_pool (rnd : nat) (request : IpAllocationRequest) : mgr IpPoolId :=
  let* m := sget in
  let* l := slift (eligible_pools request (hash_iter (pools m))) in
  if (length l =? 0)%nat then sfail (ResourceExhausted "IP pools matching requirements")
  else match req_selection_strategy request with
       | LeastUtilized => slift (least_utilized l)
       | MostUtilized => slift (most_utilized l)
       | RoundRobin => round_robin l
       | TopologyAware => slift (topology_aware (req_topology_hint request) l)
       | Random => slift (choose_random rnd (map fst l))
       end.

(** * Allocation and release *)

(** The first part of [allocate_ip], under the read lock. *)
Definition choose_pool (rnd : nat) (request : IpAllocationRequest) : mgr IpPoolId :=
  let* m := sget in
  match req_preferred_pool request with
  | Some preferred =>
      let* e := slift (ok_or (NotFound (pool_name preferred)) (pools m !! preferred)) in
      let* b := slift (has_capacity e) in
      if b then sret preferred else sfail (ResourceExhausted (pool_name preferred))
  | None => select_pool rnd request
  end.

(** The second part, under the write locks. *)
Definition allocate_from (now1 now2 : Z) (pool_id : IpPoolId) (request : IpAllocationRequest)
    : mgr IpAllocationResult :=
  let* m := sget in
  let* e := slift (ok_or (NotFound ("IP Pool with id: " +:+ show_pool_id pool_id))
                         (pools m !! pool_id)) in
  let '(o, e') := IpPool.allocate_ip now1 e in
  sput (set_pools (<[pool_id := e']> (pools m)) m) ;*
  let* ip_address := slift o in
  let a := ip ip_address in
  let al := mkIpAllocation a pool_id (req_vm_id request) (req_mac_address request) now2 None in
  smodify (fun m => mkManager (pools m) (<[a := al]> (allocations m))
    (push_vm_ip (req_vm_id request) a (vm_allocations m)) (round_robin_counter m)) ;*
  let c := config (e_state e') in
  sret (mkIpResult al (mkNetworkConfig a (subnet c) (gateway c) (dns_servers c) (vlan_id c)
                         (req_mac_address request))).

Definition allocate_ip (rnd : nat) (now1 now2 : Z) (request : IpAllocationRequest)
    : mgr IpAllocationResult :=
  let* pool_id := choose_pool rnd request in
  allocate_from now1 now2 pool_id request.

(** The body of the loop of [release_vm_ips]. *)
Definition release_one (a : IpAddr) : mgr unit :=
  let* m := sget in
  match allocations m !! a with
  | None => sret tt
  | Some al =>
      sput (mkManager (pools m) (delete a (allocations m)) (vm_allocations m)
              (round_robin_counter m)) ;*
      match pools m !! alloc_pool_id al with
      | None => sret tt
      | Some e =>
          let '(o, e') := release_ip a e in
          smodify (fun m => set_pools (<[alloc_pool_id al := e']> (pools m)) m) ;*
          slift o
      end
  end.

Definition release_vm_ips (vm_id : VmId) : mgr unit :=
  let* m := sget in
  match vm_allocations m !! vm_id with
  | None => sret tt
  | Some ips =>
      sput (mkManager (pools m) (allocations m) (delete vm_id (vm_allocations m))
              (round_robin_counter m)) ;*
      sfor release_one ips
  end.

(** * Queries *)

Definition get_pools (m : IpPoolManager) : list IpPoolState :=
  map (fun '(_, e) => e_state e) (hash_iter (pools m)).

Definition get_vm_allocations (m : IpPoolManager) (vm_id : VmId) : list IpAllocation :=
  match vm_allocations m !! vm_id with
  | Some ips => omap (fun a => allocations m !! a) ips
  | None => []
  end.

(** [PoolStats] of the manager. *)
Record IpPoolStats : Type := mkIpPoolStats {
  ps_pool_id : IpPoolId;
  ps_total_ips : Z;
  ps_allocated_ips : Z;
  ps_reserved_ips : Z;
  ps_available_ips : Z;
  ps_utilization_percent : f64;
  ps_last_allocation : option Z
}.

Definition manager_pool_stats (m : IpPoolManager) (pool_id : IpPoolId) : BlixardResult IpPoolStats :=
  let? e := ok_or (NotFound (pool_name pool_id)) (pools m !! pool_id) in
  let? u := utilization_percent e in
  let s := e_state e in
  let? total := total_capacity (config s) in
  let allocated := Z.of_nat (size (allocated_ips s)) in
  let? free := arith_u 64 (total - allocated) in
  Ok (mkIpPoolStats pool_id total allocated (Z.of_nat (size (reserved_ips (config s)))) free u
        (last_allocation s)).

(** * The invariant *)

(** [ips_of m vm]: the addresses listed for a VM. *)
Definition ips_of (m : IpPoolManager) (vm : VmId) : list IpAddr := default [] (vm_allocations m !! vm).

(** No address is looked at by the searches of two pools. *)
Definition ranges_disjoint (m : IpPoolManager) : Prop :=
  forall p1 p2 e1 e2 a, pools m !! p1 = Some e1 -> pools m !! p2 = Some e2 ->
    searched (e_factory_config e1) a -> searched (e_factory_config e2) a -> p1 = p2.

(** The invariant while the addresses [pending] of a VM are being released:
    every pool is consistent; a pool's allocated set is what the allocation map
    records for it; every recorded allocation belongs to an existing pool and
    is listed for its VM, or pending; listed addresses are recorded for that VM,
    once. *)
Record inv_with (pending : list IpAddr) (m : IpPoolManager) : Prop := mkInv {
  inv_pool : forall pid e, pools m !! pid = Some e ->
    enhanced_inv e /\ range_ok (e_factory_config e) /\ id (config (e_state e)) = pid;
  inv_disjoint : ranges_disjoint m;
  inv_owned : forall a al, allocations m !! a = Some al ->
    alloc_ip al = a /\
    (exists e, pools m !! alloc_pool_id al = Some e /\ searched (e_factory_config e) a) /\
    (a ∈ pending \/ a ∈ ips_of m (alloc_vm_id al));
  inv_allocated : forall pid e a, pools m !! pid = Some e ->
    a ∈ allocated_ips (e_state e) <->
    exists al, allocations m !! a = Some al /\ alloc_pool_id al = pid;
  inv_vm : forall vm ips, vm_allocations m !! vm = Some ips ->
    NoDup ips /\ forall a, a ∈ ips -> a ∉ pending /\
      exists al, allocations m !! a = Some al /\ alloc_vm_id al = vm;
  inv_pending : NoDup pending /\ forall a, a ∈ pending -> is_Some (allocations m !! a)
}.

Definition mgr_inv (m : IpPoolManager) : Prop := inv_with [] m.

(** What is asked of a command: a pool that is created has a proper range that
    does not meet the range of another pool. *)
Definition command_ok (m : IpPoolManager) (command : IpPoolCommand) : Prop :=
  match command with
  | CreatePool c => range_ok c /\
      forall pid e a, pools m !! pid = Some e -> searched (e_factory_config e) a -> ~ searched c a
  | _ => True
  end.

(** One step of the manager; [allocate_from] runs with whatever pool an earlier
    [choose_pool] returned. *)
Inductive mgr_step : IpPoolManager -> IpPoolManager -> Prop :=
| mgr_step_command command m o m' :
    command_ok m command -> process_command command m = (o, m') -> o <> Panic -> mgr_step m m'
| mgr_step_choose rnd request m o m' :
    choose_pool rnd request m = (o, m') -> o <> Panic -> mgr_step m m'
| mgr_step_allocate now1 now2 pid request m o m' :
    allocate_from now1 now2 pid request m = (o, m') -> mgr_step m m'
| mgr_step_release vm m o m' :
    release_vm_ips vm m = (o, m') -> mgr_step m m'.

(** ** Preservation *)

Lemma manager_new_inv : mgr_inv manager_new.
Proof.
  split; unfold ranges_disjoint; simpl; try (intros * Hx; by rewrite lookup_empty in Hx).
  split; [constructor|set_solver].
Qed.

(** Replacing a pool by one with the same range, address set and identifier. *)
Lemma inv_replace_pool pending m pid e e' :
  inv_with pending m -> pools m !! pid = Some e -> enhanced_inv e' ->
  e_factory_config e' = e_factory_config e -> id (config (e_state e')) = pid ->
  allocated_ips (e_state e') = allocated_ips (e_state e) ->
  inv_with pending (set_pools (<[pid := e']> (pools m)) m).
Proof.
  intros [Hpool Hdis Hown Hall Hvm Hpend] He Hi Hf Hid Hal. split; simpl; try done.
  - intros q x. rewrite lookup_insert_Some. intros [[<- <-]|[_ Hq]]; [|by apply Hpool].
    rewrite Hf. destruct (Hpool _ _ He) as (_ & ? & _). done.
  - intros p1 p2 e1 e2 a. simpl. rewrite !lookup_insert_Some.
    intros [[<- <-]|[? H1']] [[<- <-]|[? H2']]; rewrite ?Hf; eauto.
  - intros a al Ha. destruct (Hown _ _ Ha) as (? & (x & Hx & Hs) & ?). split_and!; try done.
    destruct (decide (alloc_pool_id al = pid)) as [Heq|Hne].
    + exists e'. rewrite Heq, lookup_insert_eq, Hf. split; [done|]. congruence.
    + exists x. by rewrite lookup_insert_ne.
  - intros q x a. rewrite lookup_insert_Some. intros [[<- <-]|[_ Hq]]; [|by apply Hall].
    rewrite Hal. by apply Hall.
Qed.

Lemma modify_pool_inv pid f m o m' :
  mgr_inv m -> modify_pool pid f m = (o, m') ->
  (forall e e', enhanced_inv e -> id (config (e_state e)) = pid ->
    f e = Ok e' -> enhanced_inv e' /\ e_factory_config e' = e_factory_config e /\
    id (config (e_state e')) = pid /\ allocated_ips (e_state e') = allocated_ips (e_state e)) ->
  mgr_inv m'.
Proof.
  intros Hinv E Hf. unfold modify_pool in E. inv_st E; try done.
  match goal with Hp : pools m !! pid = Some ?e, Hfe : f ?e = Ok _ |- _ =>
    destruct (inv_pool _ _ Hinv _ _ Hp) as (? & _ & ?);
    destruct (Hf _ _ ltac:(done) ltac:(done) Hfe) as (? & ? & ? & ?) end.
  by eapply inv_replace_pool.
Qed.

Lemma set_config_inv c e : enhanced_inv e -> enhanced_inv (set_config c e).
Proof. intros (p & cap & Hx). exists p, cap. exact Hx. Qed.

Lemma create_pool_inv c m o m' :
  mgr_inv m -> command_ok m (CreatePool c) -> create_pool c m = (o, m') -> mgr_inv m'.
Proof.
  intros Hinv [Hr Hnew] E. unfold create_pool in E. inv_st E; try done.
  match goal with Hx : enhanced_new c = Ok ?e, Hy : pools m !! id c = None |- _ =>
    rename Hx into Hmk, Hy into Hfresh; rename e into e0 end.
  apply from_existing_inv in Hmk as (Hi & Hs & Hf & _); [|done|done]. simpl in *.
  destruct Hinv as [Hpool Hdis Hown Hall Hvm Hpend]. split; simpl; try done.
  - intros q x. rewrite lookup_insert_Some. intros [[<- <-]|[_ Hq]]; [|by apply Hpool].
    by rewrite Hf, Hs.
  - intros p1 p2 e1 e2 b. simpl. rewrite !lookup_insert_Some.
    intros [[<- <-]|[? H1']] [[<- <-]|[? H2']]; rewrite ?Hf; intros; try done; try by eapply Hdis.
    + by edestruct Hnew.
    + by edestruct Hnew.
  - intros b al Hb. destruct (Hown _ _ Hb) as (? & (x & Hx & Hsr) & ?). split_and!; try done.
    exists x. rewrite lookup_insert_ne by congruence. done.
  - intros q x b. rewrite lookup_insert_Some. intros [[<- <-]|[_ Hq]]; [|by apply Hall].
    rewrite Hs. simpl. split; [set_solver|].
    intros (al & Hb & Hp). destruct (Hown _ _ Hb) as (_ & (x & Hx & _) & _). congruence.
Qed.

Lemma delete_pool_inv pid m o m' : mgr_inv m -> delete_pool pid m = (o, m') -> mgr_inv m'.
Proof.
  intros Hinv E. unfold delete_pool in E. inv_st E; try done.
  match goal with Hx : bool_decide _ = true |- _ => apply bool_decide_eq_true in Hx;
    rename Hx into Hempty end.
  destruct Hinv as [Hpool Hdis Hown Hall Hvm Hpend]. split; simpl; try done.
  - intros q x Hq. apply lookup_delete_Some in Hq as [_ Hq]. by apply Hpool.
  - intros p1 p2 e1 e2 a. simpl. rewrite !lookup_delete_Some. intros [_ ?] [_ ?]. by eapply Hdis.
  - intros a al Ha. destruct (Hown _ _ Ha) as (? & (x & Hx & Hsr) & ?). split_and!; try done.
    exists x. split; [|done]. rewrite lookup_delete_ne; [done|]. intros ->.
    assert (Hin : a ∈ allocated_ips (e_state x)) by (apply (Hall _ _ _ Hx); eauto).
    simplify_eq. set_solver.
  - intros q x a Hq. apply lookup_delete_Some in Hq as [_ Hq]. by apply Hall.
Qed.

Lemma process_command_inv command m o m' :
  mgr_inv m -> command_ok m command -> process_command command m = (o, m') -> mgr_inv m'.
Proof.
  intros Hinv Hok E. destruct command as [c|c|pid|pid b|pid ips|pid ips]; simpl in E.
  - by eapply create_pool_inv.
  - unfold update_pool in E. unfold sbind at 1, slift at 1 in E.
    destruct (validate c); simplify_eq; try done. eapply modify_pool_inv; [done|exact E|].
    intros e e' Hi Hid [= <-].
    destruct (sync_state_inv _ (set_config_inv c e Hi)) as [? ->]. split_and!; try done; by apply set_config_inv.
  - by eapply delete_pool_inv.
  - eapply modify_pool_inv; [done|exact E|]. intros e e' Hi Hid [= <-].
    split_and!; try done; by apply set_config_inv.
  - eapply modify_pool_inv; [done|exact E|]. intros e e' Hi Hid He. simpl in He.
    case_match; simplify_eq. split_and!; try done; by apply set_config_inv.
  - eapply modify_pool_inv; [done|exact E|]. intros e e' Hi Hid [= <-].
    split_and!; try done; by apply set_config_inv.
Qed.

(** Choosing a pool changes at most the round-robin counter. *)
Lemma choose_pool_frame rnd request m o m' :
  choose_pool rnd request m = (o, m') ->
  pools m' = pools m /\ allocations m' = allocations m /\ vm_allocations m' = vm_allocations m.
Proof.
  intros E. unfold choose_pool, select_pool, round_robin in E. inv_st E; done.
Qed.

Lemma inv_frame pending m m' :
  pools m' = pools m -> allocations m' = allocations m -> vm_allocations m' = vm_allocations m ->
  inv_with pending m -> inv_with pending m'.
Proof.
  intros Hp Ha Hv [Hpool Hdis Hown Hall Hvm Hpend].
  split; unfold ranges_disjoint, ips_of; rewrite ?Hp, ?Ha, ?Hv; done.
Qed.

(** ** Allocation *)

(** Recording an address that [allocate_ip] of a pool returned. *)
Definition record_allocation (al : IpAllocation) (m : IpPoolManager) : IpPoolManager :=
  mkManager (pools m) (<[alloc_ip al := al]> (allocations m))
    (push_vm_ip (alloc_vm_id al) (alloc_ip al) (vm_allocations m)) (round_robin_counter m).

Lemma push_vm_ip_lookup vm a vms vm' :
  default [] (push_vm_ip vm a vms !! vm') =
  if bool_decide (vm' = vm) then default [] (vms !! vm) ++ [a] else default [] (vms !! vm').
Proof.
  unfold push_vm_ip. case_bool_decide as Hx; [subst; by rewrite lookup_insert_eq|].
  by rewrite lookup_insert_ne.
Qed.

(** A fresh address of a pool is recorded for no VM. *)
Lemma fresh_unrecorded m pid e a :
  mgr_inv m -> pools m !! pid = Some e -> a ∉ allocated_ips (e_state e) ->
  searched (e_factory_config e) a -> allocations m !! a = None.
Proof.
  intros Hinv He Hfresh Hs. destruct (allocations m !! a) as [al|] eqn:Ha; [|done].
  destruct (inv_owned _ _ Hinv _ _ Ha) as (_ & (x & Hx & Hsx) & _).
  pose proof (inv_disjoint _ _ Hinv _ _ _ _ _ Hx He Hsx Hs) as Heq.
  destruct Hfresh. apply (inv_allocated _ _ Hinv _ _ _ He). eauto.
Qed.

Lemma listed_recorded m vm a :
  mgr_inv m -> a ∈ ips_of m vm -> exists al, allocations m !! a = Some al /\ alloc_vm_id al = vm.
Proof.
  unfold ips_of. intros Hinv. destruct (vm_allocations m !! vm) as [l|] eqn:El; [|set_solver].
  intros Ha. destruct (inv_vm _ _ Hinv _ _ El) as [_ Hx]. by destruct (Hx _ Ha) as (_ & ?).
Qed.

Lemma ips_of_nodup m vm : mgr_inv m -> NoDup (ips_of m vm).
Proof.
  unfold ips_of. intros Hinv. destruct (vm_allocations m !! vm) as [l|] eqn:El; [|constructor].
  apply (inv_vm _ _ Hinv _ _ El).
Qed.

(** Listing a fresh address for a VM. *)
Lemma inv_vm_push m al vm ips :
  mgr_inv m -> allocations m !! alloc_ip al = None ->
  push_vm_ip (alloc_vm_id al) (alloc_ip al) (vm_allocations m) !! vm = Some ips ->
  NoDup ips /\ forall a, a ∈ ips -> a ∉ [] /\
    exists bl, <[alloc_ip al := al]> (allocations m) !! a = Some bl /\ alloc_vm_id bl = vm.
Proof.
  intros Hinv Hno Hl.
  assert (Hips : ips = if bool_decide (vm = alloc_vm_id al)
    then ips_of m vm ++ [alloc_ip al] else ips_of m vm).
  { pose proof (push_vm_ip_lookup (alloc_vm_id al) (alloc_ip al) (vm_allocations m) vm) as Hx.
    rewrite Hl in Hx. simpl in Hx. rewrite Hx. unfold ips_of. by case_bool_decide; subst. }
  assert (Hold : forall b, b ∈ ips_of m vm -> alloc_ip al <> b /\
    exists bl, <[alloc_ip al := al]> (allocations m) !! b = Some bl /\ alloc_vm_id bl = vm).
  { intros b Hb. destruct (listed_recorded m vm b Hinv Hb) as (bl & Hbl & ?).
    assert (alloc_ip al <> b) by congruence. split; [done|].
    exists bl. by rewrite lookup_insert_ne. }
  pose proof (ips_of_nodup m vm Hinv) as Hnd. subst ips. case_bool_decide as Hv.
  - split.
    + apply NoDup_app. split_and!; [done| |apply NoDup_singleton].
      intros b Hb. destruct (Hold b Hb). set_solver.
    + intros b Hb. split; [set_solver|]. apply elem_of_app in Hb as [Hb|Hb]; [by apply Hold|].
      apply list_elem_of_singleton in Hb as ->. exists al. by rewrite lookup_insert_eq.
  - split; [done|]. intros b Hb. split; [set_solver|by apply Hold].
Qed.

Lemma inv_allocate m pid e now al :
  mgr_inv m -> pools m !! pid = Some e -> alloc_pool_id al = pid ->
  alloc_ip al ∉ allocated_ips (e_state e) -> searched (e_factory_config e) (alloc_ip al) ->
  enhanced_inv (with_allocated now (alloc_ip al) e) ->
  mgr_inv (record_allocation al
    (set_pools (<[pid := with_allocated now (alloc_ip al) e]> (pools m)) m)).
Proof.
  intros Hinv He Hpid Hfresh Hs Hi. pose proof (fresh_unrecorded _ _ _ _ Hinv He Hfresh Hs) as Hno.
  pose proof Hinv as [Hpool Hdis Hown Hall Hvm Hpend].
  set (a := alloc_ip al) in *.
  assert (Hna : forall b bl, allocations m !! b = Some bl -> a <> b).
  { intros b bl Hb Hab. rewrite <- Hab, Hno in Hb. done. }
  split; simpl; try (by split; [constructor|set_solver]).
  - intros q x. rewrite lookup_insert_Some. intros [[<- <-]|[_ Hq]]; [|by apply Hpool].
    destruct (Hpool _ _ He) as (_ & ? & ?). done.
  - intros p1 p2 e1 e2 b. simpl. rewrite !lookup_insert_Some.
    intros [[<- <-]|[? H1']] [[<- <-]|[? H2']]; simpl; eauto.
  - intros b bl. rewrite lookup_insert_Some. unfold ips_of; simpl. intros [[<- <-]|[Hne Hb]].
    + split_and!; [done| |right; rewrite push_vm_ip_lookup, bool_decide_true by done; set_solver].
      eexists. rewrite Hpid, lookup_insert_eq. done.
    + destruct (Hown _ _ Hb) as (? & (x & Hx & Hsx) & Hl). split_and!; [done| |].
      * destruct (decide (alloc_pool_id bl = pid)) as [Heq|Hnp].
        -- eexists. rewrite Heq, lookup_insert_eq. split; [done|]. simpl. congruence.
        -- exists x. by rewrite lookup_insert_ne.
      * right. rewrite push_vm_ip_lookup. destruct Hl as [?|Hl]; [set_solver|].
        unfold ips_of in Hl. case_bool_decide as Hv; [|done]. rewrite Hv in Hl. set_solver.
  - intros q x b Hq. rewrite lookup_insert_Some in Hq. destruct Hq as [[<- <-]|[Hne Hq]]; simpl.
    + rewrite elem_of_union, elem_of_singleton, (Hall _ _ b He). split.
      * intros [->|(bl & Hb & ?)]; [exists al; by rewrite lookup_insert_eq|].
        exists bl. rewrite lookup_insert_ne by eauto. done.
      * intros (bl & Hb & ?). apply lookup_insert_Some in Hb as [[<- <-]|[? ?]]; eauto.
    + rewrite (Hall _ _ b Hq). split; intros (bl & Hb & Hbp).
      * exists bl. rewrite lookup_insert_ne by eauto. done.
      * apply lookup_insert_Some in Hb as [[<- <-]|[? ?]]; [congruence|eauto].
  - intros vm ips. by apply inv_vm_push.
Qed.

(** [allocate_from] on every branch: the pool is missing, the pool refuses, or a
    fresh address is recorded. *)
Lemma allocate_from_result now1 now2 pid request m :
  mgr_inv m ->
  match pools m !! pid with
  | None => allocate_from now1 now2 pid request m =
      (Err (NotFound ("IP Pool with id: " +:+ show_pool_id pid)), m)
  | Some e =>
      (exists err, allocate_from now1 now2 pid request m = (Err err, m)) \/
      exists a al nc,
        al = mkIpAllocation a pid (req_vm_id request) (req_mac_address request) now2 None /\
        a ∉ allocated_ips (e_state e) /\ searched (e_factory_config e) a /\
        enhanced_inv (with_allocated now1 a e) /\
        allocate_from now1 now2 pid request m =
          (Ok (mkIpResult al nc),
           record_allocation al (set_pools (<[pid := with_allocated now1 a e]> (pools m)) m))
  end.
Proof.
  intros Hinv. unfold allocate_from. unfold_st.
  destruct (pools m !! pid) as [e|] eqn:He; [|done].
  destruct (inv_pool _ _ Hinv _ _ He) as (Hi & Hr & _).
  destruct (allocate_ip_result now1 e Hi Hr) as (o & e' & -> & Hres & _ & Hi' & _).
  destruct o as [r|err|]; simpl in Hres; [| |done].
  - destruct Hres as (? & ? & ? & ? & ? & ? & ->). right. by eexists (ip r), _, _.
  - destruct Hres as [-> _]. left. exists err. f_equal. destruct m as [ps ? ? ?]. unfold set_pools.
    simpl in *. by rewrite insert_id.
Qed.

Lemma allocate_from_inv now1 now2 pid request m o m' :
  mgr_inv m -> allocate_from now1 now2 pid request m = (o, m') -> mgr_inv m'.
Proof.
  intros Hinv E. pose proof (allocate_from_result now1 now2 pid request m Hinv) as Hres.
  destruct (pools m !! pid) as [e|] eqn:He; [|congruence].
  destruct Hres as [[err Herr]|(a & al & nc & Hal & ? & ? & ? & Hok)]; [congruence|].
  rewrite Hok in E. injection E as _ <-. subst al. by eapply (inv_allocate m pid e).
Qed.

(** ** Release *)

Lemma release_one_inv a pending m :
  inv_with (a :: pending) m ->
  exists m', release_one a m = (Ok tt, m') /\ inv_with pending m' /\
    allocations m' = delete a (allocations m) /\ vm_allocations m' = vm_allocations m.
Proof.
  intros Hinv. pose proof Hinv as [Hpool Hdis Hown Hall Hvm [Hnd Hpend]].
  destruct (Hpend a) as [al Ha]; [set_solver|].
  destruct (Hown _ _ Ha) as (Hal & (e & He & Hs) & _).
  unfold release_one. unfold_st. rewrite Ha, He. simpl.
  eexists; split; [done|]. split; [|done]. apply NoDup_cons in Hnd as [Hni Hnd].
  assert (Hi' := release_ip_inv a e (proj1 (Hpool _ _ He))). unfold release_ip, smodify in Hi'.
  simpl in Hi'. split; simpl.
  - intros q x. rewrite lookup_insert_Some. intros [[<- <-]|[_ Hq]]; [|by apply Hpool].
    destruct (Hpool _ _ He) as (_ & ? & ?). done.
  - intros p1 p2 e1 e2 b. simpl. rewrite !lookup_insert_Some.
    intros [[<- <-]|[? H1']] [[<- <-]|[? H2']]; simpl; eauto.
  - intros b bl Hb. apply lookup_delete_Some in Hb as [Hne Hb].
    destruct (Hown _ _ Hb) as (? & (x & Hx & Hsx) & Hl). split_and!; [done| |].
    + destruct (decide (alloc_pool_id bl = alloc_pool_id al)) as [Heq|Hnp].
      * eexists. rewrite Heq, lookup_insert_eq. split; [done|]. simpl. congruence.
      * exists x. by rewrite lookup_insert_ne.
    + destruct Hl as [Hl|Hl]; [left; set_solver|right; done].
  - intros q x b Hq. rewrite lookup_insert_Some in Hq. destruct Hq as [[<- <-]|[Hne Hq]]; simpl.
    + rewrite elem_of_difference, elem_of_singleton, (Hall _ _ b He).
      setoid_rewrite lookup_delete_Some. naive_solver.
    + rewrite (Hall _ _ b Hq). setoid_rewrite lookup_delete_Some. naive_solver congruence.
  - intros vm ips Hl. destruct (Hvm _ _ Hl) as [? Hx]. split; [done|]. intros b Hb.
    destruct (Hx _ Hb) as (Hnp & bl & Hbl & ?). split; [set_solver|].
    exists bl. rewrite lookup_delete_ne by set_solver. done.
  - split; [done|]. intros b Hb. rewrite lookup_delete_ne by set_solver. apply Hpend. set_solver.
Qed.

Lemma release_list_inv pending m :
  inv_with pending m ->
  exists m', sfor release_one pending m = (Ok tt, m') /\ mgr_inv m' /\
    vm_allocations m' = vm_allocations m /\
    forall a, allocations m' !! a = if bool_decide (a ∈ pending) then None else allocations m !! a.
Proof.
  revert m. induction pending as [|a pending IH]; intros m Hinv.
  { exists m. done. }
  destruct (release_one_inv a pending m Hinv) as (m1 & E1 & Hinv1 & Ha1 & Hv1).
  destruct (IH m1 Hinv1) as (m2 & E2 & Hinv2 & Hv2 & Ha2).
  exists m2. split_and!; [|done|congruence|].
  - simpl. unfold sbind. by rewrite E1.
  - intros b. rewrite Ha2, Ha1. destruct (decide (b = a)) as [->|Hne].
    + rewrite lookup_delete_eq, (bool_decide_true (a ∈ a :: pending)) by left. by case_bool_decide.
    + rewrite lookup_delete_ne by done. do 2 case_bool_decide; try done; set_solver.
Qed.

Lemma release_vm_ips_result vm m :
  mgr_inv m ->
  exists m', release_vm_ips vm m = (Ok tt, m') /\ mgr_inv m' /\
    vm_allocations m' = delete vm (vm_allocations m) /\
    forall a, allocations m' !! a = if bool_decide (a ∈ ips_of m vm) then None else allocations m !! a.
Proof.
  intros Hinv. unfold release_vm_ips, ips_of. unfold_st.
  destruct (vm_allocations m !! vm) as [ips|] eqn:El; simpl.
  2:{ exists m. split_and!; try done. by rewrite delete_id. }
  destruct (inv_vm _ _ Hinv _ _ El) as [Hnd Hips].
  match goal with |- context [sfor release_one ips ?m0] =>
    destruct (release_list_inv ips m0) as (m' & E & Hi & Hv & Ha); [|by exists m'] end.
  destruct Hinv as [Hpool Hdis Hown Hall Hvm Hpend]. split; simpl; try done.
  - intros a al Ha. destruct (Hown _ _ Ha) as (? & ? & [Hl|Hl]); [set_solver|].
    split_and!; try done. unfold ips_of in *; simpl.
    destruct (decide (alloc_vm_id al = vm)) as [Heq|Hne].
    + left. rewrite Heq, El in Hl. done.
    + right. by rewrite lookup_delete_ne.
  - intros vm' ips' Hl. apply lookup_delete_Some in Hl as [Hne Hl].
    destruct (Hvm _ _ Hl) as [? Hx]. split; [done|]. intros a Ha.
    destruct (Hx _ Ha) as (_ & al & Hal & Hv). split; [|eauto]. intros Hin.
    destruct (Hips _ Hin) as (_ & al' & Hal' & ?). congruence.
  - split; [done|]. intros a Ha. destruct (Hips _ Ha) as (_ & al & ? & _). eauto.
Qed.

Lemma mgr_step_inv m m' : mgr_inv m -> mgr_step m m' -> mgr_inv m'.
Proof.
  intros Hinv Hstep. revert Hinv.
  destruct Hstep as [command m o m' Hok E _|rnd request m o m' E _|now1 now2 pid request m o m' E
    |vm m o m' E]; intros Hinv.
  - by eapply process_command_inv.
  - apply choose_pool_frame in E as (? & ? & ?). by eapply inv_frame.
  - by eapply allocate_from_inv.
  - destruct (release_vm_ips_result vm m Hinv) as (m1 & E' & ? & _). congruence.
Qed.
(** ** Queries *)

Lemma elem_of_vm_allocations m vm al :
  al ∈ get_vm_allocations m vm <-> exists a, a ∈ ips_of m vm /\ allocations m !! a = Some al.
Proof.
  unfold get_vm_allocations, ips_of. destruct (vm_allocations m !! vm); simpl; [|set_solver].
  by rewrite list_elem_of_omap.
Qed.

Lemma get_vm_allocations_eq m vm :
  get_vm_allocations m vm = omap (fun a => allocations m !! a) (ips_of m vm).
Proof. unfold get_vm_allocations, ips_of. by destruct (vm_allocations m !! vm). Qed.

Lemma omap_agree {A B} (f g : A -> option B) (l : list A) :
  (forall a, a ∈ l -> f a = g a) -> omap f l = omap g l.
Proof.
  induction l as [|x l IH]; intros Hfg; [done|]. simpl. rewrite (Hfg x) by set_solver.
  case_match; [f_equal|]; apply IH; set_solver.
Qed.

(** ** Selection *)

Lemma eligible_pools_spec request l l' :
  eligible_pools request l = Ok l' ->
  forall pid e, (pid, e) ∈ l' <-> (pid, e) ∈ l /\ eligible request e = Ok true.
Proof.
  revert l'. induction l as [|[q x] l IH]; intros l' E pid e; simpl in E.
  { injection E as <-. set_solver. }
  destruct (eligible request x) as [b| |] eqn:Eb; try done. simpl in E.
  destruct (eligible_pools request l) as [rest| |]; try done. injection E as <-.
  specialize (IH rest eq_refl pid e). destruct b; rewrite ?elem_of_cons, IH.
  - split; [intros [[= -> ->]|[? ?]]|intros [[[= -> ->]|?] ?]]; auto.
  - split; [tauto|]. intros [[[= -> ->]|?] ?]; [congruence|done].
Qed.

Lemma eligible_pools_total request l :
  (forall pid e, (pid, e) ∈ l -> is_Some (e_pool e)) -> exists l', eligible_pools request l = Ok l'.
Proof.
  induction l as [|[q x] l IH]; intros Hl; [by eexists|]. simpl.
  destruct IH as [l' ->]; [set_solver|]. destruct (Hl q x) as [p Hp]; [set_solver|].
  unfold eligible, has_capacity. rewrite Hp. repeat case_match; simpl; eauto.
Qed.

Lemma utilizations_spec l us :
  utilizations l = Ok us ->
  forall pid u, (pid, u) ∈ us <-> exists e, (pid, e) ∈ l /\ utilization_percent e = Ok u.
Proof.
  unfold utilizations. revert us. induction l as [|[q x] l IH]; intros us E pid u; simpl in E.
  { injection E as <-. set_solver. }
  destruct (utilization_percent x) as [v| |] eqn:Ev; try done. simpl in E.
  destruct (otraverse _ l) as [rest| |]; try done. injection E as <-.
  rewrite elem_of_cons, (IH rest eq_refl pid u). split.
  - intros [[= -> ->]|(e & ? & ?)]; [exists x|exists e]; set_solver.
  - intros (e & He & Hu). apply elem_of_cons in He as [[= -> ->]|?]; [left; congruence|right; eauto].
Qed.

Lemma utilizations_total l :
  (forall pid e, (pid, e) ∈ l -> is_Some (e_pool e)) ->
  exists us, utilizations l = Ok us /\ length us = length l.
Proof.
  unfold utilizations. induction l as [|[q x] l IH]; intros Hl; [by eexists|]. simpl.
  destruct IH as (us & -> & Hlen); [set_solver|]. destruct (Hl q x) as [p Hp]; [set_solver|].
  unfold utilization_percent. rewrite Hp. case_match; simpl; eexists; (split; [done|simpl; lia]).
Qed.

(** [pid] is chosen among [l] with the best utilization, for an order [le]. *)
Definition best_pool (le : Z -> Z -> Prop) (l : list (IpPoolId * EnhancedIpPoolState))
    (pid : IpPoolId) : Prop :=
  exists e u, (pid, e) ∈ l /\ utilization_percent e = Ok u /\
    forall pid' e' u', (pid', e') ∈ l -> utilization_percent e' = Ok u' ->
      le (utilization_key u) (utilization_key u').

Lemma least_utilized_spec l :
  (forall pid e, (pid, e) ∈ l -> is_Some (e_pool e)) -> l <> [] ->
  exists pid, least_utilized l = Ok pid /\ best_pool Z.le l pid.
Proof.
  intros Hl Hne. destruct (utilizations_total l Hl) as (us & Hus & Hlen).
  unfold least_utilized, min_by_safe. rewrite Hus. simpl.
  destruct (min_by_key _ us) as [[pid u]|] eqn:Em.
  - exists pid. split; [done|]. apply min_by_key_spec in Em as [Hin Hmin].
    pose proof (utilizations_spec _ _ Hus) as Hspec.
    apply Hspec in Hin as (e & ? & ?). exists e, u. split_and!; try done.
    intros pid' e' u' ? ?. apply (Hmin (pid', u')). apply Hspec. eauto.
  - apply min_by_key_none in Em as ->. by destruct l.
Qed.

Lemma most_utilized_spec l :
  (forall pid e, (pid, e) ∈ l -> is_Some (e_pool e)) -> l <> [] ->
  exists pid, most_utilized l = Ok pid /\ best_pool Z.ge l pid.
Proof.
  intros Hl Hne. destruct (utilizations_total l Hl) as (us & Hus & Hlen).
  unfold most_utilized, max_by_safe. rewrite Hus. simpl.
  destruct (max_by_key _ us) as [[pid u]|] eqn:Em.
  - exists pid. split; [done|]. apply max_by_key_spec in Em as [Hin Hmax].
    pose proof (utilizations_spec _ _ Hus) as Hspec.
    apply Hspec in Hin as (e & ? & ?). exists e, u. split_and!; try done.
    intros pid' e' u' ? ?. apply Z.le_ge. apply (Hmax (pid', u')). apply Hspec. eauto.
  - apply max_by_key_none in Em as ->. by destruct l.
Qed.

(** What [select_pool] promises for its strategy, among the eligible pools. *)
Definition strategy_choice (request : IpAllocationRequest)
    (l : list (IpPoolId * EnhancedIpPoolState)) (pid : IpPoolId) : Prop :=
  (exists e, (pid, e) ∈ l) /\
  match req_selection_strategy request with
  | LeastUtilized => best_pool Z.le l pid
  | MostUtilized => best_pool Z.ge l pid
  | TopologyAware =>
      (exists h e, req_topology_hint request = Some h /\ (pid, e) ∈ l /\
         topology_hint (config (e_state e)) = Some h) \/
      ((forall h pid' e', req_topology_hint request = Some h -> (pid', e') ∈ l ->
          topology_hint (config (e_state e')) <> Some h) /\ best_pool Z.le l pid)
  | RoundRobin | Random => True
  end.

Lemma best_pool_in le l pid : best_pool le l pid -> exists e, (pid, e) ∈ l.
Proof. intros (e & _ & ? & _). by exists e. Qed.

Lemma topology_aware_spec hint l :
  (forall pid e, (pid, e) ∈ l -> is_Some (e_pool e)) -> l <> [] ->
  exists pid, topology_aware hint l = Ok pid /\ (exists e, (pid, e) ∈ l) /\
    ((exists h e, hint = Some h /\ (pid, e) ∈ l /\ topology_hint (config (e_state e)) = Some h) \/
     ((forall h pid' e', hint = Some h -> (pid', e') ∈ l ->
         topology_hint (config (e_state e')) <> Some h) /\ best_pool Z.le l pid)).
Proof.
  intros Hl Hne. unfold topology_aware. destruct hint as [h|].
  - destruct (List.find _ l) as [[pid e]|] eqn:Ef.
    + apply List.find_some in Ef as [Hin Hh]. apply list_elem_of_In in Hin.
      apply bool_decide_eq_true in Hh. exists pid. split_and!; [done|by exists e|].
      left. by exists h, e.
    + destruct (least_utilized_spec l Hl Hne) as (pid & Hpid & Hbest).
      exists pid. split_and!; [done|by eapply best_pool_in|]. right. split; [|done].
      intros h' pid' e' [= <-] Hin. apply list_elem_of_In in Hin.
      pose proof (List.find_none _ _ Ef _ Hin) as Hn. by apply bool_decide_eq_false in Hn.
  - destruct (least_utilized_spec l Hl Hne) as (pid & Hpid & Hbest).
    exists pid. split_and!; [done|by eapply best_pool_in|]. right. done.
Qed.
(** ** Lists *)

Lemma NoDup_fmap_inj_on {A B} (f : A -> B) (l : list A) :
  NoDup (f <$> l) -> forall x y, x ∈ l -> y ∈ l -> f x = f y -> x = y.
Proof.
  induction l as [|z l IH]; intros Hnd x y; [set_solver|].
  rewrite fmap_cons in Hnd. apply NoDup_cons in Hnd as [Hni Hnd].
  rewrite !elem_of_cons. intros [->|Hx] [->|Hy] Heq; [done| | |by apply IH].
  - destruct Hni. rewrite Heq. by apply list_elem_of_fmap_2.
  - destruct Hni. rewrite <- Heq. by apply list_elem_of_fmap_2.
Qed.

Lemma NoDup_fmap_filter {A B} (f : A -> B) (P : A -> Prop) `{forall x, Decision (P x)} (l : list A) :
  NoDup (f <$> l) -> NoDup (f <$> filter P l).
Proof.
  induction l as [|z l IH]; intros Hnd; [done|].
  rewrite fmap_cons in Hnd. apply NoDup_cons in Hnd as [Hni Hnd].
  rewrite filter_cons. case_decide; [|by apply IH]. rewrite fmap_cons. apply NoDup_cons.
  split; [|by apply IH]. intros Hin. apply Hni. apply list_elem_of_fmap in Hin as (y & -> & Hy).
  apply list_elem_of_filter in Hy as [_ Hy]. by apply list_elem_of_fmap_2.
Qed.

Lemma omap_fmap_inverse {A B} (f : A -> B) (g : B -> option A) (l : list A) :
  (forall x, x ∈ l -> g (f x) = Some x) -> omap g (f <$> l) = l.
Proof.
  induction l as [|z l IH]; intros Hg; [done|]. simpl. rewrite Hg by set_solver.
  f_equal. apply IH. set_solver.
Qed.

(** ** Loading *)

(** [e] is the pool that loading [c] with the allocations [allocs] builds. *)
Definition loaded (allocs : list IpAllocation) (c : IpPoolConfig) (e : EnhancedIpPoolState) : Prop :=
  enhanced_inv e /\ e_factory_config e = c /\ config (e_state e) = c /\
  forall a, a ∈ allocated_ips (e_state e) <->
    exists al, al ∈ allocs /\ alloc_ip al = a /\ alloc_pool_id al = id c.

(** What is asked of stored data: proper ranges that do not meet, one pool per
    identifier, one allocation per address, and each allocation from the range
    of a stored pool. *)
Record stored_ok (configs : list IpPoolConfig) (allocs : list IpAllocation) : Prop := mkStored {
  stored_range : forall c, c ∈ configs -> range_ok c;
  stored_ids : NoDup (id <$> configs);
  stored_disjoint : forall c1 c2 a, c1 ∈ configs -> c2 ∈ configs ->
    searched c1 a -> searched c2 a -> id c1 = id c2;
  stored_ips : NoDup (alloc_ip <$> allocs);
  stored_count : Z.of_nat (length allocs) < 2 ^ 63;
  stored_pools : forall al, al ∈ allocs ->
    exists c, c ∈ configs /\ id c = alloc_pool_id al /\ searched c (alloc_ip al)
}.

Lemma mark_allocated_spec allocs s s' :
  NoDup (alloc_ip <$> allocs) ->
  (forall al, al ∈ allocs -> alloc_ip al ∉ allocated_ips s) ->
  total_allocated s = Z.of_nat (size (allocated_ips s)) ->
  Z.of_nat (size (allocated_ips s)) + Z.of_nat (length allocs) < 2 ^ 63 ->
  mark_allocated allocs s = Ok s' ->
  config s' = config s /\
  total_allocated s' = Z.of_nat (size (allocated_ips s')) /\
  Z.of_nat (size (allocated_ips s')) < 2 ^ 63 /\
  forall a, a ∈ allocated_ips s' <-> a ∈ allocated_ips s \/
    exists al, al ∈ allocs /\ alloc_ip al = a /\ alloc_pool_id al = id (config s).
Proof.
  revert s. induction allocs as [|al allocs IH]; intros s Hnd Hfresh Htot Hsz E.
  { simpl in E. injection E as <-. simpl in Hsz. split_and!; try (done || lia). set_solver. }
  simpl in E. rewrite fmap_cons in Hnd. apply NoDup_cons in Hnd as [Hni Hnd]. simpl length in Hsz.
  destruct (Z.eqb_spec (alloc_pool_id al) (id (config s))) as [Hid|Hid].
  - rewrite arith_u_fits in E by (unfold fits_u; lia). simpl in E.
    assert (Hnew : Z.of_nat (size ({[alloc_ip al]} ∪ allocated_ips s)) =
      Z.of_nat (size (allocated_ips s)) + 1).
    { pose proof (Hfresh al ltac:(set_solver)). rewrite size_union, size_singleton; [lia|set_solver]. }
    apply IH in E as (Hc & Ht & Hs & Hmem); simpl; try (done || lia).
    + simpl in *. split_and!; try done. intros a. rewrite Hmem.
      setoid_rewrite elem_of_cons. set_solver.
    + intros bl Hbl. rewrite elem_of_union, elem_of_singleton. intros [Heq|Hin].
      * apply Hni. rewrite <- Heq. by apply list_elem_of_fmap_2.
      * apply (Hfresh bl); set_solver.
  - apply IH in E as (Hc & Ht & Hs & Hmem); try (done || lia).
    + split_and!; try done. intros a. rewrite Hmem. setoid_rewrite elem_of_cons. naive_solver.
    + intros bl Hbl. apply Hfresh. set_solver.
Qed.

Lemma load_pool_spec allocs c m m' :
  NoDup (alloc_ip <$> allocs) -> Z.of_nat (length allocs) < 2 ^ 63 ->
  load_pool allocs c m = (Ok tt, m') ->
  exists e, loaded allocs c e /\ m' = set_pools (<[id c := e]> (pools m)) m.
Proof.
  intros Hnd Hlen E. unfold load_pool in E. inv_st E.
  match goal with Hx : mark_allocated _ _ = Ok ?s0, Hy : from_existing_state _ = Ok ?e0 |- _ =>
    rename Hx into Hmark, Hy into Hfrom, s0 into s, e0 into e end.
  apply mark_allocated_spec in Hmark as (Hc & Ht & Hs & Hmem); simpl; try done.
  apply from_existing_inv in Hfrom as (Hi & Hst & Hf & _); try done. simpl in *. exists e.
  rewrite Hst, Hc. split; [|done]. unfold loaded. rewrite Hst, Hf, Hc. split_and!; try done.
  intros b. rewrite Hmem. set_solver.
Qed.

Lemma load_pools_spec allocs configs m m' :
  NoDup (alloc_ip <$> allocs) -> Z.of_nat (length allocs) < 2 ^ 63 ->
  NoDup (id <$> configs) -> (forall c, c ∈ configs -> pools m !! id c = None) ->
  sfor (load_pool allocs) configs m = (Ok tt, m') ->
  allocations m' = allocations m /\ vm_allocations m' = vm_allocations m /\
  (forall pid e, pools m' !! pid = Some e -> pools m !! pid = Some e \/
     exists c, c ∈ configs /\ id c = pid /\ loaded allocs c e) /\
  (forall pid e, pools m !! pid = Some e -> pools m' !! pid = Some e) /\
  (forall c, c ∈ configs -> exists e, pools m' !! id c = Some e).
Proof.
  intros Hnd Hlen. revert m. induction configs as [|c configs IH]; intros m Hids Hfresh E.
  { simpl in E. unfold sret in E. injection E as <-. split_and!; try done; [by left|set_solver]. }
  rewrite fmap_cons in Hids. apply NoDup_cons in Hids as [Hni Hids].
  simpl in E. unfold sbind in E. destruct (load_pool allocs c m) as [[[]| |] m1] eqn:E1; try done.
  apply load_pool_spec in E1 as (e & Hl & ->); try done.
  apply IH in E as (Ha & Hv & Hsub & Hkeep & Hall); [|done|]; simpl in *.
  2:{ intros c' Hc'. rewrite lookup_insert_ne; [apply Hfresh; set_solver|].
      intros Heq. apply Hni. rewrite Heq. by apply list_elem_of_fmap_2. }
  split_and!; try done.
  - intros pid x Hx. apply Hsub in Hx as [Hx|(c' & ? & ?)]; [|right; exists c'; set_solver].
    apply lookup_insert_Some in Hx as [[<- <-]|[? ?]]; [right; exists c; set_solver|by left].
  - intros pid x Hx. apply Hkeep. rewrite lookup_insert_ne; [done|]. intros <-.
    rewrite Hfresh in Hx by set_solver. done.
  - intros c' Hc'. apply elem_of_cons in Hc' as [->|Hc']; [|by apply Hall].
    exists e. apply Hkeep. by rewrite lookup_insert_eq.
Qed.

Lemma load_allocations_spec allocs m m' o :
  NoDup (alloc_ip <$> allocs) -> sfor load_allocation allocs m = (o, m') ->
  o = Ok tt /\ pools m' = pools m /\
  (forall vm, ips_of m' vm = ips_of m vm ++ (alloc_ip <$> filter (fun al => alloc_vm_id al = vm) allocs)) /\
  (forall a al, allocations m' !! a = Some al <->
     (al ∈ allocs /\ alloc_ip al = a) \/ (a ∉ alloc_ip <$> allocs /\ allocations m !! a = Some al)).
Proof.
  revert m. induction allocs as [|al allocs IH]; intros m Hnd E; simpl in E.
  { unfold sret in E. injection E as <- <-. split_and!; try done.
    - intros vm. by rewrite app_nil_r.
    - set_solver. }
  rewrite fmap_cons in Hnd. apply NoDup_cons in Hnd as [Hni Hnd].
  unfold sbind, load_allocation at 1, smodify in E.
  apply IH in E as (Ho & Hp & Hips & Hal); [|done]. split_and!; try done.
  - intros vm. rewrite Hips. unfold ips_of at 1. simpl. rewrite push_vm_ip_lookup, filter_cons.
    case_bool_decide as Hv; case_decide; try congruence; [|done]. subst.
    rewrite fmap_cons, <- app_assoc. done.
  - intros a bl. rewrite Hal, fmap_cons, elem_of_cons, not_elem_of_cons. cbn [allocations].
    destruct (decide (a = alloc_ip al)) as [->|Hne].
    + rewrite lookup_insert_eq. split; [naive_solver|].
      intros [[[->|Hin] Heq]|[[? _] _]]; [by right|by left|done].
    + rewrite lookup_insert_ne by done. split; [naive_solver|].
      intros [[[->|Hin] Heq]|[[_ ?] ?]]; [done|by left|by right].
Qed.

(** * Properties *)

(** C13: no address is given to two VMs. From an empty manager, in every
    interleaving of pool commands (pools created with ranges that do not meet),
    pool choices, allocations and releases, the invariant holds: the pools'
    allocated sets are exactly what the allocation map records, and an address
    listed for two VMs is one allocation of one VM. *)
Theorem reachable_ips_exclusive m :
  rtc mgr_step manager_new m ->
  mgr_inv m /\
  forall vm1 vm2 al1 al2, al1 ∈ get_vm_allocations m vm1 -> al2 ∈ get_vm_allocations m vm2 ->
    alloc_ip al1 = alloc_ip al2 -> vm1 = vm2 /\ al1 = al2.
Proof.
  intros Hr. assert (Hinv : mgr_inv m).
  { apply (rtc_invariant _ mgr_inv mgr_step_inv _ _ Hr), manager_new_inv. }
  split; [done|]. intros vm1 vm2 al1 al2.
  rewrite !elem_of_vm_allocations. intros (a1 & Hl1 & Ha1) (a2 & Hl2 & Ha2) Heq.
  destruct (inv_owned _ _ Hinv _ _ Ha1) as [<- _].
  destruct (inv_owned _ _ Hinv _ _ Ha2) as [<- _].
  destruct (listed_recorded _ _ _ Hinv Hl1) as (? & ? & <-).
  destruct (listed_recorded _ _ _ Hinv Hl2) as (? & ? & <-). naive_solver congruence.
Qed.

(** Releasing a VM's addresses always succeeds, keeps the invariant, leaves
    the VM without allocations and every other VM's allocations as they were,
    and frees each address in every pool. *)
Theorem release_vm_ips_frees vm m :
  mgr_inv m ->
  exists m', release_vm_ips vm m = (Ok tt, m') /\ mgr_inv m' /\
    get_vm_allocations m' vm = [] /\
    (forall vm', vm' <> vm -> get_vm_allocations m' vm' = get_vm_allocations m vm') /\
    (forall a pid e, a ∈ ips_of m vm -> pools m' !! pid = Some e -> a ∉ allocated_ips (e_state e)).
Proof.
  intros Hinv. destruct (release_vm_ips_result vm m Hinv) as (m' & E & Hinv' & Hv & Ha).
  exists m'. split_and!; [done|done| | |].
  - unfold get_vm_allocations. by rewrite Hv, lookup_delete_eq.
  - intros vm' Hne. rewrite !get_vm_allocations_eq. unfold ips_of at 1.
    rewrite Hv, lookup_delete_ne by done. apply omap_agree. intros b Hb.
    rewrite Ha, bool_decide_false; [done|]. intros Hb'.
    destruct (listed_recorded _ _ _ Hinv Hb) as (? & ? & ?).
    destruct (listed_recorded _ _ _ Hinv Hb') as (? & ? & ?). congruence.
  - intros b pid e Hb He Hin. apply (inv_allocated _ _ Hinv' _ _ _ He) in Hin as (al & Hal & _).
    rewrite Ha, bool_decide_true in Hal; done.
Qed.

(** An allocation is read back: when [allocate_ip] returns an allocation, it
    is for the requesting VM with its MAC address, its address is the one in the
    network configuration, it is the last of the VM's allocations, the VM's
    other allocations and the other VMs' are unchanged, and the invariant holds. *)
Theorem allocate_ip_roundtrip rnd now1 now2 request m r m' :
  mgr_inv m -> allocate_ip rnd now1 now2 request m = (Ok r, m') ->
  mgr_inv m' /\
  alloc_vm_id (allocation r) = req_vm_id request /\
  alloc_mac_address (allocation r) = req_mac_address request /\
  (exists e, pools m !! alloc_pool_id (allocation r) = Some e /\
     alloc_ip (allocation r) ∉ allocated_ips (e_state e)) /\
  get_vm_allocations m' (req_vm_id request) =
    get_vm_allocations m (req_vm_id request) ++ [allocation r] /\
  forall vm, vm <> req_vm_id request -> get_vm_allocations m' vm = get_vm_allocations m vm.
Proof.
  intros Hinv E. unfold allocate_ip, sbind in E.
  destruct (choose_pool rnd request m) as [[pid| |] m1] eqn:Ec; try done.
  apply choose_pool_frame in Ec as (Hp & Ha & Hv).
  pose proof (inv_frame _ _ _ Hp Ha Hv Hinv) as Hinv1.
  assert (Hg : forall vm, get_vm_allocations m vm = get_vm_allocations m1 vm).
  { intros vm. unfold get_vm_allocations. by rewrite Ha, Hv. }
  pose proof (allocate_from_inv _ _ _ _ _ _ _ Hinv1 E) as Hinv'.
  pose proof (allocate_from_result now1 now2 pid request m1 Hinv1) as Hres.
  destruct (pools m1 !! pid) as [e|] eqn:He; [|congruence].
  destruct Hres as [[err Herr]|(a & al & nc & -> & Hfresh & Hs & _ & Hok)]; [congruence|].
  rewrite Hok in E. injection E as <- <-. simpl. rewrite <- Hp.
  pose proof (fresh_unrecorded _ _ _ _ Hinv1 He Hfresh Hs) as Hno.
  assert (Hold : forall vm, omap (fun b => <[a := mkIpAllocation a pid (req_vm_id request)
      (req_mac_address request) now2 None]> (allocations m1) !! b) (ips_of m1 vm) =
      get_vm_allocations m1 vm).
  { intros vm. rewrite get_vm_allocations_eq. apply omap_agree. intros b Hb.
    destruct (listed_recorded _ _ _ Hinv1 Hb) as (bl & Hbl & _).
    rewrite lookup_insert_ne; [done|congruence]. }
  split_and!; try done; [by exists e| |].
  - rewrite (get_vm_allocations_eq (record_allocation _ _)). unfold ips_of; simpl.
    rewrite push_vm_ip_lookup, bool_decide_true, omap_app by done. simpl.
    rewrite lookup_insert_eq, Hg, <- Hold. done.
  - intros vm Hne. rewrite (get_vm_allocations_eq (record_allocation _ _)). unfold ips_of; simpl.
    rewrite push_vm_ip_lookup, bool_decide_false by done. by rewrite Hg, <- Hold.
Qed.

(** Selecting a pool without a preference fails exactly when no pool is
    eligible (enabled, with the required tags, a compatible topology hint and
    capacity); otherwise it returns an eligible pool, the one with the least or
    greatest utilization for those strategies, and for the topology-aware one a
    pool with the requested hint if there is one and the least utilized
    otherwise. It never panics and changes only the round-robin counter. *)
Theorem select_pool_correct rnd request m :
  mgr_inv m -> 0 <= round_robin_counter m < 2 ^ 64 - 1 ->
  let '(o, m') := select_pool rnd request m in
  pools m' = pools m /\ allocations m' = allocations m /\ vm_allocations m' = vm_allocations m /\
  exists l, (forall pid e, (pid, e) ∈ l <-> pools m !! pid = Some e /\ eligible request e = Ok true) /\
    match o with
    | Ok pid => strategy_choice request l pid
    | Err err => err = ResourceExhausted "IP pools matching requirements" /\ l = []
    | Panic => False
    end.
Proof.
  intros Hinv Hcnt. unfold select_pool. unfold_st.
  assert (Hpools : forall pid e, (pid, e) ∈ hash_iter (pools m) -> is_Some (e_pool e)).
  { intros pid e Hin. apply elem_of_hash_iter in Hin.
    destruct (inv_pool _ _ Hinv _ _ Hin) as ((p & cap & Hp & _) & _). eauto. }
  destruct (eligible_pools_total request _ Hpools) as [l Hl]. rewrite Hl.
  pose proof (eligible_pools_spec _ _ _ Hl) as Hspec. setoid_rewrite elem_of_hash_iter in Hspec.
  assert (Hlp : forall pid e, (pid, e) ∈ l -> is_Some (e_pool e)).
  { intros pid e Hin. apply Hspec in Hin as [Hin _]. apply (Hpools pid).
    by apply elem_of_hash_iter. }
  destruct (Nat.eqb_spec (length l) 0) as [Hz|Hz].
  { split_and!; try done. exists l. split; [done|]. by destruct l. }
  assert (Hne : l <> []) by (by intros ->). unfold strategy_choice.
  destruct (req_selection_strategy request).
  - destruct (least_utilized_spec l Hlp Hne) as (pid & -> & Hb). split_and!; try done.
    exists l. split_and!; try done. by eapply best_pool_in.
  - destruct (most_utilized_spec l Hlp Hne) as (pid & -> & Hb). split_and!; try done.
    exists l. split_and!; try done. by eapply best_pool_in.
  - unfold round_robin. unfold_st. rewrite arith_u_fits by (unfold fits_u; lia). simpl.
    destruct (nth_error l _) as [[pid e]|] eqn:En; simpl.
    + split_and!; try done. exists l. split_and!; try done. exists e.
      apply list_elem_of_In. by eapply nth_error_In.
    + apply nth_error_None in En.
      assert (0 <= round_robin_counter m mod Z.of_nat (length l) < Z.of_nat (length l))
        by (apply Z.mod_pos_bound; lia). lia.
  - destruct (topology_aware_spec (req_topology_hint request) l Hlp Hne) as (pid & -> & ? & ?).
    split_and!; try done. by exists l.
  - unfold choose_random, ok_or. rewrite length_map.
    destruct (nth_error (map fst l) _) as [pid|] eqn:En.
    + split_and!; try done. exists l. split_and!; try done.
      apply nth_error_In, in_map_iff in En as ([q e] & <- & Hin). exists e. by apply list_elem_of_In.
    + apply nth_error_None in En. rewrite length_map in En.
      pose proof (Nat.mod_upper_bound rnd (length l)). lia.
Qed.

(** Reserving addresses has no effect on allocation: after a successful
    [reserve_ips], every allocation from the pool has the outcome it would have
    had without it, so a reserved address can still be given to a VM (the pool's
    factory keeps the configuration the pool was created with). *)
Theorem reserve_ips_not_honoured pid ips m m1 now1 now2 request :
  mgr_inv m -> reserve_ips pid ips m = (Ok tt, m1) ->
  fst (allocate_from now1 now2 pid request m1) = fst (allocate_from now1 now2 pid request m).
Proof.
  intros Hinv E. unfold reserve_ips, modify_pool in E. inv_st E.
  unfold allocate_from. unfold_st. simpl. rewrite lookup_insert_eq.
  match goal with Hx : pools m !! pid = Some ?e |- _ => rewrite Hx; rename e into e0;
    destruct (inv_pool _ _ Hinv _ _ Hx) as (Hi & _ & _) end.
  rewrite !allocate_ip_eq by (try apply set_config_inv; done). simpl.
  replace (pool_permits (set_config _ e0)) with (pool_permits e0) by done.
  destruct (pool_permits e0 <=? 0); [done|].
  destruct (find_next_available_ip _ _) as [[b|]| |]; done.
Qed.
(** A restart restores the allocations: loading stored pools and
    allocations into an empty manager, when it succeeds, establishes the
    invariant, and each VM has exactly its stored allocations, in their stored
    order. *)
Theorem load_from_storage_restores configs allocs m :
  stored_ok configs allocs -> load_from_storage configs allocs manager_new = (Ok tt, m) ->
  mgr_inv m /\
  forall vm, get_vm_allocations m vm = filter (fun al => alloc_vm_id al = vm) allocs.
Proof.
  intros [Hrange Hids Hdis Hnd Hlen Hpools] E. unfold load_from_storage, sbind in E.
  destruct (sfor (load_pool allocs) configs manager_new) as [[[]| |] m1] eqn:E1; try done.
  apply load_pools_spec in E1 as (Ha1 & Hv1 & Hsub & _ & Hall); try done.
  apply load_allocations_spec in E as (_ & Hp & Hips & Hal); [|done].
  assert (Hpool : forall pid e, pools m !! pid = Some e ->
    exists c, c ∈ configs /\ id c = pid /\ loaded allocs c e).
  { intros pid e. rewrite Hp. intros He. by apply Hsub in He as [He|?]. }
  assert (Hrec : forall a al, allocations m !! a = Some al <-> al ∈ allocs /\ alloc_ip al = a).
  { intros a al. rewrite Hal, Ha1. simpl. rewrite lookup_empty. naive_solver. }
  assert (Hlist : forall vm, ips_of m vm = alloc_ip <$> filter (fun al => alloc_vm_id al = vm) allocs).
  { intros vm. rewrite Hips. unfold ips_of. rewrite Hv1. simpl. by rewrite lookup_empty. }
  split; [split|].
  - intros pid e He. destruct (Hpool _ _ He) as (c & Hc & <- & Hi & Hf & Hcf & _).
    rewrite Hf, Hcf. split_and!; auto.
  - intros p1 p2 e1 e2 a He1 He2. destruct (Hpool _ _ He1) as (c1 & ? & <- & _ & -> & _).
    destruct (Hpool _ _ He2) as (c2 & ? & <- & _ & -> & _). by apply Hdis.
  - intros a al Ha. apply Hrec in Ha as [Hin <-]. split; [done|]. split.
    + destruct (Hpools al Hin) as (c & Hc & <- & Hs). destruct (Hall c Hc) as [e He].
      exists e. rewrite Hp. split; [done|]. rewrite <- Hp in He.
      destruct (Hpool _ _ He) as (c' & Hc' & Hid & _ & -> & _).
      by rewrite (NoDup_fmap_inj_on _ _ Hids c' c Hc' Hc Hid).
    + right. rewrite Hlist. apply list_elem_of_fmap_2. by apply list_elem_of_filter.
  - intros pid e a He. destruct (Hpool _ _ He) as (c & _ & <- & _ & _ & _ & Hmem).
    rewrite Hmem. setoid_rewrite Hrec. naive_solver.
  - intros vm ips Hvm. assert (ips = ips_of m vm) as -> by (unfold ips_of; by rewrite Hvm).
    rewrite Hlist. split; [by apply NoDup_fmap_filter|]. intros a Ha. split; [set_solver|].
    apply list_elem_of_fmap in Ha as (al & -> & Hf). apply list_elem_of_filter in Hf as [<- Hin].
    exists al. by rewrite Hrec.
  - split; [constructor|set_solver].
  - intros vm. rewrite get_vm_allocations_eq, Hlist. apply omap_fmap_inverse.
    intros al Hin. apply list_elem_of_filter in Hin as [_ Hin]. by apply Hrec.
Qed.
End Manager.

(** * A concrete manager *)

#[local] Instance demo_profile : Profile := true.
#[local] Existing Instance prefix_nets.
#[local] Existing Instance canonical_iter.

Definition demo_vm (n : Z) : VmId := replicate 16 n.

Definition demo_request (n : Z) (pref : option IpPoolId) : IpAllocationRequest :=
  mkIpRequest (demo_vm n) pref ∅ None LeastUtilized "02:00:00:00:00:01".

(** A manager with one pool of two addresses, and one address allocated. *)
Definition demo1 : IpPoolManager := snd (process_command (CreatePool (test_pool 10 11)) manager_new).
Definition demo2 : IpPoolManager := snd (allocate_from 5 6 1 (demo_request 1 None) demo1).

Lemma demo1_step : mgr_step manager_new demo1.
Proof.
  eapply (mgr_step_command (CreatePool (test_pool 10 11))); [|reflexivity|done].
  split; [by apply test_pool_range|]. intros pid e a He. simpl in He. by rewrite lookup_empty in He.
Qed.

Lemma demo2_step : mgr_step demo1 demo2.
Proof. eapply (mgr_step_allocate 5 6 1 (demo_request 1 None) demo1), surjective_pairing. Qed.

Lemma demo2_inv : mgr_inv demo2.
Proof. eapply mgr_step_inv, demo2_step. eapply mgr_step_inv, demo1_step. apply manager_new_inv. Qed.

Lemma reachable_ips_exclusive_witness :
  mgr_inv demo2 /\
  forall vm1 vm2 al1 al2, al1 ∈ get_vm_allocations demo2 vm1 ->
    al2 ∈ get_vm_allocations demo2 vm2 -> alloc_ip al1 = alloc_ip al2 -> vm1 = vm2 /\ al1 = al2.
Proof.
  apply (reachable_ips_exclusive demo2).
  eapply rtc_l; [apply demo1_step|]. eapply rtc_l; [apply demo2_step|apply rtc_refl].
Defined.

Lemma release_vm_ips_frees_witness :
  ips_of demo2 (demo_vm 1) = [ten 10] /\
  exists m', release_vm_ips (demo_vm 1) demo2 = (Ok tt, m') /\ mgr_inv m' /\
    get_vm_allocations m' (demo_vm 1) = [] /\
    (forall vm', vm' <> demo_vm 1 -> get_vm_allocations m' vm' = get_vm_allocations demo2 vm') /\
    (forall a pid e, a ∈ ips_of demo2 (demo_vm 1) -> pools m' !! pid = Some e ->
       a ∉ allocated_ips (e_state e)).
Proof. split; [by vm_compute|]. apply (release_vm_ips_frees (demo_vm 1) demo2), demo2_inv. Defined.

Definition demo_result : BlixardResult IpAllocationResult * IpPoolManager :=
  allocate_ip 0 7 8 (demo_request 2 None) demo2.

(** The address an allocation returned. *)
Definition served (o : BlixardResult IpAllocationResult) : option IpAddr :=
  match o with Ok r => Some (alloc_ip (allocation r)) | _ => None end.

Lemma served_ok o a : served o = Some a -> exists r, o = Ok r /\ alloc_ip (allocation r) = a.
Proof. destruct o; simpl; intros; simplify_eq; eauto. Qed.

Lemma demo_result_served : served (fst demo_result) = Some (ten 11).
Proof. vm_compute. reflexivity. Qed.

Lemma allocate_ip_roundtrip_witness :
  exists r m', demo_result = (Ok r, m') /\ alloc_ip (allocation r) = ten 11 /\
    mgr_inv m' /\
    alloc_vm_id (allocation r) = demo_vm 2 /\
    alloc_mac_address (allocation r) = "02:00:00:00:00:01" /\
    (exists e, pools demo2 !! alloc_pool_id (allocation r) = Some e /\
       alloc_ip (allocation r) ∉ allocated_ips (e_state e)) /\
    get_vm_allocations m' (demo_vm 2) = get_vm_allocations demo2 (demo_vm 2) ++ [allocation r] /\
    forall vm, vm <> demo_vm 2 -> get_vm_allocations m' vm = get_vm_allocations demo2 vm.
Proof.
  destruct (served_ok _ _ demo_result_served) as (r & Hr & Ha). exists r, (snd demo_result).
  assert (E : demo_result = (Ok r, snd demo_result)) by (rewrite <- Hr; apply surjective_pairing).
  split; [exact E|]. split; [exact Ha|].
  apply (allocate_ip_roundtrip 0 7 8 (demo_request 2 None) demo2); [apply demo2_inv|exact E].
Defined.

Lemma select_pool_correct_witness :
  let '(o, m') := select_pool 0 (demo_request 2 None) demo2 in
  pools m' = pools demo2 /\ allocations m' = allocations demo2 /\
  vm_allocations m' = vm_allocations demo2 /\
  exists l, (forall pid e, (pid, e) ∈ l <->
      pools demo2 !! pid = Some e /\ eligible (demo_request 2 None) e = Ok true) /\
    match o with
    | Ok pid => strategy_choice (demo_request 2 None) l pid
    | Err err => err = ResourceExhausted "IP pools matching requirements" /\ l = []
    | Panic => False
    end.
Proof.
  apply (select_pool_correct 0 (demo_request 2 None) demo2); [apply demo2_inv|by vm_compute].
Defined.

(** The address 10.0.0.11 is reserved and then allocated. *)
Definition demo_reserved : BlixardResult unit * IpPoolManager := reserve_ips 1 {[ten 11]} demo2.

Lemma demo_reserved_ok : demo_reserved = (Ok tt, snd demo_reserved).
Proof. reflexivity. Qed.

Lemma demo_served_directly : served (fst (allocate_from 7 8 1 (demo_request 2 None) demo2)) = Some (ten 11).
Proof. vm_compute. reflexivity. Qed.

Lemma reserve_ips_not_honoured_witness :
  exists m1, reserve_ips 1 {[ten 11]} demo2 = (Ok tt, m1) /\
    served (fst (allocate_from 7 8 1 (demo_request 2 None) m1)) = Some (ten 11).
Proof.
  exists (snd demo_reserved). split; [exact demo_reserved_ok|].
  rewrite (reserve_ips_not_honoured 1 {[ten 11]} demo2 (snd demo_reserved) 7 8 (demo_request 2 None));
    [exact demo_served_directly|apply demo2_inv|exact demo_reserved_ok].
Defined.

(** What a VM was allocated from the concrete pool before a restart. *)
Definition demo_stored : list IpAllocation :=
  [mkIpAllocation (ten 11) 1 (demo_vm 2) "02:00:00:00:00:02" 6 None;
   mkIpAllocation (ten 10) 1 (demo_vm 1) "02:00:00:00:00:01" 5 None].

Definition demo_load : BlixardResult unit * IpPoolManager :=
  load_from_storage [test_pool 10 11] demo_stored manager_new.

Lemma demo_load_ok : is_ok (fst demo_load) = true.
Proof. vm_compute. reflexivity. Qed.

Lemma load_from_storage_restores_witness :
  exists m, load_from_storage [test_pool 10 11] demo_stored manager_new = (Ok tt, m) /\
    mgr_inv m /\
    forall vm, get_vm_allocations m vm = filter (fun al => alloc_vm_id al = vm) demo_stored.
Proof.
  pose proof demo_load_ok as Hok. destruct demo_load as [[[]| |] m] eqn:E; try discriminate Hok.
  exists m. split; [exact E|].
  apply (load_from_storage_restores [test_pool 10 11] demo_stored); [|exact E].
  split.
  - intros c ->%list_elem_of_singleton. by apply test_pool_range.
  - apply NoDup_singleton.
  - intros c1 c2 a ->%list_elem_of_singleton ->%list_elem_of_singleton. done.
  - apply (bool_decide_unpack _). by vm_compute.
  - by vm_compute.
  - intros al Hal. exists (test_pool 10 11). split; [set_solver|].
    repeat (apply elem_of_cons in Hal as [->|Hal]; [split; by vm_compute|]). set_solver.
Defined.

(** Two pools with the same range, and a VM served from each. *)
Definition demo_overlap : mgr (IpAllocationResult * IpAllocationResult) :=
  let second := mkIpPoolConfig 2 "second" (10 * 2 ^ 24, 24) None (ten 1) [] (ten 10) (ten 20)
                  None ∅ true ∅ in
  process_command (CreatePool (test_pool 10 11)) ;*
  process_command (CreatePool second) ;*
  let* r1 := allocate_ip 0 1 1 (demo_request 1 (Some 1)) in
  let* r2 := allocate_ip 0 2 2 (demo_request 2 (Some 2)) in
  sret (r1, r2).

(** What is observed after it: the VMs of the two allocations, their addresses,
    what the first VM has, and what the second has once the first released. *)
Definition demo_observed : option (VmId * VmId * IpAddr * IpAddr * list VmId * list VmId) :=
  match demo_overlap manager_new with
  | (Ok (r1, r2), m) =>
      match release_vm_ips (alloc_vm_id (allocation r1)) m with
      | (Ok _, m') => Some (alloc_vm_id (allocation r1), alloc_vm_id (allocation r2),
          alloc_ip (allocation r1), alloc_ip (allocation r2),
          map alloc_vm_id (get_vm_allocations m (alloc_vm_id (allocation r1))),
          map alloc_vm_id (get_vm_allocations m' (alloc_vm_id (allocation r2))))
      | _ => None
      end
  | _ => None
  end.

(** Nothing keeps two pools from overlapping: two pools with the same range
    are accepted and give the same address to two VMs; the first VM's allocation
    is then reported as the second VM's, and releasing the first VM's addresses
    takes the second VM's away. *)
Theorem overlapping_pools_share_ip :
  exists r1 r2 m m', demo_overlap manager_new = (Ok (r1, r2), m) /\
    alloc_vm_id (allocation r1) = demo_vm 1 /\ alloc_vm_id (allocation r2) = demo_vm 2 /\
    alloc_ip (allocation r1) = alloc_ip (allocation r2) /\
    map alloc_vm_id (get_vm_allocations m (demo_vm 1)) = [demo_vm 2] /\
    release_vm_ips (demo_vm 1) m = (Ok tt, m') /\
    get_vm_allocations m' (demo_vm 2) = [].
Proof.
  assert (Hobs : demo_observed =
    Some (demo_vm 1, demo_vm 2, ten 10, ten 10, [demo_vm 2], [])) by (vm_compute; reflexivity).
  unfold demo_observed in Hobs. destruct (demo_overlap manager_new) as [[[r1 r2]| |] m] eqn:E; try done.
  destruct (release_vm_ips _ m) as [[[]| |] m'] eqn:Er; try done.
  injection Hobs as H1 H2 H3 H4 H5 H6. rewrite H1, ?H2 in *. exists r1, r2, m, m'.
  split_and!; try congruence. by apply map_eq_nil in H6.
Qed.
