(* ===== verification/IpLocks.v ===== *)
(** The locks of the IP pool manager (blixard-core/src/ip_pool_manager.rs): the
    order in which each operation takes and releases the four [RwLock]s, and
    what interleaved operations can do.

    A reader is let in whenever no writer holds the lock, a writer whenever
    nobody does; queueing inside a lock can only delay a step further. *)

From Stdlib Require Import ZArith Lia List.
From stdpp Require Import base tactics numbers option.
From stdpp Require Import list relations.
From S2P Require Import Prelude.

(** * Locks and operations *)

Inductive lock : Type := LPools | LAllocations | LVmAllocations | LRoundRobin.
Inductive mode : Type := Read | Write.
Inductive action : Type := Acq (l : lock) (m : mode) | Rel (l : lock).

#[export] Instance lock_eq_dec : EqDecision lock.
Proof. solve_decision. Defined.
#[export] Instance mode_eq_dec : EqDecision mode.
Proof. solve_decision. Defined.

Inductive operation : Type :=
| OpLoad | OpPoolCommand | OpAllocateIp | OpReleaseVmIps | OpGetPools | OpGetVmAllocations
| OpGetPoolStats.

(** The paths of an operation through its lock operations; guards are released
    in reverse order when the function returns.  [allocate_ip] returns early
    when no pool can be chosen, takes the counter's lock inside the read lock
    for the round-robin strategy, and drops the read lock before it takes the
    write locks; an allocation the pool refuses returns before the two maps are
    locked. *)
Definition paths (op : operation) : list (list action) :=
  let one l m := [Acq l m; Rel l] in
  let allocate := [Acq LPools Write; Acq LAllocations Write; Acq LVmAllocations Write;
                   Rel LVmAllocations; Rel LAllocations; Rel LPools] in
  let select := one LPools Read in
  let select_rr := [Acq LPools Read; Acq LRoundRobin Write; Rel LRoundRobin; Rel LPools] in
  match op with
  | OpLoad => [allocate]
  | OpPoolCommand => [one LPools Write]
  | OpAllocateIp => [select; select ++ one LPools Write; select ++ allocate;
                     select_rr ++ one LPools Write; select_rr ++ allocate]
  | OpReleaseVmIps =>
      [[Acq LAllocations Write; Acq LVmAllocations Write; Acq LPools Write;
        Rel LPools; Rel LVmAllocations; Rel LAllocations]]
  | OpGetPools | OpGetPoolStats => [one LPools Read]
  | OpGetVmAllocations =>
      [[Acq LAllocations Read; Acq LVmAllocations Read; Rel LVmAllocations; Rel LAllocations]]
  end.

(** * Interleaving *)

(** A task: the locks it holds and what it has left to do. *)
Record task : Type := mkTask { held : list (lock * mode); todo : list action }.

Definition conflicts (l : lock) (m : mode) (h : lock * mode) : bool :=
  bool_decide (l = h.1) && (bool_decide (m = Write) || bool_decide (h.2 = Write)).

Definition blocks (l : lock) (m : mode) (t : task) : bool := existsb (conflicts l m) (held t).

(** One action of a task, when the locks held by all tasks allow it. *)
Definition task_step (all : list task) (t : task) : option task :=
  match todo t with
  | [] => None
  | Acq l m :: rest =>
      if existsb (blocks l m) all then None else Some (mkTask ((l, m) :: held t) rest)
  | Rel l :: rest => Some (mkTask (List.filter (fun h => negb (bool_decide (l = h.1))) (held t)) rest)
  end.

Inductive tasks_step : list task -> list task -> Prop :=
| tasks_step_one ts i t t' :
    ts !! i = Some t -> task_step ts t = Some t' -> tasks_step ts (<[i := t']> ts).

(** Tasks that start the given operations, each on one of its paths. *)
Definition starts (ops : list operation) (ts : list task) : Prop :=
  Forall2 (fun op t => held t = [] /\ todo t ∈ paths op) ops ts.

Definition finished (t : task) : bool := match todo t with [] => true | _ => false end.

(** Some task is not finished and none can move. *)
Definition deadlocked (ts : list task) : Prop :=
  existsb (fun t => negb (finished t)) ts = true /\ forall ts', ~ tasks_step ts ts'.

(** * Lock order *)

Definition rank (l : lock) : nat :=
  match l with LPools => 0 | LAllocations => 1 | LVmAllocations => 2 | LRoundRobin => 3 end.

(** From the locks held, the rest of the path takes locks in increasing rank,
    releases all it holds, and releases only what it holds. *)
Fixpoint ordered (held : list (lock * mode)) (path : list action) : bool :=
  match path with
  | [] => match held with [] => true | _ => false end
  | Acq l m :: rest =>
      forallb (fun h => (rank h.1 <? rank l)%nat) held && ordered ((l, m) :: held) rest
  | Rel l :: rest => ordered (List.filter (fun h => negb (bool_decide (l = h.1))) held) rest
  end.

Definition task_ordered (t : task) : Prop := ordered (held t) (todo t) = true.

Lemma task_step_ordered all t t' : task_ordered t -> task_step all t = Some t' -> task_ordered t'.
Proof.
  unfold task_ordered, task_step. destruct (todo t) as [|[l m|l] rest]; [done| |]; simpl.
  - intros Ho. case_match; [done|]. intros [= <-]. by bools.
  - intros Ho [= <-]. done.
Qed.

Lemma tasks_step_ordered ts ts' :
  Forall task_ordered ts -> tasks_step ts ts' -> Forall task_ordered ts'.
Proof.
  intros Ho Hs. revert Ho. destruct Hs as [ts i t t' Hi Ht]. intros Ho.
  apply Forall_insert; [done|]. eapply task_step_ordered; [|done].
  by eapply (Forall_lookup_1 _ _ _ _ Ho).
Qed.

(** What an unfinished task that cannot move waits for. *)
Lemma stuck_waits ts i t :
  ts !! i = Some t -> finished t = false -> (forall ts', ~ tasks_step ts ts') ->
  exists l m rest t', todo t = Acq l m :: rest /\ t' ∈ ts /\ blocks l m t' = true.
Proof.
  intros Hi Hf Hstuck. unfold finished in Hf.
  destruct (todo t) as [|[l m|l] rest] eqn:Et; [done| |].
  - destruct (existsb (blocks l m) ts) eqn:Eb.
    + apply existsb_exists in Eb as (t' & Hin & Hb). exists l, m, rest, t'.
      by rewrite list_elem_of_In.
    + exfalso. eapply Hstuck, (tasks_step_one _ i t); [done|]. unfold task_step. by rewrite Et, Eb.
  - exfalso. eapply Hstuck, (tasks_step_one _ i t); [done|]. unfold task_step. by rewrite Et.
Qed.

(** An ordered task that waits holds only locks of smaller rank. *)
Lemma ordered_waits t l m rest h :
  task_ordered t -> todo t = Acq l m :: rest -> h ∈ held t -> (rank h.1 < rank l)%nat.
Proof.
  unfold task_ordered. intros Ho Et Hin. rewrite Et in Ho. simpl in Ho. bools.
  apply Nat.ltb_lt. rewrite forallb_forall in *. match goal with Hx : forall x, In x _ -> _ |- _ =>
    apply Hx end. by apply list_elem_of_In.
Qed.

(** Among ordered tasks that are all stuck, each waits for one that waits for a
    lock of greater rank; ranks are bounded. *)
Lemma ordered_never_stuck n ts i t :
  Forall task_ordered ts -> (forall ts', ~ tasks_step ts ts') ->
  ts !! i = Some t -> finished t = false ->
  (forall l m rest, todo t = Acq l m :: rest -> (4 <= rank l + n)%nat) -> False.
Proof.
  revert i t. induction n as [|n IH]; intros i t Ho Hstuck Hi Hf Hn;
    destruct (stuck_waits _ _ _ Hi Hf Hstuck) as (l & m & rest & t' & Et & Hin & Hb).
  { specialize (Hn _ _ _ Et). destruct l; simpl in Hn; lia. }
  specialize (Hn _ _ _ Et). apply existsb_exists in Hb as (h & Hh & Hc).
  unfold conflicts in Hc. bools. apply list_elem_of_In in Hh.
  apply list_elem_of_lookup in Hin as [j Hj].
  assert (Ho' : task_ordered t') by (by eapply (Forall_lookup_1 _ _ _ _ Ho)).
  apply (IH j t'); try done.
  - unfold finished. destruct (todo t') eqn:E'; [|done]. unfold task_ordered in Ho'.
    rewrite E' in Ho'. simpl in Ho'. destruct (held t'); [set_solver|done].
  - intros l' m' rest' Et'. pose proof (ordered_waits _ _ _ _ _ Ho' Et' Hh).
    assert (l = h.1) by done. subst. lia.
Qed.

Lemma paths_ordered op path :
  op <> OpReleaseVmIps -> path ∈ paths op -> ordered [] path = true.
Proof.
  intros Hop Hp. apply list_elem_of_In in Hp.
  destruct op; simpl in Hp; try done; destruct_or?; try done; subst; by vm_compute.
Qed.

(** * Properties *)

(** Lock-order inversion. [allocate_ip] takes the pools' lock before the
    allocation maps', [release_vm_ips] after them: one call of each can reach a
    state where neither can go on. *)
Theorem allocate_release_deadlock :
  exists ts ts', starts [OpAllocateIp; OpReleaseVmIps] ts /\ rtc tasks_step ts ts' /\ deadlocked ts'.
Proof.
  exists [mkTask [] ([Acq LPools Read; Rel LPools] ++ [Acq LPools Write; Acq LAllocations Write;
      Acq LVmAllocations Write; Rel LVmAllocations; Rel LAllocations; Rel LPools]);
    mkTask [] [Acq LAllocations Write; Acq LVmAllocations Write; Acq LPools Write;
      Rel LPools; Rel LVmAllocations; Rel LAllocations]].
  eexists. split; [|split].
  - repeat constructor; simpl; set_solver.
  - do 3 (eapply rtc_l; [eapply (tasks_step_one _ 0); reflexivity|]).
    do 2 (eapply rtc_l; [eapply (tasks_step_one _ 1); reflexivity|]). apply rtc_refl.
  - split; [reflexivity|]. intros ts' Hs. inversion Hs as [? i t t' Hi Ht]; subst.
    destruct i as [|[|i]]; simpl in Hi; simplify_eq; by vm_compute in Ht.
Qed.

(** The inversion is the only one: any number of concurrent operations none
    of which is [release_vm_ips] never deadlocks. *)
Theorem ordered_operations_progress ops ts ts' :
  OpReleaseVmIps ∉ ops -> starts ops ts -> rtc tasks_step ts ts' -> ~ deadlocked ts'.
Proof.
  intros Hops Hstart Hr [Hex Hstuck].
  assert (Ho : Forall task_ordered ts').
  { apply (rtc_invariant _ (Forall task_ordered) tasks_step_ordered _ _ Hr).
    clear Hr. revert Hops. induction Hstart as [|op t ops ts [Hh Hp] _ IH]; intros Hops; [done|].
    constructor; [|by apply IH; set_solver]. unfold task_ordered. rewrite Hh.
    apply (paths_ordered op); [set_solver|done]. }
  apply existsb_exists in Hex as (t & Hin & Hf). apply list_elem_of_In in Hin.
  apply list_elem_of_lookup in Hin as [i Hi]. apply negb_true_iff in Hf.
  eapply (ordered_never_stuck 4 ts' i t); try done. intros. lia.
Qed.

Lemma ordered_operations_progress_witness :
  ~ deadlocked [mkTask [(LPools, Write)] [Rel LPools]; mkTask [] [Acq LPools Read; Rel LPools]].
Proof.
  apply (ordered_operations_progress [OpPoolCommand; OpGetPools]
    [mkTask [] [Acq LPools Write; Rel LPools]; mkTask [] [Acq LPools Read; Rel LPools]]).
  - set_solver.
  - repeat constructor; simpl; set_solver.
  - eapply rtc_l; [eapply (tasks_step_one _ 0); reflexivity|]. apply rtc_refl.
Defined.
