(* ===== verification/ResourceQuotas.v ===== *)
(** Tenant quotas and usage (blixard-core/src/resource_quotas.rs): limits, usage
    counters, violations and the update of the counters.  Times are in
    nanoseconds; [now] is the clock. *)

From Stdlib Require Import ZArith Lia List.
From stdpp Require Import base tactics numbers gmap strings pretty option.
From stdpp Require Import list relations.
From S2P Require Import Prelude Float64 Errors.

Open Scope Z_scope.

Abbreviation TenantId := string.

(** * Limits *)

Record VmResourceLimits : Type := mkVmLimits {
  max_vms : Z;
  max_vcpus : Z;
  max_memory_mb : Z;
  max_disk_gb : Z;
  max_vms_per_node : Z;
  overcommit_ratio : f32;
  quota_priority : Z
}.

Record OperationLimits : Type := mkOperationLimits {
  vm_create_per_minute : Z;
  vm_delete_per_minute : Z;
  cluster_join_per_hour : Z;
  status_query_per_second : Z;
  config_change_per_hour : Z
}.

Record ApiRateLimits : Type := mkApiLimits {
  requests_per_second : Z;
  burst_capacity : Z;
  max_concurrent_requests : Z;
  operation_limits : OperationLimits
}.

Record StorageLimits : Type := mkStorageLimits {
  max_storage_gb : Z;
  max_disk_images : Z;
  max_image_size_gb : Z;
  max_backup_storage_gb : Z;
  max_iops : Z
}.

Record TenantQuota : Type := mkTenantQuota {
  quota_tenant_id : TenantId;
  vm_limits : VmResourceLimits;
  api_limits : ApiRateLimits;
  storage_limits : StorageLimits;
  quota_enabled : bool;
  quota_created_at : Z;
  quota_updated_at : Z
}.

Definition default_vm_limits : VmResourceLimits :=
  mkVmLimits 50 200 204800 2048 25 (f32_lit 12 10) 100.
Definition default_operation_limits : OperationLimits := mkOperationLimits 10 20 5 50 10.
Definition default_api_limits : ApiRateLimits := mkApiLimits 100 200 50 default_operation_limits.
Definition default_storage_limits : StorageLimits := mkStorageLimits 1024 100 100 512 10000.

(** [TenantQuota::new]. *)
Definition tenant_quota_new (now : Z) (tenant_id : TenantId) : TenantQuota :=
  mkTenantQuota tenant_id default_vm_limits default_api_limits default_storage_limits true now now.

Definition update_limits (now : Z) (vm : option VmResourceLimits) (api : option ApiRateLimits)
    (storage : option StorageLimits) (q : TenantQuota) : TenantQuota :=
  mkTenantQuota (quota_tenant_id q) (default (vm_limits q) vm) (default (api_limits q) api)
    (default (storage_limits q) storage) (quota_enabled q) (quota_created_at q) now.

(** * Usage *)

Record VmResourceUsage : Type := mkVmUsage {
  active_vms : Z;
  used_vcpus : Z;
  used_memory_mb : Z;
  used_disk_gb : Z;
  vms_per_node : gmap Z Z
}.

Record OperationUsage : Type := mkOperationUsage {
  vm_create_current_minute : Z;
  vm_delete_current_minute : Z;
  cluster_join_current_hour : Z;
  status_query_current_second : Z;
  config_change_current_hour : Z
}.

Record ApiUsage : Type := mkApiUsage {
  requests_current_second : Z;
  requests_current_minute : Z;
  requests_current_hour : Z;
  usage_concurrent_requests : Z;
  operation_usage : OperationUsage;
  request_timestamps : list Z
}.

Record StorageUsage : Type := mkStorageUsage {
  used_storage_gb : Z;
  disk_image_count : Z;
  backup_storage_gb : Z;
  current_iops : Z
}.

Record TenantUsage : Type := mkTenantUsage {
  usage_tenant_id : TenantId;
  vm_usage : VmResourceUsage;
  api_usage : ApiUsage;
  storage_usage : StorageUsage;
  usage_updated_at : Z
}.

(** [TenantUsage::new]. *)
Definition tenant_usage_new (now : Z) (tenant_id : TenantId) : TenantUsage :=
  mkTenantUsage tenant_id (mkVmUsage 0 0 0 0 ∅)
    (mkApiUsage 0 0 0 0 (mkOperationUsage 0 0 0 0 0) []) (mkStorageUsage 0 0 0 0) now.

Inductive QuotaViolation : Type :=
| VmLimitExceeded (limit current requested : Z)
| CpuLimitExceeded (limit current requested : Z)
| MemoryLimitExceeded (limit current requested : Z)
| DiskLimitExceeded (limit current requested : Z)
| PerNodeVmLimitExceeded (node_id limit current : Z)
| RateLimitExceeded (operation : string) (limit current : Z)
| StorageLimitExceeded (limit current requested : Z).

(** [Display] for [QuotaViolation]. *)
Definition show_violation (v : QuotaViolation) : string :=
  match v with
  | VmLimitExceeded l c r =>
      "VM limit exceeded: limit=" +:+ pretty l +:+ ", current=" +:+ pretty c
        +:+ ", requested=" +:+ pretty r
  | CpuLimitExceeded l c r =>
      "CPU limit exceeded: limit=" +:+ pretty l +:+ ", current=" +:+ pretty c
        +:+ ", requested=" +:+ pretty r
  | MemoryLimitExceeded l c r =>
      "Memory limit exceeded: limit=" +:+ pretty l +:+ "MB, current=" +:+ pretty c
        +:+ "MB, requested=" +:+ pretty r +:+ "MB"
  | DiskLimitExceeded l c r =>
      "Disk limit exceeded: limit=" +:+ pretty l +:+ "GB, current=" +:+ pretty c
        +:+ "GB, requested=" +:+ pretty r +:+ "GB"
  | PerNodeVmLimitExceeded n l c =>
      "Per-node VM limit exceeded on node " +:+ pretty n +:+ ": limit=" +:+ pretty l
        +:+ ", current=" +:+ pretty c
  | RateLimitExceeded op l c =>
      "Rate limit exceeded for " +:+ op +:+ ": limit=" +:+ pretty l +:+ ", current=" +:+ pretty c
  | StorageLimitExceeded l c r =>
      "Storage limit exceeded: limit=" +:+ pretty l +:+ "GB, current=" +:+ pretty c
        +:+ "GB, requested=" +:+ pretty r +:+ "GB"
  end.

Abbreviation QuotaResult := (outcome QuotaViolation).

Record ResourceRequest : Type := mkResourceRequest {
  rr_tenant_id : TenantId;
  rr_node_id : option Z;
  rr_vcpus : Z;
  rr_memory_mb : Z;
  rr_disk_gb : Z;
  rr_timestamp : Z
}.

Inductive ApiOperation : Type :=
| ApiVmCreate | ApiVmDelete | ApiVmStart | ApiVmStop | ApiClusterJoin | ApiClusterLeave
| ApiStatusQuery | ApiConfigChange | ApiMetricsQuery.

#[export] Instance ApiOperation_eq_dec : EqDecision ApiOperation.
Proof. solve_decision. Defined.

(** [Display] for [ApiOperation]. *)
Definition show_operation (op : ApiOperation) : string :=
  match op with
  | ApiVmCreate => "vm_create"
  | ApiVmDelete => "vm_delete"
  | ApiVmStart => "vm_start"
  | ApiVmStop => "vm_stop"
  | ApiClusterJoin => "cluster_join"
  | ApiClusterLeave => "cluster_leave"
  | ApiStatusQuery => "status_query"
  | ApiConfigChange => "config_change"
  | ApiMetricsQuery => "metrics_query"
  end.

#[export] Instance ApiOperation_countable : Countable ApiOperation.
Proof.
  refine (inj_countable show_operation (fun s =>
    List.find (fun op => bool_decide (show_operation op = s))
      [ApiVmCreate; ApiVmDelete; ApiVmStart; ApiVmStop; ApiClusterJoin; ApiClusterLeave;
       ApiStatusQuery; ApiConfigChange; ApiMetricsQuery]) _).
  by intros [].
Defined.

(** * Updating the counters *)

Section Update.
Context `{Profile}.

(** [(used as iN + delta).max(0) as uN]. *)
Definition apply_delta (w used delta : Z) : BlixardResult Z :=
  omap_ok (fun v => wrap_u w (Z.max v 0)) (arith_s w (wrap_s w used + delta)).

Definition count_vm_added (node_id : Z) (u : VmResourceUsage) : BlixardResult VmResourceUsage :=
  let? n := arith_u 32 (active_vms u + 1) in
  let? k := arith_u 32 (default 0 (vms_per_node u !! node_id) + 1) in
  Ok (mkVmUsage n (used_vcpus u) (used_memory_mb u) (used_disk_gb u)
        (<[node_id := k]> (vms_per_node u))).

Definition count_vm_removed (node_id : Z) (u : VmResourceUsage) : VmResourceUsage :=
  let per_node :=
    match vms_per_node u !! node_id with
    | Some count =>
        let k := sat_sub count 1 in
        if k =? 0 then delete node_id (vms_per_node u) else <[node_id := k]> (vms_per_node u)
    | None => vms_per_node u
    end in
  mkVmUsage (sat_sub (active_vms u) 1) (used_vcpus u) (used_memory_mb u) (used_disk_gb u) per_node.

(** [TenantUsage::update_vm_usage]. *)
Definition update_vm_usage (now vcpus memory_mb disk_gb node_id : Z) (t : TenantUsage)
    : BlixardResult TenantUsage :=
  let u := vm_usage t in
  let? cpu := apply_delta 32 (used_vcpus u) vcpus in
  let? mem := apply_delta 64 (used_memory_mb u) memory_mb in
  let? disk := apply_delta 64 (used_disk_gb u) disk_gb in
  let u1 := mkVmUsage (active_vms u) cpu mem disk (vms_per_node u) in
  let? u2 := (if 0 <? vcpus then count_vm_added node_id u1
              else if vcpus <? 0 then Ok (count_vm_removed node_id u1)
              else Ok u1) in
  Ok (mkTenantUsage (usage_tenant_id t) u2 (api_usage t) (storage_usage t) now).

(** * Lemmas *)

(** Usage whose totals fit the signed types of the update, with room to spare,
    and whose counts are proper. *)
Definition usage_wf (u : VmResourceUsage) : Prop :=
  0 <= active_vms u < 2 ^ 32 /\ 0 <= used_vcpus u < 2 ^ 31 /\
  0 <= used_memory_mb u < 2 ^ 63 /\ 0 <= used_disk_gb u < 2 ^ 63 /\
  forall n k, vms_per_node u !! n = Some k -> 0 < k < 2 ^ 32.

Lemma apply_delta_ok w used delta :
  0 < w -> 0 <= used < 2 ^ (w - 1) -> - 2 ^ (w - 1) <= used + delta < 2 ^ (w - 1) ->
  apply_delta w used delta = Ok (Z.max (used + delta) 0).
Proof.
  intros Hw Hu Hs. unfold apply_delta.
  assert (H2 : 2 ^ w = 2 * 2 ^ (w - 1)) by (rewrite <- Z.pow_succ_r by lia; f_equal; lia).
  assert (Hwrap : wrap_s w used = used).
  { unfold wrap_s. rewrite Z.mod_small by lia. lia. }
  rewrite Hwrap, arith_s_fits by (unfold fits_s; lia). simpl. unfold wrap_u.
  rewrite Z.mod_small by lia. done.
Qed.

(** * Properties *)

(** Creating a VM and deleting it again, with the same amounts on the same
    node, restores the tenant's usage: totals, VM count and the distribution
    over the nodes. *)
Theorem usage_create_delete now1 now2 vcpus memory_mb disk_gb node_id t t1 :
  usage_wf (vm_usage t) -> 0 < vcpus < 2 ^ 31 -> 0 <= memory_mb < 2 ^ 63 -> 0 <= disk_gb < 2 ^ 63 ->
  used_vcpus (vm_usage t) + vcpus < 2 ^ 31 ->
  used_memory_mb (vm_usage t) + memory_mb < 2 ^ 63 ->
  used_disk_gb (vm_usage t) + disk_gb < 2 ^ 63 ->
  active_vms (vm_usage t) < 2 ^ 32 - 1 ->
  default 0 (vms_per_node (vm_usage t) !! node_id) < 2 ^ 32 - 1 ->
  update_vm_usage now1 vcpus memory_mb disk_gb node_id t = Ok t1 ->
  exists t2, update_vm_usage now2 (- vcpus) (- memory_mb) (- disk_gb) node_id t1 = Ok t2 /\
    vm_usage t2 = vm_usage t.
Proof.
  destruct t as [tid [n c m d per] au su at0]. unfold usage_wf. simpl.
  intros (Hn & Hc & Hm & Hd & Hper) Hv Hmem Hdisk Sc Sm Sd Hn1 Hk.
  assert (Hk0 : 0 <= default 0 (per !! node_id)).
  { destruct (per !! node_id) eqn:E; simpl; [apply Hper in E; lia|lia]. }
  unfold update_vm_usage. simpl. rewrite !apply_delta_ok by lia. simpl.
  destruct (Z.ltb_spec 0 vcpus); [|lia]. unfold count_vm_added. simpl.
  rewrite !arith_u_fits by (unfold fits_u; lia). simpl. intros [= <-]. simpl.
  rewrite !apply_delta_ok by lia. simpl.
  destruct (Z.ltb_spec 0 (- vcpus)), (Z.ltb_spec (- vcpus) 0); try lia. simpl.
  eexists. split; [done|]. simpl. unfold count_vm_removed. simpl. rewrite lookup_insert_eq.
  unfold sat_sub. f_equal; try lia.
  destruct (per !! node_id) as [k|] eqn:E; simpl in *.
  - apply Hper in E as Hkk. destruct (Z.eqb_spec (Z.max 0 (k + 1 - 1)) 0); [lia|].
    rewrite insert_insert_eq. replace (Z.max 0 (k + 1 - 1)) with k by lia. by apply insert_id.
  - by rewrite delete_insert_id.
Qed.
End Update.

Lemma usage_create_delete_witness :
  let t := tenant_usage_new 0 "acme" in
  exists t1 t2, update_vm_usage (H:=true) 1 4 8192 20 7 t = Ok t1 /\
    active_vms (vm_usage t1) = 1 /\
    update_vm_usage (H:=true) 2 (- 4) (- 8192) (- 20) 7 t1 = Ok t2 /\ vm_usage t2 = vm_usage t.
Proof.
  cbv zeta. eexists. assert (E : exists t2,
    update_vm_usage (H:=true) 2 (- 4) (- 8192) (- 20) 7
      (match update_vm_usage (H:=true) 1 4 8192 20 7 (tenant_usage_new 0 "acme") with
       | Ok t1 => t1 | _ => tenant_usage_new 0 "acme" end) = Ok t2 /\
    vm_usage t2 = vm_usage (tenant_usage_new 0 "acme")).
  { eapply (usage_create_delete (H:=true) 1 2 4 8192 20 7 (tenant_usage_new 0 "acme"));
      [|by vm_compute..|vm_compute; reflexivity].
    unfold usage_wf; simpl. split_and!; try lia. intros n k Hk. by rewrite lookup_empty in Hk. }
  destruct E as (t2 & E1 & E2). exists t2. split; [vm_compute; reflexivity|].
  split; [reflexivity|]. split; [exact E1|exact E2].
Defined.
