(* ===== verification/QuotaManager.v ===== *)
(** The quota manager (blixard-core/src/quota_manager.rs): tenant quotas with
    their store, usage tracking, the check of a resource request, and the
    sliding-window rate limit.

    Each method runs under its locks as one step.  Times are in nanoseconds and
    [now] is the clock; lock poisoning is not modelled. *)

From Stdlib Require Import ZArith Lia List.
From stdpp Require Import base tactics numbers gmap strings option.
From stdpp Require Import list relations.
From S2P Require Import Prelude Float64 Errors ResourceQuotas.

Open Scope Z_scope.

(** * Storage interface *)

(** The trait [Storage] of raft_storage.rs, as the quota manager uses it; [S] is
    the state of the store. *)
Class QuotaStorage (S : Type) : Type := {
  save_tenant_quota : TenantQuota -> st S BlixardError unit;
  delete_tenant_quota : TenantId -> st S BlixardError unit;
  get_all_quotas : S -> BlixardResult (list TenantQuota)
}.

(** What the manager relies on: a well-formed store holds a map of quotas under
    their tenants' names, which reading lists and which saving and deleting
    update; a failed write leaves it unchanged. *)
Class QuotaStorageOk (S : Type) `{QuotaStorage S} : Type := {
  storage_wf : S -> Prop;
  stored_quotas : S -> gmap TenantId TenantQuota;
  stored_keys : forall s t q, storage_wf s -> stored_quotas s !! t = Some q -> quota_tenant_id q = t;
  stored_all : forall s, storage_wf s -> exists l, get_all_quotas s = Ok l /\
    forall q, q ∈ l <-> stored_quotas s !! quota_tenant_id q = Some q;
  stored_save : forall q s o s', storage_wf s -> save_tenant_quota q s = (o, s') ->
    storage_wf s' /\
    stored_quotas s' =
      if is_ok o then <[quota_tenant_id q := q]> (stored_quotas s) else stored_quotas s;
  stored_delete : forall t s o s', storage_wf s -> delete_tenant_quota t s = (o, s') ->
    storage_wf s' /\
    stored_quotas s' = if is_ok o then delete t (stored_quotas s) else stored_quotas s
}.

(** * State *)

Record TenantRequestTracking : Type := mkTracking {
  request_times : list Z;
  concurrent_requests : Z;
  operation_tracking : gmap ApiOperation (list Z)
}.

Definition tracking_new : TenantRequestTracking := mkTracking [] 0 ∅.

Record QuotaManager (S : Type) : Type := mkQuotaManager {
  quotas : gmap TenantId TenantQuota;
  usage : gmap TenantId TenantUsage;
  tenant_requests : gmap TenantId TenantRequestTracking;
  storage : S
}.
Arguments mkQuotaManager {S} quotas usage tenant_requests storage.
Arguments quotas {S} q.
Arguments usage {S} q.
Arguments tenant_requests {S} q.
Arguments storage {S} q.

(** [Duration::from_secs(1)]. *)
Definition SECOND : Z := 1000000000.
Definition RATE_LIMIT_WINDOW_SECS : Z := 60.
Definition WINDOW : Z := RATE_LIMIT_WINDOW_SECS * SECOND.

(** [times.retain(|&time| time > cutoff)]. *)
Definition retain_after (cutoff : Z) (times : list Z) : list Z :=
  List.filter (fun t => cutoff <? t) times.

Section Manager.
Context `{Profile} {S : Type} `{QuotaStorage S}.

Definition set_quotas (q : gmap TenantId TenantQuota) (m : QuotaManager S) : QuotaManager S :=
  mkQuotaManager q (usage m) (tenant_requests m) (storage m).
Definition set_usage (u : gmap TenantId TenantUsage) (m : QuotaManager S) : QuotaManager S :=
  mkQuotaManager (quotas m) u (tenant_requests m) (storage m).
Definition set_tenant_requests (r : gmap TenantId TenantRequestTracking) (m : QuotaManager S)
    : QuotaManager S :=
  mkQuotaManager (quotas m) (usage m) r (storage m).

Definition on_storage {A} (c : st S BlixardError A) : st (QuotaManager S) BlixardError A :=
  fun m => let '(o, s') := c (storage m) in
           (o, mkQuotaManager (quotas m) (usage m) (tenant_requests m) s').

(** * Quotas *)

(** [load_quotas_from_storage]: a store that cannot be read is ignored. *)
Definition load_quotas_from_storage (m : QuotaManager S) : BlixardResult (QuotaManager S) :=
  match get_all_quotas (storage m) with
  | Ok l => Ok (set_quotas (fold_left (fun acc q => <[quota_tenant_id q := q]> acc) l (quotas m)) m)
  | Err _ => Ok m
  | Panic => Panic
  end.

Definition manager_new (s : S) : BlixardResult (QuotaManager S) :=
  load_quotas_from_storage (mkQuotaManager ∅ ∅ ∅ s).

Definition set_tenant_quota (q : TenantQuota) : st (QuotaManager S) BlixardError unit :=
  smodify (fun m => set_quotas (<[quota_tenant_id q := q]> (quotas m)) m) ;*
  on_storage (save_tenant_quota q).

(** [get_tenant_quota] stores a default quota for an unknown tenant, whatever
    storing it returns. *)
Definition get_tenant_quota {E} (now : Z) (tenant_id : TenantId) : st (QuotaManager S) E TenantQuota :=
  fun m =>
    match quotas m !! tenant_id with
    | Some q => (Ok q, m)
    | None =>
        let q := tenant_quota_new now tenant_id in
        match set_tenant_quota q m with
        | (Panic, m') => (Panic, m')
        | (_, m') => (Ok q, m')
        end
    end.

Definition remove_tenant_quota (tenant_id : TenantId) : st (QuotaManager S) BlixardError unit :=
  smodify (fun m => mkQuotaManager (delete tenant_id (quotas m)) (delete tenant_id (usage m))
                      (tenant_requests m) (storage m)) ;*
  on_storage (delete_tenant_quota tenant_id).

(** * Usage *)

Definition get_tenant_usage (now : Z) (tenant_id : TenantId) (m : QuotaManager S) : TenantUsage :=
  default (tenant_usage_new now tenant_id) (usage m !! tenant_id).

Definition update_resource_usage (now : Z) (tenant_id : TenantId)
    (vcpus memory_mb disk_gb node_id : Z) : st (QuotaManager S) BlixardError unit :=
  let* m := sget in
  let* u := slift (update_vm_usage now vcpus memory_mb disk_gb node_id
                     (get_tenant_usage now tenant_id m)) in
  sput (set_usage (<[tenant_id := u]> (usage m)) m).

Definition reset_tenant_usage (now : Z) (tenant_id : TenantId) : st (QuotaManager S) BlixardError unit :=
  smodify (fun m => mkQuotaManager (quotas m) (<[tenant_id := tenant_usage_new now tenant_id]> (usage m))
                      (delete tenant_id (tenant_requests m)) (storage m)).

(** * Resource quota *)

(** The limits of [check_resource_quota], in the order they are checked. *)
Definition check_limits (l : VmResourceLimits) (u : VmResourceUsage) (r : ResourceRequest)
    : QuotaResult unit :=
  if max_vms l <=? active_vms u then Err (VmLimitExceeded (max_vms l) (active_vms u) 1)
  else
    let? total_vcpus := arith_u 32 (used_vcpus u + rr_vcpus r) in
    if max_vcpus l <? total_vcpus
    then Err (CpuLimitExceeded (max_vcpus l) (used_vcpus u) (rr_vcpus r))
    else
      let? total_memory := arith_u 64 (used_memory_mb u + rr_memory_mb r) in
      if max_memory_mb l <? total_memory
      then Err (MemoryLimitExceeded (max_memory_mb l) (used_memory_mb u) (rr_memory_mb r))
      else
        let? total_disk := arith_u 64 (used_disk_gb u + rr_disk_gb r) in
        if max_disk_gb l <? total_disk
        then Err (DiskLimitExceeded (max_disk_gb l) (used_disk_gb u) (rr_disk_gb r))
        else
          match rr_node_id r with
          | None => Ok tt
          | Some n =>
              let on_node := default 0 (vms_per_node u !! n) in
              if max_vms_per_node l <=? on_node
              then Err (PerNodeVmLimitExceeded n (max_vms_per_node l) on_node)
              else Ok tt
          end.

Definition check_resource_quota (now : Z) (request : ResourceRequest)
    : st (QuotaManager S) QuotaViolation unit :=
  let* q := get_tenant_quota now (rr_tenant_id request) in
  if negb (quota_enabled q) then sret tt
  else
    let* m := sget in
    slift (check_limits (vm_limits q) (vm_usage (get_tenant_usage now (rr_tenant_id request) m))
             request).

(** * Rate limit *)

(** The limit of an operation per window, in [u32] arithmetic. *)
Definition operation_limit {E} (l : OperationLimits) (op : ApiOperation) : outcome E Z :=
  match op with
  | ApiVmCreate => Ok (vm_create_per_minute l)
  | ApiVmDelete => Ok (vm_delete_per_minute l)
  | ApiClusterJoin => Ok (cluster_join_per_hour l / 60)
  | ApiStatusQuery => arith_u 32 (status_query_per_second l * 60)
  | ApiConfigChange => Ok (config_change_per_hour l / 60)
  | _ => Ok 1000
  end.

(** [len() as u32]. *)
Definition len_u32 (l : list Z) : Z := wrap_u 32 (Z.of_nat (length l)).

Definition put_tracking (tenant_id : TenantId) (t : TenantRequestTracking) {E}
    : st (QuotaManager S) E unit :=
  smodify (fun m => set_tenant_requests (<[tenant_id := t]> (tenant_requests m)) m).

Definition check_rate_limit (now : Z) (tenant_id : TenantId) (op : ApiOperation)
    : st (QuotaManager S) QuotaViolation unit :=
  let* q := get_tenant_quota now tenant_id in
  if negb (quota_enabled q) then sret tt
  else
    let* m := sget in
    let t := default tracking_new (tenant_requests m !! tenant_id) in
    let cutoff := now - WINDOW in
    let times := retain_after cutoff (request_times t) in
    let t1 := mkTracking times (concurrent_requests t) (operation_tracking t) in
    put_tracking tenant_id t1 ;*
    let* general := slift (arith_u 32 (requests_per_second (api_limits q) * RATE_LIMIT_WINDOW_SECS)) in
    if general <=? len_u32 times
    then sfail (RateLimitExceeded "general" (requests_per_second (api_limits q)) (len_u32 times))
    else if max_concurrent_requests (api_limits q) <=? concurrent_requests t1
    then sfail (RateLimitExceeded "concurrent" (max_concurrent_requests (api_limits q))
                  (concurrent_requests t1))
    else
      let op_times := retain_after cutoff (default [] (operation_tracking t1 !! op)) in
      put_tracking tenant_id (mkTracking times (concurrent_requests t)
                                (<[op := op_times]> (operation_tracking t1))) ;*
      let* limit := slift (operation_limit (operation_limits (api_limits q)) op) in
      if limit <=? len_u32 op_times
      then sfail (RateLimitExceeded (show_operation op) limit (len_u32 op_times))
      else sret tt.

Definition record_api_request {E} (now : Z) (tenant_id : TenantId) (op : ApiOperation)
    : st (QuotaManager S) E unit :=
  let* m := sget in
  let t := default tracking_new (tenant_requests m !! tenant_id) in
  put_tracking tenant_id (mkTracking (request_times t ++ [now]) (concurrent_requests t)
                            (operation_tracking t)) ;*
  let* n := slift (arith_u 32 (concurrent_requests t + 1)) in
  put_tracking tenant_id
    (mkTracking (request_times t ++ [now]) n
       (<[op := default [] (operation_tracking t !! op) ++ [now]]> (operation_tracking t))).

Definition record_api_request_end {E} (tenant_id : TenantId) : st (QuotaManager S) E unit :=
  smodify (fun m =>
    match tenant_requests m !! tenant_id with
    | Some t => set_tenant_requests (<[tenant_id := mkTracking (request_times t)
        (sat_sub (concurrent_requests t) 1) (operation_tracking t)]> (tenant_requests m)) m
    | None => m
    end).

(** [cleanup_expired_rate_limits]. *)
Definition clean_tracking (cutoff : Z) (t : TenantRequestTracking) : TenantRequestTracking :=
  mkTracking (retain_after cutoff (request_times t)) (concurrent_requests t)
    (filter (fun '(_, times) => times <> []) (retain_after cutoff <$> operation_tracking t)).

Definition tracking_in_use (t : TenantRequestTracking) : bool :=
  negb (bool_decide (request_times t = [])) || (0 <? concurrent_requests t)
  || negb (bool_decide (operation_tracking t = ∅)).

Definition cleanup_expired_rate_limits (now : Z) (m : QuotaManager S) : QuotaManager S :=
  let cutoff := now - RATE_LIMIT_WINDOW_SECS * 2 * SECOND in
  set_tenant_requests
    (filter (fun '(_, t) => tracking_in_use t = true) (clean_tracking cutoff <$> tenant_requests m)) m.

(** * Specifications *)

(** The request fits beside the usage. *)
Definition admits (l : VmResourceLimits) (u : VmResourceUsage) (r : ResourceRequest) : Prop :=
  active_vms u + 1 <= max_vms l /\
  used_vcpus u + rr_vcpus r <= max_vcpus l /\
  used_memory_mb u + rr_memory_mb r <= max_memory_mb l /\
  used_disk_gb u + rr_disk_gb r <= max_disk_gb l /\
  forall n, rr_node_id r = Some n -> default 0 (vms_per_node u !! n) + 1 <= max_vms_per_node l.

(** The usage is within the limits. *)
Definition respects (l : VmResourceLimits) (u : VmResourceUsage) : Prop :=
  active_vms u <= max_vms l /\ used_vcpus u <= max_vcpus l /\
  used_memory_mb u <= max_memory_mb l /\ used_disk_gb u <= max_disk_gb l /\
  forall n k, vms_per_node u !! n = Some k -> k <= max_vms_per_node l.

(** The additions of the check do not overflow. *)
Definition sums_fit (u : VmResourceUsage) (r : ResourceRequest) : Prop :=
  0 <= used_vcpus u + rr_vcpus r < 2 ^ 32 /\
  0 <= used_memory_mb u + rr_memory_mb r < 2 ^ 64 /\
  0 <= used_disk_gb u + rr_disk_gb r < 2 ^ 64.

(** Limits and requests of a size that the sums and the signed deltas hold. *)
Definition limits_fit (l : VmResourceLimits) : Prop :=
  max_vms l < 2 ^ 32 /\ max_vcpus l < 2 ^ 31 /\ max_memory_mb l < 2 ^ 63 /\ max_disk_gb l < 2 ^ 63 /\ max_vms_per_node l < 2 ^ 32.
Definition request_fits (tenant : TenantId) (r : ResourceRequest) (n : Z) : Prop :=
  rr_tenant_id r = tenant /\ rr_node_id r = Some n /\
  0 < rr_vcpus r < 2 ^ 31 /\ 0 <= rr_memory_mb r < 2 ^ 63 /\ 0 <= rr_disk_gb r < 2 ^ 63.

(** Requests one after the other: each is checked at its first time and, when it
    passes, recorded at its second on the given node.  The requests that passed, with
    the outcome of their records. *)
Fixpoint admit_all (reqs : list (Z * Z * ResourceRequest * Z)) (m : QuotaManager S)
    : list (ResourceRequest * outcome BlixardError unit) * QuotaManager S :=
  match reqs with
  | [] => ([], m)
  | (now, later, r, n) :: reqs' =>
      match check_resource_quota now r m with
      | (Ok _, m1) =>
          let '(o, m2) := update_resource_usage later (rr_tenant_id r) (rr_vcpus r) (rr_memory_mb r) (rr_disk_gb r) n m1 in
          let '(rs, m3) := admit_all reqs' m2 in ((r, o) :: rs, m3)
      | (_, m1) => admit_all reqs' m1
      end
  end.

(** What is tracked for a tenant. *)
Definition tracking_of (m : QuotaManager S) (tenant : TenantId) : TenantRequestTracking :=
  default tracking_new (tenant_requests m !! tenant).
Definition ops_of (m : QuotaManager S) (tenant : TenantId) (op : ApiOperation) : list Z :=
  default [] (operation_tracking (tracking_of m tenant) !! op).
Definition conc_of (m : QuotaManager S) (tenant : TenantId) : Z :=
  concurrent_requests (tracking_of m tenant).

(** * Lemmas *)

Lemma check_limits_iff l u r : sums_fit u r -> check_limits l u r = Ok tt <-> admits l u r.
Proof.
  intros (Hc & Hm & Hd). unfold check_limits, admits.
  rewrite !arith_u_fits by (unfold fits_u; lia). simpl.
  destruct (Z.leb_spec (max_vms l) (active_vms u)); [split; [done|lia]|].
  destruct (Z.ltb_spec (max_vcpus l) (used_vcpus u + rr_vcpus r)); [split; [done|lia]|].
  destruct (Z.ltb_spec (max_memory_mb l) (used_memory_mb u + rr_memory_mb r)); [split; [done|lia]|].
  destruct (Z.ltb_spec (max_disk_gb l) (used_disk_gb u + rr_disk_gb r)); [split; [done|lia]|].
  destruct (rr_node_id r) as [n|]; [|split; [intros _|done]; split_and!; (lia || done)].
  destruct (Z.leb_spec (max_vms_per_node l) (default 0 (vms_per_node u !! n))).
  - split; [done|]. intros (_ & _ & _ & _ & Hn). specialize (Hn n eq_refl). lia.
  - split; [|done]. intros _. split_and!; try lia. intros n' [= <-]. lia.
Qed.

Lemma get_known_quota {E} now tenant q m :
  quotas m !! tenant = Some q -> get_tenant_quota (E:=E) now tenant m = (Ok q, m).
Proof. intros Hq. unfold get_tenant_quota. by rewrite Hq. Qed.

Lemma retain_retain c1 c2 l :
  retain_after c1 (retain_after c2 l) = retain_after (Z.max c1 c2) l.
Proof.
  unfold retain_after. induction l as [|t l IH]; [done|]. simpl.
  destruct (Z.ltb_spec c2 t); simpl; destruct (Z.ltb_spec c1 t), (Z.ltb_spec (Z.max c1 c2) t);
    rewrite ?IH; (done || lia).
Qed.

Lemma retain_app c l1 l2 : retain_after c (l1 ++ l2) = retain_after c l1 ++ retain_after c l2.
Proof. apply List.filter_app. Qed.

Lemma tracking_insert m tenant t tenant' :
  tracking_of (set_tenant_requests (<[tenant := t]> (tenant_requests m)) m) tenant' =
  if bool_decide (tenant' = tenant) then t else tracking_of m tenant'.
Proof.
  unfold tracking_of; simpl. case_bool_decide as Ht; [subst; by rewrite lookup_insert_eq|].
  by rewrite lookup_insert_ne.
Qed.

(** ** Effect of the rate-limit operations on one tenant *)

Lemma check_frame now tenant' op m o m' tenant :
  check_rate_limit now tenant' op m = (o, m') -> tenant <> tenant' ->
  tracking_of m' tenant = tracking_of m tenant /\ quotas m' !! tenant = quotas m !! tenant.
Proof.
  intros E Hne. unfold check_rate_limit, put_tracking, get_tenant_quota, set_tenant_quota,
    on_storage in E. inv_st E; unfold tracking_of; simpl; by rewrite ?lookup_insert_ne.
Qed.

Lemma check_own now tenant op m o m' q :
  quotas m !! tenant = Some q -> quota_enabled q = true ->
  check_rate_limit now tenant op m = (o, m') ->
  let old := ops_of m tenant op in
  let kept := retain_after (now - WINDOW) old in
  quotas m' = quotas m /\ conc_of m' tenant = conc_of m tenant /\
  (forall op', op' <> op -> ops_of m' tenant op' = ops_of m tenant op') /\
  (ops_of m' tenant op = old \/ ops_of m' tenant op = kept) /\
  (o = Ok tt -> ops_of m' tenant op = kept /\ conc_of m tenant < max_concurrent_requests (api_limits q) /\
     exists limit, operation_limit (E:=QuotaViolation) (operation_limits (api_limits q)) op = Ok limit /\
       len_u32 kept < limit).
Proof.
  intros Hq He E. unfold check_rate_limit in E. unfold sbind at 1 in E.
  rewrite (get_known_quota now tenant q m Hq), He in E. unfold put_tracking in E.
  unfold ops_of, conc_of. inv_st E; rewrite ?tracking_insert, ?bool_decide_true by done; simpl.
  all: unfold tracking_of; simpl; rewrite ?lookup_insert_eq; simpl; bools.
  all: split_and!; try done; try (by left); try (intros op' Hop; by rewrite lookup_insert_ne).
  all: try (right; by rewrite lookup_insert_eq).
  intros _. rewrite lookup_insert_eq. split_and!; try done. by eexists.
Qed.

Lemma record_effect {E} now tenant op m (o : outcome E unit) m' :
  record_api_request now tenant op m = (o, m') ->
  quotas m' = quotas m /\
  (forall tenant', tenant' <> tenant -> tracking_of m' tenant' = tracking_of m tenant') /\
  match o with
  | Ok _ =>
      arith_u (E:=E) 32 (conc_of m tenant + 1) = Ok (conc_of m' tenant) /\
      forall op', ops_of m' tenant op' =
        if bool_decide (op' = op) then ops_of m tenant op ++ [now] else ops_of m tenant op'
  | _ => conc_of m' tenant = conc_of m tenant /\
         forall op', ops_of m' tenant op' = ops_of m tenant op'
  end.
Proof.
  unfold record_api_request, put_tracking. unfold_st. simpl. unfold ops_of, conc_of.
  destruct (arith_u 32 _) as [n|e|] eqn:En; intros [= <- <-]; simpl.
  all: rewrite ?tracking_insert, ?bool_decide_true by done; simpl.
  all: split_and!; try done; try (intros t' Ht'; unfold tracking_of; simpl;
    by rewrite ?insert_insert_eq, lookup_insert_ne).
  - unfold tracking_of in *; simpl in *. by rewrite insert_insert_eq, lookup_insert_eq.
  - intros op'. unfold tracking_of; simpl. rewrite insert_insert_eq, lookup_insert_eq. simpl.
    case_bool_decide as Hop; [subst; by rewrite lookup_insert_eq|by rewrite lookup_insert_ne].
Qed.

Lemma cleanup_effect now m tenant op :
  0 <= conc_of m tenant ->
  conc_of (cleanup_expired_rate_limits now m) tenant = conc_of m tenant /\
  ops_of (cleanup_expired_rate_limits now m) tenant op =
    retain_after (now - 2 * WINDOW) (ops_of m tenant op).
Proof.
  unfold conc_of, ops_of, tracking_of, cleanup_expired_rate_limits. simpl.
  replace (now - RATE_LIMIT_WINDOW_SECS * 2 * SECOND) with (now - 2 * WINDOW)
    by (unfold WINDOW; lia).
  rewrite map_lookup_filter, lookup_fmap. generalize (now - 2 * WINDOW) as c; intros c Hc.
  destruct (tenant_requests m !! tenant) as [t|]; simpl in *; [|by rewrite lookup_empty].
  assert (Hops : default [] (operation_tracking (clean_tracking c t) !! op) =
    retain_after c (default [] (operation_tracking t !! op))).
  { simpl. rewrite map_lookup_filter, lookup_fmap.
    destruct (operation_tracking t !! op) as [l|]; simpl; [|done].
    case_guard as Hg; simpl; [done|]. destruct (retain_after c l); [done|]. destruct Hg. done. }
  rewrite <- Hops. case_guard as Hg; simpl; [done|].
  unfold tracking_in_use in Hg. apply not_true_is_false in Hg. bools. simpl in *.
  rewrite lookup_empty. split; [lia|]. rewrite map_lookup_filter, lookup_fmap in Hops.
  match goal with Hx : filter _ _ = ∅ |- _ => rewrite Hx, lookup_empty end. done.
Qed.

Lemma check_known_quota now r m q :
  quotas m !! rr_tenant_id r = Some q -> quota_enabled q = true ->
  check_resource_quota now r m =
    (check_limits (vm_limits q) (vm_usage (get_tenant_usage now (rr_tenant_id r) m)) r, m).
Proof.
  intros Hq He. unfold check_resource_quota, sbind at 1.
  by rewrite (get_known_quota now _ q m Hq), He.
Qed.

Lemma update_usage_ok now tenant vcpus memory_mb disk_gb node_id m u :
  update_vm_usage now vcpus memory_mb disk_gb node_id (get_tenant_usage now tenant m) = Ok u ->
  update_resource_usage now tenant vcpus memory_mb disk_gb node_id m = (Ok tt, set_usage (<[tenant := u]> (usage m)) m).
Proof. intros E. unfold update_resource_usage. unfold_st. simpl. by rewrite E. Qed.

(** Adding a VM that the limits admit keeps usage within them and well formed. *)
Lemma admitted_usage now l t r n :
  usage_wf (vm_usage t) -> respects l (vm_usage t) -> admits l (vm_usage t) r ->
  max_vms l < 2 ^ 32 -> max_vcpus l < 2 ^ 31 -> max_memory_mb l < 2 ^ 63 -> max_disk_gb l < 2 ^ 63 ->
  max_vms_per_node l < 2 ^ 32 -> rr_node_id r = Some n ->
  0 < rr_vcpus r -> 0 <= rr_memory_mb r -> 0 <= rr_disk_gb r ->
  exists t', update_vm_usage now (rr_vcpus r) (rr_memory_mb r) (rr_disk_gb r) n t = Ok t' /\
  usage_wf (vm_usage t') /\ respects l (vm_usage t') /\
  active_vms (vm_usage t') = active_vms (vm_usage t) + 1 /\
  used_vcpus (vm_usage t') = used_vcpus (vm_usage t) + rr_vcpus r.
Proof.
  intros (Hn & Hc & Hm & Hd & Hper) (_ & _ & _ & _ & Rp) (An & Ac & Am & Ad & Ap)
    Lv Lc Lm Ld Lp Hnode Hv Hmem Hdisk. specialize (Ap n Hnode).
  assert (Hk : 0 <= default 0 (vms_per_node (vm_usage t) !! n)).
  { destruct (vms_per_node (vm_usage t) !! n) eqn:E; simpl; [apply Hper in E; lia|lia]. }
  unfold update_vm_usage. rewrite !apply_delta_ok by lia. simpl.
  destruct (Z.ltb_spec 0 (rr_vcpus r)); [|lia]. unfold count_vm_added. simpl.
  rewrite !arith_u_fits by (unfold fits_u; lia). simpl. eexists. split; [done|]. unfold usage_wf, respects. simpl.
  split_and!; try lia; intros n' k; rewrite lookup_insert_Some;
    intros [[<- <-]|[_ Hk']]; try lia; [by eapply Hper|by eapply Rp].
Qed.

(** Loading the quotas of a store rebuilds the stored map. *)
Lemma fold_quotas_lookup (l : list TenantQuota) (acc : gmap TenantId TenantQuota) tenant :
  (forall q1 q2, q1 ∈ l -> q2 ∈ l -> quota_tenant_id q1 = quota_tenant_id q2 -> q1 = q2) ->
  forall q, fold_left (fun acc q => <[quota_tenant_id q := q]> acc) l acc !! tenant = Some q <->
    (q ∈ l /\ quota_tenant_id q = tenant) \/
    ((forall q', q' ∈ l -> quota_tenant_id q' <> tenant) /\ acc !! tenant = Some q).
Proof.
  revert acc. induction l as [|x l IH]; intros acc Huniq q; simpl; [set_solver|].
  rewrite IH by (intros; apply Huniq; set_solver). rewrite elem_of_cons. split.
  - intros [[Hq <-]|[Hno Hq]]; [left; auto|].
    apply lookup_insert_Some in Hq as [[<- <-]|[Hne Hq]]; [left; auto|].
    right. split; [|done]. intros q' [->|?]%elem_of_cons; auto.
  - intros [[[->|Hq] <-]|[Hno Hq]].
    + destruct (decide (Exists (fun q' => quota_tenant_id q' = quota_tenant_id x) l)) as [He|Hn].
      * apply Exists_exists in He as (q' & Hq' & Heq). left. split; [|done]. by rewrite <- (Huniq q' x) by set_solver.
      * right. rewrite lookup_insert_eq. split; [|done]. intros q' Hq' Heq.
        apply Hn, Exists_exists. eauto.
    + by left.
    + right. split; [intros; apply Hno; set_solver|].
      rewrite lookup_insert_ne; [done|apply Hno; set_solver].
Qed.

Lemma usage_any_time now tenant m : vm_usage (get_tenant_usage now tenant m) = vm_usage (get_tenant_usage 0 tenant m).
Proof. unfold get_tenant_usage. by destruct (usage m !! tenant). Qed.

(** One request that is checked and recorded. *)
Lemma admit_step now later tenant q r n m o m1 :
  let used x := vm_usage (get_tenant_usage 0 tenant x) in
  quotas m !! tenant = Some q -> quota_enabled q = true -> limits_fit (vm_limits q) ->
  usage_wf (used m) -> respects (vm_limits q) (used m) -> request_fits tenant r n ->
  check_resource_quota now r m = (o, m1) ->
  m1 = m /\
  (o = Ok tt -> exists m2,
     update_resource_usage later (rr_tenant_id r) (rr_vcpus r) (rr_memory_mb r) (rr_disk_gb r) n m = (Ok tt, m2) /\
     quotas m2 !! tenant = Some q /\ usage_wf (used m2) /\ respects (vm_limits q) (used m2) /\
     active_vms (used m2) = active_vms (used m) + 1 /\ used_vcpus (used m2) = used_vcpus (used m) + rr_vcpus r).
Proof.
  intros used Hq He (L1 & L2 & L3 & L4 & L5) Hwf Hres (<- & Hn & Hv & Hm & Hd) Hchk. set (tenant := rr_tenant_id r) in *.
  rewrite (check_known_quota now r m q Hq He) in Hchk. injection Hchk as <- <-. split; [done|]. intros Hok.
  rewrite (usage_any_time now) in Hok. pose proof Hwf as (W1 & W2 & W3 & W4 & _). pose proof Hres as (R1 & R2 & R3 & R4 & _).
  apply check_limits_iff in Hok; [|unfold sums_fit, used in *; fold tenant; lia].
  destruct (admitted_usage later (vm_limits q) (get_tenant_usage later tenant m) r n) as (t' & Et & Hwf' & Hres' & Hn' & Hv');
    rewrite ?(usage_any_time later) in *; try done; try lia.
  apply update_usage_ok in Et. eexists. split; [exact Et|]. split; [done|].
  assert (used (set_usage (<[tenant := t']> (usage m)) m) = vm_usage t') as ->; [|done].
  unfold used, get_tenant_usage. cbn. by rewrite lookup_insert_eq.
Qed.

Lemma restart_loads_saved `{!QuotaStorageOk S} q m m' :
  storage_wf (storage m) -> set_tenant_quota q m = (Ok tt, m') ->
  exists m1, manager_new (storage m') = Ok m1 /\
    quotas m1 = <[quota_tenant_id q := q]> (stored_quotas (storage m)).
Proof.
  intros Hwf Hset. unfold set_tenant_quota, on_storage in Hset. unfold_st. simpl in Hset.
  destruct (save_tenant_quota q (storage m)) as [o s'] eqn:Es. injection Hset as -> <-. simpl.
  apply stored_save in Es as [Hwf' Es]; [|done]. simpl in Es.
  destruct (stored_all s' Hwf') as (l & Hl & Hmem). unfold manager_new, load_quotas_from_storage. simpl.
  rewrite Hl. eexists. split; [done|]. simpl. apply map_eq. intros t. apply option_eq. intros x.
  rewrite fold_quotas_lookup by (intros q1 q2 H1%Hmem H2%Hmem Heq; congruence).
  rewrite <- Es, lookup_empty. split.
  - intros [[Hx <-]|[_ ?]]; [by apply Hmem|done].
  - intros Hx. left. apply (stored_keys _ _ _ Hwf') in Hx as Ht. subst t. by rewrite Hmem.
Qed.

(** * Properties *)

(** For a tenant with an enforced quota, and when the additions fit their
    machine types, [check_resource_quota] accepts a request exactly when the
    usage with the request added stays within every limit: VM count, vCPUs,
    memory, disk, and the VM count of the requested node. The check changes
    nothing. *)
Theorem check_resource_quota_iff now r m q :
  let u := vm_usage (get_tenant_usage now (rr_tenant_id r) m) in
  quotas m !! rr_tenant_id r = Some q -> quota_enabled q = true -> sums_fit u r ->
  snd (check_resource_quota now r m) = m /\
  (fst (check_resource_quota now r m) = Ok tt <-> admits (vm_limits q) u r).
Proof.
  intros u Hq He Hfit. rewrite (check_known_quota now r m q Hq He). simpl.
  split; [done|]. by apply check_limits_iff.
Qed.

(** C29: usage never exceeds the quota: for a tenant with an enforced quota, along any
    run of requests of the tenant that are each checked and, when they pass, recorded
    on the node they ask for before the next request is checked, every record
    succeeds, the usage stays within every limit (VMs, vCPUs, memory, disk and VMs per
    node), and counts the VMs and vCPUs that passed.  The usage is within the limits at
    the start; each request names a node and asks for at least one vCPU, fewer than
    2^31 vCPUs and less than 2^63 of memory and disk; the limits are below 2^31 vCPUs,
    2^63 of memory and disk and 2^32 VMs.  (Requests that are checked before an earlier
    one is recorded can exceed the quota.) *)
Theorem checked_usage_respects_quota reqs tenant q m rs m' :
  let used x := vm_usage (get_tenant_usage 0 tenant x) in
  quotas m !! tenant = Some q -> quota_enabled q = true -> limits_fit (vm_limits q) ->
  usage_wf (used m) -> respects (vm_limits q) (used m) -> Forall (fun '(_, _, r, n) => request_fits tenant r n) reqs ->
  admit_all reqs m = (rs, m') ->
  Forall (fun '(_, o) => o = Ok tt) rs /\ usage_wf (used m') /\ respects (vm_limits q) (used m') /\
  active_vms (used m') = active_vms (used m) + Z.of_nat (length rs) /\
  used_vcpus (used m') = used_vcpus (used m) + fold_right Z.add 0 (map (fun '(r, _) => rr_vcpus r) rs).
Proof.
  intros used Hq He Hl Hwf Hres Hreqs. revert m rs Hq Hwf Hres.
  induction Hreqs as [|[[[now later] r] n] reqs Hr _ IH]; intros m rs Hq Hwf Hres; cbn [admit_all].
  { intros [= <- <-]. cbn. split_and!; (done || lia). }
  destruct (check_resource_quota now r m) as [o m1] eqn:Ec.
  destruct (admit_step now later tenant q r n m o m1 Hq He Hl Hwf Hres Hr Ec) as [-> Hok].
  destruct o as [[]|v|]; [|intros E; by apply IH in E..].
  destruct (Hok eq_refl) as (m2 & -> & Hq2 & Hwf2 & Hres2 & Hn2 & Hv2). destruct (admit_all reqs m2) as [rs2 m3] eqn:E.
  intros [= <- <-]. destruct (IH m2 rs2 Hq2 Hwf2 Hres2 E) as (Hf & Hwf3 & Hres3 & Hn3 & Hv3).
  unfold used in *. split_and!; [by constructor|done|done|cbn [length]; lia|cbn [map fold_right]; lia].
Qed.

(** Checks that are made before the first record do not see it: two requests that
    each fit beside the usage, and not together, both pass, and their records exceed
    the limit of vCPUs. *)
Theorem overlapping_checks_exceed_quota now r1 r2 m q :
  let u := vm_usage (get_tenant_usage now (rr_tenant_id r1) m) in
  rr_tenant_id r2 = rr_tenant_id r1 -> quotas m !! rr_tenant_id r1 = Some q -> quota_enabled q = true ->
  sums_fit u r1 -> sums_fit u r2 -> admits (vm_limits q) u r1 -> admits (vm_limits q) u r2 ->
  max_vcpus (vm_limits q) < used_vcpus u + rr_vcpus r1 + rr_vcpus r2 ->
  check_resource_quota now r1 m = (Ok tt, m) /\ check_resource_quota now r2 m = (Ok tt, m) /\
  ~ respects (vm_limits q) (mkVmUsage (active_vms u + 2) (used_vcpus u + rr_vcpus r1 + rr_vcpus r2)
      (used_memory_mb u + rr_memory_mb r1 + rr_memory_mb r2) (used_disk_gb u + rr_disk_gb r1 + rr_disk_gb r2) (vms_per_node u)).
Proof.
  intros u Ht Hq He F1 F2 A1 A2 Hv. split_and!.
  - rewrite (check_known_quota now r1 m q Hq He). f_equal. by apply check_limits_iff.
  - rewrite (check_known_quota now r2 m q) by (rewrite ?Ht; done). f_equal. rewrite Ht. by apply check_limits_iff.
  - intros (_ & Hc & _). cbn in Hc. lia.
Qed.

(** Quotas survive a restart: after [set_tenant_quota] succeeded, a manager
    newly created on the store has that quota for the tenant, and for every
    other tenant the quota the store had before. *)
Theorem set_quota_survives_restart `{!QuotaStorageOk S} q m m' :
  storage_wf (storage m) -> set_tenant_quota q m = (Ok tt, m') ->
  exists m1, manager_new (storage m') = Ok m1 /\
    quotas m1 = <[quota_tenant_id q := q]> (stored_quotas (storage m)).
Proof. apply restart_loads_saved. Qed.

(** An hourly limit below 60 is no limit but a ban: it is divided by 60 to
    give a limit per minute, so with the default quota (5 joins, 10
    configuration changes per hour) every join and every configuration change
    of an enforced tenant is refused, whatever was requested before. *)
Theorem hourly_limits_refuse now tenant op m q :
  quotas m !! tenant = Some q -> quota_enabled q = true ->
  operation_limits (api_limits q) = default_operation_limits ->
  op = ApiClusterJoin \/ op = ApiConfigChange ->
  fst (check_rate_limit now tenant op m) <> Ok tt.
Proof.
  intros Hq He Hl Hop Hok. destruct (check_rate_limit now tenant op m) as [o m'] eqn:E.
  simpl in Hok. subst o. pose proof (check_own now tenant op m _ m' q Hq He E) as Hown.
  destruct Hown as (_ & _ & _ & _ & Hlim). destruct (Hlim eq_refl) as (_ & _ & limit & Hlimit & Hlt).
  rewrite Hl in Hlimit.
  assert (limit = 0) as -> by (by destruct Hop; subst op; vm_compute in Hlimit; simplify_eq).
  unfold len_u32, wrap_u in Hlt. pose proof (Z.mod_pos_bound (Z.of_nat (length
    (retain_after (now - WINDOW) (ops_of m tenant op)))) (2 ^ 32)). lia.
Qed.
End Manager.

(** * A concrete manager *)

(** A store that is a map and never fails. *)
Definition map_storage : QuotaStorage (gmap TenantId TenantQuota) := {|
  save_tenant_quota := fun q => smodify (insert (quota_tenant_id q) q);
  delete_tenant_quota := fun t => smodify (delete t);
  get_all_quotas := fun s => Ok (map snd (map_to_list s))
|}.
#[local] Existing Instance map_storage.
#[local] Instance demo_profile : Profile := true.

#[local, refine] Instance map_storage_ok : QuotaStorageOk (gmap TenantId TenantQuota) := {
  storage_wf := fun s => map_Forall (fun t q => quota_tenant_id q = t) s;
  stored_quotas := fun s => s
}.
Proof.
  - intros s t q Hwf Hq. by apply Hwf in Hq.
  - intros s Hwf. eexists. split; [done|]. intros q. rewrite list_elem_of_In, in_map_iff. split.
    + intros ([t x] & <- & Hin). apply list_elem_of_In, elem_of_map_to_list in Hin.
      simpl. by rewrite (Hwf _ _ Hin).
    + intros Hq. exists (quota_tenant_id q, q). split; [done|].
      by apply list_elem_of_In, elem_of_map_to_list.
  - intros q s o s' Hwf [= <- <-]. split; [|done]. by apply map_Forall_insert_2.
  - intros t s o s' Hwf [= <- <-]. split; [|done]. by apply map_Forall_delete.
Defined.

Definition demo_manager : QuotaManager (gmap TenantId TenantQuota) :=
  mkQuotaManager {[ "acme" := tenant_quota_new 0 "acme" ]} ∅ ∅ ∅.
Definition demo_request : ResourceRequest := mkResourceRequest "acme" (Some 3) 4 8192 20 0.

Lemma check_resource_quota_iff_witness :
  let u := vm_usage (get_tenant_usage 5 "acme" demo_manager) in
  snd (check_resource_quota 5 demo_request demo_manager) = demo_manager /\
  (fst (check_resource_quota 5 demo_request demo_manager) = Ok tt <->
   admits default_vm_limits u demo_request).
Proof.
  apply (check_resource_quota_iff 5 demo_request demo_manager (tenant_quota_new 0 "acme"));
    try reflexivity. by vm_compute.
Defined.

Lemma empty_usage_wf : usage_wf (mkVmUsage 0 0 0 0 ∅).
Proof. unfold usage_wf; simpl. split_and!; try lia. intros n k Hk. by rewrite lookup_empty in Hk. Qed.

Lemma empty_usage_respects : respects default_vm_limits (mkVmUsage 0 0 0 0 ∅).
Proof. unfold respects; simpl. split_and!; try lia. intros n k Hk. by rewrite lookup_empty in Hk. Qed.

Definition demo_requests : list (Z * Z * ResourceRequest * Z) :=
  [(5, 6, demo_request, 3); (7, 8, mkResourceRequest "acme" (Some 4) 1000 8192 20 0, 4); (9, 9, demo_request, 3)].

Lemma checked_usage_respects_quota_witness :
  exists rs m', admit_all demo_requests demo_manager = (rs, m') /\ length rs = 2%nat /\
    respects default_vm_limits (vm_usage (get_tenant_usage 0 "acme" m')).
Proof.
  assert (Hn : length (fst (admit_all demo_requests demo_manager)) = 2%nat) by (vm_compute; reflexivity).
  destruct (admit_all demo_requests demo_manager) as [rs m'] eqn:E. exists rs, m'. split; [reflexivity|]. split; [exact Hn|].
  destruct (checked_usage_respects_quota demo_requests "acme" (tenant_quota_new 0 "acme") demo_manager rs m') as (_ & _ & Hr & _);
    [reflexivity|reflexivity|repeat split; vm_compute; reflexivity|apply empty_usage_wf|apply empty_usage_respects| |exact E|exact Hr].
  repeat constructor; vm_compute; congruence.
Defined.

Lemma overlapping_checks_exceed_quota_witness :
  let r := mkResourceRequest "acme" (Some 3) 150 8192 20 0 in
  check_resource_quota 5 r demo_manager = (Ok tt, demo_manager) /\ check_resource_quota 5 r demo_manager = (Ok tt, demo_manager) /\
  ~ respects default_vm_limits (mkVmUsage (0 + 2) (0 + 150 + 150) (0 + 8192 + 8192) (0 + 20 + 20) ∅).
Proof.
  apply (overlapping_checks_exceed_quota 5 (mkResourceRequest "acme" (Some 3) 150 8192 20 0) (mkResourceRequest "acme" (Some 3) 150 8192 20 0)
    demo_manager (tenant_quota_new 0 "acme")); try reflexivity.
  1-2: repeat split; vm_compute; congruence.
  1-2: (repeat split; try (vm_compute; congruence)); intros n [= <-]; vm_compute; congruence.
Defined.

Lemma set_quota_survives_restart_witness :
  exists m' m1, set_tenant_quota (tenant_quota_new 9 "initech") demo_manager = (Ok tt, m') /\
    manager_new (storage m') = Ok m1 /\
    quotas m1 = <["initech" := tenant_quota_new 9 "initech"]> (stored_quotas (storage demo_manager)).
Proof.
  destruct (set_quota_survives_restart (tenant_quota_new 9 "initech") demo_manager
    (snd (set_tenant_quota (tenant_quota_new 9 "initech") demo_manager))) as (m1 & E1 & E2).
  - apply map_Forall_empty.
  - reflexivity.
  - exists (snd (set_tenant_quota (tenant_quota_new 9 "initech") demo_manager)), m1. done.
Defined.

Lemma hourly_limits_refuse_witness :
  fst (check_rate_limit 5 "acme" ApiClusterJoin demo_manager) <> Ok tt.
Proof.
  apply (hourly_limits_refuse 5 "acme" ApiClusterJoin demo_manager (tenant_quota_new 0 "acme"));
    try reflexivity. by left.
Defined.
