(* ===== verification/RateLimiting.v ===== *)
(** Rate limiters (blixard-core/src/common/rate_limiting.rs): the trait
    [RateLimiter] with its provided method, the limiter backed by the quota
    manager, and the in-memory limiter with fixed windows.

    [check_and_record] takes the state's lock once for the check and once for the
    record, and reads the clock under it each time; in the runs of the quota-based
    limiter the two halves of a call are separate events, so that calls overlap in any
    way. *)

From Stdlib Require Import ZArith Lia List Sorted.
From stdpp Require Import base tactics numbers gmap strings option.
From stdpp Require Import list relations.
From S2P Require Import Prelude Errors ResourceQuotas QuotaManager.

Open Scope Z_scope.

(** * The trait *)

Class RateLimiter (L : Type) : Type := {
  rl_check : Z -> string -> ApiOperation -> st L BlixardError unit;
  rl_record : Z -> string -> ApiOperation -> st L BlixardError unit
}.

(** [now], [later]: the time of the check and the time of the record. *)
Definition check_and_record `{RateLimiter L} (now later : Z) (key : string) (op : ApiOperation)
    : st L BlixardError unit :=
  rl_check now key op ;* rl_record later key op ;* sret tt.

(** A run of requests; the accepted ones are returned in order. *)
Definition api_request : Type := string * ApiOperation * Z.

(** * The limiter of the quota manager *)

Section QuotaBased.
Context `{Profile} {S : Type} `{QuotaStorage S}.

#[export] Instance QuotaBasedRateLimiter : RateLimiter (QuotaManager S) := {
  rl_check := fun now key op m =>
    match check_rate_limit now key op m with
    | (Ok _, m') => (Ok tt, m')
    | (Err v, m') => (Err (Internal ("Rate limit exceeded: " +:+ show_violation v)), m')
    | (Panic, m') => (Panic, m')
    end;
  rl_record := fun now key op => record_api_request now key op
}.

(** The halves of calls of [check_and_record], and the other operations on what is
    tracked. *)
Inductive api_event : Type :=
| EvCheck (tenant : TenantId) (op : ApiOperation)
| EvRecord (tenant : TenantId) (op : ApiOperation)
| EvRequestEnd (tenant : TenantId)
| EvCleanup.

(** The manager, and the calls that have passed the check and not recorded yet. *)
Record api_server : Type := mkServer { as_manager : QuotaManager S; as_checked : list (TenantId * ApiOperation) }.

(** A list without the first occurrence of an element that it has. *)
Fixpoint take_out {A} `{EqDecision A} (x : A) (l : list A) : option (list A) :=
  match l with
  | [] => None
  | y :: l' => if decide (x = y) then Some l' else cons y <$> take_out x l'
  end.

(** One event at time [now], with the request that was accepted by it, if one was: a
    call returns without an error after its record. *)
Definition api_step (now : Z) (ev : api_event) (s : api_server) : list api_request * api_server :=
  let m := as_manager s in
  match ev with
  | EvCheck tenant op =>
      let '(o, m') := rl_check now tenant op m in
      ([], mkServer m' (if is_ok o then (tenant, op) :: as_checked s else as_checked s))
  | EvRecord tenant op =>
      match take_out (tenant, op) (as_checked s) with
      | Some rest =>
          let '(o, m') := rl_record now tenant op m in
          (if is_ok o then [(tenant, op, now)] else [], mkServer m' rest)
      | None => ([], s)
      end
  | EvRequestEnd tenant => ([], mkServer (snd (record_api_request_end (E:=BlixardError) tenant m)) (as_checked s))
  | EvCleanup => ([], mkServer (cleanup_expired_rate_limits now m) (as_checked s))
  end.

Fixpoint run_api (evs : list (Z * api_event)) (s : api_server) : list api_request * api_server :=
  match evs with
  | [] => ([], s)
  | (now, ev) :: evs' =>
      let '(acc, s1) := api_step now ev s in
      let '(acc', s2) := run_api evs' s1 in
      (acc ++ acc', s2)
  end.

(** The number of calls of a kind between check and record, and the largest such
    number along a run. *)
Definition open_calls (kind : TenantId * ApiOperation -> bool) (s : api_server) : nat := length (List.filter kind (as_checked s)).

Fixpoint peak (kind : TenantId * ApiOperation -> bool) (evs : list (Z * api_event)) (s : api_server) : nat :=
  Nat.max (open_calls kind s)
    match evs with
    | [] => 0
    | (now, ev) :: evs' => peak kind evs' (snd (api_step now ev s))
    end.

Definition same_call (tenant : TenantId) (op : ApiOperation) (c : TenantId * ApiOperation) : bool := bool_decide (c = (tenant, op)).
Definition same_tenant (tenant : TenantId) (c : TenantId * ApiOperation) : bool := bool_decide (fst c = tenant).

(** The times at which requests of one tenant and operation were accepted. *)
Definition times_of (tenant : TenantId) (op : ApiOperation) (acc : list api_request) : list Z :=
  map snd (List.filter (fun '(t, o, _) => bool_decide (t = tenant) && bool_decide (o = op)) acc).

(** Those in the window that ends at [T]. *)
Definition in_window (T : Z) (times : list Z) : list Z :=
  List.filter (fun x => (T - WINDOW <? x) && (x <=? T)) times.

(** ** Lemmas *)

Lemma length_filter_le {A} (f g : A -> bool) (l : list A) :
  (forall x, x ∈ l -> f x = true -> g x = true) ->
  (length (List.filter f l) <= length (List.filter g l))%nat.
Proof.
  induction l as [|x l IH]; intros Hfg; [done|]. simpl.
  pose proof (IH ltac:(intros; apply Hfg; set_solver)) as IH'.
  pose proof (Hfg x ltac:(set_solver)). destruct (f x), (g x); simpl; (lia || naive_solver).
Qed.

Lemma retain_window T l :
  (forall x, x ∈ l -> x <= T) -> retain_after (T - WINDOW) l = in_window T l.
Proof.
  intros Hl. unfold retain_after, in_window. induction l as [|x l IH]; [done|]. simpl.
  rewrite IH by (intros; apply Hl; set_solver).
  destruct (Z.leb_spec x T); [|specialize (Hl x ltac:(set_solver)); lia]. by rewrite andb_true_r.
Qed.

(** ** The halves of a call *)

Lemma check_spec now key op m :
  rl_check now key op m =
    match check_rate_limit now key op m with
    | (Ok _, m1) => (Ok tt, m1)
    | (Err v, m1) => (Err (Internal ("Rate limit exceeded: " +:+ show_violation v)), m1)
    | (Panic, m1) => (Panic, m1)
    end.
Proof. done. Qed.

(** A check of the tenant keeps what is tracked, but for what is too old, and
    passes below the limits only. *)
Lemma check_call now tenant op m q o m' :
  quotas m !! tenant = Some q -> quota_enabled q = true -> rl_check now tenant op m = (o, m') ->
  quotas m' = quotas m /\ conc_of m' tenant = conc_of m tenant /\
  (forall op', exists c, c <= now - WINDOW /\
     (ops_of m' tenant op' = ops_of m tenant op' \/ ops_of m' tenant op' = retain_after c (ops_of m tenant op'))) /\
  (is_ok o = true -> conc_of m tenant < max_concurrent_requests (api_limits q) /\
     exists limit, operation_limit (E:=QuotaViolation) (operation_limits (api_limits q)) op = Ok limit /\
       len_u32 (retain_after (now - WINDOW) (ops_of m tenant op)) < limit).
Proof.
  intros Hq He. rewrite check_spec. destruct (check_rate_limit now tenant op m) as [oc m1] eqn:Ec.
  destruct (check_own _ _ _ _ _ _ _ Hq He Ec) as (Hq1 & Hc1 & Ho1 & Hk1 & Hok).
  assert (Hops : forall op', exists c, c <= now - WINDOW /\
    (ops_of m1 tenant op' = ops_of m tenant op' \/ ops_of m1 tenant op' = retain_after c (ops_of m tenant op'))).
  { intros op'. exists (now - WINDOW). split; [lia|]. destruct (decide (op' = op)) as [->|Hne]; [done|left; by apply Ho1]. }
  destruct oc as [[]|v|]; intros [= <- <-]; split_and!; try done. intros _. by destruct (Hok eq_refl) as (_ & Hlt & Hlim).
Qed.

(** The halves of another tenant's calls do not concern this one. *)
Lemma check_other now tenant' op m tenant o m' :
  tenant <> tenant' -> rl_check now tenant' op m = (o, m') ->
  tracking_of m' tenant = tracking_of m tenant /\ quotas m' !! tenant = quotas m !! tenant.
Proof.
  intros Hne. rewrite check_spec. destruct (check_rate_limit now tenant' op m) as [oc m1] eqn:Ec.
  pose proof (check_frame _ _ _ _ _ _ tenant Ec Hne) as Hf. by destruct oc; intros [= <- <-].
Qed.

Lemma end_effect tenant' (m : QuotaManager S) tenant op :
  0 <= conc_of m tenant ->
  let m' := snd (record_api_request_end (E:=BlixardError) tenant' m) in
  quotas m' = quotas m /\ 0 <= conc_of m' tenant /\ ops_of m' tenant op = ops_of m tenant op /\
  (tenant' <> tenant -> conc_of m' tenant = conc_of m tenant).
Proof.
  unfold record_api_request_end, smodify, conc_of, ops_of, tracking_of. simpl. intros Hc.
  destruct (tenant_requests m !! tenant') as [t|] eqn:E; [|done]. simpl.
  destruct (decide (tenant' = tenant)) as [->|Hne].
  - rewrite lookup_insert_eq, E in *. simpl in *. unfold sat_sub. split_and!; (done || lia).
  - by rewrite lookup_insert_ne.
Qed.

Lemma len_u32_small l : Z.of_nat (length l) < 2 ^ 32 -> len_u32 l = Z.of_nat (length l).
Proof. intros Hl. unfold len_u32, wrap_u. apply Z.mod_small. lia. Qed.

Lemma take_out_perm {A} `{EqDecision A} (x : A) l rest : take_out x l = Some rest -> l ≡ₚ x :: rest.
Proof.
  revert rest. induction l as [|y l IH]; intros rest E; [done|]. cbn in E. case_decide as Hy; [by injection E as <-; subst|].
  apply fmap_Some in E as (l' & El & ->). rewrite (IH l' El). apply perm_swap.
Qed.

Lemma length_filter_perm {A} (f : A -> bool) l l' : l ≡ₚ l' -> length (List.filter f l) = length (List.filter f l').
Proof. induction 1; simpl; repeat case_match; simpl; lia. Qed.

Lemma open_calls_remove kind c rest m' s :
  take_out c (as_checked s) = Some rest ->
  open_calls kind s = (open_calls kind (mkServer m' rest) + if kind c then 1 else 0)%nat.
Proof.
  intros E%take_out_perm. unfold open_calls. cbn [as_checked]. rewrite (length_filter_perm kind _ _ E). simpl.
  destruct (kind c); simpl; lia.
Qed.

Lemma peak_open kind evs s : (open_calls kind s <= peak kind evs s)%nat.
Proof. destruct evs as [|[]]; simpl; lia. Qed.

Lemma peak_tail kind now ev evs s : (peak kind evs (snd (api_step now ev s)) <= peak kind ((now, ev) :: evs) s)%nat.
Proof. simpl. lia. Qed.

(** ** The window *)

(** The invariant for one tenant and operation: what is tracked are the accepted
    times after a cutoff that is at least one window back; no window holds more of
    them than [bound], the calls that are open counted for the windows to come. *)
Definition window_inv (q : TenantQuota) (tenant : TenantId) (op : ApiOperation) (bound now : Z)
    (times : list Z) (s : api_server) : Prop :=
  quotas (as_manager s) !! tenant = Some q /\ 0 <= conc_of (as_manager s) tenant /\
  (forall x, x ∈ times -> x <= now) /\
  (forall T, Z.of_nat (length (in_window T times)) <= bound) /\
  (forall T, now <= T -> Z.of_nat (length (in_window T times)) + Z.of_nat (open_calls (same_call tenant op) s) <= bound) /\
  exists c, c <= now - WINDOW /\ ops_of (as_manager s) tenant op = retain_after c times.

(** A window that ends later holds no more of what has been. *)
Lemma in_window_later t T times :
  (forall x, x ∈ times -> x <= t) -> t <= T -> (length (in_window T times) <= length (in_window t times))%nat.
Proof.
  intros Hle HT. apply length_filter_le. intros x Hx Hin. apply andb_true_iff in Hin as [H1%Z.ltb_lt _].
  specialize (Hle x Hx). apply andb_true_iff. split; [apply Z.ltb_lt; lia|by apply Z.leb_le].
Qed.

Section Window.
Context (q : TenantQuota) (tenant : TenantId) (op : ApiOperation) (limit : Z) (k : nat).
Context (Henabled : quota_enabled q = true) (Hk : (1 <= k)%nat) (Hfits : limit + Z.of_nat k < 2 ^ 32).
Context (Hlimit : operation_limit (E:=QuotaViolation) (operation_limits (api_limits q)) op = Ok limit).

Abbreviation holds := (window_inv q tenant op (limit + Z.of_nat k - 1)).

(** A later time, an untouched quota, no more open calls, and a tracked list that lost
    at most what is older than the window, keep the invariant. *)
Lemma window_inv_later now t times s s' :
  holds now times s -> now <= t ->
  quotas (as_manager s') !! tenant = Some q -> 0 <= conc_of (as_manager s') tenant ->
  (open_calls (same_call tenant op) s' <= open_calls (same_call tenant op) s)%nat ->
  (exists c, c <= t - WINDOW /\ (ops_of (as_manager s') tenant op = ops_of (as_manager s) tenant op \/
    ops_of (as_manager s') tenant op = retain_after c (ops_of (as_manager s) tenant op))) ->
  holds t times s'.
Proof.
  intros (_ & _ & Hle & Hwin & Hopen & c0 & Hc0 & Hops) Ht Hq' Hc' Ho (c & Hcut & Hops').
  split_and!; try done; [intros x Hx; specialize (Hle x Hx); lia|intros T HT; specialize (Hopen T ltac:(lia)); lia|].
  destruct Hops' as [Hx|Hx]; rewrite Hx, Hops; [exists c0; split; [lia|done]|].
  exists (Z.max c c0). split; [lia|]. apply retain_retain.
Qed.

(** A check that passes opens a call. *)
Lemma window_inv_check now t times s s' m' :
  holds now times s -> now <= t -> rl_check t tenant op (as_manager s) = (Ok tt, m') ->
  s' = mkServer m' ((tenant, op) :: as_checked s) -> (open_calls (same_call tenant op) s' <= k)%nat -> holds t times s'.
Proof.
  intros Hinv Ht E -> Hopen'. pose proof Hinv as (Hq & Hc & Hle & Hwin & Hopen & c0 & Hc0 & Hops).
  destruct (check_call _ _ _ _ _ _ _ Hq Henabled E) as (Hq1 & Hc1 & Hops1 & Hok).
  destruct (Hok eq_refl) as (_ & l & Hl & Hlen). assert (l = limit) as -> by congruence.
  rewrite Hops, retain_retain, Z.max_l in Hlen by lia.
  assert (Hle' : forall x, x ∈ times -> x <= t) by (intros x Hx; specialize (Hle x Hx); lia).
  rewrite retain_window in Hlen by done. rewrite len_u32_small in Hlen by (specialize (Hwin t); lia).
  split_and!; try done; cbn [as_manager]; [by rewrite Hq1|by rewrite Hc1| |].
  - intros T HT. pose proof (in_window_later t T times Hle' HT). lia.
  - destruct (Hops1 op) as (c & Hcut & [Hx|Hx]); rewrite Hx, Hops; [exists c0; split; [lia|done]|].
    exists (Z.max c c0). split; [lia|]. apply retain_retain.
Qed.

(** A record closes one and extends the accepted times. *)
Lemma window_inv_record now t times s rest m' :
  holds now times s -> now <= t -> take_out (tenant, op) (as_checked s) = Some rest ->
  rl_record t tenant op (as_manager s) = (Ok tt, m') -> holds t (times ++ [t]) (mkServer m' rest).
Proof.
  intros (Hq & Hc & Hle & Hwin & Hopen & c & Hc0 & Hops) Ht Hrem Er.
  apply record_effect in Er as (Hq2 & _ & Hc2 & Hops2).
  pose proof (arith_u_range 32 _ _ ltac:(lia) Hc2) as Hr2.
  assert (Hsub : open_calls (same_call tenant op) s = (open_calls (same_call tenant op) (mkServer m' rest) + 1)%nat).
  { rewrite (open_calls_remove (same_call tenant op) _ _ m' _ Hrem).
    assert (same_call tenant op (tenant, op) = true) as -> by (by apply bool_decide_true). lia. }
  assert (Hin : forall T, in_window T (times ++ [t]) = in_window T times ++ (if (T - WINDOW <? t) && (t <=? T) then [t] else [])).
  { intros T. unfold in_window. rewrite List.filter_app. simpl. by destruct (_ && _). }
  split_and!; cbn [as_manager]; [by rewrite Hq2|lia| | | |].
  - intros x [Hx| ->%list_elem_of_singleton]%elem_of_app; [specialize (Hle x Hx)|]; lia.
  - intros T. rewrite Hin, length_app. destruct (Z.leb_spec t T) as [HT|HT].
    + specialize (Hopen T ltac:(lia)). destruct (_ <? _); simpl; lia.
    + rewrite andb_false_r. specialize (Hwin T). simpl. lia.
  - intros T HT. rewrite Hin, length_app. specialize (Hopen T ltac:(lia)). destruct (_ && _); simpl; lia.
  - exists c. split; [lia|]. rewrite Hops2, bool_decide_true, Hops, retain_app by done. f_equal. simpl.
    destruct (Z.ltb_spec c t) as [|Hcut]; [done|]. unfold WINDOW, RATE_LIMIT_WINDOW_SECS, SECOND in *. lia.
Qed.

(** What an event of others, or one that fails, leaves as it is. *)
Lemma window_inv_same now t times s s' :
  holds now times s -> now <= t ->
  (open_calls (same_call tenant op) s' <= open_calls (same_call tenant op) s)%nat ->
  quotas (as_manager s') !! tenant = quotas (as_manager s) !! tenant ->
  tracking_of (as_manager s') tenant = tracking_of (as_manager s) tenant -> holds t times s'.
Proof.
  intros Hinv Ht Ho Hq Htr. pose proof Hinv as (Hq0 & Hc0 & _). apply (window_inv_later now t times s); try done.
  - by rewrite Hq.
  - unfold conc_of in *. by rewrite Htr.
  - exists (t - WINDOW). split; [lia|]. left. unfold ops_of. by rewrite Htr.
Qed.

Lemma window_check_step now t te o times s s' acc :
  holds now times s -> now <= t -> api_step t (EvCheck te o) s = (acc, s') -> (open_calls (same_call tenant op) s' <= k)%nat ->
  holds t (times ++ times_of tenant op acc) s'.
Proof.
  intros Hinv Ht Hstep Hopen. cbn [api_step] in Hstep. destruct (rl_check t te o (as_manager s)) as [oc m1] eqn:Ec.
  injection Hstep as <- <-. change (times_of tenant op []) with (@nil Z). rewrite app_nil_r. pose proof Hinv as (Hq & Hc & _).
  destruct (decide (te = tenant)) as [->|Hne].
  2: { destruct (check_other t te o _ tenant _ _ ltac:(done) Ec) as [Htr Hq1]. apply (window_inv_same now t times s); try done.
       destruct (is_ok oc); [|done]. unfold open_calls. simpl. unfold same_call at 1. rewrite bool_decide_false by congruence. done. }
  destruct (check_call _ _ _ _ _ _ _ Hq Henabled Ec) as (Hq1 & Hc1 & Hops1 & _).
  destruct (decide (o = op)) as [->|Hneo]; [destruct oc as [[]|e|]; [by eapply window_inv_check|..]|].
  all: apply (window_inv_later now t times s); cbn [as_manager]; try (done || by rewrite ?Hq1, ?Hc1).
  destruct (is_ok oc); [|done]. unfold open_calls. simpl. unfold same_call at 1. by rewrite bool_decide_false by congruence.
Qed.

Lemma window_record_step now t te o times s s' acc :
  holds now times s -> now <= t -> api_step t (EvRecord te o) s = (acc, s') ->
  holds t (times ++ times_of tenant op acc) s'.
Proof.
  intros Hinv Ht Hstep. cbn [api_step] in Hstep. pose proof Hinv as (Hq & Hc & _).
  destruct (take_out (te, o) (as_checked s)) as [rest|] eqn:Erem.
  2: { injection Hstep as <- <-. change (times_of tenant op []) with (@nil Z). rewrite app_nil_r. by apply (window_inv_same now t times s). }
  destruct (rl_record t te o (as_manager s)) as [oc m1] eqn:Er.
  assert (Hle : (open_calls (same_call tenant op) (mkServer m1 rest) <= open_calls (same_call tenant op) s)%nat).
  { rewrite (open_calls_remove (same_call tenant op) _ _ m1 _ Erem). lia. }
  assert (Htimes : times_of tenant op acc = if is_ok oc && bool_decide ((te, o) = (tenant, op)) then [t] else []).
  { injection Hstep as <- <-. unfold times_of. destruct (is_ok oc); [|done]. simpl. repeat case_bool_decide; simplify_eq; done. }
  injection Hstep as _ <-. rewrite Htimes. destruct (decide ((te, o) = (tenant, op))) as [[= -> ->]|Hne].
  - rewrite bool_decide_true, andb_true_r by done. destruct oc as [[]|e|]; [by eapply window_inv_record|..];
      cbn [is_ok]; rewrite app_nil_r; apply record_effect in Er as (Hq2 & _ & Hc2 & Hops2);
      (apply (window_inv_later now t times s); cbn [as_manager]; try (done || by rewrite ?Hq2, ?Hc2);
       exists (t - WINDOW); split; [lia|left; apply Hops2]).
  - rewrite bool_decide_false, andb_false_r, app_nil_r by done.
    apply record_effect in Er as (Hq2 & Hoth & Heff). destruct (decide (te = tenant)) as [->|Hnt].
    + assert (Hne' : op <> o) by (intros ->; done).
      assert (Hops : ops_of m1 tenant op = ops_of (as_manager s) tenant op).
      { destruct oc; destruct Heff as [_ Hx]; rewrite Hx; [by rewrite bool_decide_false|done..]. }
      assert (Hc2 : 0 <= conc_of m1 tenant).
      { destruct oc; destruct Heff as [Hx _]; [apply (arith_u_range 32 _ _ ltac:(lia)) in Hx; lia|lia..]. }
      apply (window_inv_later now t times s); cbn [as_manager]; try (done || by rewrite Hq2).
      exists (t - WINDOW). split; [lia|by left].
    + apply (window_inv_same now t times s); cbn [as_manager]; try done; [by rewrite Hq2|by apply Hoth].
Qed.

Lemma window_inv_step now t ev times s acc s' :
  holds now times s -> now <= t -> api_step t ev s = (acc, s') -> (open_calls (same_call tenant op) s' <= k)%nat ->
  holds t (times ++ times_of tenant op acc) s'.
Proof.
  intros Hinv Ht Hstep Hopen. pose proof Hinv as (Hq & Hc & _). destruct ev as [te o|te o|te|].
  - by eapply window_check_step.
  - by eapply window_record_step.
  - injection Hstep as <- <-. change (times_of tenant op []) with (@nil Z). rewrite app_nil_r. destruct (end_effect te (as_manager s) tenant op Hc) as (Hq1 & Hc1 & Hops & _).
    apply (window_inv_later now t times s); cbn [as_manager]; try done; [exact (eq_trans (f_equal (lookup tenant) Hq1) Hq)|].
    exists (t - WINDOW). split; [lia|by left].
  - injection Hstep as <- <-. change (times_of tenant op []) with (@nil Z). rewrite app_nil_r. destruct (cleanup_effect t (as_manager s) tenant op Hc) as [Hc1 Hops].
    apply (window_inv_later now t times s); cbn [as_manager]; try done; [by rewrite Hc1|].
    exists (t - 2 * WINDOW). split; [unfold WINDOW, RATE_LIMIT_WINDOW_SECS, SECOND; lia|by right].
Qed.

(** Along a run, from any state that satisfies the invariant. *)
Lemma run_window evs now times s acc s' :
  Sorted Z.le (now :: map fst evs) -> holds now times s -> (peak (same_call tenant op) evs s <= k)%nat ->
  run_api evs s = (acc, s') -> exists now', holds now' (times ++ times_of tenant op acc) s'.
Proof.
  revert now times s acc. induction evs as [|[t ev] evs IH]; intros now times s acc Hs Hinv Hpk Hrun; cbn [run_api] in Hrun.
  { injection Hrun as <- <-. exists now. by rewrite app_nil_r. }
  destruct (api_step t ev s) as [acc1 s1] eqn:Es. destruct (run_api evs s1) as [acc2 s2] eqn:Er. injection Hrun as <- <-.
  pose proof (peak_tail (same_call tenant op) t ev evs s) as Hpt. rewrite Es in Hpt. cbn [snd] in Hpt.
  pose proof (peak_open (same_call tenant op) evs s1). simpl in Hs. apply Sorted_inv in Hs as [Hs Hhd]. apply HdRel_inv in Hhd.
  eapply window_inv_step in Es; [|done|done|lia]. destruct (IH _ _ _ _ Hs Es ltac:(lia) Er) as [now' Hinv']. exists now'.
  unfold times_of in *. by rewrite List.filter_app, map_app, app_assoc.
Qed.

End Window.

(** ** Requests that are never given back *)

(** The accepted requests of a tenant. *)
Definition of_tenant (tenant : TenantId) (acc : list api_request) : list api_request :=
  List.filter (fun '(t, _, _) => bool_decide (t = tenant)) acc.

Definition never_ends (tenant : TenantId) (ev : api_event) : Prop := ev <> EvRequestEnd tenant.

Section Leak.
Context (q : TenantQuota) (tenant : TenantId) (k : nat).
Context (Henabled : quota_enabled q = true) (Hk : (1 <= k)%nat).
Context (Hfits : 0 <= max_concurrent_requests (api_limits q) /\ max_concurrent_requests (api_limits q) + Z.of_nat k < 2 ^ 32).

(** What has been accepted is counted, and what is open fits beside it. *)
Definition leak_inv (n : Z) (s : api_server) : Prop :=
  quotas (as_manager s) !! tenant = Some q /\ 0 <= n /\ conc_of (as_manager s) tenant = n /\
  n + Z.of_nat (open_calls (same_tenant tenant) s) <= max_concurrent_requests (api_limits q) + Z.of_nat k - 1.

Lemma leak_step n t ev s acc s' :
  leak_inv n s -> never_ends tenant ev -> api_step t ev s = (acc, s') -> (open_calls (same_tenant tenant) s' <= k)%nat ->
  leak_inv (n + Z.of_nat (length (of_tenant tenant acc))) s'.
Proof.
  intros (Hq & Hn & Hc & Hsum) Hev Hstep Hopen. destruct ev as [te o|te o|te|]; cbn [api_step] in Hstep.
  - destruct (rl_check t te o (as_manager s)) as [oc m1] eqn:Ec. injection Hstep as <- <-. cbn [of_tenant List.filter length].
    unfold leak_inv in *. cbn [as_manager] in *. rewrite Z.add_0_r. destruct (decide (te = tenant)) as [->|Hne].
    + destruct (check_call _ _ _ _ _ _ _ Hq Henabled Ec) as (Hq1 & Hc1 & _ & Hok). rewrite Hq1, Hc1. split_and!; try done.
      destruct (is_ok oc); [destruct (Hok eq_refl) as [Hlt _]; lia|done].
    + destruct (check_other t te o _ tenant _ _ ltac:(done) Ec) as [Htr Hq1]. unfold conc_of in *. rewrite Htr, Hq1.
      split_and!; try done. destruct (is_ok oc); [|done]. unfold open_calls, same_tenant in *. simpl. by rewrite bool_decide_false.
  - destruct (take_out (te, o) (as_checked s)) as [rest|] eqn:Erem.
    2: { injection Hstep as <- <-. cbn [of_tenant List.filter length Z.of_nat]. rewrite Z.add_0_r. done. }
    destruct (rl_record t te o (as_manager s)) as [oc m1] eqn:Er. injection Hstep as <- <-.
    apply record_effect in Er as (Hq2 & Hoth & Heff). 
    rewrite (open_calls_remove (same_tenant tenant) _ _ m1 _ Erem) in Hsum. change (same_tenant tenant (te, o)) with (bool_decide (te = tenant)) in Hsum.
    unfold leak_inv. cbn [as_manager]. rewrite Hq2. destruct (decide (te = tenant)) as [->|Hne].
    + rewrite bool_decide_true in Hsum by done. destruct oc as [[]|e|]; destruct Heff as [Hc2 _]; simpl;
        rewrite ?bool_decide_true by done; simpl; rewrite ?Z.add_0_r.
      * rewrite Hc, arith_u_fits in Hc2 by (unfold fits_u; lia). injection Hc2 as <-. split_and!; (done || lia).
      * rewrite Hc2. split_and!; (done || lia).
      * rewrite Hc2. split_and!; (done || lia).
    + unfold conc_of in *. rewrite Hoth by done. rewrite bool_decide_false in Hsum by done.
      replace (of_tenant tenant _) with (@nil api_request) by (destruct (is_ok oc); [simpl; by rewrite bool_decide_false|done]).
      simpl. rewrite Z.add_0_r. split_and!; (done || lia).
  - injection Hstep as <- <-. cbn [of_tenant List.filter length Z.of_nat]. rewrite Z.add_0_r. assert (te <> tenant) by (intros ->; by destruct Hev).
    destruct (end_effect te (as_manager s) tenant ApiVmCreate ltac:(lia)) as (Hq1 & _ & _ & Hc1).
    split_and!; [exact (eq_trans (f_equal (lookup tenant) Hq1) Hq)|done|exact (eq_trans (Hc1 ltac:(done)) Hc)|done].
  - injection Hstep as <- <-. cbn [of_tenant List.filter length Z.of_nat]. rewrite Z.add_0_r. destruct (cleanup_effect t (as_manager s) tenant ApiVmCreate ltac:(lia)) as [Hc1 _].
    unfold leak_inv. cbn [as_manager]. by rewrite Hc1.
Qed.

Lemma run_leak evs n s acc s' :
  Forall (fun '(_, ev) => never_ends tenant ev) evs -> leak_inv n s -> (peak (same_tenant tenant) evs s <= k)%nat ->
  run_api evs s = (acc, s') -> leak_inv (n + Z.of_nat (length (of_tenant tenant acc))) s'.
Proof.
  revert n s acc. induction evs as [|[t ev] evs IH]; intros n s acc Hall Hinv Hpk Hrun; cbn [run_api] in Hrun.
  { injection Hrun as <- <-. cbn. by rewrite Z.add_0_r. }
  apply Forall_cons in Hall as [Hev Hall]. destruct (api_step t ev s) as [acc1 s1] eqn:Es. destruct (run_api evs s1) as [acc2 s2] eqn:Er.
  injection Hrun as <- <-. pose proof (peak_tail (same_tenant tenant) t ev evs s) as Hpt. rewrite Es in Hpt. cbn [snd] in Hpt.
  pose proof (peak_open (same_tenant tenant) evs s1). eapply leak_step in Es; [|done|done|lia].
  replace (length (of_tenant tenant (acc1 ++ acc2))) with (length (of_tenant tenant acc1) + length (of_tenant tenant acc2))%nat
    by (unfold of_tenant; by rewrite List.filter_app, length_app).
  rewrite Nat2Z.inj_add, Z.add_assoc. apply (IH _ s1); [done|done|lia|done].
Qed.

End Leak.

(** ** Properties *)

(** C28: the sliding window holds.  For a tenant with an enforced quota that stays as
    it is, starting without tracked requests, along any run of checks, records, request
    ends and cleanups of this and other tenants, at non-decreasing times, no window of
    60 seconds contains more accepted requests of an operation than that operation's
    limit, as long as no two calls of the tenant for the operation are between their
    check and their record at the same time; each further call that is there at the
    same time can exceed the limit by one.  Limit and overlapping calls together are
    fewer than 2^32 - 1.  Accepted requests are those that [check_and_record] accepts;
    what the VM service records without a check is none of them. *)
Theorem rate_limit_window q tenant op limit evs m acc s' :
  let s := mkServer m [] in
  let overlapping := peak (same_call tenant op) evs s in
  quotas m !! tenant = Some q -> quota_enabled q = true -> tenant_requests m !! tenant = None ->
  operation_limit (E:=QuotaViolation) (operation_limits (api_limits q)) op = Ok limit ->
  0 <= limit -> limit + Z.of_nat overlapping < 2 ^ 32 - 1 -> Sorted Z.le (map fst evs) -> run_api evs s = (acc, s') ->
  forall T, Z.of_nat (length (in_window T (times_of tenant op acc))) <= limit + Z.of_nat (Nat.pred overlapping).
Proof.
  intros s overlapping Hq He Hnone Hop Hlim Hfit Hs Hrun.
  set (start := match evs with [] => 0 | (t, _) :: _ => t end). remember (Nat.max 1 overlapping) as k eqn:Ek.
  assert (Hpk : (peak (same_call tenant op) evs s <= k)%nat) by (unfold overlapping in Ek; lia).
  assert (Hinv : window_inv q tenant op (limit + Z.of_nat k - 1) start [] s).
  { unfold window_inv, conc_of, ops_of, tracking_of. cbn [as_manager s]. rewrite Hnone. simpl.
    split_and!; try done; [set_solver|intros; simpl; lia|intros; change (open_calls (same_call tenant op) s) with 0%nat; simpl; lia|].
    exists (start - WINDOW). rewrite lookup_empty. split; [lia|done]. }
  assert (Hs' : Sorted Z.le (start :: map fst evs)).
  { constructor; [done|]. unfold start. destruct evs as [|[t ev] evs]; constructor. simpl. lia. }
  destruct (run_window q tenant op limit k He ltac:(lia) ltac:(lia) Hop evs start [] s acc s' Hs' Hinv Hpk Hrun)
    as [now' (_ & _ & _ & Hwin & _)]. intros T. specialize (Hwin T). simpl in Hwin. lia.
Qed.

(** Concurrent requests are never given back by a server that only uses
    [check_and_record]: along any run without request ends for a tenant, at most
    [max_concurrent_requests] of its requests, and one for each further call that
    overlaps, are accepted altogether, however much time passes. *)
Theorem concurrent_requests_leak q tenant evs m acc s' :
  let s := mkServer m [] in
  let overlapping := peak (same_tenant tenant) evs s in
  quotas m !! tenant = Some q -> quota_enabled q = true -> tenant_requests m !! tenant = None ->
  0 <= max_concurrent_requests (api_limits q) ->
  max_concurrent_requests (api_limits q) + Z.of_nat overlapping < 2 ^ 32 - 1 ->
  Forall (fun '(_, ev) => never_ends tenant ev) evs -> run_api evs s = (acc, s') ->
  Z.of_nat (length (of_tenant tenant acc)) <= max_concurrent_requests (api_limits q) + Z.of_nat (Nat.pred overlapping).
Proof.
  intros s overlapping Hq He Hnone Hmax Hfit Hall Hrun. remember (Nat.max 1 overlapping) as k eqn:Ek.
  assert (Hpk : (peak (same_tenant tenant) evs s <= k)%nat) by (unfold overlapping in Ek; lia).
  assert (Hc : conc_of m tenant = 0) by (unfold conc_of, tracking_of; by rewrite Hnone).
  destruct (run_leak q tenant k He ltac:(lia) ltac:(lia) evs 0 s acc s' Hall) as (_ & _ & _ & Hfin); [|done|done|lia].
  split_and!; cbn; (done || lia).
Qed.

End QuotaBased.

(** * The in-memory limiter *)

Record RateLimit : Type := mkRateLimit { max_requests : Z; window : Z }.
Record OperationState : Type := mkOperationState { count : Z; window_start : Z }.

Record InMemoryRateLimiter : Type := mkInMemory {
  im_limits : gmap ApiOperation RateLimit;
  im_state : gmap string (gmap ApiOperation OperationState)
}.

Definition in_memory_new : InMemoryRateLimiter :=
  mkInMemory
    (<[ApiVmCreate := mkRateLimit 10 (60 * SECOND)]>
      (<[ApiVmDelete := mkRateLimit 10 (60 * SECOND)]>
        {[ ApiClusterJoin := mkRateLimit 5 (300 * SECOND) ]})) ∅.

Definition set_limit (op : ApiOperation) (max win : Z) (l : InMemoryRateLimiter)
    : InMemoryRateLimiter :=
  mkInMemory (<[op := mkRateLimit max win]> (im_limits l)) (im_state l).

(** The entry of a key and operation, created with the current time. *)
Definition entry (now : Z) (key : string) (op : ApiOperation) (l : InMemoryRateLimiter)
    : OperationState :=
  default (mkOperationState 0 now) (default ∅ (im_state l !! key) !! op).

Definition put_entry (key : string) (op : ApiOperation) (s : OperationState)
    (l : InMemoryRateLimiter) : InMemoryRateLimiter :=
  mkInMemory (im_limits l) (<[key := <[op := s]> (default ∅ (im_state l !! key))]> (im_state l)).

Section InMemory.
Context `{Profile}.

#[export] Instance in_memory_limiter : RateLimiter InMemoryRateLimiter := {
  rl_check := fun now key op =>
    let* l := sget in
    let* limit := slift (ok_or (Internal "No rate limit configured for operation")
                               (im_limits l !! op)) in
    let s := entry now key op l in
    let s1 := if window limit <? now - window_start s then mkOperationState 0 now else s in
    sput (put_entry key op s1 l) ;*
    if max_requests limit <=? count s1 then sfail (Internal "Rate limit exceeded") else sret tt;
  rl_record := fun now key op =>
    let* l := sget in
    let s := entry now key op l in
    sput (put_entry key op s l) ;*
    let* n := slift (arith_u 32 (count s + 1)) in
    sput (put_entry key op (mkOperationState n (window_start s)) l)
}.

(** Calls one after the other; each request with the time of its record. *)
Fixpoint run_requests (reqs : list (api_request * Z)) (l : InMemoryRateLimiter)
    : list api_request * InMemoryRateLimiter :=
  match reqs with
  | [] => ([], l)
  | ((key, op, now), later) :: reqs' =>
      let '(o, l1) := check_and_record now later key op l in
      let '(acc, l2) := run_requests reqs' l1 in
      (if is_ok o then (key, op, now) :: acc else acc, l2)
  end.

Definition lookup_entry (key : string) (op : ApiOperation) (l : InMemoryRateLimiter)
    : option OperationState := default ∅ (im_state l !! key) !! op.

Lemma lookup_put_entry key op s l key' op' :
  lookup_entry key' op' (put_entry key op s l) =
  if bool_decide (key' = key /\ op' = op) then Some s else lookup_entry key' op' l.
Proof.
  unfold lookup_entry, put_entry; simpl. case_bool_decide as Hk.
  - destruct Hk as [-> ->]. by rewrite lookup_insert_eq; simpl; rewrite lookup_insert_eq.
  - destruct (decide (key' = key)) as [->|Hne]; [|by rewrite lookup_insert_ne].
    rewrite lookup_insert_eq. simpl. rewrite lookup_insert_ne; [done|naive_solver].
Qed.

(** The entry after its window was checked. *)
Definition refreshed (limit : RateLimit) (now : Z) (key : string) (op : ApiOperation)
    (l : InMemoryRateLimiter) : OperationState :=
  let s := entry now key op l in
  if window limit <? now - window_start s then mkOperationState 0 now else s.

Lemma in_memory_request now later key op l limit o l' :
  im_limits l !! op = Some limit -> max_requests limit < 2 ^ 32 ->
  0 <= count (refreshed limit now key op l) ->
  check_and_record now later key op l = (o, l') ->
  let s := refreshed limit now key op l in
  im_limits l' = im_limits l /\
  (forall key' op', ~ (key' = key /\ op' = op) -> lookup_entry key' op' l' = lookup_entry key' op' l) /\
  (is_ok o = true -> count s < max_requests limit /\
     lookup_entry key op l' = Some (mkOperationState (count s + 1) (window_start s))) /\
  (is_ok o = false -> lookup_entry key op l' = Some s).
Proof.
  intros Hl Hmax Hpos. unfold check_and_record, rl_check, rl_record, in_memory_limiter. unfold_st.
  rewrite Hl. fold (refreshed limit now key op l). simpl.
  destruct (Z.leb_spec (max_requests limit) (count (refreshed limit now key op l))) as [Hle|Hlt].
  - intros [= <- <-]. simpl. split_and!; try done; [|by rewrite lookup_put_entry, bool_decide_true].
    intros key' op' Hne. by rewrite lookup_put_entry, bool_decide_false.
  - assert (He : entry later key op (put_entry key op (refreshed limit now key op l) l) =
      refreshed limit now key op l).
    { unfold entry. change (default ∅ (im_state ?x !! key) !! op) with (lookup_entry key op x).
      by rewrite lookup_put_entry, bool_decide_true. }
    rewrite He, arith_u_fits by (unfold fits_u; lia). intros [= <- <-]. simpl.
    split_and!; try done; [|by rewrite lookup_put_entry, bool_decide_true].
    intros key' op' Hne. by rewrite !lookup_put_entry, !bool_decide_false.
Qed.

(** The accepted times since a window started. *)
Definition since (start : Z) (times : list Z) : list Z := List.filter (fun x => start <=? x) times.

Definition fixed_inv (key : string) (op : ApiOperation) (limit : RateLimit) (now : Z)
    (times : list Z) (l : InMemoryRateLimiter) : Prop :=
  im_limits l !! op = Some limit /\ (forall x, x ∈ times -> x <= now) /\
  match lookup_entry key op l with
  | None => times = []
  | Some s => window_start s <= now /\ count s = Z.of_nat (length (since (window_start s) times)) /\
      count s <= max_requests limit /\
      forall x, x ∈ times -> window_start s <= x -> x <= window_start s + window limit
  end.

(** Checking the window at a later time keeps the entry's meaning. *)
Lemma refreshed_inv key op limit now t times l :
  fixed_inv key op limit now times l -> now <= t -> 0 <= window limit -> 0 <= max_requests limit ->
  let s := refreshed limit t key op l in
  window_start s <= t /\ count s = Z.of_nat (length (since (window_start s) times)) /\
  count s <= max_requests limit /\ t <= window_start s + window limit /\
  forall x, x ∈ times -> window_start s <= x -> x <= window_start s + window limit.
Proof.
  intros (_ & Hle & Hs) Ht Hw Hmax. cbv zeta. unfold refreshed, entry.
  change (default ∅ (im_state l !! key) !! op) with (lookup_entry key op l).
  destruct (lookup_entry key op l) as [s|]; simpl.
  - destruct Hs as (Hst & Hcnt & Hcm & Hwin).
    destruct (Z.ltb_spec (window limit) (t - window_start s)) as [Hexp|Hcur]; simpl.
    + assert (Hnone : forall x, x ∈ times -> x < t).
      { intros x Hx. specialize (Hwin x Hx). specialize (Hle x Hx).
        destruct (Z.le_gt_cases (window_start s) x); [specialize (Hwin ltac:(done)); lia|lia]. }
      assert (Hempty : since t times = []).
      { unfold since. clear -Hnone. induction times as [|x times IH]; [done|]. simpl.
        destruct (Z.leb_spec t x); [specialize (Hnone x ltac:(set_solver)); lia|].
        apply IH. intros; apply Hnone; set_solver. }
      rewrite Hempty. simpl. split_and!; try lia. intros x Hx ?. specialize (Hnone x Hx). lia.
    + split_and!; (done || lia).
  - subst times. destruct (Z.ltb_spec (window limit) (t - t)); simpl; split_and!; try lia; set_solver.
Qed.

Lemma fixed_inv_accept key op limit t times (l' : InMemoryRateLimiter) s :
  im_limits l' !! op = Some limit -> (forall x, x ∈ times -> x <= t) ->
  window_start s <= t -> count s = Z.of_nat (length (since (window_start s) times)) ->
  count s < max_requests limit -> t <= window_start s + window limit ->
  (forall x, x ∈ times -> window_start s <= x -> x <= window_start s + window limit) ->
  lookup_entry key op l' = Some (mkOperationState (count s + 1) (window_start s)) ->
  fixed_inv key op limit t (times ++ [t]) l'.
Proof.
  intros Hl Hle Hst Hcnt Hlt Htw Hwin He. split_and!; [done| |].
  - intros x [Hx| ->%list_elem_of_singleton]%elem_of_app; [by apply Hle|lia].
  - rewrite He. simpl. unfold since. rewrite List.filter_app, length_app. simpl.
    destruct (Z.leb_spec (window_start s) t); [|lia]. simpl. fold (since (window_start s) times).
    split_and!; try lia. intros x [Hx| ->%list_elem_of_singleton]%elem_of_app ?; [by apply Hwin|lia].
Qed.

Lemma fixed_inv_step key op limit now key' op' t later times l o l' :
  0 <= window limit -> 0 <= max_requests limit < 2 ^ 32 ->
  (forall op' lim, im_limits l !! op' = Some lim -> 0 <= max_requests lim < 2 ^ 32) ->
  (forall k o s, lookup_entry k o l = Some s -> 0 <= count s) ->
  fixed_inv key op limit now times l -> now <= t ->
  check_and_record t later key' op' l = (o, l') ->
  fixed_inv key op limit t
    (times ++ (if is_ok o && bool_decide (key' = key /\ op' = op) then [t] else [])) l' /\
  im_limits l' = im_limits l /\ (forall k o s, lookup_entry k o l' = Some s -> 0 <= count s).
Proof.
  intros Hw Hmax Hlims Hpos Hinv Ht E. pose proof Hinv as (Hl & Hle & Hs).
  destruct (im_limits l !! op') as [lim|] eqn:Hlim.
  2:{ unfold check_and_record, rl_check, in_memory_limiter in E. unfold_st. rewrite Hlim in E.
      simpl in E. injection E as <- <-. simpl. rewrite app_nil_r. split; [|done]. split_and!; [done| |].
      - intros x Hx. specialize (Hle x Hx). lia.
      - destruct (lookup_entry key op l); [|done]. split_and!; try tauto. lia. }
  assert (Hr : 0 <= count (refreshed lim t key' op' l)).
  { unfold refreshed, entry. change (default ∅ (im_state l !! key') !! op') with (lookup_entry key' op' l).
    destruct (lookup_entry key' op' l) as [s|] eqn:Es; simpl; [apply Hpos in Es|];
      destruct (_ <? _); simpl; lia. }
  destruct (in_memory_request t later key' op' l lim o l' Hlim (proj2 (Hlims _ _ Hlim)) Hr E)
    as (Hlim' & Hoth & Hacc & Hrej).
  assert (Hpos' : forall k o s, lookup_entry k o l' = Some s -> 0 <= count s).
  { intros k o' s Hk. destruct (decide (k = key' /\ o' = op')) as [[-> ->]|Hne].
    - destruct (is_ok o); [destruct (Hacc eq_refl) as [_ Hx]|pose proof (Hrej eq_refl) as Hx];
        rewrite Hx in Hk; injection Hk as <-; simpl; lia.
    - rewrite Hoth in Hk by done. by apply Hpos in Hk. }
  split; [|done]. destruct (decide (key' = key /\ op' = op)) as [[-> ->]|Hne].
  - rewrite bool_decide_true, andb_true_r by done. rewrite Hlim in Hl. injection Hl as ->.
    destruct (refreshed_inv key op limit now t times l Hinv Ht Hw ltac:(lia))
      as (Hst & Hcnt & Hcm & Htw & Hwin).
    assert (Hle' : forall x, x ∈ times -> x <= t) by (intros x Hx; specialize (Hle x Hx); lia).
    destruct (is_ok o).
    + destruct (Hacc eq_refl) as [Hlt He]. eapply fixed_inv_accept; try done. by rewrite Hlim'.
    + rewrite app_nil_r. split_and!; [by rewrite Hlim'|done|]. by rewrite (Hrej eq_refl).
  - rewrite bool_decide_false, andb_false_r, app_nil_r by done.
    split_and!; [by rewrite Hlim'|intros x Hx; specialize (Hle x Hx); lia|].
    rewrite Hoth by naive_solver. destruct (lookup_entry key op l); [|done]. split_and!; try tauto. lia.
Qed.

Lemma times_of_request key op k o t (b : bool) (acc : list api_request) :
  times_of key op (if b then (k, o, t) :: acc else acc) =
  (if b && bool_decide (k = key /\ o = op) then [t] else []) ++ times_of key op acc.
Proof.
  unfold times_of. destruct b; simpl; [|done].
  rewrite bool_decide_and. by destruct (bool_decide (k = key) && _).
Qed.

Lemma run_fixed key op limit reqs now times l acc l' :
  0 <= window limit -> 0 <= max_requests limit < 2 ^ 32 ->
  (forall op' lim, im_limits l !! op' = Some lim -> 0 <= max_requests lim < 2 ^ 32) ->
  (forall k o s, lookup_entry k o l = Some s -> 0 <= count s) ->
  fixed_inv key op limit now times l -> Sorted Z.le (now :: map (fun r => snd (fst r)) reqs) ->
  run_requests reqs l = (acc, l') ->
  exists now', fixed_inv key op limit now' (times ++ times_of key op acc) l'.
Proof.
  intros Hw Hmax. revert now times l acc.
  induction reqs as [|[[[k o] t] later] reqs IH]; intros now times l acc Hlims Hpos Hinv Hs Hrun;
    simpl in Hrun.
  { injection Hrun as <- <-. exists now. by rewrite app_nil_r. }
  destruct (check_and_record t later k o l) as [oc l1] eqn:Ec.
  destruct (run_requests reqs l1) as [acc1 l2] eqn:Er. injection Hrun as <- <-.
  simpl in Hs. apply Sorted_inv in Hs as [Hs Hhd]. apply HdRel_inv in Hhd.
  destruct (fixed_inv_step key op limit now k o t later times l oc l1 Hw Hmax Hlims Hpos Hinv Hhd Ec)
    as (Hinv1 & Hl1 & Hpos1).
  destruct (IH t _ l1 acc1 ltac:(by rewrite Hl1) Hpos1 Hinv1 Hs Er) as [now' Hfin].
  exists now'. rewrite <- app_assoc in Hfin. by rewrite times_of_request.
Qed.

(** ** Properties *)

(** The fixed window holds: along any run of requests one after the other, at non-decreasing
    times against a new in-memory limiter, for every key and every operation
    with a limit, at most that many requests were accepted since the start of
    the current window. *)
Theorem in_memory_window_bound limits key op limit reqs acc l' s :
  (forall op' lim, limits !! op' = Some lim -> 0 <= max_requests lim < 2 ^ 32 /\ 0 <= window lim) ->
  limits !! op = Some limit -> Sorted Z.le (map (fun r => snd (fst r)) reqs) ->
  run_requests reqs (mkInMemory limits ∅) = (acc, l') -> lookup_entry key op l' = Some s ->
  Z.of_nat (length (since (window_start s) (times_of key op acc))) <= max_requests limit.
Proof.
  intros Hlims Hl Hs Hrun He. destruct (Hlims _ _ Hl) as [Hmax Hw].
  set (start := match reqs with [] => 0 | ((_, t), _) :: _ => t end).
  assert (Hnone : forall k o, lookup_entry k o (mkInMemory limits ∅) = None).
  { intros k o. unfold lookup_entry. simpl. rewrite lookup_empty. simpl. apply lookup_empty. }
  assert (Hinv : fixed_inv key op limit start [] (mkInMemory limits ∅)).
  { split_and!; [done|set_solver|]. by rewrite Hnone. }
  assert (Hs' : Sorted Z.le (start :: map (fun r => snd (fst r)) reqs)).
  { constructor; [done|]. unfold start. destruct reqs as [|[[p t] later] reqs]; constructor. simpl. lia. }
  destruct (run_fixed key op limit reqs start [] (mkInMemory limits ∅) acc l' Hw Hmax
    ltac:(intros o lim Ho; by apply (Hlims o)) ltac:(intros k o x Hx; by rewrite Hnone in Hx)
    Hinv Hs' Hrun) as [now' (_ & _ & Hfin)]. simpl in Hfin. rewrite He in Hfin. lia.
Qed.
End InMemory.

#[local] Existing Instance map_storage.
#[local] Instance demo_profile : Profile := true.

(** Two of three VM creations that follow each other are accepted against a limit of
    two per minute, and all three when they overlap. *)
Definition demo_quota : TenantQuota :=
  mkTenantQuota "acme" default_vm_limits (mkApiLimits 100 200 50 (mkOperationLimits 2 20 5 50 10))
    default_storage_limits true 0 0.
Definition demo_manager : QuotaManager (gmap TenantId TenantQuota) :=
  mkQuotaManager {[ "acme" := demo_quota ]} ∅ ∅ ∅.
Definition demo_events : list (Z * api_event) :=
  [(0, EvCheck "acme" ApiVmCreate); (1, EvRecord "acme" ApiVmCreate);
   (SECOND, EvCheck "acme" ApiVmCreate); (SECOND + 1, EvRecord "acme" ApiVmCreate);
   (2 * SECOND, EvCheck "acme" ApiVmCreate); (61 * SECOND, EvCleanup);
   (61 * SECOND, EvCheck "acme" ApiVmCreate); (61 * SECOND, EvRecord "acme" ApiVmCreate)].
Definition demo_overlapping : list (Z * api_event) :=
  [(0, EvCheck "acme" ApiVmCreate); (0, EvCheck "acme" ApiVmCreate); (0, EvCheck "acme" ApiVmCreate);
   (1, EvRecord "acme" ApiVmCreate); (2, EvRecord "acme" ApiVmCreate); (3, EvRecord "acme" ApiVmCreate)].

Lemma demo_events_accepted :
  let s := mkServer demo_manager [] in
  length (fst (run_api demo_events s)) = 3%nat /\ peak (same_call "acme" ApiVmCreate) demo_events s = 1%nat /\
  peak (same_tenant "acme") demo_events s = 1%nat.
Proof. vm_compute. repeat split. Qed.

(** The comment calls the check and the record one atomic operation: three calls that
    overlap exceed a limit of two within a minute. *)
Theorem overlapping_calls_exceed_limit :
  exists s', run_api demo_overlapping (mkServer demo_manager []) =
    ([("acme", ApiVmCreate, 1); ("acme", ApiVmCreate, 2); ("acme", ApiVmCreate, 3)], s').
Proof. eexists. vm_compute. reflexivity. Qed.

Lemma rate_limit_window_witness :
  exists acc s', run_api demo_events (mkServer demo_manager []) = (acc, s') /\
    length acc = 3%nat /\
    forall T, Z.of_nat (length (in_window T (times_of "acme" ApiVmCreate acc))) <= 2 + Z.of_nat 0.
Proof.
  pose proof demo_events_accepted as (Hn & Hp & _). destruct (run_api demo_events (mkServer demo_manager [])) as [acc s'] eqn:E.
  exists acc, s'. split; [reflexivity|]. split; [exact Hn|].
  pose proof (rate_limit_window demo_quota "acme" ApiVmCreate 2 demo_events demo_manager acc s') as Hw. cbv zeta in Hw.
  rewrite Hp in Hw. apply Hw; [reflexivity|reflexivity|reflexivity|reflexivity|lia|cbn; lia| |exact E].
  unfold demo_events. simpl. unfold SECOND. repeat constructor; lia.
Defined.

Lemma concurrent_requests_leak_witness :
  exists acc s', run_api demo_events (mkServer demo_manager []) = (acc, s') /\
    Z.of_nat (length (of_tenant "acme" acc)) <= 50 + Z.of_nat 0.
Proof.
  pose proof demo_events_accepted as (_ & _ & Hp). destruct (run_api demo_events (mkServer demo_manager [])) as [acc s'] eqn:E.
  exists acc, s'. split; [reflexivity|].
  pose proof (concurrent_requests_leak demo_quota "acme" demo_events demo_manager acc s') as Hw. cbv zeta in Hw.
  rewrite Hp in Hw. apply Hw; [reflexivity|reflexivity|reflexivity|simpl; lia|simpl; lia| |exact E].
  unfold demo_events. repeat constructor; done.
Defined.

Definition demo_limits : gmap ApiOperation RateLimit :=
  {[ ApiVmCreate := mkRateLimit 2 (60 * SECOND) ]}.
Definition demo_requests : list (api_request * Z) :=
  [("test", ApiVmCreate, 0, 1); ("test", ApiVmCreate, 5, 5); ("test", ApiVmCreate, 7, 8)].

Lemma demo_requests_accepted :
  let '(acc, l') := run_requests demo_requests (mkInMemory demo_limits ∅) in
  length acc = 2%nat /\ bool_decide (is_Some (lookup_entry "test" ApiVmCreate l')) = true.
Proof. vm_compute. split; reflexivity. Qed.

Lemma in_memory_window_bound_witness :
  exists acc l' s, run_requests demo_requests (mkInMemory demo_limits ∅) = (acc, l') /\
    lookup_entry "test" ApiVmCreate l' = Some s /\ length acc = 2%nat /\
    Z.of_nat (length (since (window_start s) (times_of "test" ApiVmCreate acc))) <= 2.
Proof.
  pose proof demo_requests_accepted as Hn.
  destruct (run_requests demo_requests (mkInMemory demo_limits ∅)) as [acc l'] eqn:E.
  destruct Hn as [Hn [s Hs]%bool_decide_eq_true]. exists acc, l', s.
  split; [reflexivity|]. split; [exact Hs|]. split; [exact Hn|].
  apply (in_memory_window_bound demo_limits "test" ApiVmCreate (mkRateLimit 2 (60 * SECOND))
    demo_requests acc l' s); [| | |exact E|exact Hs].
  - intros op lim Hop. unfold demo_limits in Hop. apply lookup_singleton_Some in Hop as [<- <-].
    unfold SECOND. simpl. lia.
  - reflexivity.
  - repeat constructor; simpl; lia.
Defined.
