(* ===== verification/Proposals.v ===== *)
(** The proposals that are replicated through Raft
    (blixard-core/src/raft/proposals.rs). *)

From Stdlib Require Import ZArith Lia List.
From stdpp Require Import base tactics numbers gmap strings option list.
From S2P Require Import Prelude Errors Types ResourceQuotas IpPool.

Open Scope Z_scope.

Record ResourceRequirements : Type := mkRequirements {
  need_cpu_cores : Z;
  need_memory_mb : Z;
  need_disk_gb : Z;
  required_features : list string
}.

Record TaskSpec : Type := mkTaskSpec {
  task_command : string;
  task_args : list string;
  task_resources : ResourceRequirements;
  timeout_secs : Z
}.

Record TaskResult : Type := mkTaskResult {
  success : bool;
  output : string;
  task_error : option string;
  execution_time_ms : Z
}.

Record WorkerCapabilities : Type := mkCapabilities {
  cpu_cores : Z;
  memory_mb : Z;
  disk_gb : Z;
  features : list string
}.

Inductive WorkerStatus : Type := Online | Busy | Offline | WorkerFailed.

(** [status as u8], with the discriminants of the [repr(u8)] enum. *)
Definition worker_status_u8 (s : WorkerStatus) : Z :=
  match s with Online => 0 | Busy => 1 | Offline => 2 | WorkerFailed => 3 end.

Definition worker_status_try_from (value : Z) : BlixardResult WorkerStatus :=
  match value with
  | 0 => Ok Online
  | 1 => Ok Busy
  | 2 => Ok Offline
  | 3 => Ok WorkerFailed
  | _ => Err (Internal "Invalid WorkerStatus value")
  end.

Inductive ResourceOperation : Type := OperationCreate | OperationUpdate | OperationDelete.

Record ResourceUsageDelta : Type := mkDelta {
  vm_count_delta : Z;
  vcpu_delta : Z;
  memory_mb_delta : Z;
  disk_gb_delta : Z;
  delta_operation : ResourceOperation;
  delta_timestamp : Z
}.

(** [config.vcpus as i32]: [vcpus] is a [u32], [memory] a [u32]. *)
Definition from_vm_create (now : Z) (config : VmConfig) : ResourceUsageDelta :=
  mkDelta 1 (wrap_s 32 (vcpus config)) (memory config) 0 OperationCreate now.

(** Negating [i32::MIN] overflows. *)
Definition from_vm_delete `{Profile} (now : Z) (config : VmConfig) : BlixardResult ResourceUsageDelta :=
  let? v := arith_s 32 (- wrap_s 32 (vcpus config)) in
  Ok (mkDelta (-1) v (- memory config) 0 OperationDelete now).

Section Proposals.
Context `{IpNetLib}.

Inductive ProposalData : Type :=
| AssignTask (task_id : string) (node_id : Z) (task : TaskSpec)
| CompleteTask (task_id : string) (result : TaskResult)
| ReassignTask (task_id : string) (from_node to_node : Z)
| RegisterWorker (node_id : Z) (address : string) (capabilities : WorkerCapabilities)
    (topology : NodeTopology)
| UpdateWorkerStatus (node_id : Z) (status : WorkerStatus)
| RemoveWorker (node_id : Z)
| CreateVm (command : VmCommand)
| UpdateVmStatus (vm_name : string) (status : VmStatus) (node_id : Z)
| MigrateVm (vm_name : string) (from_node to_node : Z)
| IpPoolCmd (command : IpPoolCommand)
| AllocateIp (request : IpAllocationRequest)
| ReleaseVmIps (vm_id : VmId)
| SetTenantQuota (quota : TenantQuota)
| UpdateTenantUsage (tenant_id : TenantId) (delta : ResourceUsageDelta) (operation_id : VmId)
| RemoveTenantQuota (tenant_id : TenantId)
| Batch (proposals : list ProposalData).

Definition proposal_type (p : ProposalData) : string :=
  match p with
  | AssignTask _ _ _ => "assign_task"
  | CompleteTask _ _ => "complete_task"
  | ReassignTask _ _ _ => "reassign_task"
  | RegisterWorker _ _ _ _ => "register_worker"
  | UpdateWorkerStatus _ _ => "update_worker_status"
  | RemoveWorker _ => "remove_worker"
  | CreateVm _ => "vm_operation"
  | UpdateVmStatus _ _ _ => "update_vm_status"
  | MigrateVm _ _ _ => "migrate_vm"
  | IpPoolCmd _ => "ip_pool_command"
  | AllocateIp _ => "allocate_ip"
  | ReleaseVmIps _ => "release_vm_ips"
  | SetTenantQuota _ => "set_tenant_quota"
  | UpdateTenantUsage _ _ _ => "update_tenant_usage"
  | RemoveTenantQuota _ => "remove_tenant_quota"
  | Batch _ => "batch"
  end.

Fixpoint modifies_resources (p : ProposalData) : bool :=
  match p with
  | AssignTask _ _ _ | RegisterWorker _ _ _ _ | RemoveWorker _ | CreateVm _ | MigrateVm _ _ _
  | AllocateIp _ | ReleaseVmIps _ => true
  | CompleteTask _ _ | ReassignTask _ _ _ | UpdateWorkerStatus _ _ | UpdateVmStatus _ _ _
  | IpPoolCmd _ | SetTenantQuota _ | UpdateTenantUsage _ _ _ | RemoveTenantQuota _ => false
  | Batch proposals => existsb modifies_resources proposals
  end.

Definition requires_admission_control (p : ProposalData) : bool :=
  match p with
  | AssignTask _ _ _ | CreateVm (VmCreate _ _) | MigrateVm _ _ _ => true
  | _ => false
  end.

(** [BatchProposalBuilder]: the proposals in the order they were added. *)
Definition builder_new : list ProposalData := [].
Definition builder_add (b : list ProposalData) (p : ProposalData) : list ProposalData := b ++ [p].
Definition builder_build (b : list ProposalData) : ProposalData := Batch b.
End Proposals.

Lemma worker_status_roundtrip s : worker_status_try_from (worker_status_u8 s) = Ok s.
Proof. by destruct s. Qed.
