(* ===== verification/Codecs.v ===== *)
(** The serializer of [Wire] for the data that is stored or replicated, so that
    what is assumed of bincode is shown to be possible for these very types. *)

From Stdlib Require Import ZArith Lia List SpecFloat.
From stdpp Require Import base tactics numbers gmap strings option list countable.
From S2P Require Import Prelude Wire Float64 AntiAffinity VmHealth Types ResourceQuotas IpPool Proposals.

Open Scope Z_scope.

(** * Containers *)

#[export] Instance wire_nat : Wire nat.
Proof. apply (wire_via Z.of_nat Z.to_nat). apply Nat2Z.id. Defined.

#[export] Instance wire_unit : Wire unit.
Proof. apply (wire_via (fun _ => 0) (fun _ => tt)). by intros []. Defined.

#[export, refine] Instance wire_sum {A B} `{Wire A} `{Wire B} : Wire (A + B) := {
  put := fun s => match s with inl x => 0 :: put x | inr y => 1 :: put y end;
  get := fun b =>
    match b with
    | [] => None
    | t :: b1 =>
        if t =? 0 then match get b1 with Some (x, rest) => Some (inl x, rest) | None => None end
        else match get b1 with Some (y, rest) => Some (inr y, rest) | None => None end
    end
}.
Proof. intros [x|y] rest; simpl; by rewrite get_put. Defined.

#[export] Instance wire_gmap {K V} `{Countable K} `{Wire K} `{Wire V} : Wire (gmap K V) :=
  wire_via (fun m : gmap K V => map_to_list m) (fun l : list (K * V) => list_to_map l)
    (fun m => list_to_map_to_list m).

#[export] Instance wire_gset {K} `{Countable K} `{Wire K} : Wire (gset K) :=
  wire_via (fun s : gset K => elements s) (fun l : list K => list_to_set l)
    (fun s => list_to_set_elements_L s).

(** * Health checks and anti-affinity *)

#[export] Instance wire_float : Wire spec_float.
Proof.
  apply (wire_via
    (fun f => match f with
       | S754_zero s => (0, s, 0, 0) | S754_infinity s => (1, s, 0, 0) | S754_nan => (2, false, 0, 0)
       | S754_finite s m e => (3, s, Zpos m, e)
       end)
    (fun '(t, s, m, e) =>
       if t =? 0 then S754_zero s else if t =? 1 then S754_infinity s
       else if t =? 2 then S754_nan else S754_finite s (Z.to_pos m) e)).
  by intros [].
Defined.

#[export] Instance wire_check_type : Wire HealthCheckType.
Proof.
  apply (wire_via
    (fun c => match c with
       | Http u s t h => inl (inl (u, s, t, h))
       | Tcp a t => inl (inr (inl (a, t)))
       | Script c a e t => inl (inr (inr (c, a, e, t)))
       | Console h u t => inr (inl (h, u, t))
       | Process n m => inr (inr (inl (n, m)))
       | GuestAgent t => inr (inr (inr t))
       end)
    (fun s => match s with
       | inl (inl (u, s, t, h)) => Http u s t h
       | inl (inr (inl (a, t))) => Tcp a t
       | inl (inr (inr (c, a, e, t))) => Script c a e t
       | inr (inl (h, u, t)) => Console h u t
       | inr (inr (inl (n, m))) => Process n m
       | inr (inr (inr t)) => GuestAgent t
       end)).
  by intros [].
Defined.

#[export] Instance wire_priority : Wire HealthCheckPriority.
Proof.
  apply (wire_via (fun p => match p with Quick => 0 | Deep => 1 | Comprehensive => 2 end)
    (fun z => if z =? 0 then Quick else if z =? 1 then Deep else Comprehensive)).
  by intros [].
Defined.

#[export] Instance wire_action : Wire RecoveryAction.
Proof.
  apply (wire_via
    (fun a => match a with
       | NoAction => inl 0 | RestartVm => inl 1 | StopVm => inl 2
       | RestartService s => inr (inl s) | MigrateVmTo t => inr (inr (inl t))
       | CustomScript p a => inr (inr (inr (p, a)))
       end)
    (fun s => match s with
       | inl z => if z =? 0 then NoAction else if z =? 1 then RestartVm else StopVm
       | inr (inl s) => RestartService s | inr (inr (inl t)) => MigrateVmTo t
       | inr (inr (inr (p, a))) => CustomScript p a
       end)).
  by intros [].
Defined.

#[export] Instance wire_escalation : Wire RecoveryEscalation.
Proof.
  apply (wire_via (fun e => (actions e, max_attempts e, reset_after e))
    (fun '(a, m, r) => mkEscalation a m r)).
  by intros [].
Defined.

#[export] Instance wire_health_check : Wire HealthCheck.
Proof.
  apply (wire_via
    (fun c => (hc_name c, check_type c, hc_critical c, hc_weight c, hc_priority c,
       recovery_escalation c, hc_failure_threshold c))
    (fun '(n, t, c, w, p, r, f) => mkHealthCheck n t c w p r f)).
  by intros [].
Defined.

#[export] Instance wire_health_config : Wire VmHealthCheckConfig.
Proof.
  apply (wire_via
    (fun c => (checks c, check_interval_secs c, failure_threshold c, success_threshold c,
       initial_delay_secs c))
    (fun '(a, b, c, d, e) => mkHealthConfig a b c d e)).
  by intros [].
Defined.

#[export] Instance wire_rule : Wire AntiAffinityRule.
Proof.
  apply (wire_via
    (fun r => (match rule_type r with Hard => None | Soft w => Some w end, group_key r,
       max_per_node r, scope r))
    (fun '(t, g, m, s) => mkRule (match t with None => Hard | Some w => Soft w end) g m s)).
  by intros [[] ? ? ?].
Defined.

(** * VMs *)

#[export] Instance wire_locality : Wire LocalityPreference.
Proof.
  apply (wire_via
    (fun l => (preferred_datacenter l, preferred_zone l, enforce_same_datacenter l,
       spread_across_zones l, max_latency_ms l, excluded_datacenters l))
    (fun '(a, b, c, d, e, f) => mkLocality a b c d e f)).
  by intros [].
Defined.

#[export] Instance wire_vm_config : Wire VmConfig.
Proof.
  apply (wire_via
    (fun c => (vm_name c, config_path c, vcpus c, memory c, tenant_id c, ip_address c, metadata c,
       anti_affinity c, vm_priority c, preemptible c, locality_preference c, health_check_config c))
    (fun '(a, b, c, d, e, f, g, h, i, j, k, l) => mkVmConfig a b c d e f g h i j k l)).
  by intros [].
Defined.

#[export] Instance wire_vm_status : Wire VmStatus.
Proof.
  apply (wire_via
    (fun s => match s with Creating => 0 | Starting => 1 | Running => 2 | Stopping => 3 | Stopped => 4
       | Failed => 5 end)
    (fun z => if z =? 0 then Creating else if z =? 1 then Starting else if z =? 2 then Running
       else if z =? 3 then Stopping else if z =? 4 then Stopped else Failed)).
  by intros [].
Defined.

#[export] Instance wire_vm_state : Wire VmState.
Proof.
  apply (wire_via
    (fun v => (vs_name v, vs_config v, vs_status v, vs_node_id v, vs_created_at v, vs_updated_at v))
    (fun '(a, b, c, d, e, f) => mkVmState a b c d e f)).
  by intros [].
Defined.

#[export] Instance wire_migration : Wire VmMigrationTask.
Proof.
  apply (wire_via
    (fun t => (mt_vm_name t, source_node_id t, target_node_id t, live_migration t, force t))
    (fun '(a, b, c, d, e) => mkMigration a b c d e)).
  by intros [].
Defined.

#[export] Instance wire_vm_command : Wire VmCommand.
Proof.
  apply (wire_via
    (fun c => match c with
       | VmCreate c n => inl (inl (c, n)) | VmStart n => inl (inr (inl n)) | VmStop n => inl (inr (inr n))
       | VmDelete n => inr (inl n) | VmUpdateStatus n s => inr (inr (inl (n, s)))
       | VmMigrate t => inr (inr (inr t))
       end)
    (fun s => match s with
       | inl (inl (c, n)) => VmCreate c n | inl (inr (inl n)) => VmStart n | inl (inr (inr n)) => VmStop n
       | inr (inl n) => VmDelete n | inr (inr (inl (n, s))) => VmUpdateStatus n s
       | inr (inr (inr t)) => VmMigrate t
       end)).
  by intros [].
Defined.

#[export] Instance wire_topology : Wire NodeTopology.
Proof.
  apply (wire_via (fun t => (datacenter t, zone t, rack t)) (fun '(a, b, c) => mkTopology a b c)).
  by intros [].
Defined.

(** * Quotas *)

#[export] Instance wire_operation_limits : Wire OperationLimits.
Proof.
  apply (wire_via
    (fun o => (vm_create_per_minute o, vm_delete_per_minute o, cluster_join_per_hour o,
       status_query_per_second o, config_change_per_hour o))
    (fun '(a, b, c, d, e) => mkOperationLimits a b c d e)).
  by intros [].
Defined.

#[export] Instance wire_api_limits : Wire ApiRateLimits.
Proof.
  apply (wire_via
    (fun a => (requests_per_second a, burst_capacity a, max_concurrent_requests a, operation_limits a))
    (fun '(a, b, c, d) => mkApiLimits a b c d)).
  by intros [].
Defined.

#[export] Instance wire_vm_limits : Wire VmResourceLimits.
Proof.
  apply (wire_via
    (fun v => (max_vms v, max_vcpus v, max_memory_mb v, max_disk_gb v, max_vms_per_node v,
       overcommit_ratio v, quota_priority v))
    (fun '(a, b, c, d, e, f, g) => mkVmLimits a b c d e f g)).
  by intros [].
Defined.

#[export] Instance wire_storage_limits : Wire StorageLimits.
Proof.
  apply (wire_via
    (fun s => (max_storage_gb s, max_disk_images s, max_image_size_gb s, max_backup_storage_gb s, max_iops s))
    (fun '(a, b, c, d, e) => mkStorageLimits a b c d e)).
  by intros [].
Defined.

#[export] Instance wire_quota : Wire TenantQuota.
Proof.
  apply (wire_via
    (fun q => (quota_tenant_id q, vm_limits q, api_limits q, storage_limits q, quota_enabled q,
       quota_created_at q, quota_updated_at q))
    (fun '(a, b, c, d, e, f, g) => mkTenantQuota a b c d e f g)).
  by intros [].
Defined.

#[export] Instance wire_vm_usage : Wire VmResourceUsage.
Proof.
  apply (wire_via
    (fun u => (active_vms u, used_vcpus u, used_memory_mb u, used_disk_gb u, vms_per_node u))
    (fun '(a, b, c, d, e) => mkVmUsage a b c d e)).
  by intros [].
Defined.

#[export] Instance wire_operation_usage : Wire OperationUsage.
Proof.
  apply (wire_via
    (fun u => (vm_create_current_minute u, vm_delete_current_minute u, cluster_join_current_hour u,
       status_query_current_second u, config_change_current_hour u))
    (fun '(a, b, c, d, e) => mkOperationUsage a b c d e)).
  by intros [].
Defined.

#[export] Instance wire_api_usage : Wire ApiUsage.
Proof.
  apply (wire_via
    (fun u => (requests_current_second u, requests_current_minute u, requests_current_hour u,
       usage_concurrent_requests u, operation_usage u, request_timestamps u))
    (fun '(a, b, c, d, e, f) => mkApiUsage a b c d e f)).
  by intros [].
Defined.

#[export] Instance wire_storage_usage : Wire StorageUsage.
Proof.
  apply (wire_via
    (fun u => (used_storage_gb u, disk_image_count u, backup_storage_gb u, current_iops u))
    (fun '(a, b, c, d) => mkStorageUsage a b c d)).
  by intros [].
Defined.

#[export] Instance wire_usage : Wire TenantUsage.
Proof.
  apply (wire_via
    (fun u => (usage_tenant_id u, vm_usage u, api_usage u, storage_usage u, usage_updated_at u))
    (fun '(a, b, c, d, e) => mkTenantUsage a b c d e)).
  by intros [].
Defined.

(** * Addresses *)

#[export] Instance wire_ip : Wire IpAddr.
Proof.
  apply (wire_via (fun a => match a with V4 n => inl n | V6 n => inr n end)
    (fun s => match s with inl n => V4 n | inr n => V6 n end)).
  by intros [].
Defined.

#[export] Instance wire_ip_allocation : Wire IpAllocation.
Proof.
  apply (wire_via
    (fun a => (alloc_ip a, alloc_pool_id a, alloc_vm_id a, alloc_mac_address a, allocated_at a, expires_at a))
    (fun '(a, b, c, d, e, f) => mkIpAllocation a b c d e f)).
  by intros [].
Defined.

#[export] Instance wire_strategy : Wire IpPoolSelectionStrategy.
Proof.
  apply (wire_via
    (fun s => match s with LeastUtilized => 0 | MostUtilized => 1 | RoundRobin => 2 | TopologyAware => 3
       | Random => 4 end)
    (fun z => if z =? 0 then LeastUtilized else if z =? 1 then MostUtilized else if z =? 2 then RoundRobin
       else if z =? 3 then TopologyAware else Random)).
  by intros [].
Defined.

#[export] Instance wire_ip_request : Wire IpAllocationRequest.
Proof.
  apply (wire_via
    (fun r => (req_vm_id r, req_preferred_pool r, req_required_tags r, req_topology_hint r,
       req_selection_strategy r, req_mac_address r))
    (fun '(a, b, c, d, e, f) => mkIpRequest a b c d e f)).
  by intros [].
Defined.

(** * Tasks and workers *)

#[export] Instance wire_requirements : Wire ResourceRequirements.
Proof.
  apply (wire_via (fun r => (need_cpu_cores r, need_memory_mb r, need_disk_gb r, required_features r))
    (fun '(a, b, c, d) => mkRequirements a b c d)).
  by intros [].
Defined.

#[export] Instance wire_task : Wire TaskSpec.
Proof.
  apply (wire_via (fun t => (task_command t, task_args t, task_resources t, timeout_secs t))
    (fun '(a, b, c, d) => mkTaskSpec a b c d)).
  by intros [].
Defined.

#[export] Instance wire_task_result : Wire TaskResult.
Proof.
  apply (wire_via (fun t => (success t, output t, task_error t, execution_time_ms t))
    (fun '(a, b, c, d) => mkTaskResult a b c d)).
  by intros [].
Defined.

#[export] Instance wire_capabilities : Wire WorkerCapabilities.
Proof.
  apply (wire_via (fun c => (cpu_cores c, memory_mb c, disk_gb c, features c))
    (fun '(a, b, c, d) => mkCapabilities a b c d)).
  by intros [].
Defined.

#[export] Instance wire_worker_status : Wire WorkerStatus.
Proof.
  apply (wire_via worker_status_u8
    (fun z => match worker_status_try_from z with Ok s => s | _ => Online end)).
  by intros [].
Defined.

#[export] Instance wire_delta : Wire ResourceUsageDelta.
Proof.
  apply (wire_via
    (fun d => (vm_count_delta d, vcpu_delta d, memory_mb_delta d, disk_gb_delta d,
       match delta_operation d with OperationCreate => 0 | OperationUpdate => 1 | OperationDelete => 2 end,
       delta_timestamp d))
    (fun '(a, b, c, d, o, t) => mkDelta a b c d
       (if o =? 0 then OperationCreate else if o =? 1 then OperationUpdate else OperationDelete) t)).
  by intros [? ? ? ? [] ?].
Defined.

(** * Proposals *)

Section Proposals.
Context `{IpNetLib} `{Wire IpNet}.

#[export] Instance wire_ip_pool : Wire IpPoolConfig.
Proof.
  apply (wire_via
    (fun c => (id c, name c, subnet c, vlan_id c, gateway c, dns_servers c, allocation_start c,
       allocation_end c, topology_hint c, reserved_ips c, enabled c, tags c))
    (fun '(a, b, c, d, e, f, g, h, i, j, k, l) => mkIpPoolConfig a b c d e f g h i j k l)).
  by intros [].
Defined.

#[export] Instance wire_ip_command : Wire IpPoolCommand.
Proof.
  apply (wire_via
    (fun c => match c with
       | CreatePool c => inl (inl c) | UpdatePool c => inl (inr (inl c)) | DeletePool p => inl (inr (inr p))
       | SetPoolEnabled p b => inr (inl (p, b)) | ReserveIps p s => inr (inr (inl (p, s)))
       | ReleaseReservedIps p s => inr (inr (inr (p, s)))
       end)
    (fun s => match s with
       | inl (inl c) => CreatePool c | inl (inr (inl c)) => UpdatePool c | inl (inr (inr p)) => DeletePool p
       | inr (inl (p, b)) => SetPoolEnabled p b | inr (inr (inl (p, s))) => ReserveIps p s
       | inr (inr (inr (p, s))) => ReleaseReservedIps p s
       end)).
  by intros [].
Defined.

(** What a proposal that is not a batch carries. *)
Definition payload : Type :=
  (((string * Z * TaskSpec) + (string * TaskResult)) + ((string * Z * Z) +
    (Z * string * WorkerCapabilities * NodeTopology))) +
  (((Z * WorkerStatus) + Z) + (VmCommand + (string * VmStatus * Z))) +
  ((((string * Z * Z) + IpPoolCommand) + (IpAllocationRequest + VmId)) +
   ((TenantQuota + (TenantId * ResourceUsageDelta * VmId)) + TenantId)).

Fixpoint proposal_tree (p : ProposalData) : gen_tree payload :=
  match p with
  | AssignTask a b c => GenLeaf (inl (inl (inl (inl (a, b, c)))))
  | CompleteTask a b => GenLeaf (inl (inl (inl (inr (a, b)))))
  | ReassignTask a b c => GenLeaf (inl (inl (inr (inl (a, b, c)))))
  | RegisterWorker a b c d => GenLeaf (inl (inl (inr (inr (a, b, c, d)))))
  | UpdateWorkerStatus a b => GenLeaf (inl (inr (inl (inl (a, b)))))
  | RemoveWorker a => GenLeaf (inl (inr (inl (inr a))))
  | CreateVm c => GenLeaf (inl (inr (inr (inl c))))
  | UpdateVmStatus a b c => GenLeaf (inl (inr (inr (inr (a, b, c)))))
  | MigrateVm a b c => GenLeaf (inr (inl (inl (inl (a, b, c)))))
  | IpPoolCmd c => GenLeaf (inr (inl (inl (inr c))))
  | AllocateIp r => GenLeaf (inr (inl (inr (inl r))))
  | ReleaseVmIps v => GenLeaf (inr (inl (inr (inr v))))
  | SetTenantQuota q => GenLeaf (inr (inr (inl (inl q))))
  | UpdateTenantUsage a b c => GenLeaf (inr (inr (inl (inr (a, b, c)))))
  | RemoveTenantQuota a => GenLeaf (inr (inr (inr a)))
  | Batch ps => GenNode 0 (map proposal_tree ps)
  end.

Fixpoint tree_proposal (t : gen_tree payload) : ProposalData :=
  match t with
  | GenLeaf (inl (inl (inl (inl (a, b, c))))) => AssignTask a b c
  | GenLeaf (inl (inl (inl (inr (a, b))))) => CompleteTask a b
  | GenLeaf (inl (inl (inr (inl (a, b, c))))) => ReassignTask a b c
  | GenLeaf (inl (inl (inr (inr (a, b, c, d))))) => RegisterWorker a b c d
  | GenLeaf (inl (inr (inl (inl (a, b))))) => UpdateWorkerStatus a b
  | GenLeaf (inl (inr (inl (inr a)))) => RemoveWorker a
  | GenLeaf (inl (inr (inr (inl c)))) => CreateVm c
  | GenLeaf (inl (inr (inr (inr (a, b, c))))) => UpdateVmStatus a b c
  | GenLeaf (inr (inl (inl (inl (a, b, c))))) => MigrateVm a b c
  | GenLeaf (inr (inl (inl (inr c)))) => IpPoolCmd c
  | GenLeaf (inr (inl (inr (inl r)))) => AllocateIp r
  | GenLeaf (inr (inl (inr (inr v)))) => ReleaseVmIps v
  | GenLeaf (inr (inr (inl (inl q)))) => SetTenantQuota q
  | GenLeaf (inr (inr (inl (inr (a, b, c))))) => UpdateTenantUsage a b c
  | GenLeaf (inr (inr (inr a))) => RemoveTenantQuota a
  | GenNode _ ts => Batch (map tree_proposal ts)
  end.

Lemma tree_of_proposal : forall p, tree_proposal (proposal_tree p) = p.
Proof.
  fix IH 1. intros [ | | | | | | | | | | | | | | |ps]; try reflexivity. simpl. f_equal.
  induction ps as [|p ps IHps]; [reflexivity|]. simpl. f_equal; [apply IH|exact IHps].
Qed.

#[export] Instance wire_proposal : Wire ProposalData.
Proof.
  apply (wire_via (fun p => gen_tree_to_list (proposal_tree p))
    (fun l => match gen_tree_of_list [] l with Some t => tree_proposal t | None => Batch [] end)).
  intros p. rewrite <- (app_nil_r (gen_tree_to_list _)), gen_tree_of_to_list. simpl.
  apply tree_of_proposal.
Defined.

(** A proposal is never written as nothing. *)
Lemma put_proposal_nonempty p : put p <> [].
Proof. simpl. discriminate. Qed.
End Proposals.
