(* ===== verification/RaftCodec.v ===== *)
(** The byte format of the Raft log and of the Raft state
    (blixard-core/src/raft_codec.rs).

    A decoder keeps [data[cursor..]], the bytes that are left, instead of [data]
    and [cursor]: [cursor + n > data.len()] is then that fewer than [n] bytes are
    left.  The types are those of the raft crate; bytes are integers. *)

From Stdlib Require Import ZArith Lia List.
From stdpp Require Import base tactics numbers strings option.
From stdpp Require Import list relations.
From S2P Require Import Prelude Errors.

Open Scope Z_scope.

Abbreviation bytes := (list Z).

(** * Raft types *)

Record Entry : Type := mkEntry {
  entry_type : Z;
  entry_term : Z;
  entry_index : Z;
  entry_data : bytes;
  entry_context : bytes;
  sync_log : bool
}.

Record HardState : Type := mkHardState { hs_term : Z; hs_vote : Z; hs_commit : Z }.

Record ConfState : Type := mkConfState {
  voters : list Z;
  learners : list Z;
  voters_outgoing : list Z;
  learners_next : list Z;
  auto_leave : bool
}.

Definition default_hard_state : HardState := mkHardState 0 0 0.
Definition default_conf_state : ConfState := mkConfState [] [] [] [] false.

(** * Encoding *)

(** [(l.len() as u32).to_le_bytes()]. *)
Definition len_bytes {A} (l : list A) : bytes := le_bytes 4 (wrap_u 32 (Z.of_nat (length l))).

Definition bool_byte (b : bool) : Z := if b then 1 else 0.

Definition serialize_entry (e : Entry) : bytes :=
  to_le_bytes (entry_index e) ++ to_le_bytes (entry_term e) ++ [wrap_u 8 (entry_type e)] ++
  len_bytes (entry_data e) ++ entry_data e ++
  len_bytes (entry_context e) ++ entry_context e ++ [bool_byte (sync_log e)].

Definition serialize_hard_state (hs : HardState) : bytes :=
  to_le_bytes (hs_term hs) ++ to_le_bytes (hs_vote hs) ++ to_le_bytes (hs_commit hs).

Definition put_ids (ids : list Z) : bytes := len_bytes ids ++ concat (map to_le_bytes ids).

Definition serialize_conf_state (cs : ConfState) : bytes :=
  put_ids (voters cs) ++ put_ids (learners cs) ++ put_ids (voters_outgoing cs) ++
  put_ids (learners_next cs) ++ [bool_byte (auto_leave cs)].

(** * Decoding *)

Definition reader (A : Type) : Type := st bytes BlixardError A.

(** [data[cursor..cursor + n]], after the check that those bytes are there. *)
Definition read_bytes (err : BlixardError) (n : nat) : reader bytes :=
  fun rest => if (length rest <? n)%nat then (Err err, rest) else (Ok (take n rest), drop n rest).

(** A little-endian integer of [n] bytes. *)
Definition read_int (err : BlixardError) (n : nat) : reader Z :=
  let* bs := read_bytes err n in sret (le_value bs).

Definition read_byte (err : BlixardError) : reader Z := read_int err 1.

Definition run_reader {A} (r : reader A) (data : bytes) : BlixardResult A := fst (r data).

Definition entry_error : BlixardError := Serialization "deserialize entry (Entry)".
Definition entry_error' : BlixardError := Serialization "deserialize entry".
Definition hard_state_error : BlixardError := Serialization "deserialize hard state".
Definition conf_state_error : BlixardError := Serialization "deserialize conf state".

Definition read_entry : reader Entry :=
  let* index := read_int (Serialization "deserialize entry index (u64)") 8 in
  let* term := read_int (Serialization "deserialize entry term (u64)") 8 in
  let* ty := read_byte entry_error in
  let* data_len := read_int entry_error 4 in
  let* payload := read_bytes entry_error (Z.to_nat data_len) in
  let* context_len := read_int entry_error' 4 in
  let* context := read_bytes entry_error' (Z.to_nat context_len) in
  let* sync := read_byte entry_error' in
  sret (mkEntry ty term index payload context (negb (sync =? 0))).

Definition deserialize_entry (data : bytes) : BlixardResult Entry :=
  if (length data <? 26)%nat then Err entry_error else run_reader read_entry data.

Definition deserialize_hard_state (data : bytes) : BlixardResult HardState :=
  if negb (length data =? 24)%nat then Err hard_state_error
  else run_reader (
    let* term := read_int hard_state_error 8 in
    let* vote := read_int hard_state_error 8 in
    let* commit := read_int hard_state_error 8 in
    sret (mkHardState term vote commit)) data.

(** [for _ in 0..n] with a push of the next identifier. *)
Fixpoint read_ids (n : nat) (acc : list Z) : reader (list Z) :=
  match n with
  | O => sret acc
  | S n' => let* v := read_int conf_state_error 8 in read_ids n' (acc ++ [v])
  end.

Definition read_id_list : reader (list Z) :=
  let* n := read_int conf_state_error 4 in read_ids (Z.to_nat n) [].

(** The flag is optional: when no byte is left it stays [false]. *)
Definition read_auto_leave : reader bool :=
  fun rest => match rest with
              | [] => (Ok false, [])
              | b :: rest' => (Ok (negb (b =? 0)), rest')
              end.

Definition deserialize_conf_state (data : bytes) : BlixardResult ConfState :=
  if (length data <? 16)%nat then Err conf_state_error
  else run_reader (
    let* v := read_id_list in
    let* l := read_id_list in
    let* vo := read_id_list in
    let* ln := read_id_list in
    let* leave := read_auto_leave in
    sret (mkConfState v l vo ln leave)) data.

(** * Lemmas *)

Lemma le_value_le_bytes_small n z : 0 <= z < 256 ^ Z.of_nat n -> le_value (le_bytes n z) = z.
Proof. intros Hz. rewrite le_value_le_bytes. by apply Z.mod_small. Qed.

Lemma read_bytes_app err (bs rest : bytes) :
  read_bytes err (length bs) (bs ++ rest) = (Ok bs, rest).
Proof.
  unfold read_bytes. rewrite length_app. destruct (Nat.ltb_spec (length bs + length rest) (length bs)).
  - lia.
  - by rewrite take_app_length, drop_app_length.
Qed.

Lemma read_bytes_short err n (rest : bytes) :
  (length rest < n)%nat -> read_bytes err n rest = (Err err, rest).
Proof. intros Hl. unfold read_bytes. by destruct (Nat.ltb_spec (length rest) n); [|lia]. Qed.

Lemma read_int_app err n z rest :
  0 <= z < 256 ^ Z.of_nat n -> read_int err n (le_bytes n z ++ rest) = (Ok z, rest).
Proof.
  intros Hz. unfold read_int, sbind, sret. rewrite <- (le_bytes_length n z) at 1.
  rewrite read_bytes_app. by rewrite le_value_le_bytes_small.
Qed.

Lemma read_u64_app err z rest :
  0 <= z < 2 ^ 64 -> read_int err 8 (to_le_bytes z ++ rest) = (Ok z, rest).
Proof. intros Hz. by apply read_int_app. Qed.

Lemma len_bytes_small {A} (l : list A) err rest :
  Z.of_nat (length l) < 2 ^ 32 -> read_int err 4 (len_bytes l ++ rest) = (Ok (Z.of_nat (length l)), rest).
Proof.
  intros Hl. unfold len_bytes, wrap_u. rewrite Z.mod_small by lia. apply read_int_app.
  replace (256 ^ Z.of_nat 4) with (2 ^ 32) by done. lia.
Qed.

Lemma read_byte_cons err b rest : 0 <= b < 256 -> read_byte err (b :: rest) = (Ok b, rest).
Proof.
  intros Hb. unfold read_byte, read_int, sbind, sret, read_bytes. simpl. rewrite drop_0. do 2 f_equal. lia.
Qed.

(** A length-prefixed byte string is read back in two steps. *)
Ltac read_sized_step :=
  unfold sbind at 1; rewrite len_bytes_small by done;
  unfold sbind at 1; rewrite Nat2Z.id, read_bytes_app.

Lemma bool_byte_eqb b : negb (bool_byte b =? 0) = b.
Proof. by destruct b. Qed.

Lemma bool_byte_range b : 0 <= bool_byte b < 256.
Proof. destruct b; simpl; lia. Qed.

(** Entries whose fields fit their encoding. *)
Definition entry_ok (e : Entry) : Prop :=
  0 <= entry_type e < 256 /\ 0 <= entry_term e < 2 ^ 64 /\ 0 <= entry_index e < 2 ^ 64 /\
  Z.of_nat (length (entry_data e)) < 2 ^ 32 /\ Z.of_nat (length (entry_context e)) < 2 ^ 32.

Definition ids_ok (ids : list Z) : Prop :=
  Z.of_nat (length ids) < 2 ^ 32 /\ Forall (fun v => 0 <= v < 2 ^ 64) ids.

Definition conf_state_ok (cs : ConfState) : Prop :=
  ids_ok (voters cs) /\ ids_ok (learners cs) /\ ids_ok (voters_outgoing cs) /\ ids_ok (learners_next cs).

Definition hard_state_ok (hs : HardState) : Prop :=
  0 <= hs_term hs < 2 ^ 64 /\ 0 <= hs_vote hs < 2 ^ 64 /\ 0 <= hs_commit hs < 2 ^ 64.

Lemma read_ids_app ids acc rest :
  Forall (fun v => 0 <= v < 2 ^ 64) ids ->
  read_ids (length ids) acc (concat (map to_le_bytes ids) ++ rest) = (Ok (acc ++ ids), rest).
Proof.
  revert acc. induction ids as [|v ids IH]; intros acc Hids; cbn [map concat length read_ids].
  { by rewrite app_nil_r. }
  apply Forall_cons in Hids as [Hv Hids]. unfold sbind.
  rewrite <- app_assoc, read_u64_app by done. rewrite IH by done. by rewrite <- app_assoc.
Qed.

Lemma read_id_list_app ids rest :
  ids_ok ids -> read_id_list (put_ids ids ++ rest) = (Ok ids, rest).
Proof.
  intros [Hl Hids]. unfold read_id_list, put_ids, sbind. rewrite <- app_assoc, len_bytes_small by done.
  rewrite Nat2Z.id. by apply read_ids_app.
Qed.

Lemma put_ids_length ids : (4 <= length (put_ids ids))%nat.
Proof. unfold put_ids, len_bytes. rewrite length_app, le_bytes_length. lia. Qed.

Lemma serialize_entry_length e :
  length (serialize_entry e) = (26 + length (entry_data e) + length (entry_context e))%nat.
Proof.
  unfold serialize_entry, to_le_bytes, len_bytes. rewrite !length_app, !le_bytes_length. simpl. lia.
Qed.

Lemma read_entry_app e rest : entry_ok e -> read_entry (serialize_entry e ++ rest) = (Ok e, rest).
Proof.
  intros (Hty & Hterm & Hidx & Hd & Hc). unfold read_entry, serialize_entry.
  rewrite <- !app_assoc. unfold sbind at 1. rewrite read_u64_app by done.
  unfold sbind at 1. rewrite read_u64_app by done. cbn [app].
  unfold sbind at 1. unfold wrap_u. rewrite Z.mod_small, read_byte_cons by lia.
  read_sized_step. read_sized_step. unfold sbind, sret.
  rewrite read_byte_cons by apply bool_byte_range. rewrite bool_byte_eqb. by destruct e.
Qed.

(** Readers that never look beyond what they consume: on a prefix of an input
    they read, they fail, or read the same and leave what is left of the prefix. *)
Definition prefix_strict {A} (r : reader A) : Prop :=
  forall p q a rest, r (p ++ q) = (Ok a, rest) ->
    (exists e s, r p = (Err e, s)) \/ exists p', rest = p' ++ q /\ r p = (Ok a, p').

Lemma strict_ret {A} (a : A) : prefix_strict (sret a).
Proof. intros p q a' rest [= <- <-]. right. by exists p. Qed.

Lemma strict_bytes err n : prefix_strict (read_bytes err n).
Proof.
  intros p q a rest. unfold read_bytes. rewrite length_app.
  destruct (Nat.ltb_spec (length p + length q) n); [done|]. intros [= <- <-].
  destruct (Nat.ltb_spec (length p) n); [left; eauto|]. right. exists (drop n p).
  rewrite take_app_le, drop_app_le by lia. done.
Qed.

Lemma strict_bind {A B} (r : reader A) (k : A -> reader B) :
  prefix_strict r -> (forall a, prefix_strict (k a)) -> prefix_strict (sbind r k).
Proof.
  intros Hr Hk p q b rest. unfold sbind.
  destruct (r (p ++ q)) as [[a|e|] s] eqn:E; try done. intros Ek.
  destruct (Hr _ _ _ _ E) as [(e & s' & ->)|(p' & -> & ->)]; [left; eauto|].
  destruct (Hk a _ _ _ _ Ek) as [(e & s' & ->)|(p2 & -> & ->)]; [left; eauto|right; eauto].
Qed.

Lemma strict_int err n : prefix_strict (read_int err n).
Proof. apply strict_bind; [apply strict_bytes|intros; apply strict_ret]. Qed.

#[local] Hint Resolve strict_ret strict_bytes strict_int : strict.

Lemma strict_entry : prefix_strict read_entry.
Proof. unfold read_entry, read_byte. repeat (apply strict_bind; [auto with strict|intros ?]). auto with strict. Qed.

Lemma deserialize_serialized e rest :
  entry_ok e -> deserialize_entry (serialize_entry e ++ rest) = Ok e.
Proof.
  intros He. unfold deserialize_entry, run_reader. rewrite read_entry_app by done.
  rewrite length_app, serialize_entry_length. by case_match eqn:E; [apply Nat.ltb_lt in E; lia|].
Qed.

Lemma hard_state_decoded hs :
  hard_state_ok hs -> deserialize_hard_state (serialize_hard_state hs) = Ok hs.
Proof.
  intros (Ht & Hv & Hc). unfold deserialize_hard_state, run_reader, serialize_hard_state.
  unfold to_le_bytes at 1 2 3. rewrite !length_app, !le_bytes_length. simpl negb. cbv iota.
  unfold sbind at 1. rewrite read_u64_app by done. unfold sbind at 1. rewrite read_u64_app by done.
  unfold sbind. rewrite <- (app_nil_r (to_le_bytes (hs_commit hs))), read_u64_app by done.
  by destruct hs.
Qed.

Lemma conf_state_decoded cs :
  conf_state_ok cs -> deserialize_conf_state (serialize_conf_state cs) = Ok cs.
Proof.
  intros (Hvo & Hl & Ho & Hn). unfold deserialize_conf_state, run_reader, serialize_conf_state.
  pose proof (put_ids_length (voters cs)). pose proof (put_ids_length (learners cs)).
  pose proof (put_ids_length (voters_outgoing cs)). pose proof (put_ids_length (learners_next cs)).
  rewrite !length_app. case_match eqn:E; [apply Nat.ltb_lt in E; lia|].
  unfold sbind at 1. rewrite read_id_list_app by done. unfold sbind at 1.
  rewrite read_id_list_app by done. unfold sbind at 1. rewrite read_id_list_app by done.
  unfold sbind at 1. rewrite read_id_list_app by done. unfold sbind, sret. simpl.
  rewrite bool_byte_eqb. by destruct cs.
Qed.

(** * Properties *)

(** C36: the log codec round-trips: an entry whose type is a byte, whose index
    and term are 64-bit and whose data and context are shorter than 4 GiB is
    decoded from its encoding as itself, whatever bytes follow it. *)
Theorem entry_roundtrip e rest :
  entry_ok e -> deserialize_entry (serialize_entry e ++ rest) = Ok e.
Proof. apply deserialize_serialized. Qed.

(** A torn log entry is never decoded: every proper prefix of an entry's
    encoding is an error, not an entry and not a panic. *)
Theorem truncated_entry_rejected e p q :
  entry_ok e -> serialize_entry e = p ++ q -> q <> [] -> exists err, deserialize_entry p = Err err.
Proof.
  intros He Hpq Hq. unfold deserialize_entry, run_reader. case_match; [eauto|].
  pose proof (read_entry_app e [] He) as Hr. rewrite app_nil_r, Hpq in Hr.
  destruct (strict_entry _ _ _ _ Hr) as [(err & s & ->)|(p' & Hnil & _)]; [simpl; eauto|].
  symmetry in Hnil. by apply app_nil in Hnil as [_ ?].
Qed.

(** The Raft state round-trips: hard state and configuration state are
    decoded from their encodings as themselves. *)
Theorem raft_state_roundtrip hs cs :
  hard_state_ok hs -> conf_state_ok cs ->
  deserialize_hard_state (serialize_hard_state hs) = Ok hs /\
  deserialize_conf_state (serialize_conf_state cs) = Ok cs.
Proof. intros. split; [by apply hard_state_decoded|by apply conf_state_decoded]. Qed.

(** * Witnesses *)

Definition demo_entry : Entry := mkEntry 0 3 17 [1; 2; 3; 255] [9] true.

Lemma demo_entry_ok : entry_ok demo_entry.
Proof. unfold entry_ok; simpl. lia. Qed.

Lemma entry_roundtrip_witness :
  deserialize_entry (serialize_entry demo_entry ++ [7]) = Ok demo_entry.
Proof. apply (entry_roundtrip demo_entry [7]), demo_entry_ok. Defined.

Lemma truncated_entry_rejected_witness :
  exists err, deserialize_entry (take 30 (serialize_entry demo_entry)) = Err err.
Proof.
  apply (truncated_entry_rejected demo_entry (take 30 (serialize_entry demo_entry))
    (drop 30 (serialize_entry demo_entry))); [apply demo_entry_ok|reflexivity|done].
Defined.

Lemma raft_state_roundtrip_witness :
  let hs := mkHardState 5 2 17 in
  let cs := mkConfState [1; 2; 3] [4] [] [] true in
  deserialize_hard_state (serialize_hard_state hs) = Ok hs /\
  deserialize_conf_state (serialize_conf_state cs) = Ok cs.
Proof.
  apply (raft_state_roundtrip (mkHardState 5 2 17) (mkConfState [1; 2; 3] [4] [] [] true)).
  - unfold hard_state_ok; simpl. lia.
  - unfold conf_state_ok, ids_ok; simpl. split_and!; try lia; repeat constructor; lia.
Defined.
