(* ===== verification/Database.v ===== *)
(** The database (redb, as blixard-core uses it): the tables of
    blixard-core/src/raft_storage.rs, transactions, and typed access through the
    serializer.

    A write transaction works on a copy that a commit makes current; a
    transaction that is dropped, or whose commit fails, changes nothing (redb's
    documented atomicity).  What redb does in a transaction is an argument of
    type [txn_fault]: nothing goes wrong, it cannot be begun, a table operation
    fails, or the commit fails. *)

From Stdlib Require Import ZArith Lia List.
From stdpp Require Import base tactics numbers gmap strings option.
From stdpp Require Import list relations.
From S2P Require Import Prelude Errors RaftCodec.

Open Scope Z_scope.

(** * Tables *)

Inductive str_table : Type :=
| VM_STATE_TABLE | CLUSTER_STATE_TABLE | RAFT_HARD_STATE_TABLE | RAFT_CONF_STATE_TABLE
| RAFT_SNAPSHOT_TABLE | TASK_TABLE | TASK_ASSIGNMENT_TABLE | TASK_RESULT_TABLE
| TENANT_QUOTA_TABLE | TENANT_USAGE_TABLE | IP_ALLOCATION_TABLE | VM_IP_MAPPING_TABLE.

Inductive bytes_table : Type :=
| WORKER_TABLE | WORKER_STATUS_TABLE | NODE_TOPOLOGY_TABLE | RESOURCE_POLICY_TABLE.

Inductive u64_table : Type := RAFT_LOG_TABLE | IP_POOL_TABLE.

#[export] Instance str_table_eq_dec : EqDecision str_table.
Proof. solve_decision. Defined.
#[export] Instance bytes_table_eq_dec : EqDecision bytes_table.
Proof. solve_decision. Defined.
#[export] Instance u64_table_eq_dec : EqDecision u64_table.
Proof. solve_decision. Defined.

(** Tables keyed by strings, byte strings and [u64]; every value is bytes. *)
Record Database : Type := mkDatabase {
  strs : str_table -> gmap string bytes;
  byts : bytes_table -> gmap bytes bytes;
  u64s : u64_table -> gmap Z bytes
}.

Definition empty_database : Database := mkDatabase (fun _ => ∅) (fun _ => ∅) (fun _ => ∅).

Definition set_strs (t : str_table) (m : gmap string bytes) (db : Database) : Database :=
  mkDatabase (fun t' => if decide (t' = t) then m else strs db t') (byts db) (u64s db).
Definition set_byts (t : bytes_table) (m : gmap bytes bytes) (db : Database) : Database :=
  mkDatabase (strs db) (fun t' => if decide (t' = t) then m else byts db t') (u64s db).
Definition set_u64s (t : u64_table) (m : gmap Z bytes) (db : Database) : Database :=
  mkDatabase (strs db) (byts db) (fun t' => if decide (t' = t) then m else u64s db t').

(** * Equality of databases *)

(** Two databases with the same tables. *)
Definition db_eq (d1 d2 : Database) : Prop :=
  (forall t, strs d1 t = strs d2 t) /\ (forall t, byts d1 t = byts d2 t) /\
  (forall t, u64s d1 t = u64s d2 t).

#[export] Instance db_equiv : Equiv Database := db_eq.
#[export] Instance db_eq_equivalence : Equivalence (≡@{Database}).
Proof.
  split; [by intros ?|by intros ?? (? & ? & ?); split_and!|].
  intros ??? (H1 & H2 & H3) (H4 & H5 & H6).
  split_and!; intros; [rewrite H1|rewrite H2|rewrite H3]; auto.
Qed.

#[export] Instance strs_proper : Proper ((≡@{Database}) ==> eq ==> eq) strs.
Proof. intros d1 d2 (Hs & _ & _) t ? <-. apply Hs. Qed.
#[export] Instance byts_proper : Proper ((≡@{Database}) ==> eq ==> eq) byts.
Proof. intros d1 d2 (_ & Hb & _) t ? <-. apply Hb. Qed.
#[export] Instance u64s_proper : Proper ((≡@{Database}) ==> eq ==> eq) u64s.
Proof. intros d1 d2 (_ & _ & Hu) t ? <-. apply Hu. Qed.

Lemma strs_set_same t m db : strs (set_strs t m db) t = m.
Proof. simpl. by rewrite decide_True. Qed.
Lemma strs_set_other t t' m db : t' <> t -> strs (set_strs t m db) t' = strs db t'.
Proof. intros. simpl. by rewrite decide_False. Qed.
Lemma byts_set_same t m db : byts (set_byts t m db) t = m.
Proof. simpl. by rewrite decide_True. Qed.
Lemma byts_set_other t t' m db : t' <> t -> byts (set_byts t m db) t' = byts db t'.
Proof. intros. simpl. by rewrite decide_False. Qed.
Lemma u64s_set_same t m db : u64s (set_u64s t m db) t = m.
Proof. simpl. by rewrite decide_True. Qed.
Lemma u64s_set_other t t' m db : t' <> t -> u64s (set_u64s t m db) t' = u64s db t'.
Proof. intros. simpl. by rewrite decide_False. Qed.

(** * Transactions *)

Inductive txn_fault : Type := NoFault | BeginFails | TableFails | CommitFails.

(** The body of a write transaction, on the transaction's copy. *)
Definition txn (A : Type) : Type := st Database BlixardError A.

(** [open_table] and the operations on the table, with [?]. *)
Definition table_op {A} (fault : txn_fault) (m : txn A) : txn A :=
  match fault with TableFails => sfail StorageTableError | _ => m end.

Definition insert_str (fault : txn_fault) (t : str_table) (k : string) (v : bytes) : txn unit :=
  table_op fault (smodify (fun db => set_strs t (<[k := v]> (strs db t)) db)).
Definition remove_str (fault : txn_fault) (t : str_table) (k : string) : txn unit :=
  table_op fault (smodify (fun db => set_strs t (delete k (strs db t)) db)).
Definition get_str (fault : txn_fault) (t : str_table) (k : string) : txn (option bytes) :=
  table_op fault (let* db := sget in sret (strs db t !! k)).

Definition insert_byt (fault : txn_fault) (t : bytes_table) (k v : bytes) : txn unit :=
  table_op fault (smodify (fun db => set_byts t (<[k := v]> (byts db t)) db)).
Definition remove_byt (fault : txn_fault) (t : bytes_table) (k : bytes) : txn unit :=
  table_op fault (smodify (fun db => set_byts t (delete k (byts db t)) db)).

Definition insert_u64 (fault : txn_fault) (t : u64_table) (k : Z) (v : bytes) : txn unit :=
  table_op fault (smodify (fun db => set_u64s t (<[k := v]> (u64s db t)) db)).
Definition remove_u64 (fault : txn_fault) (t : u64_table) (k : Z) : txn unit :=
  table_op fault (smodify (fun db => set_u64s t (delete k (u64s db t)) db)).

(** [begin_write], the body, [commit]; the two errors are what the caller maps
    the failures of [begin_write] and [commit] to. *)
Definition run_txn {A} (begin_err commit_err : BlixardError) (fault : txn_fault) (m : txn A)
    : st Database BlixardError A :=
  fun db =>
    match fault with
    | BeginFails => (Err begin_err, db)
    | _ =>
        match m db with
        | (Ok a, db') => match fault with
                         | CommitFails => (Err commit_err, db)
                         | _ => (Ok a, db')
                         end
        | (Err e, _) => (Err e, db)
        | (Panic, _) => (Panic, db)
        end
    end.

(** The conversions of redb's errors with [?]. *)
Definition begin_error : BlixardError := StorageTransactionError.
Definition commit_error : BlixardError := Storage "commit".

(** * Typed access *)

(** [bincode::serialize(..).serialize_context(what)?] and the deserialization
    with its context. *)
Definition serialize {A} `{Codec A} {S} (what : string) (x : A) : st S BlixardError bytes :=
  slift (ok_or (Serialization ("serialize " +:+ what)) (ser x)).
Definition deserialize {A} `{Codec A} {S} (what ty : string) (b : bytes) : st S BlixardError A :=
  slift (ok_or (Serialization ("deserialize " +:+ what +:+ " (" +:+ ty +:+ ")")) (de b)).

(** A transaction is all or nothing. *)
Lemma run_txn_atomic {A} e1 e2 fault (m : txn A) db o db' :
  run_txn e1 e2 fault m db = (o, db') ->
  (is_ok o = false -> db' = db) /\ (forall a, o = Ok a -> m db = (Ok a, db')).
Proof.
  unfold run_txn. intros E.
  destruct fault, (m db) as [[a|e|] db1]; simplify_eq; split; simpl; intros; simplify_eq; done.
Qed.

Lemma run_txn_ok {A} e1 e2 (m : txn A) db a db' :
  m db = (Ok a, db') -> run_txn e1 e2 NoFault m db = (Ok a, db').
Proof. intros E. unfold run_txn. by rewrite E. Qed.
