(* ===== verification/RaftStorage.v ===== *)
(** Raft's storage on the database (blixard-core/src/raft_storage.rs): the log,
    the hard state and the configuration state, snapshots and their restoration,
    compaction, and the tenant quota store.

    Reading does not fail except in decoding.  A table is iterated in some order
    ([hash_iter]; redb's is the order of the keys): the theorems hold for every
    order.  [first_index] and [last_index] take the least and the greatest key. *)

From Stdlib Require Import ZArith Lia List.
From stdpp Require Import base tactics numbers gmap strings option.
From stdpp Require Import list relations.
From S2P Require Import Prelude Wire Errors RaftCodec Types ResourceQuotas QuotaManager Codecs Database.

Open Scope Z_scope.

(** * Data *)

Record SnapshotData : Type := mkSnapshotData {
  sd_vm_states : list (string * bytes);
  sd_cluster_state : list (string * bytes);
  sd_tasks : list (string * bytes);
  sd_task_assignments : list (string * bytes);
  sd_task_results : list (string * bytes);
  sd_workers : list (bytes * bytes);
  sd_worker_status : list (bytes * bytes);
  sd_ip_pools : list (Z * bytes);
  sd_ip_allocations : list (string * bytes);
  sd_vm_ip_mappings : list (string * bytes)
}.

Record Snapshot : Type := mkSnapshot {
  snap_conf_state : ConfState;
  snap_index : Z;
  snap_term : Z;
  snap_data : bytes
}.

(** [raft::Error::Store(StorageError::Other(..))]. *)
Inductive raft_error : Type := StoreOther.
Abbreviation RaftResult := (outcome raft_error).

Definition to_raft {A} (o : BlixardResult A) : RaftResult A :=
  match o with Ok a => Ok a | Err _ => Err StoreOther | Panic => Panic end.

Section Storage.
Context `{Profile} `{HashIter} `{Codec SnapshotData} `{Codec TenantQuota} `{Codec NodeTopology}.

(** * Reading the Raft state *)

Definition load_hard_state (db : Database) : HardState :=
  match strs db RAFT_HARD_STATE_TABLE !! "hard_state" with
  | Some data => match deserialize_hard_state data with Ok hs => hs | _ => default_hard_state end
  | None => default_hard_state
  end.

Definition initial_state (db : Database) : HardState * ConfState :=
  (load_hard_state db,
   match strs db RAFT_CONF_STATE_TABLE !! "conf_state" with
   | Some data => match deserialize_conf_state data with Ok cs => cs | _ => default_conf_state end
   | None => default_conf_state
   end).

Definition load_conf_state (db : Database) : BlixardResult ConfState :=
  match strs db RAFT_CONF_STATE_TABLE !! "conf_state" with
  | Some data => match deserialize_conf_state data with
                 | Ok cs => Ok cs
                 | Err _ => Err conf_state_error
                 | Panic => Panic
                 end
  | None => Ok default_conf_state
  end.

(** * The log *)

Abbreviation log_of db := (u64s db RAFT_LOG_TABLE).

(** The loop of [entries] over [n] indices from [idx]. *)
Fixpoint entries_from (log : gmap Z bytes) (max_size : option Z) (n : nat) (idx size : Z)
    : RaftResult (list Entry) :=
  match n with
  | O => Ok []
  | S n' =>
      match log !! idx with
      | Some data =>
          let entry_size := Z.of_nat (length data) in
          let? over := match max_size with
            | Some max => omap_ok (fun total => max <? total) (arith_u 64 (size + entry_size))
            | None => Ok false
            end in
          if over : bool then Ok []
          else
            let? e := to_raft (deserialize_entry data) in
            let? size' := arith_u 64 (size + entry_size) in
            let? rest := entries_from log max_size n' (idx + 1) size' in
            Ok (e :: rest)
      | None => entries_from log max_size n' (idx + 1) size
      end
  end.

Definition entries (db : Database) (low high : Z) (max_size : option Z) : RaftResult (list Entry) :=
  let? _ := arith_u 64 (high - low) in
  entries_from (log_of db) max_size (Z.to_nat (high - low)) low 0.

Definition term (db : Database) (idx : Z) : RaftResult Z :=
  match log_of db !! idx with
  | Some data => let? e := to_raft (deserialize_entry data) in Ok (entry_term e)
  | None => Ok 0
  end.

Definition log_keys (db : Database) : list Z := map fst (map_to_list (log_of db)).

Definition first_index (db : Database) : Z := default 1 (min_by_key (fun k => k) (log_keys db)).
Definition last_index (db : Database) : Z := default 0 (max_by_key (fun k => k) (log_keys db)).

(** [append]: one transaction. *)
Definition append (fault : txn_fault) (es : list Entry) : st Database BlixardError unit :=
  run_txn begin_error commit_error fault
    (sfor (fun e => insert_u64 fault RAFT_LOG_TABLE (entry_index e) (serialize_entry e)) es).

Definition save_hard_state (fault : txn_fault) (hs : HardState) : st Database BlixardError unit :=
  run_txn begin_error commit_error fault
    (insert_str fault RAFT_HARD_STATE_TABLE "hard_state" (serialize_hard_state hs)).

Definition save_conf_state (fault : txn_fault) (cs : ConfState) : st Database BlixardError unit :=
  run_txn begin_error commit_error fault
    (insert_str fault RAFT_CONF_STATE_TABLE "conf_state" (serialize_conf_state cs)).

Definition initialize_single_node (fault : txn_fault) (node_id : Z) : st Database BlixardError unit :=
  let* db := sget in
  match strs db RAFT_CONF_STATE_TABLE !! "conf_state" with
  | Some _ => sret tt
  | None => save_conf_state fault (mkConfState [node_id] [] [] [] false)
  end.

Definition initialize_joining_node (f1 f2 : txn_fault) : st Database BlixardError unit :=
  save_conf_state f1 default_conf_state ;* save_hard_state f2 (mkHardState 0 0 0).

(** [compact_log_before]: the keys below the index are collected and removed. *)
Definition compact_log_before (fault : txn_fault) (index : Z) : st Database BlixardError unit :=
  if index =? 0 then sret tt
  else run_txn begin_error commit_error fault
    (let* db := sget in
     sfor (remove_u64 fault RAFT_LOG_TABLE)
       (List.filter (fun k => k <? index) (map fst (hash_iter (log_of db))))).

(** * Snapshots *)

Definition create_snapshot_data (db : Database) : SnapshotData :=
  mkSnapshotData
    (hash_iter (strs db VM_STATE_TABLE)) (hash_iter (strs db CLUSTER_STATE_TABLE))
    (hash_iter (strs db TASK_TABLE)) (hash_iter (strs db TASK_ASSIGNMENT_TABLE))
    (hash_iter (strs db TASK_RESULT_TABLE)) (hash_iter (byts db WORKER_TABLE))
    (hash_iter (byts db WORKER_STATUS_TABLE)) (hash_iter (u64s db IP_POOL_TABLE))
    (hash_iter (strs db IP_ALLOCATION_TABLE)) (hash_iter (strs db VM_IP_MAPPING_TABLE)).

Definition snapshot (db : Database) (request_index : Z) : RaftResult Snapshot :=
  let? conf_state := to_raft (load_conf_state db) in
  let last := last_index db in
  let? tm := (if 0 <? last then term db last else Ok 0) in
  let? data := ok_or StoreOther (ser (create_snapshot_data db)) in
  Ok (mkSnapshot conf_state (Z.min request_index last) tm data).

(** The restoration of a table: all keys are removed, then the entries are
    inserted in order. *)
Definition restore_string_table (fault : txn_fault) (t : str_table) (data : list (string * bytes))
    : txn unit :=
  let* db := sget in
  sfor (remove_str fault t) (map fst (hash_iter (strs db t))) ;*
  sfor (fun kv => insert_str fault t kv.1 kv.2) data.

Definition restore_bytes_table (fault : txn_fault) (t : bytes_table) (data : list (bytes * bytes))
    : txn unit :=
  let* db := sget in
  sfor (remove_byt fault t) (map fst (hash_iter (byts db t))) ;*
  sfor (fun kv => insert_byt fault t kv.1 kv.2) data.

Definition restore_u64_table (fault : txn_fault) (t : u64_table) (data : list (Z * bytes))
    : txn unit :=
  let* db := sget in
  sfor (remove_u64 fault t) (map fst (hash_iter (u64s db t))) ;*
  sfor (fun kv => insert_u64 fault t kv.1 kv.2) data.

Definition restore_tables (fault : txn_fault) (d : SnapshotData) : txn unit :=
  restore_string_table fault VM_STATE_TABLE (sd_vm_states d) ;*
  restore_string_table fault CLUSTER_STATE_TABLE (sd_cluster_state d) ;*
  restore_string_table fault TASK_TABLE (sd_tasks d) ;*
  restore_string_table fault TASK_ASSIGNMENT_TABLE (sd_task_assignments d) ;*
  restore_string_table fault TASK_RESULT_TABLE (sd_task_results d) ;*
  restore_bytes_table fault WORKER_TABLE (sd_workers d) ;*
  restore_bytes_table fault WORKER_STATUS_TABLE (sd_worker_status d) ;*
  restore_u64_table fault IP_POOL_TABLE (sd_ip_pools d) ;*
  restore_string_table fault IP_ALLOCATION_TABLE (sd_ip_allocations d) ;*
  restore_string_table fault VM_IP_MAPPING_TABLE (sd_vm_ip_mappings d).

Definition restore_from_snapshot (fault : txn_fault) (data : bytes) : st Database BlixardError unit :=
  let* d := slift (ok_or (Serialization "deserialize snapshot data") (de data)) in
  run_txn begin_error commit_error fault (restore_tables fault d).

(** [apply_snapshot]: up to four transactions, one after the other. *)
Definition apply_snapshot (f1 f2 f3 f4 : txn_fault) (s : Snapshot) : st Database BlixardError unit :=
  save_conf_state f1 (snap_conf_state s) ;*
  save_hard_state f2 (mkHardState (snap_term s) 0 (snap_index s)) ;*
  (if (length (snap_data s) =? 0)%nat then sret tt else restore_from_snapshot f3 (snap_data s)) ;*
  compact_log_before f4 (snap_index s).

(** * Tenant quotas and topology *)

Definition redb_save_quota (fault : txn_fault) (q : TenantQuota) : st Database BlixardError unit :=
  run_txn begin_error commit_error fault
    (let* b := serialize "tenant quota" q in
     insert_str fault TENANT_QUOTA_TABLE (quota_tenant_id q) b).

Definition redb_get_quota (db : Database) (tenant_id : TenantId) : BlixardResult (option TenantQuota) :=
  match strs db TENANT_QUOTA_TABLE !! tenant_id with
  | Some data => match de data with
                 | Some q => Ok (Some q)
                 | None => Err (Serialization "deserialize tenant quota")
                 end
  | None => Ok None
  end.

(** Entries that do not decode are skipped. *)
Definition redb_all_quotas (db : Database) : BlixardResult (list TenantQuota) :=
  Ok (omap (fun '(_, data) => de data) (hash_iter (strs db TENANT_QUOTA_TABLE))).

Definition redb_delete_quota (fault : txn_fault) (tenant_id : TenantId) : st Database BlixardError unit :=
  run_txn begin_error commit_error fault (remove_str fault TENANT_QUOTA_TABLE tenant_id).

(** The database as the quota manager's store. *)
#[export] Instance redb_storage (fault : txn_fault) : QuotaStorage Database := {
  save_tenant_quota := redb_save_quota fault;
  delete_tenant_quota := redb_delete_quota fault;
  get_all_quotas := redb_all_quotas
}.

Definition save_node_topology (fault : txn_fault) (node_id : Z) (t : NodeTopology)
    : st Database BlixardError unit :=
  run_txn begin_error commit_error fault
    (let* b := serialize "node topology" t in
     insert_byt fault NODE_TOPOLOGY_TABLE (to_le_bytes node_id) b).

Definition get_node_topology (db : Database) (node_id : Z) : BlixardResult (option NodeTopology) :=
  match byts db NODE_TOPOLOGY_TABLE !! to_le_bytes node_id with
  | Some data => match de data with
                 | Some t => Ok (Some t)
                 | None => Err (Serialization "deserialize node topology")
                 end
  | None => Ok None
  end.

(** * Lemmas *)

(** Inserting a list of entries in order. *)
Definition insert_all {K} `{Countable K} (l : list (K * bytes)) (m : gmap K bytes) : gmap K bytes :=
  fold_left (fun m kv => <[kv.1 := kv.2]> m) l m.

Lemma insert_all_lookup {K} `{Countable K} (l : list (K * bytes)) (m : gmap K bytes) k v :
  NoDup l.*1 ->
  insert_all l m !! k = Some v <-> (k, v) ∈ l \/ (k ∉ l.*1 /\ m !! k = Some v).
Proof.
  revert m. induction l as [|[k' v'] l IH]; intros m Hnd; [set_solver|].
  rewrite fmap_cons in Hnd. apply NoDup_cons in Hnd as [Hni Hnd]. simpl in Hni.
  unfold insert_all in *. simpl. rewrite IH by done. rewrite !elem_of_cons. simpl.
  destruct (decide (k = k')) as [->|Hne].
  - rewrite lookup_insert_eq. split.
    + intros [Hin|[_ [= ->]]]; [by left; right|by left; left].
    + intros [[[= ->]|Hin]|[Hx _]]; [by right|by left|]. destruct Hx. by left.
  - rewrite lookup_insert_ne by done. split.
    + intros [Hin|[Hx Hm]]; [by left; right|right]. split; [|done]. by intros [?|?].
    + intros [[[= -> ->]|Hin]|[Hx Hm]]; [done|by left|right]. split; [|done]. intros ?. apply Hx. by right.
Qed.

Lemma hash_iter_nodup {K} `{Countable K} {V} (m : gmap K V) : NoDup (hash_iter m).*1.
Proof. rewrite hash_iter_perm. apply NoDup_fst_map_to_list. Qed.

Lemma insert_all_iter {K} `{Countable K} (m : gmap K bytes) : insert_all (hash_iter m) ∅ = m.
Proof.
  apply map_eq. intros k. apply option_eq. intros v.
  rewrite insert_all_lookup by apply hash_iter_nodup. rewrite elem_of_hash_iter, lookup_empty.
  naive_solver.
Qed.

(** Removing the keys that were iterated empties the table. *)
Definition delete_all {K} `{Countable K} (l : list K) (m : gmap K bytes) : gmap K bytes :=
  fold_left (fun m k => delete k m) l m.

Lemma delete_all_lookup {K} `{Countable K} (l : list K) (m : gmap K bytes) k v :
  delete_all l m !! k = Some v <-> k ∉ l /\ m !! k = Some v.
Proof.
  revert m. induction l as [|x l IH]; intros m; [set_solver|].
  unfold delete_all in *. simpl. rewrite IH, lookup_delete_Some. set_solver.
Qed.

Lemma delete_all_iter {K} `{Countable K} (m : gmap K bytes) :
  delete_all (map fst (hash_iter m)) m = ∅.
Proof.
  apply map_eq. intros k. apply option_eq. intros v. rewrite delete_all_lookup, lookup_empty.
  split; [|done]. intros [Hk Hv]. destruct Hk. apply elem_of_hash_iter in Hv.
  apply list_elem_of_In, in_map_iff. exists (k, v). by rewrite <- list_elem_of_In.
Qed.

(** ** Effect of the table loops *)

Lemma sfor_strs {A} (f : A -> txn unit) (g : A -> gmap string bytes -> gmap string bytes) t l db :
  (forall a db, f a db = (Ok tt, set_strs t (g a (strs db t)) db)) ->
  exists db', sfor f l db = (Ok tt, db') /\
    strs db' t = fold_left (fun m a => g a m) l (strs db t) /\
    (forall t', t' <> t -> strs db' t' = strs db t') /\ byts db' = byts db /\ u64s db' = u64s db.
Proof.
  intros Hf. revert db. induction l as [|a l IH]; intros db; simpl; [by exists db|].
  unfold sbind. rewrite Hf. destruct (IH (set_strs t (g a (strs db t)) db)) as (db' & -> & Ht & Ho & Hb & Hu).
  exists db'. rewrite strs_set_same in Ht. split_and!; try done.
  intros t' Hne. rewrite Ho by done. by apply strs_set_other.
Qed.

Lemma sfor_byts {A} (f : A -> txn unit) (g : A -> gmap bytes bytes -> gmap bytes bytes) t l db :
  (forall a db, f a db = (Ok tt, set_byts t (g a (byts db t)) db)) ->
  exists db', sfor f l db = (Ok tt, db') /\
    byts db' t = fold_left (fun m a => g a m) l (byts db t) /\
    (forall t', t' <> t -> byts db' t' = byts db t') /\ strs db' = strs db /\ u64s db' = u64s db.
Proof.
  intros Hf. revert db. induction l as [|a l IH]; intros db; simpl; [by exists db|].
  unfold sbind. rewrite Hf. destruct (IH (set_byts t (g a (byts db t)) db)) as (db' & -> & Ht & Ho & Hb & Hu).
  exists db'. rewrite byts_set_same in Ht. split_and!; try done.
  intros t' Hne. rewrite Ho by done. by apply byts_set_other.
Qed.

Lemma sfor_u64s {A} (f : A -> txn unit) (g : A -> gmap Z bytes -> gmap Z bytes) t l db :
  (forall a db, f a db = (Ok tt, set_u64s t (g a (u64s db t)) db)) ->
  exists db', sfor f l db = (Ok tt, db') /\
    u64s db' t = fold_left (fun m a => g a m) l (u64s db t) /\
    (forall t', t' <> t -> u64s db' t' = u64s db t') /\ strs db' = strs db /\ byts db' = byts db.
Proof.
  intros Hf. revert db. induction l as [|a l IH]; intros db; simpl; [by exists db|].
  unfold sbind. rewrite Hf. destruct (IH (set_u64s t (g a (u64s db t)) db)) as (db' & -> & Ht & Ho & Hb & Hu).
  exists db'. rewrite u64s_set_same in Ht. split_and!; try done.
  intros t' Hne. rewrite Ho by done. by apply u64s_set_other.
Qed.

Lemma restore_string_ok t data db :
  exists db', restore_string_table NoFault t data db = (Ok tt, db') /\
    strs db' t = insert_all data ∅ /\
    (forall t', t' <> t -> strs db' t' = strs db t') /\ byts db' = byts db /\ u64s db' = u64s db.
Proof.
  unfold restore_string_table, sbind, sget.
  destruct (sfor_strs (remove_str NoFault t) (fun k m => delete k m) t
    (map fst (hash_iter (strs db t))) db) as (d1 & -> & E1 & O1 & B1 & U1); [done|].
  destruct (sfor_strs (fun kv => insert_str NoFault t kv.1 kv.2) (fun kv m => <[kv.1 := kv.2]> m) t data d1)
    as (d2 & -> & E2 & O2 & B2 & U2); [done|].
  exists d2. split_and!; try congruence.
  - rewrite E2, E1. change (fold_left _ (map fst _) _) with
      (delete_all (map fst (hash_iter (strs db t))) (strs db t)). by rewrite delete_all_iter.
  - intros t' Hne. by rewrite O2, O1.
Qed.

Lemma restore_bytes_ok t data db :
  exists db', restore_bytes_table NoFault t data db = (Ok tt, db') /\
    byts db' t = insert_all data ∅ /\
    (forall t', t' <> t -> byts db' t' = byts db t') /\ strs db' = strs db /\ u64s db' = u64s db.
Proof.
  unfold restore_bytes_table, sbind, sget.
  destruct (sfor_byts (remove_byt NoFault t) (fun k m => delete k m) t
    (map fst (hash_iter (byts db t))) db) as (d1 & -> & E1 & O1 & B1 & U1); [done|].
  destruct (sfor_byts (fun kv => insert_byt NoFault t kv.1 kv.2) (fun kv m => <[kv.1 := kv.2]> m) t data d1)
    as (d2 & -> & E2 & O2 & B2 & U2); [done|].
  exists d2. split_and!; try congruence.
  - rewrite E2, E1. change (fold_left _ (map fst _) _) with
      (delete_all (map fst (hash_iter (byts db t))) (byts db t)). by rewrite delete_all_iter.
  - intros t' Hne. by rewrite O2, O1.
Qed.

Lemma restore_u64_ok t data db :
  exists db', restore_u64_table NoFault t data db = (Ok tt, db') /\
    u64s db' t = insert_all data ∅ /\
    (forall t', t' <> t -> u64s db' t' = u64s db t') /\ strs db' = strs db /\ byts db' = byts db.
Proof.
  unfold restore_u64_table, sbind, sget.
  destruct (sfor_u64s (remove_u64 NoFault t) (fun k m => delete k m) t
    (map fst (hash_iter (u64s db t))) db) as (d1 & -> & E1 & O1 & B1 & U1); [done|].
  destruct (sfor_u64s (fun kv => insert_u64 NoFault t kv.1 kv.2) (fun kv m => <[kv.1 := kv.2]> m) t data d1)
    as (d2 & -> & E2 & O2 & B2 & U2); [done|].
  exists d2. split_and!; try congruence.
  - rewrite E2, E1. change (fold_left _ (map fst _) _) with
      (delete_all (map fst (hash_iter (u64s db t))) (u64s db t)). by rewrite delete_all_iter.
  - intros t' Hne. by rewrite O2, O1.
Qed.

(** ** Snapshots *)

(** The tables a snapshot carries. *)
Definition in_snapshot_str (t : str_table) : bool :=
  match t with
  | VM_STATE_TABLE | CLUSTER_STATE_TABLE | TASK_TABLE | TASK_ASSIGNMENT_TABLE | TASK_RESULT_TABLE
  | IP_ALLOCATION_TABLE | VM_IP_MAPPING_TABLE => true
  | _ => false
  end.
Definition in_snapshot_byt (t : bytes_table) : bool :=
  match t with WORKER_TABLE | WORKER_STATUS_TABLE => true | _ => false end.
Definition in_snapshot_u64 (t : u64_table) : bool :=
  match t with IP_POOL_TABLE => true | RAFT_LOG_TABLE => false end.

(** [dst'] has the snapshot's tables from [src] and its other tables from [dst]. *)
Definition restored (src dst dst' : Database) : Prop :=
  (forall t, strs dst' t = if in_snapshot_str t then strs src t else strs dst t) /\
  (forall t, byts dst' t = if in_snapshot_byt t then byts src t else byts dst t) /\
  (forall t, u64s dst' t = if in_snapshot_u64 t then u64s src t else u64s dst t).

(** Runs one restored table of the goal's transaction. *)
Ltac restore_step lem T O B U :=
  match goal with
  | |- context [sbind (?m ?f ?t ?data) _ ?db] =>
      let d := fresh "d" in let E := fresh "E" in
      destruct (lem t data db) as (d & E & T & O & B & U); unfold sbind at 1; rewrite E; clear E
  | |- context [?m ?f ?t ?data ?db] =>
      let d := fresh "d" in let E := fresh "E" in
      destruct (lem t data db) as (d & E & T & O & B & U); rewrite E; clear E
  end.

Lemma restore_tables_restored src dst :
  exists dst', restore_tables NoFault (create_snapshot_data src) dst = (Ok tt, dst') /\
    restored src dst dst'.
Proof.
  unfold restore_tables. cbn [create_snapshot_data sd_vm_states sd_cluster_state sd_tasks
    sd_task_assignments sd_task_results sd_workers sd_worker_status sd_ip_pools sd_ip_allocations
    sd_vm_ip_mappings].
  restore_step restore_string_ok T1 O1 B1 U1. restore_step restore_string_ok T2 O2 B2 U2.
  restore_step restore_string_ok T3 O3 B3 U3. restore_step restore_string_ok T4 O4 B4 U4.
  restore_step restore_string_ok T5 O5 B5 U5. restore_step restore_bytes_ok T6 O6 B6 U6.
  restore_step restore_bytes_ok T7 O7 B7 U7. restore_step restore_u64_ok T8 O8 B8 U8.
  restore_step restore_string_ok T9 O9 B9 U9. restore_step restore_string_ok T10 O10 B10 U10.
  eexists. split; [done|]. split_and!; intros [].
  all: cbn [in_snapshot_str in_snapshot_byt in_snapshot_u64].
  all: repeat first
    [ rewrite T10 | rewrite O10 by done | rewrite T9 | rewrite O9 by done | rewrite B8
    | rewrite B7 | rewrite B6 | rewrite T5 | rewrite O5 by done | rewrite T4 | rewrite O4 by done
    | rewrite T3 | rewrite O3 by done | rewrite T2 | rewrite O2 by done | rewrite T1
    | rewrite O1 by done | rewrite B10 | rewrite B9 | rewrite U8 | rewrite T7 | rewrite O7 by done
    | rewrite T6 | rewrite O6 by done | rewrite B5 | rewrite B4 | rewrite B3 | rewrite B2 | rewrite B1
    | rewrite U10 | rewrite U9 | rewrite T8 | rewrite O8 by done | rewrite U7 | rewrite U6
    | rewrite U5 | rewrite U4 | rewrite U3 | rewrite U2 | rewrite U1 ].
  all: by rewrite ?insert_all_iter.
Qed.

(** ** The log *)

Lemma append_log es db :
  exists db', append NoFault es db = (Ok tt, db') /\
    log_of db' = insert_all (map (fun e => (entry_index e, serialize_entry e)) es) (log_of db) /\
    strs db' = strs db /\ byts db' = byts db.
Proof.
  unfold append.
  destruct (sfor_u64s (fun e => insert_u64 NoFault RAFT_LOG_TABLE (entry_index e) (serialize_entry e))
    (fun e m => <[entry_index e := serialize_entry e]> m) RAFT_LOG_TABLE es db)
    as (db' & E & Hl & _ & Hs & Hb); [done|].
  exists db'. rewrite (run_txn_ok _ _ _ _ _ _ E). split_and!; try done. rewrite Hl. clear.
  unfold insert_all. generalize (log_of db). induction es; intros; simpl; auto.
Qed.

Lemma entries_from_log es log idx size :
  (forall i e, es !! i = Some e -> log !! (idx + Z.of_nat i) = Some (serialize_entry e)) ->
  Forall entry_ok es -> 0 <= size ->
  size + fold_right Z.add 0 (map (fun e => Z.of_nat (length (serialize_entry e))) es) < 2 ^ 64 ->
  entries_from log None (length es) idx size = Ok es.
Proof.
  revert idx size. induction es as [|e es IH]; intros idx size Hlog Hok Hpos Hsz; [done|].
  apply Forall_cons in Hok as [He Hok]. cbn [length entries_from].
  cbn [map fold_right] in Hsz.
  pose proof (Hlog 0%nat e eq_refl) as Hl. rewrite Z.add_0_r in Hl.
  rewrite Hl. cbn [obind].
  pose proof (deserialize_serialized e [] He) as Hd. rewrite app_nil_r in Hd.
  rewrite Hd. cbn [obind to_raft].
  assert (Hnn : forall l : list Entry, 0 <= fold_right Z.add 0
    (map (fun e => Z.of_nat (length (serialize_entry e))) l)) by
    (induction l; cbn [map fold_right]; lia).
  specialize (Hnn es). rewrite arith_u_fits by (unfold fits_u; lia).
  cbn [obind]. rewrite IH; try done; try lia.
  intros i x Hx. rewrite <- (Hlog (S i) x Hx). f_equal. lia.
Qed.

(** What compaction leaves. *)
Lemma compact_log index db :
  exists db', compact_log_before NoFault index db = (Ok tt, db') /\
    (forall k, log_of db' !! k = if negb (index =? 0) && (k <? index) then None else log_of db !! k) /\
    u64s db' IP_POOL_TABLE = u64s db IP_POOL_TABLE /\ strs db' = strs db /\ byts db' = byts db.
Proof.
  unfold compact_log_before. destruct (Z.eqb_spec index 0) as [->|Hne]; simpl.
  { exists db. done. }
  set (ks := List.filter (fun k => k <? index) (map fst (hash_iter (log_of db)))).
  destruct (sfor_u64s (remove_u64 NoFault RAFT_LOG_TABLE) (fun k m => delete k m) RAFT_LOG_TABLE ks db)
    as (db' & E & Hl & Ho & Hs & Hb); [done|].
  exists db'. split; [apply (run_txn_ok begin_error commit_error); exact E|]. split; [|by rewrite Ho]. intros k. rewrite Hl.
  change (fold_left _ ks _) with (delete_all ks (log_of db)).
  apply option_eq. intros v. rewrite delete_all_lookup.
  assert (Hks : k ∈ ks <-> k < index /\ is_Some (log_of db !! k)).
  { unfold ks. rewrite list_elem_of_In, List.filter_In, in_map_iff. split.
    - intros [([k' v'] & <- & Hin) Hlt]. apply list_elem_of_In, elem_of_hash_iter in Hin.
      simpl in *. split; [by apply Z.ltb_lt|eauto].
    - intros [Hlt [v' Hv]]. split; [|by apply Z.ltb_lt]. exists (k, v'). split; [done|].
      by apply list_elem_of_In, elem_of_hash_iter. }
  destruct (Z.ltb_spec k index); split; try done.
  - intros [Hk Hv]. destruct Hk. apply Hks. eauto.
  - by intros [_ ?].
  - intros Hv. split; [|done]. intros [? _]%Hks. lia.
Qed.

Lemma last_index_empty db : log_of db = ∅ -> last_index db = 0 /\ first_index db = 1.
Proof. intros He. unfold last_index, first_index, log_keys. by rewrite He, map_to_list_empty. Qed.

(** ** The quota store *)

Lemma save_quota_effect fault q db o db' :
  redb_save_quota fault q db = (o, db') ->
  match o with
  | Ok _ => exists b, ser q = Some b /\
      db' = set_strs TENANT_QUOTA_TABLE (<[quota_tenant_id q := b]> (strs db TENANT_QUOTA_TABLE)) db
  | _ => db' = db
  end.
Proof.
  intros E. apply run_txn_atomic in E as [Hno Hok]. destruct o as [[]|e|]; [|by apply Hno..].
  specialize (Hok tt eq_refl). unfold serialize, insert_str, table_op in Hok. inv_st Hok.
  all: by eexists.
Qed.

Lemma delete_quota_effect fault t db o db' :
  redb_delete_quota fault t db = (o, db') ->
  match o with
  | Ok _ => db' = set_strs TENANT_QUOTA_TABLE (delete t (strs db TENANT_QUOTA_TABLE)) db
  | _ => db' = db
  end.
Proof.
  intros E. apply run_txn_atomic in E as [Hno Hok]. destruct o as [[]|e|]; [|by apply Hno..].
  specialize (Hok tt eq_refl). unfold remove_str, table_op in Hok. by inv_st Hok.
Qed.

(** The quota table holds quotas under their tenants' names. *)
Definition quota_table_wf (db : Database) : Prop :=
  map_Forall (fun t b => exists q, de b = Some q /\ quota_tenant_id q = t) (strs db TENANT_QUOTA_TABLE).

#[export, refine] Instance redb_storage_ok `{!CodecOk TenantQuota} fault
    : QuotaStorageOk Database (H:=redb_storage fault) := {
  storage_wf := quota_table_wf;
  stored_quotas := fun db => omap de (strs db TENANT_QUOTA_TABLE)
}.
Proof.
  - intros db t q Hwf Hq. apply lookup_omap_Some in Hq as (b & Hb & Ht).
    destruct (Hwf _ _ Ht) as (q' & Hq' & <-). congruence.
  - intros db Hwf. eexists. split; [done|]. intros q. rewrite list_elem_of_omap, lookup_omap_Some. split.
    + intros ([t b] & Hin & Hd). apply elem_of_hash_iter in Hin.
      destruct (Hwf _ _ Hin) as (q' & Hq' & Ht). exists b. simplify_eq. done.
    + intros (b & Hd & Hb). exists (quota_tenant_id q, b). by rewrite elem_of_hash_iter.
  - intros q db o db' Hwf E. apply save_quota_effect in E. destruct o as [u|e|]; simpl; [|by subst..].
    destruct E as (b & Hb & ->). apply de_ser in Hb. unfold quota_table_wf. rewrite strs_set_same.
    split; [apply map_Forall_insert_2; eauto|]. by rewrite (omap_insert_Some _ _ _ _ q).
  - intros t db o db' Hwf E. apply delete_quota_effect in E. destruct o as [u|e|]; simpl; [|by subst..].
    subst db'. unfold quota_table_wf. rewrite strs_set_same.
    split; [by apply map_Forall_delete|]. apply omap_delete.
Defined.

(** What installing a snapshot does to the receiver. *)
Definition installed (src dst : Database) (s : Snapshot) (dst' : Database) : Prop :=
  (forall t, in_snapshot_str t = true -> strs dst' t = strs src t) /\
  (forall t, in_snapshot_byt t = true -> byts dst' t = byts src t) /\
  u64s dst' IP_POOL_TABLE = u64s src IP_POOL_TABLE /\
  (forall t, in_snapshot_str t = false -> t <> RAFT_HARD_STATE_TABLE -> t <> RAFT_CONF_STATE_TABLE ->
     strs dst' t = strs dst t) /\
  (forall t, in_snapshot_byt t = false -> byts dst' t = byts dst t) /\
  load_conf_state dst' = load_conf_state src /\
  load_hard_state dst' = mkHardState (snap_term s) 0 (snap_index s) /\
  (forall k, log_of dst' !! k =
     if negb (snap_index s =? 0) && (k <? snap_index s) then None else log_of dst !! k).

Lemma snapshot_ok_inv db req s :
  snapshot db req = Ok s ->
  load_conf_state db = Ok (snap_conf_state s) /\ snap_index s = Z.min req (last_index db) /\
  (0 < last_index db -> term db (last_index db) = Ok (snap_term s)) /\
  ser (create_snapshot_data db) = Some (snap_data s).
Proof.
  unfold snapshot. intros E. apply obind_ok in E as (cs & Ec & E). apply obind_ok in E as (tm & Et & E).
  apply obind_ok in E as (d & Ed & [= <-]). simpl. split_and!; try done.
  - by destruct (load_conf_state db); simplify_eq/=.
  - intros Hl. rewrite (proj2 (Z.ltb_lt _ _) Hl) in Et. done.
  - by destruct (ser (create_snapshot_data db)); simplify_eq/=.
Qed.

Lemma apply_snapshot_installed `{!CodecOk SnapshotData} src dst req s :
  (forall d : SnapshotData, ser d <> Some []) -> conf_state_ok (snap_conf_state s) ->
  hard_state_ok (mkHardState (snap_term s) 0 (snap_index s)) -> snapshot src req = Ok s ->
  exists dst', apply_snapshot NoFault NoFault NoFault NoFault s dst = (Ok tt, dst') /\
    installed src dst s dst'.
Proof.
  intros Hne Hcs Hhs (Hc & _ & _ & Hd)%snapshot_ok_inv. unfold apply_snapshot.
  set (hs := mkHardState (snap_term s) 0 (snap_index s)) in *.
  set (d1 := set_strs RAFT_CONF_STATE_TABLE (<["conf_state" := serialize_conf_state (snap_conf_state s)]>
    (strs dst RAFT_CONF_STATE_TABLE)) dst).
  set (d2 := set_strs RAFT_HARD_STATE_TABLE (<["hard_state" := serialize_hard_state hs]>
    (strs d1 RAFT_HARD_STATE_TABLE)) d1).
  destruct (restore_tables_restored src d2) as (d3 & E3 & Rs & Rb & Ru).
  destruct (compact_log (snap_index s) d3) as (d4 & E4 & Hlog & Hi4 & Hs4 & Hb4).
  exists d4. split.
  { rewrite (sbind_ok _ _ dst tt d1) by done. rewrite (sbind_ok _ _ d1 tt d2) by done.
    destruct (snap_data s) as [|b l] eqn:Es; [by destruct (Hne (create_snapshot_data src))|].
    rewrite (sbind_ok _ _ d2 tt d3); [done|]. cbn [length Nat.eqb]. unfold restore_from_snapshot.
    erewrite sbind_ok by (unfold slift; by rewrite (de_ser _ _ Hd)). by apply run_txn_ok. }
  unfold installed, load_conf_state, load_hard_state. rewrite Hs4, Hb4, !Rs.
  cbn [in_snapshot_str in_snapshot_byt].
  split_and!.
  - intros t Ht. by rewrite Rs, Ht.
  - intros t Ht. by rewrite Rb, Ht.
  - by rewrite Hi4, Ru.
  - intros t Ht Hh Hc'. rewrite Rs, Ht. unfold d2, d1. by rewrite !strs_set_other.
  - intros t Ht. by rewrite Rb, Ht.
  - unfold d2. rewrite strs_set_other by done. unfold d1.
    by rewrite strs_set_same, lookup_insert_eq, conf_state_decoded.
  - unfold d2. by rewrite strs_set_same, lookup_insert_eq, hard_state_decoded.
  - intros k. by rewrite Hlog, Ru.
Qed.

(** A list of entries with consecutive indices from [low]. *)
Definition consecutive (low : Z) (es : list Entry) : Prop :=
  forall i e, es !! i = Some e -> entry_index e = low + Z.of_nat i.

Lemma consecutive_lookup low es m k :
  consecutive low es ->
  insert_all (map (fun e => (entry_index e, serialize_entry e)) es) m !! k =
    if bool_decide (low <= k < low + Z.of_nat (length es))
    then serialize_entry <$> es !! Z.to_nat (k - low) else m !! k.
Proof.
  revert low m. induction es as [|e es IH]; intros low m Hc.
  { rewrite bool_decide_false; [done|simpl; lia]. }
  assert (He : entry_index e = low) by (rewrite (Hc 0%nat e eq_refl); lia).
  assert (Hc' : consecutive (low + 1) es).
  { intros i x Hx. rewrite (Hc (S i) x Hx). lia. }
  unfold insert_all in *. cbn [map fold_left fst snd]. rewrite (IH (low + 1)), He by done.
  cbn [length]. destruct (decide (k = low)) as [->|Hne].
  - rewrite bool_decide_false, bool_decide_true, lookup_insert_eq, Z.sub_diag by lia. done.
  - rewrite lookup_insert_ne by done. destruct (decide (low <= k < low + Z.of_nat (S (length es)))).
    + rewrite !bool_decide_true by lia. replace (Z.to_nat (k - low)) with (S (Z.to_nat (k - (low + 1)))) by lia.
      done.
    + by rewrite !bool_decide_false by lia.
Qed.

Lemma entries_from_agree log log' max n idx size :
  (forall k, idx <= k -> log' !! k = log !! k) ->
  entries_from log' max n idx size = entries_from log max n idx size.
Proof.
  revert idx size. induction n as [|n IH]; intros idx size Hag; [done|]. cbn [entries_from].
  rewrite Hag by lia. assert (Hag' : forall k, idx + 1 <= k -> log' !! k = log !! k) by (intros; apply Hag; lia).
  destruct (log !! idx) as [data|]; [|by apply IH].
  destruct (match max with Some _ => _ | None => _ end) as [[]| |]; cbn [obind]; try done.
  destruct (to_raft _); cbn [obind]; try done. destruct (arith_u _ _); cbn [obind]; try done.
  by rewrite IH.
Qed.

(** * Properties *)

(** C14: a snapshot moves the state machine: installing the snapshot of one
    node on another makes the receiver's VM, cluster, task, worker, IP pool, IP
    allocation and VM address tables and its configuration state those of the
    sender, sets its hard state to the snapshot's term and index with no vote,
    removes its log below the index, and leaves every other table (tenant quotas
    and usage, node topology, resource policies) as the receiver had it. *)
Theorem snapshot_transfers_state `{!CodecOk SnapshotData} src dst req s :
  (forall d : SnapshotData, ser d <> Some []) -> conf_state_ok (snap_conf_state s) ->
  hard_state_ok (mkHardState (snap_term s) 0 (snap_index s)) -> snapshot src req = Ok s ->
  exists dst', apply_snapshot NoFault NoFault NoFault NoFault s dst = (Ok tt, dst') /\
    installed src dst s dst'.
Proof. apply apply_snapshot_installed. Qed.

(** A snapshot that is ahead of the receiver's log leaves no trace of its
    position: the receiver reports an empty log (first index 1, last index 0)
    and term 0 at the snapshot's index. *)
Theorem installed_snapshot_position_lost `{!CodecOk SnapshotData} src dst req s :
  (forall d : SnapshotData, ser d <> Some []) -> conf_state_ok (snap_conf_state s) ->
  hard_state_ok (mkHardState (snap_term s) 0 (snap_index s)) -> snapshot src req = Ok s ->
  (forall k, is_Some (log_of dst !! k) -> 0 <= k < snap_index s) ->
  exists dst', apply_snapshot NoFault NoFault NoFault NoFault s dst = (Ok tt, dst') /\
    first_index dst' = 1 /\ last_index dst' = 0 /\ term dst' (snap_index s) = Ok 0.
Proof.
  intros Hne Hcs Hhs Hs Hlog.
  destruct (apply_snapshot_installed src dst req s Hne Hcs Hhs Hs) as (dst' & E & Hin).
  exists dst'. split; [done|]. destruct Hin as (_ & _ & _ & _ & _ & _ & _ & Hl).
  assert (Hempty : log_of dst' = ∅).
  { apply map_empty. intros k. rewrite Hl. destruct (log_of dst !! k) eqn:Ek; [|by case_match].
    destruct (Hlog k ltac:(eauto)).
    destruct (Z.eqb_spec (snap_index s) 0), (Z.ltb_spec k (snap_index s)); simpl; done || lia. }
  destruct (last_index_empty dst' Hempty) as [-> ->]. split_and!; try done.
  unfold term. by rewrite Hempty, lookup_empty.
Qed.

(** A snapshot's term is not always that of its index: the index is the
    smaller of the requested and the last one, the term always that of the last
    entry of the log. *)
Theorem snapshot_index_and_term db req s :
  snapshot db req = Ok s ->
  load_conf_state db = Ok (snap_conf_state s) /\ snap_index s = Z.min req (last_index db) /\
  (0 < last_index db -> term db (last_index db) = Ok (snap_term s)).
Proof. intros (? & ? & ? & _)%snapshot_ok_inv. done. Qed.

(** The log is read back as appended: consecutive entries appended in one
    transaction are what [entries] returns for their range (without a size
    limit), and the rest of the log is unchanged. *)
Theorem append_entries_roundtrip es low db :
  consecutive low es -> Forall entry_ok es -> 0 <= low -> low + Z.of_nat (length es) < 2 ^ 64 ->
  fold_right Z.add 0 (map (fun e => Z.of_nat (length (serialize_entry e))) es) < 2 ^ 64 ->
  exists db', append NoFault es db = (Ok tt, db') /\
    entries db' low (low + Z.of_nat (length es)) None = Ok es /\
    forall k, ~ low <= k < low + Z.of_nat (length es) -> log_of db' !! k = log_of db !! k.
Proof.
  intros Hc Hok Hlow Hhigh Hsz. destruct (append_log es db) as (db' & E & Hl & _ & _).
  exists db'. split; [done|]. split.
  - unfold entries. replace (low + Z.of_nat (length es) - low) with (Z.of_nat (length es)) by lia.
    rewrite arith_u_fits by lia. cbn [obind]. rewrite Nat2Z.id. apply entries_from_log; try done.
    intros i e He. rewrite Hl, (consecutive_lookup low) by done.
    apply lookup_lt_Some in He as Hlt. rewrite bool_decide_true by lia.
    replace (Z.to_nat (low + Z.of_nat i - low)) with i by lia. by rewrite He.
  - intros k Hk. by rewrite Hl, (consecutive_lookup low), bool_decide_false.
Qed.

(** Compaction loses only what it should: after [compact_log_before index]
    reading from the index on gives what it gave before, whatever the size
    limit, the terms there are unchanged, and no entry below is left. *)
Theorem compaction_keeps_suffix index db :
  exists db', compact_log_before NoFault index db = (Ok tt, db') /\
    (forall low high max, index <= low -> entries db' low high max = entries db low high max) /\
    (forall k, index <= k -> term db' k = term db k) /\
    (0 < index -> log_of db' = ∅ \/ index <= first_index db').
Proof.
  destruct (compact_log index db) as (db' & E & Hl & _). exists db'. split; [done|].
  assert (Hge : forall k, index <= k -> log_of db' !! k = log_of db !! k).
  { intros k Hk. rewrite Hl. destruct (Z.ltb_spec k index); [lia|]. by rewrite andb_false_r. }
  split_and!.
  - intros low high max Hlow. unfold entries. destruct (arith_u _ _); cbn [obind]; try done.
    apply entries_from_agree. intros k Hk. apply Hge. lia.
  - intros k Hk. unfold term. by rewrite Hge.
  - intros Hpos. unfold first_index. destruct (min_by_key _ (log_keys db')) as [k|] eqn:Ek.
    + right. apply min_by_key_spec in Ek as [Hin _]. apply list_elem_of_In, in_map_iff in Hin as ([k' v] & <- & Hin).
      apply list_elem_of_In, elem_of_map_to_list in Hin. rewrite Hl in Hin. simpl in *.
      destruct (Z.eqb_spec index 0), (Z.ltb_spec k' index); simpl in Hin; done || lia.
    + left. apply min_by_key_none in Ek. by apply map_eq_nil, map_to_list_empty_iff in Ek.
Qed.

(** Tenant quotas are durable in the database: after [set_tenant_quota]
    succeeded on the database, a quota manager newly created on it has that
    quota and, for other tenants, those that were stored; a failed one changes
    no table. *)
Theorem redb_quota_durable `{!CodecOk TenantQuota} fault q (m : QuotaManager Database) o m' :
  quota_table_wf (storage m) -> set_tenant_quota (H0:=redb_storage fault) q m = (o, m') ->
  (o = Ok tt -> exists m1, manager_new (H0:=redb_storage fault) (storage m') = Ok m1 /\
     quotas m1 = <[quota_tenant_id q := q]> (omap de (strs (storage m) TENANT_QUOTA_TABLE))) /\
  (o <> Ok tt -> storage m' = storage m).
Proof.
  intros Hwf E. split.
  - intros ->. by apply (restart_loads_saved (S:=Database)) in E.
  - intros Hno. unfold set_tenant_quota, on_storage in E. unfold_st. simpl in E.
    destruct (redb_save_quota fault q (storage m)) as [o' db'] eqn:Es. apply save_quota_effect in Es.
    destruct o' as [[]| |]; simplify_eq/=; done.
Qed.
End Storage.

(** * Witnesses *)

#[local] Instance demo_profile : Profile := true.
#[local] Existing Instance canonical_iter.

#[local] Instance wire_snapshot : Wire SnapshotData.
Proof.
  apply (wire_via
    (fun d => (sd_vm_states d, sd_cluster_state d, sd_tasks d, sd_task_assignments d, sd_task_results d,
       sd_workers d, sd_worker_status d, sd_ip_pools d, sd_ip_allocations d, sd_vm_ip_mappings d))
    (fun '(a, b, c, d, e, f, g, h, i, j) => mkSnapshotData a b c d e f g h i j)).
  by intros [].
Defined.
#[local] Instance demo_codec : Codec SnapshotData := wire_codec SnapshotData.
#[local] Instance demo_codec_ok : CodecOk SnapshotData := wire_codec_ok SnapshotData.

Lemma demo_ser_nonempty (d : SnapshotData) : ser d <> Some [].
Proof. done. Qed.

(** A node with two log entries of terms 1 and 3, a VM and a voter. *)
Definition demo_leader : Database :=
  set_strs VM_STATE_TABLE {[ "web" := [1; 2] ]}
    (set_strs RAFT_CONF_STATE_TABLE {[ "conf_state" := serialize_conf_state (mkConfState [1] [] [] [] false) ]}
      (set_u64s RAFT_LOG_TABLE
        {[ 1 := serialize_entry (mkEntry 0 1 1 [] [] false);
           2 := serialize_entry (mkEntry 0 3 2 [7] [] false) ]} empty_database)).

(** A node with other VMs and a stale log. *)
Definition demo_follower : Database :=
  set_strs VM_STATE_TABLE {[ "old" := [9] ]}
    (set_u64s RAFT_LOG_TABLE {[ 1 := serialize_entry (mkEntry 0 1 1 [] [] false) ]} empty_database).

Definition demo_snapshot : Snapshot :=
  mkSnapshot (mkConfState [1] [] [] [] false) 2 3 (put (create_snapshot_data demo_leader)).

Lemma demo_snapshot_made : snapshot demo_leader 2 = Ok demo_snapshot.
Proof. vm_compute. reflexivity. Qed.

Lemma demo_conf_ok : conf_state_ok (snap_conf_state demo_snapshot).
Proof. unfold conf_state_ok, ids_ok; simpl. split_and!; try lia; repeat constructor; lia. Qed.

Lemma snapshot_transfers_state_witness :
  exists dst', apply_snapshot NoFault NoFault NoFault NoFault demo_snapshot demo_follower = (Ok tt, dst') /\
    installed demo_leader demo_follower demo_snapshot dst'.
Proof.
  apply (snapshot_transfers_state demo_leader demo_follower 2 demo_snapshot);
    [exact demo_ser_nonempty|exact demo_conf_ok| |exact demo_snapshot_made].
  unfold hard_state_ok; simpl. lia.
Defined.

Lemma installed_snapshot_position_lost_witness :
  exists dst', apply_snapshot NoFault NoFault NoFault NoFault demo_snapshot demo_follower = (Ok tt, dst') /\
    first_index dst' = 1 /\ last_index dst' = 0 /\ term dst' 2 = Ok 0.
Proof.
  apply (installed_snapshot_position_lost demo_leader demo_follower 2 demo_snapshot);
    [exact demo_ser_nonempty|exact demo_conf_ok| |exact demo_snapshot_made|].
  - unfold hard_state_ok; simpl. lia.
  - intros k [v Hk]. unfold demo_follower in Hk. simpl in Hk. apply lookup_singleton_Some in Hk as [<- _]. simpl. lia.
Defined.

(** A snapshot at index 1, an entry of term 1, has term 3. *)
Lemma snapshot_index_and_term_witness :
  exists s, snapshot demo_leader 1 = Ok s /\ snap_index s = 1 /\ term demo_leader 1 = Ok 1 /\
    snap_term s = 3.
Proof.
  destruct (snapshot demo_leader 1) as [s| |] eqn:E; [|by vm_compute in E..].
  destruct (snapshot_index_and_term demo_leader 1 s E) as (_ & Hi & Ht).
  exists s. split; [done|]. split; [exact Hi|]. split; [vm_compute; reflexivity|].
  assert (Hl : 0 < last_index demo_leader) by reflexivity.
  assert (H3 : term demo_leader (last_index demo_leader) = Ok 3) by (vm_compute; reflexivity).
  specialize (Ht Hl). congruence.
Defined.

Definition demo_entries : list Entry :=
  [mkEntry 0 4 5 [1] [] false; mkEntry 0 4 6 [] [] true; mkEntry 1 4 7 [2; 3] [9] false].

Lemma append_entries_roundtrip_witness :
  exists db', append NoFault demo_entries demo_leader = (Ok tt, db') /\
    entries db' 5 8 None = Ok demo_entries /\
    forall k, ~ 5 <= k < 8 -> u64s db' RAFT_LOG_TABLE !! k = u64s demo_leader RAFT_LOG_TABLE !! k.
Proof.
  apply (append_entries_roundtrip demo_entries 5 demo_leader).
  - intros [|[|[|i]]] e; simpl; intros; simplify_eq; done.
  - repeat constructor; simpl; lia.
  - lia.
  - simpl. lia.
  - vm_compute. reflexivity.
Defined.

#[local] Instance demo_quota_codec : Codec TenantQuota := wire_codec TenantQuota.
#[local] Instance demo_quota_codec_ok : CodecOk TenantQuota := wire_codec_ok TenantQuota.

Definition demo_quotas : QuotaManager Database := mkQuotaManager ∅ ∅ ∅ demo_leader.

Lemma redb_quota_durable_witness :
  let r := set_tenant_quota (H0:=redb_storage NoFault) (tenant_quota_new 5 "acme") demo_quotas in
  fst r = Ok tt /\
  exists m1, manager_new (H0:=redb_storage NoFault) (storage (snd r)) = Ok m1 /\
    quotas m1 = <["acme" := tenant_quota_new 5 "acme"]>
      (omap de (strs demo_leader TENANT_QUOTA_TABLE)).
Proof.
  cbv zeta. split; [reflexivity|].
  apply (redb_quota_durable NoFault (tenant_quota_new 5 "acme") demo_quotas (Ok tt)
    (snd (set_tenant_quota (H0:=redb_storage NoFault) (tenant_quota_new 5 "acme") demo_quotas)));
    [apply map_Forall_empty|reflexivity|reflexivity].
Defined.
