(* ===== verification/DbTransaction.v ===== *)
(** The transaction wrapper of the storage layer
    (blixard-core/src/storage/database_transaction.rs): typed access to a table
    inside a transaction, and the executor that begins, runs, commits and retries.

    As in Database, a transaction works on a copy of the database which a commit
    makes current.  Rows are listed in an order that stands for redb's. *)

From Stdlib Require Import ZArith Lia List.
From stdpp Require Import base tactics numbers gmap strings option.
From stdpp Require Import list.
From S2P Require Import Prelude Errors RaftCodec Database.

Open Scope Z_scope.

(** * The transaction *)

Inductive TransactionType : Type := TxnRead | TxnWrite.

Record DatabaseTransaction : Type := mkDbTransaction {
  dt_kind : TransactionType;
  operation : string
}.

Definition is_write (t : DatabaseTransaction) : bool := match dt_kind t with TxnWrite => true | TxnRead => false end.
Definition is_read (t : DatabaseTransaction) : bool := match dt_kind t with TxnRead => true | TxnWrite => false end.

Section Operations.
Context `{HashIter} (t : DatabaseTransaction).

(** The tables to write of a write transaction, and to read of a read one. *)
Definition open_table (fault : txn_fault) : txn unit :=
  match dt_kind t with
  | TxnRead => sfail (Storage ("Cannot open mutable table in read transaction: " +:+ operation t))
  | TxnWrite => match fault with TableFails => sfail (Storage ("open table for " +:+ operation t)) | _ => sret tt end
  end.

Definition open_table_read (fault : txn_fault) : txn unit :=
  match dt_kind t with
  | TxnRead => match fault with TableFails => sfail (Storage ("open read table for " +:+ operation t)) | _ => sret tt end
  | TxnWrite => sfail (Storage (operation t))
  end.

(** What redb does on the rows of a table: [row_fails k] for row [k]. *)
Context (row_fails : string -> bool) (tbl : str_table).

Definition row_op {A} (what key : string) (m : txn A) : txn A :=
  if row_fails key then sfail (Storage (what +:+ operation t)) else m.

Definition insert_serialized {T} `{Codec T} (key : string) (value : T) : txn unit :=
  let* data := slift (ok_or (Serialization "serialize") (ser value)) in
  row_op "insert serialized data for " key (smodify (fun db => set_strs tbl (<[key := data]> (strs db tbl)) db)).

Definition get_deserialized {T} `{Codec T} (key : string) : txn (option T) :=
  row_op "get data for " key (
    let* db := sget in
    match strs db tbl !! key with
    | Some data => let* value := slift (ok_or (Serialization "deserialize") (de data)) in sret (Some value)
    | None => sret None
    end).

(** The keys are collected first; [unreadable] rows are left out of them. *)
Definition clear_table (unreadable : string -> bool) : txn unit :=
  let* db := sget in
  let keys := List.filter (fun k => negb (unreadable k)) (fst <$> hash_iter (strs db tbl)) in
  sfor (fun key => row_op "remove entry during clear for " key (smodify (fun db => set_strs tbl (delete key (strs db tbl)) db))) keys.

Definition bulk_insert_serialized {T} `{Codec T} (data : list (string * T)) : txn unit :=
  sfor (fun '(key, value) => insert_serialized key value) data.

Definition iter_deserialized {T} `{Codec T} (unreadable : string -> bool) : txn (list (string * T)) :=
  let* db := sget in
  slift (otraverse (fun '(key, value) =>
    if unreadable key then Err (Storage ("read entry during iteration for " +:+ operation t))
    else let? x := ok_or (Serialization "deserialize") (de value) in Ok (key, x)) (hash_iter (strs db tbl))).

Definition clear_and_restore_serialized {T} `{Codec T} (unreadable : string -> bool) (data : list (string * T)) : txn unit :=
  clear_table unreadable ;* bulk_insert_serialized data.

End Operations.

(** * The executor *)

Section Executor.
Context {R : Type}.

Definition execute_read (op : string) (fault : txn_fault) (f : DatabaseTransaction -> txn R) : st Database BlixardError R := fun db =>
  match fault with
  | BeginFails => (Err (Storage ("begin read transaction for " +:+ op)), db)
  | _ => (fst (f (mkDbTransaction TxnRead op) db), db)
  end.

Definition execute_write (op : string) (fault : txn_fault) (f : DatabaseTransaction -> txn R) : st Database BlixardError R :=
  run_txn (Storage ("begin write transaction for " +:+ op)) (Storage ("commit transaction for " +:+ op)) fault
    (f (mkDbTransaction TxnWrite op)).

(** The attempts from [attempt] on, [left] of them after this one.  [fault i] is
    what redb does in attempt [i], and [between i] what other tasks do to the
    database before it.  The calls of the body are counted, and the waits listed
    in milliseconds. *)
Fixpoint retry_from (op : string) (fault : nat -> txn_fault) (between : nat -> Database -> Database)
    (f : DatabaseTransaction -> txn R) (attempt left : nat) (waits : list Z) : Database -> (BlixardResult R * list Z) * Database := fun db =>
  match execute_write op (fault attempt) f (between attempt db) with
  | (Ok r, db') => ((Ok r, waits), db')
  | (Panic, db') => ((Panic, waits), db')
  | (Err e, db') =>
      match left with
      | O => ((Err e, waits), db')
      | S left' => retry_from op fault between f (S attempt) left' (waits ++ [10 * (Z.of_nat attempt + 1)]) db'
      end
  end.

Definition write_with_retry (op : string) (max_retries : nat) (fault : nat -> txn_fault) (between : nat -> Database -> Database)
    (f : DatabaseTransaction -> txn R) (db : Database) : (BlixardResult R * list Z) * Database :=
  retry_from op fault between f 0 max_retries [] db.

End Executor.

(** * Specifications *)

(** The database as the other tasks alone leave it before attempt [n]. *)
Fixpoint others (between : nat -> Database -> Database) (from n : nat) (db : Database) : Database :=
  match n with O => between from db | S n' => others between (S from) n' (between from db) end.

(** The rows of a list, the last one of a key. *)
Definition restored {T} (data : list (string * T)) : gmap string T := fold_left (fun m '(k, v) => <[k := v]> m) data ∅.

(** * Theorems *)

Lemma retry_from_spec {R} op fault between (f : DatabaseTransaction -> txn R) left attempt waits db o waits' db' :
  retry_from op fault between f attempt left waits db = ((o, waits'), db') ->
  exists n, (n <= left)%nat /\ waits' = waits ++ map (fun i => 10 * (Z.of_nat i + 1)) (seq attempt n) /\
    (forall r, o = Ok r -> f (mkDbTransaction TxnWrite op) (others between attempt n db) = (Ok r, db')) /\
    (is_ok o = false -> db' = others between attempt n db) /\ (forall e, o = Err e -> n = left).
Proof.
  revert attempt waits db. induction left as [|left IH]; intros attempt waits db; cbn [retry_from];
    destruct (execute_write _ _ _ _) as [o1 db1] eqn:E; destruct (run_txn_atomic _ _ _ _ _ _ _ E) as [Hfail Hok];
    destruct o1 as [r|e|].
  1-3, 4, 6: intros [= <- <- <-]; exists O; rewrite app_nil_r; split_and!; [lia|done|..]; intros; simplify_eq; auto.
  intros Hr. apply IH in Hr as (n & Hn & -> & Hok' & Hfail' & Hn').
  exists (S n). rewrite (Hfail eq_refl) in *. cbn [seq map others]. rewrite <- app_assoc. cbn.
  split_and!; [lia|done|done|done|]. intros e' He'. by rewrite (Hn' e' He').
Qed.

(** C23: a write with retries runs the body at most once more than there are retries,
    waits ten milliseconds longer each time, changes the database by exactly one
    run of the body when it succeeds, and not at all when it fails. *)
Theorem write_with_retry_atomic {R} op max_retries fault between (f : DatabaseTransaction -> txn R) db o waits db' :
  write_with_retry op max_retries fault between f db = ((o, waits), db') ->
  exists n, (n <= max_retries)%nat /\ waits = map (fun i => 10 * (Z.of_nat i + 1)) (seq 0 n) /\
    (forall r, o = Ok r -> f (mkDbTransaction TxnWrite op) (others between 0 n db) = (Ok r, db')) /\
    (is_ok o = false -> db' = others between 0 n db) /\ (forall e, o = Err e -> n = max_retries).
Proof. apply retry_from_spec. Qed.

(** A loop whose turns cannot fail. *)
Lemma sfor_each {S E A} (f : A -> st S E unit) (g : S -> A -> S) l s :
  (forall x s, f x s = (Ok tt, g s x)) -> sfor f l s = (Ok tt, fold_left g l s).
Proof. intros Hf. revert s. induction l as [|x l IH]; intros s; [done|]. cbn. unfold sbind. by rewrite Hf, IH. Qed.

Section Tables.
Context `{HashIter} (t : DatabaseTransaction) (tbl : str_table).
Abbreviation never := (fun _ : string => false).

Lemma remove_rows keys db :
  exists db', sfor (fun key => row_op t never "remove entry during clear for " key
      (smodify (fun db => set_strs tbl (delete key (strs db tbl)) db))) keys db = (Ok tt, db') /\
    strs db' tbl = fold_left (fun acc k => delete k acc) keys (strs db tbl).
Proof.
  eexists. split; [by apply sfor_each|]. revert db. induction keys as [|k keys IH]; intros db; [done|].
  cbn [fold_left]. by rewrite IH, strs_set_same.
Qed.

Lemma clear_rows unreadable db :
  exists db', clear_table t never tbl unreadable db = (Ok tt, db') /\
    forall k, strs db' tbl !! k = if unreadable k then strs db tbl !! k else None.
Proof.
  unfold clear_table, sbind, sget. match goal with |- context [sfor _ ?keys db] => destruct (remove_rows keys db) as (db' & -> & E) end.
  exists db'. split; [done|]. intros k. rewrite E, lookup_delete_keys. case_decide as Hin.
  - apply list_elem_of_In, filter_In in Hin as [_ Hk]. by destruct (unreadable k).
  - destruct (unreadable k) eqn:Hk; [done|]. destruct (strs db tbl !! k) as [b|] eqn:Eb; [|done].
    exfalso. apply Hin. apply list_elem_of_In, filter_In. rewrite Hk. split; [|done].
    apply list_elem_of_In, list_elem_of_fmap. exists (k, b). split; [done|]. by apply elem_of_hash_iter.
Qed.

(** Clearing a table leaves the rows whose reading fails and reports success; it
    removes all others. *)
Theorem clear_leaves_unreadable unreadable db o db' :
  clear_table t never tbl unreadable db = (o, db') ->
  o = Ok tt /\ strs db' tbl = filter (fun x => unreadable (fst x) = true) (strs db tbl).
Proof.
  destruct (clear_rows unreadable db) as (db1 & E & Hl). rewrite E. intros [= <- <-]. split; [done|].
  apply map_eq. intros k. rewrite Hl, map_lookup_filter. destruct (strs db tbl !! k); cbn; [|by destruct (unreadable k)].
  by destruct (unreadable k); cbn; [rewrite option_guard_True|rewrite option_guard_False].
Qed.

Context {T : Type} `{Codec T} `{!CodecOk T}.

(** The table holds what the map [m] holds, serialized. *)
Definition stores (db : Database) (m : gmap string T) : Prop :=
  forall k, match m !! k with Some v => exists b, strs db tbl !! k = Some b /\ ser v = Some b | None => strs db tbl !! k = None end.

Lemma bulk_insert_stores data db m :
  Forall (fun x => is_Some (ser (snd x))) data -> stores db m ->
  exists db', bulk_insert_serialized t never tbl data db = (Ok tt, db') /\
    stores db' (fold_left (fun m '(k, v) => <[k := v]> m) data m).
Proof.
  intros Hd. revert db m. induction Hd as [|[k v] data [b Hb] _ IH]; intros db m Hm; [by exists db|]. cbn in Hb. cbn.
  unfold insert_serialized, sbind, slift. rewrite Hb. cbn. apply IH.
  intros k'. rewrite strs_set_same. destruct (decide (k = k')) as [<-|Hne].
  - rewrite !lookup_insert_eq. by exists b.
  - rewrite !lookup_insert_ne by done. apply Hm.
Qed.

Lemma decode_rows (m : gmap string T) (l : list (string * bytes)) :
  (forall k b, (k, b) ∈ l -> exists v, m !! k = Some v /\ ser v = Some b) ->
  otraverse (fun '(key, value) => let? x := ok_or (Serialization "deserialize") (de value) in Ok (E:=BlixardError) (key, x)) l
  = Ok (omap (fun '(k, _) => (fun v => (k, v)) <$> m !! k) l).
Proof.
  induction l as [|[k b] l IH]; intros Hl; [done|]. destruct (Hl k b) as (v & Hv & Hb); [by left|].
  cbn. rewrite (de_ser _ _ Hb). cbn. rewrite IH by (intros ???; apply Hl; by right). by rewrite Hv.
Qed.

Lemma elem_of_decoded (m : gmap string T) (l : list (string * bytes)) k v :
  (k, v) ∈ omap (fun '(k, _) => (fun v => (k, v)) <$> m !! k) l <-> m !! k = Some v /\ exists b, (k, b) ∈ l.
Proof.
  rewrite list_elem_of_omap. split.
  - intros ([k' b] & Hin & (v' & Hm & [= -> ->])%fmap_Some). eauto.
  - intros (Hm & b & Hin). exists (k, b). by rewrite Hm.
Qed.

Lemma decoded_NoDup (m : gmap string T) (l : list (string * bytes)) :
  NoDup l.*1 -> NoDup (omap (fun '(k, _) => (fun v => (k, v)) <$> m !! k) l).
Proof.
  induction l as [|[k b] l IH]; intros Hl; [constructor|]. apply NoDup_cons in Hl as [Hk Hl]. cbn.
  destruct (m !! k) as [v|]; cbn; [|auto]. apply NoDup_cons. split; [|auto].
  intros (_ & b' & Hin)%elem_of_decoded. apply Hk. apply list_elem_of_fmap. by exists (k, b').
Qed.

(** The rows of a table that stores [m], decoded, are those of [m]. *)
Lemma decoded_rows db (m : gmap string T) :
  stores db m -> omap (fun '(k, _) => (fun v => (k, v)) <$> m !! k) (hash_iter (strs db tbl)) ≡ₚ map_to_list m.
Proof.
  intros Hs. apply NoDup_Permutation; [|apply NoDup_map_to_list|].
  - apply decoded_NoDup. rewrite hash_iter_perm. apply NoDup_fst_map_to_list.
  - intros [k v]. rewrite elem_of_decoded, elem_of_map_to_list. split; [tauto|]. intros Hk. split; [done|].
    specialize (Hs k). rewrite Hk in Hs. destruct Hs as (b & Hb & _). exists b. by apply elem_of_hash_iter.
Qed.

(** A table cleared and restored from data lists exactly that data, the last
    value of every key. *)
Theorem restore_lists_data data db :
  Forall (fun x => is_Some (ser (snd x))) data ->
  exists db' l, clear_and_restore_serialized t never tbl never data db = (Ok tt, db') /\
    iter_deserialized (T:=T) t tbl never db' = (Ok l, db') /\ l ≡ₚ map_to_list (restored data).
Proof.
  intros Hd. destruct (clear_rows never db) as (db1 & E1 & Hl1).
  destruct (bulk_insert_stores data db1 ∅ Hd) as (db2 & E2 & Hs2); [intros k; by rewrite lookup_empty, Hl1|].
  fold (restored data) in Hs2.
  exists db2. unfold clear_and_restore_serialized, sbind. rewrite E1, E2.
  unfold iter_deserialized, sbind, sget, slift. rewrite (decode_rows (restored data)).
  - eexists. split; [done|]. split; [done|]. by apply decoded_rows.
  - intros k b Hin%elem_of_hash_iter. specialize (Hs2 k). destruct (restored data !! k) as [v|]; [|congruence].
    destruct Hs2 as (b' & Hb' & Hv). exists v. split; [done|congruence].
Qed.

End Tables.

(** * Witnesses *)

#[local] Existing Instance canonical_iter.
#[local] Instance digit_codec : Codec Z := {| ser := fun x => if x <? 256 then Some [x] else None; de := fun b => match b with [x] => Some x | _ => None end |}.
#[local] Instance digit_codec_ok : CodecOk Z.
Proof. intros x b. cbn. destruct (x <? 256); by intros [= <-]. Qed.

Definition demo_txn : DatabaseTransaction := mkDbTransaction TxnWrite "restore".
Definition demo_old : Database := set_strs VM_STATE_TABLE {["a" := [1]; "bad" := [9]]} empty_database.

Lemma write_with_retry_atomic_witness :
  exists n, (n <= 2)%nat /\ [10] = map (fun i => 10 * (Z.of_nat i + 1)) (seq 0 n) /\
    (forall r, @Ok BlixardError _ tt = Ok r ->
       insert_str NoFault VM_STATE_TABLE "b" [2] (others (fun _ => id) 0 n demo_old) = (Ok r, set_strs VM_STATE_TABLE (<["b" := [2]]> (strs demo_old VM_STATE_TABLE)) demo_old)) /\
    (is_ok (@Ok BlixardError _ tt) = false -> set_strs VM_STATE_TABLE (<["b" := [2]]> (strs demo_old VM_STATE_TABLE)) demo_old = others (fun _ => id) 0 n demo_old) /\
    (forall e, @Ok BlixardError _ tt = Err e -> n = 2%nat).
Proof.
  apply (write_with_retry_atomic "insert" 2 (fun i => if Nat.eqb i 0 then CommitFails else NoFault) (fun _ => id)
    (fun _ => insert_str NoFault VM_STATE_TABLE "b" [2])). reflexivity.
Defined.

Lemma clear_leaves_unreadable_witness :
  let db' := snd (clear_table demo_txn (fun _ => false) VM_STATE_TABLE (String.eqb "bad") demo_old) in
  @Ok BlixardError _ tt = Ok tt /\ strs db' VM_STATE_TABLE = filter (fun x => String.eqb "bad" (fst x) = true) (strs demo_old VM_STATE_TABLE).
Proof.
  intros db'. apply (clear_leaves_unreadable demo_txn VM_STATE_TABLE (String.eqb "bad") demo_old (Ok tt) db'). reflexivity.
Defined.

Lemma restore_lists_data_witness :
  exists db' l, clear_and_restore_serialized demo_txn (fun _ => false) VM_STATE_TABLE (fun _ => false) [("b", 2); ("c", 3); ("b", 4)] demo_old = (Ok tt, db') /\
    iter_deserialized (T:=Z) demo_txn VM_STATE_TABLE (fun _ => false) db' = (Ok l, db') /\ l ≡ₚ map_to_list (restored [("b", 2); ("c", 3); ("b", 4)]).
Proof.
  apply (restore_lists_data demo_txn VM_STATE_TABLE [("b", 2); ("c", 3); ("b", 4)] demo_old).
  repeat constructor; vm_compute; eexists; reflexivity.
Defined.
