(* ===== verification/ResourceAdmission.v ===== *)
(** Admission control (blixard-core/src/resource_admission.rs): the cluster's
    resource state is rebuilt from the database, and a VM is admitted on a node
    if what it needs fits beside what is allocated. *)

From Stdlib Require Import ZArith Lia List.
From stdpp Require Import base tactics numbers gmap strings option.
From stdpp Require Import list relations.
From S2P Require Import Prelude Wire Float64 Errors Types RaftCodec Proposals Codecs Database.
From S2P Require Import ResourceManagement.

Open Scope Z_scope.

(** * Data *)

Record AdmissionControlConfig : Type := mkAdmissionConfig {
  strict_mode : bool;
  default_overcommit_policy : OvercommitPolicy;
  preemptible_discount : f64;
  enable_system_reserve : bool
}.

Definition default_admission_config : AdmissionControlConfig :=
  mkAdmissionConfig false policy_moderate (f64_lit 75 100) true.

Section Admission.
Context `{Profile} `{HashIter} `{Codec VmState} `{Codec (string * WorkerCapabilities)}.
Context (config : AdmissionControlConfig) (db : Database).

(** The controller works on the cluster's resource manager. *)
Definition admission (A : Type) : Type := st ClusterResourceManager BlixardError A.

(** What a VM counts for, with five gigabytes of disk for every VM. *)
Definition required (c : VmConfig) : Resources :=
  if preemptible c
  then mkResources (f64_as_u 32 (f64_mul (f64_of_Z (vcpus c)) (preemptible_discount config)))
         (f64_as_u 64 (f64_mul (f64_of_Z (memory c)) (preemptible_discount config))) 5
  else mkResources (vcpus c) (memory c) 5.

(** * Synchronisation *)

Definition register_worker (entry : bytes * bytes) : admission unit :=
  let '(key, value) := entry in
  let* node_id := slift (ok_or (Serialization "convert node_id key to 8-byte array") (from_le_bytes key)) in
  let* worker := slift (ok_or (Serialization "deserialize worker capabilities")
                          (de (A:=string * WorkerCapabilities) value)) in
  smodify (register_node node_id (cpu_cores (snd worker)) (memory_mb (snd worker)) (disk_gb (snd worker))).

Definition clear_node (s : NodeResourceState) : NodeResourceState :=
  set_reservations ∅ (set_allocated no_resources s).

Definition is_counted (s : VmStatus) : bool :=
  match s with Stopped | Failed => false | _ => true end.

(** Runs an operation on a node's state, if the node is known. *)
Definition on_node {A} (node_id : Z) (none : admission A) (m : node_op A) : admission A :=
  fun c =>
    match node_states c !! node_id with
    | Some s => let '(o, s') := m s in (o, set_node_states (<[node_id := s']> (node_states c)) c)
    | None => none c
    end.

(** A VM's resources on its node, as far as they can be allocated. *)
Definition count_vm (data : bytes) : admission unit :=
  match de (A:=VmState) data with
  | Some v =>
      if is_counted (vs_status v)
      then on_node (vs_node_id v) (sret tt)
             (let r := required (vs_config v) in signore (allocate (r_cpu r) (r_memory r) 5))
      else sret tt
  | None => sret tt
  end.

Definition sync_resource_state : admission unit :=
  sfor register_worker (hash_iter (byts db WORKER_TABLE)) ;*
  smodify (fun c => set_node_states (clear_node <$> node_states c) c) ;*
  sfor (fun kv => count_vm (snd kv)) (hash_iter (strs db VM_STATE_TABLE)).

(** * Admission *)

Definition get_worker_capabilities (node_id : Z) : BlixardResult WorkerCapabilities :=
  match byts db WORKER_TABLE !! to_le_bytes node_id with
  | Some data =>
      match de (A:=string * WorkerCapabilities) data with
      | Some (_, caps) => Ok caps
      | None => Err (Serialization "deserialize worker capabilities")
      end
  | None => Err (NodeNotFound node_id)
  end.

(** The strict check: CPU and memory, against what is physically there. *)
Definition check_strict (r : Resources) (s : NodeResourceState) : BlixardResult unit :=
  let? c := arith_u 32 (r_cpu (allocated_resources s) + r_cpu r) in
  if r_cpu (physical_resources s) <? c then Err InsufficientResources
  else
    let? m := arith_u 64 (r_memory (allocated_resources s) + r_memory r) in
    if r_memory (physical_resources s) <? m then Err InsufficientResources else Ok tt.

Definition validate_vm_admission (c : VmConfig) (target_node_id : Z) : admission unit :=
  sync_resource_state ;*
  let* m := sget in
  let* s := slift (ok_or (NodeNotFound target_node_id) (node_states m !! target_node_id)) in
  let r := required c in
  slift (if strict_mode config then check_strict r s
         else if can_allocate s (r_cpu r) (r_memory r) (r_disk r) then Ok tt
         else Err InsufficientResources) ;*
  let* caps := slift (get_worker_capabilities target_node_id) in
  if bool_decide ("microvm" ∈ features caps) then sret tt
  else sfail (SchedulingError "missing feature").

Definition allocate_vm_resources (c : VmConfig) (node_id : Z) : admission unit :=
  on_node node_id (sfail (NodeNotFound node_id))
    (let r := required c in allocate (r_cpu r) (r_memory r) (r_disk r)).

Definition release_vm_resources (c : VmConfig) (node_id : Z) : admission unit :=
  on_node node_id (sret tt)
    (let r := required c in smodify (release (r_cpu r) (r_memory r) (r_disk r))).

Record ResourceUtilizationSummary : Type := mkUtilization {
  total_resources : Resources;
  used_resources : Resources;
  cpu_utilization_percent : f64;
  memory_utilization_percent : f64;
  disk_utilization_percent : f64;
  nodes : Z
}.

Definition get_resource_summary : admission ResourceUtilizationSummary :=
  sync_resource_state ;*
  let* m := sget in
  let* s := slift (cluster_summary m) in
  let p := total_physical s in
  let a := total_allocated s in
  sret (mkUtilization p a (percentage (r_cpu a) (r_cpu p)) (percentage (r_memory a) (r_memory p))
          (percentage (r_disk a) (r_disk p)) (node_count s)).

(** * Specifications *)

(** What the counted VMs of a list of stored states need on a node. *)
Fixpoint usage_on (n : Z) (l : list (string * bytes)) : Resources :=
  match l with
  | [] => no_resources
  | (_, data) :: l' =>
      match de (A:=VmState) data with
      | Some v => if is_counted (vs_status v) && (vs_node_id v =? n)
                  then plus_resources (required (vs_config v)) (usage_on n l') else usage_on n l'
      | None => usage_on n l'
      end
  end.

(** What the VMs in the database need on a node. *)
Definition total_usage (n : Z) : Resources := usage_on n (map_to_list (strs db VM_STATE_TABLE)).

(** The fields of a VM configuration are unsigned. *)
Definition vm_config_ok (c : VmConfig) : Prop := 0 <= vcpus c /\ 0 <= memory c.
Definition data_ok (data : bytes) : Prop :=
  forall v, de (A:=VmState) data = Some v -> vm_config_ok (vs_config v).

(** * Lemmas *)

Lemma required_unsigned c : vm_config_ok c -> unsigned (required c).
Proof.
  intros [Hv Hm]. unfold required, unsigned, le_resources. destruct (preemptible c); simpl; [|lia].
  split_and!; [apply f64_as_u_range; lia..|lia].
Qed.

Lemma required_disk c : r_disk (required c) = 5.
Proof. unfold required. by destruct (preemptible c). Qed.

Lemma plus_resources_comm a b c :
  plus_resources a (plus_resources b c) = plus_resources b (plus_resources a c).
Proof. unfold plus_resources. simpl. f_equal; lia. Qed.

Lemma plus_resources_assoc a b c :
  plus_resources a (plus_resources b c) = plus_resources (plus_resources a b) c.
Proof. unfold plus_resources. simpl. f_equal; lia. Qed.

(** The order in which VMs are counted does not matter. *)
#[local] Instance usage_on_perm n : Proper ((≡ₚ) ==> (=)) (usage_on n).
Proof.
  intros l l' Hp. induction Hp as [|[k d] l l' _ IH|[k1 d1] [k2 d2] l|l1 l2 l3 _ IH1 _ IH2]; simpl.
  - done.
  - by rewrite IH.
  - repeat case_match; try done. apply plus_resources_comm.
  - congruence.
Qed.

Lemma usage_unsigned n l : (forall kd, kd ∈ l -> data_ok (snd kd)) -> unsigned (usage_on n l).
Proof.
  induction l as [|[k data] l IH]; intros Hl; simpl; [by split_and!|].
  assert (Hrest : unsigned (usage_on n l)) by (apply IH; set_solver).
  destruct (de data) as [v|] eqn:Ed; [|done]. destruct (is_counted _ && _); [|done].
  assert (Hv : vm_config_ok (vs_config v)) by (apply (Hl (k, data)); [left|done]).
  apply required_unsigned in Hv. destruct Hrest as (? & ? & ?), Hv as (? & ? & ?). simpl in *.
  unfold unsigned, le_resources, plus_resources. simpl. lia.
Qed.

Definition nodes_ok (c : ClusterResourceManager) : Prop := map_Forall (fun _ s => node_ok s) (node_states c).

(** Allocating a VM's resources as far as possible. *)
Lemma try_allocate c s :
  vm_config_ok c -> node_ok s ->
  exists s', signore (allocate (r_cpu (required c)) (r_memory (required c)) 5) s = (Ok tt, s') /\
    node_ok s' /\
    (le_resources (plus_resources (allocated_resources s) (required c)) (effective_capacity s) ->
     s' = set_allocated (plus_resources (allocated_resources s) (required c)) s).
Proof.
  intros Hc Hs. destruct (required_unsigned _ Hc) as (R1 & R2 & R3). simpl in R1, R2, R3.
  pose proof (required_disk c) as Hd. destruct (required c) as [rc rm rd]. simpl in *. subst rd.
  unfold signore. destruct (allocate rc rm 5 s) as [o s'] eqn:E. exists s'.
  pose proof E as E'. apply allocate_ok_inv in E' as (Hs' & Hp & _); try done.
  split; [by destruct o|]. split; [done|]. intros Hfit. rewrite allocate_eq in E by done.
  apply can_allocate_iff in Hfit; try done. rewrite Hfit in E. by injection E.
Qed.

(** Counting one VM keeps every node within its capacity, and changes only the
    node the VM is on. *)
Lemma count_vm_spec data c o c' :
  nodes_ok c -> data_ok data -> count_vm data c = (o, c') ->
  o = Ok tt /\ nodes_ok c' /\
  forall n s, node_states c !! n = Some s ->
    le_resources (plus_resources (allocated_resources s) (usage_on n [("", data)])) (effective_capacity s) ->
    node_states c' !! n = Some (set_allocated
      (plus_resources (allocated_resources s) (usage_on n [("", data)])) s).
Proof.
  intros Hok Hd. unfold count_vm. simpl usage_on.
  assert (Hzero : forall s, set_allocated (plus_resources (allocated_resources s) no_resources) s = s).
  { intros [p [x y z] r pol]. unfold set_allocated, plus_resources. simpl. by rewrite !Z.add_0_r. }
  destruct (de data) as [v|] eqn:Ed.
  2:{ intros [= <- <-]. split_and!; [done|done|]. intros n s Hs _. by rewrite Hzero. }
  destruct (is_counted (vs_status v)) eqn:Hcnt; simpl.
  2:{ intros [= <- <-]. split_and!; [done|done|]. intros n s Hs _. by rewrite Hzero. }
  unfold on_node. destruct (node_states c !! vs_node_id v) as [s|] eqn:Es.
  2:{ intros [= <- <-]. split_and!; [done|done|]. intros n s Hs _.
      destruct (Z.eqb_spec (vs_node_id v) n); [congruence|]. by rewrite Hzero. }
  destruct (try_allocate (vs_config v) s (Hd v Ed) (Hok _ _ Es)) as (s1 & E1 & Hs1 & Hfit1).
  cbv zeta. rewrite E1. intros [= <- <-]. split_and!; [done|by apply map_Forall_insert_2|].
  intros n t Ht Hfit. simpl. destruct (Z.eqb_spec (vs_node_id v) n) as [<-|Hne].
  - assert (t = s) as -> by congruence. rewrite lookup_insert_eq. f_equal.
    replace (plus_resources (required (vs_config v)) no_resources) with (required (vs_config v)) in *.
    + by apply Hfit1.
    + destruct (required (vs_config v)). unfold plus_resources. simpl. f_equal; lia.
  - rewrite lookup_insert_ne by done. by rewrite Hzero.
Qed.

Lemma count_loop l c o c' :
  nodes_ok c -> (forall kd, kd ∈ l -> data_ok (snd kd)) ->
  sfor (fun kv => count_vm (snd kv)) l c = (o, c') ->
  o = Ok tt /\ nodes_ok c' /\
  forall n s, node_states c !! n = Some s ->
    le_resources (plus_resources (allocated_resources s) (usage_on n l)) (effective_capacity s) ->
    node_states c' !! n = Some (set_allocated (plus_resources (allocated_resources s) (usage_on n l)) s).
Proof.
  revert c. induction l as [|[k data] l IH]; intros c Hok Hl; simpl.
  { intros [= <- <-]. split_and!; [done|done|]. intros n s Hs _. rewrite Hs. f_equal.
    destruct s as [p [x y z] r pol]. unfold set_allocated, plus_resources. simpl. by rewrite !Z.add_0_r. }
  unfold sbind. destruct (count_vm data c) as [o1 c1] eqn:E1.
  apply count_vm_spec in E1 as (-> & Hok1 & Hn1); [|done|apply (Hl (k, data)); left]. intros E.
  apply IH in E as (-> & Hok' & Hn'); [|done|set_solver]. split_and!; [done|done|].
  intros n s Hs Hfit. change (match de data with Some v => _ | None => _ end) with (usage_on n ((k, data) :: l)) in *.
  assert (Hsplit : usage_on n ((k, data) :: l) = plus_resources (usage_on n [("", data)]) (usage_on n l)).
  { simpl. destruct (de data) as [v|]; [destruct (is_counted _ && _)|]; unfold plus_resources; simpl;
      destruct (usage_on n l); simpl; f_equal; lia. }
  rewrite Hsplit in *. rewrite plus_resources_assoc in *.
  pose proof (usage_unsigned n l ltac:(set_solver)) as (U1 & U2 & U3). simpl in U1, U2, U3.
  assert (Hfit1 : le_resources (plus_resources (allocated_resources s) (usage_on n [("", data)]))
    (effective_capacity s)).
  { revert Hfit. generalize (effective_capacity s), (usage_on n [("", data)]). intros cap u Hfit.
    unfold le_resources, plus_resources in *. simpl in *. lia. }
  rewrite (Hn' _ _ (Hn1 n s Hs Hfit1)); [done|]. exact Hfit.
Qed.

(** Counting changes only what is allocated. *)
Definition reallocated (c c' : ClusterResourceManager) : Prop :=
  forall n s', node_states c' !! n = Some s' ->
    exists s a, node_states c !! n = Some s /\ s' = set_allocated a s.

Lemma allocate_reallocates r1 r2 r3 s o s' :
  signore (allocate r1 r2 r3) s = (o, s') -> exists a, s' = set_allocated a s.
Proof.
  assert (Hs : s = set_allocated (allocated_resources s) s) by (by destruct s).
  unfold signore, allocate. unfold_st. simpl. intros E. repeat case_match; simplify_eq; eauto.
Qed.

Lemma count_vm_reallocates data c o c' : count_vm data c = (o, c') -> reallocated c c'.
Proof.
  assert (Hrefl : reallocated c c).
  { intros n s Hs. exists s, (allocated_resources s). split; [done|]. by destruct s. }
  unfold count_vm. destruct (de data) as [v|]; [|by intros [= _ <-]].
  destruct (is_counted _); [|by intros [= _ <-]]. unfold on_node.
  destruct (node_states c !! vs_node_id v) as [s|] eqn:Es; [|by intros [= _ <-]]. cbv zeta.
  destruct (signore _ s) as [o1 s1] eqn:E1. apply allocate_reallocates in E1 as [a ->].
  intros [= _ <-] n s'. simpl. rewrite lookup_insert_Some. intros [[<- <-]|[_ Hs']]; eauto.
Qed.

Lemma count_loop_reallocates l c o c' :
  sfor (fun kv : string * bytes => count_vm (snd kv)) l c = (o, c') -> reallocated c c'.
Proof.
  revert c. induction l as [|[k data] l IH]; intros c; simpl.
  { intros [= _ <-] n s Hs. exists s, (allocated_resources s). split; [done|]. by destruct s. }
  unfold sbind. destruct (count_vm data c) as [[u|e|] c1] eqn:E1; apply count_vm_reallocates in E1.
  2,3: by intros [= _ <-].
  intros E n s' Hs'. destruct (IH _ E n s' Hs') as (s1 & a & Hs1 & ->).
  destruct (E1 _ _ Hs1) as (s & a' & Hs & ->). by exists s, a.
Qed.

(** After the synchronisation the nodes that are not overcommitted have exactly
    their VMs allocated, whatever the order in which the tables are read. *)
Lemma sync_exact c o c' :
  map_Forall (fun _ data => data_ok data) (strs db VM_STATE_TABLE) ->
  sync_resource_state c = (o, c') -> o = Ok tt ->
  nodes_ok c' /\
  forall n s, node_states c' !! n = Some s -> le_resources (total_usage n) (effective_capacity s) ->
    allocated_resources s = total_usage n.
Proof.
  intros Hdata. unfold sync_resource_state. unfold sbind at 1.
  destruct (sfor register_worker _ c) as [[[]|e|] c1]; [|by intros [= <- <-]..].
  unfold sbind, smodify. set (c2 := set_node_states _ c1). intros E Ho.
  assert (Hin : forall kd, kd ∈ hash_iter (strs db VM_STATE_TABLE) -> data_ok (snd kd)).
  { intros [k data] Hk. apply elem_of_hash_iter in Hk. apply (Hdata _ _ Hk). }
  assert (Hok2 : nodes_ok c2).
  { unfold nodes_ok, c2. simpl. apply map_Forall_fmap. intros n s Hs. split; [by split_and!|].
    pose proof (capacity_range (clear_node s)) as Hr. revert Hr.
    generalize (effective_capacity (clear_node s)). intros cap Hr. unfold le_resources. simpl. lia. }
  pose proof E as E'. apply count_loop in E as (_ & Hok' & Hn); [|done..]. split; [done|].
  intros n s Hs Hfit. assert (Hperm : usage_on n (hash_iter (strs db VM_STATE_TABLE)) = total_usage n).
  { unfold total_usage. by rewrite hash_iter_perm. }
  destruct (count_loop_reallocates _ _ _ _ E' n s Hs) as (s2 & a & Hs2 & ->).
  assert (Hz : allocated_resources s2 = no_resources).
  { unfold c2 in Hs2. simpl in Hs2. rewrite lookup_fmap_Some in Hs2. by destruct Hs2 as (? & <- & _). }
  assert (Hsum : plus_resources no_resources (total_usage n) = total_usage n) by (by destruct (total_usage n)).
  specialize (Hn n s2 Hs2). rewrite Hperm, Hz, Hsum in Hn. specialize (Hn Hfit). by simplify_eq/=.
Qed.

(** * Properties *)

(** C30: admission keeps nodes within their capacity: if the VMs that the database
    has on a node fit in its effective capacity and a further VM is admitted
    there (with overcommit policies, not in strict mode), they fit together with
    it, whatever the order in which the tables are read; and the node has the
    microvm feature. *)
Theorem admission_preserves_capacity c n m m' :
  strict_mode config = false -> vm_config_ok c ->
  map_Forall (fun _ data => data_ok data) (strs db VM_STATE_TABLE) ->
  validate_vm_admission c n m = (Ok tt, m') ->
  exists s caps, node_states m' !! n = Some s /\
    get_worker_capabilities n = Ok caps /\ "microvm" ∈ features caps /\
    (le_resources (total_usage n) (effective_capacity s) ->
     le_resources (plus_resources (total_usage n) (required c)) (effective_capacity s)).
Proof.
  intros Hmode Hc Hdata. unfold validate_vm_admission. unfold sbind at 1.
  destruct (sync_resource_state m) as [[[]|e|] m1] eqn:Es; [|done..].
  destruct (sync_exact _ _ _ Hdata Es eq_refl) as [Hok Hex]. rewrite Hmode.
  unfold_st. destruct (node_states m1 !! n) as [s|] eqn:En; [|done]. cbv zeta.
  destruct (can_allocate s _ _ _) eqn:Ecan; [|done].
  destruct (get_worker_capabilities n) as [caps| |] eqn:Ew; [|done..].
  case_bool_decide; [|done]. intros [= <-]. exists s, caps. split_and!; try done.
  intros Hfit. specialize (Hex n s En Hfit). apply can_allocate_iff in Ecan.
  - rewrite Hex in Ecan. by destruct (required c).
  - by apply (Hok n s).
  - by destruct (required_unsigned _ Hc) as (? & ? & ?).
  - by destruct (required_unsigned _ Hc) as (? & ? & ?).
  - by rewrite required_disk.
Qed.
End Admission.

(** * Witnesses *)

#[local] Instance demo_profile : Profile := true.
#[local] Existing Instance canonical_iter.
#[local] Existing Instance wire_codec.

Definition demo_vm (name : string) (cores mem : Z) : VmConfig :=
  mkVmConfig name "" cores mem "acme" None None None 500 false default_locality None.

Definition demo_state : VmState := mkVmState "web" (demo_vm "web" 4 4096) Running 1 0 0.

(** A worker with eight cores that runs a VM. *)
Definition demo_db : Database :=
  set_byts WORKER_TABLE
    {[ to_le_bytes 1 := put ("10.0.0.1:7001"%string, mkCapabilities 8 16384 100 ["microvm"%string]) ]}
    (set_strs VM_STATE_TABLE
      {[ "web"%string := put demo_state ]} empty_database).

Definition demo_admission : BlixardResult unit * ClusterResourceManager :=
  validate_vm_admission default_admission_config demo_db (demo_vm "db" 8 8192) 1
    (cluster_new policy_moderate).

Lemma demo_admitted : is_ok (fst demo_admission) = true.
Proof. vm_compute. reflexivity. Qed.

Lemma admission_preserves_capacity_witness :
  exists m' s caps, demo_admission = (Ok tt, m') /\ node_states m' !! 1 = Some s /\
    get_worker_capabilities demo_db 1 = Ok caps /\ ("microvm"%string ∈ features caps) /\
    (le_resources (total_usage default_admission_config demo_db 1) (effective_capacity s) ->
     le_resources (plus_resources (total_usage default_admission_config demo_db 1)
       (required default_admission_config (demo_vm "db" 8 8192))) (effective_capacity s)).
Proof.
  pose proof demo_admitted as Hok. destruct demo_admission as [[[]| |] m'] eqn:E; try discriminate Hok.
  destruct (admission_preserves_capacity default_admission_config demo_db (demo_vm "db" 8 8192) 1
    (cluster_new policy_moderate) m') as (s & caps & Hs & Hcaps).
  - reflexivity.
  - unfold vm_config_ok; simpl; lia.
  - intros k data Hk v Hv. change (strs demo_db VM_STATE_TABLE) with
      ({[ "web"%string := put demo_state ]} : gmap string bytes) in Hk.
    apply lookup_singleton_Some in Hk as [_ <-].
    rewrite (wire_codec_ok VmState demo_state (put demo_state) eq_refl) in Hv. injection Hv as <-.
    unfold vm_config_ok; simpl; lia.
  - exact E.
  - exists m', s, caps. split; [reflexivity|]. split; [exact Hs|exact Hcaps].
Defined.
