(* ===== verification/StateMachine.v ===== *)
(** The replicated state machine (blixard-core/src/raft/state_machine.rs): how a
    log entry changes the database, the IP pool manager and the quota manager.

    What an application depends on beside the entry and the state (the clock, the
    random choice of a pool, the runtime the call is made in, and what redb does)
    is a record [Env].  [Handle::block_on] panics when it is called from an
    asynchronous execution context (tokio's documentation); [apply_entry] is
    asynchronous, so on a tokio runtime the context is [AsyncTask].

    A write transaction that is begun while the same thread holds one never gets
    it (redb allows one at a time): such a call does not return ([Blocks]). *)

From Stdlib Require Import ZArith Lia List.
From stdpp Require Import base tactics numbers gmap strings option pretty.
From stdpp Require Import list relations.
From S2P Require Import Prelude Wire Errors Types RaftCodec ResourceQuotas QuotaManager IpPool.
From S2P Require Import IpPoolManager Proposals Codecs Database RaftStorage.

Open Scope Z_scope.

(** * Text of addresses *)

(** [Uuid]'s text, of the uuid crate. *)
Class UuidText : Type := vm_id_to_string : VmId -> string.

Definition byte_of (n i : Z) : Z := Z.land (Z.shiftr n (8 * i)) 255.

(** [Ipv4Addr]'s text: four decimal bytes. *)
Definition show_v4 (a : Z) : string :=
  pretty (byte_of a 3) +:+ "." +:+ pretty (byte_of a 2) +:+ "." +:+ pretty (byte_of a 1) +:+ "."
  +:+ pretty (byte_of a 0).

Definition hex_digit (d : Z) : string :=
  String.substring (Z.to_nat d) 1 "0123456789abcdef".

(** A 16-bit number in lower-case hexadecimal without leading zeros. *)
Definition show_hex (n : Z) : string :=
  let d i := hex_digit (Z.land (Z.shiftr n (4 * i)) 15) in
  if n <? 16 then d 0
  else if n <? 256 then d 1 +:+ d 0
  else if n <? 4096 then d 2 +:+ d 1 +:+ d 0
  else d 3 +:+ d 2 +:+ d 1 +:+ d 0.

Definition segments (a : Z) : list Z :=
  map (fun i => Z.land (Z.shiftr a (16 * i)) 65535) [7; 6; 5; 4; 3; 2; 1; 0].

(** The first longest run of zero segments, as its start and length: [longest]
    and [current] are the runs so far, [i] the index of the next segment. *)
Fixpoint zero_run (longest current : nat * nat) (i : nat) (segs : list Z) : nat * nat :=
  match segs with
  | [] => longest
  | s :: segs' =>
      if s =? 0 then
        let current' := (if (snd current =? 0)%nat then i else fst current, S (snd current)) in
        zero_run (if (snd longest <? snd current')%nat then current' else longest) current' (S i) segs'
      else zero_run longest (0%nat, 0%nat) (S i) segs'
  end.

Definition show_segments (segs : list Z) : string := String.concat ":" (map show_hex segs).

(** [Ipv6Addr]'s text. *)
Definition show_v6 (a : Z) : string :=
  if Z.shiftr a 32 =? 65535 then "::ffff:" +:+ show_v4 (Z.land a (2 ^ 32 - 1))
  else
    let segs := segments a in
    let '(start, len) := zero_run (0%nat, 0%nat) (0%nat, 0%nat) 0 segs in
    if (1 <? len)%nat
    then show_segments (take start segs) +:+ "::" +:+ show_segments (drop (start + len) segs)
    else show_segments segs.

Definition show_ip (a : IpAddr) : string :=
  match a with V4 n => show_v4 n | V6 n => show_v6 n end.

(** * The state machine *)

Inductive runtime_context : Type := NoRuntime | Entered | AsyncTask.

#[export] Instance runtime_context_eq_dec : EqDecision runtime_context.
Proof. solve_decision. Defined.

Record Env : Type := mkEnv {
  runtime : runtime_context;
  fault : txn_fault;
  quota_fault : txn_fault;
  random : nat;
  now1 : Z;
  now2 : Z
}.

(** Why an application did not succeed. *)
Inductive stop : Type := Returned (e : BlixardError) | Blocks.

Section Machine.
Context `{Profile} `{IpNetLib} `{HashIter} `{UuidText}.
Context `{Codec TenantQuota} `{Codec NodeTopology} `{Codec TaskSpec} `{Codec TaskResult}.
Context `{Codec (string * WorkerCapabilities)} `{Codec VmState} `{Codec IpAllocation}.
Context `{Codec (list IpAddr)} `{Codec TenantUsage} `{Codec ProposalData}.

(** [shared_state] is what upgrading the weak reference gives, and in it the
    quota manager, whose store is the same database. *)
Record RaftStateMachine : Type := mkMachine {
  database : Database;
  shared_state : option (option (QuotaManager Database));
  admission_controller : bool;
  ip_pool_manager : IpPoolManager
}.

Definition step (A : Type) : Type := st RaftStateMachine stop A.

Definition set_database (db : Database) (s : RaftStateMachine) : RaftStateMachine :=
  mkMachine db (shared_state s) (admission_controller s) (ip_pool_manager s).
Definition set_ip_manager (m : IpPoolManager) (s : RaftStateMachine) : RaftStateMachine :=
  mkMachine (database s) (shared_state s) (admission_controller s) m.

Definition stop_of {A} (o : BlixardResult A) : outcome stop A :=
  match o with Ok a => Ok a | Err e => Err (Returned e) | Panic => Panic end.

(** Work on the transaction, on the IP pool manager and on the quota manager. *)
Definition on_db {A} (m : txn A) : step A :=
  fun s => let '(o, db) := m (database s) in (stop_of o, set_database db s).

Definition on_ip_manager {A} (m : mgr A) : step A :=
  fun s => let '(o, im) := m (ip_pool_manager s) in (stop_of o, set_ip_manager im s).

Definition on_quota_manager {E} (m : st (QuotaManager Database) E unit)
    (wrap : E -> outcome stop unit) : step unit :=
  fun s =>
    match shared_state s with
    | Some (Some q) =>
        let '(o, q') := m (mkQuotaManager (quotas q) (usage q) (tenant_requests q) (database s)) in
        (match o with Ok a => Ok a | Err e => wrap e | Panic => Panic end,
         mkMachine (storage q') (Some (Some q')) (admission_controller s) (ip_pool_manager s))
    | _ => (Ok tt, s)
    end.

Definition returned {A} (m : st RaftStateMachine BlixardError A) : step A :=
  fun s => let '(o, s') := m s in (stop_of o, s').

(** [begin_write], the body and [commit]: only the database is rolled back. *)
Definition with_txn {A} (env : Env) (commit_context : string) (body : step A) : step A :=
  fun s =>
    match fault env with
    | BeginFails => (Err (Returned (Storage "begin write transaction")), s)
    | _ =>
        match body s with
        | (Ok a, s') => match fault env with
                        | CommitFails => (Err (Returned (Storage commit_context)), set_database (database s) s')
                        | _ => (Ok a, s')
                        end
        | (Err e, s') => (Err e, set_database (database s) s')
        | (Panic, s') => (Panic, set_database (database s) s')
        end
    end.

Definition open_table (env : Env) : txn unit := table_op (fault env) (sret tt).

(** [Handle::try_current] with an error, and [block_on]. *)
Definition block_on {A} (env : Env) (m : step A) : step A :=
  match runtime env with
  | NoRuntime => sfail (Returned (Internal "No tokio runtime available"))
  | Entered => m
  | AsyncTask => spanic
  end.

(** The update of the in-memory quota manager, with [try_current().ok()] and the
    result ignored. *)
Definition update_quota_manager (env : Env) (m : st (QuotaManager Database) BlixardError unit)
    : step unit :=
  let* s := sget in
  match shared_state s, runtime env with
  | None, _ | _, NoRuntime => sret tt
  | Some _, Entered => on_quota_manager m (fun _ => Ok tt)
  | Some _, AsyncTask => spanic
  end.

(** ** Tasks *)

Definition apply_assign_task (env : Env) (task_id : string) (node_id : Z) (task : TaskSpec) : step unit :=
  with_txn env "commit assign task" (on_db
    (open_table env ;*
     let* b := serialize "task spec" task in
     insert_str (fault env) TASK_TABLE task_id b ;*
     insert_str (fault env) TASK_ASSIGNMENT_TABLE task_id (to_le_bytes node_id))).

Definition apply_complete_task (env : Env) (task_id : string) (result : TaskResult) : step unit :=
  with_txn env "commit complete task" (on_db
    (open_table env ;*
     let* b := serialize "task result" result in
     insert_str (fault env) TASK_RESULT_TABLE task_id b ;*
     remove_str (fault env) TASK_ASSIGNMENT_TABLE task_id)).

Definition apply_reassign_task (env : Env) (task_id : string) (from_node to_node : Z) : step unit :=
  with_txn env "commit reassign task" (on_db
    (insert_str (fault env) TASK_ASSIGNMENT_TABLE task_id (to_le_bytes to_node))).

(** ** Workers *)

Definition apply_register_worker (env : Env) (node_id : Z) (address : string)
    (capabilities : WorkerCapabilities) (topology : NodeTopology) : step unit :=
  with_txn env "commit register worker" (on_db
    (let* worker_data := serialize "worker info" (address, capabilities) in
     let* topology_data := serialize "node topology" topology in
     insert_byt (fault env) WORKER_TABLE (to_le_bytes node_id) worker_data ;*
     insert_byt (fault env) WORKER_STATUS_TABLE (to_le_bytes node_id) [worker_status_u8 Online] ;*
     insert_byt (fault env) NODE_TOPOLOGY_TABLE (to_le_bytes node_id) topology_data)).

Definition apply_update_worker_status (env : Env) (node_id : Z) (status : WorkerStatus) : step unit :=
  with_txn env "commit update worker status" (on_db
    (insert_byt (fault env) WORKER_STATUS_TABLE (to_le_bytes node_id) [worker_status_u8 status])).

Definition apply_remove_worker (env : Env) (node_id : Z) : step unit :=
  with_txn env "commit remove worker" (on_db
    (remove_byt (fault env) WORKER_TABLE (to_le_bytes node_id) ;*
     remove_byt (fault env) WORKER_STATUS_TABLE (to_le_bytes node_id) ;*
     remove_byt (fault env) NODE_TOPOLOGY_TABLE (to_le_bytes node_id))).

(** ** VMs *)

(** A stored VM state is read, changed and written back; a VM that is not stored
    is skipped. *)
Definition change_vm (env : Env) (name : string) (change : VmState -> VmState) : txn unit :=
  let* data := get_str (fault env) VM_STATE_TABLE name in
  match data with
  | Some b =>
      let* v := deserialize "vm state" "VmState" b in
      let* b' := serialize "vm state" (change v) in
      insert_str (fault env) VM_STATE_TABLE name b'
  | None => sret tt
  end.

Definition update_vm_status_internal (env : Env) (name : string) (status : VmStatus) : step unit :=
  with_txn env "commit update vm status" (on_db (change_vm env name (set_vs_status status))).

Definition apply_update_vm_status (env : Env) (name : string) (status : VmStatus) (node_id : Z)
    : step unit :=
  with_txn env "commit update vm status"
    (on_db (change_vm env name (fun v => set_vs_node node_id (set_vs_status status v)))).

(** The quota check of [validate_vm_admission].  A tenant without a quota gets a
    default one, which is stored: that begins a second write transaction. *)
Definition check_quota (env : Env) (request : ResourceRequest) : step unit :=
  let* s := sget in
  match shared_state s with
  | Some (Some q) =>
      match quotas q !! rr_tenant_id request with
      | None =>
          let q' := set_quotas (<[rr_tenant_id request :=
            tenant_quota_new (now1 env) (rr_tenant_id request)]> (quotas q)) q in
          sput (mkMachine (database s) (Some (Some q')) (admission_controller s) (ip_pool_manager s)) ;*
          sfail Blocks
      | Some _ =>
          on_quota_manager
            (check_resource_quota (H0:=redb_storage (quota_fault env)) (now1 env) request)
            (fun _ => Err (Returned InsufficientResources))
      end
  | _ => sret tt
  end.

Definition validate_vm_admission (env : Env) (config : VmConfig) (node_id : Z) : step unit :=
  let* s := sget in
  if negb (admission_controller s) then sret tt
  else
    let request := mkResourceRequest (tenant_id config) (Some node_id) (vcpus config) (memory config) 0
                     (now1 env) in
    match runtime env with
    | NoRuntime => sfail (Returned (Internal "No tokio runtime available"))
    | rt =>
        match shared_state s with
        | None => sret tt
        | Some _ => match rt with AsyncTask => spanic | _ => check_quota env request end
        end
    end.

Definition apply_vm_command (env : Env) (command : VmCommand) : step unit :=
  match command with
  | VmCreate config node_id =>
      with_txn env "commit create vm"
        (let* s := sget in
         (if admission_controller s then validate_vm_admission env config node_id else sret tt) ;*
         let vm_state := mkVmState (vm_name config) config Creating node_id (now2 env) (now2 env) in
         on_db (open_table env ;*
                let* b := serialize "vm state" vm_state in
                insert_str (fault env) VM_STATE_TABLE (vm_name config) b))
  | VmStart name => update_vm_status_internal env name Starting
  | VmStop name => update_vm_status_internal env name Stopping
  | VmDelete name =>
      with_txn env "commit delete vm" (on_db (remove_str (fault env) VM_STATE_TABLE name))
  | VmMigrate task =>
      with_txn env "commit migrate vm" (on_db (change_vm env (mt_vm_name task)
        (fun v => set_vs_status Stopping (set_vs_node (target_node_id task) v))))
  | VmUpdateStatus _ _ => with_txn env "commit unhandled vm command" (sret tt)
  end.

(** ** IP pools *)

Definition apply_ip_pool_command (env : Env) (command : IpPoolCommand) : step unit :=
  with_txn env "commit ip pool command" (block_on env (on_ip_manager (process_command command))).

(** The list stored for a VM; data that does not decode counts as no address. *)
Definition stored_vm_ips (env : Env) (vm_id : VmId) : txn (list IpAddr) :=
  let* data := get_str (fault env) VM_IP_MAPPING_TABLE (vm_id_to_string vm_id) in
  sret match data with Some b => default [] (de b) | None => [] end.

Definition record_ip (env : Env) (al : IpAllocation) : txn unit :=
  open_table env ;*
  let* alloc_data := serialize "IP allocation" al in
  insert_str (fault env) IP_ALLOCATION_TABLE
    (show_pool_id (alloc_pool_id al) +:+ ":" +:+ show_ip (alloc_ip al)) alloc_data ;*
  let* vm_ips := stored_vm_ips env (alloc_vm_id al) in
  let* ip_data := serialize "VM IPs"
    (if bool_decide (alloc_ip al ∈ vm_ips) then vm_ips else vm_ips ++ [alloc_ip al]) in
  insert_str (fault env) VM_IP_MAPPING_TABLE (vm_id_to_string (alloc_vm_id al)) ip_data.

(** The outcome of a call whose error is only logged. *)
Definition attempt {A} (m : step A) : step (option A) :=
  fun s => match m s with
           | (Ok a, s') => (Ok (Some a), s')
           | (Err _, s') => (Ok None, s')
           | (Panic, s') => (Panic, s')
           end.

Definition apply_allocate_ip (env : Env) (request : IpAllocationRequest) : step unit :=
  with_txn env "commit allocate ip"
    (let* result := block_on env
       (attempt (on_ip_manager (IpPoolManager.allocate_ip (random env) (now1 env) (now2 env) request))) in
     match result with
     | Some r => on_db (record_ip env (allocation r))
     | None => sret tt
     end).

Definition apply_release_vm_ips (env : Env) (vm_id : VmId) : step unit :=
  with_txn env "commit release vm ips"
    (let* vm_ips := on_db (stored_vm_ips env vm_id) in
     (if bool_decide (runtime env = NoRuntime)
      then sfail (Returned (Internal "No tokio runtime available")) else sret tt) ;*
     sfor (fun _ => block_on env (signore (on_ip_manager (release_vm_ips vm_id)))) vm_ips ;*
     on_db (remove_str (fault env) VM_IP_MAPPING_TABLE (vm_id_to_string vm_id))).

(** ** Quotas *)

Definition apply_set_tenant_quota (env : Env) (quota : TenantQuota) : step unit :=
  with_txn env "commit set tenant quota" (on_db
    (open_table env ;*
     let* b := serialize "tenant quota" quota in
     insert_str (fault env) TENANT_QUOTA_TABLE (quota_tenant_id quota) b)) ;*
  update_quota_manager env (set_tenant_quota (H0:=redb_storage (quota_fault env)) quota).

Definition apply_usage_delta (now : Z) (delta : ResourceUsageDelta) (u : TenantUsage)
    : BlixardResult TenantUsage :=
  let v := vm_usage u in
  let? active := apply_delta 32 (active_vms v) (vm_count_delta delta) in
  let? cpus := apply_delta 32 (used_vcpus v) (vcpu_delta delta) in
  let? mem := apply_delta 64 (used_memory_mb v) (memory_mb_delta delta) in
  let? disk := apply_delta 64 (used_disk_gb v) (disk_gb_delta delta) in
  Ok (mkTenantUsage (usage_tenant_id u) (mkVmUsage active cpus mem disk (vms_per_node v))
        (api_usage u) (storage_usage u) now).

Definition apply_update_tenant_usage (env : Env) (tenant_id : TenantId) (delta : ResourceUsageDelta)
    : step unit :=
  with_txn env "commit update tenant usage" (on_db
    (let* data := get_str (fault env) TENANT_USAGE_TABLE tenant_id in
     let current := default (tenant_usage_new (now1 env) tenant_id) (data ≫= de) in
     let* updated := slift (apply_usage_delta (now2 env) delta current) in
     let* b := serialize "tenant usage" updated in
     insert_str (fault env) TENANT_USAGE_TABLE tenant_id b)) ;*
  update_quota_manager env
    (update_resource_usage (now2 env) tenant_id (vcpu_delta delta) (memory_mb_delta delta)
       (disk_gb_delta delta) 1).

Definition apply_remove_tenant_quota (env : Env) (tenant_id : TenantId) : step unit :=
  with_txn env "commit remove tenant quota" (on_db
    (remove_str (fault env) TENANT_QUOTA_TABLE tenant_id ;*
     remove_str (fault env) TENANT_USAGE_TABLE tenant_id)) ;*
  update_quota_manager env (remove_tenant_quota (H0:=redb_storage (quota_fault env)) tenant_id).

(** ** Entries *)

(** The proposals that are applied in one transaction. *)
Definition apply_single (env : Env) (p : ProposalData) : step unit :=
  match p with
  | AssignTask task_id node_id task => apply_assign_task env task_id node_id task
  | CompleteTask task_id result => apply_complete_task env task_id result
  | ReassignTask task_id from_node to_node => apply_reassign_task env task_id from_node to_node
  | RegisterWorker node_id address capabilities topology =>
      apply_register_worker env node_id address capabilities topology
  | UpdateWorkerStatus node_id status => apply_update_worker_status env node_id status
  | RemoveWorker node_id => apply_remove_worker env node_id
  | CreateVm command => apply_vm_command env command
  | UpdateVmStatus name status node_id => apply_update_vm_status env name status node_id
  | MigrateVm name from_node to_node =>
      apply_vm_command env (VmMigrate (mkMigration name from_node to_node false false))
  | SetTenantQuota quota => apply_set_tenant_quota env quota
  | UpdateTenantUsage tenant_id delta _ => apply_update_tenant_usage env tenant_id delta
  | RemoveTenantQuota tenant_id => apply_remove_tenant_quota env tenant_id
  | IpPoolCmd command => apply_ip_pool_command env command
  | AllocateIp request => apply_allocate_ip env request
  | ReleaseVmIps vm_id => apply_release_vm_ips env vm_id
  | Batch _ => sret tt
  end.

Definition is_batch (p : ProposalData) : bool := match p with Batch _ => true | _ => false end.

(** The loop over the proposals of a batch: [envs i] is the environment of the
    [i]-th. *)
Fixpoint apply_batch (apply_data : Env -> bytes -> step unit) (envs : nat -> Env) (i : nat)
    (proposals : list ProposalData) : step unit :=
  match proposals with
  | [] => sret tt
  | p :: proposals' =>
      if is_batch p then sfail (Returned (Internal "Nested batch proposals are not supported"))
      else
        let* data := returned (serialize "sub-proposal" p) in
        apply_data (envs i) data ;*
        apply_batch apply_data envs (S i) proposals'
  end.

(** [apply_entry] on the entry's data.  [depth] bounds the recursion into the
    data of the proposals of a batch, which are not batches themselves. *)
Fixpoint apply_data (depth : nat) (envs : nat -> Env) (env : Env) (data : bytes) : step unit :=
  match depth with
  | O => spanic
  | S depth' =>
      if (length data =? 0)%nat then sret tt
      else
        let* proposal := returned (deserialize "proposal" "ProposalData" data) in
        match proposal with
        | Batch proposals =>
            with_txn env "commit batch transaction" (sret tt) ;*
            apply_batch (apply_data depth' envs) envs 0 proposals
        | _ => apply_single env proposal
        end
  end.

Definition apply_entry (envs : nat -> Env) (env : Env) (entry : Entry) : step unit :=
  apply_data 2 envs env (entry_data entry).

(** * Specifications *)

(** The VMs of a database. *)
Definition vms (db : Database) : gmap string VmState := omap de (strs db VM_STATE_TABLE).

(** Every stored VM state decodes. *)
Definition vms_wf (db : Database) : Prop :=
  map_Forall (fun _ b => is_Some (de (A:=VmState) b)) (strs db VM_STATE_TABLE).

(** What a VM command does to the VMs. *)
Definition vm_command_spec (now : Z) (command : VmCommand) (m : gmap string VmState)
    : gmap string VmState :=
  match command with
  | VmCreate c n => <[vm_name c := mkVmState (vm_name c) c Creating n now now]> m
  | VmStart name => alter (set_vs_status Starting) name m
  | VmStop name => alter (set_vs_status Stopping) name m
  | VmDelete name => delete name m
  | VmMigrate t => alter (fun v => set_vs_status Stopping (set_vs_node (target_node_id t) v)) (mt_vm_name t) m
  | VmUpdateStatus _ _ => m
  end.

Definition vm_spec (now : Z) (p : ProposalData) (m : gmap string VmState) : gmap string VmState :=
  match p with
  | CreateVm c => vm_command_spec now c m
  | UpdateVmStatus name status n => alter (fun v => set_vs_node n (set_vs_status status v)) name m
  | MigrateVm name from to => vm_command_spec now (VmMigrate (mkMigration name from to false false)) m
  | _ => m
  end.

Definition is_vm_proposal (p : ProposalData) : bool :=
  match p with CreateVm _ | UpdateVmStatus _ _ _ | MigrateVm _ _ _ => true | _ => false end.

(** Only the table of VM states differs. *)
Definition only_vms (d d' : Database) : Prop :=
  (forall t, t <> VM_STATE_TABLE -> strs d' t = strs d t) /\ byts d' = byts d /\ u64s d' = u64s d.

(** The tables of the workers: a worker has a topology and a status, and every
    stored status is one byte that decodes. *)
Definition workers_wf (db : Database) : Prop :=
  (forall k, is_Some (byts db WORKER_TABLE !! k) <-> is_Some (byts db NODE_TOPOLOGY_TABLE !! k)) /\
  (forall k, is_Some (byts db WORKER_TABLE !! k) -> is_Some (byts db WORKER_STATUS_TABLE !! k)) /\
  (forall k v, byts db WORKER_STATUS_TABLE !! k = Some v ->
     exists z st, v = [z] /\ worker_status_try_from z = Ok st).

(** The proposals one after the other, up to the first that does not succeed. *)
Fixpoint apply_in_order (envs : nat -> Env) (i : nat) (proposals : list ProposalData) : step unit :=
  match proposals with
  | [] => sret tt
  | p :: proposals' => apply_single (envs i) p ;* apply_in_order envs (S i) proposals'
  end.

(** * Lemmas *)

Lemma with_txn_keeps {A} env what (body : step A) s o s' :
  with_txn env what body s = (o, s') -> is_ok o = false -> database s' = database s.
Proof.
  unfold with_txn. intros E Ho. destruct (fault env), (body s) as [[a|e|] s1]; by simplify_eq/=.
Qed.

Lemma with_txn_ok {A} env what (body : step A) s a s' :
  with_txn env what body s = (Ok a, s') -> body s = (Ok a, s').
Proof. unfold with_txn. destruct (fault env), (body s) as [[]]; intros; by simplify_eq/=. Qed.

Lemma with_txn_run {A} env what (body : step A) s a s' :
  fault env = NoFault -> body s = (Ok a, s') -> with_txn env what body s = (Ok a, s').
Proof. unfold with_txn. by intros -> ->. Qed.

Lemma update_quota_manager_ok env m s o s' :
  update_quota_manager env m s = (o, s') -> o = Ok tt \/ o = Panic.
Proof.
  unfold update_quota_manager, on_quota_manager. unfold_st. intros E. repeat case_match; simplify_eq; auto.
  all: match goal with u : unit |- _ => destruct u end; auto.
Qed.

Lemma update_quota_manager_db (R : Database -> Database -> Prop) env m s o s' :
  (forall d, R d d) -> (forall q o q', m q = (o, q') -> R (storage q) (storage q')) ->
  update_quota_manager env m s = (o, s') -> R (database s) (database s').
Proof.
  intros Hr Hm. unfold update_quota_manager, on_quota_manager. unfold_st. simpl.
  destruct (shared_state s) as [[q|]|] eqn:Es, (runtime env); rewrite ?Es; intros E; simplify_eq/=;
    try apply Hr.
  destruct (m _) as [o1 q1] eqn:Eq. apply Hm in Eq. by simplify_eq/=.
Qed.

(** The three quota proposals: a transaction, and the update of the manager. *)
Lemma txn_then_update env what (body : step unit) m s o s' :
  (with_txn env what body ;* update_quota_manager env m) s = (o, s') ->
  match o with
  | Err _ => database s' = database s
  | _ => True
  end.
Proof.
  unfold sbind. destruct (with_txn env what body s) as [[a|e|] s1] eqn:E; intros E2.
  - apply update_quota_manager_ok in E2 as [-> | ->]; done.
  - simplify_eq. by eapply with_txn_keeps.
  - by simplify_eq.
Qed.

Lemma single_error_keeps env p s e s' :
  apply_single env p s = (Err e, s') -> database s' = database s.
Proof.
  assert (Htxn : forall what (body : step unit), with_txn env what body s = (Err e, s') ->
    database s' = database s) by (intros; by eapply with_txn_keeps).
  destruct p as [ | | | | | |c| | | | | | | | |]; simpl; try (intros E; by apply Htxn in E).
  - destruct c; simpl; unfold update_vm_status_internal; intros E; by apply Htxn in E.
  - intros E. by apply txn_then_update in E.
  - intros E. by apply txn_then_update in E.
  - intros E. by apply txn_then_update in E.
  - done.
Qed.

(** ** Workers *)

(** What does not concern the workers. *)
Definition same_byts (d d' : Database) : Prop := byts d' = byts d.

Lemma save_quota_byts fault q qm o qm' :
  set_tenant_quota (H0:=redb_storage fault) q qm = (o, qm') -> same_byts (storage qm) (storage qm').
Proof.
  unfold set_tenant_quota, on_storage. unfold_st. intros E. simpl in E.
  destruct (redb_save_quota fault q (storage qm)) as [o1 db1] eqn:Es. apply save_quota_effect in Es.
  simplify_eq/=. unfold same_byts. destruct o; [destruct Es as (b & _ & ->)|subst..]; done.
Qed.

Lemma delete_quota_byts fault t qm o qm' :
  remove_tenant_quota (H0:=redb_storage fault) t qm = (o, qm') -> same_byts (storage qm) (storage qm').
Proof.
  unfold remove_tenant_quota, on_storage. unfold_st. intros E. simpl in E.
  destruct (redb_delete_quota fault t (storage qm)) as [o1 db1] eqn:Es. apply delete_quota_effect in Es.
  simplify_eq/=. unfold same_byts. destruct o; by subst.
Qed.

Lemma update_usage_storage now t a b c d (qm : QuotaManager Database) o qm' :
  update_resource_usage now t a b c d qm = (o, qm') -> storage qm' = storage qm.
Proof. unfold update_resource_usage. unfold_st. intros E. repeat case_match; by simplify_eq. Qed.

Lemma change_vm_byts env name f d o d' : change_vm env name f d = (o, d') -> byts d' = byts d.
Proof.
  unfold change_vm, get_str, deserialize, serialize, insert_str, table_op. unfold_st. intros E.
  repeat case_match; by simplify_eq.
Qed.

Lemma record_ip_byts env al d o d' : record_ip env al d = (o, d') -> byts d' = byts d.
Proof.
  unfold record_ip, open_table, stored_vm_ips, get_str, serialize, insert_str, table_op. unfold_st. intros E.
  repeat case_match; by simplify_eq.
Qed.

Lemma with_txn_db (R : Database -> Database -> Prop) {A} env what (body : step A) s o s' :
  (forall d, R d d) -> (forall o s', body s = (o, s') -> R (database s) (database s')) ->
  with_txn env what body s = (o, s') -> R (database s) (database s').
Proof.
  intros Hr Hb. unfold with_txn. intros E.
  destruct (fault env), (body s) as [[a|e|] s1]; simplify_eq/=; try apply Hr; by eapply Hb.
Qed.

Lemma on_db_db {A} (m : txn A) s o s' :
  on_db m s = (o, s') -> exists o1, m (database s) = (o1, database s') /\ o = stop_of o1.
Proof. unfold on_db. destruct (m (database s)) as [o1 d1]. intros. simplify_eq/=. eauto. Qed.

Lemma on_ip_manager_db {A} (m : mgr A) s o s' : on_ip_manager m s = (o, s') -> database s' = database s.
Proof. unfold on_ip_manager. destruct (m _). intros. by simplify_eq/=. Qed.

(** Checking a quota with an entry for the tenant writes nothing. *)
Lemma check_quota_db env r s o s' : check_quota env r s = (o, s') -> database s' = database s.
Proof.
  unfold check_quota. unfold_st. simpl. destruct (shared_state s) as [[q|]|] eqn:Es; try by intros [= <- <-].
  destruct (quotas q !! rr_tenant_id r) as [q0|] eqn:Eq; [|by intros [= <- <-]].
  unfold on_quota_manager. rewrite Es. unfold check_resource_quota, get_tenant_quota. unfold_st. simpl.
  rewrite Eq. intros E. repeat case_match; by simplify_eq/=.
Qed.

Lemma validate_admission_db env c n s o s' :
  validate_vm_admission env c n s = (o, s') -> database s' = database s.
Proof.
  unfold validate_vm_admission. unfold_st. simpl. intros E.
  repeat case_match; simplify_eq; try done; by eapply check_quota_db.
Qed.

Lemma create_body_db env c n (t : txn unit) s o s' :
  (let* m := sget in
   (if admission_controller m then validate_vm_admission env c n else sret tt) ;* on_db t) s = (o, s') ->
  database s' = database s \/ exists o1, t (database s) = (o1, database s') /\ o = stop_of o1.
Proof.
  unfold sbind, sget, sret. destruct (admission_controller s).
  - destruct (validate_vm_admission env c n s) as [[[]|e|] s1] eqn:E1; apply validate_admission_db in E1;
      intros E; simplify_eq; auto.
    apply on_db_db in E. rewrite E1 in E. auto.
  - intros E. apply on_db_db in E. auto.
Qed.

Definition is_worker_proposal (p : ProposalData) : bool :=
  match p with RegisterWorker _ _ _ _ | UpdateWorkerStatus _ _ | RemoveWorker _ => true | _ => false end.

(** A transaction on tables keyed by strings. *)
Lemma on_db_byts (t : txn unit) s o s' :
  (forall d o d', t d = (o, d') -> byts d' = byts d) -> on_db t s = (o, s') ->
  same_byts (database s) (database s').
Proof. intros Ht (o1 & E & _)%on_db_db. by apply Ht in E. Qed.

Lemma str_txn_byts env what (t : txn unit) s o s' :
  (forall d o d', t d = (o, d') -> byts d' = byts d) -> with_txn env what (on_db t) s = (o, s') ->
  same_byts (database s) (database s').
Proof. intros Ht. apply with_txn_db; [done|]. intros. by eapply on_db_byts. Qed.

Lemma quota_txn_byts env what (t : txn unit) m s o s' :
  (forall d o d', t d = (o, d') -> byts d' = byts d) ->
  (forall q o q', m q = (o, q') -> same_byts (storage q) (storage q')) ->
  (with_txn env what (on_db t) ;* update_quota_manager env m) s = (o, s') ->
  same_byts (database s) (database s').
Proof.
  intros Ht Hm. unfold sbind. destruct (with_txn env what (on_db t) s) as [[a|e|] s1] eqn:E; intros E2.
  2,3: simplify_eq; by eapply str_txn_byts.
  apply str_txn_byts in E; [|done]. unfold same_byts in *. rewrite <- E.
  by apply (update_quota_manager_db same_byts) in E2.
Qed.

(** Runs a transaction on tables keyed by strings branch by branch. *)
Ltac run_str_txn :=
  let Hrun := fresh "Hrun" in
  intros ? ? ? Hrun; revert Hrun; unfold open_table, serialize, insert_str, remove_str, get_str, table_op;
  unfold_st; intros Hrun; repeat case_match; by simplify_eq/=.

Lemma release_loop_db env vm_id l s o s' :
  sfor (fun _ : IpAddr => block_on env (signore (on_ip_manager (release_vm_ips vm_id)))) l s = (o, s') ->
  database s' = database s.
Proof.
  revert s. induction l as [|a l IH]; intros s; simpl; [by intros [= _ <-]|]. unfold sbind at 1.
  assert (Hone : forall o s1, block_on env (signore (on_ip_manager (release_vm_ips vm_id))) s = (o, s1) ->
    database s1 = database s).
  { unfold block_on, signore. unfold_st. intros o1 s1 E1.
    destruct (runtime env); [by simplify_eq| |by simplify_eq].
    destruct (on_ip_manager _ s) as [o2 s2] eqn:E2. apply on_ip_manager_db in E2.
    destruct o2; by simplify_eq. }
  destruct (block_on env _ s) as [[b|e|] s1]; specialize (Hone _ _ eq_refl); intros E.
  - apply IH in E. congruence.
  - by simplify_eq.
  - by simplify_eq.
Qed.

Lemma release_body_byts env vm_id s o s' :
  (let* vm_ips := on_db (stored_vm_ips env vm_id) in
   (if bool_decide (runtime env = NoRuntime)
    then sfail (Returned (Internal "No tokio runtime available")) else sret tt) ;*
   sfor (fun _ => block_on env (signore (on_ip_manager (release_vm_ips vm_id)))) vm_ips ;*
   on_db (remove_str (fault env) VM_IP_MAPPING_TABLE (vm_id_to_string vm_id))) s = (o, s') ->
  same_byts (database s) (database s').
Proof.
  assert (Hget : forall d o d', stored_vm_ips env vm_id d = (o, d') -> byts d' = byts d)
    by (unfold stored_vm_ips; run_str_txn).
  assert (Hrem : forall d o d', remove_str (fault env) VM_IP_MAPPING_TABLE (vm_id_to_string vm_id) d = (o, d') ->
    byts d' = byts d) by run_str_txn.
  unfold sbind at 1. destruct (on_db (stored_vm_ips env vm_id) s) as [o1 s1] eqn:E1.
  apply on_db_db in E1 as (oo & E1 & ->). apply Hget in E1. unfold same_byts. rewrite <- E1.
  destruct oo as [l|e|]; simpl; intros E; [|by simplify_eq..].
  unfold sbind at 1 in E. case_bool_decide; [by unfold sfail in E; simplify_eq|]. simpl in E.
  unfold sbind at 1 in E. destruct (sfor _ l s1) as [[u|e|] s2] eqn:E2; apply release_loop_db in E2.
  - apply on_db_byts in E; [|done]. unfold same_byts in E. by rewrite E, E2.
  - simplify_eq. by rewrite E2.
  - simplify_eq. by rewrite E2.
Qed.

Lemma allocate_body_byts env request s o s' :
  (let* result := block_on env
     (attempt (on_ip_manager (IpPoolManager.allocate_ip (random env) (now1 env) (now2 env) request))) in
   match result with Some r => on_db (record_ip env (allocation r)) | None => sret tt end) s = (o, s') ->
  same_byts (database s) (database s').
Proof.
  unfold block_on, attempt, sbind. unfold_st. intros E.
  destruct (runtime env); [by simplify_eq| |by simplify_eq].
  destruct (on_ip_manager _ s) as [o1 s1] eqn:E1. apply on_ip_manager_db in E1. unfold same_byts.
  rewrite <- E1. destruct o1; [|by simplify_eq..].
  apply on_db_byts in E; [done|]. intros d o1 d'. apply record_ip_byts.
Qed.

Lemma single_byts env p s o s' :
  is_worker_proposal p = false -> apply_single env p s = (o, s') ->
  same_byts (database s) (database s').
Proof.
  intros Hp. destruct p as [ | | | | | |c| | | | | | | | |]; try done; simpl.
  - apply str_txn_byts. run_str_txn.
  - apply str_txn_byts. run_str_txn.
  - apply str_txn_byts. run_str_txn.
  - destruct c; simpl; unfold update_vm_status_internal; try (apply str_txn_byts; apply change_vm_byts).
    + apply with_txn_db; [done|]. intros o1 s1 [E|(o2 & E & _)]%create_body_db.
      * unfold same_byts. by rewrite E.
      * revert E. assert (Ht : forall d o d', (open_table env ;*
          let* b := serialize "vm state" (mkVmState (vm_name config) config Creating node_id (now2 env) (now2 env)) in
          insert_str (fault env) VM_STATE_TABLE (vm_name config) b) d = (o, d') -> byts d' = byts d)
          by run_str_txn. apply Ht.
    + apply str_txn_byts. run_str_txn.
    + apply with_txn_db; [done|]. by intros ?? [= _ <-].
  - apply str_txn_byts. apply change_vm_byts.
  - apply str_txn_byts. apply change_vm_byts.
  - apply with_txn_db; [done|]. unfold block_on. unfold_st. intros o1 s1 E.
    destruct (runtime env); [by simplify_eq| |by simplify_eq]. apply on_ip_manager_db in E.
    unfold same_byts. by rewrite E.
  - apply with_txn_db; [done|]. intros ??. apply allocate_body_byts.
  - apply with_txn_db; [done|]. intros ??. apply release_body_byts.
  - apply quota_txn_byts; [run_str_txn|]. intros ???. apply save_quota_byts.
  - apply quota_txn_byts; [run_str_txn|]. intros q o1 q1 E. apply update_usage_storage in E.
    unfold same_byts. by rewrite E.
  - apply quota_txn_byts; [run_str_txn|]. intros ???. apply delete_quota_byts.
  - by intros [= _ <-].
Qed.

Lemma register_worker_wf k w t d :
  workers_wf d ->
  workers_wf (set_byts NODE_TOPOLOGY_TABLE (<[k := t]> (byts d NODE_TOPOLOGY_TABLE))
    (set_byts WORKER_STATUS_TABLE (<[k := [worker_status_u8 Online]]> (byts d WORKER_STATUS_TABLE))
      (set_byts WORKER_TABLE (<[k := w]> (byts d WORKER_TABLE)) d))).
Proof.
  intros (Ht & Hs & Hv). unfold workers_wf. simpl. split_and!.
  - intros k'. rewrite !lookup_insert_is_Some'. by rewrite Ht.
  - intros k'. rewrite !lookup_insert_is_Some'. naive_solver.
  - intros k' v. rewrite lookup_insert_Some. intros [[<- <-]|[_ Hk]]; [|eauto].
    by exists 0, Online.
Qed.

Lemma update_status_wf k st d :
  workers_wf d ->
  workers_wf (set_byts WORKER_STATUS_TABLE (<[k := [worker_status_u8 st]]> (byts d WORKER_STATUS_TABLE)) d).
Proof.
  intros (Ht & Hs & Hv). unfold workers_wf. simpl. split_and!; [done| |].
  - intros k' Hk. apply lookup_insert_is_Some'. auto.
  - intros k' v. rewrite lookup_insert_Some. intros [[<- <-]|[_ Hk]]; [|eauto].
    exists (worker_status_u8 st), st. split; [done|apply worker_status_roundtrip].
Qed.

Lemma remove_worker_wf k d :
  workers_wf d ->
  workers_wf (set_byts NODE_TOPOLOGY_TABLE (delete k (byts d NODE_TOPOLOGY_TABLE))
    (set_byts WORKER_STATUS_TABLE (delete k (byts d WORKER_STATUS_TABLE))
      (set_byts WORKER_TABLE (delete k (byts d WORKER_TABLE)) d))).
Proof.
  intros (Ht & Hs & Hv). unfold workers_wf. simpl. split_and!.
  - intros k'. rewrite !lookup_delete_is_Some. by rewrite Ht.
  - intros k'. rewrite !lookup_delete_is_Some. naive_solver.
  - intros k' v. rewrite lookup_delete_Some. intros [_ Hk]. eauto.
Qed.

Lemma txn_wf env what (t : txn unit) (P : Database -> Prop) s o s' :
  with_txn env what (on_db t) s = (o, s') -> P (database s) ->
  (forall d', t (database s) = (Ok tt, d') -> P d') -> P (database s').
Proof.
  intros E Hp Ht. destruct o as [[]|e|]; [|by rewrite (with_txn_keeps _ _ _ _ _ _ E)..].
  apply with_txn_ok, on_db_db in E as ([[]|e|] & E & ?); try done. by apply Ht.
Qed.

Lemma worker_step_wf env p s o s' :
  is_worker_proposal p = true -> workers_wf (database s) -> apply_single env p s = (o, s') ->
  workers_wf (database s').
Proof.
  intros Hp Hwf. destruct p; try done; simpl; intros E; apply (txn_wf _ _ _ workers_wf _ _ _ E Hwf).
  all: unfold serialize, insert_byt, remove_byt, table_op; unfold_st; intros d' E2.
  all: destruct (fault env); try done; simpl in E2; repeat case_match; simplify_eq.
  all: first [by apply register_worker_wf | by apply update_status_wf | by apply remove_worker_wf].
Qed.

Lemma single_workers_wf env p s o s' :
  workers_wf (database s) -> apply_single env p s = (o, s') -> workers_wf (database s').
Proof.
  intros Hwf E. destruct (is_worker_proposal p) eqn:Hp; [by eapply worker_step_wf|].
  apply single_byts in E; [|done]. unfold workers_wf. by rewrite E.
Qed.

(** ** Entries *)

Lemma empty_txn env what s o s' : with_txn env what (sret tt) s = (o, s') -> s' = s.
Proof. unfold with_txn, sret. destruct s, (fault env); intros; by simplify_eq/=. Qed.

Lemma returned_serialize {A} `{Codec A} what (x : A) s o s' :
  returned (serialize what x) s = (o, s') -> s' = s.
Proof. unfold returned, serialize. unfold_st. intros. repeat case_match; by simplify_eq/=. Qed.

Lemma returned_deserialize {A} `{Codec A} what ty b s :
  returned (deserialize (A:=A) what ty b) s =
    (match de b with Some x => Ok x | None => Err (Returned (Serialization
       ("deserialize " +:+ what +:+ " (" +:+ ty +:+ ")"))) end, s).
Proof. unfold returned, deserialize. unfold_st. by destruct (de b). Qed.

(** An invariant of the single proposals is one of the entries. *)
Lemma apply_data_invariant (P : RaftStateMachine -> Prop) :
  (forall env p s o s', P s -> apply_single env p s = (o, s') -> P s') ->
  forall depth envs env data s o s', P s -> apply_data depth envs env data s = (o, s') -> P s'.
Proof.
  intros Hsingle depth envs. induction depth as [|depth IH]; intros env data s o s' Hs.
  { by intros [= _ <-]. }
  simpl. case_match; [by intros [= _ <-]|]. unfold sbind at 1. rewrite returned_deserialize.
  destruct (de data) as [p|]; [|by intros [= _ <-]]. destruct p; try apply (Hsingle env); try done.
  unfold sbind at 1. destruct (with_txn _ _ _ s) as [[[]|e|] s1] eqn:E1; apply empty_txn in E1 as ->.
  2,3: by intros [= _ <-].
  generalize 0%nat. revert s Hs. induction proposals as [|p ps IHps]; intros s Hs i; simpl.
  { by intros [= _ <-]. }
  destruct (is_batch p); [by intros [= _ <-]|]. unfold sbind at 1.
  destruct (returned _ s) as [[b|e|] s1] eqn:E1; apply returned_serialize in E1 as ->;
    [|by intros [= _ <-]..].
  unfold sbind. destruct (apply_data depth envs (envs i) b s) as [[[]|e|] s1] eqn:E2;
    apply IH in E2; try done; [|by intros [= _ <-]..]. by apply IHps.
Qed.

(** What the state machine goes through. *)
Definition entry_step (s s' : RaftStateMachine) : Prop :=
  exists envs env entry o, apply_entry envs env entry s = (o, s').

(** What is assumed of the serialization of proposals: it succeeds, writes
    something (bincode writes the variant's number first), and round-trips. *)
Definition proposals_serialize : Prop :=
  forall p : ProposalData, exists b, ser p = Some b /\ b <> [] /\ de b = Some p.

Lemma apply_data_single depth envs env b p s :
  b <> [] -> de b = Some p -> is_batch p = false ->
  apply_data (S depth) envs env b s = apply_single env p s.
Proof.
  intros Hb Hd Hp. simpl. destruct b as [|x b]; [done|]. cbn [length Nat.eqb]. unfold sbind at 1.
  rewrite returned_deserialize, Hd. by destruct p.
Qed.

Lemma apply_batch_in_order depth envs ps i s :
  proposals_serialize -> Forall (fun p => is_batch p = false) ps ->
  apply_batch (apply_data (S depth) envs) envs i ps s = apply_in_order envs i ps s.
Proof.
  intros Hser. revert i s. induction ps as [|p ps IH]; intros i s Hps; [done|].
  apply Forall_cons in Hps as [Hp Hps]. cbn [apply_batch apply_in_order]. rewrite Hp.
  destruct (Hser p) as (b & Eb & Hne & Hd). unfold sbind at 1.
  unfold returned, serialize, slift, ok_or. rewrite Eb. simpl stop_of. cbv iota beta.
  unfold sbind. rewrite (apply_data_single depth envs (envs i) b p s Hne Hd Hp).
  destruct (apply_single (envs i) p s) as [[[]|e|] s1]; try done. by apply IH.
Qed.

(** ** VMs *)

Section Vms.
Context `{!CodecOk VmState} (vm_states_serialize : forall v : VmState, is_Some (ser v)).

Lemma store_vm name v d :
  vms_wf d -> exists b, ser v = Some b /\
    let d' := set_strs VM_STATE_TABLE (<[name := b]> (strs d VM_STATE_TABLE)) d in
    vms d' = <[name := v]> (vms d) /\ vms_wf d' /\ only_vms d d'.
Proof.
  intros Hwf. destruct (vm_states_serialize v) as [b Hb]. exists b. split; [done|].
  pose proof (de_ser _ _ Hb) as Hd. unfold vms, vms_wf. cbv zeta. rewrite strs_set_same. split_and!.
  - by rewrite (omap_insert_Some _ _ _ _ v).
  - apply map_Forall_insert_2; [by rewrite Hd|done].
  - split_and!; [|done..]. intros t Ht. by apply strs_set_other.
Qed.

Lemma change_vm_spec env name f d :
  fault env = NoFault -> vms_wf d ->
  exists d', change_vm env name f d = (Ok tt, d') /\ vms d' = alter f name (vms d) /\
    vms_wf d' /\ only_vms d d'.
Proof.
  intros Hf Hwf. unfold change_vm, get_str, table_op. rewrite Hf. unfold_st. simpl.
  destruct (strs d VM_STATE_TABLE !! name) as [b|] eqn:Eb.
  - destruct (Hwf _ _ Eb) as [v Hv]. unfold deserialize, serialize. unfold_st. rewrite Hv.
    destruct (store_vm name (f v) d Hwf) as (b' & Hb' & Hvms & Hwf' & Honly). rewrite Hb'.
    eexists. split; [done|]. split_and!; try done. rewrite Hvms. apply map_eq. intros k.
    destruct (decide (k = name)) as [->|Hne].
    + unfold vms. rewrite lookup_insert_eq, lookup_alter_eq, lookup_omap, Eb. simpl. by rewrite Hv.
    + by rewrite lookup_insert_ne, lookup_alter_ne.
  - eexists. split; [done|]. split_and!; try done. symmetry. apply map_eq. intros k.
    destruct (decide (k = name)) as [->|Hne]; [|by rewrite lookup_alter_ne].
    unfold vms. by rewrite lookup_alter_eq, lookup_omap, Eb.
Qed.

Lemma vm_txn_refines env what (t : txn unit) (spec : gmap string VmState -> gmap string VmState) s :
  fault env = NoFault ->
  (exists d', t (database s) = (Ok tt, d') /\ vms d' = spec (vms (database s)) /\ vms_wf d' /\
     only_vms (database s) d') ->
  exists s', with_txn env what (on_db t) s = (Ok tt, s') /\
    vms (database s') = spec (vms (database s)) /\ vms_wf (database s') /\
    only_vms (database s) (database s').
Proof.
  intros Hf (d' & E & Hv). exists (set_database d' s). split; [|done].
  apply with_txn_run; [done|]. unfold on_db. by rewrite E.
Qed.

Lemma vm_command_refines env c s :
  fault env = NoFault -> admission_controller s = false -> vms_wf (database s) ->
  exists s', apply_vm_command env c s = (Ok tt, s') /\
    vms (database s') = vm_command_spec (now2 env) c (vms (database s)) /\
    vms_wf (database s') /\ only_vms (database s) (database s').
Proof.
  intros Hf Ha Hwf. destruct c as [c n|name|name|name| |t]; simpl.
  2,3,6: by apply vm_txn_refines, change_vm_spec.
  - destruct (store_vm (vm_name c) (mkVmState (vm_name c) c Creating n (now2 env) (now2 env)) _ Hwf)
      as (b & Hb & Hspec). exists (set_database (set_strs VM_STATE_TABLE
        (<[vm_name c := b]> (strs (database s) VM_STATE_TABLE)) (database s)) s). split; [|exact Hspec].
    apply with_txn_run; [done|]. unfold sbind at 1, sget. rewrite Ha. unfold sbind at 1, sret.
    unfold on_db, open_table, serialize, insert_str, table_op. rewrite Hf. unfold_st. by rewrite Hb.
  - apply (vm_txn_refines env _ _ (delete name)); [done|]. unfold remove_str, table_op. rewrite Hf.
    eexists. split; [done|]. unfold vms, vms_wf. rewrite strs_set_same. split_and!.
    + by rewrite omap_delete.
    + by apply map_Forall_delete.
    + split_and!; [|done..]. intros t Ht. by apply strs_set_other.
  - exists s. split; [|done]. by apply with_txn_run.
Qed.
End Vms.

Lemma batch_entry_in_order envs env entry ps s :
  proposals_serialize -> Forall (fun p => is_batch p = false) ps ->
  entry_data entry <> [] -> de (entry_data entry) = Some (Batch ps) -> fault env = NoFault ->
  apply_entry envs env entry s = apply_in_order envs 0 ps s.
Proof.
  intros Hser Hps Hne Hd Hf. unfold apply_entry. cbn [apply_data].
  destruct (entry_data entry) as [|b data] eqn:Edata; [done|]. cbn [length Nat.eqb]. unfold sbind at 1.
  rewrite returned_deserialize, Hd. rewrite (sbind_ok _ _ s tt s); [|by apply with_txn_run].
  exact (apply_batch_in_order 0 envs ps 0 s Hser Hps).
Qed.

(** * Properties *)

(** C6: an entry that fails changes nothing: when the application of a proposal
    that is not a batch returns an error, or would wait for itself, every table
    of the database is as before, whatever redb did. *)
Theorem failed_entry_changes_nothing envs env entry s e s' :
  (forall ps, de (entry_data entry) <> Some (Batch ps)) ->
  apply_entry envs env entry s = (Err e, s') -> database s' = database s.
Proof.
  intros Hnb. unfold apply_entry. cbn [apply_data]. case_match; [done|]. unfold sbind at 1.
  rewrite returned_deserialize. destruct (de (entry_data entry)) as [p|]; [|by intros [= _ <-]].
  destruct p; try apply single_error_keeps. by destruct (Hnb proposals).
Qed.

(** A batch is its proposals in order: applying a batch entry is applying
    its proposals one after the other, each in a transaction of its own, up to
    the first that does not succeed. *)
Theorem batch_is_sequence envs env entry ps s :
  proposals_serialize -> Forall (fun p => is_batch p = false) ps ->
  entry_data entry <> [] -> de (entry_data entry) = Some (Batch ps) -> fault env = NoFault ->
  apply_entry envs env entry s = apply_in_order envs 0 ps s.
Proof. apply batch_entry_in_order. Qed.

(** C2: VM entries refine the registry of VMs: without admission control, an
    entry with a VM proposal succeeds and changes the decoded VM table as the
    abstract registry says (creation replaces, start, stop, migration and status
    updates change an existing VM, deletion removes it), keeps every stored state
    decodable, and touches no other table. *)
Theorem vm_entry_refines `{!CodecOk VmState} envs env entry p s :
  (forall v : VmState, is_Some (ser v)) ->
  entry_data entry <> [] -> de (entry_data entry) = Some p -> is_vm_proposal p = true ->
  fault env = NoFault -> admission_controller s = false -> vms_wf (database s) ->
  exists s', apply_entry envs env entry s = (Ok tt, s') /\
    vms (database s') = vm_spec (now2 env) p (vms (database s)) /\
    vms_wf (database s') /\ only_vms (database s) (database s').
Proof.
  intros Hser Hne Hd Hp Hf Ha Hwf. unfold apply_entry.
  rewrite (apply_data_single 1 envs env (entry_data entry) p) by (done || by destruct p).
  destruct p; try done; cbn [apply_single vm_spec].
  - by apply vm_command_refines.
  - by apply vm_txn_refines, change_vm_spec.
  - by apply vm_command_refines.
Qed.

(** C7: the worker tables stay consistent.  Start from a database in which every
    registered worker has a topology and a status, only registered workers have a
    topology, and every stored status decodes, as in a new database; whatever
    entries are applied (ones that do not decode and batches included) and
    whatever the outcome of each, a failed commit and a panic included, the
    database is one of these again. *)
Theorem reachable_workers_wf s s' :
  rtc entry_step s s' -> workers_wf (database s) -> workers_wf (database s').
Proof.
  apply (rtc_invariant entry_step (fun s => workers_wf (database s))).
  intros x y Hx (envs & env & entry & o & E). revert Hx E.
  apply (apply_data_invariant (fun s => workers_wf (database s))).
  intros e p t o' t' Ht. by apply single_workers_wf.
Qed.

(** In an asynchronous task the IP proposals cannot be applied: pool
    commands and allocations panic and change nothing; and with shared state, a
    tenant quota is stored and the application then panics. *)
Theorem async_apply_panics envs env entry p s :
  entry_data entry <> [] -> de (entry_data entry) = Some p ->
  runtime env = AsyncTask -> fault env = NoFault ->
  match p with
  | IpPoolCmd _ | AllocateIp _ => apply_entry envs env entry s = (Panic, s)
  | SetTenantQuota q => is_Some (ser q) -> is_Some (shared_state s) ->
      exists s', apply_entry envs env entry s = (Panic, s') /\
        strs (database s') TENANT_QUOTA_TABLE !! quota_tenant_id q = ser q
  | _ => True
  end.
Proof.
  intros Hne Hd Hr Hf. unfold apply_entry.
  destruct p; try done; try (intros [b Hb] [sh Hsh]);
    rewrite (apply_data_single 1 envs env (entry_data entry) _ s Hne Hd eq_refl); cbn [apply_single].
  - unfold apply_ip_pool_command, with_txn, block_on. rewrite Hr, Hf. by destruct s.
  - unfold apply_allocate_ip, with_txn, block_on. rewrite Hr, Hf. by destruct s.
  - unfold apply_set_tenant_quota. unfold sbind at 1. unfold with_txn, on_db, open_table, serialize, insert_str,
      table_op. rewrite Hf. unfold_st. rewrite Hb. simpl. unfold update_quota_manager. unfold_st. simpl.
    rewrite Hsh, Hr. eexists. split; [done|]. simpl. by rewrite lookup_insert_eq.
Qed.

(** A release leaves the record of the allocation in the database. *)
Lemma release_keeps_records env vm_id s s' :
  apply_release_vm_ips env vm_id s = (Ok tt, s') ->
  strs (database s') IP_ALLOCATION_TABLE = strs (database s) IP_ALLOCATION_TABLE.
Proof.
  intros E%with_txn_ok. unfold sbind at 1 in E.
  destruct (on_db (stored_vm_ips env vm_id) s) as [o1 s1] eqn:E1. apply on_db_db in E1 as (oo & E1 & ->).
  assert (Hdb : database s1 = database s).
  { revert E1. unfold stored_vm_ips, get_str, table_op. unfold_st. intros E1.
    destruct (fault env); by simplify_eq. }
  destruct oo as [l|e|]; simpl in E; [|done..]. unfold sbind at 1 in E. case_bool_decide; [done|].
  simpl in E. unfold sbind at 1 in E. destruct (sfor _ l s1) as [[u|e|] s2] eqn:E2; [|done..].
  apply release_loop_db in E2. apply on_db_db in E as (o2 & E & _). rewrite E2, Hdb in E.
  revert E. unfold remove_str, table_op. unfold_st. destruct (fault env); by intros [= _ <-].
Qed.
End Machine.

(** * Witnesses *)

#[local] Instance demo_profile : Profile := true.
#[local] Instance demo_uuid : UuidText := fun v => String.concat "-" (map pretty v).
#[local] Existing Instance prefix_nets.
#[local] Existing Instance canonical_iter.
#[local] Instance wire_net : Wire (IpNet (IpNetLib:=prefix_nets)) := wire_prod.
#[local] Existing Instance wire_codec.
#[local] Existing Instance wire_codec_ok.

(** The entry that carries a proposal, and what a node that runs in a task sees. *)
Definition entry_of (p : ProposalData) : Entry := mkEntry 0 1 1 (put p) [] false.
Definition task_env (now : Z) : Env := mkEnv AsyncTask NoFault NoFault 0 now now.
Definition task_envs (i : nat) : Env := task_env (Z.of_nat i).

Lemma entry_of_decodes p : de (entry_data (entry_of p)) = Some p.
Proof. by apply (wire_codec_ok _ p (put p)). Qed.

(** A node without workers, VMs or quota manager. *)
Definition fresh_node : RaftStateMachine := mkMachine empty_database (Some None) false manager_new.

Definition web_vm : VmConfig :=
  mkVmConfig "web" "/etc/web.nix" 2 2048 "acme" None None None 500 true default_locality None.

Lemma failed_entry_changes_nothing_witness :
  let env := mkEnv AsyncTask CommitFails NoFault 0 7 7 in
  exists s', apply_entry task_envs env (entry_of (RemoveWorker 3)) fresh_node =
      (Err (Returned (Storage "commit remove worker")), s') /\
    database s' = database fresh_node.
Proof.
  cbv zeta. eexists. split.
  - unfold apply_entry. rewrite (apply_data_single 1 _ _ _ (RemoveWorker 3));
      [reflexivity|apply put_proposal_nonempty|apply entry_of_decodes|reflexivity].
  - apply (failed_entry_changes_nothing task_envs (mkEnv AsyncTask CommitFails NoFault 0 7 7)
      (entry_of (RemoveWorker 3)) fresh_node (Returned (Storage "commit remove worker"))).
    + intros ps. by rewrite entry_of_decodes.
    + unfold apply_entry. rewrite (apply_data_single 1 _ _ _ (RemoveWorker 3));
        [reflexivity|apply put_proposal_nonempty|apply entry_of_decodes|reflexivity].
Defined.

Definition two_steps : list ProposalData :=
  [CreateVm (VmCreate web_vm 1); CreateVm (VmStart "web")].

Lemma batch_is_sequence_witness :
  apply_entry task_envs (task_env 5) (entry_of (Batch two_steps)) fresh_node =
  apply_in_order task_envs 0 two_steps fresh_node.
Proof.
  apply (batch_is_sequence task_envs (task_env 5) (entry_of (Batch two_steps)) two_steps fresh_node).
  - intros p. exists (put p). split_and!; [done|apply put_proposal_nonempty|].
    by apply (wire_codec_ok _ p (put p)).
  - by repeat constructor.
  - apply put_proposal_nonempty.
  - apply entry_of_decodes.
  - done.
Defined.

Lemma vm_entry_refines_witness :
  exists s', apply_entry task_envs (task_env 5) (entry_of (CreateVm (VmCreate web_vm 1))) fresh_node =
      (Ok tt, s') /\
    vms (database s') = vm_spec 5 (CreateVm (VmCreate web_vm 1)) (vms (database fresh_node)) /\
    vms_wf (database s') /\ only_vms (database fresh_node) (database s').
Proof.
  apply (vm_entry_refines task_envs (task_env 5) (entry_of (CreateVm (VmCreate web_vm 1)))
    (CreateVm (VmCreate web_vm 1)) fresh_node);
    [done|apply put_proposal_nonempty|apply entry_of_decodes|done..].
Defined.

Lemma reachable_workers_wf_witness :
  workers_wf (database (snd (apply_entry task_envs (task_env 5)
    (entry_of (RegisterWorker 1 "10.0.0.1:7001" (mkCapabilities 8 16384 100 ["ssd"]) default_topology))
    fresh_node))).
Proof.
  apply (reachable_workers_wf fresh_node).
  - apply rtc_once. exists task_envs, (task_env 5),
      (entry_of (RegisterWorker 1 "10.0.0.1:7001" (mkCapabilities 8 16384 100 ["ssd"]) default_topology)).
    eexists. apply surjective_pairing.
  - split_and!; [done|done|]. intros k v. simpl. by rewrite lookup_empty.
Defined.

Lemma async_apply_panics_witness :
  apply_entry task_envs (task_env 5) (entry_of (IpPoolCmd (CreatePool (test_pool 10 11)))) fresh_node =
  (Panic, fresh_node).
Proof.
  apply (async_apply_panics task_envs (task_env 5) (entry_of (IpPoolCmd (CreatePool (test_pool 10 11))))
    (IpPoolCmd (CreatePool (test_pool 10 11))) fresh_node);
    [apply put_proposal_nonempty|apply entry_of_decodes|done..].
Defined.
