(* ===== verification/Replicas.v ===== *)
(** Replication: nodes that apply the same entries to databases that agree get
    databases that agree, whatever their clocks read and however they choose at
    random (blixard-core/src/raft/state_machine.rs). *)

From Stdlib Require Import ZArith Lia List.
From stdpp Require Import base tactics numbers gmap strings option.
From stdpp Require Import list relations.
From S2P Require Import Prelude Wire Errors Types RaftCodec ResourceQuotas QuotaManager IpPool.
From S2P Require Import IpPoolManager Proposals Codecs Database RaftStorage StateMachine.

Open Scope Z_scope.

Section Machine.
Context `{Profile} `{IpNetLib} `{HashIter} `{UuidText}.
Context `{Codec TenantQuota} `{Codec NodeTopology} `{Codec TaskSpec} `{Codec TaskResult}.
Context `{Codec (string * WorkerCapabilities)} `{Codec VmState} `{Codec IpAllocation}.
Context `{Codec (list IpAddr)} `{Codec TenantUsage} `{Codec ProposalData}.

(** * Agreement *)

(** Equal but for the clock readings. *)
Definition vm_sim (v1 v2 : VmState) : Prop :=
  vs_name v1 = vs_name v2 /\ vs_config v1 = vs_config v2 /\ vs_status v1 = vs_status v2 /\
  vs_node_id v1 = vs_node_id v2.

Definition usage_sim (u1 u2 : TenantUsage) : Prop :=
  usage_tenant_id u1 = usage_tenant_id u2 /\ vm_usage u1 = vm_usage u2 /\
  api_usage u1 = api_usage u2 /\ storage_usage u1 = storage_usage u2.

Definition data_sim {A} `{Codec A} (R : A -> A -> Prop) (b1 b2 : bytes) : Prop :=
  b1 = b2 \/ exists x y, de b1 = Some x /\ de b2 = Some y /\ R x y.

Definition table_sim {A} `{Codec A} (R : A -> A -> Prop) (m1 m2 : gmap string bytes) : Prop :=
  forall k, option_Forall2 (data_sim R) (m1 !! k) (m2 !! k).

(** Two databases that differ only in the timestamps of VM states and usages. *)
Definition db_sim (d1 d2 : Database) : Prop :=
  (forall t, t <> VM_STATE_TABLE -> t <> TENANT_USAGE_TABLE -> strs d1 t = strs d2 t) /\
  table_sim vm_sim (strs d1 VM_STATE_TABLE) (strs d2 VM_STATE_TABLE) /\
  table_sim usage_sim (strs d1 TENANT_USAGE_TABLE) (strs d2 TENANT_USAGE_TABLE) /\
  (forall t, byts d1 t = byts d2 t) /\ (forall t, u64s d1 t = u64s d2 t).

(** Two nodes with such databases, the same admission control, and shared state
    on both or on none. *)
Definition replica_sim (s1 s2 : RaftStateMachine) : Prop :=
  db_sim (database s1) (database s2) /\
  admission_controller s1 = admission_controller s2 /\
  (is_Some (shared_state s1) <-> is_Some (shared_state s2)).

(** The environments of the same application on two nodes: the clocks and the
    random choices differ. *)
Definition env_sim (e1 e2 : Env) : Prop :=
  runtime e1 = runtime e2 /\ runtime e1 <> Entered /\ fault e1 = fault e2.

(** A sequence of entries: the outcomes, and the final state. *)
Fixpoint apply_log (envs : nat -> nat -> Env) (i : nat) (entries : list Entry) (s : RaftStateMachine)
    : list (outcome stop unit) * RaftStateMachine :=
  match entries with
  | [] => ([], s)
  | e :: entries' =>
      let '(o, s1) := apply_entry (fun j => envs i (S j)) (envs i O) e s in
      let '(os, s2) := apply_log envs (S i) entries' s1 in
      (o :: os, s2)
  end.

(** Two computations with the same outcome on replicas, keeping them such. *)
Definition sim {A} (m1 m2 : step A) : Prop :=
  forall s1 s2, replica_sim s1 s2 ->
    fst (m1 s1) = fst (m2 s2) /\ replica_sim (snd (m1 s1)) (snd (m2 s2)).

Definition txn_sim {A} (t1 t2 : txn A) : Prop :=
  forall d1 d2, db_sim d1 d2 ->
    fst (t1 d1) = fst (t2 d2) /\ db_sim (snd (t1 d1)) (snd (t2 d2)).

#[export] Instance table_sim_refl {A} `{Codec A} (R : A -> A -> Prop) : Reflexive (table_sim R).
Proof. intros m k. destruct (m !! k); constructor. by left. Qed.

Lemma table_sim_insert {A} `{Codec A} (R : A -> A -> Prop) m1 m2 k b1 b2 :
  table_sim R m1 m2 -> data_sim R b1 b2 -> table_sim R (<[k := b1]> m1) (<[k := b2]> m2).
Proof.
  intros Hm Hb k'. destruct (decide (k' = k)) as [->|Hne].
  - rewrite !lookup_insert_eq. by constructor.
  - rewrite !lookup_insert_ne by done. apply Hm.
Qed.

Lemma table_sim_delete {A} `{Codec A} (R : A -> A -> Prop) m1 m2 k :
  table_sim R m1 m2 -> table_sim R (delete k m1) (delete k m2).
Proof.
  intros Hm k'. destruct (decide (k' = k)) as [->|Hne].
  - rewrite !lookup_delete_eq. constructor.
  - rewrite !lookup_delete_ne by done. apply Hm.
Qed.

(** Writing a table the same way on both sides. *)
Lemma db_sim_set_strs t m1 m2 d1 d2 :
  db_sim d1 d2 ->
  (t = VM_STATE_TABLE -> table_sim vm_sim m1 m2) ->
  (t = TENANT_USAGE_TABLE -> table_sim usage_sim m1 m2) ->
  (t <> VM_STATE_TABLE -> t <> TENANT_USAGE_TABLE -> m1 = m2) ->
  db_sim (set_strs t m1 d1) (set_strs t m2 d2).
Proof.
  intros (Hs & Hv & Hu & Hb & H64) H1' H2' H3'. unfold db_sim. simpl. split_and!; try done.
  - intros t' Ht1 Ht2. destruct (decide (t' = t)) as [->|]; auto.
  - destruct (decide (VM_STATE_TABLE = t)); auto.
  - destruct (decide (TENANT_USAGE_TABLE = t)); auto.
Qed.

Lemma sim_bind {A B} (m1 m2 : step A) (k1 k2 : A -> step B) :
  sim m1 m2 -> (forall a, sim (k1 a) (k2 a)) -> sim (sbind m1 k1) (sbind m2 k2).
Proof.
  intros Hm Hk s1 s2 Hs. destruct (Hm s1 s2 Hs) as [Ho Hr]. unfold sbind.
  destruct (m1 s1) as [o1 s1'], (m2 s2) as [o2 s2']. simpl in *. subst o2.
  destruct o1; [by apply Hk|done..].
Qed.

Lemma txn_sim_bind {A B} (m1 m2 : txn A) (k1 k2 : A -> txn B) :
  txn_sim m1 m2 -> (forall a, txn_sim (k1 a) (k2 a)) -> txn_sim (sbind m1 k1) (sbind m2 k2).
Proof.
  intros Hm Hk s1 s2 Hs. destruct (Hm s1 s2 Hs) as [Ho Hr]. unfold sbind.
  destruct (m1 s1) as [o1 s1'], (m2 s2) as [o2 s2']. simpl in *. subst o2.
  destruct o1; [by apply Hk|done..].
Qed.

Lemma sim_ret {A} (a : A) : sim (sret a) (sret a).
Proof. by intros s1 s2 Hs. Qed.
Lemma sim_fail {A} e : sim (A:=A) (sfail e) (sfail e).
Proof. by intros s1 s2 Hs. Qed.
Lemma sim_panic {A} : sim (A:=A) spanic spanic.
Proof. by intros s1 s2 Hs. Qed.

Lemma txn_sim_ret {A} (a : A) : txn_sim (sret a) (sret a).
Proof. by intros s1 s2 Hs. Qed.
Lemma txn_sim_lift {A} (o : BlixardResult A) : txn_sim (slift o) (slift o).
Proof. by intros s1 s2 Hs. Qed.

(** The table operations, for the same data on both sides. *)
Lemma txn_sim_op {A} f (t1 t2 : txn A) : txn_sim t1 t2 -> txn_sim (table_op f t1) (table_op f t2).
Proof. intros Ht. destruct f; try exact Ht. by intros s1 s2 Hs. Qed.

Lemma txn_sim_insert_str f t k b : txn_sim (insert_str f t k b) (insert_str f t k b).
Proof.
  apply txn_sim_op. intros d1 d2 Hd. split; [done|]. pose proof Hd as (Hs & Hv & Hu & _).
  apply db_sim_set_strs; [done|intros ->; apply table_sim_insert; [done|by left]..|].
  intros ??. by rewrite Hs.
Qed.

Lemma txn_sim_remove_str f t k : txn_sim (remove_str f t k) (remove_str f t k).
Proof.
  apply txn_sim_op. intros d1 d2 Hd. split; [done|]. pose proof Hd as (Hs & Hv & Hu & _).
  apply db_sim_set_strs; [done|intros ->; by apply table_sim_delete..|].
  intros ??. by rewrite Hs.
Qed.

Lemma db_sim_set_byts t m d1 d2 : db_sim d1 d2 -> db_sim (set_byts t m d1) (set_byts t m d2).
Proof. intros (Hs & Hv & Hu & Hb & H64). split_and!; try done. intros t'. simpl. by case_match. Qed.

Lemma txn_sim_insert_byt f t k b : txn_sim (insert_byt f t k b) (insert_byt f t k b).
Proof.
  apply txn_sim_op. intros d1 d2 Hd. split; [done|]. pose proof Hd as (_ & _ & _ & Hb & _).
  simpl. rewrite (Hb t). by apply db_sim_set_byts.
Qed.

Lemma txn_sim_remove_byt f t k : txn_sim (remove_byt f t k) (remove_byt f t k).
Proof.
  apply txn_sim_op. intros d1 d2 Hd. split; [done|]. pose proof Hd as (_ & _ & _ & Hb & _).
  simpl. rewrite (Hb t). by apply db_sim_set_byts.
Qed.

Lemma txn_sim_get_str f t k :
  t <> VM_STATE_TABLE -> t <> TENANT_USAGE_TABLE -> txn_sim (get_str f t k) (get_str f t k).
Proof.
  intros H1' H2'. apply txn_sim_op. intros d1 d2 Hd. pose proof Hd as (Hs & _).
  split; [|done]. unfold sbind, sget, sret. simpl. by rewrite Hs.
Qed.

Create HintDb replica.
#[local] Hint Resolve sim_ret sim_fail sim_panic txn_sim_ret txn_sim_lift txn_sim_insert_str txn_sim_remove_str
  txn_sim_insert_byt txn_sim_remove_byt txn_sim_get_str txn_sim_op : replica.
#[local] Hint Extern 1 (txn_sim (sbind _ _) (sbind _ _)) => (apply txn_sim_bind; [|intros ?]) : replica.
#[local] Hint Extern 1 (sim (sbind _ _) (sbind _ _)) => (apply sim_bind; [|intros ?]) : replica.
#[local] Hint Extern 1 (_ <> _) => discriminate : replica.

Lemma sim_on_db {A} (t1 t2 : txn A) : txn_sim t1 t2 -> sim (on_db t1) (on_db t2).
Proof.
  intros Ht s1 s2 (Hd & Ha & Hs). destruct (Ht _ _ Hd) as [Ho Hd']. unfold on_db.
  destruct (t1 (database s1)) as [o1 d1], (t2 (database s2)) as [o2 d2]. simpl in *. subst o2.
  done.
Qed.

Lemma sim_with_txn {A} e1 e2 what (b1 b2 : step A) :
  fault e1 = fault e2 -> sim b1 b2 -> sim (with_txn e1 what b1) (with_txn e2 what b2).
Proof.
  intros Hf Hb s1 s2 Hs. unfold with_txn. rewrite <- Hf. destruct (Hb s1 s2 Hs) as [Ho (Hd & Ha & Hsh)].
  destruct (b1 s1) as [o1 s1'], (b2 s2) as [o2 s2']. simpl in *. subst o2.
  pose proof Hs as (Hd0 & _ & _). destruct (fault e1), o1; done.
Qed.

(** Outside [Entered], the quota manager is not reached. *)
Lemma sim_update_quota_manager e1 e2 m1 m2 :
  env_sim e1 e2 -> sim (update_quota_manager e1 m1) (update_quota_manager e2 m2).
Proof.
  intros (Hr & Hne & _) s1 s2 Hs. pose proof Hs as (_ & _ & Hsh). unfold update_quota_manager.
  unfold_st. simpl. rewrite <- Hr.
  destruct (shared_state s1) as [q1|], (shared_state s2) as [q2|]; [|by destruct Hsh as [[? ?] _]; eauto
    |by destruct Hsh as [_ [? ?]]; eauto|]; destruct (runtime e1); done.
Qed.

Section Replicas.
Context `{!CodecOk VmState} `{!CodecOk TenantUsage}.
Context (vms_serialize : forall v : VmState, is_Some (ser v)).
Context (usages_serialize : forall u : TenantUsage, is_Some (ser u)).

(** Writing related values under the same key. *)
Lemma txn_sim_store_vm e1 e2 name v1 v2 :
  fault e1 = fault e2 -> vm_sim v1 v2 ->
  txn_sim (let* b := serialize "vm state" v1 in insert_str (fault e1) VM_STATE_TABLE name b)
          (let* b := serialize "vm state" v2 in insert_str (fault e2) VM_STATE_TABLE name b).
Proof.
  intros Hf Hv d1 d2 Hd. destruct (vms_serialize v1) as [b1 E1], (vms_serialize v2) as [b2 E2].
  unfold serialize, insert_str. unfold_st. rewrite E1, E2, <- Hf. apply txn_sim_op; [|done].
  clear d1 d2 Hd. intros d1 d2 Hd. split; [done|]. pose proof Hd as (_ & Hvm & _).
  apply db_sim_set_strs; try done. intros _. apply table_sim_insert; [done|].
  right. exists v1, v2. split_and!; [by apply de_ser..|done].
Qed.

Lemma txn_sim_store_usage e1 e2 t u1 u2 :
  fault e1 = fault e2 -> usage_sim u1 u2 ->
  txn_sim (let* b := serialize "tenant usage" u1 in insert_str (fault e1) TENANT_USAGE_TABLE t b)
          (let* b := serialize "tenant usage" u2 in insert_str (fault e2) TENANT_USAGE_TABLE t b).
Proof.
  intros Hf Hu d1 d2 Hd. destruct (usages_serialize u1) as [b1 E1], (usages_serialize u2) as [b2 E2].
  unfold serialize, insert_str. unfold_st. rewrite E1, E2, <- Hf. apply txn_sim_op; [|done].
  clear d1 d2 Hd. intros d1 d2 Hd. split; [done|]. pose proof Hd as (_ & _ & Hus & _).
  apply db_sim_set_strs; try done. intros _. apply table_sim_insert; [done|].
  right. exists u1, u2. split_and!; [by apply de_ser..|done].
Qed.

Lemma data_sim_de {A} `{Codec A} (R : A -> A -> Prop) b1 b2 :
  Reflexive R -> data_sim R b1 b2 -> option_Forall2 R (de b1) (de b2).
Proof.
  intros Hrefl [-> | (x & y & -> & -> & Hr)]; [|by constructor].
  destruct (de b2); constructor. done.
Qed.

(** Reading a table whose values are only related. *)
Lemma txn_sim_get {A B} `{Codec A} (R : A -> A -> Prop) f t k (k1 k2 : option bytes -> txn B) :
  Reflexive R -> (forall d1 d2, db_sim d1 d2 -> table_sim R (strs d1 t) (strs d2 t)) ->
  (forall o1 o2, option_Forall2 R (o1 ≫= de) (o2 ≫= de) -> (is_Some o1 <-> is_Some o2) ->
     txn_sim (k1 o1) (k2 o2)) ->
  txn_sim (sbind (get_str f t k) k1) (sbind (get_str f t k) k2).
Proof.
  intros Hrefl Ht Hk d1 d2 Hd. pose proof (Ht _ _ Hd k) as Htk.
  assert (Hrun : fst (k1 (strs d1 t !! k) d1) = fst (k2 (strs d2 t !! k) d2) /\
    db_sim (snd (k1 (strs d1 t !! k) d1)) (snd (k2 (strs d2 t !! k) d2))).
  { apply Hk; [| |done].
    - destruct Htk as [b1 b2 Hb|]; simpl; [by apply data_sim_de|constructor].
    - by destruct Htk. }
  unfold get_str, sbind at 1 3. by destruct f.
Qed.

Lemma txn_sim_change_vm e1 e2 name f :
  fault e1 = fault e2 -> (forall v1 v2, vm_sim v1 v2 -> vm_sim (f v1) (f v2)) ->
  txn_sim (change_vm e1 name f) (change_vm e2 name f).
Proof.
  intros Hf Hff. unfold change_vm. rewrite <- Hf. apply (txn_sim_get vm_sim); [done|by intros ?? (_ & ? & _)|].
  intros [b1|] [b2|] Hb Hsome.
  - unfold deserialize. simpl in Hb. destruct Hb as [v1 v2 Hv|]; simpl.
    + apply txn_sim_store_vm; auto.
    + by intros ???.
  - by destruct Hsome as [[? ?] _]; eauto.
  - by destruct Hsome as [_ [? ?]]; eauto.
  - apply txn_sim_ret.
Qed.

Lemma apply_usage_delta_sim n1 n2 delta u1 u2 :
  usage_sim u1 u2 ->
  match apply_usage_delta n1 delta u1, apply_usage_delta n2 delta u2 with
  | Ok v1, Ok v2 => usage_sim v1 v2
  | o1, o2 => o1 = o2
  end.
Proof.
  intros (Ht & Hv & Ha & Hs). unfold apply_usage_delta. rewrite Hv.
  repeat (match goal with |- context [obind ?m _] => destruct m; simpl; [|done..] end).
  by split_and!.
Qed.

Lemma txn_sim_usage e1 e2 t delta :
  fault e1 = fault e2 ->
  txn_sim
    (let* data := get_str (fault e1) TENANT_USAGE_TABLE t in
     let current := default (tenant_usage_new (now1 e1) t) (data ≫= de) in
     let* updated := slift (apply_usage_delta (now2 e1) delta current) in
     let* b := serialize "tenant usage" updated in
     insert_str (fault e1) TENANT_USAGE_TABLE t b)
    (let* data := get_str (fault e2) TENANT_USAGE_TABLE t in
     let current := default (tenant_usage_new (now1 e2) t) (data ≫= de) in
     let* updated := slift (apply_usage_delta (now2 e2) delta current) in
     let* b := serialize "tenant usage" updated in
     insert_str (fault e2) TENANT_USAGE_TABLE t b).
Proof.
  intros Hf. rewrite <- Hf. apply (txn_sim_get usage_sim); [done|by intros ?? (_ & _ & ? & _)|].
  intros o1 o2 Ho _. cbv zeta.
  assert (Hu : usage_sim (default (tenant_usage_new (now1 e1) t) (o1 ≫= de))
                         (default (tenant_usage_new (now1 e2) t) (o2 ≫= de))).
  { by destruct Ho. }
  pose proof (apply_usage_delta_sim (now2 e1) (now2 e2) delta _ _ Hu) as Hd.
  destruct (apply_usage_delta (now2 e1) _ _) as [v1|e|], (apply_usage_delta (now2 e2) _ _) as [v2|e'|];
    simplify_eq; try by intros ???.
  by apply (txn_sim_store_usage e1 e1).
Qed.

Lemma sim_block_on {A} e1 e2 (m1 m2 : step A) : env_sim e1 e2 -> sim (block_on e1 m1) (block_on e2 m2).
Proof.
  intros (Hr & Hne & _). unfold block_on. rewrite <- Hr. destruct (runtime e1); try done; auto with replica.
Qed.

Lemma sim_block_bind {A B} e1 e2 (m1 m2 : step A) (k1 k2 : A -> step B) :
  env_sim e1 e2 -> sim (sbind (block_on e1 m1) k1) (sbind (block_on e2 m2) k2).
Proof.
  intros (Hr & Hne & _) s1 s2 Hs. unfold sbind, block_on. rewrite <- Hr. by destruct (runtime e1).
Qed.

Lemma sim_validate e1 e2 c n :
  env_sim e1 e2 -> sim (validate_vm_admission e1 c n) (validate_vm_admission e2 c n).
Proof.
  intros (Hr & Hne & _) s1 s2 Hs. pose proof Hs as (_ & Ha & Hsh). unfold validate_vm_admission.
  unfold_st. simpl. rewrite <- Ha, <- Hr. destruct (admission_controller s1); [|done]. simpl.
  destruct (runtime e1); [done|done|].
  destruct (shared_state s1), (shared_state s2); try done;
    [by destruct Hsh as [[? ?] _]; eauto|by destruct Hsh as [_ [? ?]]; eauto].
Qed.

Lemma sim_get {A} (k1 k2 : RaftStateMachine -> step A) :
  (forall s1 s2, replica_sim s1 s2 -> sim (k1 s1) (k2 s2)) ->
  sim (let* s := sget in k1 s) (let* s := sget in k2 s).
Proof. intros Hk s1 s2 Hs. by apply Hk. Qed.

Lemma sim_vm_command e1 e2 c :
  env_sim e1 e2 -> sim (apply_vm_command e1 c) (apply_vm_command e2 c).
Proof.
  intros He. pose proof He as (_ & _ & Hf).
  destruct c; simpl; unfold update_vm_status_internal; apply sim_with_txn; try done.
  - apply sim_get. intros s1 s2 (_ & Ha & _). rewrite <- Ha. apply sim_bind.
    { destruct (admission_controller s1); [by apply sim_validate|apply sim_ret]. }
    intros _. apply sim_on_db. unfold open_table. rewrite <- Hf. apply txn_sim_bind; [auto with replica|].
    intros _. by apply (txn_sim_store_vm e1 e1).
  - apply sim_on_db, txn_sim_change_vm; [done|]. by intros v1 v2 (? & ? & ? & ?).
  - apply sim_on_db, txn_sim_change_vm; [done|]. by intros v1 v2 (? & ? & ? & ?).
  - rewrite Hf. apply sim_on_db, txn_sim_remove_str.
  - apply sim_on_db, txn_sim_change_vm; [done|]. by intros v1 v2 (? & ? & ? & ?).
Qed.

Lemma sim_release_loop e1 e2 vm_id (l : list IpAddr) :
  env_sim e1 e2 ->
  sim (sfor (fun _ => block_on e1 (signore (on_ip_manager (release_vm_ips vm_id)))) l)
      (sfor (fun _ => block_on e2 (signore (on_ip_manager (release_vm_ips vm_id)))) l).
Proof.
  intros He. induction l as [|a l IH]; simpl; [apply sim_ret|].
  apply sim_bind; [by apply sim_block_on|]. by intros _.
Qed.

Lemma sim_release e1 e2 vm_id :
  env_sim e1 e2 -> sim (apply_release_vm_ips e1 vm_id) (apply_release_vm_ips e2 vm_id).
Proof.
  intros He. pose proof He as (Hr & _ & Hf). apply sim_with_txn; [done|].
  unfold stored_vm_ips. rewrite <- Hf, <- Hr. apply sim_bind.
  { apply sim_on_db, txn_sim_bind; [|auto with replica]. by apply txn_sim_get_str. }
  intros l. apply sim_bind; [case_bool_decide; auto with replica|]. intros _.
  apply sim_bind; [by apply sim_release_loop|]. intros _. apply sim_on_db, txn_sim_remove_str.
Qed.

Lemma sim_single e1 e2 p : env_sim e1 e2 -> sim (apply_single e1 p) (apply_single e2 p).
Proof.
  intros He. pose proof He as (_ & _ & Hf). destruct p; cbn [apply_single].
  7,9: by apply sim_vm_command.
  7: { apply sim_with_txn, sim_on_db, txn_sim_change_vm; [done..|]. by intros v1 v2 (? & ? & ? & ?). }
  7,8: apply sim_with_txn; [done|].
  7: by apply sim_block_on.
  7: by apply sim_block_bind.
  7: by apply sim_release.
  8: { apply sim_bind; [|intros _; by apply sim_update_quota_manager].
       apply sim_with_txn, sim_on_db, txn_sim_usage; done. }
  7,8: apply sim_bind; [|intros _; by apply sim_update_quota_manager].
  9: apply sim_ret.
  all: apply sim_with_txn, sim_on_db; [done|]; unfold open_table, serialize; rewrite <- ?Hf; eauto 10 with replica.
Qed.

Lemma sim_returned {A} (m : forall S, st S BlixardError A) :
  (forall S s, snd (m S s) = s) -> (forall S1 S2 s1 s2, fst (m S1 s1) = fst (m S2 s2)) ->
  sim (returned (m _)) (returned (m _)).
Proof.
  intros Hs Ho s1 s2 Hr. unfold returned. specialize (Ho _ _ s1 s2).
  pose proof (Hs _ s1) as H1'. pose proof (Hs _ s2) as H2'.
  destruct (m _ s1), (m _ s2). simpl in *. by subst.
Qed.

Lemma sim_apply_data depth (envs1 envs2 : nat -> Env) e1 e2 data :
  (forall i, env_sim (envs1 i) (envs2 i)) -> env_sim e1 e2 ->
  sim (apply_data depth envs1 e1 data) (apply_data depth envs2 e2 data).
Proof.
  intros Hes. revert e1 e2 data. induction depth as [|depth IH]; intros e1 e2 data He; cbn [apply_data].
  { apply sim_panic. }
  case_match; [apply sim_ret|]. apply sim_bind.
  { apply (sim_returned (fun S => deserialize "proposal" "ProposalData" data));
      intros; unfold deserialize, slift; simpl; by destruct (de data). }
  intros p. destruct p; try by apply sim_single.
  apply sim_bind; [apply sim_with_txn; [by destruct He as (_ & _ & ?)|apply sim_ret]|]. intros _.
  generalize 0%nat. induction proposals as [|p ps IHps]; intros i; cbn [apply_batch]; [apply sim_ret|].
  destruct (is_batch p); [apply sim_fail|]. apply sim_bind.
  { apply (sim_returned (fun S => serialize "sub-proposal" p)); done. }
  intros b. apply sim_bind; [by apply IH|]. intros _. apply IHps.
Qed.

Lemma apply_log_sim envs1 envs2 entries i s1 s2 :
  (forall i j, env_sim (envs1 i j) (envs2 i j)) -> replica_sim s1 s2 ->
  fst (apply_log envs1 i entries s1) = fst (apply_log envs2 i entries s2) /\
  replica_sim (snd (apply_log envs1 i entries s1)) (snd (apply_log envs2 i entries s2)).
Proof.
  intros Hes. revert i s1 s2. induction entries as [|e entries IH]; intros i s1 s2 Hs; cbn [apply_log].
  { done. }
  assert (He : sim (apply_entry (fun j => envs1 i (S j)) (envs1 i 0%nat) e)
                   (apply_entry (fun j => envs2 i (S j)) (envs2 i 0%nat) e)).
  { apply sim_apply_data; auto. }
  destruct (He s1 s2 Hs) as [Ho Hr].
  destruct (apply_entry _ (envs1 i 0%nat) e s1) as [o1 s1'].
  destruct (apply_entry _ (envs2 i 0%nat) e s2) as [o2 s2']. simpl in *. subst o2.
  destruct (IH (S i) s1' s2' Hr) as [Hos Hrs].
  destruct (apply_log envs1 (S i) entries s1'), (apply_log envs2 (S i) entries s2'). simpl in *.
  by subst.
Qed.

(** * Properties *)

(** C1: replicas agree: two nodes whose databases differ only in timestamps
    (with the same admission control, and shared state on both or on none) that
    apply the same log, each in an asynchronous task or both outside any runtime,
    with the same storage faults, get the same outcome for every entry and
    databases that again differ only in timestamps. *)
Theorem replicas_agree envs1 envs2 entries s1 s2 :
  (forall i j, env_sim (envs1 i j) (envs2 i j)) -> replica_sim s1 s2 ->
  fst (apply_log envs1 0 entries s1) = fst (apply_log envs2 0 entries s2) /\
  replica_sim (snd (apply_log envs1 0 entries s1)) (snd (apply_log envs2 0 entries s2)).
Proof. apply apply_log_sim. Qed.
End Replicas.
End Machine.

(** * Witnesses *)

#[local] Instance demo_profile : Profile := true.
#[local] Instance demo_uuid : UuidText := fun _ => "vm".
#[local] Existing Instance prefix_nets.
#[local] Existing Instance canonical_iter.
#[local] Instance wire_net : Wire (IpNet (IpNetLib:=prefix_nets)) := wire_prod.
#[local] Existing Instance wire_codec.
#[local] Existing Instance wire_codec_ok.

(** Two replicas with different clocks. *)
Definition clock_envs (start : Z) (i j : nat) : Env :=
  mkEnv AsyncTask NoFault NoFault i (start + Z.of_nat i) (start + Z.of_nat i).

Definition demo_log : list Entry :=
  map (fun p : ProposalData => mkEntry 0 1 1 (put p) [] false)
    [CreateVm (VmCreate default_vm_config 1); CreateVm (VmStart "");
     UpdateTenantUsage "acme" (from_vm_create 3 default_vm_config) [];
     AllocateIp (mkIpRequest [] None ∅ None RoundRobin "02:00:00:00:00:01")].

Definition demo_replica : RaftStateMachine := mkMachine empty_database None false manager_new.

Lemma replicas_agree_witness :
  let r1 := apply_log (clock_envs 100) 0 demo_log demo_replica in
  let r2 := apply_log (clock_envs 250) 0 demo_log demo_replica in
  fst r1 = fst r2 /\ replica_sim (snd r1) (snd r2).
Proof.
  apply (replicas_agree ltac:(done) ltac:(done) (clock_envs 100) (clock_envs 250) demo_log
    demo_replica demo_replica); [done|].
  split; [|done]. split_and!; try done; apply table_sim_refl.
Defined.
