(* ===== verification/RaftTables.v ===== *)
(** Applying entries (blixard-core/src/raft/state_machine.rs) does not touch the
    tables in which Raft keeps its own state (raft_storage.rs): the log, the hard
    state, the configuration state and the snapshot.  The computations with this
    property are closed under the ways the state machine composes them. *)

From Stdlib Require Import ZArith Lia List.
From stdpp Require Import base tactics numbers gmap strings option.
From stdpp Require Import list relations.
From S2P Require Import Prelude Wire Errors Types RaftCodec ResourceQuotas QuotaManager IpPool.
From S2P Require Import IpPoolManager Proposals Codecs Database RaftStorage StateMachine.

Open Scope Z_scope.

(** * Raft's tables *)

Definition raft_str (t : str_table) : bool :=
  match t with
  | RAFT_HARD_STATE_TABLE | RAFT_CONF_STATE_TABLE | RAFT_SNAPSHOT_TABLE => true
  | _ => false
  end.

(** Two databases with the same Raft state. *)
Definition same_raft (d d' : Database) : Prop :=
  (forall t, raft_str t = true -> strs d' t = strs d t) /\ u64s d' RAFT_LOG_TABLE = u64s d RAFT_LOG_TABLE.

#[export] Instance same_raft_preorder : PreOrder same_raft.
Proof.
  split; [done|]. intros d1 d2 d3 [Hs1 Hu1] [Hs2 Hu2]. split; [|congruence].
  intros t Ht. by rewrite Hs2, Hs1.
Qed.

Lemma same_raft_strs t m d : raft_str t = false -> same_raft d (set_strs t m d).
Proof. intros Ht. split; [|done]. intros t' Ht'. apply strs_set_other. by intros ->; rewrite Ht in Ht'. Qed.
Lemma same_raft_byts t m d : same_raft d (set_byts t m d).
Proof. done. Qed.
Lemma same_raft_u64s t m d : t <> RAFT_LOG_TABLE -> same_raft d (set_u64s t m d).
Proof. intros Ht. split; [done|]. by apply u64s_set_other. Qed.

Lemma txn_keeps_op {A} fault (m : txn A) : moves same_raft m -> moves same_raft (table_op fault m).
Proof. intros Hm. destruct fault; simpl; auto with moves. Qed.
Lemma txn_keeps_get f t k : moves same_raft (get_str f t k).
Proof. apply txn_keeps_op. intros d o d' [= _ <-]. done. Qed.
Lemma txn_keeps_insert_str f t k v : raft_str t = false -> moves same_raft (insert_str f t k v).
Proof. intros Ht. apply txn_keeps_op, moves_modify. intros d. by apply same_raft_strs. Qed.
Lemma txn_keeps_remove_str f t k : raft_str t = false -> moves same_raft (remove_str f t k).
Proof. intros Ht. apply txn_keeps_op, moves_modify. intros d. by apply same_raft_strs. Qed.
Lemma txn_keeps_insert_byt f t k v : moves same_raft (insert_byt f t k v).
Proof. apply txn_keeps_op, moves_modify. intros d. apply same_raft_byts. Qed.
Lemma txn_keeps_remove_byt f t k : moves same_raft (remove_byt f t k).
Proof. apply txn_keeps_op, moves_modify. intros d. apply same_raft_byts. Qed.
Lemma txn_keeps_serialize {A} `{Codec A} what (x : A) : moves same_raft (serialize what x).
Proof. apply moves_lift; apply _. Qed.
Lemma txn_keeps_deserialize {A} `{Codec A} what ty b : moves same_raft (deserialize (A:=A) what ty b).
Proof. apply moves_lift; apply _. Qed.

(** A transaction moves within a preorder if its body does. *)
Lemma moves_run_txn {A} (R : relation Database) `{!PreOrder R} e1 e2 fault (t : txn A) :
  moves R t -> moves R (run_txn e1 e2 fault t).
Proof.
  intros Ht d o d' [Herr Hok]%run_txn_atomic.
  destruct o as [a|e|]; [by eapply Ht, Hok|by rewrite Herr..].
Qed.

#[export] Hint Resolve moves_run_txn txn_keeps_op txn_keeps_get txn_keeps_insert_str txn_keeps_remove_str
  txn_keeps_insert_byt txn_keeps_remove_byt txn_keeps_serialize txn_keeps_deserialize : moves.

Section Machine.
Context `{Profile} `{IpNetLib} `{HashIter} `{UuidText}.
Context `{Codec TenantQuota} `{Codec NodeTopology} `{Codec TaskSpec} `{Codec TaskResult}.
Context `{Codec (string * WorkerCapabilities)} `{Codec VmState} `{Codec IpAllocation}.
Context `{Codec (list IpAddr)} `{Codec TenantUsage} `{Codec ProposalData}.

(** * The state machine *)

Definition machine_same_raft (s s' : RaftStateMachine) : Prop := same_raft (database s) (database s').

#[local] Instance machine_same_raft_preorder : PreOrder machine_same_raft.
Proof. split; [by intros s|]. intros s1 s2 s3 ??. unfold machine_same_raft in *. by etrans. Qed.

Notation keeps := (moves machine_same_raft).

Lemma keeps_on_db {A} (t : txn A) : moves same_raft t -> keeps (on_db t).
Proof. intros Ht s o s' (o1 & E & _)%on_db_db. by eapply Ht. Qed.
Lemma keeps_on_ip {A} (m : mgr A) : keeps (on_ip_manager m).
Proof. intros s o s' E%on_ip_manager_db. unfold machine_same_raft. by rewrite E. Qed.
Lemma keeps_with_txn {A} env what (m : step A) : keeps m -> keeps (with_txn env what m).
Proof. intros Hm s o s'. apply (with_txn_db same_raft); [done|]. intros. by eapply Hm. Qed.
Lemma keeps_block_on {A} env (m : step A) : keeps m -> keeps (block_on env m).
Proof. intros Hm. unfold block_on. destruct (runtime env); auto with moves. Qed.
Lemma keeps_attempt {A} (m : step A) : keeps m -> keeps (attempt m).
Proof. intros Hm s o s'. unfold attempt. destruct (m s) as [[a|e|] s1] eqn:E; intros; simplify_eq; by eapply Hm. Qed.
Lemma keeps_ignore {A} (m : step A) : keeps m -> keeps (signore m).
Proof. intros Hm s o s'. unfold signore. destruct (m s) as [[a|e|] s1] eqn:E; intros; simplify_eq; by eapply Hm. Qed.
Lemma keeps_returned {A} (m : BlixardResult A) : keeps (returned (slift m)).
Proof. intros s o s' [= _ <-]. done. Qed.

Lemma keeps_set_quota env q :
  keeps (update_quota_manager env (set_tenant_quota (H0:=redb_storage (quota_fault env)) q)).
Proof.
  intros s o s'. apply (update_quota_manager_db same_raft); [done|]. intros qm o1 qm'.
  unfold set_tenant_quota, on_storage. unfold_st. intros E. simpl in E.
  destruct (redb_save_quota (quota_fault env) q (storage qm)) as [o2 db2] eqn:Es. apply save_quota_effect in Es.
  simplify_eq/=. destruct o1; [destruct Es as (b & _ & ->); by apply same_raft_strs|by subst..].
Qed.
Lemma keeps_remove_quota env t :
  keeps (update_quota_manager env (remove_tenant_quota (H0:=redb_storage (quota_fault env)) t)).
Proof.
  intros s o s'. apply (update_quota_manager_db same_raft); [done|]. intros qm o1 qm'.
  unfold remove_tenant_quota, on_storage. unfold_st. intros E. simpl in E.
  destruct (redb_delete_quota (quota_fault env) t (storage qm)) as [o2 db2] eqn:Es. apply delete_quota_effect in Es.
  simplify_eq/=. destruct o1; subst; [by apply same_raft_strs|done..].
Qed.
Lemma keeps_update_usage env now t a b c d : keeps (update_quota_manager env (update_resource_usage now t a b c d)).
Proof.
  intros s o s'. apply (update_quota_manager_db same_raft); [done|].
  intros qm o1 qm' E%update_usage_storage. unfold machine_same_raft. by rewrite E.
Qed.
Lemma keeps_admission env c n : keeps (validate_vm_admission env c n).
Proof. intros s o s' E%validate_admission_db. unfold machine_same_raft. by rewrite E. Qed.

#[local] Hint Resolve keeps_on_db keeps_on_ip keeps_with_txn keeps_block_on keeps_attempt keeps_ignore
  keeps_returned keeps_set_quota keeps_remove_quota keeps_update_usage keeps_admission : moves.

Lemma keeps_change_vm env name f : moves same_raft (change_vm env name f).
Proof. moves_seq; [auto with moves|]. intros [b|]; auto with moves. Qed.
Lemma keeps_stored_ips env v : moves same_raft (stored_vm_ips env v).
Proof. unfold stored_vm_ips. auto with moves. Qed.
Lemma keeps_open env : moves same_raft (open_table env).
Proof. unfold open_table. auto with moves. Qed.
#[local] Hint Resolve keeps_change_vm keeps_stored_ips keeps_open : moves.

Lemma keeps_record_ip env al : moves same_raft (record_ip env al).
Proof. unfold record_ip. auto 10 with moves. Qed.
#[local] Hint Resolve keeps_record_ip : moves.

Lemma keeps_vm_command env c : keeps (apply_vm_command env c).
Proof.
  destruct c; simpl; unfold update_vm_status_internal; auto 10 with moves.
  apply keeps_with_txn; moves_seq; [auto with moves|]. intros s. destruct (admission_controller s);
    auto 10 with moves.
Qed.
#[local] Hint Resolve keeps_vm_command : moves.

Lemma keeps_allocate env request : keeps (apply_allocate_ip env request).
Proof.
  apply keeps_with_txn; moves_seq; [auto 10 with moves|]. intros [r|]; auto with moves.
Qed.
Lemma keeps_release env vm_id : keeps (apply_release_vm_ips env vm_id).
Proof.
  apply keeps_with_txn; moves_seq; [auto 10 with moves|]. intros ips.
  moves_seq; [case_bool_decide|]; auto 12 with moves.
Qed.
#[local] Hint Resolve keeps_allocate keeps_release : moves.

Lemma keeps_single env p : keeps (apply_single env p).
Proof.
  destruct p; simpl; auto 10 with moves.
  all: try (moves_seq; [|intros _; auto with moves]).
  all: apply keeps_with_txn; auto 12 with moves.
Qed.
#[local] Hint Resolve keeps_single : moves.

Lemma keeps_batch ap envs i l : (forall env b, keeps (ap env b)) -> keeps (apply_batch ap envs i l).
Proof.
  intros Hap. revert i. induction l as [|p l IH]; intros i; simpl; [auto with moves|].
  destruct (is_batch p); auto with moves.
  moves_seq; [apply keeps_returned|]. intros b. by moves_seq.
Qed.

Lemma keeps_data depth envs env b : keeps (apply_data depth envs env b).
Proof.
  revert env b. induction depth as [|depth IH]; intros env b; simpl; [auto with moves|].
  destruct (length b =? 0)%nat; [auto with moves|].
  moves_seq; [apply keeps_returned|].
  intros []; try apply (keeps_single env). moves_seq; [auto with moves|].
  intros _. by apply keeps_batch.
Qed.

(** Applying an entry leaves Raft's tables as they were, on every outcome. *)
Lemma apply_entry_keeps_raft envs env e : keeps (apply_entry envs env e).
Proof. apply keeps_data. Qed.

End Machine.
