(* ===== verification/RaftCore.v ===== *)
(** The Raft manager (blixard-core/src/raft/core.rs, config_manager.rs,
    snapshot.rs, bootstrap.rs and messages.rs): the loop that feeds ticks,
    proposals, messages and membership changes to the consensus library and
    carries out what the library hands back.

    The consensus library (the raft crate) is a class [RaftLib]: the type of a
    node and its operations, of which nothing is assumed here; what a theorem
    needs of them it states.  An operation may read the storage.  So are the
    addresses of iroh.  A oneshot channel is a number, and what is sent on it is
    recorded, as are the messages handed to the transport. *)

From Stdlib Require Import ZArith Lia List.
From stdpp Require Import base tactics numbers gmap strings option.
From stdpp Require Import list relations.
From S2P Require Import Prelude Wire Errors Types RaftCodec ResourceQuotas QuotaManager IpPool.
From S2P Require Import IpPoolManager Proposals Codecs Database RaftStorage StateMachine Replicas RaftTables.

Open Scope Z_scope.

(** * Messages *)

Inductive ConfChangeType : Type := AddNode | RemoveNode.

Record ConfChangeContext : Type := mkConfContext {
  ctx_address : string;
  ctx_p2p_node_id : option string;
  ctx_p2p_addresses : list string;
  ctx_p2p_relay_url : option string
}.

Record RaftConfChange : Type := mkConfChangeRequest {
  ccr_type : ConfChangeType;
  ccr_node_id : Z;
  ccr_context : ConfChangeContext;
  ccr_response : option Z
}.

(** * The consensus library *)

(** The raft crate's [ConfChange]; its type is an [i32]. *)
Record ConfChange : Type := mkConfChange {
  cc_type : Z;
  cc_node_id : Z;
  cc_context : bytes
}.

Definition conf_change_code (t : ConfChangeType) : Z :=
  match t with AddNode => 0 | RemoveNode => 1 end.

Inductive StateRole : Type := Follower | Candidate | Leader | PreCandidate.
#[export] Instance StateRole_eq_dec : EqDecision StateRole.
Proof. solve_decision. Defined.

(** What [entry_type()] gives: a number that is no type counts as normal. *)
Inductive EntryType : Type := EntryNormal | EntryConfChange | EntryConfChangeV2.
Definition entry_kind (e : Entry) : EntryType :=
  if entry_type e =? 1 then EntryConfChange
  else if entry_type e =? 2 then EntryConfChangeV2 else EntryNormal.

(** A message, of which the code reads the sender and the receiver. *)
Record Message (B : Type) : Type := mkMessage { msg_to : Z; msg_from : Z; msg_body : B }.
Arguments mkMessage {B} msg_to msg_from msg_body.
Arguments msg_to {B} m.
Arguments msg_from {B} m.
Arguments msg_body {B} m.

Record Ready (B : Type) : Type := mkReady {
  rd_messages : list (Message B);
  rd_persisted_messages : list (Message B);
  rd_entries : list Entry;
  rd_hs : option HardState;
  rd_snapshot : option Snapshot;
  rd_committed_entries : list Entry
}.
Arguments mkReady {B}.
Arguments rd_messages {B} r.
Arguments rd_persisted_messages {B} r.
Arguments rd_entries {B} r.
Arguments rd_hs {B} r.
Arguments rd_snapshot {B} r.
Arguments rd_committed_entries {B} r.

(** What is left of a ready state after its messages, and its committed entries,
    were taken; and after the persisted messages were taken too. *)
Definition rest_of_ready {B} (r : Ready B) : Ready B :=
  mkReady [] (rd_persisted_messages r) (rd_entries r) (rd_hs r) (rd_snapshot r) [].
Definition rest_of_inline {B} (r : Ready B) : Ready B :=
  mkReady [] [] (rd_entries r) (rd_hs r) (rd_snapshot r) [].

Record LightReady (B : Type) : Type := mkLightReady {
  lr_messages : list (Message B);
  lr_commit_index : option Z
}.
Arguments mkLightReady {B}.
Arguments lr_messages {B} l.
Arguments lr_commit_index {B} l.

(** [RawNode] on the storage. *)
Class RaftLib : Type := {
  raft_node : Type;
  body : Type;
  role : raft_node -> StateRole;
  leader_id : raft_node -> Z;
  current_term : raft_node -> Z;
  committed : raft_node -> Z;
  applied : raft_node -> Z;
  hard_state : raft_node -> HardState;
  node_tick : Database -> raft_node -> raft_node;
  node_step : Database -> Message body -> raft_node -> RaftResult unit * raft_node;
  node_propose : Database -> bytes -> bytes -> raft_node -> RaftResult unit * raft_node;
  node_propose_conf_change : Database -> ConfChange -> raft_node -> RaftResult unit * raft_node;
  node_campaign : Database -> raft_node -> raft_node;
  has_ready : Database -> raft_node -> bool;
  node_ready : Database -> raft_node -> Ready body * raft_node;
  node_advance : Database -> Ready body -> raft_node -> LightReady body * raft_node;
  advance_apply_to : Z -> raft_node -> raft_node;
  node_apply_conf_change : ConfChange -> raft_node -> RaftResult ConfState * raft_node;
  parse_conf_change : bytes -> option ConfChange
}.

(** Whether iroh accepts the node id and the addresses of a context. *)
Class NodeAddr : Type := node_addr_ok : ConfChangeContext -> bool.

(** * The manager *)

Record RaftStatus : Type := mkRaftStatus {
  status_is_leader : bool;
  status_node_id : Z;
  status_leader_id : option Z;
  status_term : Z;
  status_state : StateRole
}.

Section Core.
Context `{RaftLib} `{NodeAddr} `{Profile} `{IpNetLib} `{HashIter} `{UuidText}.
Context `{Codec TenantQuota} `{Codec NodeTopology} `{Codec TaskSpec} `{Codec TaskResult}.
Context `{Codec (string * WorkerCapabilities)} `{Codec VmState} `{Codec IpAllocation}.
Context `{Codec (list IpAddr)} `{Codec TenantUsage} `{Codec ProposalData}.
Context `{Codec SnapshotData} `{Codec ConfState} `{Codec ConfChangeContext}.

(** [response_tx], where there is one, is the number of its channel. *)
Record RaftProposal : Type := mkProposal {
  prop_id : bytes;
  prop_data : ProposalData;
  prop_response : option Z
}.

(** What the manager does not change: its id, whether a join address is
    configured, and whether the node has a peer connector. *)
Record CoreConfig : Type := mkCoreConfig {
  core_node_id : Z;
  join_addr : bool;
  peer_connector : bool
}.

(** What redb and the state machine's surroundings do while a ready state is
    processed. *)
Record ReadyEnv : Type := mkReadyEnv {
  f_snapshot : nat -> txn_fault;
  f_append : txn_fault;
  f_hard_state : txn_fault;
  entry_envs : nat -> nat -> Env;
  f_conf : nat -> txn_fault;
  f_light : txn_fault;
  f_compact : txn_fault
}.

Record RaftManager : Type := mkRaftManager {
  rm_config : CoreConfig;
  rm_node : raft_node;
  rm_machine : RaftStateMachine;
  rm_peers : gmap Z string;
  rm_members : gmap Z ConfChangeContext;
  rm_needs_replication : bool;
  rm_last_compaction : option Z;
  rm_pending : gmap bytes Z;
  rm_outgoing : list (Z * Message body);
  rm_responses : list (Z * BlixardResult unit);
  rm_status : option RaftStatus
}.

Definition core (A : Type) : Type := st RaftManager stop A.

Definition db_of (m : RaftManager) : Database := database (rm_machine m).

Definition set_node (n : raft_node) (m : RaftManager) : RaftManager :=
  mkRaftManager (rm_config m) n (rm_machine m) (rm_peers m) (rm_members m) (rm_needs_replication m)
    (rm_last_compaction m) (rm_pending m) (rm_outgoing m) (rm_responses m) (rm_status m).
Definition set_machine (s : RaftStateMachine) (m : RaftManager) : RaftManager :=
  mkRaftManager (rm_config m) (rm_node m) s (rm_peers m) (rm_members m) (rm_needs_replication m)
    (rm_last_compaction m) (rm_pending m) (rm_outgoing m) (rm_responses m) (rm_status m).
Definition set_peers (p : gmap Z string) (c : gmap Z ConfChangeContext) (m : RaftManager) : RaftManager :=
  mkRaftManager (rm_config m) (rm_node m) (rm_machine m) p c (rm_needs_replication m)
    (rm_last_compaction m) (rm_pending m) (rm_outgoing m) (rm_responses m) (rm_status m).
Definition set_needs_replication (b : bool) (m : RaftManager) : RaftManager :=
  mkRaftManager (rm_config m) (rm_node m) (rm_machine m) (rm_peers m) (rm_members m) b
    (rm_last_compaction m) (rm_pending m) (rm_outgoing m) (rm_responses m) (rm_status m).
Definition set_last_compaction (i : option Z) (m : RaftManager) : RaftManager :=
  mkRaftManager (rm_config m) (rm_node m) (rm_machine m) (rm_peers m) (rm_members m)
    (rm_needs_replication m) i (rm_pending m) (rm_outgoing m) (rm_responses m) (rm_status m).
Definition set_pending (p : gmap bytes Z) (m : RaftManager) : RaftManager :=
  mkRaftManager (rm_config m) (rm_node m) (rm_machine m) (rm_peers m) (rm_members m)
    (rm_needs_replication m) (rm_last_compaction m) p (rm_outgoing m) (rm_responses m) (rm_status m).
Definition push_outgoing (x : Z * Message body) (m : RaftManager) : RaftManager :=
  mkRaftManager (rm_config m) (rm_node m) (rm_machine m) (rm_peers m) (rm_members m)
    (rm_needs_replication m) (rm_last_compaction m) (rm_pending m) (rm_outgoing m ++ [x])
    (rm_responses m) (rm_status m).
Definition push_response (x : Z * BlixardResult unit) (m : RaftManager) : RaftManager :=
  mkRaftManager (rm_config m) (rm_node m) (rm_machine m) (rm_peers m) (rm_members m)
    (rm_needs_replication m) (rm_last_compaction m) (rm_pending m) (rm_outgoing m)
    (rm_responses m ++ [x]) (rm_status m).
Definition set_status (s : option RaftStatus) (m : RaftManager) : RaftManager :=
  mkRaftManager (rm_config m) (rm_node m) (rm_machine m) (rm_peers m) (rm_members m)
    (rm_needs_replication m) (rm_last_compaction m) (rm_pending m) (rm_outgoing m) (rm_responses m) s.

(** ** Access to the parts *)

Definition on_machine {A} (f : step A) : core A :=
  fun m => let '(o, s) := f (rm_machine m) in (o, set_machine s m).
Definition on_store {A} (f : st Database BlixardError A) : core A := on_machine (on_db f).
Definition fail {A} (e : BlixardError) : core A := sfail (Returned e).

(** An operation of the library, with [?] on its error. *)
Definition call_node {A} (f : Database -> raft_node -> RaftResult A * raft_node) : core A :=
  fun m =>
    let '(o, n) := f (db_of m) (rm_node m) in
    (match o with Ok a => Ok a | Err _ => Err (Returned RaftError) | Panic => Panic end, set_node n m).
Definition update_node (f : Database -> raft_node -> raft_node) : core unit :=
  smodify (fun m => set_node (f (db_of m) (rm_node m)) m).

Definition respond (channel : option Z) (r : BlixardResult unit) : core unit :=
  match channel with Some c => smodify (push_response (c, r)) | None => sret tt end.

Definition leader_hint (n : raft_node) : option Z :=
  if leader_id n =? 0 then None else Some (leader_id n).

(** Answers the proposal with this id, if it is waiting. *)
Definition respond_pending (id : bytes) (r : BlixardResult unit) : core unit :=
  let* m := sget in
  match rm_pending m !! id with
  | Some c => smodify (set_pending (delete id (rm_pending m))) ;* respond (Some c) r
  | None => sret tt
  end.

Definition send_raft_message (msg : Message body) : core unit :=
  let* m := sget in
  let msg := if msg_from msg =? 0 then mkMessage (msg_to msg) (core_node_id (rm_config m)) (msg_body msg)
             else msg in
  smodify (push_outgoing (msg_to msg, msg)).

(** ** Membership (config_manager.rs) *)

(** The configuration is written to the cluster state table. *)
Definition config_save_conf_state (fault : txn_fault) (cs : ConfState) : core unit :=
  on_store (run_txn (Storage "begin conf state transaction") (Storage "commit conf state") fault
    (table_op fault (sret tt) ;*
     let* data := slift (ok_or (Serialization "serialize conf state") (ser cs)) in
     insert_str fault CLUSTER_STATE_TABLE "conf_state" data)).

(** Whether shared state is there to be updated. *)
Definition has_shared (m : RaftManager) : bool :=
  match shared_state (rm_machine m) with Some _ => true | None => false end.

Definition has_p2p (c : ConfChangeContext) : bool :=
  match ctx_p2p_node_id c, ctx_p2p_addresses c with None, [] => false | _, _ => true end.

Definition update_local_peers_after_conf_change (cc : ConfChange) : core unit :=
  if cc_type cc =? 0 then
    if (length (cc_context cc) =? 0)%nat then sret tt
    else match de (A:=ConfChangeContext) (cc_context cc) with
         | Some c =>
             smodify (fun m => set_peers (<[cc_node_id cc := ctx_address c]> (rm_peers m))
               (if has_shared m && has_p2p c then <[cc_node_id cc := c]> (rm_members m) else rm_members m) m)
         | None => sret tt
         end
  else if cc_type cc =? 1 then
    smodify (fun m => set_peers (delete (cc_node_id cc) (rm_peers m)) (rm_members m) m)
  else sret tt.

Definition apply_conf_change (fault : txn_fault) (cc : ConfChange) : core unit :=
  let* cs := call_node (fun _ => node_apply_conf_change cc) in
  config_save_conf_state fault cs ;*
  update_local_peers_after_conf_change cc ;*
  if cc_type cc =? 0 then smodify (set_needs_replication true) else sret tt.

Definition apply_conf_change_immediately (fault : txn_fault) (cc : ConfChange) : core unit :=
  let* cs := call_node (fun _ => node_apply_conf_change cc) in
  config_save_conf_state fault cs ;*
  update_local_peers_after_conf_change cc.

Definition handle_successful_node_addition (r : RaftConfChange) : core unit :=
  smodify (fun m => set_peers (<[ccr_node_id r := ctx_address (ccr_context r)]> (rm_peers m)) (rm_members m) m) ;*
  let* m := sget in
  match has_shared m, ctx_p2p_node_id (ccr_context r), peer_connector (rm_config m) with
  | true, Some _, true =>
      if node_addr_ok (ccr_context r) then sret tt else fail (Internal "Invalid P2P address")
  | _, _, _ => sret tt
  end.

Definition is_single_node_cluster : bool := false.

Definition handle_conf_change (fault : txn_fault) (r : RaftConfChange) : core unit :=
  let* m := sget in
  if negb (bool_decide (role (rm_node m) = Leader))
  then respond (ccr_response r) (Err (NotLeader "propose configuration change" (leader_hint (rm_node m))))
  else
    let* context := slift (match ser (ccr_context r) with
                           | Some b => Ok b
                           | None => Err (Returned (Serialization "serialize conf change context"))
                           end) in
    let cc := mkConfChange (conf_change_code (ccr_type r)) (ccr_node_id r) context in
    let '(o, n) := node_propose_conf_change (db_of m) cc (rm_node m) in
    smodify (set_node n) ;*
    match o with
    | Ok _ =>
        (if is_single_node_cluster then apply_conf_change_immediately fault cc else sret tt) ;*
        match ccr_type r with
        | AddNode => handle_successful_node_addition r
        | RemoveNode => sret tt
        end ;*
        respond (ccr_response r) (Ok tt)
    | Err _ => respond (ccr_response r) (Err (Raft "propose configuration change"))
    | Panic => spanic
    end.

(** [needs_replication_trigger] reads the flag and resets it. *)
Definition needs_replication_trigger : core bool :=
  let* m := sget in
  smodify (set_needs_replication false) ;* sret (rm_needs_replication m).

(** ** Snapshots and compaction (snapshot.rs) *)

(** The errors of the tables have a context here: the first is met when the
    first table is opened. *)
Definition apply_snapshot_to_state_machine (fault : txn_fault) (data : bytes) : core unit :=
  match de (A:=SnapshotData) data with
  | None => fail (Serialization "deserialize snapshot")
  | Some d =>
      on_store (run_txn (Storage "begin snapshot transaction") (Storage "commit snapshot transaction") fault
        match fault with
        | TableFails => sfail (Storage "open VM_STATE table")
        | _ => restore_tables fault d
        end)
  end.

Definition process_snapshot_if_present (f : nat -> txn_fault) (ready : Ready body) : core unit :=
  match rd_snapshot ready with
  | None => sret tt
  | Some s =>
      on_store (apply_snapshot (f 0%nat) (f 1%nat) (f 2%nat) (f 3%nat) s) ;*
      if (length (snap_data s) =? 0)%nat then sret tt
      else apply_snapshot_to_state_machine (f 4%nat) (snap_data s)
  end.

Definition COMPACTION_THRESHOLD : Z := 1000.

Definition perform_log_compaction (fault : txn_fault) (applied_index : Z) : core unit :=
  let* m := sget in
  match snapshot (db_of m) applied_index with
  | Ok s =>
      let '(o, db) := compact_log_before fault (snap_index s) (db_of m) in
      smodify (set_machine (set_database db (rm_machine m))) ;*
      match o with
      | Ok _ => smodify (set_last_compaction (Some (snap_index s)))
      | Err _ => sret tt
      | Panic => spanic
      end
  | Err _ => sret tt
  | Panic => spanic
  end.

Definition check_and_trigger_log_compaction (fault : txn_fault) : core unit :=
  let* m := sget in
  let applied_index := applied (rm_node m) in
  if COMPACTION_THRESHOLD <? applied_index then
    let* should := slift (match rm_last_compaction m with
      | Some last => match arith_u (E:=stop) 64 (applied_index - last) with
                     | Ok d => Ok (COMPACTION_THRESHOLD / 2 <? d)
                     | Err e => Err e
                     | Panic => Panic
                     end
      | None => Ok true
      end) in
    if should : bool then perform_log_compaction fault applied_index else sret tt
  else sret tt.

(** ** Committed entries (core.rs) *)

(** The [i]-th entry of a ready state: what was applied is the answer to the
    proposal whose id the entry carries. *)
Definition process_normal_entry (env : ReadyEnv) (i : nat) (e : Entry) : core unit :=
  fun m =>
    let '(o, s) := apply_entry (fun j => entry_envs env i (S j)) (entry_envs env i 0%nat) e (rm_machine m) in
    let m := set_machine s m in
    let answer r := if (length (entry_context e) =? 0)%nat then (Ok tt, m)
                    else respond_pending (entry_context e) r m in
    match o with
    | Ok _ => answer (Ok tt)
    | Err (Returned er) => answer (Err er)
    | Err Blocks => (Err Blocks, m)
    | Panic => (Panic, m)
    end.

Definition process_conf_change_entry (env : ReadyEnv) (i : nat) (e : Entry) : core unit :=
  match parse_conf_change (entry_data e) with
  | None =>
      (if (length (entry_context e) =? 0)%nat then sret tt
       else respond_pending (entry_context e) (Err (Internal "Failed to parse ConfChange"))) ;*
      fail (Internal "Failed to parse ConfChange")
  | Some cc => apply_conf_change (f_conf env i) cc
  end.

Definition process_entry (env : ReadyEnv) (i : nat) (e : Entry) : core unit :=
  match entry_kind e with
  | EntryNormal => process_normal_entry env i e
  | EntryConfChange => process_conf_change_entry env i e
  | EntryConfChangeV2 => sret tt
  end.

Fixpoint process_entries (env : ReadyEnv) (i : nat) (es : list Entry) : core unit :=
  match es with
  | [] => sret tt
  | e :: es' => process_entry env i e ;* process_entries env (S i) es'
  end.

(** The index of the last entry, [0] if there is none. *)
Definition last_entry_index (default : Z) (es : list Entry) : Z :=
  match last es with Some e => entry_index e | None => default end.

Definition process_committed_entries (env : ReadyEnv) (ready : Ready body) : core Z :=
  process_entries env 0 (rd_committed_entries ready) ;*
  sret (last_entry_index 0 (rd_committed_entries ready)).

(** [first] counts the entries of the ready state that were processed before. *)
Definition handle_newly_committed_entries (env : ReadyEnv) (first : nat) (last_applied_index : Z)
    (had_commit_update : bool) : core unit :=
  let* m := sget in
  let current_applied := if 0 <? last_applied_index then last_applied_index else applied (rm_node m) in
  if had_commit_update && (current_applied <? committed (rm_node m)) then
    let* start := slift (arith_u 64 (current_applied + 1)) in
    let* until := slift (arith_u 64 (committed (rm_node m) + 1)) in
    match entries (db_of m) start until None with
    | Ok es =>
        process_entries env first es ;*
        let applied_to := last_entry_index last_applied_index es in
        if 0 <? applied_to then update_node (fun _ => advance_apply_to applied_to) else sret tt
    | Err _ => sret tt
    | Panic => spanic
    end
  else sret tt.

Definition advance_raft_node (env : ReadyEnv) (ready : Ready body) (last_applied_index : Z) : core unit :=
  let* m := sget in
  let '(light, n) := node_advance (db_of m) (rest_of_ready ready) (rm_node m) in
  smodify (set_node n) ;*
  sfor send_raft_message (lr_messages light) ;*
  let* had_commit_update :=
    match lr_commit_index light with
    | Some commit =>
        let hs := hard_state n in
        on_store (save_hard_state (f_light env) (mkHardState (hs_term hs) (hs_vote hs) commit)) ;* sret true
    | None => sret false
    end in
  handle_newly_committed_entries env (length (rd_committed_entries ready)) last_applied_index had_commit_update.

Definition update_shared_state_status : core unit :=
  smodify (fun m =>
    if has_shared m
    then set_status (Some (mkRaftStatus (bool_decide (role (rm_node m) = Leader)) (core_node_id (rm_config m)) (leader_hint (rm_node m))
                             (current_term (rm_node m)) (role (rm_node m)))) m
    else m).

(** ** Ready states *)

Definition save_entries_to_storage (env : ReadyEnv) (ready : Ready body) : core unit :=
  if (length (rd_entries ready) =? 0)%nat then sret tt else on_store (append (f_append env) (rd_entries ready)).

Definition save_ready_hard_state (env : ReadyEnv) (ready : Ready body) : core unit :=
  match rd_hs ready with Some hs => on_store (save_hard_state (f_hard_state env) hs) | None => sret tt end.

Definition send_messages_to_peers (ready : Ready body) : core unit := sfor send_raft_message (rd_messages ready).

Definition on_ready (env : ReadyEnv) : core bool :=
  let* m := sget in
  if negb (has_ready (db_of m) (rm_node m)) then sret false
  else
    let '(ready, n) := node_ready (db_of m) (rm_node m) in
    smodify (set_node n) ;*
    process_snapshot_if_present (f_snapshot env) ready ;*
    save_entries_to_storage env ready ;*
    save_ready_hard_state env ready ;*
    send_messages_to_peers ready ;*
    let* last_applied_index := process_committed_entries env ready in
    advance_raft_node env ready last_applied_index ;*
    check_and_trigger_log_compaction (f_compact env) ;*
    update_shared_state_status ;*
    sret true.

(** ** Events *)

(** The search for followers that need a snapshot is commented out. *)
Definition check_and_send_snapshots : core unit := sret tt.

(** [env] gives the environment of each of the ready states an event processes. *)
Definition tick (env : nat -> ReadyEnv) : core unit :=
  update_node node_tick ;*
  let* processed_ready := on_ready (env 0%nat) in
  let* needs_replication := needs_replication_trigger in
  let* m := sget in
  (if needs_replication && bool_decide (role (rm_node m) = Leader)
   then update_node node_tick ;* let* _ := on_ready (env 1%nat) in sret tt
   else sret tt) ;*
  let* m := sget in
  if processed_ready && bool_decide (role (rm_node m) = Leader) then check_and_send_snapshots else sret tt.

Definition handle_proposal (env : nat -> ReadyEnv) (p : RaftProposal) : core unit :=
  match prop_response p with
  | Some c => smodify (fun m => set_pending (<[prop_id p := c]> (rm_pending m)) m)
  | None => sret tt
  end ;*
  let* data := slift (match ser (prop_data p) with
                      | Some b => Ok b
                      | None => Err (Returned (Serialization "serialize proposal"))
                      end) in
  let* m := sget in
  if negb (bool_decide (role (rm_node m) = Leader))
  then respond_pending (prop_id p) (Err (NotLeader "propose" (leader_hint (rm_node m))))
  else
    call_node (fun db => node_propose db (prop_id p) data) ;*
    let* _ := on_ready (env 0%nat) in sret tt.

(** The conf changes among the committed entries; the others are not looked at. *)
Fixpoint process_conf_changes (env : ReadyEnv) (i : nat) (es : list Entry) : core unit :=
  match es with
  | [] => sret tt
  | e :: es' =>
      match entry_kind e with
      | EntryConfChange => process_conf_change_entry env i e
      | _ => sret tt
      end ;*
      process_conf_changes env (S i) es'
  end.

(** The ready state that [handle_raft_message] processes itself. *)
Definition process_ready_inline (env : ReadyEnv) : core unit :=
  let* m := sget in
  if negb (has_ready (db_of m) (rm_node m)) then sret tt
  else
    let '(ready, n) := node_ready (db_of m) (rm_node m) in
    smodify (set_node n) ;*
    save_entries_to_storage env ready ;*
    save_ready_hard_state env ready ;*
    sfor send_raft_message (rd_messages ready) ;*
    sfor send_raft_message (rd_persisted_messages ready) ;*
    process_conf_changes env 0 (rd_committed_entries ready) ;*
    update_node (fun db n => snd (node_advance db (rest_of_inline ready) n)) ;*
    update_shared_state_status.

Definition handle_raft_message (env : nat -> ReadyEnv) (from : Z) (msg : Message body) : core unit :=
  let msg := if (msg_from msg =? 0) || negb (msg_from msg =? from)
             then mkMessage (msg_to msg) from (msg_body msg) else msg in
  let* m := sget in
  let '(o, n) := node_step (db_of m) msg (rm_node m) in
  smodify (set_node n) ;*
  match o with
  | Ok _ => process_ready_inline (env 0%nat) ;* let* _ := on_ready (env 1%nat) in sret tt
  | Err _ => fail (Raft "step message")
  | Panic => spanic
  end.

(** ** Start *)

Definition should_bootstrap (m : RaftManager) : bool :=
  bool_decide (rm_peers m = ∅) && negb (has_shared m && join_addr (rm_config m)).

Definition bootstrap_single_node (env : nat -> ReadyEnv) : core unit :=
  let* m := sget in
  if has_shared m && join_addr (rm_config m)
  then fail (Internal "Cannot bootstrap when join_addr is configured - this node should join, not bootstrap")
  else
    update_node node_campaign ;*
    let* _ := on_ready (env 0%nat) in
    let* m := sget in
    (if bool_decide (role (rm_node m) = Leader) then call_node (fun db => node_propose db [] []) else sret tt) ;*
    let* _ := on_ready (env 1%nat) in sret tt.

Definition apply_initial_conf_state (f : nat -> txn_fault) (cs : ConfState) : core unit :=
  on_store (apply_snapshot (f 0%nat) (f 1%nat) (f 2%nat) (f 3%nat) (mkSnapshot cs 0 0 [])).

Inductive raft_event : Type :=
| Tick
| Propose (p : RaftProposal)
| Receive (from : Z) (msg : Message body)
| ChangeConf (r : RaftConfChange).

Definition handle_event (env : nat -> ReadyEnv) (e : raft_event) : core unit :=
  match e with
  | Tick => tick env
  | Propose p => handle_proposal env p
  | Receive from msg => handle_raft_message env from msg
  | ChangeConf r => handle_conf_change (f_conf (env 0%nat) 0) r
  end.

(** [run_main_loop]: the first error ends it. *)
Fixpoint run_main_loop (envs : nat -> nat -> ReadyEnv) (i : nat) (events : list raft_event) : core unit :=
  match events with
  | [] => sret tt
  | e :: events' => handle_event (envs i) e ;* run_main_loop envs (S i) events'
  end.

Definition run (envs : nat -> nat -> ReadyEnv) (events : list raft_event) : core unit :=
  let* m := sget in
  (if should_bootstrap m then bootstrap_single_node (envs 0%nat) else sret tt) ;*
  run_main_loop envs 1 events.
(** * Specifications *)

(** The answer to a proposal, from the outcome of its entry. *)
Definition answer_of (o : outcome stop unit) : BlixardResult unit :=
  match o with Ok _ => Ok tt | Err (Returned e) => Err e | _ => Panic end.

Definition returns (o : outcome stop unit) : Prop :=
  match o with Ok _ | Err (Returned _) => True | _ => False end.

(** The ids that entries carry, and the answers to the proposals among
    [pending] with these ids when the entries have the outcomes [os]. *)
Definition ids (es : list Entry) : list bytes := List.filter (fun id => negb (length id =? 0)%nat) (map entry_context es).

Definition answer (pending : gmap bytes Z) (eo : Entry * outcome stop unit) : option (Z * BlixardResult unit) :=
  if (length (entry_context eo.1) =? 0)%nat then None
  else c ← pending !! entry_context eo.1; Some (c, answer_of eo.2).

(** The channels of the proposals that wait, those that were answered, and both. *)
Definition waiting (m : RaftManager) : list Z := (map_to_list (rm_pending m)).*2.
Definition answered (m : RaftManager) : list Z := (rm_responses m).*1.
Definition channels (m : RaftManager) : list Z := waiting m ++ answered m.

(** The channel an event brings. *)
Definition event_channels (e : raft_event) : list Z :=
  match e with
  | Propose p => option_list (prop_response p)
  | ChangeConf r => option_list (ccr_response r)
  | _ => []
  end.

(** * Lemmas *)

Lemma on_store_inv {A} (f : st Database BlixardError A) m o m' :
  on_store f m = (o, m') ->
  exists o1 db, f (db_of m) = (o1, db) /\ o = stop_of o1 /\
    m' = set_machine (set_database db (rm_machine m)) m.
Proof.
  unfold on_store, on_machine, on_db, db_of. destruct (f (database (rm_machine m))) as [o1 db].
  intros [= <- <-]. eauto.
Qed.

(** ** What each operation may change *)

Section Frame.
Context (R : relation RaftManager) `{!PreOrder R} (D : relation Database).
Hypothesis R_node : forall n m, R m (set_node n m).
Hypothesis R_machine : forall s m, D (db_of m) (database s) -> R m (set_machine s m).
Hypothesis R_outgoing : forall x m, R m (push_outgoing x m).
Hypothesis R_answer : forall id c r m, rm_pending m !! id = Some c ->
  R m (push_response (c, r) (set_pending (delete id (rm_pending m)) m)).
Hypothesis R_peers : forall p c m, R m (set_peers p c m).
Hypothesis R_replication : forall b m, R m (set_needs_replication b m).
Hypothesis R_compaction : forall i m, R m (set_last_compaction i m).
Hypothesis R_status : forall s m, R m (set_status s m).
Hypothesis D_same : forall d d', same_raft d d' -> D d d'.
Hypothesis D_append : forall f es, moves D (append f es).
Hypothesis D_hard_state : forall f hs, moves D (save_hard_state f hs).
Hypothesis D_compact : forall f i, moves D (compact_log_before f i).
Hypothesis R_snapshot : forall f db n, moves R (process_snapshot_if_present f (fst (node_ready db n))).

Lemma moves_store {A} (f : st Database BlixardError A) : moves D f -> moves R (on_store f).
Proof. intros Hf m o m' (o1 & db & E & _ & ->)%on_store_inv. apply R_machine. by eapply Hf. Qed.

Lemma moves_node {A} (f : Database -> raft_node -> RaftResult A * raft_node) : moves R (call_node f).
Proof. intros m o m'. unfold call_node. destruct (f _ _). intros [= _ <-]. apply R_node. Qed.

Lemma moves_update f : moves R (update_node f).
Proof. apply moves_modify. auto. Qed.

Lemma moves_send msg : moves R (send_raft_message msg).
Proof. unfold send_raft_message. auto with moves. Qed.

Lemma moves_respond_pending id r : moves R (respond_pending id r).
Proof.
  apply moves_read. intros m o m'. destruct (rm_pending m !! id) as [c|] eqn:Hc.
  - intros [= _ <-]. by apply R_answer.
  - intros [= _ <-]. done.
Qed.

#[local] Hint Resolve moves_store moves_node moves_update moves_send moves_respond_pending : moves.

Lemma moves_config_save f cs : moves R (config_save_conf_state f cs).
Proof.
  apply moves_store. intros d o d' E. apply D_same.
  eapply moves_run_txn in E; [done|apply _|]. auto 8 with moves.
Qed.

Lemma moves_local_peers cc : moves R (update_local_peers_after_conf_change cc).
Proof.
  unfold update_local_peers_after_conf_change. repeat case_match; auto with moves.
Qed.

#[local] Hint Resolve moves_config_save moves_local_peers : moves.

Lemma moves_conf_entry env i e : moves R (process_conf_change_entry env i e).
Proof.
  unfold process_conf_change_entry, apply_conf_change, fail. repeat case_match; auto 12 with moves.
Qed.

Lemma moves_normal_entry env i e : moves R (process_normal_entry env i e).
Proof.
  intros m o m'. unfold process_normal_entry. destruct (apply_entry _ _ _ _) as [o1 s] eqn:E.
  assert (R m (set_machine s m)) by (apply R_machine, D_same; by eapply apply_entry_keeps_raft).
  intros Ho. etrans; [done|]. repeat case_match; simplify_eq; try done; by eapply moves_respond_pending.
Qed.

Lemma moves_entries env i es : moves R (process_entries env i es).
Proof.
  revert i. induction es as [|e es IH]; intros i; simpl; [auto with moves|]. moves_seq; [|done].
  unfold process_entry. destruct (entry_kind e); auto using moves_normal_entry, moves_conf_entry with moves.
Qed.

Lemma moves_conf_changes env i es : moves R (process_conf_changes env i es).
Proof.
  revert i. induction es as [|e es IH]; intros i; simpl; [auto with moves|]. moves_seq; [|done].
  destruct (entry_kind e); auto using moves_conf_entry with moves.
Qed.

Lemma moves_newly_committed env i last had : moves R (handle_newly_committed_entries env i last had).
Proof.
  unfold handle_newly_committed_entries. moves_seq; [auto with moves|]. intros m.
  repeat case_match; auto 6 using moves_entries with moves.
  all: repeat (moves_seq; [auto with moves|intros ?]); repeat case_match; auto 6 using moves_entries with moves.
  all: moves_seq; [by apply moves_entries|intros _]; case_match; auto with moves.
Qed.

Lemma moves_advance env ready last : moves R (advance_raft_node env ready last).
Proof.
  unfold advance_raft_node. moves_seq; [auto with moves|]. intros m. case_match.
  do 2 (moves_seq; [auto with moves|intros _]).
  moves_seq; [case_match; auto with moves|]. intros b. apply moves_newly_committed.
Qed.

Lemma moves_compaction f : moves R (check_and_trigger_log_compaction f).
Proof.
  unfold check_and_trigger_log_compaction. moves_seq; [auto with moves|]. intros m.
  case_match; [|auto with moves]. moves_seq; [auto with moves|]. intros []; [|auto with moves].
  apply moves_read. intros m1 o m2. case_match; try (intros [= _ <-]; done).
  destruct (compact_log_before _ _ _) as [o1 db] eqn:E.
  assert (R m1 (set_machine (set_database db (rm_machine m1)) m1)) by (apply R_machine; by eapply D_compact).
  unfold sbind, smodify. intros Ho. etrans; [done|]. destruct o1; [|injection Ho as _ <-; done..].
  apply (moves_modify R (E:=stop) (set_last_compaction (Some (snap_index a))) ltac:(auto) _ _ _ Ho).
Qed.

Lemma moves_save_entries env ready : moves R (save_entries_to_storage env ready).
Proof. unfold save_entries_to_storage. case_match; auto with moves. Qed.
Lemma moves_save_hard_state env ready : moves R (save_ready_hard_state env ready).
Proof. unfold save_ready_hard_state. case_match; auto with moves. Qed.
Lemma moves_shared_status : moves R update_shared_state_status.
Proof. apply moves_modify. intros m. by case_match. Qed.

#[local] Hint Resolve moves_entries moves_conf_changes moves_advance moves_compaction moves_save_entries
  moves_save_hard_state moves_shared_status : moves.

Lemma moves_on_ready env : moves R (on_ready env).
Proof.
  unfold on_ready, process_committed_entries, send_messages_to_peers. moves_seq; [auto with moves|]. intros m.
  case_match; [auto with moves|]. pose proof (R_snapshot (f_snapshot env) (db_of m) (rm_node m)).
  destruct (node_ready _ _) as [ready n]. auto 15 with moves.
Qed.

Lemma moves_inline env : moves R (process_ready_inline env).
Proof.
  unfold process_ready_inline. moves_seq; [auto with moves|]. intros m.
  case_match; [auto with moves|]. destruct (node_ready _ _) as [ready n]. auto 15 with moves.
Qed.

#[local] Hint Resolve moves_on_ready moves_inline : moves.

Lemma moves_tick env : moves R (tick env).
Proof.
  unfold tick, needs_replication_trigger, check_and_send_snapshots.
  do 4 (moves_seq; [auto 6 with moves|intros ?]). moves_seq; [case_match; auto with moves|intros _].
  moves_seq; [auto with moves|]. intros ?. case_match; auto with moves.
Qed.

Lemma moves_message env from msg : moves R (handle_raft_message env from msg).
Proof.
  unfold handle_raft_message, fail. moves_seq; [auto with moves|]. intros m. destruct (node_step _ _ _) as [o n].
  moves_seq; [auto with moves|]. intros _. destruct o; auto with moves.
Qed.

Lemma moves_bootstrap env : moves R (bootstrap_single_node env).
Proof.
  unfold bootstrap_single_node, fail. moves_seq; [auto with moves|]. intros m. case_match; [auto with moves|].
  do 3 (moves_seq; [auto with moves|intros ?]). moves_seq; [case_match|]; auto with moves.
Qed.

(** A proposal is answered, or waits; its own channel apart. *)
Lemma moves_propose env p :
  exists k, handle_proposal env p =
    (match prop_response p with
     | Some c => smodify (fun m => set_pending (<[prop_id p := c]> (rm_pending m)) m)
     | None => sret tt
     end ;* k) /\ moves R k.
Proof.
  eexists. split; [reflexivity|]. do 2 (moves_seq; [auto with moves|intros ?]). case_match; auto with moves.
Qed.

(** The answer to a membership change is the last thing that is done. *)
Lemma moves_handle_conf f r m o m' :
  handle_conf_change f r m = (o, m') ->
  R m m' \/ exists m1 a, R m m1 /\ respond (ccr_response r) a m1 = (o, m').
Proof.
  unfold handle_conf_change. rewrite (sbind_ok _ _ m m m) by done. case_match.
  { intros E. right. by exists m; eexists. }
  intros [(ctx & m0 & [= _ <-] & E)|(_ & o1 & [= _ ->] & _)]%sbind_inv; [|by left].
  destruct (node_propose_conf_change _ _ _) as [o1 n]. rewrite (sbind_ok _ _ m tt (set_node n m)) in E by done.
  destruct o1; [|right; by exists (set_node n m); eexists|left; injection E as _ <-; apply R_node]. cbn [is_single_node_cluster] in E.
  assert (Hadd : moves R (match ccr_type r with AddNode => handle_successful_node_addition r | RemoveNode => sret tt end)).
  { unfold handle_successful_node_addition, fail. case_match; [|auto with moves].
    do 2 (moves_seq; [auto with moves|intros ?]). repeat case_match; auto with moves. }
  rewrite (sbind_ok _ _ _ tt (set_node n m)) in E by done.
  apply sbind_inv in E as [(u & m1 & E1 & E2)|(_ & o1 & E1 & _)]; apply Hadd in E1.
  - right. exists m1, (Ok tt). split; [|done]. by etrans; [apply (R_node n)|].
  - left. by etrans; [apply (R_node n)|].
Qed.
End Frame.

(** ** Answers *)

Definition same_channels (m m' : RaftManager) : Prop := channels m' ⊆+ channels m.

#[local] Instance same_channels_preorder : PreOrder same_channels.
Proof. unfold same_channels. split; [intros m; reflexivity|]. intros m1 m2 m3 Ha Hb. by etrans. Qed.

Lemma channels_eq m m' :
  rm_pending m' = rm_pending m -> rm_responses m' = rm_responses m -> same_channels m m'.
Proof. unfold same_channels, channels, waiting, answered. by intros -> ->. Qed.

Lemma answer_channels id c r m : rm_pending m !! id = Some c ->
  same_channels m (push_response (c, r) (set_pending (delete id (rm_pending m)) m)).
Proof.
  intros Hc. unfold same_channels, channels, waiting, answered. cbn.
  rewrite <- (map_to_list_delete _ _ _ Hc), fmap_app. cbn.
  rewrite app_assoc, Permutation_app_comm. done.
Qed.

Lemma snapshot_channels f db n : moves same_channels (process_snapshot_if_present f (fst (node_ready db n))).
Proof.
  unfold process_snapshot_if_present, apply_snapshot_to_state_machine, fail.
  assert (forall A (c : st Database BlixardError A), moves same_channels (on_store c)).
  { intros A c. apply (moves_store _ (fun _ _ => True)); [|done]. intros. by apply channels_eq. }
  repeat case_match; auto with moves.
Qed.

Ltac frame_channels := intros; try done; auto using answer_channels, snapshot_channels; by apply channels_eq.

Lemma respond_channels c r m o m' :
  respond c r m = (o, m') -> channels m' ⊆+ option_list c ++ channels m.
Proof.
  destruct c as [c|]; intros [= _ <-]; [|done]. unfold channels, answered. cbn. rewrite fmap_app. cbn.
  rewrite app_assoc, Permutation_app_comm. done.
Qed.

Lemma insert_channels id c m :
  channels (set_pending (<[id := c]> (rm_pending m)) m) ⊆+ c :: channels m.
Proof.
  unfold channels, waiting. cbn. rewrite app_comm_cons. apply submseteq_app; [|done].
  destruct (rm_pending m !! id) as [c0|] eqn:E.
  - rewrite <- insert_delete_eq, map_to_list_insert by apply lookup_delete_eq. cbn.
    rewrite <- (map_to_list_delete _ _ _ E). cbn. by apply submseteq_skip, submseteq_cons.
  - by rewrite map_to_list_insert.
Qed.

Lemma event_channels_bound env e m o m' :
  handle_event env e m = (o, m') -> channels m' ⊆+ event_channels e ++ channels m.
Proof.
  destruct e as [|p|from msg|r]; cbn [handle_event event_channels app].
  - apply (moves_tick same_channels (fun _ _ => True)); frame_channels.
  - destruct (moves_propose same_channels (fun _ _ => True)) with (env := env) (p := p) as (k & -> & Hk);
      [frame_channels..|].
    destruct (prop_response p) as [c|]; intros E; apply Hk in E; [|done].
    etrans; [exact E|]. apply insert_channels.
  - apply (moves_message same_channels (fun _ _ => True)); frame_channels.
  - intros [E|(m1 & a & E & Hr%respond_channels)]%(moves_handle_conf same_channels); [| |frame_channels..].
    + etrans; [exact E|]. by apply submseteq_inserts_l.
    + etrans; [exact Hr|]. by apply submseteq_app.
Qed.

Lemma loop_channels_bound envs i events m o m' :
  run_main_loop envs i events m = (o, m') ->
  channels m' ⊆+ concat (map event_channels events) ++ channels m.
Proof.
  revert i m. induction events as [|e events IH]; intros i m; simpl; [by intros [= _ <-]|].
  intros [(u & m1 & E1%event_channels_bound & E2%IH)|(_ & o1 & E1%event_channels_bound & _)]%sbind_inv.
  - etrans; [exact E2|]. etrans; [apply submseteq_app; [reflexivity|exact E1]|].
    by rewrite !app_assoc, (Permutation_app_comm (event_channels e)).
  - etrans; [exact E1|]. rewrite <- app_assoc. apply submseteq_app; [done|]. by apply submseteq_inserts_l.
Qed.

(** ** Committed entries *)

Lemma answer_agree (p p' : gmap bytes Z) eos :
  (forall id, id ∈ ids eos.*1 -> p' !! id = p !! id) -> omap (answer p') eos = omap (answer p) eos.
Proof.
  induction eos as [|[e o] eos IH]; intros Hp; [done|]. cbn.
  assert (He : answer p' (e, o) = answer p (e, o)).
  { unfold answer. cbn. case_match eqn:E; [done|]. rewrite Hp; [done|]. unfold ids. cbn. rewrite E. cbn. left. }
  rewrite He, IH; [done|]. intros id Hid. apply Hp. unfold ids. cbn. case_match; [by right|done].
Qed.

Lemma apply_log_length envs i es s : length (fst (apply_log envs i es s)) = length es.
Proof.
  revert i s. induction es as [|e es IH]; intros i s; cbn [apply_log]; [done|].
  destruct (apply_entry _ _ e s) as [o s1]. specialize (IH (S i) s1). destruct (apply_log _ _ _ _). cbn in *. lia.
Qed.

Lemma respond_pending_ids e r m :
  exists m', (if (length (entry_context e) =? 0)%nat then (Ok tt, m) else respond_pending (entry_context e) r m)
      = (Ok tt, m') /\
    rm_machine m' = rm_machine m /\ rm_node m' = rm_node m /\ rm_outgoing m' = rm_outgoing m /\
    rm_responses m' = rm_responses m ++
      (if (length (entry_context e) =? 0)%nat then []
       else option_list (c ← rm_pending m !! entry_context e; Some (c, r))) /\
    forall id, rm_pending m' !! id = if decide (id ∈ ids [e]) then None else rm_pending m !! id.
Proof.
  unfold ids. cbn [map List.filter]. destruct (length (entry_context e) =? 0)%nat; cbn [negb].
  { exists m. rewrite app_nil_r. split_and!; try done. }
  unfold respond_pending. rewrite (sbind_ok _ _ m m m) by done.
  destruct (rm_pending m !! entry_context e) as [c|] eqn:Hc.
  - eexists. split; [reflexivity|]. split_and!; [done..|]. intros id. cbn.
    rewrite lookup_delete. repeat case_decide; set_solver.
  - exists m. cbn. rewrite app_nil_r. split_and!; try done. intros id. case_decide; set_solver.
Qed.

Lemma process_entry_applies env e i m o s :
  entry_kind e = EntryNormal ->
  apply_entry (fun j => entry_envs env i (S j)) (entry_envs env i 0%nat) e (rm_machine m) = (o, s) -> returns o ->
  exists m', process_entry env i e m = (Ok tt, m') /\
    rm_machine m' = s /\ rm_node m' = rm_node m /\ rm_outgoing m' = rm_outgoing m /\
    rm_responses m' = rm_responses m ++ option_list (answer (rm_pending m) (e, o)) /\
    forall id, rm_pending m' !! id = if decide (id ∈ ids [e]) then None else rm_pending m !! id.
Proof.
  intros He E Ho. unfold process_entry. rewrite He. unfold process_normal_entry. rewrite E.
  destruct (respond_pending_ids e (answer_of o) (set_machine s m)) as (m' & Em & Hm & Hn & Hout & Hr & Hp).
  exists m'. split_and!; try done.
  - by destruct o as [[]|[]|].
  - rewrite Hr. unfold answer. cbn. by case_match.
Qed.

Lemma process_entries_applies env es i m os s :
  Forall (fun e => entry_kind e = EntryNormal) es ->
  apply_log (entry_envs env) i es (rm_machine m) = (os, s) -> Forall returns os -> NoDup (ids es) ->
  exists m', process_entries env i es m = (Ok tt, m') /\
    rm_machine m' = s /\
    rm_responses m' = rm_responses m ++ omap (answer (rm_pending m)) (zip es os) /\
    (forall id, rm_pending m' !! id = if decide (id ∈ ids es) then None else rm_pending m !! id) /\
    rm_node m' = rm_node m /\ rm_outgoing m' = rm_outgoing m.
Proof.
  intros Hn. revert i m os s. induction Hn as [|e es He Hn IH]; intros i m os s; cbn [apply_log process_entries].
  { intros [= <- <-] _ _. exists m. cbn. rewrite app_nil_r. split_and!; try done. }
  destruct (apply_entry _ _ e (rm_machine m)) as [o s1] eqn:E1.
  destruct (apply_log _ _ es s1) as [os1 s2] eqn:E2. intros [= <- <-] (Ho & Hos)%Forall_cons Hnd.
  destruct (process_entry_applies env e i m o s1 He E1 Ho) as (m2 & E3 & Hm2 & Hn2 & Ho2 & Hr2 & Hp2).
  rewrite (sbind_ok _ _ m tt m2) by done.
  assert (Hids : ids (e :: es) = ids [e] ++ ids es).
  { unfold ids. cbn. by case_match. }
  rewrite Hids in Hnd. apply NoDup_app in Hnd as (_ & Hdis & Hnd).
  destruct (IH (S i) m2 os1 s2) as (m3 & E4 & Hm3 & Hr3 & Hp3 & Hn3 & Ho3); [by rewrite Hm2|done..|].
  exists m3. split_and!; [done|done| | |congruence|congruence].
  - rewrite Hr3, Hr2, <- app_assoc. f_equal. cbn. rewrite (answer_agree (rm_pending m)); [by case_match|].
    intros id Hid. rewrite Hp2. rewrite decide_False; [done|]. intros He1.
    apply (Hdis id He1). rewrite fst_zip in Hid; [done|].
    pose proof (apply_log_length (entry_envs env) (S i) es s1). rewrite E2 in *. cbn in *. lia.
  - intros id. rewrite Hp3, Hp2, Hids. repeat case_decide; set_solver.
Qed.

(** ** The stored configuration *)

Definition same_conf_table (d d' : Database) : Prop := strs d' RAFT_CONF_STATE_TABLE = strs d RAFT_CONF_STATE_TABLE.
Definition same_conf (m m' : RaftManager) : Prop := same_conf_table (db_of m) (db_of m').

#[local] Instance same_conf_table_preorder : PreOrder same_conf_table.
Proof. unfold same_conf_table. split; [by intros d|]. intros d1 d2 d3 -> ->. done. Qed.
#[local] Instance same_conf_preorder : PreOrder same_conf.
Proof. unfold same_conf. split; [by intros m|]. intros m1 m2 m3 Ha Hb. by etrans. Qed.

Lemma table_op_conf {A} f (t : txn A) : moves same_conf_table t -> moves same_conf_table (table_op f t).
Proof. intros Ht. destruct f; simpl; auto with moves. Qed.
Lemma append_conf f es : moves same_conf_table (append f es).
Proof. apply moves_run_txn, moves_for; [apply _..|]. intros e. by apply table_op_conf, moves_modify. Qed.
Lemma hard_state_conf f hs : moves same_conf_table (save_hard_state f hs).
Proof.
  apply moves_run_txn; [apply _|]. apply table_op_conf, moves_modify. intros d. by apply strs_set_other.
Qed.
Lemma compact_conf f i : moves same_conf_table (compact_log_before f i).
Proof.
  unfold compact_log_before. case_match; [auto with moves|]. apply moves_run_txn; [apply _|].
  moves_seq; [auto with moves|]. intros d. apply moves_for; [apply _|]. intros k. by apply table_op_conf, moves_modify.
Qed.
Lemma same_raft_conf d d' : same_raft d d' -> same_conf_table d d'.
Proof. intros [Hs _]. by apply Hs. Qed.

#[local] Hint Resolve append_conf hard_state_conf compact_conf same_raft_conf : moves.

Section NoSnapshots.
Hypothesis no_snapshots : forall db n, rd_snapshot (fst (node_ready db n)) = None.

Lemma no_snapshot_conf f db n : moves same_conf (process_snapshot_if_present f (fst (node_ready db n))).
Proof. unfold process_snapshot_if_present. rewrite no_snapshots. auto with moves. Qed.

Ltac frame_conf := intros; try done; auto using no_snapshot_conf with moves.

Lemma respond_conf c r m o m' : respond c r m = (o, m') -> same_conf m m'.
Proof. destruct c; by intros [= _ <-]. Qed.

Lemma event_conf env e m o m' : handle_event env e m = (o, m') -> same_conf m m'.
Proof.
  destruct e as [|p|from msg|r]; cbn [handle_event].
  - apply (moves_tick same_conf same_conf_table); frame_conf.
  - destruct (moves_propose same_conf same_conf_table) with (env := env) (p := p) as (k & -> & Hk);
      [frame_conf..|]. destruct (prop_response p) as [c|]; intros E; by apply Hk in E.
  - apply (moves_message same_conf same_conf_table); frame_conf.
  - intros [E|(m1 & a & E & Hr%respond_conf)]%(moves_handle_conf same_conf); [done|by etrans|frame_conf..].
Qed.

Lemma loop_conf envs i events m o m' : run_main_loop envs i events m = (o, m') -> same_conf m m'.
Proof.
  revert i m. induction events as [|e events IH]; intros i m; simpl; [by intros [= _ <-]|].
  intros [(u & m1 & E1%event_conf & E2%IH)|(_ & o1 & E1%event_conf & _)]%sbind_inv; [by etrans|done].
Qed.

Lemma run_conf envs events m o m' : run envs events m = (o, m') -> same_conf m m'.
Proof.
  unfold run. rewrite (sbind_ok _ _ m m m) by done.
  assert (Hb : moves same_conf (if should_bootstrap m then bootstrap_single_node (envs 0%nat) else sret tt)).
  { case_match; [|auto with moves]. apply (moves_bootstrap same_conf same_conf_table); frame_conf. }
  intros [(u & m1 & E1%Hb & E2%loop_conf)|(_ & o1 & E1%Hb & _)]%sbind_inv; [by etrans|done].
Qed.
End NoSnapshots.

(** ** Messages *)

(** A message with its sender filled in. *)
Definition from_node (id : Z) (msg : Message body) : Z * Message body :=
  (msg_to msg, if msg_from msg =? 0 then mkMessage (msg_to msg) id (msg_body msg) else msg).

Lemma send_all_outgoing msgs m :
  exists m', sfor send_raft_message msgs m = (Ok tt, m') /\
    rm_outgoing m' = rm_outgoing m ++ map (from_node (core_node_id (rm_config m))) msgs /\
    rm_config m' = rm_config m /\ rm_node m' = rm_node m /\ rm_machine m' = rm_machine m /\
    rm_pending m' = rm_pending m /\ rm_responses m' = rm_responses m.
Proof.
  revert m. induction msgs as [|msg msgs IH]; intros m; cbn [sfor].
  { exists m. cbn. rewrite app_nil_r. done. }
  unfold send_raft_message at 1. rewrite (sbind_ok _ _ m tt _) by reflexivity.
  edestruct IH as (m' & -> & Ho & Hc & Hn & Hm & Hp & Hr). exists m'. split; [done|].
  rewrite Ho, Hc, Hn, Hm, Hp, Hr. cbn. rewrite <- app_assoc. split_and!; try done.
  cbn. unfold from_node at 2. by destruct (msg_from msg =? 0).
Qed.

(** Parts that send nothing and answer nobody. *)
Definition quiet (m m' : RaftManager) : Prop :=
  rm_outgoing m' = rm_outgoing m /\ rm_config m' = rm_config m.

#[local] Instance quiet_preorder : PreOrder quiet.
Proof. unfold quiet. split; [by intros m|]. intros m1 m2 m3 [-> ->] [-> ->]. done. Qed.

Definition silent (m m' : RaftManager) : Prop :=
  quiet m m' /\ rm_pending m' = rm_pending m /\ rm_responses m' = rm_responses m.

#[local] Instance silent_preorder : PreOrder silent.
Proof.
  unfold silent. split; [by intros m|]. intros m1 m2 m3 (Ha & -> & ->) (Hb & -> & ->). by split; [etrans|].
Qed.

Lemma snapshot_silent f ready : moves silent (process_snapshot_if_present f ready).
Proof.
  unfold process_snapshot_if_present, apply_snapshot_to_state_machine, fail.
  assert (forall A (c : st Database BlixardError A), moves silent (on_store c)).
  { intros A c. by apply (moves_store _ (fun _ _ => True)). }
  repeat case_match; auto with moves.
Qed.
Lemma save_entries_silent env ready : moves silent (save_entries_to_storage env ready).
Proof. by apply (moves_save_entries _ (fun _ _ => True)). Qed.
Lemma save_hard_state_silent env ready : moves silent (save_ready_hard_state env ready).
Proof. by apply (moves_save_hard_state _ (fun _ _ => True)). Qed.
Lemma entries_quiet env i es : moves quiet (process_entries env i es).
Proof. by apply (moves_entries _ (fun _ _ => True)). Qed.
Lemma newly_committed_quiet env i last had : moves quiet (handle_newly_committed_entries env i last had).
Proof. by apply (moves_newly_committed _ (fun _ _ => True)). Qed.
Lemma compaction_quiet f : moves quiet (check_and_trigger_log_compaction f).
Proof. by apply (moves_compaction _ (fun _ _ => True)). Qed.
Lemma status_quiet : moves quiet update_shared_state_status.
Proof. apply moves_modify. intros m. by case_match. Qed.

Lemma advance_outgoing env ready last m m' :
  advance_raft_node env ready last m = (Ok tt, m') ->
  rm_outgoing m' = rm_outgoing m ++ map (from_node (core_node_id (rm_config m)))
    (lr_messages (fst (node_advance (db_of m) (rest_of_ready ready) (rm_node m)))) /\
  rm_config m' = rm_config m.
Proof.
  unfold advance_raft_node. rewrite (sbind_ok _ _ m m m) by done. destruct (node_advance _ _ _) as [light n].
  rewrite (sbind_ok _ _ m tt (set_node n m)) by done. cbn [fst].
  destruct (send_all_outgoing (lr_messages light) (set_node n m)) as (m1 & E1 & Ho1 & Hc1 & _).
  rewrite (sbind_ok _ _ _ tt m1) by done. intros (had & m2 & E2 & [Ho3 Hc3]%newly_committed_quiet)%sbind_ok_inv.
  assert (Hq : quiet m1 m2).
  { destruct (lr_commit_index light); [|injection E2 as _ <-; reflexivity].
    apply sbind_ok_inv in E2 as (u & m3 & (o1 & db & _ & _ & ->)%on_store_inv & [= _ <-]). done. }
  destruct Hq as [Ho2 Hc2]. rewrite Ho3, Hc3, Ho2, Hc2, Ho1, Hc1. done.
Qed.

(** A transaction that goes wrong after its first table operation. *)
Lemma append_fails f es d : f <> NoFault -> es <> [] -> is_ok (fst (append f es d)) = false.
Proof.
  intros Hf Hes. destruct f; [done|done|by destruct es|]. unfold append, run_txn.
  by destruct (sfor _ _ _) as [[]].
Qed.
Lemma save_hard_state_fails f hs d : f <> NoFault -> is_ok (fst (save_hard_state f hs d)) = false.
Proof. by destruct f. Qed.

Lemma no_conf_changes env i es m :
  Forall (fun e => entry_kind e <> EntryConfChange) es -> process_conf_changes env i es m = (Ok tt, m).
Proof.
  intros Hes. revert i. induction Hes as [|e es He Hes IH]; intros i; simpl; [done|].
  destruct (entry_kind e); [|done|]; by rewrite (sbind_ok _ _ m tt m).
Qed.

(** Databases that agree on all that applying entries may change. *)
Definition same_application (d d' : Database) : Prop :=
  (forall t, raft_str t = false -> strs d' t = strs d t) /\ (forall t, byts d' t = byts d t) /\
  (forall t, t <> RAFT_LOG_TABLE -> u64s d' t = u64s d t).

#[local] Instance same_application_preorder : PreOrder same_application.
Proof.
  split; [done|]. intros d1 d2 d3 (Hs & Hb & Hu) (Hs' & Hb' & Hu'). split_and!; intros t.
  - intros Ht. by rewrite Hs', Hs.
  - by rewrite Hb', Hb.
  - intros Ht. by rewrite Hu', Hu.
Qed.

Lemma table_op_application {A} f (t : txn A) : moves same_application t -> moves same_application (table_op f t).
Proof. intros Ht. destruct f; simpl; auto with moves. Qed.
Lemma append_application f es : moves same_application (append f es).
Proof.
  apply moves_run_txn, moves_for; [apply _..|]. intros e. apply table_op_application, moves_modify.
  intros d. split_and!; [done..|]. intros t Ht. by apply u64s_set_other.
Qed.
Lemma hard_state_application f hs : moves same_application (save_hard_state f hs).
Proof.
  apply moves_run_txn; [apply _|]. apply table_op_application, moves_modify. intros d. split_and!; [|done..].
  intros t Ht. apply strs_set_other. by intros ->.
Qed.

(** Saving a ready state's entries and hard state when storage does not fail. *)
Lemma save_entries_ok env ready m : f_append env = NoFault ->
  exists db, save_entries_to_storage env ready m = (Ok tt, set_machine (set_database db (rm_machine m)) m) /\
    same_application (db_of m) db.
Proof.
  intros Hf. unfold save_entries_to_storage. rewrite Hf. case_match.
  { exists (db_of m). split; [|done]. unfold db_of, set_machine, set_database. by destruct m as [? ? []]. }
  destruct (append_log (rd_entries ready) (db_of m)) as (db & E & _). exists db. split; [|by eapply append_application].
  unfold on_store, on_machine, on_db. unfold db_of in E. by rewrite E.
Qed.
Lemma save_hard_state_ok env ready m : f_hard_state env = NoFault ->
  exists db, save_ready_hard_state env ready m = (Ok tt, set_machine (set_database db (rm_machine m)) m) /\
    same_application (db_of m) db.
Proof.
  intros Hf. unfold save_ready_hard_state. rewrite Hf. destruct (rd_hs ready) as [hs|].
  - eexists. split; [reflexivity|]. by apply (hard_state_application NoFault hs _ (Ok tt)).
  - exists (db_of m). split; [|done]. unfold db_of, set_machine, set_database. by destruct m as [? ? []].
Qed.

(** * Properties *)

(** C3: the committed entries of a ready state, when they are normal entries with
    distinct ids whose application comes to an end, are applied to the state
    machine once each and in order, whatever their outcomes; every waiting
    proposal whose id an entry carries is answered once, with that entry's
    outcome, and waits no more, and no other proposal is answered. *)
Theorem committed_entries_applied env ready m os s :
  Forall (fun e => entry_kind e = EntryNormal) (rd_committed_entries ready) ->
  apply_log (entry_envs env) 0 (rd_committed_entries ready) (rm_machine m) = (os, s) ->
  Forall returns os -> NoDup (ids (rd_committed_entries ready)) ->
  exists m', process_committed_entries env ready m = (Ok (last_entry_index 0 (rd_committed_entries ready)), m') /\
    rm_machine m' = s /\
    rm_responses m' = rm_responses m ++ omap (answer (rm_pending m)) (zip (rd_committed_entries ready) os) /\
    (forall id, rm_pending m' !! id =
       if decide (id ∈ ids (rd_committed_entries ready)) then None else rm_pending m !! id).
Proof.
  intros Hn E Ho Hnd.
  destruct (process_entries_applies env _ 0 m os s Hn E Ho Hnd) as (m' & E' & Hm & Hr & Hp & _).
  exists m'. unfold process_committed_entries. by rewrite (sbind_ok _ _ m tt m').
Qed.

(** C4: over any sequence of ticks, proposals, messages and membership changes,
    with any library, storage faults and errors, no client is answered twice,
    and only clients that asked are answered: when the requests come with
    distinct channels, so are the channels that were answered, each one of a
    request or of a proposal that was waiting. *)
Theorem proposals_answered_once envs events m o m' :
  NoDup (concat (map event_channels events) ++ channels m) ->
  run_main_loop envs 1 events m = (o, m') ->
  NoDup (answered m') /\ answered m' ⊆ concat (map event_channels events) ++ channels m.
Proof.
  intros Hnd E%loop_channels_bound.
  assert (Ha : answered m' ⊆+ concat (map event_channels events) ++ channels m).
  { etrans; [|exact E]. by apply submseteq_inserts_l. }
  destruct (submseteq_Permutation _ _ Ha) as [k Hk]. rewrite Hk in Hnd |- *.
  split; [by apply NoDup_app in Hnd as [? _]|]. set_solver.
Qed.

(** C5: what could not be saved is not acknowledged: when the entries or the hard
    state of a ready state cannot be written, processing the ready state fails,
    and no message was handed to the transport, no proposal answered and none
    forgotten. *)
Theorem unsaved_ready_is_silent env m o m' :
  on_ready env m = (o, m') -> has_ready (db_of m) (rm_node m) = true ->
  let ready := fst (node_ready (db_of m) (rm_node m)) in
  (rd_entries ready <> [] /\ f_append env <> NoFault) \/ (rd_hs ready <> None /\ f_hard_state env <> NoFault) ->
  is_ok o = false /\ silent m m'.
Proof.
  unfold on_ready. rewrite (sbind_ok _ _ m m m) by done. intros E Hready. rewrite Hready in E. cbn [negb] in E.
  destruct (node_ready _ _) as [ready n]. cbn [fst]. rewrite (sbind_ok _ _ m tt (set_node n m)) in E by done.
  assert (H0' : silent m (set_node n m)) by done. intros Hf.
  apply sbind_inv in E as [(u & m1 & E1%snapshot_silent & E)|(Ho & o1 & E1%snapshot_silent & _)];
    (assert (S1 : silent m _) by (etrans; [exact H0'|exact E1])); [|done].
  apply sbind_inv in E as [(u2 & m2 & E2 & E)|(Ho & o2 & E2 & _)]; pose proof E2 as S2; apply save_entries_silent in S2;
    (assert (S3 : silent m _) by (etrans; [exact S1|exact S2])); [|done].
  apply sbind_inv in E as [(u3 & m3 & E3 & E)|(Ho & o3 & E3%save_hard_state_silent & _)];
    [|split; [done|etrans; [exact S3|exact E3]]].
  exfalso. destruct Hf as [[Hes Hf]|[Hhs Hf]].
  - unfold save_entries_to_storage in E2. destruct (rd_entries ready) as [|e es]; [done|].
    apply on_store_inv in E2 as (o1 & db & E2 & Hs & _). pose proof (append_fails _ (e :: es) (db_of m1) Hf Hes) as Hx.
    cbn in E2. rewrite E2 in Hx. by destruct o1.
  - unfold save_ready_hard_state in E3. destruct (rd_hs ready) as [hs|]; [|done].
    apply on_store_inv in E3 as (o1 & db & E3 & Hs & _). pose proof (save_hard_state_fails _ hs (db_of m2) Hf) as Hx.
    rewrite E3 in Hx. by destruct o1.
Qed.

(** Processing a ready state sends its immediate messages and those of the
    advance that follows, in order and with the sender filled in, and nothing
    else: the messages that wait for the ready state to be persisted (the votes
    and acknowledgements of a node that is not the leader) are not sent. *)
Theorem on_ready_withholds_persisted env m m' :
  on_ready env m = (Ok true, m') ->
  let ready := fst (node_ready (db_of m) (rm_node m)) in
  exists db n, rm_outgoing m' = rm_outgoing m ++ map (from_node (core_node_id (rm_config m)))
    (rd_messages ready ++ lr_messages (fst (node_advance db (rest_of_ready ready) n))).
Proof.
  unfold on_ready. rewrite (sbind_ok _ _ m m m) by done. case_match; [done|].
  destruct (node_ready _ _) as [ready n]. cbn [fst]. rewrite (sbind_ok _ _ m tt (set_node n m)) by done.
  intros (? & m1 & [[Ho1 Hc1] _]%snapshot_silent & E)%sbind_ok_inv.
  apply sbind_ok_inv in E as (? & m2 & [[Ho2 Hc2] _]%save_entries_silent & E).
  apply sbind_ok_inv in E as (? & m3 & [[Ho3 Hc3] _]%save_hard_state_silent & E).
  destruct (send_all_outgoing (rd_messages ready) m3) as (m4 & E4 & Ho4 & Hc4 & _).
  unfold send_messages_to_peers in E. rewrite (sbind_ok _ _ m3 tt m4) in E by done.
  apply sbind_ok_inv in E as (last & m5 & E5 & E).
  apply sbind_ok_inv in E5 as (? & m5' & [Ho5 Hc5]%entries_quiet & [= _ <-]).
  apply sbind_ok_inv in E as ([] & m6 & [Ho6 Hc6]%advance_outgoing & E).
  apply sbind_ok_inv in E as (? & m7 & [Ho7 Hc7]%compaction_quiet & E).
  apply sbind_ok_inv in E as (? & m8 & [Ho8 Hc8]%status_quiet & [= <-]).
  exists (db_of m5'), (rm_node m5'). rewrite Ho8, Ho7, Ho6, Ho5, Ho4, Ho3, Ho2, Ho1, map_app, app_assoc.
  by rewrite Hc5, Hc4, Hc3, Hc2, Hc1.
Qed.

(** The ready state that is processed inside the handling of a message is
    advanced past its committed entries without applying them: unless they are
    membership changes, no table of the application, no other part of the state
    machine and no waiting proposal is touched. *)
Theorem message_path_drops_entries env m o m' :
  process_ready_inline env m = (o, m') -> has_ready (db_of m) (rm_node m) = true ->
  let ready := fst (node_ready (db_of m) (rm_node m)) in
  Forall (fun e => entry_kind e <> EntryConfChange) (rd_committed_entries ready) ->
  f_append env = NoFault -> f_hard_state env = NoFault ->
  exists db n, o = Ok tt /\
    rm_node m' = snd (node_advance db (rest_of_inline ready) n) /\
    rm_machine m' = set_database (db_of m') (rm_machine m) /\ same_application (db_of m) (db_of m') /\
    rm_pending m' = rm_pending m /\ rm_responses m' = rm_responses m.
Proof.
  unfold process_ready_inline. rewrite (sbind_ok _ _ m m m) by done. intros E Hready. rewrite Hready in E. cbn [negb] in E.
  destruct (node_ready _ _) as [ready n]. cbn [fst]. intros Hconf Ha Hh.
  rewrite (sbind_ok _ _ m tt (set_node n m)) in E by done.
  destruct (save_entries_ok env ready (set_node n m) Ha) as (db1 & E1 & A1). erewrite sbind_ok in E by exact E1.
  edestruct (save_hard_state_ok env ready) as (db2 & E2 & A2); [exact Hh|]. erewrite sbind_ok in E by exact E2.
  edestruct send_all_outgoing as (m3 & E3 & _ & _ & _ & Hm3 & Hp3 & Hr3). erewrite sbind_ok in E by exact E3.
  edestruct send_all_outgoing as (m4 & E4 & _ & _ & _ & Hm4 & Hp4 & Hr4). erewrite sbind_ok in E by exact E4.
  erewrite sbind_ok in E by by apply no_conf_changes. erewrite sbind_ok in E by reflexivity.
  exists (db_of m4), (rm_node m4). unfold update_shared_state_status, smodify in E. injection E as <- <-.
  assert (Hm : rm_machine m4 = set_database db2 (rm_machine m)) by (rewrite Hm4, Hm3; done).
  assert (Happ : same_application (db_of m) db2) by (etrans; [exact A1|exact A2]).
  case_match; cbn; rewrite Hm, Hp4, Hr4, Hp3, Hr3; unfold db_of; cbn; rewrite Hm; done.
Qed.

(** The membership that a node reads when it starts is the one it had when it
    was started last: unless the library hands over a snapshot, no run of the
    manager, with any events, membership changes among them, changes the
    configuration that the storage loads. *)
Theorem membership_not_restored envs events m o m' :
  (forall db n, rd_snapshot (fst (node_ready db n)) = None) ->
  run envs events m = (o, m') -> load_conf_state (db_of m') = load_conf_state (db_of m).
Proof. intros Hns E%(run_conf Hns). unfold load_conf_state. by rewrite E. Qed.

(** A proposal to a node that does not lead is answered with the leader's id,
    where one is known, and leaves the node, the state machine and the transport
    alone. *)
Theorem only_leaders_propose env p c data m :
  role (rm_node m) <> Leader -> ser (prop_data p) = Some data -> prop_response p = Some c ->
  exists m', handle_proposal env p m = (Ok tt, m') /\
    rm_responses m' = rm_responses m ++ [(c, Err (NotLeader "propose" (leader_hint (rm_node m))))] /\
    rm_pending m' = delete (prop_id p) (rm_pending m) /\
    rm_node m' = rm_node m /\ rm_machine m' = rm_machine m /\ rm_outgoing m' = rm_outgoing m.
Proof.
  intros Hr Hs Hc. unfold handle_proposal. rewrite Hc, Hs.
  erewrite sbind_ok by reflexivity. erewrite sbind_ok by reflexivity. erewrite sbind_ok by reflexivity.
  cbn [rm_node set_pending]. rewrite bool_decide_false by done. cbn [negb]. unfold respond_pending.
  erewrite sbind_ok by reflexivity. cbn [rm_pending set_pending]. rewrite lookup_insert_eq.
  eexists. split; [reflexivity|]. cbn. by rewrite delete_insert_eq.
Qed.

(** Two nodes that agree, and process ready states with the same committed
    entries, report the same index and agree again. *)
Theorem nodes_stay_in_step `{!CodecOk VmState} `{!CodecOk TenantUsage} env1 env2 ready1 ready2 m1 m2 :
  (forall v : VmState, is_Some (ser v)) -> (forall u : TenantUsage, is_Some (ser u)) ->
  rd_committed_entries ready1 = rd_committed_entries ready2 ->
  Forall (fun e => entry_kind e = EntryNormal) (rd_committed_entries ready1) ->
  NoDup (ids (rd_committed_entries ready1)) ->
  (forall i j, env_sim (entry_envs env1 i j) (entry_envs env2 i j)) -> replica_sim (rm_machine m1) (rm_machine m2) ->
  Forall returns (fst (apply_log (entry_envs env1) 0 (rd_committed_entries ready1) (rm_machine m1))) ->
  exists i m1' m2', process_committed_entries env1 ready1 m1 = (Ok i, m1') /\
    process_committed_entries env2 ready2 m2 = (Ok i, m2') /\ replica_sim (rm_machine m1') (rm_machine m2').
Proof.
  intros Hv Hu He Hn Hnd Henv Hsim Hret.
  destruct (apply_log_sim Hv Hu _ _ (rd_committed_entries ready1) 0 _ _ Henv Hsim) as [Ho Hs].
  destruct (apply_log (entry_envs env1) _ _ _) as [os s1] eqn:E1. destruct (apply_log (entry_envs env2) _ _ _) as [os2 s2] eqn:E2.
  cbn in *. subst os2.
  destruct (process_entries_applies env1 _ 0 m1 os s1 Hn E1 Hret Hnd) as (m1' & P1 & M1 & _).
  destruct (process_entries_applies env2 _ 0 m2 os s2 Hn E2 Hret Hnd) as (m2' & P2 & M2 & _).
  eexists _, m1', m2'. unfold process_committed_entries. rewrite <- He.
  rewrite (sbind_ok _ _ m1 tt m1'), (sbind_ok _ _ m2 tt m2') by done. rewrite M1, M2. done.
Qed.

End Core.

(** * Witnesses *)

#[local] Instance demo_profile : Profile := true.
#[local] Instance demo_uuid : UuidText := fun _ => "vm".
#[local] Existing Instance prefix_nets.
#[local] Existing Instance canonical_iter.
#[local] Instance wire_net : Wire (IpNet (IpNetLib:=prefix_nets)) := wire_prod.
#[local] Existing Instance wire_codec.

#[local] Instance wire_snapshot : Wire SnapshotData.
Proof.
  apply (wire_via
    (fun d => (sd_vm_states d, sd_cluster_state d, sd_tasks d, sd_task_assignments d, sd_task_results d,
       sd_workers d, sd_worker_status d, sd_ip_pools d, sd_ip_allocations d, sd_vm_ip_mappings d))
    (fun '(a, b, c, d, e, f, g, h, i, j) => mkSnapshotData a b c d e f g h i j)).
  by intros [].
Defined.
#[local] Instance wire_conf_state : Wire ConfState.
Proof.
  apply (wire_via (fun c => (voters c, learners c, voters_outgoing c, learners_next c, auto_leave c))
    (fun '(a, b, c, d, e) => mkConfState a b c d e)).
  by intros [].
Defined.
#[local] Instance wire_conf_context : Wire ConfChangeContext.
Proof.
  apply (wire_via (fun c => (ctx_address c, ctx_p2p_node_id c, ctx_p2p_addresses c, ctx_p2p_relay_url c))
    (fun '(a, b, c, d) => mkConfContext a b c d)).
  by intros [].
Defined.
#[local] Instance demo_addr : NodeAddr := fun _ => true.

(** A library for a cluster of one voter: what is proposed is committed at once.
    A message carries entries that were committed elsewhere, and is acknowledged
    by a message that is to be sent once the entries are stored.  A node keeps
    the acknowledgements and the entries of its next ready states. *)
Definition toy_round : Type := list (Message (list Entry)) * list Entry.
Record Toy : Type := mkToy { toy_role : StateRole; toy_applied : Z; toy_last : Z; toy_rounds : list toy_round }.

Definition toy_ready (r : toy_round) : Ready (list Entry) := mkReady [] r.1 r.2 None None r.2.

Definition toy_entry (ty : Z) (ctx data : bytes) (n : Toy) : RaftResult unit * Toy :=
  let e := mkEntry ty 1 (toy_last n + 1) data ctx false in
  (Ok tt, mkToy (toy_role n) (toy_applied n) (toy_last n + 1) (toy_rounds n ++ [([], [e])])).

#[local] Instance toy_lib : RaftLib := {
  raft_node := Toy;
  body := list Entry;
  role := toy_role;
  leader_id := fun _ => 1;
  current_term := fun _ => 1;
  committed := toy_last;
  applied := toy_applied;
  hard_state := fun n => mkHardState 1 1 (toy_last n);
  node_tick := fun _ n => n;
  node_step := fun _ msg n =>
    (Ok tt, mkToy (toy_role n) (toy_applied n) (toy_last n + Z.of_nat (length (msg_body msg)))
              (toy_rounds n ++ [([mkMessage (msg_from msg) 0 []], msg_body msg)]));
  node_propose := fun _ ctx data n => toy_entry 0 ctx data n;
  node_propose_conf_change := fun _ cc n => toy_entry 1 [] (cc_type cc :: cc_node_id cc :: cc_context cc) n;
  node_campaign := fun _ n => mkToy Leader (toy_applied n) (toy_last n) (toy_rounds n);
  has_ready := fun _ n => negb (length (toy_rounds n) =? 0)%nat;
  node_ready := fun _ n =>
    (toy_ready (hd ([], []) (toy_rounds n)), mkToy (toy_role n) (toy_applied n) (toy_last n) (tl (toy_rounds n)));
  node_advance := fun _ _ n => (mkLightReady [] None, mkToy (toy_role n) (toy_last n) (toy_last n) (toy_rounds n));
  advance_apply_to := fun i n => mkToy (toy_role n) i (toy_last n) (toy_rounds n);
  node_apply_conf_change := fun cc n => (Ok (mkConfState [1; cc_node_id cc] [] [] [] false), n);
  parse_conf_change := fun b => match b with t :: id :: ctx => Some (mkConfChange t id ctx) | _ => None end
}.

Definition demo_env (fault : txn_fault) : ReadyEnv :=
  mkReadyEnv (fun _ => NoFault) fault NoFault (fun i j => mkEnv AsyncTask NoFault NoFault 0 100 100)
    (fun _ => NoFault) NoFault NoFault.

Definition demo_manager (r : StateRole) (rounds : list toy_round) (pending : gmap bytes Z) : RaftManager :=
  mkRaftManager (mkCoreConfig 1 false false) (mkToy r 0 (Z.of_nat (length rounds)) rounds)
    (mkMachine empty_database None false manager_new) ∅ ∅ false None pending [] [] None.

Definition create_entry : Entry :=
  mkEntry 0 1 1 (put (CreateVm (VmCreate default_vm_config 1) : ProposalData)) [7] false.
Definition demo_round : toy_round := ([mkMessage 2 0 []], [create_entry]).

Lemma demo_outcomes :
  fst (apply_log (entry_envs (demo_env NoFault)) 0 [create_entry] (rm_machine (demo_manager Leader [] ∅))) = [Ok tt].
Proof. vm_compute. reflexivity. Qed.

Lemma committed_entries_applied_witness :
  exists m', process_committed_entries (demo_env NoFault) (toy_ready demo_round) (demo_manager Leader [] {[ [7] := 42 ]}) = (Ok 1, m') /\
    rm_responses m' = [(42, Ok tt)] /\ rm_pending m' !! [7] = None.
Proof.
  destruct (apply_log (entry_envs (demo_env NoFault)) 0 [create_entry] (rm_machine (demo_manager Leader [] ∅)))
    as [os s] eqn:E. pose proof demo_outcomes as Ho. rewrite E in Ho. cbn in Ho. subst os.
  destruct (committed_entries_applied (H:=toy_lib) (demo_env NoFault) (toy_ready demo_round) (demo_manager Leader [] {[ [7] := 42 ]}) [Ok tt] s)
    as (m' & Em & _ & Hr & Hp); [by repeat constructor|exact E|by repeat constructor|apply NoDup_singleton|].
  exists m'. split; [exact Em|]. split; [rewrite Hr; vm_compute; reflexivity|].
  rewrite Hp. by rewrite decide_True by (apply list_elem_of_singleton; reflexivity).
Defined.

Definition demo_events : list raft_event :=
  [Propose (mkProposal [7] (CreateVm (VmCreate default_vm_config 1)) (Some 42));
   Propose (mkProposal [8] (CreateVm (VmStart "absent")) (Some 43)); Tick].

Lemma proposals_answered_once_witness :
  let m' := snd (run_main_loop (fun _ _ => demo_env NoFault) 1 demo_events (demo_manager Leader [] ∅)) in
  NoDup (answered m') /\ answered m' = [42; 43].
Proof.
  split; [|vm_compute; reflexivity].
  destruct (run_main_loop _ _ _ _) as [o m'] eqn:E.
  refine (proj1 (proposals_answered_once _ demo_events (demo_manager Leader [] ∅) o m' _ E)).
  apply (bool_decide_unpack _). vm_compute. exact I.
Defined.

Lemma unsaved_ready_is_silent_witness :
  let '(o, m') := on_ready (demo_env CommitFails) (demo_manager Leader [demo_round] {[ [7] := 42 ]}) in
  is_ok o = false /\ silent (demo_manager Leader [demo_round] {[ [7] := 42 ]}) m'.
Proof.
  destruct (on_ready _ _) as [o m'] eqn:E.
  apply (unsaved_ready_is_silent (demo_env CommitFails) _ o m' E); [reflexivity|]. left. by split.
Defined.

Lemma on_ready_withholds_persisted_witness :
  exists m', on_ready (demo_env NoFault) (demo_manager Follower [demo_round] ∅) = (Ok true, m') /\ rm_outgoing m' = [].
Proof.
  destruct (on_ready (demo_env NoFault) (demo_manager Follower [demo_round] ∅)) as [o m'] eqn:E.
  assert (Ho : fst (on_ready (demo_env NoFault) (demo_manager Follower [demo_round] ∅)) = Ok true)
    by (vm_compute; reflexivity).
  rewrite E in Ho. cbn [fst] in Ho. subst o. exists m'. split; [reflexivity|].
  destruct (on_ready_withholds_persisted _ _ _ E) as (db & n & ->). reflexivity.
Defined.

Lemma message_path_drops_entries_witness :
  exists m', process_ready_inline (demo_env NoFault) (demo_manager Follower [demo_round] ∅) = (Ok tt, m') /\
    applied (rm_node m') = 1 /\ same_application empty_database (db_of m').
Proof.
  destruct (process_ready_inline (demo_env NoFault) (demo_manager Follower [demo_round] ∅)) as [o m'] eqn:E.
  assert (Ha : applied (rm_node (snd (process_ready_inline (demo_env NoFault) (demo_manager Follower [demo_round] ∅)))) = 1)
    by (vm_compute; reflexivity).
  rewrite E in Ha.
  destruct (message_path_drops_entries _ _ _ _ E) as (db & n & -> & _ & _ & Happ & _);
    [reflexivity|by repeat constructor|reflexivity|reflexivity|].
  exists m'. split; [reflexivity|]. split; [exact Ha|exact Happ].
Defined.

Definition join_events : list raft_event :=
  [ChangeConf (mkConfChangeRequest AddNode 2 (mkConfContext "10.0.0.2:7000" None [] None) (Some 5)); Tick].

(** A node joins and becomes a peer; the configuration that is read at the next
    start does not have it. *)
Lemma membership_not_restored_witness :
  let m' := snd (run (fun _ _ => demo_env NoFault) join_events (demo_manager Leader [] ∅)) in
  rm_peers m' !! 2 = Some "10.0.0.2:7000" /\ load_conf_state (db_of m') = Ok default_conf_state.
Proof.
  split; [vm_compute; reflexivity|].
  destruct (run _ _ _) as [o m'] eqn:E.
  refine (membership_not_restored _ _ _ _ _ _ E). done.
Defined.

Lemma only_leaders_propose_witness :
  exists m', handle_proposal (fun _ => demo_env NoFault) (mkProposal [7] (CreateVm (VmStart "web")) (Some 42))
      (demo_manager Follower [] ∅) = (Ok tt, m') /\
    rm_responses m' = [(42, Err (NotLeader "propose" (Some 1)))].
Proof.
  destruct (only_leaders_propose (fun _ => demo_env NoFault) (mkProposal [7] (CreateVm (VmStart "web")) (Some 42)) 42
    (put (CreateVm (VmStart "web") : ProposalData)) (demo_manager Follower [] ∅)) as (m' & E & Hr & _);
    [done|reflexivity|reflexivity|]. by exists m'.
Defined.
