(* ===== verification/Batching.v ===== *)
(** The batching of proposals (blixard-core/src/raft_batch_processor.rs): a task
    between the clients and the Raft manager that collects proposals and hands
    them on as one batch proposal, and shares the answer among the clients.

    A channel is a number.  The clock, the ids and the channels that the task
    makes are arguments.  What was handed to the Raft manager is recorded, each
    batch with the clients to whom the task spawned for it passes the answer. *)

From Stdlib Require Import ZArith Lia List.
From stdpp Require Import base tactics numbers gmap strings option.
From stdpp Require Import list relations.
From S2P Require Import Prelude Wire Errors Types RaftCodec ResourceQuotas QuotaManager IpPool.
From S2P Require Import IpPoolManager Proposals Codecs Database RaftStorage StateMachine RaftCore.

Open Scope Z_scope.

Record BatchConfig : Type := mkBatchConfig {
  max_batch_size : Z;
  batch_timeout_ms : Z;
  max_batch_bytes : Z;
  batch_enabled : bool
}.

Definition default_batch_config : BatchConfig := mkBatchConfig 100 10 (1024 * 1024) true.

Section Batching.
Context `{Profile} `{IpNetLib} `{Codec ProposalData}.

Record ProposalBatch : Type := mkBatch {
  batch_proposals : list RaftProposal;
  batch_total_size : Z;
  batch_created_at : Z
}.

Definition batch_new (now : Z) : ProposalBatch := mkBatch [] 0 now.

(** [Instant::elapsed], in nanoseconds. *)
Definition batch_age (now : Z) (b : ProposalBatch) : Z := sat_sub now (batch_created_at b).

(** What an operation reads and makes: the clock, the time at which a new batch
    is created, the id and the channel of a batch proposal. *)
Record BatchEnv : Type := mkBatchEnv { be_now : Z; be_created : Z; be_uuid : bytes; be_channel : Z }.

(** [raft_open] tells whether the manager's end of the channel is still there;
    [bp_answers] is what was sent to clients because a batch could not be handed
    on. *)
Record RaftBatchProcessor : Type := mkProcessor {
  bp_config : BatchConfig;
  current_batch : ProposalBatch;
  raft_open : bool;
  forwarded : list (RaftProposal * list Z);
  bp_answers : list (Z * BlixardResult unit)
}.

Definition processor_new (config : BatchConfig) (now : Z) : RaftBatchProcessor :=
  mkProcessor config (batch_new now) true [] [].

Definition batcher (A : Type) : Type := st RaftBatchProcessor BlixardError A.

Definition set_batch (b : ProposalBatch) (s : RaftBatchProcessor) : RaftBatchProcessor :=
  mkProcessor (bp_config s) b (raft_open s) (forwarded s) (bp_answers s).
Definition push_forwarded (x : RaftProposal * list Z) (s : RaftBatchProcessor) : RaftBatchProcessor :=
  mkProcessor (bp_config s) (current_batch s) (raft_open s) (forwarded s ++ [x]) (bp_answers s).
Definition push_answers (l : list (Z * BlixardResult unit)) (s : RaftBatchProcessor) : RaftBatchProcessor :=
  mkProcessor (bp_config s) (current_batch s) (raft_open s) (forwarded s) (bp_answers s ++ l).

(** The task that waits for the answer to a batch; [None]: the channel was
    dropped. *)
Definition distribute (answer : option (BlixardResult unit)) (clients : list Z) : list (Z * BlixardResult unit) :=
  map (fun c => (c, match answer with
                    | Some (Ok _) => Ok tt
                    | Some (Err _) => Err (Internal "Batch proposal failed")
                    | _ => Err (Internal "Batch response channel dropped")
                    end)) clients.

Definition create_batched_proposal (env : BatchEnv) (b : ProposalBatch) : RaftProposal * list Z :=
  (mkProposal (be_uuid env) (Batch (map prop_data (batch_proposals b))) (Some (be_channel env)),
   omap prop_response (batch_proposals b)).

Definition flush_specific_batch (env : BatchEnv) (b : ProposalBatch) : batcher unit :=
  let* s := sget in
  match batch_proposals b with
  | [] => sret tt
  | [p] =>
      if raft_open s then smodify (push_forwarded (p, []))
      else sfail (Internal "Failed to send proposal")
  | _ =>
      let '(p, clients) := create_batched_proposal env b in
      if raft_open s then smodify (push_forwarded (p, clients))
      else smodify (push_answers (distribute None clients)) ;* sfail (Internal "Failed to send batched proposal")
  end.

Definition flush_batch (env : BatchEnv) : batcher unit :=
  let* s := sget in
  match batch_proposals (current_batch s) with
  | [] => sret tt
  | _ => smodify (set_batch (batch_new (be_created env))) ;* flush_specific_batch env (current_batch s)
  end.

Definition check_and_flush_batch (env : BatchEnv) : batcher unit :=
  let* s := sget in
  if negb (length (batch_proposals (current_batch s)) =? 0)%nat &&
     (batch_timeout_ms (bp_config s) * 1000000 <=? batch_age (be_now env) (current_batch s))
  then flush_batch env else sret tt.

(** [serialized_size] is the length of the serialization. *)
Definition estimate_proposal_size (p : RaftProposal) : BlixardResult Z :=
  match ser (prop_data p) with
  | Some b =>
      let? n := arith_u 64 (Z.of_nat (length b) + Z.of_nat (length (prop_id p))) in
      arith_u 64 (n + 64)
  | None => Err (Serialization "estimate proposal size")
  end.

(** [ProposalBatch::add] on the current batch. *)
Definition batch_add (p : RaftProposal) (size : Z) : batcher unit :=
  smodify (fun s => let b := current_batch s in
    set_batch (mkBatch (batch_proposals b ++ [p]) (batch_total_size b) (batch_created_at b)) s) ;*
  let* s := sget in
  let* total := slift (arith_u 64 (batch_total_size (current_batch s) + size)) in
  smodify (fun s => let b := current_batch s in
    set_batch (mkBatch (batch_proposals b) total (batch_created_at b)) s).

Definition batch_len (b : ProposalBatch) : Z := Z.of_nat (length (batch_proposals b)).

Definition add_to_batch (env : BatchEnv) (p : RaftProposal) : batcher unit :=
  let* size := slift (estimate_proposal_size p) in
  let* s := sget in
  let b := current_batch s in
  let* full := slift
    (if batch_len b =? 0 then Ok false
     else if max_batch_size (bp_config s) <=? batch_len b then Ok true
     else let? total := arith_u 64 (batch_total_size b + size) in Ok (max_batch_bytes (bp_config s) <? total)) in
  if full : bool then
    smodify (set_batch (batch_new (be_created env))) ;*
    flush_specific_batch env b ;*
    batch_add p size
  else
    batch_add p size ;*
    let* s := sget in
    let b := current_batch s in
    if (max_batch_size (bp_config s) <=? batch_len b) || (max_batch_bytes (bp_config s) <=? batch_total_size b)
    then smodify (set_batch (batch_new (be_created env))) ;* flush_specific_batch env b
    else sret tt.

(** ** The task *)

(** [RaftClosed]: the manager drops its end of the channel, which no call of the
    task does; from then on every send fails. *)
Inductive batch_event : Type := Proposed (p : RaftProposal) | FlushTick | RaftClosed.

Definition close_raft (s : RaftBatchProcessor) : RaftBatchProcessor :=
  mkProcessor (bp_config s) (current_batch s) false (forwarded s) (bp_answers s).

Definition batch_step (env : BatchEnv) (e : batch_event) : batcher unit :=
  match e with
  | Proposed p => signore (add_to_batch env p)
  | FlushTick => signore (check_and_flush_batch env)
  | RaftClosed => smodify close_raft
  end.

Fixpoint batch_loop (envs : nat -> BatchEnv) (i : nat) (events : list batch_event) : batcher unit :=
  match events with
  | [] => sret tt
  | e :: events' => batch_step (envs i) e ;* batch_loop envs (S i) events'
  end.

(** Without batching each proposal is handed on; an [interval] of no length
    panics. *)
Definition forward_direct (e : batch_event) : batcher unit :=
  match e with
  | Proposed p => let* s := sget in if raft_open s then smodify (push_forwarded (p, [])) else sret tt
  | FlushTick => sret tt
  | RaftClosed => smodify close_raft
  end.

Definition batch_run (envs : nat -> BatchEnv) (events : list batch_event) : batcher unit :=
  let* s := sget in
  if negb (batch_enabled (bp_config s)) then sfor forward_direct events
  else if batch_timeout_ms (bp_config s) =? 0 then spanic
  else batch_loop envs 0 events.

(** * Specifications *)

Definition events_proposals (events : list batch_event) : list RaftProposal :=
  omap (fun e => match e with Proposed p => Some p | _ => None end) events.

(** A proposal whose size cannot be estimated is refused, where batching is on. *)
Definition serializable (p : RaftProposal) : Prop := is_Some (ser (prop_data p)).
Definition accepted (c : BatchConfig) (ps : list RaftProposal) : list RaftProposal :=
  if batch_enabled c then filter serializable ps else ps.

(** The size of a proposal, exactly. *)
Definition proposal_size (p : RaftProposal) : Z :=
  Z.of_nat (length (default [] (ser (prop_data p)))) + Z.of_nat (length (prop_id p)) + 64.
Definition total (ps : list RaftProposal) : Z := foldr Z.add 0 (map proposal_size ps).

(** What is handed on carries a group of proposals: one proposal, as the client
    made it, or two and more as a batch within the limits, with the channels of
    their clients to be answered. *)
Inductive carries (c : BatchConfig) : RaftProposal * list Z -> list RaftProposal -> Prop :=
  | carries_one p : carries c (p, []) [p]
  | carries_batch id ch ps :
      1 < Z.of_nat (length ps) <= max_batch_size c -> total ps <= max_batch_bytes c ->
      carries c (mkProposal id (Batch (map prop_data ps)) (Some ch), omap prop_response ps) ps.

(** The proposals [ps] are accounted for: first those that were handed on, then
    those that were lost on the closed channel, then the current batch. *)
Definition accounts (ps : list RaftProposal) (s : RaftBatchProcessor) : Prop :=
  exists groups lost, Forall2 (carries (bp_config s)) (forwarded s) groups /\
    ps = concat groups ++ lost ++ batch_proposals (current_batch s) /\ (raft_open s = true -> lost = []).

(** The invariant of the processor. *)
Definition batch_ok (s : RaftBatchProcessor) : Prop :=
  let b := current_batch s in
  batch_total_size b = total (batch_proposals b) /\
  (1 < batch_len b -> batch_len b <= max_batch_size (bp_config s) /\ batch_total_size b <= max_batch_bytes (bp_config s)).

(** [s'] is [s] later, with [ps] received since the start. *)
Definition took (ps : list RaftProposal) (s s' : RaftBatchProcessor) : Prop :=
  batch_ok s' /\ accounts ps s' /\ bp_config s' = bp_config s.

(** * Lemmas *)

Lemma proposal_size_pos p : 64 <= proposal_size p.
Proof. unfold proposal_size. lia. Qed.
Lemma total_app a b : total (a ++ b) = total a + total b.
Proof.
  induction a as [|p a IH]; [done|]. cbn [app]. change (total (p :: a ++ b)) with (proposal_size p + total (a ++ b)).
  change (total (p :: a)) with (proposal_size p + total a). lia.
Qed.
Lemma total_one p : total [p] = proposal_size p.
Proof. unfold total. cbn [map foldr]. lia. Qed.
Lemma total_nonneg ps : 0 <= total ps.
Proof.
  induction ps as [|p ps IH]; [done|]. pose proof (proposal_size_pos p).
  change (total (p :: ps)) with (proposal_size p + total ps). lia.
Qed.

Lemma total_filter (P : RaftProposal -> Prop) `{!forall p, Decision (P p)} ps : total (filter P ps) <= total ps.
Proof.
  induction ps as [|p ps IH]; [done|]. pose proof (proposal_size_pos p).
  change (total (p :: ps)) with (proposal_size p + total ps). rewrite filter_cons. case_decide; [|lia].
  change (total (p :: filter P ps)) with (proposal_size p + total (filter P ps)). lia.
Qed.

Lemma accounts_total ps s : accounts ps s -> total (batch_proposals (current_batch s)) <= total ps.
Proof.
  intros (gs & lost & _ & -> & _). rewrite !total_app. pose proof (total_nonneg (concat gs)).
  pose proof (total_nonneg lost). lia.
Qed.

Lemma estimate_ok p : serializable p -> proposal_size p < 2 ^ 64 -> estimate_proposal_size p = Ok (proposal_size p).
Proof.
  intros [b Hb]. unfold estimate_proposal_size, proposal_size. rewrite Hb.
  change (default [] (Some b)) with b. intros Hs.
  rewrite arith_u_fits by lia. cbn [obind]. by rewrite arith_u_fits by lia.
Qed.

Lemma batch_add_ok p size s :
  0 <= batch_total_size (current_batch s) + size < 2 ^ 64 ->
  batch_add p size s = (Ok tt, set_batch (mkBatch (batch_proposals (current_batch s) ++ [p])
    (batch_total_size (current_batch s) + size) (batch_created_at (current_batch s))) s).
Proof. intros Hs. unfold batch_add. unfold_st. cbn. by rewrite arith_u_fits. Qed.

(** Handing on a batch: with the channel open it is carried by what is sent;
    with the channel closed it is lost and the call fails. *)
Lemma flush_specific_open env b s :
  raft_open s = true -> batch_proposals b <> [] -> batch_total_size b = total (batch_proposals b) ->
  (1 < batch_len b -> batch_len b <= max_batch_size (bp_config s) /\ batch_total_size b <= max_batch_bytes (bp_config s)) ->
  exists x, flush_specific_batch env b s = (Ok tt, push_forwarded x s) /\ carries (bp_config s) x (batch_proposals b).
Proof.
  intros Ho Hne Ht Hlim. unfold flush_specific_batch. rewrite (sbind_ok _ _ s s s) by done. rewrite Ho.
  unfold batch_len in Hlim. destruct (batch_proposals b) as [|p [|q ps]] eqn:E; [done| |].
  - exists (p, []). split; [done|constructor].
  - exists (create_batched_proposal env b). split; [done|]. unfold create_batched_proposal. rewrite E.
    constructor; destruct Hlim; cbn [length] in *; lia.
Qed.

Lemma flush_specific_closed env b s :
  raft_open s = false -> batch_proposals b <> [] ->
  exists e l, flush_specific_batch env b s = (Err e, push_answers l s).
Proof.
  intros Ho Hne. unfold flush_specific_batch. rewrite (sbind_ok _ _ s s s) by done. rewrite Ho.
  destruct (batch_proposals b) as [|p [|q ps]]; [done| |].
  - eexists _, []. unfold sfail, push_answers. rewrite app_nil_r. by destruct s.
  - by eexists _, _.
Qed.

(** Handing on the current batch. *)
Lemma flush_took env ps s :
  batch_ok s -> accounts ps s -> batch_proposals (current_batch s) <> [] ->
  exists r s', (smodify (set_batch (batch_new (be_created env))) ;* flush_specific_batch env (current_batch s)) s
      = (r, s') /\ took ps s s' /\ current_batch s' = batch_new (be_created env) /\
    (r = Ok tt \/ exists e, r = Err e /\ raft_open s' = false) /\
    (raft_open s = true -> exists x, s' = push_forwarded x (set_batch (batch_new (be_created env)) s) /\
      carries (bp_config s) x (batch_proposals (current_batch s))).
Proof.
  intros (Ht & Hlim) (gs & lost & Hg & -> & Hl) Hne. erewrite sbind_ok by reflexivity.
  set (s1 := set_batch (batch_new (be_created env)) s).
  assert (Hnew : forall s', current_batch s' = batch_new (be_created env) -> batch_ok s').
  { intros s' E. unfold batch_ok, batch_len. rewrite E. cbn. split; [done|lia]. }
  destruct (raft_open s) eqn:Ho.
  - destruct (flush_specific_open env (current_batch s) s1) as (x & -> & Hx); [done..|].
    eexists _, _. split; [reflexivity|]. split; [|by eauto 6]. split; [by apply Hnew|]. split; [|done].
    exists (gs ++ [batch_proposals (current_batch s)]), []. cbn. rewrite (Hl eq_refl), concat_app. cbn.
    rewrite !app_nil_r. split; [|done]. apply Forall2_app; [done|]. by repeat constructor.
  - destruct (flush_specific_closed env (current_batch s) s1) as (e & l & ->); [done..|].
    eexists _, _. split; [reflexivity|]. split; [|split_and!; [done|right; by exists e|done]].
    split; [by apply Hnew|]. split; [|done]. exists gs, (lost ++ batch_proposals (current_batch s)). cbn. rewrite app_nil_r.
    split; [done|]. split; [done|]. by rewrite Ho.
Qed.

(** Adding a proposal to a batch with room for it. *)
Lemma add_took p ps s :
  batch_ok s -> accounts ps s -> total (ps ++ [p]) < 2 ^ 64 ->
  (0 < batch_len (current_batch s) ->
     batch_len (current_batch s) < max_batch_size (bp_config s) /\
     batch_total_size (current_batch s) + proposal_size p <= max_batch_bytes (bp_config s)) ->
  exists s', batch_add p (proposal_size p) s = (Ok tt, s') /\ took (ps ++ [p]) s s' /\
    batch_proposals (current_batch s') <> [].
Proof.
  intros (Ht & Hlim) Ha Hfit Hroom. pose proof (accounts_total ps s Ha) as Hle.
  rewrite total_app, total_one in Hfit.
  pose proof (proposal_size_pos p). pose proof (total_nonneg (batch_proposals (current_batch s))).
  rewrite batch_add_ok by lia. eexists. split; [reflexivity|].
  split; [|cbn; by destruct (batch_proposals (current_batch s))]. split; [|split; [|done]].
  - unfold batch_ok, batch_len in *. cbn -[total]. rewrite total_app, total_one, length_app. cbn [length].
    split; [lia|]. intros Hn. destruct Hroom; lia.
  - destruct Ha as (gs & lost & Hg & -> & Hl). exists gs, lost. cbn. by rewrite !app_assoc.
Qed.

(** A proposal is lost when the batch before it could not be handed on. *)
Lemma lost_too p ps s :
  accounts ps s -> batch_proposals (current_batch s) = [] -> raft_open s = false -> accounts (ps ++ [p]) s.
Proof.
  intros (gs & lost & Hg & -> & Hl) Hb Ho. exists gs, (lost ++ [p]). rewrite Hb, !app_nil_r, app_assoc.
  split; [done|]. split; [done|]. by rewrite Ho.
Qed.

Lemma add_to_batch_took env p ps s :
  batch_ok s -> accounts ps s -> serializable p -> total (ps ++ [p]) < 2 ^ 64 ->
  exists r s', add_to_batch env p s = (r, s') /\ r <> Panic /\ took (ps ++ [p]) s s'.
Proof.
  intros Hok Ha Hp Hfit. pose proof Hok as (Ht & Hlim). pose proof (accounts_total ps s Ha) as Hle.
  pose proof Hfit as Hfit'. rewrite total_app, total_one in Hfit'. pose proof (proposal_size_pos p).
  pose proof (total_nonneg (batch_proposals (current_batch s))).
  unfold add_to_batch. rewrite estimate_ok by (done || lia). erewrite sbind_ok by reflexivity.
  erewrite sbind_ok by reflexivity. rewrite arith_u_fits by lia. cbn [obind].
  set (full := if batch_len (current_batch s) =? 0 then _ else _).
  assert (Hfull : full = Ok (negb (batch_len (current_batch s) =? 0) &&
    ((max_batch_size (bp_config s) <=? batch_len (current_batch s)) ||
     (max_batch_bytes (bp_config s) <? batch_total_size (current_batch s) + proposal_size p)))).
  { unfold full. by destruct (_ =? 0), (_ <=? _). }
  rewrite Hfull. erewrite sbind_ok by reflexivity. clear full Hfull.
  destruct (negb _ && _) eqn:Eb; bools.
  - destruct (flush_took env ps s Hok Ha) as (r & s1 & E1 & (K1 & A1 & C1) & B1 & R1 & _).
    { unfold batch_len in *. by destruct (batch_proposals (current_batch s)). }
    revert E1. unfold sbind at 1 2, smodify. intros E1. unfold sbind. rewrite E1.
    destruct R1 as [->|(e & -> & Ho)].
    + destruct (add_took p ps s1) as (s2 & E2 & (K2 & A2 & C2) & _); [done..| |].
      { rewrite B1. intros Hn. by apply Z.lt_irrefl in Hn. }
      rewrite E2. eexists _, _. split; [reflexivity|]. split; [done|]. split_and!; try done. by rewrite C2.
    + eexists _, _. split; [reflexivity|]. split; [done|]. split_and!; try done.
      apply lost_too; [done| |done]. by rewrite B1.
  - destruct (add_took p ps s Hok Ha Hfit) as (s1 & E1 & (K1 & A1 & C1) & Hne).
    { intros Hn. destruct (Z.eqb_spec (batch_len (current_batch s)) 0); [lia|]. cbn in Eb. bools. lia. }
    erewrite sbind_ok by exact E1. erewrite sbind_ok by reflexivity. case_match; [|by exists (Ok tt), s1].
    destruct (flush_took env (ps ++ [p]) s1) as (r & s2 & -> & (K2 & A2 & C2) & _ & R2 & _); [done..|].
    eexists _, _. split; [reflexivity|]. split; [by destruct R2 as [->|(? & -> & _)]|]. split_and!; try done. by rewrite C2.
Qed.

Lemma refused_took env p s : ~ serializable p -> exists e, add_to_batch env p s = (Err e, s).
Proof.
  intros Hp. unfold add_to_batch, estimate_proposal_size, serializable in *.
  destruct (ser (prop_data p)) eqn:E; [by destruct Hp|]. by eexists.
Qed.

Lemma check_and_flush_took env ps s :
  batch_ok s -> accounts ps s ->
  exists r s', check_and_flush_batch env s = (r, s') /\ r <> Panic /\ took ps s s'.
Proof.
  intros Hok Ha. unfold check_and_flush_batch, flush_batch. rewrite (sbind_ok _ _ s s s) by done.
  case_match; [|by exists (Ok tt), s]. rewrite (sbind_ok _ _ s s s) by done.
  destruct (batch_proposals (current_batch s)) as [|q qs] eqn:E; [by exists (Ok tt), s|].
  destruct (flush_took env ps s Hok Ha) as (r & s' & -> & T & _ & R & _); [by rewrite E|].
  eexists _, _. split; [reflexivity|]. split; [|done]. by destruct R as [->|(? & -> & _)].
Qed.

Lemma close_took ps s : batch_ok s -> accounts ps s -> took ps s (close_raft s).
Proof.
  intros Hok (gs & lost & Hg & Hps & _). split; [exact Hok|]. split; [|done]. exists gs, lost. by split_and!.
Qed.

(** One event, and the proposals it brings. *)
Lemma batch_step_took env e ps s :
  batch_ok s -> accounts ps s -> total (ps ++ filter serializable (events_proposals [e])) < 2 ^ 64 ->
  exists s', batch_step env e s = (Ok tt, s') /\ took (ps ++ filter serializable (events_proposals [e])) s s'.
Proof.
  intros Hok Ha. destruct e as [p| |]; cbn [events_proposals omap list_omap filter list_filter batch_step].
  - case_decide as Hp; [|rewrite app_nil_r]; intros Hfit.
    + destruct (add_to_batch_took env p ps s) as (r & s' & E & Hr & T); [done..|].
      exists s'. split; [|done]. unfold signore. rewrite E. by destruct r.
    + destruct (refused_took env p s Hp) as (e & E). exists s. unfold signore. by rewrite E.
  - rewrite app_nil_r. intros _. destruct (check_and_flush_took env ps s Hok Ha) as (r & s' & E & Hr & T).
    exists s'. split; [|done]. unfold signore. rewrite E. by destruct r.
  - rewrite app_nil_r. intros _. exists (close_raft s). split; [done|]. by apply close_took.
Qed.

Lemma events_cons e events :
  filter serializable (events_proposals (e :: events)) =
  filter serializable (events_proposals [e]) ++ filter serializable (events_proposals events).
Proof. change (e :: events) with ([e] ++ events). unfold events_proposals. by rewrite omap_app, filter_app. Qed.

Lemma batch_loop_took envs i events ps s :
  batch_ok s -> accounts ps s -> total (ps ++ filter serializable (events_proposals events)) < 2 ^ 64 ->
  exists s', batch_loop envs i events s = (Ok tt, s') /\ took (ps ++ filter serializable (events_proposals events)) s s'.
Proof.
  revert i ps s. induction events as [|e events IH]; intros i ps s Hok Ha Hfit; cbn [batch_loop].
  { exists s. split; [done|]. cbn. by rewrite app_nil_r. }
  rewrite events_cons, app_assoc in *. set (q := filter serializable (events_proposals [e])) in *.
  assert (total (ps ++ q) < 2 ^ 64) as Hq.
  { rewrite total_app in Hfit. pose proof (total_nonneg (filter serializable (events_proposals events))). lia. }
  destruct (batch_step_took (envs i) e ps s Hok Ha Hq) as (s1 & E1 & K1 & A1 & C1).
  destruct (IH (S i) (ps ++ q) s1) as (s2 & E2 & K2 & A2 & C2); [done..|].
  exists s2. erewrite sbind_ok by exact E1. split; [done|]. split_and!; try done. by rewrite C2.
Qed.

(** Without batching. *)
Lemma direct_took events ps s :
  batch_proposals (current_batch s) = [] -> accounts ps s ->
  exists s', sfor forward_direct events s = (Ok tt, s') /\ accounts (ps ++ events_proposals events) s' /\
    bp_config s' = bp_config s.
Proof.
  revert ps s. induction events as [|e events IH]; intros ps s Hb Ha; cbn [sfor].
  { exists s. cbn. by rewrite app_nil_r. }
  assert (exists s1, forward_direct e s = (Ok tt, s1) /\ accounts (ps ++ events_proposals [e]) s1 /\
    batch_proposals (current_batch s1) = [] /\ bp_config s1 = bp_config s) as (s1 & E1 & A1 & B1 & C1).
  { destruct e as [p| |]; cbn [events_proposals omap list_omap forward_direct]; rewrite ?app_nil_r.
    - rewrite (sbind_ok _ _ s s s) by done. destruct (raft_open s) eqn:Ho; [|exists s; split_and!; try done; by apply lost_too].
      eexists. split; [reflexivity|]. split; [|done]. destruct Ha as (gs & lost & Hg & -> & Hl).
      exists (gs ++ [[p]]), []. cbn. rewrite (Hl Ho), Hb, concat_app, !app_nil_r. split_and!; try done.
      apply Forall2_app; [done|]. by repeat constructor.
    - by exists s.
    - eexists. split; [reflexivity|]. split; [|done]. destruct Ha as (gs & lost & Hg & Hps & _).
      exists gs, lost. by split_and!. }
  destruct (IH _ s1 B1 A1) as (s2 & E2 & A2 & C2). exists s2. erewrite sbind_ok by exact E1. split; [done|].
  split; [|by rewrite C2]. change (e :: events) with ([e] ++ events). unfold events_proposals at 1.
  by rewrite omap_app, app_assoc.
Qed.

(** * Properties *)

(** C37: batching accounts for every proposal, once and in order.  Take any run
    of the task, with batching on and a timeout of at least one millisecond or
    with batching off, in which the proposals together are shorter than 2^64
    bytes; a proposal may itself be a batch, may fail to serialize, and the Raft
    manager may drop its end of the channel at any point.  The task does not
    panic.  The proposals received (with batching on: those that serialize, the
    others are refused and dropped), in the order of their arrival, are first
    those handed to the Raft manager, then those lost on the closed channel,
    then those in the current batch; nothing is lost while the channel is open.
    What is handed on carries one proposal unchanged, or at least two as a batch
    within the configured number and bytes that is to answer exactly their
    clients. *)
Theorem batching_preserves_proposals config now envs events :
  (batch_enabled config = true -> batch_timeout_ms config <> 0) -> total (events_proposals events) < 2 ^ 64 ->
  exists s' groups lost, batch_run envs events (processor_new config now) = (Ok tt, s') /\
    Forall2 (carries config) (forwarded s') groups /\
    accepted config (events_proposals events) = concat groups ++ lost ++ batch_proposals (current_batch s') /\
    (raft_open s' = true -> lost = []).
Proof.
  intros Ht Hfit. set (s0 := processor_new config now).
  assert (Hok : batch_ok s0) by (unfold batch_ok, batch_len; cbn; split; [done|lia]).
  assert (Ha : accounts [] s0) by (exists [], []; by repeat constructor).
  unfold batch_run, accepted. rewrite (sbind_ok _ _ s0 s0 s0) by done. change (bp_config s0) with config.
  destruct (batch_enabled config); cbn [negb].
  - destruct (Z.eqb_spec (batch_timeout_ms config) 0); [by destruct Ht|].
    destruct (batch_loop_took envs 0 events [] s0 Hok Ha) as (s' & E & _ & (gs & lost & Hg & Hps & Hl) & C).
    { pose proof (total_filter serializable (events_proposals events)). cbn [app]. lia. }
    rewrite C in Hg. by exists s', gs, lost.
  - destruct (direct_took events [] s0 eq_refl Ha) as (s' & E & (gs & lost & Hg & Hps & Hl) & C).
    rewrite C in Hg. by exists s', gs, lost.
Qed.

(** A batch that is old enough is handed on at the next tick. *)
Theorem old_batch_is_handed_on env ps s :
  batch_ok s -> accounts ps s -> raft_open s = true -> batch_proposals (current_batch s) <> [] ->
  batch_timeout_ms (bp_config s) * 1000000 <= batch_age (be_now env) (current_batch s) ->
  exists x, snd (check_and_flush_batch env s) = push_forwarded x (set_batch (batch_new (be_created env)) s) /\
    carries (bp_config s) x (batch_proposals (current_batch s)).
Proof.
  intros Hok Ha Ho Hne Hage. destruct (flush_took env ps s Hok Ha Hne) as (r & s' & E & _ & _ & _ & Hx).
  destruct (Hx Ho) as (x & -> & Hc). exists x. split; [|done].
  unfold check_and_flush_batch, flush_batch. rewrite (sbind_ok _ _ s s s) by done.
  destruct (batch_proposals (current_batch s)) eqn:Eb; [done|]. cbn [length Nat.eqb negb andb].
  rewrite (proj2 (Z.leb_le _ _) Hage). rewrite (sbind_ok _ _ s s s) by done. by rewrite Eb, E.
Qed.

End Batching.

(** * Batches and the state machine *)

Section Machine.
Context `{Profile} `{IpNetLib} `{HashIter} `{UuidText}.
Context `{Codec TenantQuota} `{Codec NodeTopology} `{Codec TaskSpec} `{Codec TaskResult}.
Context `{Codec (string * WorkerCapabilities)} `{Codec VmState} `{Codec IpAllocation}.
Context `{Codec (list IpAddr)} `{Codec TenantUsage} `{Codec ProposalData}.

Lemma apply_in_order_app envs i ps qs s s1 :
  apply_in_order envs i ps s = (Ok tt, s1) ->
  apply_in_order envs i (ps ++ qs) s = apply_in_order envs (i + length ps) qs s1.
Proof.
  revert i s. induction ps as [|p ps IH]; intros i s; cbn [app apply_in_order length].
  - intros [= <-]. by rewrite Nat.add_0_r.
  - intros ([] & s2 & E1 & E2)%sbind_ok_inv. erewrite sbind_ok by exact E1. rewrite (IH (S i)) by done. f_equal. lia.
Qed.

(** The clients of a batch share its failure: when a proposal of a batch is
    refused, what came before it in the batch stays applied, what comes after it
    is never applied, and the client of every proposal of the batch is told that
    it failed. *)
Theorem failed_batch_misreports benv b envs env entry ps q rest s s1 e s2 :
  proposals_serialize -> Forall (fun p => is_batch p = false) (ps ++ q :: rest) ->
  map prop_data (batch_proposals b) = ps ++ q :: rest ->
  entry_data entry <> [] -> de (entry_data entry) = Some (prop_data (fst (create_batched_proposal benv b))) ->
  fault env = NoFault ->
  apply_in_order envs 0 ps s = (Ok tt, s1) -> apply_single (envs (length ps)) q s1 = (Err (Returned e), s2) ->
  apply_entry envs env entry s = (Err (Returned e), s2) /\
  distribute (Some (Err e)) (snd (create_batched_proposal benv b)) =
    map (fun c => (c, Err (Internal "Batch proposal failed"))) (omap prop_response (batch_proposals b)).
Proof.
  intros Hser Hnb Hps Hne Hd Hf E1 E2. split; [|done].
  rewrite (batch_entry_in_order envs env entry (ps ++ q :: rest)); [|done|done|done| |done].
  - rewrite (apply_in_order_app envs 0 ps (q :: rest) s s1 E1). cbn [apply_in_order Nat.add]. unfold sbind. by rewrite E2.
  - rewrite Hd. cbn. by rewrite Hps.
Qed.
End Machine.

(** * Witnesses *)

#[local] Instance demo_profile : Profile := true.
#[local] Instance demo_uuid : UuidText := fun _ => "vm".
#[local] Existing Instance prefix_nets.
#[local] Existing Instance canonical_iter.
#[local] Instance wire_net : Wire (IpNet (IpNetLib:=prefix_nets)) := wire_prod.
#[local] Existing Instance wire_codec.

Definition demo_config : BatchConfig := mkBatchConfig 2 10 1000000 true.

(** Two batches of two, the second of which holds a batch of its own; then the
    manager goes away. *)
Definition demo_events : list batch_event :=
  [Proposed (mkProposal [1] (CreateVm (VmCreate default_vm_config 1)) (Some 41)); FlushTick;
   Proposed (mkProposal [2] (CreateVm (VmStart "web")) None);
   Proposed (mkProposal [3] (Batch [CreateVm (VmStop "web")]) (Some 43));
   Proposed (mkProposal [4] (CreateVm (VmStop "web")) (Some 44)); RaftClosed;
   Proposed (mkProposal [5] (RemoveWorker 3) (Some 45))].

Definition demo_batch_env (i : nat) : BatchEnv := mkBatchEnv 0 0 [9] 99.

Lemma batching_preserves_proposals_witness :
  exists s' groups lost, batch_run demo_batch_env demo_events (processor_new demo_config 0) = (Ok tt, s') /\
    Forall2 (carries demo_config) (forwarded s') groups /\
    accepted demo_config (events_proposals demo_events) = concat groups ++ lost ++ batch_proposals (current_batch s').
Proof.
  destruct (batching_preserves_proposals demo_config 0 demo_batch_env demo_events) as (s' & gs & lost & E & Hg & Hps & _).
  - discriminate.
  - vm_compute. reflexivity.
  - by exists s', gs, lost.
Defined.

(** A VM is created and stays, although its client is told that the batch failed. *)
Definition demo_batch : ProposalBatch :=
  mkBatch [mkProposal [1] (CreateVm (VmCreate web_vm 1)) (Some 41); mkProposal [2] (RemoveWorker 3) (Some 42)] 0 0.
Definition demo_entry : Entry := entry_of (prop_data (fst (create_batched_proposal (demo_batch_env 0) demo_batch))).
Definition second_fails (i : nat) : Env :=
  if (i =? 1)%nat then mkEnv AsyncTask CommitFails NoFault 0 7 7 else task_env 7.

Lemma demo_batch_vm :
  bool_decide (is_Some (strs (database (snd (apply_entry second_fails (task_env 5) demo_entry fresh_node)))
    VM_STATE_TABLE !! "web")) = true.
Proof. vm_compute. reflexivity. Qed.

Lemma failed_batch_misreports_witness :
  let r := apply_entry second_fails (task_env 5) demo_entry fresh_node in
  fst r = Err (Returned (Storage "commit remove worker")) /\
  distribute (Some (Err (Storage "commit remove worker"))) (snd (create_batched_proposal (demo_batch_env 0) demo_batch)) =
    [(41, Err (Internal "Batch proposal failed")); (42, Err (Internal "Batch proposal failed"))] /\
  is_Some (strs (database (snd r)) VM_STATE_TABLE !! "web").
Proof.
  pose proof demo_batch_vm as Hvm. apply bool_decide_eq_true in Hvm.
  destruct (apply_in_order second_fails 0 [CreateVm (VmCreate web_vm 1)] fresh_node) as [o s1] eqn:E1.
  assert (Ho : fst (apply_in_order second_fails 0 [CreateVm (VmCreate web_vm 1)] fresh_node) = Ok tt)
    by (vm_compute; reflexivity).
  rewrite E1 in Ho. cbn [fst] in Ho. subst o.
  edestruct (failed_batch_misreports (demo_batch_env 0) demo_batch second_fails (task_env 5) demo_entry
    [CreateVm (VmCreate web_vm 1)] (RemoveWorker 3) [] fresh_node s1) as [E2 Hd].
  - intros p. exists (put p). split_and!; [done|apply put_proposal_nonempty|]. by apply (wire_codec_ok _ p (put p)).
  - by repeat constructor.
  - reflexivity.
  - apply put_proposal_nonempty.
  - apply entry_of_decodes.
  - reflexivity.
  - exact E1.
  - destruct s1. reflexivity.
  - split; [|split; [exact Hd|exact Hvm]]. cbv zeta. rewrite E2. reflexivity.
Defined.
