(* ===== verification/Scheduler.v ===== *)
(** VM placement (blixard-core/src/vm_scheduler_modules/): the resource usage
    of the nodes, read from the database, and the placement strategies.

    Database reads do not fail; a table is iterated in any order.  The hash of
    [calculate_string_hash] (the standard library does not specify it) is an
    argument.  Logging, metrics and the free text of a decision's [reason] are
    left out. *)

From Stdlib Require Import ZArith Lia List SpecFloat.
From stdpp Require Import base tactics numbers gmap strings pretty option.
From stdpp Require Import list relations.
From S2P Require Import Prelude Wire Float64 Errors AntiAffinity Types RaftCodec Proposals Codecs.
From S2P Require Import Database ResourceManagement.

Open Scope Z_scope.

(** * Requirements and node usage *)

Record VmResourceRequirements : Type := mkRequirements {
  rq_vcpus : Z;
  rq_memory_mb : Z;
  rq_disk_gb : Z;
  rq_features : list string
}.

Definition requirements_of (c : VmConfig) : VmResourceRequirements :=
  mkRequirements (vcpus c) (memory c) 5 ["microvm"].

Record NodeUtilization : Type := mkNodeUtilization {
  cpu_percent : f64;
  memory_percent : f64;
  disk_percent : f64
}.

Record NodeResourceUsage : Type := mkUsage {
  nu_id : Z;
  is_healthy : bool;
  capabilities : WorkerCapabilities;
  used_vcpus : Z;
  used_memory_mb : Z;
  used_disk_gb : Z;
  running_vms : Z;
  topology : option NodeTopology;
  cost_per_hour : option f64;
  current_utilization : NodeUtilization
}.

Definition available_vcpus (n : NodeResourceUsage) : Z := sat_sub (cpu_cores (capabilities n)) (used_vcpus n).
Definition available_memory_mb (n : NodeResourceUsage) : Z :=
  sat_sub (memory_mb (capabilities n)) (used_memory_mb n).
Definition available_disk_gb (n : NodeResourceUsage) : Z := sat_sub (disk_gb (capabilities n)) (used_disk_gb n).

Definition can_accommodate (n : NodeResourceUsage) (r : VmResourceRequirements) : bool :=
  if negb (is_healthy n) then false
  else if available_vcpus n <? rq_vcpus r then false
  else if available_memory_mb n <? rq_memory_mb r then false
  else if available_disk_gb n <? rq_disk_gb r then false
  else forallb (fun f => bool_decide (f ∈ features (capabilities n))) (rq_features r).

(** [used / total], and as a percentage; zero when there is none at all. *)
Definition fraction (used total : Z) : f64 :=
  if 0 <? total then f64_div (f64_of_Z used) (f64_of_Z total) else f64_0.
Definition percent_of (used total : Z) : f64 :=
  if 0 <? total then f64_mul (f64_div (f64_of_Z used) (f64_of_Z total)) f64_100 else f64_0.

(** Four tenths of CPU and of memory, two of disk. *)
Definition weighted (cpu memory disk : f64) : f64 :=
  f64_add (f64_add (f64_mul cpu (f64_lit 4 10)) (f64_mul memory (f64_lit 4 10))) (f64_mul disk (f64_lit 2 10)).

Definition update_utilization (n : NodeResourceUsage) : NodeResourceUsage :=
  let c := capabilities n in
  mkUsage (nu_id n) (is_healthy n) c (used_vcpus n) (used_memory_mb n) (used_disk_gb n) (running_vms n)
    (topology n) (cost_per_hour n)
    (mkNodeUtilization (percent_of (used_vcpus n) (cpu_cores c)) (percent_of (used_memory_mb n) (memory_mb c))
       (percent_of (used_disk_gb n) (disk_gb c))).

(** * Strategies *)

Inductive PreemptionPolicy : Type :=
| Never
| LowerPriorityOnly
| CostAware (max_cost_increase : f64).

Record PreemptionConfig : Type := mkPreemptionConfig {
  grace_period_secs : Z;
  try_live_migration : bool;
  preemption_policy : PreemptionPolicy
}.

Inductive PlacementStrategy : Type :=
| MostAvailable
| LeastAvailable
| RoundRobin
| Manual (node_id : Z)
| PriorityBased (base_strategy : PlacementStrategy) (enable_preemption : bool)
| LocalityAware (base_strategy : PlacementStrategy) (strict : bool)
| SpreadAcrossFailureDomains (min_domains : Z) (spread_level : string)
| CostOptimized (max_cost_increase : f64) (include_network_costs : bool).

Record PlacementDecision : Type := mkDecision {
  target_node : Z;
  strategy_used : string;
  confidence_score : f64;
  preempted_vms : list string;
  resource_fit_score : f64;
  alternative_nodes : list Z;
  selected_node_id : Z
}.

Record PreemptionCandidate : Type := mkCandidate {
  pc_vm_name : string;
  pc_priority : Z;
  pc_node_id : Z;
  resources_freed : VmResourceRequirements;
  preemption_cost : f64
}.

Record SchedulingContext : Type := mkContext {
  requirements : VmResourceRequirements;
  node_usage : list NodeResourceUsage;
  anti_affinity_checker : option AntiAffinityChecker
}.

Definition no_suitable : BlixardError := SchedulingError "No suitable nodes found for VM placement".

(** The stable [sort_by] on a key; incomparable keys count as equal. *)
Fixpoint sort_insert {A} (key : A -> f64) (x : A) (l : list A) : list A :=
  match l with
  | [] => [x]
  | y :: l' => match cmp_f64 (key y) (key x) with
               | Gt => x :: y :: l'
               | _ => y :: sort_insert key x l'
               end
  end.
Definition sort_by_key {A} (key : A -> f64) (l : list A) : list A :=
  foldl (fun acc x => sort_insert key x acc) [] l.

Section Scheduling.
Context `{Profile} (string_hash : string -> Z).

(** The subtractions overflow on a node that is used beyond its capacity. *)
Definition available_fraction (total used : Z) (w : Z) : BlixardResult f64 :=
  if 0 <? total then
    let? free := arith_u w (total - used) in
    Ok (f64_div (f64_of_Z free) (f64_of_Z total))
  else Ok f64_0.

Definition calculate_availability_score (n : NodeResourceUsage) : BlixardResult f64 :=
  if negb (is_healthy n) then Ok f64_0
  else
    let c := capabilities n in
    let? cpu := available_fraction (cpu_cores c) (used_vcpus n) 32 in
    let? mem := available_fraction (memory_mb c) (used_memory_mb n) 64 in
    let? disk := available_fraction (disk_gb c) (used_disk_gb n) 64 in
    Ok (f64_mul (weighted cpu mem disk) f64_100).

Definition placement_score (n : NodeResourceUsage) (strategy : PlacementStrategy) : BlixardResult f64 :=
  if negb (is_healthy n) then Ok f64_0
  else
    let c := capabilities n in
    match strategy with
    | LeastAvailable =>
        Ok (weighted (fraction (used_vcpus n) (cpu_cores c)) (fraction (used_memory_mb n) (memory_mb c))
              (fraction (used_disk_gb n) (disk_gb c)))
    | RoundRobin => Ok (f64_div f64_1 (f64_add f64_1 (f64_of_Z (running_vms n))))
    | Manual node_id => Ok (if nu_id n =? node_id then f64_1 else f64_0)
    | _ => let? s := calculate_availability_score n in Ok (f64_div s f64_100)
    end.

(** [reduce] by the comparison of the scores: whether the element found so far is
    kept against the next one.  [max_by] keeps the later of equal elements,
    [min_by] the earlier. *)
Fixpoint best_by_score (keep : comparison -> bool) (best : NodeResourceUsage) (l : list NodeResourceUsage)
    : BlixardResult NodeResourceUsage :=
  match l with
  | [] => Ok best
  | n :: l' =>
      let? a := calculate_availability_score best in
      let? b := calculate_availability_score n in
      best_by_score keep (if keep (cmp_f64 a b) then best else n) l'
  end.
Definition max_by_score := best_by_score (fun c => match c with Gt => true | _ => false end).
Definition min_by_score := best_by_score (fun c => match c with Gt => false | _ => true end).

Definition calculate_resource_fit_score (n : NodeResourceUsage) (r : VmResourceRequirements) : f64 :=
  let c := capabilities n in
  let cpu_fit := f64_div (f64_of_Z (rq_vcpus r)) (f64_of_Z (cpu_cores c)) in
  let memory_fit := f64_div (f64_of_Z (rq_memory_mb r)) (f64_of_Z (memory_mb c)) in
  let disk_fit := f64_div (f64_of_Z (rq_disk_gb r)) (f64_of_Z (disk_gb c)) in
  let fit_score := f64_div (f64_add (f64_add cpu_fit memory_fit) disk_fit) (f64_of_Z 3) in
  f64_mul (f64_max (f64_sub f64_1 fit_score) f64_0) f64_100.

(** The node passes the resource check, and the anti-affinity check if the
    context has a checker and the VM has rules. *)
Definition passes_anti_affinity (ctx : SchedulingContext) (c : VmConfig) (node_id : Z) : bool :=
  match anti_affinity_checker ctx, anti_affinity c with
  | Some checker, Some rules => is_ok (check_placement checker (vm_name c) node_id rules)
  | _, _ => true
  end.

Definition filter_candidate_nodes (ctx : SchedulingContext) (c : VmConfig) : list NodeResourceUsage :=
  List.filter (fun n => passes_anti_affinity ctx c (nu_id n))
    (List.filter (fun n => can_accommodate n (requirements ctx)) (node_usage ctx)).

(** Up to three other nodes. *)
Definition others (best : Z) (ids : list Z) : list Z :=
  firstn 3 (List.filter (fun i => negb (i =? best)) ids).

Definition apply_most_available_strategy (ctx : SchedulingContext) (c : VmConfig)
    : BlixardResult PlacementDecision :=
  match filter_candidate_nodes ctx c with
  | [] => Err no_suitable
  | n :: l =>
      let? best := max_by_score n l in
      let? confidence := calculate_availability_score best in
      Ok (mkDecision (nu_id best) "MostAvailable" confidence []
            (calculate_resource_fit_score best (requirements ctx))
            (others (nu_id best) (map nu_id (firstn 4 (n :: l)))) (nu_id best))
  end.

Definition apply_least_available_strategy (ctx : SchedulingContext) (c : VmConfig)
    : BlixardResult PlacementDecision :=
  match filter_candidate_nodes ctx c with
  | [] => Err no_suitable
  | n :: l =>
      let? best := min_by_score n l in
      let? score := calculate_availability_score best in
      Ok (mkDecision (nu_id best) "LeastAvailable" (f64_sub f64_100 score) []
            (calculate_resource_fit_score best (requirements ctx))
            (others (nu_id best) (map nu_id (n :: l))) (nu_id best))
  end.

Definition apply_round_robin_strategy (ctx : SchedulingContext) (c : VmConfig)
    : BlixardResult PlacementDecision :=
  match filter_candidate_nodes ctx c with
  | [] => Err no_suitable
  | n :: l =>
      let selected_index := Z.to_nat (string_hash (vm_name c) mod Z.of_nat (length (n :: l))) in
      let best := List.nth selected_index (n :: l) n in
      Ok (mkDecision (nu_id best) "RoundRobin" (f64_of_Z 75) []
            (calculate_resource_fit_score best (requirements ctx))
            (others (nu_id best) (map nu_id (n :: l))) (nu_id best))
  end.

Definition apply_manual_strategy (ctx : SchedulingContext) (c : VmConfig) (target : Z)
    : BlixardResult PlacementDecision :=
  match List.find (fun n => nu_id n =? target) (node_usage ctx) with
  | None => Err (SchedulingError ("Target node " +:+ pretty target +:+ " not found"))
  | Some n =>
      if negb (can_accommodate n (requirements ctx))
      then Err (SchedulingError ("Target node " +:+ pretty target +:+ " cannot accommodate VM requirements"))
      else if negb (passes_anti_affinity ctx c target)
      then Err (SchedulingError "Anti-affinity violation")
      else Ok (mkDecision target "Manual" f64_100 []
                 (calculate_resource_fit_score n (requirements ctx)) [] target)
  end.

Definition calculate_placement_cost (n : NodeResourceUsage) : f64 := default f64_1 (cost_per_hour n).

Definition apply_cost_optimized_strategy (ctx : SchedulingContext) (c : VmConfig) (max_cost_increase : f64)
    : BlixardResult PlacementDecision :=
  let candidates := filter_candidate_nodes ctx c in
  match candidates with
  | [] => Err no_suitable
  | _ =>
      let node_costs := sort_by_key snd (map (fun n => (nu_id n, calculate_placement_cost n)) candidates) in
      match node_costs with
      | [] => Err (SchedulingError "Failed to calculate costs for any candidate nodes")
      | cheapest :: _ =>
          let max_allowed := f64_mul (snd cheapest)
                               (f64_add f64_1 (f64_div max_cost_increase f64_100)) in
          let best := default cheapest (List.find (fun nc => f64_leb (snd nc) max_allowed) node_costs) in
          match List.find (fun n => nu_id n =? fst best) candidates with
          | None => Err (SchedulingError ("Node " +:+ pretty (fst best) +:+
                           " not found in candidate nodes after cost calculation"))
          | Some n =>
              Ok (mkDecision (fst best) "CostOptimized"
                    (f64_sub f64_100
                       (f64_mul (f64_div (f64_sub (snd best) (snd cheapest)) (snd cheapest)) f64_100)) []
                    (calculate_resource_fit_score n (requirements ctx))
                    (others (fst best) (map fst node_costs)) (fst best))
          end
      end
  end.

(** ** The strategies that are placeholders in the code *)

Definition apply_preemption_strategy : BlixardResult PlacementDecision :=
  Err (SchedulingError "Preemption not yet implemented").
Definition filter_by_locality (ctx : SchedulingContext) (_strict : bool) : BlixardResult SchedulingContext :=
  Ok ctx.
Definition group_nodes_by_domain (_ctx : SchedulingContext) (_spread_level : string)
    : gmap string (list Z) := ∅.
Definition find_best_spread_domain (_groups : gmap string (list Z)) (_c : VmConfig) : BlixardResult string :=
  Err (SchedulingError "Domain spread not yet implemented").
Definition filter_context_by_domain (ctx : SchedulingContext) (_domain _spread_level : string)
    : SchedulingContext := ctx.

Definition apply_spread_strategy (ctx : SchedulingContext) (c : VmConfig) (min_domains : Z)
    (spread_level : string) : BlixardResult PlacementDecision :=
  let domain_groups := group_nodes_by_domain ctx spread_level in
  if Z.of_nat (size domain_groups) <? min_domains
  then Err (SchedulingError ("Not enough failure domains available: " +:+ pretty min_domains +:+
              " required, " +:+ pretty (Z.of_nat (size domain_groups)) +:+ " found"))
  else
    let? best_domain := find_best_spread_domain domain_groups c in
    apply_most_available_strategy (filter_context_by_domain ctx best_domain spread_level) c.

(** Given what the base strategy answers. *)
Definition apply_priority_based_strategy (base : BlixardResult PlacementDecision) (enable_preemption : bool)
    : BlixardResult PlacementDecision :=
  match base with
  | Err e => if enable_preemption then apply_preemption_strategy else Err e
  | o => o
  end.

Definition apply_locality_aware_strategy (ctx : SchedulingContext) (strict : bool)
    (base : SchedulingContext -> BlixardResult PlacementDecision) : BlixardResult PlacementDecision :=
  let? ctx' := filter_by_locality ctx strict in base ctx'.

Fixpoint apply_placement_strategy (ctx : SchedulingContext) (c : VmConfig) (strategy : PlacementStrategy)
    : BlixardResult PlacementDecision :=
  match strategy with
  | MostAvailable => apply_most_available_strategy ctx c
  | LeastAvailable => apply_least_available_strategy ctx c
  | RoundRobin => apply_round_robin_strategy ctx c
  | Manual node_id => apply_manual_strategy ctx c node_id
  | PriorityBased base enable_preemption =>
      apply_priority_based_strategy (apply_placement_strategy ctx c base) enable_preemption
  | LocalityAware base strict =>
      apply_locality_aware_strategy ctx strict (fun ctx' => apply_placement_strategy ctx' c base)
  | SpreadAcrossFailureDomains min_domains spread_level => apply_spread_strategy ctx c min_domains spread_level
  | CostOptimized max_cost_increase _ => apply_cost_optimized_strategy ctx c max_cost_increase
  end.
End Scheduling.

(** * The cluster's state *)

Record ClusterResourceSummary : Type := mkClusterSummary {
  total_nodes : Z;
  healthy_nodes : Z;
  total_vcpus : Z;
  cs_used_vcpus : Z;
  total_memory_mb : Z;
  cs_used_memory_mb : Z;
  total_disk_gb : Z;
  cs_used_disk_gb : Z;
  total_running_vms : Z;
  average_cpu_utilization : f64;
  average_memory_utilization : f64;
  average_disk_utilization : f64;
  summary_nodes : list NodeResourceUsage
}.

Definition empty_cluster_summary : ClusterResourceSummary :=
  mkClusterSummary 0 0 0 0 0 0 0 0 0 f64_0 f64_0 f64_0 [].

Definition utilization_percentages (s : ClusterResourceSummary) : f64 * f64 * f64 :=
  (percent_of (cs_used_vcpus s) (total_vcpus s), percent_of (cs_used_memory_mb s) (total_memory_mb s),
   percent_of (cs_used_disk_gb s) (total_disk_gb s)).

(** [DatacenterLatencyMap] and the scheduler. *)
Record VmScheduler : Type := mkScheduler {
  sched_database : Database;
  resource_manager : ClusterResourceManager;
  datacenter_latencies : gmap (string * string) Z
}.

Definition with_overcommit_policy (db : Database) (policy : OvercommitPolicy) : VmScheduler :=
  mkScheduler db (cluster_new policy) ∅.
Definition scheduler_new (db : Database) : VmScheduler := with_overcommit_policy db policy_moderate.

Definition update_datacenter_latency (dc1 dc2 : string) (latency_ms : Z) (s : VmScheduler) : VmScheduler :=
  mkScheduler (sched_database s) (resource_manager s)
    (<[(dc2, dc1) := latency_ms]> (<[(dc1, dc2) := latency_ms]> (datacenter_latencies s))).
Definition get_datacenter_latency (dc1 dc2 : string) (s : VmScheduler) : option Z :=
  datacenter_latencies s !! (dc1, dc2).

Section Analysis.
Context `{Profile} `{HashIter} `{Codec VmConfig} `{Codec WorkerCapabilities} `{Codec WorkerStatus}.
Context (string_hash : string -> Z).

Definition decode_vm (data : bytes) : BlixardResult VmConfig :=
  ok_or (Serialization "deserialize VM config") (de (A:=VmConfig) data).

(** The VMs' vCPUs, memory, disk and number: every VM in the table counts. *)
Definition add_vm_usage (acc : Z * Z * Z * Z) (kv : string * bytes) : BlixardResult (Z * Z * Z * Z) :=
  let '(cpu, mem, disk, vms) := acc in
  let? c := decode_vm (snd kv) in
  let? cpu := arith_u 32 (cpu + vcpus c) in
  let? mem := arith_u 64 (mem + memory c) in
  let? disk := arith_u 64 (disk + 5) in
  let? vms := arith_u 32 (vms + 1) in
  Ok (cpu, mem, disk, vms).

Definition calculate_node_resource_usage (db : Database) (_node_id : Z) : BlixardResult (Z * Z * Z * Z) :=
  ofold add_vm_usage (0, 0, 0, 0) (hash_iter (strs db VM_STATE_TABLE)).

Definition node_health (db : Database) (node_id : Z) : BlixardResult bool :=
  match byts db WORKER_STATUS_TABLE !! to_be_bytes node_id with
  | Some data =>
      let? s := ok_or (Serialization "deserialize worker status") (de (A:=WorkerStatus) data) in
      Ok (match s with Online => true | _ => false end)
  | None => Ok false
  end.

Definition usage_of_worker (db : Database) (entry : bytes * bytes) : BlixardResult NodeResourceUsage :=
  let? node_id := ok_or (Serialization "parse node ID") (from_be_bytes (fst entry)) in
  let? caps := ok_or (Serialization "deserialize worker capabilities") (de (A:=WorkerCapabilities) (snd entry)) in
  let? healthy := node_health db node_id in
  let? (cpu, mem, disk, vms) := calculate_node_resource_usage db node_id in
  Ok (update_utilization
        (mkUsage node_id healthy caps cpu mem disk vms None None (mkNodeUtilization f64_0 f64_0 f64_0))).

Definition get_cluster_resource_usage (db : Database) : BlixardResult (list NodeResourceUsage) :=
  otraverse (usage_of_worker db) (hash_iter (byts db WORKER_TABLE)).

(** Every VM with an affinity group is taken to be on node 0. *)
Definition placement_of (kv : string * bytes) : BlixardResult (option Placement) :=
  let? c := decode_vm (snd kv) in
  Ok (match metadata c ≫= (fun m => m !! "affinity-group") with
      | Some group => Some (fst kv, [group], 0)
      | None => None
      end).

Definition build_anti_affinity_checker (db : Database) : BlixardResult AntiAffinityChecker :=
  let? placements := otraverse placement_of (hash_iter (strs db VM_STATE_TABLE)) in
  Ok (checker_new (omap id placements)).

Definition collect_cluster_state (db : Database) (r : VmResourceRequirements) (c : VmConfig)
    : BlixardResult SchedulingContext :=
  let? usage := get_cluster_resource_usage db in
  match usage with
  | [] => Err (SchedulingError "No healthy worker nodes available for VM placement")
  | _ =>
      let? checker := match anti_affinity c with
                      | Some _ => let? k := build_anti_affinity_checker db in Ok (Some k)
                      | None => Ok None
                      end in
      Ok (mkContext r usage checker)
  end.

Definition schedule_vm_placement (s : VmScheduler) (c : VmConfig) (strategy : PlacementStrategy)
    : BlixardResult PlacementDecision :=
  let? ctx := collect_cluster_state (sched_database s) (requirements_of c) c in
  apply_placement_strategy string_hash ctx c strategy.

(** [Iterator::sum] on a [w]-bit type. *)
Definition sum_u {A} (w : Z) (f : A -> Z) (l : list A) : BlixardResult Z :=
  ofold (fun acc x => arith_u w (acc + f x)) 0 l.

Definition get_cluster_resource_summary (s : VmScheduler) : BlixardResult ClusterResourceSummary :=
  let? usage := get_cluster_resource_usage (sched_database s) in
  match usage with
  | [] => Ok empty_cluster_summary
  | _ =>
      let? tc := sum_u 32 (fun n => cpu_cores (capabilities n)) usage in
      let? uc := sum_u 32 used_vcpus usage in
      let? tm := sum_u 64 (fun n => memory_mb (capabilities n)) usage in
      let? um := sum_u 64 used_memory_mb usage in
      let? td := sum_u 64 (fun n => disk_gb (capabilities n)) usage in
      let? ud := sum_u 64 used_disk_gb usage in
      let? vms := sum_u 32 running_vms usage in
      Ok (mkClusterSummary (wrap_u 32 (Z.of_nat (length usage)))
            (wrap_u 32 (Z.of_nat (length (List.filter is_healthy usage)))) tc uc tm um td ud vms
            (percent_of uc tc) (percent_of um tm) (percent_of ud td) usage)
  end.
End Analysis.

(** * Specifications *)

(** A node that the strategies may choose for a VM. *)
Definition candidate (ctx : SchedulingContext) (c : VmConfig) (n : NodeResourceUsage) : Prop :=
  n ∈ node_usage ctx /\ can_accommodate n (requirements ctx) = true /\ passes_anti_affinity ctx c (nu_id n) = true.

(** The counters of a node are unsigned integers of their widths. *)
Definition usage_ok (n : NodeResourceUsage) : Prop :=
  0 <= cpu_cores (capabilities n) < 2 ^ 32 /\ 0 <= memory_mb (capabilities n) < 2 ^ 64 /\
  0 <= disk_gb (capabilities n) < 2 ^ 64 /\ 0 <= used_vcpus n /\ 0 <= used_memory_mb n /\ 0 <= used_disk_gb n.

(** A VM needs something of each resource. *)
Definition requirements_ok (r : VmResourceRequirements) : Prop :=
  1 <= rq_vcpus r /\ 1 <= rq_memory_mb r /\ 1 <= rq_disk_gb r.

(** The strategies that choose among the candidates. *)
Definition chooses (strategy : PlacementStrategy) : bool :=
  match strategy with
  | MostAvailable | LeastAvailable | RoundRobin | CostOptimized _ _ => true
  | _ => false
  end.

(** * Lemmas *)

Section Lemmas.
Context `{Profile} (string_hash : string -> Z).

Lemma elem_of_candidates ctx c n : n ∈ filter_candidate_nodes ctx c <-> candidate ctx c n.
Proof.
  unfold filter_candidate_nodes, candidate. rewrite !list_elem_of_In, !filter_In, <- list_elem_of_In.
  naive_solver.
Qed.

(** The score of a candidate is a number, and computing it does not overflow. *)
Lemma fraction_ok total used w need :
  0 <= total < 2 ^ w -> w <= 64 -> 0 <= used -> 1 <= need -> (sat_sub total used <? need) = false ->
  exists x, available_fraction total used w = Ok x /\ f64_pos x.
Proof.
  intros Ht Hw Hu Hn Hs. unfold sat_sub in Hs. bools. unfold available_fraction.
  destruct (Z.ltb_spec 0 total); [|by eexists]. rewrite arith_u_fits by lia. eexists. split; [done|].
  assert (2 ^ w <= 2 ^ 64) by (apply Z.pow_le_mono_r; lia).
  apply f64_div_pos; [apply f64_of_Z_pos|apply f64_of_Z_finite]; lia.
Qed.

Lemma weighted_pos x y z : f64_pos x -> f64_pos y -> f64_pos z -> f64_pos (weighted x y z).
Proof.
  intros Hx Hy Hz. unfold weighted.
  apply f64_add_pos; [apply f64_add_pos|]; (apply f64_mul_pos; [assumption|vm_compute; exact I]).
Qed.

Lemma score_ok n r :
  usage_ok n -> requirements_ok r -> can_accommodate n r = true ->
  exists x, calculate_availability_score n = Ok x /\ f64_pos x.
Proof.
  intros (Hc & Hm & Hd & Huc & Hum & Hud) (Hrc & Hrm & Hrd) Ha. unfold can_accommodate in Ha.
  unfold calculate_availability_score. destruct (is_healthy n); [|done]. simpl negb in *. cbv iota in *.
  destruct (available_vcpus n <? rq_vcpus r) eqn:E1; [done|].
  destruct (available_memory_mb n <? rq_memory_mb r) eqn:E2; [done|].
  destruct (available_disk_gb n <? rq_disk_gb r) eqn:E3; [done|].
  destruct (fraction_ok _ _ 32 _ Hc ltac:(lia) Huc Hrc E1) as (x & -> & Hx).
  destruct (fraction_ok _ _ 64 _ Hm ltac:(lia) Hum Hrm E2) as (y & -> & Hy).
  destruct (fraction_ok _ _ 64 _ Hd ltac:(lia) Hud Hrd E3) as (z & -> & Hz).
  eexists. split; [done|]. apply f64_mul_pos; [by apply weighted_pos|done].
Qed.

(** The order of the availability scores. *)
Definition score_le (m n : NodeResourceUsage) : Prop :=
  forall x y, calculate_availability_score m = Ok x -> calculate_availability_score n = Ok y -> cmp_f64 x y <> Gt.

Definition scored (n : NodeResourceUsage) : Prop :=
  exists x, calculate_availability_score n = Ok x /\ f64_pos x.

Lemma score_le_refl n : score_le n n.
Proof.
  intros x y Hx Hy. assert (y = x) as -> by congruence. intros E.
  pose proof (cmp_f64_flip x x) as F. rewrite E in F. done.
Qed.

Lemma score_le_trans l m n : scored m -> score_le l m -> score_le m n -> score_le l n.
Proof.
  intros (y & Hy & Hp) H1 H2 x z Hx Hz.
  eapply cmp_f64_trans; [apply f64_pos_not_nan, Hp|by eapply H1|by eapply H2].
Qed.

(** [best_by_score] finds an element that every other one is [R]-below, if the
    comparison decides [R]. *)
Lemma best_by_score_spec (R : NodeResourceUsage -> NodeResourceUsage -> Prop) keep best l :
  (forall n, R n n) -> (forall a b c, scored b -> R a b -> R b c -> R a c) ->
  (forall a b x y, calculate_availability_score a = Ok x -> calculate_availability_score b = Ok y ->
     if keep (cmp_f64 x y) : bool then R b a else R a b) ->
  scored best -> Forall scored l ->
  exists n, best_by_score keep best l = Ok n /\ n ∈ best :: l /\ forall m, m ∈ best :: l -> R m n.
Proof.
  intros Hrefl Htrans Hkeep. revert best. induction l as [|k l IH]; intros best Hb Hl; cbn [best_by_score].
  { exists best. split_and!; [done|left|]. intros m ->%list_elem_of_singleton. apply Hrefl. }
  apply Forall_cons in Hl as [Hk Hl]. pose proof Hb as (x & Hx & _). pose proof Hk as (y & Hy & _).
  specialize (Hkeep best k x y Hx Hy) as Hc. rewrite Hx, Hy. cbn [obind].
  set (b' := if keep (cmp_f64 x y) then best else k).
  assert (scored b' /\ b' ∈ best :: k :: l /\ R best b' /\ R k b') as (Hb' & Hin' & H1 & H2).
  { unfold b'. destruct (keep _); split_and!; auto; [left|right; left]. }
  destruct (IH b' Hb' Hl) as (n & Hn & Hin & Hmax).
  assert (R b' n) by (apply Hmax; left). exists n. split_and!; [done| |].
  - apply elem_of_cons in Hin as [->|]; [done|right; by right].
  - intros m [->|[->|Hm]%elem_of_cons]%elem_of_cons; [by eapply Htrans..|]. apply Hmax. by right.
Qed.

Lemma max_by_score_spec best l :
  scored best -> Forall scored l ->
  exists n, max_by_score best l = Ok n /\ n ∈ best :: l /\ forall m, m ∈ best :: l -> score_le m n.
Proof.
  apply best_by_score_spec; [apply score_le_refl|intros; by eapply score_le_trans|].
  intros a b x y Hx Hy. destruct (cmp_f64 x y) eqn:E; intros u v Hu Hv; try congruence.
  assert (u = y) as -> by congruence. assert (v = x) as -> by congruence. by rewrite cmp_f64_flip, E.
Qed.

Lemma min_by_score_spec best l :
  scored best -> Forall scored l ->
  exists n, min_by_score best l = Ok n /\ n ∈ best :: l /\ forall m, m ∈ best :: l -> score_le n m.
Proof.
  apply (best_by_score_spec (fun m n => score_le n m)); [apply score_le_refl|intros; by eapply score_le_trans|].
  intros a b x y Hx Hy. destruct (cmp_f64 x y) eqn:E; intros u v Hu Hv; try congruence.
  assert (u = y) as -> by congruence. assert (v = x) as -> by congruence. by rewrite cmp_f64_flip, E.
Qed.

(** ** Lists *)

Lemma others_ok best ids i : i ∈ others best ids -> i ∈ ids /\ i <> best.
Proof.
  unfold others. set (l := List.filter _ ids). intros Hi. assert (i ∈ l) as Hl.
  { rewrite <- (firstn_skipn 3 l). apply elem_of_app. by left. }
  apply list_elem_of_In, filter_In in Hl as [Hl Hb]. rewrite list_elem_of_In. bools. done.
Qed.

Lemma sort_insert_perm {A} (key : A -> f64) x l : sort_insert key x l ≡ₚ x :: l.
Proof.
  induction l as [|y l IH]; simpl; [done|]. destruct (cmp_f64 _ _); try done; rewrite IH; apply Permutation_swap.
Qed.

Lemma sort_by_key_perm {A} (key : A -> f64) l : sort_by_key key l ≡ₚ l.
Proof.
  unfold sort_by_key. change l with ([] ++ l) at 2. generalize (@nil A) as acc.
  induction l as [|x l IH]; intros acc; simpl; [by rewrite app_nil_r|].
  rewrite IH, sort_insert_perm. apply Permutation_middle.
Qed.

Lemma find_id_candidate (l : list NodeResourceUsage) i n :
  List.find (fun n => nu_id n =? i) l = Some n -> n ∈ l /\ nu_id n = i.
Proof. intros [Hin Hi]%find_some. bools. by rewrite list_elem_of_In. Qed.

Lemma find_id_some (l : list NodeResourceUsage) i :
  i ∈ map nu_id l -> is_Some (List.find (fun n => nu_id n =? i) l).
Proof.
  intros (n & -> & Hn)%list_elem_of_fmap. destruct (List.find _ l) eqn:E; [by eexists|].
  apply list_elem_of_In in Hn. pose proof (find_none _ _ E n Hn). simpl in *. bools. done.
Qed.

(** What every strategy's decision is. *)
Definition decision_ok (ctx : SchedulingContext) (c : VmConfig) (d : PlacementDecision) : Prop :=
  (exists n, candidate ctx c n /\ nu_id n = target_node d) /\
  selected_node_id d = target_node d /\ preempted_vms d = [] /\ (length (alternative_nodes d) <= 3)%nat /\
  forall i, i ∈ alternative_nodes d -> i <> target_node d /\ exists n, candidate ctx c n /\ nu_id n = i.

Lemma others_length best ids : (length (others best ids) <= 3)%nat.
Proof. unfold others. rewrite length_firstn. lia. Qed.

Lemma decision_among ctx c best name conf fit ids :
  (exists n, candidate ctx c n /\ nu_id n = best) ->
  (forall i, i ∈ ids -> exists n, candidate ctx c n /\ nu_id n = i) ->
  decision_ok ctx c (mkDecision best name conf [] fit (others best ids) best).
Proof.
  intros Hb Hids. unfold decision_ok. simpl. split_and!; [done|done|done|apply others_length|].
  intros i [Hi Hne]%others_ok. auto.
Qed.

Lemma candidates_ids ctx c l :
  (forall n, n ∈ l -> candidate ctx c n) -> forall i, i ∈ map nu_id l -> exists n, candidate ctx c n /\ nu_id n = i.
Proof. intros Hl i (n & -> & Hn)%list_elem_of_fmap. eauto. Qed.

Lemma best_by_score_in keep best l n : best_by_score keep best l = Ok n -> n ∈ best :: l.
Proof.
  revert best. induction l as [|k l IH]; intros best; cbn [best_by_score]; [intros [= <-]; left|].
  intros (x & _ & (y & _ & E)%obind_ok)%obind_ok. apply IH in E.
  destruct (keep _); apply elem_of_cons in E as [->|E]; [left|right; by right|right; left|right; by right].
Qed.

Lemma node_costs_in ctx c i :
  i ∈ map fst (sort_by_key snd (map (fun n => (nu_id n, calculate_placement_cost n)) (filter_candidate_nodes ctx c))) ->
  i ∈ map nu_id (filter_candidate_nodes ctx c).
Proof.
  intros (p & -> & Hp)%list_elem_of_fmap. rewrite sort_by_key_perm in Hp.
  apply list_elem_of_fmap in Hp as (n & -> & Hn). by apply (list_elem_of_fmap_2 nu_id).
Qed.

Lemma most_available_sound ctx c d : apply_most_available_strategy ctx c = Ok d -> decision_ok ctx c d.
Proof.
  pose proof (elem_of_candidates ctx c) as Hc. unfold apply_most_available_strategy.
  destruct (filter_candidate_nodes ctx c) as [|n l]; [done|].
  intros (best & Hb & (x & Hx & [= <-])%obind_ok)%obind_ok. apply best_by_score_in in Hb.
  apply decision_among; [exists best; by rewrite <- Hc|]. apply (candidates_ids ctx c (firstn 4 (n :: l))).
  intros k Hk. apply Hc. rewrite <- (firstn_skipn 4 (n :: l)). apply elem_of_app. by left.
Qed.

Lemma least_available_sound ctx c d : apply_least_available_strategy ctx c = Ok d -> decision_ok ctx c d.
Proof.
  pose proof (elem_of_candidates ctx c) as Hc. unfold apply_least_available_strategy.
  destruct (filter_candidate_nodes ctx c) as [|n l]; [done|].
  intros (best & Hb & (x & Hx & [= <-])%obind_ok)%obind_ok. apply best_by_score_in in Hb.
  apply decision_among; [exists best; by rewrite <- Hc|]. apply (candidates_ids ctx c (n :: l)). intros k. apply Hc.
Qed.

Lemma round_robin_sound ctx c d : apply_round_robin_strategy string_hash ctx c = Ok d -> decision_ok ctx c d.
Proof.
  pose proof (elem_of_candidates ctx c) as Hc. unfold apply_round_robin_strategy.
  destruct (filter_candidate_nodes ctx c) as [|n l]; [done|].
  set (i := Z.to_nat _). set (best := nth i (n :: l) n). intros [= <-].
  apply decision_among; [|apply (candidates_ids ctx c (n :: l)); intros k; apply Hc].
  exists best. split; [|done]. apply Hc, list_elem_of_In, nth_In. unfold i.
  pose proof (Z.mod_pos_bound (string_hash (vm_name c)) (Z.of_nat (length (n :: l)))). simpl length in *. lia.
Qed.

Lemma manual_sound ctx c t d : apply_manual_strategy ctx c t = Ok d -> decision_ok ctx c d.
Proof.
  unfold apply_manual_strategy. destruct (List.find _ _) as [n|] eqn:E; [|done].
  apply find_id_candidate in E as [Hin <-]. destruct (can_accommodate _ _) eqn:Ea; [|done].
  destruct (passes_anti_affinity _ _ _) eqn:Ep; [|done]. intros [= <-].
  apply (decision_among ctx c _ _ _ _ []); [by exists n|]. intros i Hi. by apply elem_of_nil in Hi.
Qed.

Lemma cost_optimized_sound ctx c m d : apply_cost_optimized_strategy ctx c m = Ok d -> decision_ok ctx c d.
Proof.
  pose proof (elem_of_candidates ctx c) as Hc. pose proof (node_costs_in ctx c) as Hids.
  unfold apply_cost_optimized_strategy. set (cs := filter_candidate_nodes ctx c) in *.
  destruct (sort_by_key _ _) as [|cheap l]; [by destruct cs|]. set (best := default cheap _).
  destruct (List.find _ cs) as [n|] eqn:Ef; [|by destruct cs].
  apply find_id_candidate in Ef as [Hin Hid]. intros E.
  assert (d = mkDecision (fst best) "CostOptimized"
    (f64_sub f64_100 (f64_mul (f64_div (f64_sub (snd best) (snd cheap)) (snd cheap)) f64_100)) []
    (calculate_resource_fit_score n (requirements ctx)) (others (fst best) (map fst (cheap :: l))) (fst best)) as ->.
  { destruct cs; [by apply elem_of_nil in Hin|congruence]. }
  apply decision_among; [exists n; by rewrite <- Hc|]. intros i Hi.
  apply (candidates_ids ctx c cs); [intros k; apply Hc|by apply Hids].
Qed.

Lemma strategy_sound ctx c strategy d :
  apply_placement_strategy string_hash ctx c strategy = Ok d -> decision_ok ctx c d.
Proof.
  revert d. induction strategy as [| | |t|b IH p|b IH st|m l|m inc]; intros d; cbn [apply_placement_strategy];
    unfold apply_priority_based_strategy.
  - apply most_available_sound.
  - apply least_available_sound.
  - apply round_robin_sound.
  - apply manual_sound.
  - destruct (apply_placement_strategy _ _ _ b) eqn:E; [|by destruct p|done]. intros [= <-]. auto.
  - simpl. apply IH.
  - unfold apply_spread_strategy. by destruct (_ <? _).
  - apply cost_optimized_sound.
Qed.

(** ** Completeness *)

Context (ctx : SchedulingContext) (c : VmConfig).
Context (Hreq : requirements_ok (requirements ctx)) (Husage : forall n, n ∈ node_usage ctx -> usage_ok n).

Lemma candidates_scored : Forall scored (filter_candidate_nodes ctx c).
Proof.
  apply Forall_forall. intros n (Hin & Ha & _)%elem_of_candidates. eapply score_ok; eauto.
Qed.

(** The element found by either [best_by_score] is scored. *)
Lemma best_scored keep n l b :
  Forall scored (n :: l) -> best_by_score keep n l = Ok b -> exists x, calculate_availability_score b = Ok x.
Proof.
  rewrite Forall_forall. intros Hs Hb%best_by_score_in. destruct (Hs b Hb) as (x & Hx & _). by eexists.
Qed.

Lemma cost_optimized_complete m :
  filter_candidate_nodes ctx c <> [] -> exists d, apply_cost_optimized_strategy ctx c m = Ok d.
Proof.
  unfold apply_cost_optimized_strategy. pose proof (node_costs_in ctx c) as Hids.
  set (cs := filter_candidate_nodes ctx c) in *. intros Hne.
  destruct (sort_by_key _ _) as [|cheap l] eqn:Es.
  { exfalso. apply Hne. assert (map (fun n => (nu_id n, calculate_placement_cost n)) cs = []) as Hm.
    { apply Permutation_nil_r. rewrite <- Es. symmetry. apply sort_by_key_perm. }
    by apply map_eq_nil in Hm. }
  set (best := default cheap _).
  assert (best ∈ cheap :: l) as Hb.
  { unfold best. destruct (List.find _ (cheap :: l)) eqn:Ef; [|left].
    apply find_some in Ef as [Hf _]. by apply list_elem_of_In. }
  destruct (find_id_some cs (fst best)) as [n ->]; [|destruct cs; [done|by eexists]].
  apply Hids. by apply (list_elem_of_fmap_2 fst).
Qed.

Lemma choosing_complete strategy :
  chooses strategy = true -> filter_candidate_nodes ctx c <> [] ->
  exists d, apply_placement_strategy string_hash ctx c strategy = Ok d.
Proof.
  pose proof candidates_scored as Hs. intros Hc Hne.
  destruct strategy; try done; cbn [apply_placement_strategy]; [| | |by apply cost_optimized_complete].
  - unfold apply_most_available_strategy. destruct (filter_candidate_nodes ctx c) as [|n l]; [done|].
    pose proof Hs as [Hn Hl]%Forall_cons. destruct (max_by_score_spec n l Hn Hl) as (b & Eb & _).
    destruct (best_scored _ _ _ _ Hs Eb) as [x Hx]. rewrite Eb. cbn [obind]. rewrite Hx. by eexists.
  - unfold apply_least_available_strategy. destruct (filter_candidate_nodes ctx c) as [|n l]; [done|].
    pose proof Hs as [Hn Hl]%Forall_cons. destruct (min_by_score_spec n l Hn Hl) as (b & Eb & _).
    destruct (best_scored _ _ _ _ Hs Eb) as [x Hx]. rewrite Eb. cbn [obind]. rewrite Hx. by eexists.
  - unfold apply_round_robin_strategy. destruct (filter_candidate_nodes ctx c) as [|n l]; [done|]. by eexists.
Qed.

Lemma choosing_empty strategy :
  chooses strategy = true -> filter_candidate_nodes ctx c = [] ->
  apply_placement_strategy string_hash ctx c strategy = Err no_suitable.
Proof.
  intros Hc E. destruct strategy; try done; cbn [apply_placement_strategy];
    unfold apply_most_available_strategy, apply_least_available_strategy, apply_round_robin_strategy,
      apply_cost_optimized_strategy; by rewrite E.
Qed.

Lemma no_panic strategy : apply_placement_strategy string_hash ctx c strategy <> Panic.
Proof.
  assert (forall s, chooses s = true -> apply_placement_strategy string_hash ctx c s <> Panic) as Hch.
  { intros s Hs. destruct (filter_candidate_nodes ctx c) eqn:E; [by rewrite choosing_empty|].
    destruct (choosing_complete s Hs) as [d ->]; [by rewrite E|done]. }
  induction strategy as [| | |t|b IH p|b IH st|m l|m inc]; try (by apply Hch); cbn [apply_placement_strategy];
    unfold apply_priority_based_strategy.
  - unfold apply_manual_strategy. repeat case_match; done.
  - destruct (apply_placement_strategy _ _ _ b); [done|by destruct p|done].
  - exact IH.
  - unfold apply_spread_strategy. by destruct (_ <? _).
Qed.
End Lemmas.

(** What it means to accommodate a VM that needs something of each resource. *)
Lemma can_accommodate_iff n r :
  usage_ok n -> requirements_ok r ->
  can_accommodate n r = true <->
  is_healthy n = true /\ used_vcpus n + rq_vcpus r <= cpu_cores (capabilities n) /\
  used_memory_mb n + rq_memory_mb r <= memory_mb (capabilities n) /\
  used_disk_gb n + rq_disk_gb r <= disk_gb (capabilities n) /\
  forall f, f ∈ rq_features r -> f ∈ features (capabilities n).
Proof.
  intros (? & ? & ? & ? & ? & ?) (? & ? & ?). unfold can_accommodate, available_vcpus, available_memory_mb,
    available_disk_gb, sat_sub. destruct (is_healthy n); simpl; [|naive_solver].
  repeat match goal with |- context [?a <? ?b] => destruct (Z.ltb_spec a b) end;
    [split; [done|lia]..|].
  rewrite forallb_forall. setoid_rewrite bool_decide_eq_true. setoid_rewrite <- list_elem_of_In.
  split; [intros Hf; split_and!; [done|lia..|done]|naive_solver].
Qed.

Section Analyses.
Context `{Profile} `{HashIter} `{Codec VmConfig} `{Codec WorkerCapabilities} `{Codec WorkerStatus}.
Context (string_hash : string -> Z).

(** Decoded capabilities are unsigned integers of their widths. *)
Definition capabilities_typed : Prop :=
  forall b caps, de (A:=WorkerCapabilities) b = Some caps ->
    0 <= cpu_cores caps < 2 ^ 32 /\ 0 <= memory_mb caps < 2 ^ 64 /\ 0 <= disk_gb caps < 2 ^ 64.

Lemma add_vm_usage_range l acc acc' :
  ofold add_vm_usage acc l = Ok acc' ->
  let '(c, m, d, v) := acc in let '(c', m', d', v') := acc' in
  0 <= c -> 0 <= m -> 0 <= d -> 0 <= c' /\ 0 <= m' /\ 0 <= d'.
Proof.
  revert acc. induction l as [|kv l IH]; intros [[[c m] d] v] E; cbn [ofold] in E.
  { injection E as <-. done. }
  apply obind_ok in E as (acc1 & E1 & E). apply IH in E. destruct acc1 as [[[c1 m1] d1] v1], acc' as [[[c2 m2] d2] v2].
  unfold add_vm_usage in E1. apply obind_ok in E1 as (cfg & _ & E1).
  apply obind_ok in E1 as (a1 & A1 & E1). apply obind_ok in E1 as (a2 & A2 & E1).
  apply obind_ok in E1 as (a3 & A3 & E1). apply obind_ok in E1 as (a4 & _ & E1). injection E1 as <- <- <- <-.
  apply arith_u_range in A1, A2, A3; [|lia..]. intros. apply E; lia.
Qed.

Lemma usage_of_worker_ok db kv n :
  capabilities_typed -> usage_of_worker db kv = Ok n ->
  usage_ok n /\ from_be_bytes (fst kv) = Some (nu_id n).
Proof.
  intros Ht E. unfold usage_of_worker in E. apply obind_ok in E as (i & Ei & E).
  apply obind_ok in E as (caps & Ec & E). apply obind_ok in E as (h & _ & E).
  apply obind_ok in E as ([[[c m] d] v] & Eu%add_vm_usage_range & [= <-]).
  destruct (de (snd kv)) as [caps'|] eqn:Ed; simpl in Ec; [|done]. injection Ec as ->.
  destruct (from_be_bytes (fst kv)); simpl in Ei; [|done]. injection Ei as ->.
  apply Ht in Ed as (? & ? & ?). unfold usage_ok. simpl. destruct Eu as (? & ? & ?); [lia..|]. split_and!; done || lia.
Qed.

Lemma cluster_usage_ok db usage n :
  capabilities_typed -> get_cluster_resource_usage db = Ok usage -> n ∈ usage ->
  usage_ok n /\ exists k, is_Some (byts db WORKER_TABLE !! k) /\ from_be_bytes k = Some (nu_id n).
Proof.
  intros Ht E%otraverse_ok Hn. apply list_elem_of_lookup in Hn as [i Hi].
  eapply Forall2_lookup_r in E as ([k v] & Hk & E); [|exact Hi].
  apply usage_of_worker_ok in E as [Hok Hid]; [|done]. split; [done|]. exists k. split; [|done].
  exists v. apply elem_of_hash_iter. by apply list_elem_of_lookup_2 in Hk.
Qed.

Lemma schedule_context s c strategy d :
  schedule_vm_placement string_hash s c strategy = Ok d ->
  exists ctx, get_cluster_resource_usage (sched_database s) = Ok (node_usage ctx) /\
    requirements ctx = requirements_of c /\ decision_ok ctx c d.
Proof.
  intros (ctx & Ec & Ed)%obind_ok. exists ctx. unfold collect_cluster_state in Ec.
  apply obind_ok in Ec as (usage & Eu & Ec). destruct usage as [|n l]; [done|].
  apply obind_ok in Ec as (k & Ek & [= <-]). split_and!; [done|done|]. by eapply strategy_sound.
Qed.

(** ** Anti-affinity: the checker has every VM on node 0 *)

Lemma placements_on_zero l ps g node :
  otraverse placement_of l = Ok ps -> node <> 0 -> group_count (omap id ps) g node = 0.
Proof.
  intros E%otraverse_ok Hn. induction E as [|kv p l ps Ep _ IH]; [done|].
  unfold placement_of in Ep. apply obind_ok in Ep as (c & _ & [= <-]).
  destruct (metadata c ≫= _); [|exact IH]. cbn. rewrite bool_decide_false by done. exact IH.
Qed.

Lemma built_checker_allows db checker rules node name :
  build_anti_affinity_checker db = Ok checker -> node <> 0 ->
  (forall r, r ∈ rules -> 1 <= max_per_node r) -> check_placement checker name node rules = Ok tt.
Proof.
  intros (ps & Eps & [= <-])%obind_ok Hn Hr. apply check_rules_ok, Forall_forall.
  intros r [Hin _]%hard_constraints_elem. unfold checker_new.
  rewrite current_count_vms, (placements_on_zero _ _ _ _ Eps Hn). specialize (Hr r Hin). unfold current_count.
  rewrite lookup_empty. simpl. lia.
Qed.

(** ** Byte order of the node ids *)

(** The identifier the scheduler reads for a worker the state machine stored. *)
Definition byte_swapped (n : Z) : Z := le_value (rev (to_le_bytes n)).

Lemma byte_swapped_small n : 0 <= n < 256 -> byte_swapped n = n * 2 ^ 56.
Proof.
  intros Hn. apply Z.eqb_eq. revert n Hn.
  apply (forall_below 256 (fun n => byte_swapped n =? n * 2 ^ 56)). vm_compute. reflexivity.
Qed.

Lemma manual_needs_node ctx c t d :
  apply_manual_strategy ctx c t = Ok d -> exists n, n ∈ node_usage ctx /\ nu_id n = t.
Proof.
  unfold apply_manual_strategy. destruct (List.find _ _) as [n|] eqn:E; [|done].
  apply find_id_candidate in E. by exists n.
Qed.

(** * Properties *)

(** C39: whatever the strategy, a VM is only placed on a node that the cluster's state reports healthy, with
    enough free vCPUs, memory and disk for the VM beside what is used, and with the microvm feature; the
    alternatives, at most three, are other nodes of that kind, and nothing is preempted. *)
Theorem placement_sound s c strategy d :
  capabilities_typed -> 1 <= vcpus c -> 1 <= memory c ->
  schedule_vm_placement string_hash s c strategy = Ok d ->
  exists usage, get_cluster_resource_usage (sched_database s) = Ok usage /\
    preempted_vms d = [] /\ (length (alternative_nodes d) <= 3)%nat /\ target_node d ∉ alternative_nodes d /\
    forall i, i ∈ target_node d :: alternative_nodes d -> exists n, n ∈ usage /\ nu_id n = i /\
      is_healthy n = true /\ used_vcpus n + vcpus c <= cpu_cores (capabilities n) /\
      used_memory_mb n + memory c <= memory_mb (capabilities n) /\
      used_disk_gb n + 5 <= disk_gb (capabilities n) /\ "microvm" ∈ features (capabilities n).
Proof.
  intros Ht Hv Hm (ctx & Eu & Er & (n & Hn & Hid) & _ & Hp & Hl & Ha)%schedule_context.
  exists (node_usage ctx). split_and!; [done|done|done|by intros []%Ha|]. intros i Hi.
  assert (exists k, candidate ctx c k /\ nu_id k = i) as (k & (Hk & Hacc & _) & Hki).
  { apply elem_of_cons in Hi as [->|Hi]; [eauto|]. by apply Ha. }
  destruct (cluster_usage_ok _ _ _ Ht Eu Hk) as [Hok _].
  rewrite Er, can_accommodate_iff in Hacc by (done || (split_and!; simpl; lia)).
  simpl in Hacc. destruct Hacc as (? & ? & ? & ? & Hf). exists k. split_and!; try done. apply Hf. left.
Qed.

(** For a VM that needs something of each resource, the strategies that choose among the candidates succeed
    exactly when there is a candidate and otherwise answer that no suitable node was found; no strategy
    panics, also not by the subtraction in the availability score. *)
Theorem placement_complete ctx c strategy :
  requirements_ok (requirements ctx) -> (forall n, n ∈ node_usage ctx -> usage_ok n) ->
  apply_placement_strategy string_hash ctx c strategy <> Panic /\
  (chooses strategy = true ->
     ((exists n, candidate ctx c n) <-> exists d, apply_placement_strategy string_hash ctx c strategy = Ok d) /\
     ((forall n, ~ candidate ctx c n) <->
        apply_placement_strategy string_hash ctx c strategy = Err no_suitable)).
Proof.
  intros Hr Hu. split; [by apply no_panic|]. intros Hc.
  pose proof (choosing_complete string_hash ctx c Hr Hu strategy Hc) as Hsome.
  pose proof (choosing_empty string_hash ctx c strategy Hc) as Hnone.
  pose proof (elem_of_candidates ctx c) as Hel.
  destruct (filter_candidate_nodes ctx c) as [|n l].
  - rewrite Hnone by done. split; [split; [intros [n Hn%Hel]; by apply elem_of_nil in Hn|by intros [d ?]]|].
    split; [done|]. intros _ n Hn%Hel. by apply elem_of_nil in Hn.
  - destruct Hsome as [d ->]; [done|]. assert (candidate ctx c n) by (apply Hel; left).
    split; [split; eauto|split; [naive_solver|done]].
Qed.

(** The most-available strategy places a VM on a candidate whose availability score (in binary64) no other
    candidate exceeds, and the least-available strategy on one whose score exceeds no other candidate's. *)
Theorem placement_optimal ctx c d :
  requirements_ok (requirements ctx) -> (forall n, n ∈ node_usage ctx -> usage_ok n) ->
  (apply_placement_strategy string_hash ctx c MostAvailable = Ok d ->
     exists n, candidate ctx c n /\ nu_id n = target_node d /\ forall m, candidate ctx c m -> score_le m n) /\
  (apply_placement_strategy string_hash ctx c LeastAvailable = Ok d ->
     exists n, candidate ctx c n /\ nu_id n = target_node d /\ forall m, candidate ctx c m -> score_le n m).
Proof.
  intros Hr Hu. pose proof (candidates_scored ctx c Hr Hu) as Hs. pose proof (elem_of_candidates ctx c) as Hel.
  cbn [apply_placement_strategy]. unfold apply_most_available_strategy, apply_least_available_strategy.
  destruct (filter_candidate_nodes ctx c) as [|n l]; [done|]. apply Forall_cons in Hs as [Hn Hl]. split.
  - destruct (max_by_score_spec n l Hn Hl) as (b & -> & Hb & Hmax). cbn [obind].
    intros (x & _ & [= <-])%obind_ok. exists b. split_and!; [by apply Hel|done|]. intros m Hm%Hel. auto.
  - destruct (min_by_score_spec n l Hn Hl) as (b & -> & Hb & Hmax). cbn [obind].
    intros (x & _ & [= <-])%obind_ok. exists b. split_and!; [by apply Hel|done|]. intros m Hm%Hel. auto.
Qed.

(** Where the workers are stored as the state machine stores them, under the little-endian bytes of node ids
    between 1 and 255, the scheduler reads other ids: manual placement on any of these nodes fails. *)
Theorem manual_placement_misses s c n :
  capabilities_typed -> 1 <= n < 256 ->
  (forall k, is_Some (byts (sched_database s) WORKER_TABLE !! k) -> exists i, 1 <= i < 256 /\ k = to_le_bytes i) ->
  forall d, schedule_vm_placement string_hash s c (Manual n) <> Ok d.
Proof.
  intros Ht Hn Hkeys d (ctx & Ec & Ed)%obind_ok. unfold collect_cluster_state in Ec.
  apply obind_ok in Ec as (usage & Eu & Ec). destruct usage as [|u l]; [done|].
  apply obind_ok in Ec as (k & _ & [= <-]). apply manual_needs_node in Ed as (m & Hm & Hid). simpl in Hm.
  destruct (cluster_usage_ok _ _ _ Ht Eu Hm) as [_ (key & Hkey & Hbe)].
  destruct (Hkeys key Hkey) as (i & Hi & ->). unfold from_be_bytes in Hbe.
  destruct (_ =? _)%nat; [|done].
  assert (nu_id m = byte_swapped i) as Hsw by (unfold byte_swapped; congruence). rewrite byte_swapped_small in Hsw by lia. lia.
Qed.

(** The checker the scheduler builds has every VM on node 0: on every other node, whatever is running there,
    rules that allow a VM per node never refuse a placement. *)
Theorem anti_affinity_unenforced db checker rules node name :
  build_anti_affinity_checker db = Ok checker -> node <> 0 ->
  (forall r, r ∈ rules -> 1 <= max_per_node r) -> check_placement checker name node rules = Ok tt.
Proof. apply built_checker_allows. Qed.
End Analyses.

(** * Witnesses *)

#[local] Instance demo_profile : Profile := true.
#[local] Existing Instance canonical_iter.
#[local] Existing Instance wire_codec.

(** Decoding that checks the widths, as a typed serializer does. *)
Definition caps_fit (c : WorkerCapabilities) : bool :=
  fits_u 32 (cpu_cores c) && fits_u 64 (memory_mb c) && fits_u 64 (disk_gb c).
#[local] Instance typed_capabilities : Codec WorkerCapabilities := {
  ser := fun c => if caps_fit c then @ser _ (wire_codec _) c else None;
  de := fun b => match @de _ (wire_codec _) b with
                 | Some c => if caps_fit c then Some c else None
                 | None => None
                 end
}.

Lemma typed_capabilities_ok : capabilities_typed.
Proof.
  intros b caps E. unfold de, typed_capabilities in E. destruct (@de _ (wire_codec _) b) as [c|]; [|done].
  destruct (caps_fit c) eqn:Ef; [|done]. injection E as ->. unfold caps_fit, fits_u in Ef. bools. lia.
Qed.

Definition demo_caps : WorkerCapabilities := mkCapabilities 8 16384 100 ["microvm"].
Definition demo_worker_db (key : bytes) : Database :=
  set_byts WORKER_STATUS_TABLE {[ key := default [] (ser Online) ]}
    (set_byts WORKER_TABLE {[ key := default [] (ser demo_caps) ]} empty_database).
Definition demo_vm : VmConfig :=
  mkVmConfig "web" "" 2 2048 "default" None None None 500 true default_locality None.
Definition demo_schedule := schedule_vm_placement (fun _ => 0) (scheduler_new (demo_worker_db (to_be_bytes 7)))
  demo_vm MostAvailable.
Definition demo_context : SchedulingContext :=
  mkContext (requirements_of demo_vm)
    [mkUsage 1 true demo_caps 4 4096 10 1 None None (mkNodeUtilization f64_0 f64_0 f64_0);
     mkUsage 2 true demo_caps 0 0 0 0 None None (mkNodeUtilization f64_0 f64_0 f64_0)] None.

Lemma demo_schedule_target : (match demo_schedule with Ok d => target_node d | _ => 0 end) = 7.
Proof. vm_compute. reflexivity. Qed.

Lemma placement_sound_witness :
  exists usage n, get_cluster_resource_usage (demo_worker_db (to_be_bytes 7)) = Ok usage /\ n ∈ usage /\
    nu_id n = 7 /\ is_healthy n = true.
Proof.
  pose proof demo_schedule_target as Ht. destruct demo_schedule as [d| |] eqn:E; [|discriminate Ht..].
  destruct (placement_sound (fun _ => 0) (scheduler_new (demo_worker_db (to_be_bytes 7))) demo_vm MostAvailable d)
    as (usage & Eu & _ & _ & _ & Hn); [exact typed_capabilities_ok|simpl; lia|simpl; lia|exact E|].
  destruct (Hn (target_node d)) as (n & Hin & Hid & Hh & _); [left|].
  exists usage, n. split_and!; [exact Eu|exact Hin|by rewrite Hid|exact Hh].
Defined.

Lemma demo_context_ok : requirements_ok (requirements demo_context) /\
  forall n, n ∈ node_usage demo_context -> usage_ok n.
Proof.
  split; [unfold requirements_ok; simpl; lia|]. intros n Hn.
  apply elem_of_cons in Hn as [->|Hn]; [unfold usage_ok; simpl; lia|].
  apply list_elem_of_singleton in Hn as ->. unfold usage_ok; simpl; lia.
Qed.

Lemma placement_complete_witness :
  exists d, apply_placement_strategy (fun _ => 0) demo_context demo_vm LeastAvailable = Ok d.
Proof.
  destruct (placement_complete (fun _ => 0) demo_context demo_vm LeastAvailable) as [_ Hc];
    [apply demo_context_ok..|]. apply (Hc eq_refl).
  eexists. split; [left|split; reflexivity].
Defined.

Lemma demo_most_available :
  is_ok (apply_placement_strategy (fun _ => 0) demo_context demo_vm MostAvailable) = true.
Proof. vm_compute. reflexivity. Qed.

Lemma placement_optimal_witness :
  exists n, candidate demo_context demo_vm n /\ forall m, candidate demo_context demo_vm m -> score_le m n.
Proof.
  pose proof demo_most_available as Ho.
  destruct (apply_placement_strategy _ demo_context demo_vm MostAvailable) as [d| |] eqn:E; [|discriminate Ho..].
  destruct (placement_optimal (fun _ => 0) demo_context demo_vm d) as [Hm _]; [apply demo_context_ok..|].
  destruct (Hm E) as (n & Hn & _ & Hmax). exists n. exact (conj Hn Hmax).
Defined.

Lemma manual_placement_misses_witness :
  is_ok (schedule_vm_placement (fun _ => 0) (scheduler_new (demo_worker_db (to_le_bytes 7))) demo_vm (Manual 7)) = false.
Proof.
  destruct (schedule_vm_placement _ _ _ _) as [d| |] eqn:E; [|reflexivity..].
  exfalso. revert E. apply (manual_placement_misses (fun _ => 0) _ demo_vm 7); [exact typed_capabilities_ok|lia|].
  intros k [v Hv]. exists 7. split; [lia|].
  change (({[ to_le_bytes 7 := default [] (ser demo_caps) ]} : gmap bytes bytes) !! k = Some v) in Hv.
  by apply lookup_singleton_Some in Hv as [<- _].
Defined.
