(* ===== verification/VmRecovery.v ===== *)
(** Automatic recovery of VMs (blixard-core/src/vm_auto_recovery.rs): restarts
    with a growing delay, and migration when the restarts are used up.

    The recovery states are behind a lock that is not reentrant, and the model
    has it: an operation that waits for a lock that is not given back blocks, and
    leaves the lock taken.  The VM backend's answer to a restart is an argument,
    as are the clock readings; the calls of the backend are recorded.  Migration
    asks the scheduler.  Durations and times are nanoseconds. *)

From Stdlib Require Import ZArith Lia List SpecFloat.
From stdpp Require Import base tactics numbers gmap strings option.
From stdpp Require Import list relations.
From S2P Require Import Prelude Wire Float64 Errors Types Retry ResourceManagement Proposals Codecs.
From S2P Require Import Database StateMachine Scheduler.

Open Scope Z_scope.

(** * Durations as floating-point seconds *)

Definition as_secs_f64 (d : Z) : f64 :=
  f64_add (f64_of_Z (d / 1000000000)) (f64_div (f64_of_Z (d mod 1000000000)) (f64_of_Z 1000000000)).

(** Rounding a quotient to the nearest integer, ties to even. *)
Definition round_half_even (n d : Z) : Z :=
  let q := n / d in
  match 2 * (n mod d) ?= d with
  | Lt => q
  | Gt => q + 1
  | Eq => if Z.even q then q else q + 1
  end.

(** [Duration::from_secs_f64] panics on what is no duration. *)
Definition from_secs_f64 (x : f64) : outcome stop Z :=
  let checked ns := if ns <=? duration_max then Ok ns else Panic in
  match x with
  | S754_zero _ => Ok 0
  | S754_finite false m e =>
      if 0 <=? e then checked (Z.pos m * 2 ^ e * 1000000000)
      else checked (round_half_even (Z.pos m * 1000000000) (2 ^ (- e)))
  | _ => Panic
  end.

(** * State *)

Record RecoveryPolicy : Type := mkRecoveryPolicy {
  max_restart_attempts : Z;
  restart_delay : Z;
  enable_migration : bool;
  backoff_multiplier : f64;
  max_backoff_delay : Z
}.

Definition default_recovery_policy : RecoveryPolicy :=
  mkRecoveryPolicy 3 (from_secs 5) true (f64_of_Z 2) (from_secs 300).

Record VmRecoveryState : Type := mkRecoveryState {
  restart_attempts : Z;
  last_attempt : Z;
  current_delay : Z;
  exhausted : bool
}.

(** [locked]: the write lock of the states is taken.  [restarts] are the calls
    of the backend with their times. *)
Record VmAutoRecovery : Type := mkRecovery {
  rec_node_id : Z;
  rec_database : option Database;
  rec_policy : RecoveryPolicy;
  recovery_states : gmap string VmRecoveryState;
  locked : bool;
  restarts : list (string * Z)
}.

Definition recovery_new (node_id : Z) (db : option Database) (policy : RecoveryPolicy) : VmAutoRecovery :=
  mkRecovery node_id db policy ∅ false [].

Definition recovery (A : Type) : Type := st VmAutoRecovery stop A.

Definition set_states (m : gmap string VmRecoveryState) (r : VmAutoRecovery) : VmAutoRecovery :=
  mkRecovery (rec_node_id r) (rec_database r) (rec_policy r) m (locked r) (restarts r).
Definition set_locked (b : bool) (r : VmAutoRecovery) : VmAutoRecovery :=
  mkRecovery (rec_node_id r) (rec_database r) (rec_policy r) (recovery_states r) b (restarts r).
Definition push_restart (x : string * Z) (r : VmAutoRecovery) : VmAutoRecovery :=
  mkRecovery (rec_node_id r) (rec_database r) (rec_policy r) (recovery_states r) (locked r) (restarts r ++ [x]).

(** A scope that holds the lock: it gives the lock back when it ends, with an
    error or a panic too, but not when it waits for ever. *)
Definition with_lock {A} (body : recovery A) : recovery A :=
  fun r =>
    if locked r then (Err Blocks, r)
    else match body (set_locked true r) with
         | (Err Blocks, r') => (Err Blocks, r')
         | (o, r') => (o, set_locked false r')
         end.

(** The clock when a state is created, when the backoff is checked and when the
    attempt is recorded, and the backend's answer, if there is a backend. *)
Record RecoveryEnv : Type := mkRecoveryEnv {
  re_created : Z;
  re_checked : Z;
  re_attempt : Z;
  re_backend : option (BlixardResult unit)
}.

Definition returned_err {A} (e : BlixardError) : recovery A := sfail (Returned e).

Section Recovery.
Context `{Profile} `{HashIter} `{Codec VmConfig} `{Codec WorkerCapabilities} `{Codec WorkerStatus}.
Context (string_hash : string -> Z).

(** ** The parts of an attempt *)

Definition get_or_create_recovery_state (now : Z) (vm : string) : recovery VmRecoveryState :=
  let* r := sget in
  match recovery_states r !! vm with
  | Some s => sret s
  | None =>
      let s := mkRecoveryState 0 (now - restart_delay (rec_policy r)) (restart_delay (rec_policy r)) false in
      smodify (set_states (<[vm := s]> (recovery_states r))) ;* sret s
  end.

Definition check_recovery_exhausted (s : VmRecoveryState) : recovery unit :=
  if exhausted s then returned_err (VmOperationFailed "auto_recovery") else sret tt.

Definition is_in_backoff_period (now : Z) (s : VmRecoveryState) : bool :=
  sat_sub now (last_attempt s) <? current_delay s.

Definition update_backoff_delay (p : RecoveryPolicy) (s : VmRecoveryState) : outcome stop VmRecoveryState :=
  let? d := from_secs_f64 (f64_min (f64_mul (as_secs_f64 (current_delay s)) (backoff_multiplier p))
                                   (as_secs_f64 (max_backoff_delay p))) in
  Ok (mkRecoveryState (restart_attempts s) (last_attempt s) d (exhausted s)).

Definition set_exhausted (s : VmRecoveryState) : VmRecoveryState :=
  mkRecoveryState (restart_attempts s) (last_attempt s) (current_delay s) true.

(** [attempt_local_restart]: [SharedNodeState::start_vm]. *)
Definition attempt_local_restart (env : RecoveryEnv) (vm : string) : recovery (BlixardResult unit) :=
  match re_backend env with
  | Some answer => smodify (push_restart (vm, re_attempt env)) ;* sret answer
  | None => sret (Err (NotImplemented "VM manager not initialized"))
  end.

(** [SharedNodeState::migrate_vm] is not implemented. *)
Definition migrate_vm (vm : string) (target : Z) : BlixardResult unit :=
  Err (NotImplemented "migrate_vm in SharedNodeState").

Definition attempt_migration (vm : string) (c : VmConfig) : recovery unit :=
  let* r := sget in
  match rec_database r with
  | None => returned_err (Internal "Database not initialized")
  | Some db =>
      let* placement := slift (match schedule_vm_placement string_hash (scheduler_new db) c MostAvailable with
                               | Ok d => Ok d
                               | Err e => Err (Returned e)
                               | Panic => Panic
                               end) in
      if target_node placement =? rec_node_id r
      then returned_err (VmOperationFailed "auto_recovery_migration")
      else match migrate_vm vm (target_node placement) with
           | Ok _ => with_lock (smodify (fun r => set_states (delete vm (recovery_states r)) r))
           | Err e =>
               with_lock (smodify (fun r => set_states (alter set_exhausted vm (recovery_states r)) r)) ;*
               returned_err e
           | Panic => spanic
           end
  end.

Definition handle_restart_exhausted (vm : string) (c : VmConfig) : recovery unit :=
  let* r := sget in
  if enable_migration (rec_policy r) then attempt_migration vm c
  else
    with_lock (smodify (fun r => set_states (alter set_exhausted vm (recovery_states r)) r)) ;*
    returned_err (VmOperationFailed "auto_recovery").

Definition handle_restart_success (vm : string) : recovery unit :=
  smodify (fun r => set_states (delete vm (recovery_states r)) r).

Definition handle_restart_failure (vm : string) (c : VmConfig) (e : BlixardError) : recovery unit :=
  let* r := sget in
  match recovery_states r !! vm with
  | None => returned_err (Internal "Recovery state missing")
  | Some s =>
      if max_restart_attempts (rec_policy r) <=? restart_attempts s then handle_restart_exhausted vm c
      else
        let* s' := slift (update_backoff_delay (rec_policy r) s) in
        smodify (set_states (<[vm := s']> (recovery_states r))) ;*
        returned_err e
  end.

(** The first scope: whether a restart is to be attempted. *)
Definition begin_attempt (env : RecoveryEnv) (vm : string) : recovery bool :=
  let* s := get_or_create_recovery_state (re_created env) vm in
  check_recovery_exhausted s ;*
  if is_in_backoff_period (re_checked env) s then sret false
  else
    let* n := slift (arith_u 32 (restart_attempts s + 1)) in
    smodify (fun r => set_states
      (<[vm := mkRecoveryState n (re_attempt env) (current_delay s) (exhausted s)]> (recovery_states r)) r) ;*
    sret true.

Definition trigger_recovery (env : RecoveryEnv) (vm : string) (c : VmConfig) : recovery unit :=
  let* go := with_lock (begin_attempt env vm) in
  if go : bool then
    let* result := attempt_local_restart env vm in
    match result with
    | Ok _ => with_lock (handle_restart_success vm)
    | Err e => with_lock (handle_restart_failure vm c e)
    | Panic => spanic
    end
  else sret tt.

Definition reset_recovery_state (vm : string) : recovery unit :=
  with_lock (smodify (fun r => set_states (delete vm (recovery_states r)) r)).

(** The read lock of the statistics waits for the write lock. *)
Definition get_recovery_stats : recovery (gmap string (Z * bool)) :=
  with_lock (let* r := sget in sret ((fun s => (restart_attempts s, exhausted s)) <$> recovery_states r)).

(** * Specifications *)

(** A restart of this VM may be attempted. *)
Definition due (env : RecoveryEnv) (s : VmRecoveryState) : Prop :=
  exhausted s = false /\ current_delay s <= sat_sub (re_checked env) (last_attempt s).

(** The restart fails, with this error. *)
Definition restart_error (env : RecoveryEnv) : option BlixardError :=
  match re_backend env with
  | Some (Err e) => Some e
  | Some _ => None
  | None => Some (NotImplemented "VM manager not initialized")
  end.

(** The scheduler has a node for the VM, and it is another one. *)
Definition placed_elsewhere (r : VmAutoRecovery) (c : VmConfig) : Prop :=
  exists db d, rec_database r = Some db /\
    schedule_vm_placement string_hash (scheduler_new db) c MostAvailable = Ok d /\ target_node d <> rec_node_id r.

(** Nothing of the recovery answers any more. *)
Definition stuck (r : VmAutoRecovery) : Prop :=
  (forall env vm c, trigger_recovery env vm c r = (Err Blocks, r)) /\
  (forall vm, reset_recovery_state vm r = (Err Blocks, r)) /\ get_recovery_stats r = (Err Blocks, r).

(** * Lemmas *)

Lemma with_lock_free {A} (body : recovery A) r :
  locked r = false ->
  with_lock body r = match body (set_locked true r) with
                     | (Err Blocks, r') => (Err Blocks, r')
                     | (o, r') => (o, set_locked false r')
                     end.
Proof. intros Hl. unfold with_lock. by rewrite Hl. Qed.

Lemma with_lock_taken {A} (body : recovery A) r : locked r = true -> with_lock body r = (Err Blocks, r).
Proof. intros Hl. unfold with_lock. by rewrite Hl. Qed.

Lemma locked_stuck r : locked r = true -> stuck r.
Proof.
  intros Hl. unfold stuck, trigger_recovery, reset_recovery_state, get_recovery_stats, sbind.
  split_and!; intros; by rewrite with_lock_taken.
Qed.

(** The first scope of an attempt that is due. *)
Lemma begin_attempt_due env vm r s :
  locked r = false -> recovery_states r !! vm = Some s -> due env s -> 0 <= restart_attempts s < 2 ^ 32 - 1 ->
  with_lock (begin_attempt env vm) r =
    (Ok true, set_states (<[vm := mkRecoveryState (restart_attempts s + 1) (re_attempt env) (current_delay s) false]>
       (recovery_states r)) r).
Proof.
  intros Hl Hs [Hex Hdue] Hn. rewrite with_lock_free by done. unfold begin_attempt, get_or_create_recovery_state.
  unfold_st. cbn [recovery_states set_locked]. rewrite Hs. unfold check_recovery_exhausted. rewrite Hex.
  unfold sret, is_in_backoff_period. destruct (Z.ltb_spec (sat_sub (re_checked env) (last_attempt s)) (current_delay s)); [lia|].
  rewrite arith_u_fits by lia. unfold set_states, set_locked. cbn. by destruct r; cbn in *; subst.
Qed.

(** A failing restart that is due gets to the second scope with the lock free. *)
Lemma trigger_failing env vm c r s e :
  locked r = false -> recovery_states r !! vm = Some s -> due env s -> 0 <= restart_attempts s < 2 ^ 32 - 1 ->
  restart_error env = Some e ->
  exists r1, trigger_recovery env vm c r = with_lock (handle_restart_failure vm c e) r1 /\ locked r1 = false /\
    rec_policy r1 = rec_policy r /\ rec_database r1 = rec_database r /\ rec_node_id r1 = rec_node_id r /\
    recovery_states r1 =
      <[vm := mkRecoveryState (restart_attempts s + 1) (re_attempt env) (current_delay s) false]> (recovery_states r).
Proof.
  intros Hl Hs Hd Hn He. unfold trigger_recovery. erewrite sbind_ok by by apply begin_attempt_due.
  unfold restart_error in He. unfold attempt_local_restart. destruct (re_backend env) as [[|er|]|]; simplify_eq.
  - eexists. split; [reflexivity|done].
  - eexists. split; [reflexivity|done].
Qed.

(** Only the restart itself calls the backend. *)
Definition same_restarts (r r' : VmAutoRecovery) : Prop := restarts r' = restarts r.

#[local] Instance same_restarts_preorder : PreOrder same_restarts.
Proof. unfold same_restarts. split; [done|]. intros r1 r2 r3 -> ->. done. Qed.

Lemma with_lock_restarts {A} (body : recovery A) : moves same_restarts body -> moves same_restarts (with_lock body).
Proof.
  intros Hb r o r'. unfold with_lock. case_match; [by intros [= _ <-]|].
  destruct (body (set_locked true r)) as [o1 r1] eqn:E. apply Hb in E. unfold same_restarts in *.
  destruct o1 as [|[]|]; intros [= _ <-]; cbn in *; by rewrite E.
Qed.

#[local] Hint Resolve with_lock_restarts : moves.

Lemma set_states_restarts f : moves same_restarts (smodify (E:=stop) (fun r => set_states (f r) r)).
Proof. by apply moves_modify. Qed.
#[local] Hint Resolve set_states_restarts : moves.

Lemma handlers_restarts vm c e :
  moves same_restarts (handle_restart_success vm) /\ moves same_restarts (handle_restart_failure vm c e).
Proof.
  split; [apply set_states_restarts|]. unfold handle_restart_failure, handle_restart_exhausted, attempt_migration, returned_err.
  moves_seq; [auto with moves|]. intros r. repeat case_match; auto 8 with moves.
  moves_seq; [auto with moves|]. intros r1. case_match; [|auto 8 with moves].
  moves_seq; [auto with moves|]. intros r2. case_match; [|auto with moves].
  moves_seq; [auto with moves|]. intros ?. unfold migrate_vm. case_match; auto 8 with moves.
Qed.

Lemma begin_attempt_effect env vm r o r' :
  begin_attempt env vm r = (o, r') -> restarts r' = restarts r /\
  (o = Ok true -> due env (default (mkRecoveryState 0 (re_created env - restart_delay (rec_policy r))
                                      (restart_delay (rec_policy r)) false) (recovery_states r !! vm))).
Proof.
  intros E. unfold begin_attempt, get_or_create_recovery_state, check_recovery_exhausted, is_in_backoff_period, returned_err in E.
  unfold due. inv_st E; bools; by split.
Qed.

(** * Properties *)

(** A VM is restarted only when that is due: an attempt calls the backend at
    most once, for its own VM, and only if the VM is not exhausted and the delay
    since its last attempt has passed, whatever the outcome of the attempt. *)
Theorem restarts_are_spaced env vm c r o r' :
  trigger_recovery env vm c r = (o, r') ->
  restarts r' = restarts r \/
  (restarts r' = restarts r ++ [(vm, re_attempt env)] /\
   due env (default (mkRecoveryState 0 (re_created env - restart_delay (rec_policy r))
                       (restart_delay (rec_policy r)) false) (recovery_states r !! vm))).
Proof.
  unfold trigger_recovery. unfold with_lock at 1.
  unfold sbind at 1. destruct (locked r); [intros [= _ <-]; by left|].
  destruct (begin_attempt env vm (set_locked true r)) as [o1 r1] eqn:E1.
  apply begin_attempt_effect in E1 as [Hr1 Hdue]. cbn [set_locked recovery_states rec_policy restarts] in *.
  destruct o1 as [[]|[]|]; try (intros [= _ <-]; left; exact Hr1).
  destruct (handlers_restarts vm c (default (Internal "") (restart_error env))) as [Hok Hfail].
  unfold attempt_local_restart, restart_error in *. destruct (re_backend env) as [[[]|e|]|];
    (erewrite sbind_ok by reflexivity); intros E.
  - right. split; [|auto]. apply with_lock_restarts in E; [|exact Hok]. unfold same_restarts in E. cbn in E. by rewrite E, Hr1.
  - right. split; [|auto]. apply with_lock_restarts in E; [|exact Hfail]. unfold same_restarts in E. cbn in E. by rewrite E, Hr1.
  - right. split; [|auto]. injection E as _ <-. cbn. by rewrite Hr1.
  - left. apply with_lock_restarts in E; [|exact Hfail]. unfold same_restarts in E. cbn in E. by rewrite E, Hr1.
Qed.

(** Recovery stops for ever at the first VM whose restarts are used up: when
    the last allowed restart fails and migration is disabled, or the scheduler
    finds another node, the attempt waits for the lock that it holds itself, and
    from then on no recovery of any VM, no reset and no statistics answer. *)
Theorem used_up_recovery_deadlocks env vm c r s e :
  locked r = false -> recovery_states r !! vm = Some s -> due env s -> 0 <= restart_attempts s < 2 ^ 32 - 1 ->
  restart_error env = Some e -> max_restart_attempts (rec_policy r) <= restart_attempts s + 1 ->
  enable_migration (rec_policy r) = false \/ placed_elsewhere r c ->
  exists r', trigger_recovery env vm c r = (Err Blocks, r') /\ stuck r'.
Proof.
  intros Hl Hs Hd Hn He Hmax Hcase. destruct (trigger_failing env vm c r s e) as (r1 & -> & Hl1 & Hp & Hdb & Hid & Hst); [done..|].
  rewrite with_lock_free by done. unfold handle_restart_failure. erewrite sbind_ok by reflexivity.
  cbn [recovery_states set_locked rec_policy]. rewrite Hst, lookup_insert_eq, Hp. cbn [restart_attempts].
  destruct (Z.leb_spec (max_restart_attempts (rec_policy r)) (restart_attempts s + 1)); [|lia].
  unfold handle_restart_exhausted. erewrite sbind_ok by reflexivity. cbn [rec_policy set_locked]. rewrite Hp.
  assert (Hstuck : stuck (set_locked true r1)) by by apply locked_stuck.
  destruct (enable_migration (rec_policy r)); [destruct Hcase as [|(db & d & Edb & Ed & Hne)]; [done|]|].
  - unfold attempt_migration. erewrite sbind_ok by reflexivity. cbn [rec_database set_locked rec_node_id].
    rewrite Hdb, Edb, Ed. erewrite sbind_ok by reflexivity. rewrite Hid.
    destruct (Z.eqb_spec (target_node d) (rec_node_id r)); [done|]. unfold migrate_vm, sbind.
    rewrite with_lock_taken by done. by exists (set_locked true r1).
  - unfold sbind. rewrite with_lock_taken by done. by exists (set_locked true r1).
Qed.

(** The number of restarts is not limited when migration cannot be tried: the
    attempt fails, the VM is not marked as exhausted, its delay does not grow, and
    when the delay is over the next attempt restarts it again. *)
Theorem restarts_beyond_limit env vm c r s e :
  locked r = false -> recovery_states r !! vm = Some s -> due env s -> 0 <= restart_attempts s < 2 ^ 32 - 1 ->
  restart_error env = Some e -> max_restart_attempts (rec_policy r) <= restart_attempts s + 1 ->
  enable_migration (rec_policy r) = true -> rec_database r = None ->
  exists r', trigger_recovery env vm c r = (Err (Returned (Internal "Database not initialized")), r') /\
    locked r' = false /\
    recovery_states r' !! vm = Some (mkRecoveryState (restart_attempts s + 1) (re_attempt env) (current_delay s) false).
Proof.
  intros Hl Hs Hd Hn He Hmax Hm Hdb0. destruct (trigger_failing env vm c r s e) as (r1 & -> & Hl1 & Hp & Hdb & Hid & Hst); [done..|].
  rewrite with_lock_free by done. unfold handle_restart_failure. erewrite sbind_ok by reflexivity.
  cbn [recovery_states set_locked rec_policy]. rewrite Hst, lookup_insert_eq, Hp. cbn [restart_attempts].
  destruct (Z.leb_spec (max_restart_attempts (rec_policy r)) (restart_attempts s + 1)); [|lia].
  unfold handle_restart_exhausted. erewrite sbind_ok by reflexivity. cbn [rec_policy set_locked]. rewrite Hp, Hm.
  unfold attempt_migration. erewrite sbind_ok by reflexivity. cbn [rec_database set_locked]. rewrite Hdb, Hdb0.
  eexists. split; [reflexivity|]. cbn. by rewrite Hst, lookup_insert_eq.
Qed.

End Recovery.

(** * Witnesses *)

#[local] Instance demo_profile : Profile := true.
#[local] Existing Instance canonical_iter.
#[local] Existing Instance wire_codec.

Definition demo_policy : RecoveryPolicy := mkRecoveryPolicy 2 (from_secs 5) false (f64_of_Z 2) (from_secs 8).
Definition failing (now : Z) : RecoveryEnv :=
  mkRecoveryEnv (from_secs now) (from_secs now) (from_secs now) (Some (Err (VmOperationFailed "start"))).

(** After one failed restart the delay is eight seconds, the maximum. *)
Definition after_one : VmAutoRecovery :=
  snd (trigger_recovery (fun _ => 0) (failing 100) "web" demo_vm (recovery_new 1 None demo_policy)).

Lemma after_one_state :
  locked after_one = false /\ rec_policy after_one = demo_policy /\
  recovery_states after_one !! "web" = Some (mkRecoveryState 1 (from_secs 100) (from_secs 8) false).
Proof. vm_compute. done. Qed.

Lemma used_up_recovery_deadlocks_witness :
  exists r', trigger_recovery (fun _ => 0) (failing 110) "web" demo_vm after_one = (Err Blocks, r') /\
    stuck (fun _ => 0) r'.
Proof.
  pose proof after_one_state as (Hl & Hp & Hs).
  apply (used_up_recovery_deadlocks (fun _ => 0) (failing 110) "web" demo_vm after_one
    (mkRecoveryState 1 (from_secs 100) (from_secs 8) false) (VmOperationFailed "start")).
  - exact Hl.
  - exact Hs.
  - split; [reflexivity|]. vm_compute. discriminate.
  - cbn. lia.
  - reflexivity.
  - rewrite Hp. cbn. lia.
  - left. rewrite Hp. reflexivity.
Defined.

(** An attempt after five seconds does not restart the VM, one after eight does. *)
Lemma restarts_are_spaced_witness :
  let early := trigger_recovery (fun _ => 0) (failing 105) "web" demo_vm after_one in
  restarts (snd early) = restarts after_one \/
  (restarts (snd early) = restarts after_one ++ [("web", from_secs 105)] /\
   due (failing 105) (mkRecoveryState 1 (from_secs 100) (from_secs 8) false)).
Proof.
  pose proof after_one_state as (_ & _ & Hs).
  destruct (trigger_recovery (fun _ => 0) (failing 105) "web" demo_vm after_one) as [o r'] eqn:E.
  destruct (restarts_are_spaced (fun _ => 0) (failing 105) "web" demo_vm after_one o r' E) as [Hr|[Hr Hd]].
  - left. exact Hr.
  - right. rewrite Hs in Hd. split; [exact Hr|exact Hd].
Defined.
