(* ===== verification/IrohProtocol.v ===== *)
(** The framing of remote calls (blixard-core/src/transport/iroh_protocol.rs): a
    header of 24 bytes and a payload, one message after the other on a stream.

    The sending end of a stream is the bytes it took, with the number of bytes
    it takes before it fails, if it does; the receiving end is the bytes that
    arrive before the stream ends. *)

From Stdlib Require Import ZArith Lia List.
From stdpp Require Import base tactics numbers gmap strings option.
From stdpp Require Import list relations.
From S2P Require Import Prelude Wire Errors.

Open Scope Z_scope.

Definition PROTOCOL_VERSION : Z := 1.
Definition MAX_MESSAGE_SIZE : Z := 10 * 1024 * 1024.

Inductive MessageType : Type := Request | Response | Error | StreamData | StreamEnd | Ping | Pong.

(** [msg_type as u8] *)
Definition message_type_code (t : MessageType) : Z :=
  match t with
  | Request => 1 | Response => 2 | Error => 3 | StreamData => 4 | StreamEnd => 5 | Ping => 6 | Pong => 7
  end.

Definition message_type_try_from (value : Z) : BlixardResult MessageType :=
  if value =? 1 then Ok Request else if value =? 2 then Ok Response else if value =? 3 then Ok Error
  else if value =? 4 then Ok StreamData else if value =? 5 then Ok StreamEnd else if value =? 6 then Ok Ping
  else if value =? 7 then Ok Pong else Err (Internal "Invalid message type").

Record MessageHeader : Type := mkHeader {
  version : Z;
  msg_type : MessageType;
  payload_len : Z;
  request_id : list Z
}.

Definition HEADER_SIZE : nat := 24.

Definition header_new (t : MessageType) (len : Z) (id : list Z) : MessageHeader :=
  mkHeader PROTOCOL_VERSION t len id.

Definition to_bytes (h : MessageHeader) : list Z :=
  [version h; message_type_code (msg_type h)] ++ rev (le_bytes 4 (payload_len h)) ++ request_id h ++ [0; 0].

Definition from_bytes (bytes : list Z) : BlixardResult MessageHeader :=
  if (length bytes <? HEADER_SIZE)%nat then Err (Internal "Header too short")
  else
    let version := nth 0 bytes 0 in
    if negb (version =? PROTOCOL_VERSION) then Err (Internal "Unsupported protocol version")
    else
      let? msg_type := message_type_try_from (nth 1 bytes 0) in
      let payload_len := le_value (rev (firstn 4 (skipn 2 bytes))) in
      if MAX_MESSAGE_SIZE <? payload_len then Err (Internal "Message too large")
      else Ok (mkHeader version msg_type payload_len (firstn 16 (skipn 6 bytes))).

(** * Streams *)

Record SendStream : Type := mkSend { written : list Z; accepts : option nat }.

Definition write_all (b : list Z) : st SendStream BlixardError unit :=
  fun s =>
    match accepts s with
    | Some n =>
        if (length b <=? n)%nat then (Ok tt, mkSend (written s ++ b) (Some (n - length b)%nat))
        else (Err (Internal "Failed to write to stream"), mkSend (written s ++ firstn n b) (Some 0%nat))
    | None => (Ok tt, mkSend (written s ++ b) None)
    end.

Definition read_exact (n : nat) : st (list Z) BlixardError (list Z) :=
  fun s =>
    if (length s <? n)%nat then (Err (Internal "Failed to read from stream"), [])
    else (Ok (firstn n s), skipn n s).

Definition write_message (t : MessageType) (id payload : list Z) : st SendStream BlixardError unit :=
  if MAX_MESSAGE_SIZE <? Z.of_nat (length payload) then sfail (Internal "Payload too large")
  else
    write_all (to_bytes (header_new t (wrap_u 32 (Z.of_nat (length payload))) id)) ;*
    write_all payload.

Definition read_message : st (list Z) BlixardError (MessageHeader * list Z) :=
  let* header_bytes := read_exact HEADER_SIZE in
  let* header := slift (from_bytes header_bytes) in
  let* payload := read_exact (Z.to_nat (payload_len header)) in
  sret (header, payload).

Definition serialize_payload {A} `{Codec A} (value : A) : BlixardResult (list Z) :=
  ok_or SerializationError (ser value).
Definition deserialize_payload {A} `{Codec A} (b : list Z) : BlixardResult A :=
  ok_or SerializationError (de b).

(** * Specifications *)

(** A message as the writer has it; one that can be written. *)
Definition message : Type := MessageType * list Z * list Z.

Definition message_ok (m : message) : Prop :=
  let '(_, id, payload) := m in length id = 16%nat /\ Z.of_nat (length payload) <= MAX_MESSAGE_SIZE.

(** What the reader gets of it, and its bytes on the stream. *)
Definition received (m : message) : MessageHeader * list Z :=
  let '(t, id, payload) := m in (header_new t (Z.of_nat (length payload)) id, payload).

Definition frame (m : message) : list Z :=
  let '(t, id, payload) := m in to_bytes (header_new t (Z.of_nat (length payload)) id) ++ payload.

Definition write_messages (ms : list message) : st SendStream BlixardError unit :=
  sfor (fun '(t, id, payload) => write_message t id payload) ms.

Fixpoint read_messages (n : nat) : st (list Z) BlixardError (list (MessageHeader * list Z)) :=
  match n with
  | O => sret []
  | S n' => let* m := read_message in let* ms := read_messages n' in sret (m :: ms)
  end.

(** * Lemmas *)

Lemma message_type_roundtrip t : message_type_try_from (message_type_code t) = Ok t.
Proof. by destruct t. Qed.

Lemma header_length t len id : length id = 16%nat -> length (to_bytes (header_new t len id)) = HEADER_SIZE.
Proof. intros Hid. unfold to_bytes. cbn. rewrite !length_app. cbn. by rewrite Hid. Qed.

Lemma header_roundtrip t len id :
  length id = 16%nat -> 0 <= len <= MAX_MESSAGE_SIZE ->
  from_bytes (to_bytes (header_new t len id)) = Ok (header_new t len id).
Proof.
  intros Hid Hlen. unfold from_bytes. rewrite header_length by done. cbn [Nat.ltb Nat.leb HEADER_SIZE].
  assert (Hd : skipn 2 (to_bytes (header_new t len id)) = rev (le_bytes 4 len) ++ id ++ [0; 0]) by done.
  assert (H4 : length (rev (le_bytes 4 len)) = 4%nat) by (by rewrite length_rev, le_bytes_length).
  assert (Hf : firstn 4 (rev (le_bytes 4 len) ++ id ++ [0; 0]) = rev (le_bytes 4 len)) by (by rewrite take_app_length').
  assert (Hs : skipn 6 (to_bytes (header_new t len id)) = id ++ [0; 0]) by done.
  rewrite Hd, Hf, Hs, rev_involutive, le_value_le_bytes, (take_app_length' _ _ 16) by done.
  cbn [nth to_bytes app header_new version msg_type]. rewrite message_type_roundtrip. cbn [obind negb Z.eqb PROTOCOL_VERSION Pos.eqb].
  change (256 ^ Z.of_nat 4) with 4294967296. unfold MAX_MESSAGE_SIZE in *. rewrite Z.mod_small by lia.
  destruct (Z.ltb_spec (10 * 1024 * 1024) len); [lia|done].
Qed.

Lemma read_exact_app n a b : length a = n -> read_exact n (a ++ b) = (Ok a, b).
Proof.
  intros <-. unfold read_exact. rewrite length_app. destruct (Nat.ltb_spec (length a + length b) (length a)); [lia|].
  by rewrite take_app_length, drop_app_length.
Qed.

Lemma read_frame m rest : message_ok m -> read_message (frame m ++ rest) = (Ok (received m), rest).
Proof.
  destruct m as [[t id] payload]. intros [Hid Hlen]. unfold read_message, frame. rewrite <- app_assoc.
  erewrite sbind_ok by (by apply read_exact_app, header_length).
  rewrite header_roundtrip by (done || lia). erewrite sbind_ok by reflexivity. cbn [payload_len header_new].
  erewrite sbind_ok by (apply read_exact_app; lia). done.
Qed.

Lemma write_message_frame m s :
  message_ok m -> accepts s = None ->
  (let '(t, id, payload) := m in write_message t id payload) s = (Ok tt, mkSend (written s ++ frame m) None).
Proof.
  destruct m as [[t id] payload], s as [w a]. intros [Hid Hlen] Ha. cbn in Ha. subst a. unfold write_message.
  destruct (Z.ltb_spec MAX_MESSAGE_SIZE (Z.of_nat (length payload))); [lia|].
  unfold wrap_u. rewrite Z.mod_small by (unfold MAX_MESSAGE_SIZE in *; lia).
  unfold frame. unfold_st. cbn [write_all accepts written]. by rewrite app_assoc.
Qed.

(** A message that is cut short cannot be read. *)
Lemma read_cut_frame m n :
  message_ok m -> (n < length (frame m))%nat -> is_ok (fst (read_message (firstn n (frame m)))) = false.
Proof.
  destruct m as [[t id] payload]. intros [Hid Hlen] Hn. unfold frame in *. set (h := to_bytes _) in *.
  assert (Hh : length h = HEADER_SIZE) by by apply header_length. rewrite length_app, Hh in Hn.
  unfold read_message. rewrite take_app, Hh. destruct (decide (n < HEADER_SIZE)%nat) as [Hlt|Hge].
  - unfold sbind, read_exact at 1. rewrite length_app, !length_take, Hh.
    destruct (Nat.ltb_spec (n `min` HEADER_SIZE + (n - HEADER_SIZE) `min` length payload) HEADER_SIZE); [done|lia].
  - rewrite take_ge by (rewrite Hh; lia). erewrite sbind_ok by (by apply read_exact_app).
    unfold h. rewrite header_roundtrip by (done || lia). erewrite sbind_ok by reflexivity. cbn [payload_len header_new].
    unfold sbind, read_exact. rewrite length_take, Nat2Z.id.
    destruct (Nat.ltb_spec ((n - HEADER_SIZE) `min` length payload) (length payload)); [done|lia].
Qed.

Lemma write_messages_frames ms s :
  Forall message_ok ms -> accepts s = None ->
  write_messages ms s = (Ok tt, mkSend (written s ++ concat (map frame ms)) None).
Proof.
  intros Hms. revert s. induction Hms as [|m ms Hm Hms IH]; intros s Hs; cbn.
  { rewrite app_nil_r. destruct s; cbn in *. by subst. }
  destruct m as [[t id] payload]. erewrite sbind_ok by (by apply (write_message_frame (t, id, payload))).
  rewrite IH by done. cbn [written]. by rewrite <- app_assoc.
Qed.

Lemma read_messages_frames ms rest :
  Forall message_ok ms ->
  read_messages (length ms) (concat (map frame ms) ++ rest) = (Ok (map received ms), rest).
Proof.
  intros Hms. induction Hms as [|m ms Hm Hms IH]; cbn [length read_messages map concat]; [done|].
  rewrite <- app_assoc. erewrite sbind_ok by by apply read_frame. erewrite sbind_ok by exact IH. done.
Qed.

(** * Properties *)

(** C38: messages written to a stream one after the other are read from it
    one after the other: the same types, request ids and payloads in the same
    order, with nothing of what follows consumed. *)
Theorem messages_roundtrip ms s rest :
  Forall message_ok ms -> accepts s = None ->
  exists sent, write_messages ms s = (Ok tt, mkSend (written s ++ sent) None) /\
    read_messages (length ms) (sent ++ rest) = (Ok (map received ms), rest).
Proof.
  intros Hms Hs. exists (concat (map frame ms)).
  by rewrite write_messages_frames, read_messages_frames.
Qed.

(** A stream that ends early yields a prefix of the messages and then an
    error: wherever the bytes of a sequence of messages are cut, the reader gets
    the messages that arrived whole, and no message that was not sent. *)
Theorem cut_stream_yields_prefix ms n :
  Forall message_ok ms -> (n < length (concat (map frame ms)))%nat ->
  exists k rest, (k < length ms)%nat /\
    read_messages k (firstn n (concat (map frame ms))) = (Ok (map received (firstn k ms)), rest) /\
    is_ok (fst (read_message rest)) = false.
Proof.
  intros Hms. revert n. induction Hms as [|m ms Hm Hms IH]; intros n; cbn [map concat]; [cbn; lia|].
  rewrite length_app. intros Hn. rewrite take_app. destruct (decide (n < length (frame m))%nat) as [Hlt|Hge].
  - exists 0%nat. eexists. split; [cbn; lia|]. split; [reflexivity|].
    replace (n - length (frame m))%nat with 0%nat by lia. rewrite take_0, app_nil_r. by apply read_cut_frame.
  - destruct (IH (n - length (frame m))%nat) as (k & rest & Hk & Hread & Hrest); [lia|].
    exists (S k), rest. split; [cbn; lia|]. split; [|done]. rewrite (take_ge (frame m)) by lia.
    cbn [read_messages firstn map]. erewrite sbind_ok by by apply read_frame. erewrite sbind_ok by exact Hread. done.
Qed.

(** What a header that is accepted says: the version, and a length within the
    limit, so that the buffer for the payload is. *)
Lemma from_bytes_bounded b h :
  Forall (fun z => 0 <= z < 256) b -> from_bytes b = Ok h ->
  version h = PROTOCOL_VERSION /\ 0 <= payload_len h <= MAX_MESSAGE_SIZE /\ length (request_id h) = 16%nat.
Proof.
  intros Hb. unfold from_bytes. destruct (Nat.ltb_spec (length b) HEADER_SIZE) as [|Hl]; [done|].
  case_match eqn:Ev; [done|]. intros (t & _ & E)%obind_ok. case_match; [done|]. injection E as <-. bools. cbn.
  split; [done|]. unfold HEADER_SIZE in Hl. split; [split; [|done]|rewrite length_take, length_drop; lia].
  assert (Hr : Forall (fun z => 0 <= z < 256) (rev (firstn 4 (skipn 2 b)))) by by apply Forall_rev, Forall_take, Forall_drop.
  clear -Hr. induction Hr; cbn [le_value]; lia.
Qed.

(** * Witnesses *)

Definition demo_id : list Z := replicate 16 7.
Definition demo_messages : list message := [(Request, demo_id, [1; 2; 3]); (Ping, demo_id, []); (Response, demo_id, [9])].

Lemma demo_messages_ok : Forall message_ok demo_messages.
Proof. repeat constructor; unfold MAX_MESSAGE_SIZE; cbn; lia. Qed.

Lemma messages_roundtrip_witness :
  exists sent, write_messages demo_messages (mkSend [] None) = (Ok tt, mkSend sent None) /\
    read_messages 3 (sent ++ [5; 5]) = (Ok (map received demo_messages), [5; 5]).
Proof. apply (messages_roundtrip demo_messages (mkSend [] None) [5; 5] demo_messages_ok). reflexivity. Defined.

Lemma cut_stream_yields_prefix_witness :
  exists k rest, (k < 3)%nat /\
    read_messages k (firstn 40 (concat (map frame demo_messages))) = (Ok (map received (firstn k demo_messages)), rest) /\
    is_ok (fst (read_message rest)) = false.
Proof. apply (cut_stream_yields_prefix demo_messages 40 demo_messages_ok). vm_compute. lia. Defined.
