(* ===== verification/ResourceApi.v ===== *)
(** The resource manager interface (blixard-core/src/resource_manager.rs): the
    data of requests, allocations, usage and limits, the trait every manager
    implements as the class [ResourceManager], the methods the trait defines
    by default, the configuration builder, and the composite manager, which
    dispatches to one manager per resource type.

    [ResourceManagerOk] states what a manager promises its clients; the
    composite's theorems are proved against it, and MemoryManager.v and
    CpuManager.v discharge it.  Each operation receives what it reads of its
    environment (clock, random numbers) as a value of type [Env]. *)

From Stdlib Require Import ZArith Lia List.
From stdpp Require Import base tactics numbers gmap strings pretty option.
From stdpp Require Import list relations.
From S2P Require Import Prelude Float64 Errors.

Open Scope Z_scope.

(** * Data *)

Definition ResourceId : Type := string.
Definition TenantId : Type := string.

Inductive ResourceType : Type := Memory | Cpu | Disk | Network | Gpu | Custom (name : string).

#[export] Instance resource_type_eq_dec : EqDecision ResourceType.
Proof. solve_decision. Defined.
#[export] Instance resource_type_countable : Countable ResourceType.
Proof.
  refine (inj_countable'
    (fun t => match t with
              | Memory => inl 0%nat | Cpu => inl 1%nat | Disk => inl 2%nat | Network => inl 3%nat
              | Gpu => inl 4%nat | Custom s => inr s
              end)
    (fun c => match c with
              | inl 0%nat => Memory | inl 1%nat => Cpu | inl 2%nat => Disk | inl 3%nat => Network
              | inl _ => Gpu | inr s => Custom s
              end) _).
  by intros [].
Defined.

Definition resource_type_to_string (t : ResourceType) : string :=
  match t with
  | Memory => "memory"
  | Cpu => "cpu"
  | Disk => "disk"
  | Network => "network"
  | Gpu => "gpu"
  | Custom name => name
  end.

Record ResourceAllocationRequest : Type := mkRequest {
  request_id : ResourceId;
  tenant_id : TenantId;
  resource_type : ResourceType;
  amount : Z;
  priority : Z;
  is_temporary : bool;
  expires_at : option Z;
  metadata : gmap string string
}.

Inductive AllocationStatus : Type := Active | Reserved | Releasing | Released | Failed (why : string).

#[export] Instance allocation_status_eq_dec : EqDecision AllocationStatus.
Proof. solve_decision. Defined.

Record ResourceAllocation : Type := mkAllocation {
  allocation_id : ResourceId;
  request : ResourceAllocationRequest;
  allocated_amount : Z;
  allocated_on : option string;
  allocated_at : Z;
  status : AllocationStatus
}.

Record ResourceUsage : Type := mkUsage {
  usage_type : ResourceType;
  total_capacity : Z;
  usage_allocated : Z;
  used_amount : Z;
  allocation_count : Z;
  updated_at : Z
}.

Definition utilization_percent (u : ResourceUsage) : f64 :=
  if total_capacity u =? 0 then f64_0
  else f64_mul (f64_div (f64_of_Z (used_amount u)) (f64_of_Z (total_capacity u))) f64_100.

Definition allocation_percent (u : ResourceUsage) : f64 :=
  if total_capacity u =? 0 then f64_0
  else f64_mul (f64_div (f64_of_Z (usage_allocated u)) (f64_of_Z (total_capacity u))) f64_100.

Definition is_overallocated (u : ResourceUsage) : bool := total_capacity u <? usage_allocated u.

Record ResourceLimits : Type := mkLimits {
  limits_type : ResourceType;
  hard_limit : Z;
  soft_limit : Z;
  allow_overcommit : bool;
  overcommit_ratio : f64;
  system_reserve : Z
}.

Definition default_limits : ResourceLimits :=
  mkLimits Memory u64_max (u64_max / 2) false f64_1 0.

(** [Degraded] and [Unhealthy] carry a text for the operator, left out. *)
Inductive ResourceManagerHealth : Type := Healthy | Degraded | Unhealthy | Stopped.

Record ResourceManagerMetrics : Type := mkMetrics {
  metrics_type : ResourceType;
  total_allocations : Z;
  total_deallocations : Z;
  failed_allocations : Z;
  avg_allocation_time_ms : f64;
  health : ResourceManagerHealth;
  last_health_check : Z;
  custom_metrics : gmap string f64
}.

(** Durations are nanoseconds. *)
Record ResourceManagerConfig : Type := mkConfig {
  config_type : ResourceType;
  limits : ResourceLimits;
  enable_monitoring : bool;
  monitoring_interval : Z;
  enable_health_checks : bool;
  health_check_interval : Z;
  enable_telemetry : bool;
  custom_config : gmap string string
}.

Definition seconds (n : Z) : Z := n * 10 ^ 9.

Definition default_config : ResourceManagerConfig :=
  mkConfig Memory default_limits true (seconds 30) true (seconds 60) false ∅.

Record ResourceManagerStatus : Type := mkStatus {
  status_type : ResourceType;
  status_health : ResourceManagerHealth;
  status_running : bool;
  status_usage : ResourceUsage;
  status_limits : ResourceLimits;
  status_metrics : ResourceManagerMetrics;
  status_time : Z
}.

Record ResourceEfficiencyMetrics : Type := mkEfficiency {
  efficiency_type : ResourceType;
  allocation_efficiency : f64;
  utilization_efficiency : f64;
  fragmentation_ratio : f64;
  last_calculated : Z
}.

(** * Sums over a table *)

Definition map_sum {K} `{Countable K} {V} (f : V -> Z) (m : gmap K V) : Z :=
  foldr Z.add 0 (f <$> (map_to_list m).*2).

(** * The configuration builder *)

Definition set_limits (l : ResourceLimits) (c : ResourceManagerConfig) : ResourceManagerConfig :=
  mkConfig (config_type c) l (enable_monitoring c) (monitoring_interval c) (enable_health_checks c)
    (health_check_interval c) (enable_telemetry c) (custom_config c).

Definition builder_new (t : ResourceType) : ResourceManagerConfig :=
  mkConfig t default_limits true (seconds 30) true (seconds 60) false ∅.

Definition with_limits (l : ResourceLimits) (c : ResourceManagerConfig) : ResourceManagerConfig :=
  set_limits l c.

Definition with_hard_limit (limit : Z) (c : ResourceManagerConfig) : ResourceManagerConfig :=
  let l := limits c in
  set_limits (mkLimits (limits_type l) limit (soft_limit l) (allow_overcommit l) (overcommit_ratio l)
    (system_reserve l)) c.

Definition with_soft_limit (limit : Z) (c : ResourceManagerConfig) : ResourceManagerConfig :=
  let l := limits c in
  set_limits (mkLimits (limits_type l) (hard_limit l) limit (allow_overcommit l) (overcommit_ratio l)
    (system_reserve l)) c.

Definition with_overcommit (ratio : f64) (c : ResourceManagerConfig) : ResourceManagerConfig :=
  let l := limits c in
  set_limits (mkLimits (limits_type l) (hard_limit l) (soft_limit l) true ratio (system_reserve l)) c.

Definition with_system_reserve (reserve : Z) (c : ResourceManagerConfig) : ResourceManagerConfig :=
  let l := limits c in
  set_limits (mkLimits (limits_type l) (hard_limit l) (soft_limit l) (allow_overcommit l)
    (overcommit_ratio l) reserve) c.

Definition with_monitoring_interval (i : Z) (c : ResourceManagerConfig) : ResourceManagerConfig :=
  mkConfig (config_type c) (limits c) (enable_monitoring c) i (enable_health_checks c)
    (health_check_interval c) (enable_telemetry c) (custom_config c).

Definition with_health_check_interval (i : Z) (c : ResourceManagerConfig) : ResourceManagerConfig :=
  mkConfig (config_type c) (limits c) (enable_monitoring c) (monitoring_interval c)
    (enable_health_checks c) i (enable_telemetry c) (custom_config c).

Definition with_telemetry (enabled : bool) (c : ResourceManagerConfig) : ResourceManagerConfig :=
  mkConfig (config_type c) (limits c) (enable_monitoring c) (monitoring_interval c)
    (enable_health_checks c) (health_check_interval c) enabled (custom_config c).

Definition with_custom_config (key value : string) (c : ResourceManagerConfig)
    : ResourceManagerConfig :=
  mkConfig (config_type c) (limits c) (enable_monitoring c) (monitoring_interval c)
    (enable_health_checks c) (health_check_interval c) (enable_telemetry c)
    (<[key := value]> (custom_config c)).

(** * What the managers share *)

(** What one call reads of its environment: the clock in nanoseconds (used for
    the id; [None] outside the range of [timestamp_nanos_opt]), the two other
    clock readings, a random number and the time the call took, [None] when the
    clock went back meanwhile. *)
Record OpEnv : Type := mkEnv {
  oe_nanos : option Z;
  oe_allocated_at : Z;
  oe_now : Z;
  oe_random : f64;
  oe_elapsed : option Z
}.

(** Both managers declare this private struct. *)
Record ManagerState : Type := mkManagerState {
  is_running : bool;
  ms_health : ResourceManagerHealth;
  ms_last_health_check : Z;
  ms_total_allocations : Z;
  ms_total_deallocations : Z;
  ms_failed_allocations : Z;
  allocation_times : list Z
}.

Definition default_state (now : Z) : ManagerState := mkManagerState false Stopped now 0 0 0 [].

Definition set_health (h : ResourceManagerHealth) (now : Z) (s : ManagerState) : ManagerState :=
  mkManagerState (is_running s) h now (ms_total_allocations s) (ms_total_deallocations s)
    (ms_failed_allocations s) (allocation_times s).

Definition set_running (b : bool) (h : ResourceManagerHealth) (s : ManagerState) : ManagerState :=
  mkManagerState b h (ms_last_health_check s) (ms_total_allocations s) (ms_total_deallocations s)
    (ms_failed_allocations s) (allocation_times s).

(** [total_allocations += 1] and the last 100 allocation times. *)
Definition count_allocation {P : Profile} (elapsed : option Z) (s : ManagerState)
    : BlixardResult ManagerState :=
  let? n := arith_u 64 (ms_total_allocations s + 1) in
  let times := match elapsed with
               | Some d => let ts := allocation_times s ++ [d] in
                           if (100 <? length ts)%nat then tail ts else ts
               | None => allocation_times s
               end in
  Ok (mkManagerState (is_running s) (ms_health s) (ms_last_health_check s) n
        (ms_total_deallocations s) (ms_failed_allocations s) times).

Definition count_deallocation {P : Profile} (s : ManagerState) : BlixardResult ManagerState :=
  let? n := arith_u 64 (ms_total_deallocations s + 1) in
  Ok (mkManagerState (is_running s) (ms_health s) (ms_last_health_check s) (ms_total_allocations s) n
        (ms_failed_allocations s) (allocation_times s)).

(** A background task: the handle that is kept, with whether its task was alive
    when it was spawned, and the number of tasks that run.  [interval] panics on
    a zero period, which ends the task at once; a handle that is overwritten is
    dropped, which lets its task run on. *)
Record Background : Type := mkBackground { handle : option bool; tasks : Z }.

Definition no_background : Background := mkBackground None 0.

Definition spawn_task (period : Z) (b : Background) : Background :=
  let alive := negb (period =? 0) in
  mkBackground (Some alive) (tasks b + if alive then 1 else 0).

Definition abort_task (b : Background) : Background :=
  match handle b with
  | Some true => mkBackground None (tasks b - 1)
  | _ => mkBackground None (tasks b)
  end.

Definition is_counted (a : ResourceAllocation) : bool :=
  bool_decide (status a = Active) || bool_decide (status a = Reserved).

Definition show_alloc_id (prefix tenant : string) (nanos : option Z) : ResourceId :=
  prefix +:+ tenant +:+ "-" +:+ pretty (default 0 nanos).

(** * The trait *)

Class ResourceManager (Env M : Type) : Type := {
  rm_resource_type : M -> ResourceType;
  rm_config : M -> ResourceManagerConfig;
  rm_allocate : Env -> ResourceAllocationRequest -> st M BlixardError ResourceAllocation;
  rm_deallocate : Env -> ResourceId -> st M BlixardError unit;
  rm_check_availability : ResourceAllocationRequest -> M -> BlixardResult bool;
  rm_get_usage : Env -> M -> BlixardResult ResourceUsage;
  rm_get_allocations : M -> BlixardResult (list ResourceAllocation);
  rm_get_allocation : ResourceId -> M -> BlixardResult (option ResourceAllocation);
  rm_initialize : Env -> st M BlixardError unit;
  rm_start : Env -> st M BlixardError unit;
  rm_stop : Env -> st M BlixardError unit;
  rm_health_check : M -> BlixardResult ResourceManagerHealth;
  rm_is_running : M -> bool;
  rm_get_metrics : Env -> M -> BlixardResult ResourceManagerMetrics;
  rm_update_limits : Env -> ResourceLimits -> st M BlixardError unit;
  rm_get_limits : M -> BlixardResult ResourceLimits;
  rm_validate_config : ResourceManagerConfig -> M -> BlixardResult unit;
  rm_update_config : Env -> ResourceManagerConfig -> st M BlixardError unit
}.

(** ** Default methods *)

Section Defaults.
Context {Env M : Type} `{ResourceManager Env M}.

Definition set_status (s : AllocationStatus) (a : ResourceAllocation) : ResourceAllocation :=
  mkAllocation (allocation_id a) (request a) (allocated_amount a) (allocated_on a) (allocated_at a) s.

Definition reserve (env : Env) (r : ResourceAllocationRequest) : st M BlixardError ResourceAllocation :=
  let* allocation := rm_allocate env r in
  sret (set_status Reserved allocation).

Definition activate_reservation (id : ResourceId) : st M BlixardError unit := sret tt.

Definition get_efficiency_metrics (env : Env) (now : Z) (m : M)
    : BlixardResult ResourceEfficiencyMetrics :=
  let? usage := rm_get_usage env m in
  Ok (mkEfficiency (usage_type usage)
    (if 0 <? usage_allocated usage
     then f64_div (f64_of_Z (used_amount usage)) (f64_of_Z (usage_allocated usage)) else f64_0)
    (f64_div (utilization_percent usage) f64_100)
    (if 0 <? allocation_count usage
     then f64_div (f64_of_Z (usage_allocated usage))
            (f64_mul (f64_of_Z (allocation_count usage)) (f64_of_Z 1024)) else f64_0)
    now).

(** [get_status] is the same in the three managers. *)
Definition get_status (env : Env) (now : Z) (m : M) : BlixardResult ResourceManagerStatus :=
  let? h := rm_health_check m in
  let? usage := rm_get_usage env m in
  let? l := rm_get_limits m in
  let? metrics := rm_get_metrics env m in
  Ok (mkStatus (rm_resource_type m) h (rm_is_running m) usage l metrics now).
End Defaults.

(** ** What a manager promises *)

(** [rm_wf] is the manager's own invariant and [rm_counts n] that its counters
    have room for [n] more operations. *)
Class ResourceManagerOk (Env M : Type) `{ResourceManager Env M} : Type := {
  rm_wf : M -> Prop;
  rm_counts : Z -> M -> Prop;
  rm_counts_weaken : forall n m, rm_counts (n + 1) m -> rm_counts n m;
  rm_get_total : forall id m, exists o, rm_get_allocation id m = Ok o;
  rm_get_id : forall id m a, rm_wf m -> rm_get_allocation id m = Ok (Some a) -> allocation_id a = id;
  rm_list_ok : forall m, rm_wf m ->
    exists l, rm_get_allocations m = Ok l /\ NoDup (allocation_id <$> l) /\
      forall a, a ∈ l <-> rm_get_allocation (allocation_id a) m = Ok (Some a);
  rm_allocate_ok : forall env r n m a m',
    rm_wf m -> 0 <= n -> rm_counts (n + 1) m -> 0 <= amount r < 2 ^ 64 ->
    rm_allocate env r m = (Ok a, m') -> rm_get_allocation (allocation_id a) m = Ok None ->
    rm_wf m' /\ rm_counts n m' /\ rm_get_allocation (allocation_id a) m' = Ok (Some a) /\
    forall id, id <> allocation_id a -> rm_get_allocation id m' = rm_get_allocation id m;
  rm_allocate_err : forall env r m e m',
    rm_wf m -> 0 <= amount r < 2 ^ 64 -> rm_allocate env r m = (Err e, m') -> m' = m;
  rm_deallocate_ok : forall env id n m a,
    rm_wf m -> 0 <= n -> rm_counts (n + 1) m -> rm_get_allocation id m = Ok (Some a) ->
    exists m', rm_deallocate env id m = (Ok tt, m') /\ rm_wf m' /\ rm_counts n m' /\
      rm_get_allocation id m' = Ok None /\
      forall id', id' <> id -> rm_get_allocation id' m' = rm_get_allocation id' m;
  rm_deallocate_unknown : forall env id m,
    rm_get_allocation id m = Ok None -> exists e, rm_deallocate env id m = (Err e, m)
}.

(** * The composite manager *)

Section Composite.
Context {Env M : Type} `{ResourceManager Env M} `{HashIter} {P : Profile}.

Record CompositeResourceManager : Type := mkComposite {
  managers : gmap ResourceType M;
  composite_config : ResourceManagerConfig
}.

(** The environment of a composite call: the clock, and that of each manager. *)
Record CompositeEnv : Type := mkCompositeEnv { ce_now : Z; ce_of : ResourceType -> Env }.

Definition composite_type : ResourceType := Custom "composite".

Definition composite_new : CompositeResourceManager := mkComposite ∅ (builder_new composite_type).

Definition set_manager (t : ResourceType) (m : M) (c : CompositeResourceManager)
    : CompositeResourceManager := mkComposite (<[t := m]> (managers c)) (composite_config c).

Definition add_manager (t : ResourceType) (m : M)
    : st CompositeResourceManager BlixardError unit := smodify (set_manager t m).

(** The manager's method runs on the manager that is stored. *)
Definition on_manager {A} (t : ResourceType) (m : M) (op : st M BlixardError A)
    : st CompositeResourceManager BlixardError A :=
  fun c => let '(o, m') := op m in (o, set_manager t m' c).

(** The removed manager is stopped and dropped, whatever [stop] returns. *)
Definition remove_manager (env : CompositeEnv) (t : ResourceType)
    : st CompositeResourceManager BlixardError unit :=
  let* c := sget in
  match managers c !! t with
  | Some m =>
      smodify (fun c => mkComposite (delete t (managers c)) (composite_config c)) ;*
      slift (rm_stop (ce_of env t) m).1
  | None => sret tt
  end.

Definition get_resource_types (c : CompositeResourceManager) : list ResourceType :=
  (hash_iter (managers c)).*1.

Definition composite_allocate (env : CompositeEnv) (r : ResourceAllocationRequest)
    : st CompositeResourceManager BlixardError ResourceAllocation :=
  let* c := sget in
  match managers c !! resource_type r with
  | Some m => on_manager (resource_type r) m (rm_allocate (ce_of env (resource_type r)) r)
  | None => sfail (ResourceUnavailable (resource_type_to_string (resource_type r)))
  end.

(** The first manager, in iteration order, that knows the allocation. *)
Fixpoint find_owner (id : ResourceId) (ms : list (ResourceType * M))
    : BlixardResult (option (ResourceType * M * ResourceAllocation)) :=
  match ms with
  | [] => Ok None
  | (t, m) :: ms' =>
      match rm_get_allocation id m with
      | Ok (Some a) => Ok (Some (t, m, a))
      | Panic => Panic
      | _ => find_owner id ms'
      end
  end.

Definition composite_deallocate (env : CompositeEnv) (id : ResourceId)
    : st CompositeResourceManager BlixardError unit :=
  let* c := sget in
  let* owner := slift (find_owner id (hash_iter (managers c))) in
  match owner with
  | Some (t, m, _) => on_manager t m (rm_deallocate (ce_of env t) id)
  | None => sfail (ResourceUnavailable "unknown")
  end.

Definition composite_check_availability (r : ResourceAllocationRequest)
    (c : CompositeResourceManager) : BlixardResult bool :=
  match managers c !! resource_type r with
  | Some m => rm_check_availability r m
  | None => Ok false
  end.

(** A [for] loop over the managers whose body skips those that answer with an
    error: [if let Ok(x) = ask(manager) { acc = add(acc, x)? }]. *)
Definition over_managers {A B} (ask : ResourceType -> M -> BlixardResult A)
    (add : B -> A -> BlixardResult B) (b : B) (c : CompositeResourceManager) : BlixardResult B :=
  ofold (fun acc tm =>
           match ask tm.1 tm.2 with Ok x => add acc x | Err _ => Ok acc | Panic => Panic end)
    b (hash_iter (managers c)).

Definition composite_get_usage (env : CompositeEnv) (c : CompositeResourceManager)
    : BlixardResult ResourceUsage :=
  let? (cap, all, used, n) := over_managers (fun t => rm_get_usage (ce_of env t))
    (fun '(cap, all, used, n) u =>
       let? cap' := arith_u 64 (cap + total_capacity u) in
       let? all' := arith_u 64 (all + usage_allocated u) in
       let? used' := arith_u 64 (used + used_amount u) in
       let? n' := arith_u 64 (n + allocation_count u) in
       Ok (cap', all', used', n')) (0, 0, 0, 0) c in
  Ok (mkUsage composite_type cap all used n (ce_now env)).

Definition composite_get_allocations (c : CompositeResourceManager)
    : BlixardResult (list ResourceAllocation) :=
  over_managers (fun _ => rm_get_allocations) (fun acc l => Ok (acc ++ l)) [] c.

Definition composite_get_allocation (id : ResourceId) (c : CompositeResourceManager)
    : BlixardResult (option ResourceAllocation) :=
  let? owner := find_owner id (hash_iter (managers c)) in
  Ok (snd <$> owner).

(** [initialize], [start] and [stop] call the method of every manager; an error
    is logged and the loop goes on. *)
Definition each_manager (env : CompositeEnv) (op : Env -> st M BlixardError unit)
    : st CompositeResourceManager BlixardError unit :=
  let* c := sget in
  sfor (fun tm => signore (on_manager tm.1 tm.2 (op (ce_of env tm.1)))) (hash_iter (managers c)).

Definition composite_initialize (env : CompositeEnv) : st CompositeResourceManager BlixardError unit :=
  each_manager env rm_initialize.
Definition composite_start (env : CompositeEnv) : st CompositeResourceManager BlixardError unit :=
  each_manager env rm_start.
Definition composite_stop (env : CompositeEnv) : st CompositeResourceManager BlixardError unit :=
  each_manager env rm_stop.

(** The number of unhealthy and of degraded managers. *)
Definition count_health (acc : BlixardResult (Z * Z)) (tm : ResourceType * M)
    : BlixardResult (Z * Z) :=
  let? (unhealthy, degraded) := acc in
  match rm_health_check tm.2 with
  | Ok Healthy => Ok (unhealthy, degraded)
  | Ok Degraded => Ok (unhealthy, degraded + 1)
  | Ok Unhealthy | Ok Stopped | Err _ => Ok (unhealthy + 1, degraded)
  | Panic => Panic
  end.

Definition composite_health_check (c : CompositeResourceManager)
    : BlixardResult ResourceManagerHealth :=
  let? (unhealthy, degraded) := foldl count_health (Ok (0, 0)) (hash_iter (managers c)) in
  Ok (if 0 <? unhealthy then Unhealthy else if 0 <? degraded then Degraded else Healthy).

Definition composite_is_running (c : CompositeResourceManager) : bool :=
  if bool_decide (managers c = ∅) then false
  else forallb (fun tm => rm_is_running tm.2) (hash_iter (managers c)).

Definition composite_get_metrics (env : CompositeEnv) (c : CompositeResourceManager)
    : BlixardResult ResourceManagerMetrics :=
  let? (alloc, dealloc, failed, times) := over_managers (fun t => rm_get_metrics (ce_of env t))
    (fun '(alloc, dealloc, failed, times) x =>
       let? alloc' := arith_u 64 (alloc + total_allocations x) in
       let? dealloc' := arith_u 64 (dealloc + total_deallocations x) in
       let? failed' := arith_u 64 (failed + failed_allocations x) in
       Ok (alloc', dealloc', failed', times ++ [avg_allocation_time_ms x])) (0, 0, 0, []) c in
  let avg := match times with
             | [] => f64_0
             | _ => f64_div (foldl f64_add f64_0 times) (f64_of_Z (Z.of_nat (length times)))
             end in
  let? h := match composite_health_check c with
            | Ok h => Ok h | Err _ => Ok Unhealthy | Panic => Panic end in
  Ok (mkMetrics composite_type alloc dealloc failed avg h (ce_now env) ∅).

Definition composite_update_limits (env : CompositeEnv) (l : ResourceLimits)
    : st CompositeResourceManager BlixardError unit :=
  let* c := sget in
  match managers c !! limits_type l with
  | Some m => on_manager (limits_type l) m (rm_update_limits (ce_of env (limits_type l)) l)
  | None => sfail (ResourceUnavailable (resource_type_to_string (limits_type l)))
  end.

(** The composite is itself a manager; its configuration is never changed. *)
#[export] Instance composite_manager : ResourceManager CompositeEnv CompositeResourceManager := {
  rm_resource_type := fun _ => composite_type;
  rm_config := composite_config;
  rm_allocate := composite_allocate;
  rm_deallocate := composite_deallocate;
  rm_check_availability := composite_check_availability;
  rm_get_usage := composite_get_usage;
  rm_get_allocations := composite_get_allocations;
  rm_get_allocation := composite_get_allocation;
  rm_initialize := composite_initialize;
  rm_start := composite_start;
  rm_stop := composite_stop;
  rm_health_check := composite_health_check;
  rm_is_running := composite_is_running;
  rm_get_metrics := composite_get_metrics;
  rm_update_limits := composite_update_limits;
  rm_get_limits := fun c => Ok (limits (composite_config c));
  rm_validate_config := fun _ _ => Ok tt;
  rm_update_config := fun _ _ => sret tt
}.
End Composite.

Arguments CompositeResourceManager : clear implicits.
Arguments CompositeEnv : clear implicits.

(** * Computations that return or panic *)

Definition no_err {S E A} (c : st S E A) : Prop := forall s e s', c s <> (Err e, s').

Section NoErr.
Context {S E : Type}.

Lemma no_err_ret {A} (a : A) : no_err (sret a : st S E A).
Proof. by intros s e s'. Qed.
Lemma no_err_get : no_err (sget : st S E S).
Proof. by intros s e s'. Qed.
Lemma no_err_modify (f : S -> S) : no_err (smodify f : st S E unit).
Proof. by intros s e s'. Qed.
Lemma no_err_lift {A} (m : outcome E A) : (forall e, m <> Err e) -> no_err (slift m : st S E A).
Proof. intros Hm s e s' [= ? _]. by eapply Hm. Qed.
Lemma no_err_bind {A B} (m : st S E A) (k : A -> st S E B) :
  no_err m -> (forall a, no_err (k a)) -> no_err (sbind m k).
Proof.
  intros Hm Hk s e s'. unfold sbind. destruct (m s) as [[a|e1|] s1] eqn:E1; [apply Hk| |done].
  intros [= -> ->]. by eapply Hm.
Qed.
Lemma no_err_for {A} (f : A -> st S E unit) l : (forall a, no_err (f a)) -> no_err (sfor f l).
Proof. intros Hf. induction l; simpl; [apply no_err_ret|by apply no_err_bind]. Qed.
End NoErr.

Lemma arith_u_no_err {P : Profile} {E} w z (e : E) : arith_u w z <> Err e.
Proof. unfold arith_u. destruct (fits_u w z); [done|]. by destruct overflow_checks. Qed.

Lemma obind_no_err {E A B} (m : outcome E A) (k : A -> outcome E B) :
  (forall e, m <> Err e) -> (forall a e, k a <> Err e) -> forall e, obind m k <> Err e.
Proof. intros Hm Hk e. destruct m as [a|e'|]; simpl; [apply Hk|by specialize (Hm e')|done]. Qed.

Lemma ofold_no_err {E A B} (f : B -> A -> outcome E B) b l :
  (forall b a e, f b a <> Err e) -> forall e, ofold f b l <> Err e.
Proof.
  intros Hf. revert b. induction l as [|a l IH]; intros b e; simpl; [done|].
  apply obind_no_err; auto.
Qed.

Create HintDb no_err.
#[export] Hint Resolve no_err_ret no_err_get no_err_modify no_err_lift no_err_bind no_err_for
  arith_u_no_err obind_no_err ofold_no_err : no_err.
#[export] Hint Extern 1 (Ok _ <> Err _) => discriminate : no_err.

(** * Sums over a table *)

#[export] Instance sum_perm : Proper ((≡ₚ) ==> (=)) (foldr Z.add 0).
Proof. intros l1 l2 Hp. induction Hp; simpl; lia. Qed.

Section MapSum.
Context {K : Type} `{Countable K} {V : Type} (f : V -> Z).
Implicit Types (m : gmap K V) (l : list V).

Lemma map_sum_empty : map_sum f (∅ : gmap K V) = 0.
Proof. unfold map_sum. by rewrite map_to_list_empty. Qed.

Lemma map_sum_insert m k v : m !! k = None -> map_sum f (<[k := v]> m) = f v + map_sum f m.
Proof. intros Hk. unfold map_sum. by rewrite map_to_list_insert. Qed.

Lemma map_sum_delete m k v : m !! k = Some v -> map_sum f m = f v + map_sum f (delete k m).
Proof. intros Hk. unfold map_sum. by rewrite <-(map_to_list_delete m k v Hk). Qed.

Lemma foldr_add_nonneg l : (forall v, v ∈ l -> 0 <= f v) -> 0 <= foldr Z.add 0 (f <$> l).
Proof.
  induction l as [|v l IH]; csimpl; intros Hf; [lia|].
  assert (0 <= f v) by (apply Hf; left). assert (0 <= foldr Z.add 0 (f <$> l)); [|lia].
  apply IH. intros. apply Hf. by right.
Qed.

Lemma map_sum_nonneg m : (forall k v, m !! k = Some v -> 0 <= f v) -> 0 <= map_sum f m.
Proof.
  intros Hf. apply foldr_add_nonneg. intros v ([k v'] & -> & Hin)%list_elem_of_fmap.
  by eapply Hf, elem_of_map_to_list.
Qed.

Lemma map_sum_ge m k v :
  (forall k v, m !! k = Some v -> 0 <= f v) -> m !! k = Some v -> f v <= map_sum f m.
Proof.
  intros Hf Hk. rewrite (map_sum_delete m k v Hk).
  assert (0 <= map_sum f (delete k m)); [|lia].
  apply map_sum_nonneg. intros k' v' [_ ?]%lookup_delete_Some. by eapply Hf.
Qed.

Lemma map_sum_bound m c :
  (forall k v, m !! k = Some v -> f v <= c) -> map_sum f m <= Z.of_nat (size m) * c.
Proof.
  induction m as [|k v m Hk _ IH] using map_first_key_ind; intros Hf.
  - rewrite map_sum_empty, map_size_empty. lia.
  - rewrite map_sum_insert, map_size_insert_None by done.
    assert (f v <= c) by (apply (Hf k); by rewrite lookup_insert_eq).
    assert (map_sum f m <= Z.of_nat (size m) * c); [|lia].
    apply IH. intros k' v' Hk'. apply (Hf k'). rewrite lookup_insert_ne by congruence. done.
Qed.

(** Over any order of the entries, the checked sum of the counted values is
    the sum of the table when that fits. *)
Lemma ofold_sum {P : Profile} {E} (counted : V -> bool) l t n :
  (forall v, v ∈ l -> counted v = true /\ 0 <= f v) -> 0 <= t ->
  t + foldr Z.add 0 (f <$> l) < 2 ^ 64 ->
  ofold (fun '(t, n) v => if counted v then let? t' := arith_u (E:=E) 64 (t + f v) in Ok (t', n + 1)
                          else Ok (t, n)) (t, n) l =
  Ok (t + foldr Z.add 0 (f <$> l), n + Z.of_nat (length l)).
Proof.
  revert t n. induction l as [|v l IH]; intros t n Hl Ht Hs; csimpl in *.
  { f_equal. f_equal; lia. }
  destruct (Hl v ltac:(left)) as [-> Hv].
  assert (0 <= foldr Z.add 0 (f <$> l)) by (apply foldr_add_nonneg; intros; apply Hl; by right).
  rewrite arith_u_fits by lia. simpl. rewrite IH by (try lia; intros; apply Hl; by right).
  f_equal. f_equal; lia.
Qed.
End MapSum.

Lemma hash_iter_sum `{HashIter} `{Countable K} {V} (f : V -> Z) (m : gmap K V) :
  foldr Z.add 0 (f <$> (hash_iter m).*2) = map_sum f m.
Proof. unfold map_sum. by rewrite hash_iter_perm. Qed.

(** The values of a table whose entries know their keys. *)
Lemma list_by_key `{HashIter} `{Countable K} {V} (key : V -> K) (m : gmap K V) :
  (forall k v, m !! k = Some v -> key v = k) ->
  NoDup (key <$> (hash_iter m).*2) /\
  forall v, v ∈ (hash_iter m).*2 <-> m !! key v = Some v.
Proof.
  intros Hk. split.
  - assert (E : key <$> (hash_iter m).*2 = (hash_iter m).*1).
    { rewrite <-list_fmap_compose. apply list_fmap_ext. intros i [k v] Hi. simpl.
      by apply Hk, elem_of_hash_iter, (list_elem_of_lookup_2 _ i). }
    rewrite E, hash_iter_perm. apply NoDup_fst_map_to_list.
  - intros v. split.
    + intros ([k v'] & -> & Hin%elem_of_hash_iter)%list_elem_of_fmap. simpl.
      by rewrite (Hk k v' Hin).
    + intros Hv. apply list_elem_of_fmap. exists (key v, v). split; [done|].
      by apply elem_of_hash_iter.
Qed.

(** * The composite is one table of allocations *)

Section Refinement.
Context {Env M : Type} `{RM : ResourceManager Env M} `{!ResourceManagerOk Env M}.
Context `{HashIter} {P : Profile}.
Implicit Types (c : CompositeResourceManager M) (A : gmap ResourceId ResourceAllocation).

Definition owns c (t : ResourceType) (id : ResourceId) (a : ResourceAllocation) : Prop :=
  exists m, managers c !! t = Some m /\ rm_get_allocation id m = Ok (Some a).

(** The specification's state: the allocations of all managers, by id. *)
Definition represents c A : Prop := forall id a, A !! id = Some a <-> exists t, owns c t id a.

(** Every manager satisfies its invariant, and no id is known to two managers. *)
Definition composite_wf c : Prop :=
  (forall t m, managers c !! t = Some m -> rm_wf m) /\
  (forall id t1 a1 t2 a2, owns c t1 id a1 -> owns c t2 id a2 -> t1 = t2).

Definition composite_counts (n : Z) c : Prop := forall t m, managers c !! t = Some m -> rm_counts n m.

Lemma find_owner_spec id ms :
  exists o, find_owner id ms = Ok o /\
    match o with
    | Some (t, m, a) => (t, m) ∈ ms /\ rm_get_allocation id m = Ok (Some a)
    | None => forall t m, (t, m) ∈ ms -> rm_get_allocation id m = Ok None
    end.
Proof.
  induction ms as [|[t m] ms (o & IH & Ho)]; simpl.
  { exists None. split; [done|]. by intros ?? ?%not_elem_of_nil. }
  destruct (rm_get_total id m) as [[a|] Eg]; rewrite Eg.
  - exists (Some (t, m, a)). split_and!; [done|by left|done].
  - exists o. split; [done|]. destruct o as [[[t' m'] a]|].
    + destruct Ho. split; [by right|done].
    + intros t' m' [[= -> ->]|?]%elem_of_cons; [done|by eapply Ho].
Qed.

(** What the search over the stored managers finds. *)
Lemma find_owner_stored c A id :
  represents c A -> composite_wf c ->
  match A !! id with
  | Some a => exists t m, find_owner id (hash_iter (managers c)) = Ok (Some (t, m, a)) /\
                managers c !! t = Some m /\ rm_get_allocation id m = Ok (Some a)
  | None => find_owner id (hash_iter (managers c)) = Ok None /\
              forall t m, managers c !! t = Some m -> rm_get_allocation id m = Ok None
  end.
Proof.
  intros Hrep [_ Huniq].
  destruct (find_owner_spec id (hash_iter (managers c))) as ([[[t m] a]|] & E & Hspec).
  - destruct Hspec as [Hin%elem_of_hash_iter Hget].
    rewrite (proj2 (Hrep id a)) by (exists t, m; done). eauto 6.
  - destruct (A !! id) as [a|] eqn:EA.
    + apply Hrep in EA as (t & m & Hm & Hget).
      rewrite (Hspec t m) in Hget by (by apply elem_of_hash_iter). done.
    + split; [done|]. intros t m Hm. by eapply Hspec, elem_of_hash_iter.
Qed.

Lemma owns_set_manager c t m t' id a :
  owns (set_manager t m c) t' id a <->
  (t' = t /\ rm_get_allocation id m = Ok (Some a)) \/ (t' <> t /\ owns c t' id a).
Proof.
  unfold owns, set_manager. simpl. destruct (decide (t' = t)) as [->|Hne].
  - setoid_rewrite lookup_insert_eq. naive_solver.
  - setoid_rewrite lookup_insert_ne; [|done]. naive_solver.
Qed.

(** Replacing a manager by one that differs in the answer for one id. *)
Lemma set_manager_represents c A t m m' id (v : option ResourceAllocation) :
  represents c A -> composite_wf c -> managers c !! t = Some m -> rm_wf m' ->
  (forall t' a, owns c t' id a -> t' = t) ->
  rm_get_allocation id m' = Ok v ->
  (forall id', id' <> id -> rm_get_allocation id' m' = rm_get_allocation id' m) ->
  represents (set_manager t m' c) (partial_alter (fun _ => v) id A) /\
  composite_wf (set_manager t m' c).
Proof.
  intros Hrep [Hwf Huniq] Hm Hwf' Hown Hid Hothers.
  assert (Hsame : forall t' id' a, id' <> id ->
            owns (set_manager t m' c) t' id' a <-> owns c t' id' a).
  { intros t' id' a Hne. rewrite owns_set_manager, Hothers by done. split.
    - intros [[-> ?]|[_ ?]]; [by exists m|done].
    - intros Ho. destruct (decide (t' = t)) as [->|]; [left|by right].
      destruct Ho as (m0 & E & ?). by simplify_eq. }
  assert (Hhere : forall t' a, owns (set_manager t m' c) t' id a <-> t' = t /\ v = Some a).
  { intros t' a. rewrite owns_set_manager, Hid. split.
    - intros [[-> [= ->]]|[Hne Ho]]; [done|]. by apply Hown in Ho.
    - intros [-> ->]. by left. }
  split; [|split].
  - intros id' a. destruct (decide (id' = id)) as [->|Hne].
    + rewrite lookup_partial_alter_eq. setoid_rewrite Hhere. clear. naive_solver.
    + rewrite lookup_partial_alter_ne by done. rewrite (Hrep id' a).
      by setoid_rewrite (Hsame _ _ _ Hne).
  - intros t' m''. simpl. destruct (decide (t' = t)) as [->|].
    + rewrite lookup_insert_eq. by intros [= <-].
    + rewrite lookup_insert_ne by done. apply Hwf.
  - intros id' t1 a1 t2 a2. destruct (decide (id' = id)) as [->|Hne].
    + rewrite !Hhere. by intros [-> _] [-> _].
    + rewrite !Hsame by done. apply Huniq.
Qed.

Lemma set_manager_counts c n t m :
  composite_counts (n + 1) c -> rm_counts n m -> composite_counts n (set_manager t m c).
Proof.
  intros Hc Hm t' m'. simpl. destruct (decide (t' = t)) as [->|].
  - rewrite lookup_insert_eq. by intros [= <-].
  - rewrite lookup_insert_ne by done. intros Hl. by eapply rm_counts_weaken, Hc.
Qed.

Lemma set_manager_same c t m : managers c !! t = Some m -> set_manager t m c = c.
Proof. intros Hm. destruct c as [ms cfg]. unfold set_manager. simpl in *. by rewrite insert_id. Qed.

(** One operation on the table: lookup, allocation, refusal, release. *)
Lemma composite_lookup c A id :
  represents c A -> composite_wf c -> composite_get_allocation id c = Ok (A !! id).
Proof.
  intros Hrep Hwf. unfold composite_get_allocation.
  pose proof (find_owner_stored c A id Hrep Hwf) as Hf.
  destruct (A !! id) as [a|]; [destruct Hf as (t & m & -> & _)|destruct Hf as [-> _]]; done.
Qed.

Lemma represents_id c A id a :
  represents c A -> composite_wf c -> A !! id = Some a -> allocation_id a = id.
Proof. intros Hrep [Hwf _] (t & m & Hm & Hg)%Hrep. eapply rm_get_id; [by eapply Hwf|done]. Qed.

Lemma composite_allocate_ok env c A r n a c' :
  represents c A -> composite_wf c -> 0 <= n -> composite_counts (n + 1) c ->
  0 <= amount r < 2 ^ 64 -> composite_allocate env r c = (Ok a, c') -> A !! allocation_id a = None ->
  represents c' (<[allocation_id a := a]> A) /\ composite_wf c' /\ composite_counts n c'.
Proof.
  intros Hrep Hwf Hn Hcount Hamount E Hfresh. unfold composite_allocate, on_manager in E. inv_st E.
  pose proof (find_owner_stored c A (allocation_id a) Hrep Hwf) as Hf. rewrite Hfresh in Hf.
  destruct Hf as [_ Hnone]. destruct (rm_allocate_ok _ _ _ _ _ _ (proj1 Hwf _ _ E0) Hn
    (Hcount _ _ E0) Hamount E1 (Hnone _ _ E0)) as (Hw & Hc & Hg & Ho).
  destruct (set_manager_represents c A _ _ _ (allocation_id a) (Some a) Hrep Hwf E0 Hw) as [? ?]; [|done|done|].
  - intros t' a' (mx & Hm & Hx). rewrite (Hnone _ _ Hm) in Hx. done.
  - split_and!; [done|done|]. by apply set_manager_counts.
Qed.

Lemma composite_allocate_err env c r e c' :
  composite_wf c -> 0 <= amount r < 2 ^ 64 -> composite_allocate env r c = (Err e, c') -> c' = c.
Proof.
  intros Hwf Hamount E. unfold composite_allocate, on_manager in E. inv_st E.
  apply rm_allocate_err in E1 as ->; [by apply set_manager_same|by eapply (proj1 Hwf)|done].
Qed.

Lemma composite_deallocate_ok env c A n id :
  represents c A -> composite_wf c -> 0 <= n -> composite_counts (n + 1) c ->
  match A !! id with
  | Some _ => exists c', composite_deallocate env id c = (Ok tt, c') /\
                represents c' (delete id A) /\ composite_wf c' /\ composite_counts n c'
  | None => exists e, composite_deallocate env id c = (Err e, c)
  end.
Proof.
  intros Hrep Hwf Hn Hcount. unfold composite_deallocate, on_manager.
  pose proof (find_owner_stored c A id Hrep Hwf) as Hf. unfold_st. destruct (A !! id) as [a|].
  - destruct Hf as (t & m & -> & Hm & Hg). destruct (rm_deallocate_ok (ce_of env t) id n m a
      (proj1 Hwf _ _ Hm) Hn (Hcount _ _ Hm) Hg) as (m' & -> & Hw & Hc & Hnone & Ho).
    eexists. split; [done|].
    destruct (set_manager_represents c A _ _ _ id None Hrep Hwf Hm Hw) as [? ?]; [|done|done|].
    + intros t' a' Hown. eapply (proj2 Hwf); [done|by exists m].
    + split_and!; [done|done|]. by apply set_manager_counts.
  - destruct Hf as [-> _]. by eexists.
Qed.

(** The loop of [get_allocations] over managers that share no id. *)
Lemma list_managers (ms : list (ResourceType * M)) acc :
  (forall t m, (t, m) ∈ ms -> rm_wf m) -> NoDup ms.*1 ->
  (forall id t1 m1 a1 t2 m2 a2, (t1, m1) ∈ ms -> (t2, m2) ∈ ms ->
     rm_get_allocation id m1 = Ok (Some a1) -> rm_get_allocation id m2 = Ok (Some a2) -> t1 = t2) ->
  exists l,
    ofold (fun acc tm => match rm_get_allocations tm.2 with
                         | Ok x => Ok (acc ++ x) | Err _ => Ok acc | Panic => Panic end) acc ms
      = (Ok (acc ++ l) : BlixardResult _) /\
    NoDup (allocation_id <$> l) /\
    forall a, a ∈ l <-> exists t m, (t, m) ∈ ms /\ rm_get_allocation (allocation_id a) m = Ok (Some a).
Proof.
  revert acc. induction ms as [|[t m] ms IH]; intros acc Hwf Hnd Huniq; simpl.
  { exists []. rewrite app_nil_r. split_and!; [done|constructor|]. intros a. split.
    - by intros ?%not_elem_of_nil.
    - by intros (? & ? & ?%not_elem_of_nil & _). }
  apply NoDup_cons in Hnd as [Ht Hnd].
  destruct (rm_list_ok m (Hwf t m ltac:(left))) as (l1 & -> & Hn1 & Hl1). simpl.
  destruct (IH (acc ++ l1)) as (l2 & -> & Hn2 & Hl2).
  { intros. eapply Hwf. by right. }
  { done. }
  { intros id t1 m1 a1 t2 m2 a2 ? ?. eapply Huniq; by right. }
  exists (l1 ++ l2). rewrite app_assoc. split_and!; [done|..].
  - rewrite fmap_app. apply NoDup_app. split_and!; [done| |done].
    intros id (a1 & -> & Ha1%Hl1)%list_elem_of_fmap (a2 & Eid & Ha2)%list_elem_of_fmap.
    apply Hl2 in Ha2 as (t2 & m2 & Hin & Hg). rewrite <-Eid in Hg. apply Ht.
    rewrite (Huniq _ t m a1 t2 m2 a2 ltac:(left) ltac:(by right) Ha1 Hg).
    apply list_elem_of_fmap. by exists (t2, m2).
  - intros a. rewrite elem_of_app, Hl1, Hl2. split.
    + intros [Ha|(t2 & m2 & Hin & Ha)]; [exists t, m|exists t2, m2]; (split; [|done]);
        [by left|by right].
    + intros (t2 & m2 & [[= -> ->]|Hin]%elem_of_cons & Ha); [by left|right; eauto].
Qed.

(** The listing holds the table's allocations, each once. *)
Lemma composite_list_ok c A :
  represents c A -> composite_wf c ->
  exists l, composite_get_allocations c = Ok l /\ NoDup (allocation_id <$> l) /\
    forall a, a ∈ l <-> A !! allocation_id a = Some a.
Proof.
  intros Hrep [Hwf Huniq]. destruct (list_managers (hash_iter (managers c)) []) as (l & E & Hn & Hl).
  - intros t m Hin%elem_of_hash_iter. by eapply Hwf.
  - rewrite hash_iter_perm. apply NoDup_fst_map_to_list.
  - intros id t1 m1 a1 t2 m2 a2 H1%elem_of_hash_iter H2%elem_of_hash_iter Hg1 Hg2.
    eapply Huniq; [by exists m1|by exists m2].
  - exists l. split; [exact E|]. split; [done|]. intros a. rewrite Hl, (Hrep (allocation_id a) a).
    split; intros (t & m & Hin & Hg); exists t, m; (split; [|done]); by apply elem_of_hash_iter.
Qed.

(** C34: Behind the per-type managers, the composite manager behaves as one
    table of allocations keyed by id, against any managers that keep the
    trait's promises: [get_allocation] answers what the table holds, a
    successful [allocate] with a fresh id adds its allocation, a refused one
    changes nothing, [deallocate] removes exactly the allocation of its id, and
    fails without effect when no manager knows it. *)
Theorem composite_refines_table env c A n r :
  represents c A -> composite_wf c -> 0 <= n -> composite_counts (n + 1) c ->
  0 <= amount r < 2 ^ 64 ->
  (forall id, composite_get_allocation id c = Ok (A !! id)) /\
  (forall a c', composite_allocate env r c = (Ok a, c') -> A !! allocation_id a = None ->
     represents c' (<[allocation_id a := a]> A) /\ composite_wf c' /\ composite_counts n c') /\
  (forall e c', composite_allocate env r c = (Err e, c') -> c' = c) /\
  (forall id, match A !! id with
              | Some _ => exists c', composite_deallocate env id c = (Ok tt, c') /\
                            represents c' (delete id A) /\ composite_wf c' /\ composite_counts n c'
              | None => exists e, composite_deallocate env id c = (Err e, c)
              end).
Proof.
  intros Hrep Hwf Hn Hcount Hamount. split_and!.
  - intros id. by apply composite_lookup.
  - intros a c'. by apply composite_allocate_ok.
  - intros e c'. by apply composite_allocate_err.
  - intros id. by apply composite_deallocate_ok.
Qed.
End Refinement.
