(* ===== verification/MemoryManager.v ===== *)
(** The memory manager (blixard-core/src/resource_managers/memory_manager.rs):
    admission against the capacity left by overcommit and system reserve, the
    usage statistics, the background tasks, and the [ResourceManager] methods.

    [allocate] checks the request under one lock and stores the allocation
    under another: [validate_allocation_request] and [commit_allocation] are
    its two halves, and the monitoring task's tick has two halves as well.  The
    theorems say what calls that run one after the other keep, and what calls
    that interleave can break. *)

From Stdlib Require Import ZArith Lia List.
From stdpp Require Import base tactics numbers gmap strings pretty option.
From stdpp Require Import list relations.
From S2P Require Import Prelude Float64 Errors ResourceApi.

Open Scope Z_scope.

Record MemoryResourceManager : Type := mkMemory {
  mem_config : ResourceManagerConfig;
  mem_allocations : gmap ResourceId ResourceAllocation;
  mem_usage : ResourceUsage;
  mem_state : ManagerState;
  mem_monitoring : Background;
  mem_health_checks : Background;
  mem_metrics : ResourceManagerMetrics
}.

Definition set_mem_allocations (x : gmap ResourceId ResourceAllocation) (m : MemoryResourceManager)
    : MemoryResourceManager :=
  mkMemory (mem_config m) x (mem_usage m) (mem_state m) (mem_monitoring m) (mem_health_checks m)
    (mem_metrics m).
Definition set_mem_usage (x : ResourceUsage) (m : MemoryResourceManager) : MemoryResourceManager :=
  mkMemory (mem_config m) (mem_allocations m) x (mem_state m) (mem_monitoring m)
    (mem_health_checks m) (mem_metrics m).
Definition set_mem_state (x : ManagerState) (m : MemoryResourceManager) : MemoryResourceManager :=
  mkMemory (mem_config m) (mem_allocations m) (mem_usage m) x (mem_monitoring m)
    (mem_health_checks m) (mem_metrics m).
Definition set_mem_background (mon hc : Background) (m : MemoryResourceManager)
    : MemoryResourceManager :=
  mkMemory (mem_config m) (mem_allocations m) (mem_usage m) (mem_state m) mon hc (mem_metrics m).
Definition set_mem_metrics (x : ResourceManagerMetrics) (m : MemoryResourceManager)
    : MemoryResourceManager :=
  mkMemory (mem_config m) (mem_allocations m) (mem_usage m) (mem_state m) (mem_monitoring m)
    (mem_health_checks m) x.

(** [new]; [now] is the clock. *)
Definition memory_new (now : Z) (config : ResourceManagerConfig) : MemoryResourceManager :=
  let config := mkConfig Memory (limits config) (enable_monitoring config)
    (monitoring_interval config) (enable_health_checks config) (health_check_interval config)
    (enable_telemetry config) (custom_config config) in
  mkMemory config ∅ (mkUsage Memory (hard_limit (limits config)) 0 0 0 now) (default_state now)
    no_background no_background (mkMetrics Memory 0 0 0 f64_0 Stopped now ∅).

(** ** The builder *)

Definition with_capacity (capacity_mb : Z) (c : ResourceManagerConfig) : ResourceManagerConfig :=
  with_soft_limit (f64_as_u 64 (f64_mul (f64_of_Z capacity_mb) (f64_lit 8 10)))
    (with_hard_limit capacity_mb c).

Definition with_monitoring (enabled : bool) (interval : Z) (c : ResourceManagerConfig)
    : ResourceManagerConfig :=
  mkConfig (config_type c) (limits c) enabled interval (enable_health_checks c)
    (health_check_interval c) (enable_telemetry c) (custom_config c).

Definition with_health_checks (enabled : bool) (interval : Z) (c : ResourceManagerConfig)
    : ResourceManagerConfig :=
  mkConfig (config_type c) (limits c) (enable_monitoring c) (monitoring_interval c) enabled interval
    (enable_telemetry c) (custom_config c).

(** ** Admission *)

Definition effective_capacity (m : MemoryResourceManager) : Z :=
  let l := limits (mem_config m) in
  if allow_overcommit l
  then f64_as_u 64 (f64_mul (f64_of_Z (hard_limit l)) (overcommit_ratio l))
  else hard_limit l.

Definition available_capacity (m : MemoryResourceManager) (current_allocated : Z) : Z :=
  sat_sub (sat_sub (effective_capacity m) current_allocated) (system_reserve (limits (mem_config m))).

Section Operations.
Context {P : Profile} `{HashIter}.

(** The sum with the soft limit only decides whether a warning is logged, but
    is computed. *)
Definition validate_allocation_request (m : MemoryResourceManager) (r : ResourceAllocationRequest)
    : BlixardResult unit :=
  if negb (bool_decide (resource_type r = Memory))
  then Err (ConfigurationError "memory_manager.allocation.resource_type") else
  let available := available_capacity m (usage_allocated (mem_usage m)) in
  if available <? amount r then Err InsufficientResources else
  let? _ := arith_u 64 (usage_allocated (mem_usage m) + amount r) in
  Ok tt.

Definition sum_allocations (l : list ResourceAllocation) : BlixardResult (Z * Z) :=
  ofold (fun '(t, n) a => if is_counted a then let? t' := arith_u 64 (t + allocated_amount a) in
                                               Ok (t', n + 1)
                          else Ok (t, n)) (0, 0) l.

Definition estimate_actual_usage (random : f64) (allocated : Z) : Z :=
  let usage_ratio := f64_add (f64_lit 75 100) (f64_mul random (f64_lit 15 100)) in
  f64_as_u 64 (f64_mul (f64_of_Z allocated) usage_ratio).

Definition update_usage_stats (env : OpEnv) : st MemoryResourceManager BlixardError unit :=
  let* m := sget in
  let* (total, active) := slift (sum_allocations (hash_iter (mem_allocations m)).*2) in
  smodify (set_mem_usage
    (mkUsage (usage_type (mem_usage m)) (total_capacity (mem_usage m)) total
       (estimate_actual_usage (oe_random env) total) active (oe_now env))).

Definition set_state_by (f : ManagerState -> BlixardResult ManagerState)
    : st MemoryResourceManager BlixardError unit :=
  let* m := sget in
  let* s := slift (f (mem_state m)) in
  smodify (set_mem_state s).

Definition new_allocation (env : OpEnv) (r : ResourceAllocationRequest) : ResourceAllocation :=
  mkAllocation (show_alloc_id "mem-" (tenant_id r) (oe_nanos env)) r (amount r) (Some "memory")
    (oe_allocated_at env) Active.

(** What [allocate] does once the request was found valid. *)
Definition commit_allocation (env : OpEnv) (r : ResourceAllocationRequest)
    : st MemoryResourceManager BlixardError ResourceAllocation :=
  let a := new_allocation env r in
  smodify (fun m => set_mem_allocations (<[allocation_id a := a]> (mem_allocations m)) m) ;*
  update_usage_stats env ;*
  set_state_by (count_allocation (oe_elapsed env)) ;*
  sret a.

Definition memory_allocate (env : OpEnv) (r : ResourceAllocationRequest)
    : st MemoryResourceManager BlixardError ResourceAllocation :=
  let* m := sget in
  let* _ := slift (validate_allocation_request m r) in
  commit_allocation env r.

Definition memory_deallocate (env : OpEnv) (id : ResourceId)
    : st MemoryResourceManager BlixardError unit :=
  let* m := sget in
  match mem_allocations m !! id with
  | Some _ =>
      smodify (set_mem_allocations (delete id (mem_allocations m))) ;*
      update_usage_stats env ;*
      set_state_by count_deallocation
  | None => sfail (ResourceUnavailable "memory")
  end.

Definition memory_check_availability (r : ResourceAllocationRequest) (m : MemoryResourceManager)
    : BlixardResult bool :=
  match validate_allocation_request m r with
  | Ok _ => Ok true
  | Err InsufficientResources => Ok false
  | Err e => Err e
  | Panic => Panic
  end.

(** ** Life cycle *)

Definition memory_initialize (env : OpEnv) : st MemoryResourceManager BlixardError unit :=
  smodify (fun m => set_mem_usage
    (mkUsage (usage_type (mem_usage m)) (hard_limit (limits (mem_config m)))
       (usage_allocated (mem_usage m)) (used_amount (mem_usage m)) (allocation_count (mem_usage m))
       (oe_now env)) m) ;*
  smodify (fun m => set_mem_state (set_health Healthy (oe_now env) (mem_state m)) m).

Definition start_monitoring : st MemoryResourceManager BlixardError unit :=
  smodify (fun m =>
    if enable_monitoring (mem_config m)
    then set_mem_background (spawn_task (monitoring_interval (mem_config m)) (mem_monitoring m))
           (mem_health_checks m) m
    else m).

Definition start_health_checks : st MemoryResourceManager BlixardError unit :=
  smodify (fun m =>
    if enable_health_checks (mem_config m)
    then set_mem_background (mem_monitoring m)
           (spawn_task (health_check_interval (mem_config m)) (mem_health_checks m)) m
    else m).

Definition stop_background_tasks : st MemoryResourceManager BlixardError unit :=
  smodify (fun m =>
    set_mem_background (abort_task (mem_monitoring m)) (abort_task (mem_health_checks m)) m).

Definition memory_start (env : OpEnv) : st MemoryResourceManager BlixardError unit :=
  start_monitoring ;*
  start_health_checks ;*
  smodify (fun m => set_mem_state (set_running true Healthy (mem_state m)) m).

Definition memory_stop (env : OpEnv) : st MemoryResourceManager BlixardError unit :=
  stop_background_tasks ;*
  smodify (fun m => set_mem_state (set_running false Stopped (mem_state m)) m).

(** ** The background tasks *)

(** A tick of the monitoring task reads the sum of the allocations under their
    lock, then stores it under the usage's lock. *)
Definition monitor_read (m : MemoryResourceManager) : BlixardResult Z :=
  let? (total, _) := sum_allocations (hash_iter (mem_allocations m)).*2 in Ok total.

Definition max_duration : Z := seconds (2 ^ 64) - 1.

Definition average_time (times : list Z) : BlixardResult (option f64) :=
  match times with
  | [] => Ok None
  | _ => let? total := ofold (fun t d => if t + d <=? max_duration then Ok (t + d) else Panic) 0 times in
         Ok (Some (f64_div (f64_of_Z (total / 10 ^ 6)) (f64_of_Z (Z.of_nat (length times)))))
  end.

Definition monitor_write (env : OpEnv) (allocated : Z) : st MemoryResourceManager BlixardError unit :=
  smodify (fun m => set_mem_usage
    (mkUsage (usage_type (mem_usage m)) (total_capacity (mem_usage m)) allocated
       (f64_as_u 64 (f64_mul (f64_of_Z allocated) (f64_lit 8 10)))
       (Z.of_nat (size (mem_allocations m))) (oe_now env)) m) ;*
  let* m := sget in
  let s := mem_state m in let x := mem_metrics m in
  let* avg := slift (average_time (allocation_times s)) in
  smodify (set_mem_metrics
    (mkMetrics (metrics_type x) (ms_total_allocations s) (ms_total_deallocations s)
       (ms_failed_allocations s) (default (avg_allocation_time_ms x) avg) (health x)
       (last_health_check x) (custom_metrics x))).

Definition monitor_tick (env : OpEnv) : st MemoryResourceManager BlixardError unit :=
  let* m := sget in
  let* allocated := slift (monitor_read m) in
  monitor_write env allocated.

Definition health_tick (env : OpEnv) : st MemoryResourceManager BlixardError unit :=
  smodify (fun m =>
    let utilization := utilization_percent (mem_usage m) in
    let h := if f64_ltb (f64_of_Z 95) utilization then Unhealthy
             else if f64_ltb (f64_of_Z 85) utilization || is_overallocated (mem_usage m)
             then Degraded else Healthy in
    set_mem_state (set_health h (oe_now env) (mem_state m)) m).

(** ** Configuration *)

Definition memory_update_limits (env : OpEnv) (l : ResourceLimits)
    : st MemoryResourceManager BlixardError unit :=
  if negb (bool_decide (limits_type l = Memory))
  then sfail (ConfigurationError "memory_manager.limits.resource_type") else
  smodify (fun m => set_mem_usage
    (mkUsage (usage_type (mem_usage m)) (hard_limit l) (usage_allocated (mem_usage m))
       (used_amount (mem_usage m)) (allocation_count (mem_usage m)) (oe_now env)) m).

Definition memory_validate_config (c : ResourceManagerConfig) : BlixardResult unit :=
  if negb (bool_decide (config_type c = Memory))
  then Err (ConfigurationError "memory_manager.config.resource_type") else
  if hard_limit (limits c) =? 0 then Err (ConfigurationError "memory_manager.config.hard_limit") else
  if hard_limit (limits c) <? soft_limit (limits c)
  then Err (ConfigurationError "memory_manager.config.soft_limit") else
  if f64_ltb (overcommit_ratio (limits c)) f64_1
  then Err (ConfigurationError "memory_manager.config.overcommit_ratio") else
  Ok tt.

#[export] Instance memory_manager : ResourceManager OpEnv MemoryResourceManager := {
  rm_resource_type := fun _ => Memory;
  rm_config := mem_config;
  rm_allocate := memory_allocate;
  rm_deallocate := memory_deallocate;
  rm_check_availability := memory_check_availability;
  rm_get_usage := fun _ m => Ok (mem_usage m);
  rm_get_allocations := fun m => Ok (hash_iter (mem_allocations m)).*2;
  rm_get_allocation := fun id m => Ok (mem_allocations m !! id);
  rm_initialize := memory_initialize;
  rm_start := memory_start;
  rm_stop := memory_stop;
  rm_health_check := fun m => Ok (ms_health (mem_state m));
  rm_is_running := fun m => is_running (mem_state m);
  rm_get_metrics := fun _ m => Ok (mem_metrics m);
  rm_update_limits := memory_update_limits;
  rm_get_limits := fun m => Ok (limits (mem_config m));
  rm_validate_config := fun c _ => memory_validate_config c;
  rm_update_config := fun _ c => slift (memory_validate_config c)
}.
End Operations.

(** * Invariant *)

Section Invariant.
Context {P : Profile} `{HashIter}.
Implicit Types (m : MemoryResourceManager) (r : ResourceAllocationRequest).

Definition allocated_total m : Z := map_sum allocated_amount (mem_allocations m).

(** What may be allocated: the effective capacity less the system reserve. *)
Definition mem_capacity m : Z :=
  sat_sub (effective_capacity m) (system_reserve (limits (mem_config m))).

Definition limits_ok (l : ResourceLimits) : Prop :=
  0 <= hard_limit l < 2 ^ 64 /\ 0 <= system_reserve l.

Definition entries_ok (x : gmap ResourceId ResourceAllocation) : Prop :=
  forall id a, x !! id = Some a ->
    is_counted a = true /\ 0 <= allocated_amount a /\ allocation_id a = id.

Definition memory_wf m : Prop :=
  limits_ok (limits (mem_config m)) /\ entries_ok (mem_allocations m) /\
  usage_allocated (mem_usage m) = allocated_total m /\ allocated_total m <= mem_capacity m.

(** The two counters have room for [n] more operations. *)
Definition memory_counts (n : Z) m : Prop :=
  0 <= ms_total_allocations (mem_state m) < 2 ^ 64 - n /\
  0 <= ms_total_deallocations (mem_state m) < 2 ^ 64 - n.

Lemma effective_capacity_range m :
  limits_ok (limits (mem_config m)) -> 0 <= effective_capacity m < 2 ^ 64.
Proof.
  intros [Hl _]. unfold effective_capacity. destruct (allow_overcommit _); [|done].
  by apply f64_as_u_range.
Qed.

Lemma allocated_total_nonneg m : entries_ok (mem_allocations m) -> 0 <= allocated_total m.
Proof. intros He. apply map_sum_nonneg. intros k a Ha. by apply (He k). Qed.

(** The checked sum of the table, in any iteration order. *)
Lemma sum_allocations_table m :
  entries_ok (mem_allocations m) -> allocated_total m < 2 ^ 64 ->
  sum_allocations (hash_iter (mem_allocations m)).*2 =
  Ok (allocated_total m, Z.of_nat (length (hash_iter (mem_allocations m)))).
Proof.
  intros He Ht. unfold sum_allocations. rewrite ofold_sum.
  - rewrite hash_iter_sum. do 2 f_equal. by rewrite length_fmap.
  - intros a ([k a'] & -> & Hin%elem_of_hash_iter)%list_elem_of_fmap. by destruct (He k a' Hin) as (? & ? & _).
  - lia.
  - by rewrite hash_iter_sum.
Qed.

Lemma update_usage_run env m :
  entries_ok (mem_allocations m) -> allocated_total m < 2 ^ 64 ->
  exists u, update_usage_stats env m = (Ok tt, set_mem_usage u m) /\
    usage_allocated u = allocated_total m /\ total_capacity u = total_capacity (mem_usage m).
Proof.
  intros He Ht. unfold update_usage_stats. unfold_st.
  rewrite sum_allocations_table by done. simpl. by eexists.
Qed.

Lemma entries_ok_insert x id a :
  entries_ok x -> is_counted a = true -> 0 <= allocated_amount a -> allocation_id a = id ->
  entries_ok (<[id := a]> x).
Proof. intros He Hc Ha Hid id' a' [[-> ->]|[_ ?]]%lookup_insert_Some; [done|by eapply He]. Qed.

Lemma entries_ok_delete x id : entries_ok x -> entries_ok (delete id x).
Proof. intros He id' a' [_ ?]%lookup_delete_Some. by eapply He. Qed.

(** Storing an allocation adds at most its amount, also over an old one. *)
Lemma insert_total x id a :
  entries_ok x ->
  map_sum allocated_amount (<[id := a]> x) <= map_sum allocated_amount x + allocated_amount a.
Proof.
  intros He. destruct (x !! id) as [b|] eqn:E.
  - rewrite <-insert_delete_eq, map_sum_insert by apply lookup_delete_eq.
    rewrite (map_sum_delete _ x id b E). pose proof (He id b E). lia.
  - rewrite map_sum_insert by done. lia.
Qed.

Lemma validate_ok m r :
  validate_allocation_request m r = Ok tt ->
  resource_type r = Memory /\ amount r <= available_capacity m (usage_allocated (mem_usage m)).
Proof.
  unfold validate_allocation_request. intros E.
  destruct (bool_decide_reflect (resource_type r = Memory)); [|discriminate]. simpl in E.
  destruct (Z.ltb_spec (available_capacity m (usage_allocated (mem_usage m))) (amount r)); done.
Qed.

(** Storing an allocation: the outcome, and the table that results. *)
Lemma commit_run env r m :
  entries_ok (mem_allocations m) -> 0 <= amount r -> allocated_total m + amount r < 2 ^ 64 ->
  exists o m', commit_allocation env r m = (o, m') /\
    (memory_counts 1 m -> o = Ok (new_allocation env r)) /\
    (forall n, 0 <= n -> memory_counts (n + 1) m -> memory_counts n m') /\
    (o = Panic \/ o = Ok (new_allocation env r)) /\
    mem_config m' = mem_config m /\ entries_ok (mem_allocations m') /\
    mem_allocations m' = <[allocation_id (new_allocation env r) := new_allocation env r]>
                           (mem_allocations m) /\
    usage_allocated (mem_usage m') = allocated_total m'.
Proof.
  intros He Ha Ht. set (a := new_allocation env r).
  set (m1 := set_mem_allocations (<[allocation_id a := a]> (mem_allocations m)) m).
  assert (He1 : entries_ok (mem_allocations m1)) by (by apply entries_ok_insert).
  destruct (update_usage_run env m1 He1) as (u & E & Hu & _).
  { pose proof (insert_total (mem_allocations m) (allocation_id a) a He) as Hi. simpl in Hi.
    unfold allocated_total in *. simpl. lia. }
  unfold commit_allocation. fold a. erewrite sbind_ok by reflexivity. fold m1.
  rewrite (sbind_ok _ _ _ _ _ E). unfold set_state_by, count_allocation. unfold_st. simpl.
  unfold memory_counts. destruct (arith_u 64 (ms_total_allocations (mem_state m) + 1)) eqn:Ec; simpl.
  - do 2 eexists. split_and!; try done; try by right. intros n Hn [Hc1 Hc2]. simpl.
    rewrite arith_u_fits in Ec by lia. injection Ec as <-. lia.
  - exfalso. unfold arith_u in Ec. destruct (fits_u _ _), overflow_checks; discriminate.
  - do 2 eexists. split_and!; try done; try by left.
    + intros [Hc _]. rewrite arith_u_fits in Ec by lia. discriminate.
    + intros n Hn [? ?]. simpl. lia.
Qed.

Lemma memory_wf_intro m :
  limits_ok (limits (mem_config m)) -> entries_ok (mem_allocations m) ->
  usage_allocated (mem_usage m) = allocated_total m -> allocated_total m <= mem_capacity m ->
  memory_wf m.
Proof. done. Qed.

Lemma same_capacity m m' : mem_config m' = mem_config m -> mem_capacity m' = mem_capacity m.
Proof. unfold mem_capacity, effective_capacity. by intros ->. Qed.

Lemma mem_capacity_range m : limits_ok (limits (mem_config m)) -> mem_capacity m < 2 ^ 64.
Proof.
  intros Hl. pose proof (effective_capacity_range m Hl). destruct Hl.
  unfold mem_capacity, sat_sub. lia.
Qed.

(** A request that fits leaves the table within the capacity. *)
Lemma fits_capacity m r :
  memory_wf m -> 0 <= amount r ->
  amount r <= available_capacity m (usage_allocated (mem_usage m)) ->
  allocated_total m + amount r <= mem_capacity m.
Proof.
  intros ((Hl & Hres) & He & Hu & Hc) Ha Hr. pose proof (allocated_total_nonneg m He).
  unfold available_capacity in Hr. unfold mem_capacity, sat_sub in *. rewrite Hu in Hr. lia.
Qed.

Lemma commit_wf env r m o m' :
  memory_wf m -> 0 <= amount r -> allocated_total m + amount r <= mem_capacity m ->
  commit_allocation env r m = (o, m') -> memory_wf m'.
Proof.
  intros (Hl & He & _ & _) Ha Hc E. pose proof (mem_capacity_range m Hl).
  destruct (commit_run env r m He Ha ltac:(lia))
    as (o' & m1 & E' & _ & _ & _ & Hcfg & He' & Hall & Hu).
  rewrite E in E'. injection E' as <- <-. split_and!; [by rewrite Hcfg|done|done|].
  rewrite (same_capacity m m' Hcfg). unfold allocated_total in *. rewrite Hall.
  pose proof (insert_total _ (allocation_id (new_allocation env r)) (new_allocation env r) He) as Hi.
  simpl in *. lia.
Qed.

(** [allocate] refuses without effect, or stores one allocation. *)
Lemma memory_allocate_inv env r m o m' :
  memory_allocate env r m = (o, m') ->
  (m' = m /\ is_ok o = false) \/
  (validate_allocation_request m r = Ok tt /\ commit_allocation env r m = (o, m')).
Proof.
  unfold memory_allocate. unfold_st.
  destruct (validate_allocation_request m r) as [[]|e|]; intros E; [by right|left..]; by simplify_eq.
Qed.

Lemma memory_allocate_wf env r m o m' :
  memory_wf m -> 0 <= amount r -> memory_allocate env r m = (o, m') -> memory_wf m'.
Proof.
  intros Hwf Ha [[-> _]|[[_ Hv]%validate_ok E]]%memory_allocate_inv; [done|].
  eapply commit_wf; [done|done| |done]. by apply fits_capacity.
Qed.

(** What storing an admitted request does. *)
Lemma commit_ok env r m :
  memory_wf m -> 0 <= amount r -> amount r <= available_capacity m (usage_allocated (mem_usage m)) ->
  exists o m', commit_allocation env r m = (o, m') /\
    (memory_counts 1 m -> o = Ok (new_allocation env r)) /\
    (forall n, 0 <= n -> memory_counts (n + 1) m -> memory_counts n m') /\
    (o = Panic \/ o = Ok (new_allocation env r)) /\
    mem_allocations m' = <[allocation_id (new_allocation env r) := new_allocation env r]>
                           (mem_allocations m).
Proof.
  intros Hwf Ha Hv. pose proof (fits_capacity m r Hwf Ha Hv). destruct Hwf as (Hl & He & _ & _).
  pose proof (mem_capacity_range m Hl).
  destruct (commit_run env r m He Ha ltac:(lia)) as (o & m1 & E & Hok & Hcn & Ho & _ & _ & Hall & _).
  eauto 9.
Qed.

(** Removing an allocation: the outcome, and the table that results. *)
Lemma memory_deallocate_run env id m a :
  memory_wf m -> mem_allocations m !! id = Some a ->
  exists o m', memory_deallocate env id m = (o, m') /\ (memory_counts 1 m -> o = Ok tt) /\
    (forall n, 0 <= n -> memory_counts (n + 1) m -> memory_counts n m') /\
    memory_wf m' /\ mem_allocations m' = delete id (mem_allocations m).
Proof.
  intros (Hl & He & Hu & Hc) Ha.
  set (m1 := set_mem_allocations (delete id (mem_allocations m)) m).
  assert (He1 : entries_ok (mem_allocations m1)) by (by apply entries_ok_delete).
  assert (Ht : allocated_total m1 <= allocated_total m).
  { unfold allocated_total. rewrite (map_sum_delete _ (mem_allocations m) id a Ha).
    pose proof (He id a Ha). simpl. lia. }
  pose proof (mem_capacity_range m Hl).
  destruct (update_usage_run env m1 He1 ltac:(lia)) as (u & E & Hu' & _).
  unfold memory_deallocate. erewrite sbind_ok by reflexivity. rewrite Ha.
  erewrite sbind_ok by reflexivity. fold m1. rewrite (sbind_ok _ _ _ _ _ E).
  unfold set_state_by, count_deallocation. unfold_st. simpl.
  unfold memory_counts. destruct (arith_u 64 (ms_total_deallocations (mem_state m) + 1)) eqn:Ec; simpl.
  - do 2 eexists. split; [done|]. split; [done|]. split; [|split; [|done]].
    { intros n Hn [Hc1 Hc2]. simpl. rewrite arith_u_fits in Ec by lia. injection Ec as <-. lia. }
    apply memory_wf_intro; try done. change (allocated_total m1 <= mem_capacity m). lia.
  - exfalso. unfold arith_u in Ec. destruct (fits_u _ _), overflow_checks; discriminate.
  - do 2 eexists. split; [done|]. split; [|split; [|split; [|done]]].
    + intros [_ Hd]. rewrite arith_u_fits in Ec by lia. discriminate.
    + intros n Hn [? ?]. simpl. lia.
    + apply memory_wf_intro; try done. change (allocated_total m1 <= mem_capacity m). lia.
Qed.

(** The listing of a table whose entries carry their keys. *)
Lemma list_entries_ok m :
  entries_ok (mem_allocations m) ->
  NoDup (allocation_id <$> (hash_iter (mem_allocations m)).*2) /\
  forall a, a ∈ (hash_iter (mem_allocations m)).*2 <-> mem_allocations m !! allocation_id a = Some a.
Proof.
  intros He. apply list_by_key. intros id a Ha. by apply (He id).
Qed.

(** The memory manager keeps the trait's promises. *)
#[export] Instance memory_manager_ok : ResourceManagerOk OpEnv MemoryResourceManager.
Proof.
  refine {| rm_wf := memory_wf; rm_counts := memory_counts |}.
  - unfold memory_counts. lia.
  - intros id m. by eexists.
  - intros id m a (_ & He & _) [= Ha]. by destruct (He id a Ha) as (_ & _ & ?).
  - intros m (_ & He & _). eexists. split; [done|]. simpl.
    destruct (list_entries_ok m He) as [Hn Hl]. split; [done|]. intros a. rewrite Hl. split; congruence.
  - intros env r n m a m' Hwf Hn Hc Ha E Hfresh. simpl in *.
    split; [by eapply memory_allocate_wf; [| |exact E]; [done|lia]|].
    apply memory_allocate_inv in E as [[_ E]|[[_ Hv]%validate_ok E]]; [done|].
    destruct (commit_ok env r m Hwf ltac:(lia) Hv) as (o & m1 & E' & Hok & Hcn & _ & Hall).
    rewrite E in E'. injection E' as <- <-.
    assert (Hc1 : memory_counts 1 m) by (unfold memory_counts in *; lia).
    specialize (Hok Hc1). injection Hok as ->.
    rewrite Hall. split_and!; [by apply Hcn|by rewrite lookup_insert_eq|].
    intros id Hid. by rewrite lookup_insert_ne.
  - intros env r m e m' Hwf Ha [[-> _]|[[_ Hv]%validate_ok E]]%memory_allocate_inv; [done|].
    destruct (commit_ok env r m Hwf ltac:(lia) Hv) as (o & m1 & E' & _ & _ & [->| ->] & _); simpl in *;
      congruence.
  - intros env id n m a Hwf Hn Hc Ha. simpl in *. injection Ha as Ha.
    destruct (memory_deallocate_run env id m a Hwf Ha) as (o & m' & E & Hok & Hcn & Hwf' & Hall).
    assert (Hc1 : memory_counts 1 m) by (unfold memory_counts in *; lia).
    rewrite (Hok Hc1) in E. exists m'. rewrite Hall. split_and!; [done|done|by apply Hcn| |].
    + by rewrite lookup_delete_eq.
    + intros id' Hid. by rewrite lookup_delete_ne.
  - intros env id m Ha. simpl in *. injection Ha as Ha. unfold memory_deallocate. unfold_st.
    rewrite Ha. by eexists.
Defined.
End Invariant.

(** * Histories *)

Section Histories.
Context {P : Profile} `{HashIter}.
Implicit Types (m : MemoryResourceManager) (r : ResourceAllocationRequest).

(** One call, or one tick of a background task, after the other. *)
Inductive mem_step : relation MemoryResourceManager :=
| step_allocate env r m o m' :
    0 <= amount r < 2 ^ 64 -> rm_allocate env r m = (o, m') -> mem_step m m'
| step_reserve env r m o m' :
    0 <= amount r < 2 ^ 64 -> reserve env r m = (o, m') -> mem_step m m'
| step_deallocate env id m o m' : rm_deallocate env id m = (o, m') -> mem_step m m'
| step_initialize env m o m' : rm_initialize env m = (o, m') -> mem_step m m'
| step_start env m o m' : rm_start env m = (o, m') -> mem_step m m'
| step_stop env m o m' : rm_stop env m = (o, m') -> mem_step m m'
| step_update_limits env l m o m' : rm_update_limits env l m = (o, m') -> mem_step m m'
| step_update_config env c m o m' : rm_update_config env c m = (o, m') -> mem_step m m'
| step_monitor env m o m' : monitor_tick env m = (o, m') -> mem_step m m'
| step_health env m o m' : health_tick env m = (o, m') -> mem_step m m'.

(** What the invariant reads of the state. *)
Definition same_books m m' : Prop :=
  mem_config m' = mem_config m /\ mem_allocations m' = mem_allocations m /\
  usage_allocated (mem_usage m') = usage_allocated (mem_usage m).

#[local] Instance same_books_preorder : PreOrder same_books.
Proof. split; [done|]. intros x y z (? & ? & ?) (? & ? & ?). split_and!; congruence. Qed.

#[local] Hint Extern 1 (same_books _ _) => (split_and!; reflexivity) : moves.

(** No operation changes the configuration. *)
Definition same_config m m' : Prop := mem_config m' = mem_config m.

#[local] Instance same_config_preorder : PreOrder same_config.
Proof. split; [done|]. intros x y z Hxy Hyz. unfold same_config in *. congruence. Qed.
#[local] Hint Extern 1 (same_config _ _) => reflexivity : moves.

Lemma update_usage_config env : moves same_config (update_usage_stats env).
Proof. unfold update_usage_stats. moves_all. Qed.

Lemma set_state_config f : moves same_config (set_state_by f).
Proof. unfold set_state_by. moves_all. Qed.

Lemma allocate_config env r : moves same_config (memory_allocate env r).
Proof.
  unfold memory_allocate, commit_allocation.
  repeat first [apply update_usage_config|apply set_state_config|moves_all].
Qed.

Lemma mem_step_config m m' : mem_step m m' -> mem_config m' = mem_config m.
Proof.
  intros Hs. change (same_config m m'). destruct Hs as [? ? ? ? ? _ E|? ? ? ? ? _ E|? ? ? ? ? E|
    ? ? ? ? E|? ? ? ? E|? ? ? ? E|? ? ? ? ? E|? ? ? ? ? E|? ? ? ? E|? ? ? ? E]; simpl in E;
  (match type of E with ?c _ = _ => cut (moves same_config c); [intros Hm; exact (Hm _ _ _ E)|] end);
  unfold reserve, memory_deallocate, memory_initialize, memory_start, memory_stop,
    start_monitoring, start_health_checks, stop_background_tasks, memory_update_limits, monitor_tick,
    monitor_write, health_tick;
  repeat first [apply allocate_config|apply update_usage_config|apply set_state_config|moves_all].
Qed.

Lemma same_books_wf m m' : memory_wf m -> same_books m m' -> memory_wf m'.
Proof.
  intros (Hl & He & Hu & Hc) (E1 & E2 & E3).
  assert (Et : allocated_total m' = allocated_total m) by (unfold allocated_total; by rewrite E2).
  apply memory_wf_intro.
  - by rewrite E1.
  - by rewrite E2.
  - congruence.
  - by rewrite Et, (same_capacity m m' E1).
Qed.

Lemma initialize_books env : moves same_books (memory_initialize env).
Proof. unfold memory_initialize. auto with moves. Qed.

Lemma start_books env : moves same_books (memory_start env).
Proof. unfold memory_start, start_monitoring, start_health_checks. moves_all. Qed.

Lemma stop_books env : moves same_books (memory_stop env).
Proof. unfold memory_stop, stop_background_tasks. auto with moves. Qed.

Lemma update_limits_books env l : moves same_books (memory_update_limits env l).
Proof. unfold memory_update_limits. case_match; auto with moves. Qed.

Lemma health_tick_books env : moves same_books (health_tick env).
Proof. unfold health_tick. auto with moves. Qed.

(** Storing the sum that is current changes nothing the invariant reads. *)
Lemma monitor_write_books env m o m' :
  monitor_write env (usage_allocated (mem_usage m)) m = (o, m') -> same_books m m'.
Proof.
  unfold monitor_write. unfold_st. simpl. destruct (average_time _) as [avg|e|]; intros [= _ <-]; done.
Qed.

Lemma monitor_tick_wf env m o m' : memory_wf m -> monitor_tick env m = (o, m') -> memory_wf m'.
Proof.
  intros Hwf E. pose proof Hwf as (Hl & He & Hu & Hc). pose proof (mem_capacity_range m Hl).
  unfold monitor_tick, monitor_read in E. erewrite sbind_ok in E by reflexivity.
  rewrite sum_allocations_table in E by (done || lia). simpl in E.
  erewrite sbind_ok in E by reflexivity. rewrite <-Hu in E.
  eapply same_books_wf; [done|by eapply monitor_write_books].
Qed.

Lemma mem_step_wf m m' : memory_wf m -> mem_step m m' -> memory_wf m'.
Proof.
  intros Hwf Hs. destruct Hs as [env r m o m' Ha E|env r m o m' Ha E|env id m o m' E|env m o m' E|
    env m o m' E|env m o m' E|env l m o m' E|env c m o m' E|env m o m' E|env m o m' E]; simpl in E.
  - eapply memory_allocate_wf; [| |exact E]; [done|lia].
  - apply sbind_inv in E as [(a & m1 & E & [= _ <-])|(_ & o1 & E & _)];
      (eapply memory_allocate_wf; [| |exact E]; [done|lia]).
  - destruct (mem_allocations m !! id) as [a|] eqn:Ea.
    + destruct (memory_deallocate_run env id m a Hwf Ea) as (? & ? & E' & _ & _ & Hwf' & _).
      rewrite E in E'. by simplify_eq.
    + unfold memory_deallocate in E. unfold_st. rewrite Ea in E. by simplify_eq.
  - eapply same_books_wf; [done|]. by eapply initialize_books.
  - eapply same_books_wf; [done|]. by eapply start_books.
  - eapply same_books_wf; [done|]. by eapply stop_books.
  - eapply same_books_wf; [done|]. by eapply update_limits_books.
  - unfold slift in E. by simplify_eq.
  - by eapply monitor_tick_wf.
  - eapply same_books_wf; [done|]. by eapply health_tick_books.
Qed.

Lemma memory_new_wf now cfg : limits_ok (limits cfg) -> memory_wf (memory_new now cfg).
Proof.
  intros Hl. apply memory_wf_intro; [done|..].
  - intros id a Ha. simpl in Ha. by rewrite lookup_empty in Ha.
  - unfold allocated_total. simpl. by rewrite map_sum_empty.
  - unfold allocated_total, mem_capacity, sat_sub. simpl. rewrite map_sum_empty. lia.
Qed.

(** C32: However allocations, reservations, releases, limit updates, starts,
    stops and background ticks follow one another from a new memory manager,
    also when a call fails or a counter overflows, the memory allocated never
    exceeds the effective capacity less the system reserve, the usage
    statistics state exactly what the table of allocations holds, and the
    overcommit limits are those the manager was created with. *)
Theorem memory_within_capacity now cfg m :
  limits_ok (limits cfg) -> rtc mem_step (memory_new now cfg) m ->
  allocated_total m <= mem_capacity m /\
  usage_allocated (mem_usage m) = allocated_total m /\
  mem_capacity m = mem_capacity (memory_new now cfg).
Proof.
  intros Hl Hr.
  assert (Hinv : memory_wf m /\ mem_config m = mem_config (memory_new now cfg)).
  { pattern m. eapply rtc_invariant; [|exact Hr|]; [|split; [by apply memory_new_wf|done]].
    intros x y [Hwf Hcfg] Hs. split; [by eapply mem_step_wf|]. rewrite <-Hcfg. clear Hcfg Hr.
    by eapply mem_step_config. }
  destruct Hinv as [(_ & _ & Hu & Hc) Hcfg]. split_and!; [done|done|]. by apply same_capacity.
Qed.
End Histories.

(** * Interleavings *)

Section Interleaving.
Context {P : Profile} `{HashIter}.
Implicit Types (m : MemoryResourceManager) (r : ResourceAllocationRequest).

(** Calls in progress: the requests that were found valid and are not stored
    yet, and the sums a monitoring task has read and not stored yet. *)
Record in_flight : Type := mkInFlight {
  manager : MemoryResourceManager;
  validated : list ResourceAllocationRequest;
  sums : list Z
}.

Inductive interleaved : relation in_flight :=
| il_validate m vs ss r :
    validate_allocation_request m r = Ok tt ->
    interleaved (mkInFlight m vs ss) (mkInFlight m (vs ++ [r]) ss)
| il_commit env m vs ss r o m' :
    commit_allocation env r m = (o, m') ->
    interleaved (mkInFlight m (r :: vs) ss) (mkInFlight m' vs ss)
| il_monitor_read m vs ss t :
    monitor_read m = Ok t -> interleaved (mkInFlight m vs ss) (mkInFlight m vs (ss ++ [t]))
| il_monitor_write env m vs ss t o m' :
    monitor_write env t m = (o, m') -> interleaved (mkInFlight m vs (t :: ss)) (mkInFlight m' vs ss).

Lemma validate_fits m r :
  resource_type r = Memory -> 0 <= amount r -> 0 <= usage_allocated (mem_usage m) < 2 ^ 64 ->
  limits_ok (limits (mem_config m)) ->
  amount r <= available_capacity m (usage_allocated (mem_usage m)) ->
  validate_allocation_request m r = Ok tt.
Proof.
  intros Ht Ha Hu Hl Hr. unfold validate_allocation_request.
  rewrite bool_decide_eq_true_2 by done. simpl.
  destruct (Z.ltb_spec (available_capacity m (usage_allocated (mem_usage m))) (amount r)); [lia|].
  pose proof (effective_capacity_range m Hl). destruct Hl as [_ Hres].
  rewrite arith_u_fits; [done|]. unfold available_capacity, sat_sub in *. lia.
Qed.

(** Two requests that fit one at a time but not together. *)
Definition contended m r1 r2 : Prop :=
  memory_wf m /\ memory_counts 2 m /\ allocated_total m + amount r1 + amount r2 < 2 ^ 64 /\
  resource_type r1 = Memory /\ resource_type r2 = Memory /\ 0 < amount r1 /\ 0 < amount r2 /\
  allocated_total m + amount r1 <= mem_capacity m /\ allocated_total m + amount r2 <= mem_capacity m /\
  mem_capacity m < allocated_total m + amount r1 + amount r2.

Lemma contended_sym m r1 r2 : contended m r1 r2 -> contended m r2 r1.
Proof. unfold contended. intros (? & ? & ? & ? & ? & ? & ? & ? & ? & ?). split_and!; auto; lia. Qed.

Lemma contended_fits m r1 r2 :
  contended m r1 r2 ->
  amount r1 <= available_capacity m (usage_allocated (mem_usage m)) /\
  validate_allocation_request m r1 = Ok tt.
Proof.
  intros ((Hl & He & Hu & Hc) & _ & _ & Ht & _ & Ha & _ & Hf & _).
  pose proof (allocated_total_nonneg m He). pose proof (mem_capacity_range m Hl).
  assert (Hv : amount r1 <= available_capacity m (usage_allocated (mem_usage m))).
  { rewrite Hu. unfold available_capacity, mem_capacity, sat_sub in *. destruct Hl. lia. }
  split; [done|]. apply validate_fits; (done || lia).
Qed.

(** The check and the store of [allocate] are not one step: of two
    requests that fit one at a time but not together, the second is refused
    when the calls run one after the other, and both are granted, past the
    capacity, when both are checked before either is stored. *)
Theorem interleaved_allocations_exceed_capacity env1 env2 m r1 r2 :
  contended m r1 r2 ->
  mem_allocations m !! show_alloc_id "mem-" (tenant_id r1) (oe_nanos env1) = None ->
  mem_allocations m !! show_alloc_id "mem-" (tenant_id r2) (oe_nanos env2) = None ->
  show_alloc_id "mem-" (tenant_id r1) (oe_nanos env1) <>
    show_alloc_id "mem-" (tenant_id r2) (oe_nanos env2) ->
  (exists m1, memory_allocate env1 r1 m = (Ok (new_allocation env1 r1), m1) /\
     memory_allocate env2 r2 m1 = (Err InsufficientResources, m1)) /\
  (exists m2, rtc interleaved (mkInFlight m [] []) (mkInFlight m2 [] []) /\
     mem_capacity m2 < allocated_total m2).
Proof.
  intros Hc Hf1 Hf2 Hne. destruct (contended_fits m r1 r2 Hc) as [Hr1 Hv1].
  destruct (contended_fits m r2 r1 (contended_sym _ _ _ Hc)) as [_ Hv2].
  destruct Hc as (Hwf & Hcount & Hsum & Ht1 & Ht2 & Ha1 & Ha2 & Hfit1 & Hfit2 & Hover).
  pose proof Hwf as (Hl & He & Hu & Hcap).
  destruct (commit_run env1 r1 m He ltac:(lia) ltac:(lia))
    as (o1 & m1 & E1 & Hok1 & Hcnt & _ & Hcfg1 & He1 & Hall1 & Hu1).
  assert (Hok1' : o1 = Ok (new_allocation env1 r1))
    by (apply Hok1; unfold memory_counts in *; lia).
  assert (Htot1 : allocated_total m1 = allocated_total m + amount r1).
  { unfold allocated_total. rewrite Hall1, map_sum_insert by done. simpl. lia. }
  destruct (commit_run env2 r2 m1 He1 ltac:(lia) ltac:(lia))
    as (o2 & m2 & E2 & _ & _ & _ & Hcfg2 & He2 & Hall2 & Hu2).
  split.
  - exists m1. split.
    + unfold memory_allocate. unfold_st. by rewrite Hv1, E1, Hok1'.
    + unfold memory_allocate. unfold_st.
      assert (validate_allocation_request m1 r2 = Err InsufficientResources) as ->; [|done].
      unfold validate_allocation_request. rewrite bool_decide_eq_true_2 by done. simpl.
      replace (_ <? amount r2) with true; [done|]. symmetry. apply Z.ltb_lt.
      rewrite Hu1, Htot1.
      assert (Heff : effective_capacity m1 = effective_capacity m)
        by (unfold effective_capacity; by rewrite Hcfg1).
      unfold mem_capacity, available_capacity, sat_sub in *. rewrite Hcfg1, Heff. destruct Hl. lia.
  - exists m2. split.
    + eapply rtc_l; [by apply (il_validate m [] [] r1)|].
      eapply rtc_l; [by apply (il_validate m [r1] [] r2)|].
      eapply rtc_l; [by eapply (il_commit env1 m [r2] [] r1)|].
      eapply rtc_l; [by eapply (il_commit env2 m1 [] [] r2)|]. done.
    + rewrite (same_capacity _ _ Hcfg2), (same_capacity _ _ Hcfg1).
      unfold allocated_total at 1. rewrite Hall2, map_sum_insert.
      * fold (allocated_total m1). simpl. lia.
      * rewrite Hall1, lookup_insert_ne by done. done.
Qed.

(** A monitoring tick that straddles an [allocate] stores the sum from before
    it, and the usage statistics then miss the new allocation. *)
Theorem stale_monitor_hides_allocation (env1 env2 : OpEnv) m r :
  memory_wf m -> memory_counts 1 m -> resource_type r = Memory -> 0 < amount r ->
  allocated_total m + amount r <= mem_capacity m ->
  mem_allocations m !! show_alloc_id "mem-" (tenant_id r) (oe_nanos env1) = None ->
  exists m2, rtc interleaved (mkInFlight m [] []) (mkInFlight m2 [] []) /\
    usage_allocated (mem_usage m2) = allocated_total m2 - amount r.
Proof.
  intros Hwf Hcount Ht Ha Hfit Hfresh. pose proof Hwf as (Hl & He & Hu & Hcap).
  pose proof (mem_capacity_range m Hl). pose proof (allocated_total_nonneg m He).
  destruct (commit_run env1 r m He ltac:(lia) ltac:(lia))
    as (o1 & m1 & E1 & _ & _ & _ & Hcfg1 & He1 & Hall1 & Hu1).
  destruct (monitor_write env2 (allocated_total m) m1) as [o2 m2] eqn:E2.
  exists m2. split.
  - eapply rtc_l; [apply (il_monitor_read m [] [] (allocated_total m))|].
    { unfold monitor_read. by rewrite sum_allocations_table by (done || lia). }
    eapply rtc_l; [apply (il_validate m [] [allocated_total m] r)|].
    { apply validate_fits; try done; try lia. rewrite Hu. destruct Hl.
      unfold available_capacity, mem_capacity, sat_sub in *. lia. }
    eapply rtc_l; [by eapply (il_commit env1 m [] [allocated_total m] r)|].
    eapply rtc_l; [by eapply (il_monitor_write env2 m1 [] [] (allocated_total m))|]. done.
  - assert (Hbooks : usage_allocated (mem_usage m2) = allocated_total m /\
                     mem_allocations m2 = mem_allocations m1).
    { revert E2. unfold monitor_write. unfold_st. simpl.
      destruct (average_time _); intros [= _ <-]; done. }
    destruct Hbooks as [-> Hm2]. unfold allocated_total. rewrite Hm2, Hall1, map_sum_insert by done.
    simpl. lia.
Qed.
End Interleaving.

(** * Limits, reservations and tasks *)

Section Surprises.
Context {P : Profile} `{HashIter}.
Implicit Types (m : MemoryResourceManager) (r : ResourceAllocationRequest).

(** [update_limits] succeeds and changes the capacity that is reported, but no
    admission decision: those read the configuration. *)
Theorem updated_limits_not_enforced env l m m' :
  memory_update_limits env l m = (Ok tt, m') ->
  total_capacity (mem_usage m') = hard_limit l /\ rm_get_limits m' = rm_get_limits m /\
  forall r, validate_allocation_request m' r = validate_allocation_request m r.
Proof. unfold memory_update_limits. case_match; [done|]. intros [= <-]. done. Qed.

(** [reserve] returns an allocation marked reserved; the one it stored is
    active, and nothing tells the two apart afterwards. *)
Theorem reservation_stored_active env r m a m' :
  memory_wf m -> memory_counts 1 m -> 0 <= amount r < 2 ^ 64 ->
  reserve env r m = (Ok a, m') ->
  status a = Reserved /\
  exists b, mem_allocations m' !! allocation_id a = Some b /\ status b = Active.
Proof.
  intros Hwf Hc Ha. unfold reserve. intros (b & m1 & E & [= <- <-])%sbind_ok_inv.
  split; [done|]. simpl in E.
  apply memory_allocate_inv in E as [[_ ?]|[[_ Hv]%validate_ok E]]; [done|].
  destruct (commit_ok env r m Hwf ltac:(lia) Hv) as (o & m2 & E' & Hok & _ & _ & Hall).
  rewrite E in E'. injection E' as <- <-. specialize (Hok Hc). injection Hok as ->.
  eexists. rewrite Hall. simpl. split; [apply lookup_insert_eq|done].
Qed.

Lemma start_run env m :
  exists m', memory_start env m = (Ok tt, m') /\ mem_config m' = mem_config m /\
    mem_monitoring m' = if enable_monitoring (mem_config m)
                        then spawn_task (monitoring_interval (mem_config m)) (mem_monitoring m)
                        else mem_monitoring m.
Proof.
  eexists. split; [reflexivity|]. simpl.
  destruct (enable_monitoring (mem_config m)); simpl;
    destruct (enable_health_checks (mem_config m)); done.
Qed.

(** [start] on a started manager spawns a second monitoring task and forgets
    the first, which [stop] no longer reaches. *)
Theorem second_start_leaks_monitor env m :
  enable_monitoring (mem_config m) = true -> monitoring_interval (mem_config m) <> 0 ->
  mem_monitoring m = no_background ->
  exists m', (memory_start env ;* memory_start env ;* memory_stop env) m = (Ok tt, m') /\
    is_running (mem_state m') = false /\ tasks (mem_monitoring m') = 1.
Proof.
  intros Hm Hi Hb. destruct (start_run env m) as (m1 & E1 & Hcfg & Hb1).
  destruct (start_run env m1) as (m2 & E2 & _ & Hb2). rewrite Hcfg in Hb2. rewrite Hm in Hb1, Hb2.
  rewrite (sbind_ok _ _ _ _ _ E1), (sbind_ok _ _ _ _ _ E2). eexists. split; [reflexivity|].
  simpl. rewrite Hb2, Hb1, Hb. unfold spawn_task.
  destruct (Z.eqb_spec (monitoring_interval (mem_config m)) 0); [done|]. done.
Qed.
End Surprises.

(** * Examples *)

Section Examples.
#[local] Instance demo_profile : Profile := true.
#[local] Existing Instance canonical_iter.

Definition demo_config : ResourceManagerConfig := with_capacity 100 (builder_new Memory).
Definition demo_request (tenant : string) (mb : Z) : ResourceAllocationRequest :=
  mkRequest "req" tenant Memory mb 0 false None ∅.
Definition demo_env (nanos : Z) : OpEnv := mkEnv (Some nanos) 0 0 f64_0 (Some 1000).

Lemma memory_within_capacity_witness :
  exists m, rtc mem_step (memory_new 0 demo_config) m /\
    allocated_total m <= mem_capacity m /\
    usage_allocated (mem_usage m) = allocated_total m /\
    mem_capacity m = mem_capacity (memory_new 0 demo_config).
Proof.
  assert (Hs : rtc mem_step (memory_new 0 demo_config)
            (memory_allocate (demo_env 1) (demo_request "a" 60) (memory_new 0 demo_config)).2).
  { apply rtc_once. eapply (step_allocate (demo_env 1) (demo_request "a" 60)); [by vm_compute|].
    apply surjective_pairing. }
  eexists. split; [exact Hs|].
  apply (memory_within_capacity 0 demo_config); [|exact Hs]. split; [by vm_compute|by vm_compute].
Defined.

Lemma interleaved_allocations_exceed_capacity_witness :
  let m := memory_new 0 demo_config in
  let r1 := demo_request "a" 60 in let r2 := demo_request "b" 60 in
  (exists m1, memory_allocate (demo_env 1) r1 m = (Ok (new_allocation (demo_env 1) r1), m1) /\
     memory_allocate (demo_env 2) r2 m1 = (Err InsufficientResources, m1)) /\
  (exists m2, rtc interleaved (mkInFlight m [] []) (mkInFlight m2 [] []) /\
     mem_capacity m2 < allocated_total m2).
Proof.
  apply (interleaved_allocations_exceed_capacity (demo_env 1) (demo_env 2)); [|done|done|done].
  unfold contended. split; [apply memory_new_wf; split; by vm_compute|].
  split; [split; by vm_compute|]. split_and!; by vm_compute.
Defined.
End Examples.
