(* ===== verification/CpuManager.v ===== *)
(** The CPU manager (blixard-core/src/resource_managers/cpu_manager.rs): the
    four scheduling policies that choose cores, shared and exclusive
    assignments of cores, the usage statistics, the background tasks and the
    [ResourceManager] methods.

    [allocate] looks for cores under the read lock of the cores and takes them under
    the write lock: [choose_cores] and [commit_cores] are the two halves.  The theorems
    relate the per-core counters to the table of allocations: along every history of
    calls that follow one another, with distinct ids, a core's count is the number of
    allocations on it and an exclusive core has exactly one; two calls that overlap can
    be given the same exclusive core. *)

From Stdlib Require Import ZArith Lia List.
From stdpp Require Import base tactics numbers gmap strings pretty option.
From stdpp Require Import list relations.
From S2P Require Import Prelude Float64 Errors ResourceApi.

Open Scope Z_scope.

Inductive CpuSchedulingPolicy : Type := FirstFit | BestFit | RoundRobin | AffinityAware.

Record CpuAllocation : Type := mkCpuAllocation {
  base : ResourceAllocation;
  assigned_cores : list Z;
  affinity_mask : option Z;
  alloc_policy : CpuSchedulingPolicy;
  exclusive : bool
}.

Record CoreUsage : Type := mkCore {
  core_id : Z;
  allocated_vcpus : Z;
  core_utilization : f64;
  core_exclusive : bool;
  exclusive_tenant : option TenantId
}.

Record CpuManagerMetrics : Type := mkCpuMetrics {
  base_metrics : ResourceManagerMetrics;
  avg_cpu_utilization : f64;
  exclusive_cores : Z;
  scheduling_efficiency : f64;
  cpu_fragmentation_ratio : f64
}.

Record CpuResourceManager : Type := mkCpu {
  cpu_config : ResourceManagerConfig;
  cpu_allocations : gmap ResourceId CpuAllocation;
  core_usage : gmap Z CoreUsage;
  cpu_usage : ResourceUsage;
  cpu_state : ManagerState;
  cpu_monitoring : Background;
  cpu_health_checks : Background;
  cpu_metrics : CpuManagerMetrics;
  scheduling_policy : CpuSchedulingPolicy;
  total_cores : Z
}.

Definition set_cpu_allocations (x : gmap ResourceId CpuAllocation) (m : CpuResourceManager)
    : CpuResourceManager :=
  mkCpu (cpu_config m) x (core_usage m) (cpu_usage m) (cpu_state m) (cpu_monitoring m)
    (cpu_health_checks m) (cpu_metrics m) (scheduling_policy m) (total_cores m).
Definition set_core_usage (x : gmap Z CoreUsage) (m : CpuResourceManager) : CpuResourceManager :=
  mkCpu (cpu_config m) (cpu_allocations m) x (cpu_usage m) (cpu_state m) (cpu_monitoring m)
    (cpu_health_checks m) (cpu_metrics m) (scheduling_policy m) (total_cores m).
Definition set_cpu_usage (x : ResourceUsage) (m : CpuResourceManager) : CpuResourceManager :=
  mkCpu (cpu_config m) (cpu_allocations m) (core_usage m) x (cpu_state m) (cpu_monitoring m)
    (cpu_health_checks m) (cpu_metrics m) (scheduling_policy m) (total_cores m).
Definition set_cpu_state (x : ManagerState) (m : CpuResourceManager) : CpuResourceManager :=
  mkCpu (cpu_config m) (cpu_allocations m) (core_usage m) (cpu_usage m) x (cpu_monitoring m)
    (cpu_health_checks m) (cpu_metrics m) (scheduling_policy m) (total_cores m).
Definition set_cpu_background (mon hc : Background) (m : CpuResourceManager) : CpuResourceManager :=
  mkCpu (cpu_config m) (cpu_allocations m) (core_usage m) (cpu_usage m) (cpu_state m) mon hc
    (cpu_metrics m) (scheduling_policy m) (total_cores m).
Definition set_cpu_metrics (x : CpuManagerMetrics) (m : CpuResourceManager) : CpuResourceManager :=
  mkCpu (cpu_config m) (cpu_allocations m) (core_usage m) (cpu_usage m) (cpu_state m)
    (cpu_monitoring m) (cpu_health_checks m) x (scheduling_policy m) (total_cores m).
Definition set_policy (x : CpuSchedulingPolicy) (m : CpuResourceManager) : CpuResourceManager :=
  mkCpu (cpu_config m) (cpu_allocations m) (core_usage m) (cpu_usage m) (cpu_state m)
    (cpu_monitoring m) (cpu_health_checks m) (cpu_metrics m) x (total_cores m).

(** [new]; [now] is the clock. *)
Definition cpu_new (now : Z) (config : ResourceManagerConfig) (cores : Z) : CpuResourceManager :=
  let config := mkConfig Cpu (limits config) (enable_monitoring config)
    (monitoring_interval config) (enable_health_checks config) (health_check_interval config)
    (enable_telemetry config) (custom_config config) in
  mkCpu config ∅ (list_to_map (map (fun i => (i, mkCore i 0 f64_0 false None)) (seqZ 0 cores)))
    (mkUsage Cpu cores 0 0 0 now) (default_state now) no_background no_background
    (mkCpuMetrics (mkMetrics Cpu 0 0 0 f64_0 Stopped now ∅) f64_0 0 f64_1 f64_0) FirstFit cores.

(** ** The builder *)

Record CpuResourceManagerBuilder : Type := mkCpuBuilder {
  cb_config : ResourceManagerConfig;
  cb_cores : Z;
  cb_policy : CpuSchedulingPolicy
}.

Definition cpu_builder (cores : Z) : CpuResourceManagerBuilder :=
  mkCpuBuilder (builder_new Cpu) cores FirstFit.

Definition cpu_with_overcommit (ratio : f64) (b : CpuResourceManagerBuilder)
    : CpuResourceManagerBuilder :=
  mkCpuBuilder (with_overcommit ratio (cb_config b)) (cb_cores b) (cb_policy b).

Definition cpu_with_policy (p : CpuSchedulingPolicy) (b : CpuResourceManagerBuilder)
    : CpuResourceManagerBuilder := mkCpuBuilder (cb_config b) (cb_cores b) p.

Definition cpu_with_monitoring (enabled : bool) (interval : Z) (b : CpuResourceManagerBuilder)
    : CpuResourceManagerBuilder :=
  let c := cb_config b in
  mkCpuBuilder (mkConfig (config_type c) (limits c) enabled interval (enable_health_checks c)
    (health_check_interval c) (enable_telemetry c) (custom_config c)) (cb_cores b) (cb_policy b).

Definition cpu_build (now : Z) (b : CpuResourceManagerBuilder) : CpuResourceManager :=
  set_policy (cb_policy b) (cpu_new now (cb_config b) (cb_cores b)).

(** ** Choosing cores *)

(** The condition under which a core serves a request. *)
Definition can_use (excl : bool) (core : CoreUsage) : bool :=
  if excl then allocated_vcpus core =? 0 else negb (core_exclusive core).

(** The condition of the fallback: at most four vCPUs share a core. *)
Definition can_use_fallback (excl : bool) (core : CoreUsage) : bool :=
  if excl then allocated_vcpus core =? 0
  else negb (core_exclusive core) && (allocated_vcpus core <? 4).

Definition usable (use : CoreUsage -> bool) (cores : gmap Z CoreUsage) (i : Z) : bool :=
  match cores !! i with Some core => use core | None => false end.

(** The loops of the two first-fit searches: usable cores in order, until there
    are as many as needed; the bound is tested after a core is added. *)
Fixpoint first_fit (ok : Z -> bool) (needed : Z) (acc ids : list Z) : list Z :=
  match ids with
  | [] => acc
  | i :: ids' =>
      if ok i then
        let acc' := acc ++ [i] in
        if needed <=? Z.of_nat (length acc') then acc' else first_fit ok needed acc' ids'
      else first_fit ok needed acc ids'
  end.

(** The loop of the affinity-aware policy: a run of usable cores counts once an
    unusable core ends it. *)
Fixpoint affinity_run (excl : bool) (cores : gmap Z CoreUsage) (needed : Z) (run ids : list Z)
    : list Z :=
  match ids with
  | [] => []
  | i :: ids' =>
      match cores !! i with
      | None => affinity_run excl cores needed run ids'
      | Some core =>
          if can_use excl core then affinity_run excl cores needed (run ++ [i]) ids'
          else if needed <=? Z.of_nat (length run) then run
          else affinity_run excl cores needed [] ids'
      end
  end.

Definition enough (needed : Z) (found : list Z) : BlixardResult (list Z) :=
  if Z.of_nat (length found) <? needed then Err InsufficientResources else Ok found.

Section Operations.
Context {P : Profile} `{HashIter}.

Definition find_available_cores_first_fit (m : CpuResourceManager) (needed : Z) (excl : bool)
    : BlixardResult (list Z) :=
  enough needed (first_fit (usable (can_use_fallback excl) (core_usage m)) needed []
                   (seqZ 0 (total_cores m))).

Definition find_available_cores (m : CpuResourceManager) (needed : Z) (excl : bool)
    : BlixardResult (list Z) :=
  let cores := core_usage m in
  let n := Z.to_nat needed in
  match scheduling_policy m with
  | FirstFit =>
      enough needed (first_fit (usable (can_use excl) cores) needed [] (seqZ 0 (total_cores m)))
  | BestFit =>
      let with_usage := map (fun kc => (kc.1, allocated_vcpus kc.2))
                          (List.filter (fun kc => can_use excl kc.2) (hash_iter cores)) in
      enough needed (firstn n (stable_sort snd with_usage)).*1
  | RoundRobin =>
      let ids := stable_sort (fun i => default 0 (allocated_vcpus <$> cores !! i))
                   (seqZ 0 (total_cores m)) in
      enough needed (List.filter (usable (can_use excl) cores) (firstn n ids))
  | AffinityAware =>
      let consecutive := affinity_run excl cores needed [] (seqZ 0 (total_cores m)) in
      if needed <=? Z.of_nat (length consecutive) then enough needed (firstn n consecutive)
      else find_available_cores_first_fit m needed excl
  end.

(** ** Assigning cores *)

Definition on_core (i : Z) (f : CoreUsage -> BlixardResult CoreUsage)
    : st CpuResourceManager BlixardError unit :=
  let* m := sget in
  match core_usage m !! i with
  | Some core => let* core' := slift (f core) in
                 smodify (set_core_usage (<[i := core']> (core_usage m)))
  | None => sret tt
  end.

Definition take_core (excl : bool) (tenant : TenantId) (core : CoreUsage) : BlixardResult CoreUsage :=
  if excl then Ok (mkCore (core_id core) 1 (core_utilization core) true (Some tenant))
  else let? n := arith_u 32 (allocated_vcpus core + 1) in
       Ok (mkCore (core_id core) n (core_utilization core) (core_exclusive core)
             (exclusive_tenant core)).

Definition allocate_cores (cores : list Z) (excl : bool) (tenant : TenantId)
    : st CpuResourceManager BlixardError unit :=
  sfor (fun i => on_core i (take_core excl tenant)) cores.

Definition free_core (excl : bool) (core : CoreUsage) : BlixardResult CoreUsage :=
  Ok (if excl then mkCore (core_id core) 0 (core_utilization core) false None
      else mkCore (core_id core) (sat_sub (allocated_vcpus core) 1) (core_utilization core)
             (core_exclusive core) (exclusive_tenant core)).

Definition deallocate_cores (cores : list Z) (excl : bool)
    : st CpuResourceManager BlixardError unit :=
  sfor (fun i => on_core i (free_core excl)) cores.

Definition cores_of (a : CpuAllocation) : Z := Z.of_nat (length (assigned_cores a)).

Definition sum_cores (l : list CpuAllocation) : BlixardResult (Z * Z) :=
  ofold (fun '(t, n) a => if is_counted (base a) then let? t' := arith_u 64 (t + cores_of a) in
                                                      Ok (t', n + 1)
                          else Ok (t, n)) (0, 0) l.

Definition sum_utilization (l : list CoreUsage) : f64 :=
  foldl (fun acc c => if 0 <? allocated_vcpus c then f64_add acc (core_utilization c) else acc)
    f64_0 l.

Definition cpu_update_usage_stats (env : OpEnv) : st CpuResourceManager BlixardError unit :=
  let* m := sget in
  let* (total, active) := slift (sum_cores (hash_iter (cpu_allocations m)).*2) in
  let total_used := sum_utilization (hash_iter (core_usage m)).*2 in
  smodify (set_cpu_usage
    (mkUsage (usage_type (cpu_usage m)) (total_capacity (cpu_usage m)) total
       (f64_as_u 64 (f64_div total_used f64_100)) active (oe_now env))).

Definition set_cpu_state_by (f : ManagerState -> BlixardResult ManagerState)
    : st CpuResourceManager BlixardError unit :=
  let* m := sget in
  let* s := slift (f (cpu_state m)) in
  smodify (set_cpu_state s).

Definition wants_exclusive (r : ResourceAllocationRequest) : bool :=
  match metadata r !! "exclusive" with Some v => bool_decide (v = "true") | None => false end.

Definition new_cpu_allocation (env : OpEnv) (m : CpuResourceManager) (r : ResourceAllocationRequest)
    (cores : list Z) : CpuAllocation :=
  mkCpuAllocation
    (mkAllocation (show_alloc_id "cpu-" (tenant_id r) (oe_nanos env)) r (Z.of_nat (length cores))
       (Some "cpu") (oe_allocated_at env) Active)
    cores None (scheduling_policy m) (wants_exclusive r).

(** The first half of [allocate]: the check of the request and the search, which
    gives the lock of the cores back. *)
Definition choose_cores (r : ResourceAllocationRequest) (m : CpuResourceManager) : BlixardResult (list Z) :=
  if negb (bool_decide (resource_type r = Cpu))
  then Err (ConfigurationError "cpu_manager.allocation.resource_type") else
  find_available_cores m (wrap_u 32 (amount r)) (wants_exclusive r).

(** The second half: the cores are taken, and the allocation is recorded. *)
Definition commit_cores (env : OpEnv) (r : ResourceAllocationRequest) (cores : list Z)
    : st CpuResourceManager BlixardError ResourceAllocation :=
  let* m := sget in
  let a := new_cpu_allocation env m r cores in
  allocate_cores cores (wants_exclusive r) (tenant_id r) ;*
  smodify (fun m => set_cpu_allocations (<[allocation_id (base a) := a]> (cpu_allocations m)) m) ;*
  cpu_update_usage_stats env ;*
  set_cpu_state_by (count_allocation (oe_elapsed env)) ;*
  sret (base a).

(** A call that no other call interrupts. *)
Definition cpu_allocate (env : OpEnv) (r : ResourceAllocationRequest)
    : st CpuResourceManager BlixardError ResourceAllocation :=
  let* m := sget in
  let* cores := slift (choose_cores r m) in
  commit_cores env r cores.

Definition cpu_deallocate (env : OpEnv) (id : ResourceId)
    : st CpuResourceManager BlixardError unit :=
  let* m := sget in
  match cpu_allocations m !! id with
  | Some a =>
      smodify (set_cpu_allocations (delete id (cpu_allocations m))) ;*
      deallocate_cores (assigned_cores a) (exclusive a) ;*
      cpu_update_usage_stats env ;*
      set_cpu_state_by count_deallocation
  | None => sfail (ResourceUnavailable "cpu")
  end.

Definition cpu_check_availability (r : ResourceAllocationRequest) (m : CpuResourceManager)
    : BlixardResult bool :=
  if negb (bool_decide (resource_type r = Cpu)) then Ok false else
  match find_available_cores m (wrap_u 32 (amount r)) (wants_exclusive r) with
  | Ok _ => Ok true
  | Err InsufficientResources => Ok false
  | Err e => Err e
  | Panic => Panic
  end.

(** ** Life cycle and background tasks *)

Definition cpu_initialize (env : OpEnv) : st CpuResourceManager BlixardError unit :=
  smodify (fun m => set_cpu_usage
    (mkUsage (usage_type (cpu_usage m)) (total_cores m) (usage_allocated (cpu_usage m))
       (used_amount (cpu_usage m)) (allocation_count (cpu_usage m)) (oe_now env)) m) ;*
  smodify (fun m => set_cpu_state (set_health Healthy (oe_now env) (cpu_state m)) m).

Definition cpu_start_monitoring : st CpuResourceManager BlixardError unit :=
  smodify (fun m =>
    if enable_monitoring (cpu_config m)
    then set_cpu_background (spawn_task (monitoring_interval (cpu_config m)) (cpu_monitoring m))
           (cpu_health_checks m) m
    else m).

Definition cpu_start_health_checks : st CpuResourceManager BlixardError unit :=
  smodify (fun m =>
    if enable_health_checks (cpu_config m)
    then set_cpu_background (cpu_monitoring m)
           (spawn_task (health_check_interval (cpu_config m)) (cpu_health_checks m)) m
    else m).

Definition cpu_start (env : OpEnv) : st CpuResourceManager BlixardError unit :=
  cpu_start_monitoring ;*
  cpu_start_health_checks ;*
  smodify (fun m => set_cpu_state (set_running true Healthy (cpu_state m)) m).

Definition cpu_stop (env : OpEnv) : st CpuResourceManager BlixardError unit :=
  smodify (fun m =>
    set_cpu_background (abort_task (cpu_monitoring m)) (abort_task (cpu_health_checks m)) m) ;*
  smodify (fun m => set_cpu_state (set_running false Stopped (cpu_state m)) m).

(** A tick of the monitoring task draws a utilization for every core in use;
    [random] gives the draw for each core. *)
Definition simulate_core (random : Z -> f64) (i : Z) (c : CoreUsage) : CoreUsage :=
  if 0 <? allocated_vcpus c
  then mkCore (core_id c) (allocated_vcpus c)
         (f64_add (f64_of_Z 20) (f64_mul (random i) (f64_of_Z 60))) (core_exclusive c)
         (exclusive_tenant c)
  else c.

Definition cpu_monitor_tick (random : Z -> f64) : st CpuResourceManager BlixardError unit :=
  smodify (fun m =>
    let order := (hash_iter (core_usage m)).*1 in
    let cores := map_imap (fun i c => Some (simulate_core random i c)) (core_usage m) in
    let visited := omap (fun i => cores !! i) order in
    let allocated := Z.of_nat (length (List.filter (fun c => 0 <? allocated_vcpus c) visited)) in
    let excl := Z.of_nat (length (List.filter core_exclusive visited)) in
    let avg := if 0 <? allocated then f64_div (sum_utilization visited) (f64_of_Z allocated)
               else f64_0 in
    let x := cpu_metrics m in
    set_cpu_metrics
      (mkCpuMetrics (base_metrics x) avg excl
         (if 0 <? allocated then f64_min (f64_div avg f64_100) f64_1 else f64_1)
         (cpu_fragmentation_ratio x))
      (set_core_usage cores m)).

Definition cpu_health_tick (env : OpEnv) : st CpuResourceManager BlixardError unit :=
  smodify (fun m =>
    let avg := avg_cpu_utilization (cpu_metrics m) in
    let h := if f64_ltb (f64_of_Z 95) avg then Unhealthy
             else if f64_ltb (f64_of_Z 85) avg then Degraded else Healthy in
    set_cpu_state (set_health h (oe_now env) (cpu_state m)) m).

(** ** Configuration *)

Definition cpu_update_limits (env : OpEnv) (l : ResourceLimits)
    : st CpuResourceManager BlixardError unit :=
  if negb (bool_decide (limits_type l = Cpu))
  then sfail (ConfigurationError "cpu_manager.limits.resource_type") else
  smodify (fun m => set_cpu_usage
    (mkUsage (usage_type (cpu_usage m)) (hard_limit l) (usage_allocated (cpu_usage m))
       (used_amount (cpu_usage m)) (allocation_count (cpu_usage m)) (oe_now env)) m).

Definition cpu_validate_config (c : ResourceManagerConfig) : BlixardResult unit :=
  if negb (bool_decide (config_type c = Cpu))
  then Err (ConfigurationError "cpu_manager.config.resource_type") else
  if hard_limit (limits c) =? 0 then Err (ConfigurationError "cpu_manager.config.hard_limit") else
  Ok tt.

#[export] Instance cpu_manager : ResourceManager OpEnv CpuResourceManager := {
  rm_resource_type := fun _ => Cpu;
  rm_config := cpu_config;
  rm_allocate := cpu_allocate;
  rm_deallocate := cpu_deallocate;
  rm_check_availability := cpu_check_availability;
  rm_get_usage := fun _ m => Ok (cpu_usage m);
  rm_get_allocations := fun m => Ok (map base (hash_iter (cpu_allocations m)).*2);
  rm_get_allocation := fun id m => Ok (base <$> cpu_allocations m !! id);
  rm_initialize := cpu_initialize;
  rm_start := cpu_start;
  rm_stop := cpu_stop;
  rm_health_check := fun m => Ok (ms_health (cpu_state m));
  rm_is_running := fun m => is_running (cpu_state m);
  rm_get_metrics := fun _ m => Ok (base_metrics (cpu_metrics m));
  rm_update_limits := cpu_update_limits;
  rm_get_limits := fun m => Ok (limits (cpu_config m));
  rm_validate_config := fun c _ => cpu_validate_config c;
  rm_update_config := fun _ c => slift (cpu_validate_config c)
}.
End Operations.

(** * The cores a policy chooses *)

Section Choice.
Context {P : Profile} `{HashIter}.

(** Distinct cores that all satisfy the condition. *)
Definition chosen (ok : Z -> bool) (l : list Z) : Prop := NoDup l /\ Forall (fun i => ok i = true) l.

Lemma chosen_weaken (ok ok' : Z -> bool) l :
  (forall i, ok i = true -> ok' i = true) -> chosen ok l -> chosen ok' l.
Proof. intros Hi [Hn Hf]. split; [done|]. eapply Forall_impl; [exact Hf|]. simpl. auto. Qed.

Lemma chosen_take ok n l : chosen ok l -> chosen ok (firstn n l).
Proof.
  intros [Hn Hf]. split; [|by apply Forall_take].
  by eapply sublist_NoDup, sublist_take.
Qed.

Lemma first_fit_chosen ok needed acc ids :
  NoDup (acc ++ ids) -> Forall (fun i => ok i = true) acc -> chosen ok (first_fit ok needed acc ids).
Proof.
  revert acc. induction ids as [|i ids IH]; intros acc Hn Hf; simpl.
  { by rewrite app_nil_r in Hn. }
  destruct (ok i) eqn:Ei.
  - assert (Hn' : NoDup ((acc ++ [i]) ++ ids)) by by rewrite <-app_assoc.
    assert (Hf' : Forall (fun i => ok i = true) (acc ++ [i])) by (by apply Forall_app; auto).
    case_match; [|by apply IH]. split; [|done]. by apply NoDup_app in Hn' as [? _].
  - apply IH; [|done]. eapply sublist_NoDup; [exact Hn|].
    apply sublist_app; [done|]. by apply sublist_cons.
Qed.

Lemma affinity_run_chosen excl cores needed run ids :
  NoDup (run ++ ids) -> Forall (fun i => usable (can_use excl) cores i = true) run ->
  chosen (usable (can_use excl) cores) (affinity_run excl cores needed run ids).
Proof.
  revert run. induction ids as [|i ids IH]; intros run Hn Hf; simpl; [split; constructor|].
  assert (Hskip : NoDup (run ++ ids)).
  { eapply sublist_NoDup; [exact Hn|]. apply sublist_app; [done|]. by apply sublist_cons. }
  destruct (cores !! i) as [core|] eqn:Ei; [|by apply IH].
  destruct (can_use excl core) eqn:Eu.
  - apply IH; [by rewrite <-app_assoc|]. apply Forall_app. split; [done|].
    constructor; [|done]. unfold usable. by rewrite Ei.
  - case_match.
    + split; [|done]. by apply NoDup_app in Hn as [? _].
    + apply IH; [|done]. simpl. by apply NoDup_app in Hskip as (_ & _ & ?).
Qed.

Lemma filter_sublist {A} (f : A -> bool) l : List.filter f l `sublist_of` l.
Proof. induction l as [|x l IH]; simpl; [done|]. case_match; by constructor. Qed.

Lemma best_fit_chosen excl cores n :
  chosen (usable (can_use excl) cores)
    (firstn n (stable_sort snd (map (fun kc => (kc.1, allocated_vcpus kc.2))
       (List.filter (fun kc => can_use excl kc.2) (hash_iter cores))))).*1.
Proof.
  rewrite fmap_take. apply chosen_take.
  set (l := List.filter _ _).
  assert (Hp : (stable_sort snd (map (fun kc => (kc.1, allocated_vcpus kc.2)) l)).*1 ≡ₚ l.*1).
  { rewrite stable_sort_perm. clear. induction l as [|kc l IH]; simpl; [done|]. by constructor. }
  split.
  - rewrite Hp. apply (sublist_NoDup _ (hash_iter cores).*1).
    + rewrite hash_iter_perm. apply NoDup_fst_map_to_list.
    + unfold l. clear. induction (hash_iter cores) as [|kc l IH]; simpl; [done|].
      case_match; by constructor.
  - rewrite Hp. apply Forall_forall. intros i ([k c] & -> & Hin)%list_elem_of_fmap.
    apply list_elem_of_In, filter_In in Hin as [Hin Hu]. simpl in *.
    apply list_elem_of_In, elem_of_hash_iter in Hin. unfold usable. by rewrite Hin.
Qed.

(** Whatever the policy, the cores that are found are distinct, usable, and at
    least as many as needed. *)
Lemma find_available_cores_chosen m needed excl cores :
  find_available_cores m needed excl = Ok cores ->
  chosen (usable (can_use excl) (core_usage m)) cores /\ needed <= Z.of_nat (length cores).
Proof.
  assert (Hen : forall found, enough needed found = Ok cores ->
            found = cores /\ needed <= Z.of_nat (length cores)).
  { intros found. unfold enough. case_match; [done|]. intros [= ->]. by bools. }
  unfold find_available_cores, find_available_cores_first_fit. intros E.
  destruct (scheduling_policy m); [| | |case_match]; apply Hen in E as [<- Hlen]; split; try done.
  - apply first_fit_chosen; [apply NoDup_seqZ|done].
  - apply best_fit_chosen.
  - split.
    + eapply sublist_NoDup; [|apply filter_sublist]. eapply sublist_NoDup; [|apply sublist_take].
      rewrite stable_sort_perm. apply NoDup_seqZ.
    + apply Forall_forall. intros i Hi%list_elem_of_In. by apply filter_In in Hi as [_ ?].
  - apply chosen_take, affinity_run_chosen; [apply NoDup_seqZ|done].
  - eapply chosen_weaken; [|apply first_fit_chosen; [apply NoDup_seqZ|done]].
    intros i. unfold usable, can_use, can_use_fallback. case_match; [|done].
    destruct excl; [done|]. by intros [? _]%andb_prop.
Qed.
End Choice.

(** * Cores and allocations *)

Section Invariant.
Context {P : Profile} `{HashIter}.
Implicit Types (m : CpuResourceManager) (r : ResourceAllocationRequest).

(** Whether an allocation is on core [i], as a number. *)
Definition lists (i : Z) (a : CpuAllocation) : Z := if bool_decide (i ∈ assigned_cores a) then 1 else 0.

(** The number of allocations on core [i]. *)
Definition allocations_on (i : Z) (x : gmap ResourceId CpuAllocation) : Z := map_sum (lists i) x.

Definition core_ok (x : gmap ResourceId CpuAllocation) (i : Z) (core : CoreUsage) : Prop :=
  allocated_vcpus core = allocations_on i x /\
  (core_exclusive core = true -> allocated_vcpus core = 1) /\
  (forall id a, x !! id = Some a -> i ∈ assigned_cores a -> exclusive a = core_exclusive core).

Definition cpu_entries_ok (cores : gmap Z CoreUsage) (x : gmap ResourceId CpuAllocation) : Prop :=
  forall id a, x !! id = Some a ->
    is_counted (base a) = true /\ allocation_id (base a) = id /\ NoDup (assigned_cores a) /\
    forall i, i ∈ assigned_cores a -> is_Some (cores !! i).

Definition cpu_wf m : Prop :=
  0 <= total_cores m < 2 ^ 32 /\
  (forall i core, core_usage m !! i = Some core ->
     0 <= i < total_cores m /\ core_ok (cpu_allocations m) i core) /\
  cpu_entries_ok (core_usage m) (cpu_allocations m).

(** Room for one more allocation in the counters. *)
Definition cpu_room m : Prop := Z.of_nat (size (cpu_allocations m)) < 2 ^ 32 - 1.

(** Room for [n] more operations. *)
Definition cpu_counts (n : Z) m : Prop :=
  Z.of_nat (size (cpu_allocations m)) < 2 ^ 32 - n /\
  0 <= ms_total_allocations (cpu_state m) < 2 ^ 64 - n /\
  0 <= ms_total_deallocations (cpu_state m) < 2 ^ 64 - n.

Lemma lists_range i a : 0 <= lists i a <= 1.
Proof. unfold lists. case_bool_decide; lia. Qed.

Lemma allocations_on_range i x : 0 <= allocations_on i x <= Z.of_nat (size x).
Proof.
  split.
  - apply map_sum_nonneg. intros. apply lists_range.
  - etrans; [apply (map_sum_bound _ _ 1)|lia]. intros. apply lists_range.
Qed.

Lemma allocations_on_elem i x id a :
  x !! id = Some a -> i ∈ assigned_cores a -> 1 <= allocations_on i x.
Proof.
  intros Ha Hi. etrans; [|apply (map_sum_ge (lists i) x id a); [|done]].
  - unfold lists. by rewrite bool_decide_eq_true_2.
  - intros. apply lists_range.
Qed.

(** Running a fallible update on distinct cores. *)
Lemma on_cores_run (f : CoreUsage -> BlixardResult CoreUsage) (g : CoreUsage -> CoreUsage) cores m :
  NoDup cores ->
  (forall i c, i ∈ cores -> core_usage m !! i = Some c -> f c = Ok (g c)) ->
  exists x, sfor (fun i => on_core i f) cores m = (Ok tt, set_core_usage x m) /\
    forall i, x !! i = if bool_decide (i ∈ cores) then g <$> core_usage m !! i else core_usage m !! i.
Proof.
  revert m. induction cores as [|j cores IH]; intros m Hn Hf; simpl.
  { exists (core_usage m). by destruct m. }
  apply NoDup_cons in Hn as [Hj Hn].
  set (x1 := match core_usage m !! j with Some c => <[j := g c]> (core_usage m)
                                        | None => core_usage m end).
  assert (E : on_core j f m = (Ok tt, set_core_usage x1 m)).
  { unfold on_core, x1. unfold_st. destruct (core_usage m !! j) as [c|] eqn:Ej; [|by destruct m].
    by rewrite (Hf j c ltac:(left) Ej). }
  assert (Hx1 : forall i, x1 !! i = if bool_decide (i = j) then g <$> core_usage m !! i
                                    else core_usage m !! i).
  { intros i. unfold x1. case_bool_decide as Hij.
    - subst. destruct (core_usage m !! j) eqn:Ej; [by rewrite lookup_insert_eq|by rewrite Ej].
    - destruct (core_usage m !! j); [by rewrite lookup_insert_ne|done]. }
  destruct (IH (set_core_usage x1 m) Hn) as (x & Ex & Hx).
  { intros i c Hi. simpl. rewrite Hx1, bool_decide_eq_false_2 by (by intros ->).
    apply Hf. by right. }
  exists x. rewrite (sbind_ok _ _ _ _ _ E), Ex. split; [done|].
  intros i. rewrite Hx. simpl. rewrite Hx1.
  destruct (decide (i = j)) as [->|Hij].
  - rewrite (bool_decide_eq_false_2 (j ∈ cores)), !bool_decide_eq_true_2 by (done || left). done.
  - rewrite (bool_decide_eq_false_2 (i = j)) by done.
    erewrite (bool_decide_ext (i ∈ j :: cores) (i ∈ cores)); [done|].
    rewrite elem_of_cons. naive_solver.
Qed.

(** Distinct cores in range are at most as many as there are. *)
Lemma cores_bound m id a :
  cpu_wf m -> cpu_allocations m !! id = Some a -> cores_of a <= total_cores m.
Proof.
  intros (Ht & Hc & He) Ha. destruct (He id a Ha) as (_ & _ & Hn & Hi).
  assert (Hsub : assigned_cores a ⊆+ seqZ 0 (total_cores m)).
  { apply NoDup_submseteq; [done|]. intros i (c & Hic)%Hi. apply elem_of_seqZ.
    destruct (Hc i c Hic). lia. }
  apply submseteq_length in Hsub. rewrite length_seqZ in Hsub. unfold cores_of. lia.
Qed.

(** The statistics are computed without overflow. *)
Lemma cpu_update_usage_run env m :
  cpu_wf m -> Z.of_nat (size (cpu_allocations m)) < 2 ^ 32 ->
  exists u, cpu_update_usage_stats env m = (Ok tt, set_cpu_usage u m) /\
    usage_allocated u = map_sum cores_of (cpu_allocations m).
Proof.
  intros Hwf Hs. pose proof Hwf as (Ht & _ & He). unfold cpu_update_usage_stats. unfold_st.
  assert (Hsum : map_sum cores_of (cpu_allocations m) < 2 ^ 64).
  { eapply Z.le_lt_trans; [apply (map_sum_bound _ _ (total_cores m))|].
    - intros id a Ha. by eapply cores_bound.
    - assert (Z.of_nat (size (cpu_allocations m)) * total_cores m <= (2 ^ 32 - 1) * (2 ^ 32 - 1)).
      { apply Z.mul_le_mono_nonneg; lia. } lia. }
  unfold sum_cores. rewrite ofold_sum; [rewrite hash_iter_sum; simpl; by eexists| |lia|].
  - intros a ([k a'] & -> & Hin%elem_of_hash_iter)%list_elem_of_fmap. simpl.
    split; [by eapply He|]. unfold cores_of. lia.
  - rewrite hash_iter_sum. lia.
Qed.

Lemma allocations_on_insert i x id a :
  x !! id = None -> allocations_on i (<[id := a]> x) = lists i a + allocations_on i x.
Proof. apply map_sum_insert. Qed.

Lemma allocations_on_delete i x id a :
  x !! id = Some a -> allocations_on i x = lists i a + allocations_on i (delete id x).
Proof. apply map_sum_delete. Qed.

(** What [take_core] and [free_core] leave. *)
Definition taken (excl : bool) (tenant : TenantId) (c : CoreUsage) : CoreUsage :=
  if excl then mkCore (core_id c) 1 (core_utilization c) true (Some tenant)
  else mkCore (core_id c) (allocated_vcpus c + 1) (core_utilization c) (core_exclusive c)
         (exclusive_tenant c).

Definition freed (excl : bool) (c : CoreUsage) : CoreUsage :=
  if excl then mkCore (core_id c) 0 (core_utilization c) false None
  else mkCore (core_id c) (sat_sub (allocated_vcpus c) 1) (core_utilization c)
         (core_exclusive c) (exclusive_tenant c).

(** A new allocation and a core it is not on, or one it takes. *)
Lemma core_ok_other x id a i core :
  x !! id = None -> i ∉ assigned_cores a -> core_ok x i core -> core_ok (<[id := a]> x) i core.
Proof.
  intros Hid Hi (Hc & Hx & He). split_and!; [|done|].
  - rewrite allocations_on_insert by done. unfold lists. rewrite bool_decide_eq_false_2 by done. lia.
  - intros id' a' [[-> ->]|[_ ?]]%lookup_insert_Some Hi'; [done|by eapply He].
Qed.

Lemma core_ok_taken x id a i core tenant :
  x !! id = None -> i ∈ assigned_cores a -> can_use (exclusive a) core = true ->
  core_ok x i core -> core_ok (<[id := a]> x) i (taken (exclusive a) tenant core).
Proof.
  intros Hid Hi Hu (Hc & Hx & He). unfold core_ok.
  rewrite allocations_on_insert by done. unfold lists. rewrite bool_decide_eq_true_2 by done.
  unfold can_use in Hu. unfold taken. destruct (exclusive a) eqn:Ea; simpl; bools; split_and!.
  - lia.
  - done.
  - intros id' a' [[-> ->]|[_ Ha']]%lookup_insert_Some Hi'; [done|].
    pose proof (allocations_on_elem i x id' a' Ha' Hi'). lia.
  - lia.
  - congruence.
  - intros id' a' [[-> ->]|[_ Ha']]%lookup_insert_Some Hi'; [congruence|by eapply He].
Qed.

(** A core after an allocation is removed. *)
Lemma core_ok_kept x id a i core :
  x !! id = Some a -> i ∉ assigned_cores a -> core_ok x i core -> core_ok (delete id x) i core.
Proof.
  intros Hid Hi (Hc & Hx & He). split_and!; [|done|].
  - rewrite (allocations_on_delete i x id a Hid) in Hc. unfold lists in Hc.
    rewrite bool_decide_eq_false_2 in Hc by done. lia.
  - intros id' a' [_ ?]%lookup_delete_Some Hi'. by eapply He.
Qed.

Lemma core_ok_freed x id a i core :
  x !! id = Some a -> i ∈ assigned_cores a -> core_ok x i core ->
  core_ok (delete id x) i (freed (exclusive a) core).
Proof.
  intros Hid Hi (Hc & Hx & He). pose proof (He id a Hid Hi) as Hex.
  rewrite (allocations_on_delete i x id a Hid) in Hc. unfold lists in Hc.
  rewrite bool_decide_eq_true_2 in Hc by done. pose proof (allocations_on_range i (delete id x)).
  unfold core_ok, freed, sat_sub. destruct (exclusive a) eqn:Ea; simpl; split_and!.
  - specialize (Hx (eq_sym Hex)). lia.
  - done.
  - intros id' a' Ha' Hi'. pose proof (allocations_on_elem i _ id' a' Ha' Hi').
    specialize (Hx (eq_sym Hex)). lia.
  - lia.
  - congruence.
  - intros id' a' [_ ?]%lookup_delete_Some Hi'. by eapply He.
Qed.

(** Counting an operation changes the state's counters only. *)
Lemma set_cpu_state_run (f : ManagerState -> BlixardResult ManagerState) m :
  (forall s e, f s <> Err e) ->
  exists o s, set_cpu_state_by f m = (o, set_cpu_state s m) /\
    (o = Ok tt \/ o = Panic) /\ (is_ok (f (cpu_state m)) = true -> o = Ok tt /\ f (cpu_state m) = Ok s).
Proof.
  intros Hf. unfold set_cpu_state_by. unfold_st.
  destruct (f (cpu_state m)) as [s|e|] eqn:E; [|by apply Hf in E|].
  - exists (Ok tt), s. auto.
  - exists Panic, (cpu_state m). split_and!; [by destruct m|by right|done].
Qed.

Lemma count_allocation_no_err d s e : count_allocation d s <> Err e.
Proof. unfold count_allocation. auto with no_err. Qed.

Lemma count_deallocation_no_err s e : count_deallocation s <> Err e.
Proof. unfold count_deallocation. auto with no_err. Qed.

(** The invariant reads these fields only. *)
Definition cpu_books (n : Z) (cores : gmap Z CoreUsage) (x : gmap ResourceId CpuAllocation) : Prop :=
  0 <= n < 2 ^ 32 /\
  (forall i core, cores !! i = Some core -> 0 <= i < n /\ core_ok x i core) /\ cpu_entries_ok cores x.

Lemma books_take n cores x id a tenant (cores' : gmap Z CoreUsage) :
  cpu_books n cores x -> x !! id = None -> is_counted (base a) = true ->
  allocation_id (base a) = id ->
  chosen (usable (can_use (exclusive a)) cores) (assigned_cores a) ->
  (forall i, cores' !! i = if bool_decide (i ∈ assigned_cores a)
                           then taken (exclusive a) tenant <$> cores !! i else cores !! i) ->
  cpu_books n cores' (<[id := a]> x).
Proof.
  intros (Hn & Hc & He) Hid Hcount Hown [Hnd Hall] Hx. rewrite Forall_forall in Hall.
  assert (Hkeys : forall i, is_Some (cores !! i) -> is_Some (cores' !! i)).
  { intros i [c Hi]. rewrite Hx, Hi. case_bool_decide; by eexists. }
  split_and!; [lia|lia|..].
  - intros i core. rewrite Hx. case_bool_decide as Hi.
    + intros (c & Hci & ->)%fmap_Some. destruct (Hc i c Hci) as [? Hok]. split; [done|].
      apply core_ok_taken; [done|done| |done]. specialize (Hall i Hi). unfold usable in Hall.
      by rewrite Hci in Hall.
    + intros Hci. destruct (Hc i core Hci) as [? Hok]. split; [done|]. by apply core_ok_other.
  - intros id' a' [[-> ->]|[_ Ha']]%lookup_insert_Some.
    + split_and!; [done|done|done|]. intros i Hi. apply Hkeys. specialize (Hall i Hi).
      unfold usable in Hall. destruct (cores !! i); [by eexists|done].
    + destruct (He id' a' Ha') as (? & ? & ? & ?). split_and!; eauto.
Qed.

Lemma books_free n cores x id a (cores' : gmap Z CoreUsage) :
  cpu_books n cores x -> x !! id = Some a ->
  (forall i, cores' !! i = if bool_decide (i ∈ assigned_cores a)
                           then freed (exclusive a) <$> cores !! i else cores !! i) ->
  cpu_books n cores' (delete id x).
Proof.
  intros (Hn & Hc & He) Hid Hx.
  assert (Hkeys : forall i, is_Some (cores !! i) -> is_Some (cores' !! i)).
  { intros i [c Hi]. rewrite Hx, Hi. case_bool_decide; by eexists. }
  split_and!; [lia|lia|..].
  - intros i core. rewrite Hx. case_bool_decide as Hi.
    + intros (c & Hci & ->)%fmap_Some. destruct (Hc i c Hci) as [? Hok]. split; [done|].
      by apply core_ok_freed.
    + intros Hci. destruct (Hc i core Hci) as [? Hok]. split; [done|]. by eapply core_ok_kept.
  - intros id' a' [_ Ha']%lookup_delete_Some. destruct (He id' a' Ha') as (? & ? & ? & ?).
    split_and!; eauto.
Qed.

(** The end of both operations: statistics, then the counter. *)
Lemma finish_run {A} env f (v : A) m :
  (forall s e, f s <> Err e) -> cpu_wf m -> Z.of_nat (size (cpu_allocations m)) < 2 ^ 32 ->
  exists o m', (cpu_update_usage_stats env ;* set_cpu_state_by f ;* sret v) m = (o, m') /\
    (o = Ok v \/ o = Panic) /\
    (is_ok (f (cpu_state m)) = true -> o = Ok v /\ f (cpu_state m) = Ok (cpu_state m')) /\
    cpu_wf m' /\ cpu_allocations m' = cpu_allocations m /\
    usage_allocated (cpu_usage m') = map_sum cores_of (cpu_allocations m').
Proof.
  intros Hf Hwf Hs. destruct (cpu_update_usage_run env m Hwf Hs) as (u & E & Hu).
  rewrite (sbind_ok _ _ _ _ _ E).
  destruct (set_cpu_state_run f (set_cpu_usage u m) Hf) as (o & s & E' & Ho & Hok).
  exists (match o with Ok _ => Ok v | Err e => Err e | Panic => Panic end), 
    (set_cpu_state s (set_cpu_usage u m)).
  unfold sbind at 1. rewrite E'. split; [by destruct Ho as [-> | ->]|].
  split; [destruct Ho as [-> | ->]; auto|]. split; [by intros [-> ?]%Hok|]. done.
Qed.

Lemma find_available_cores_outcome m needed excl :
  (exists cores, find_available_cores m needed excl = Ok cores) \/
  find_available_cores m needed excl = Err InsufficientResources.
Proof.
  unfold find_available_cores, find_available_cores_first_fit, enough.
  destruct (scheduling_policy m); repeat case_match; eauto.
Qed.

(** [allocate] when cores were found. *)
Lemma cpu_allocate_found env r m cores :
  resource_type r = Cpu -> find_available_cores m (wrap_u 32 (amount r)) (wants_exclusive r) = Ok cores ->
  cpu_allocate env r m = commit_cores env r cores m.
Proof.
  intros Ht Hf. unfold cpu_allocate, choose_cores. erewrite sbind_ok by reflexivity.
  rewrite bool_decide_eq_true_2 by done. cbv beta iota delta [negb]. rewrite Hf. by erewrite sbind_ok by reflexivity.
Qed.

Lemma cpu_allocate_run env r m cores (a := new_cpu_allocation env m r cores) :
  cpu_wf m -> cpu_room m -> resource_type r = Cpu ->
  find_available_cores m (wrap_u 32 (amount r)) (wants_exclusive r) = Ok cores ->
  cpu_allocations m !! allocation_id (base a) = None ->
  exists o m', cpu_allocate env r m = (o, m') /\
    (o = Ok (base a) \/ o = Panic) /\
    (forall n, 0 <= n -> cpu_counts (n + 1) m -> o = Ok (base a) /\ cpu_counts n m') /\
    cpu_wf m' /\ cpu_allocations m' = <[allocation_id (base a) := a]> (cpu_allocations m) /\
    usage_allocated (cpu_usage m') = map_sum cores_of (cpu_allocations m').
Proof.
  intros Hwf Hroom Ht Hfind Hfresh.
  destruct (find_available_cores_chosen _ _ _ _ Hfind) as [Hch _].
  destruct (on_cores_run (take_core (wants_exclusive r) (tenant_id r))
    (taken (wants_exclusive r) (tenant_id r)) cores m) as (x & Ex & Hx); [by apply Hch|..].
  { intros i c Hi Hc. destruct Hwf as (_ & Hcores & _). destruct (Hcores i c Hc) as [_ (Hv & _ & _)].
    unfold take_core, taken. destruct (wants_exclusive r); [done|].
    pose proof (allocations_on_range i (cpu_allocations m)). unfold cpu_room in Hroom.
    by rewrite arith_u_fits by lia. }
  set (m2 := set_cpu_allocations (<[allocation_id (base a) := a]> (cpu_allocations m))
               (set_core_usage x m)).
  assert (Hwf2 : cpu_wf m2).
  { eapply (books_take _ (core_usage m) _ _ a (tenant_id r)); [exact Hwf|done|done|done|exact Hch|exact Hx]. }
  destruct (finish_run env (count_allocation (oe_elapsed env)) (base a) m2
    (count_allocation_no_err _) Hwf2) as (o & m' & E & Ho & Hok & Hwf' & Hall & Hu).
  { simpl. rewrite map_size_insert_None by done. unfold cpu_room in Hroom. lia. }
  exists o, m'. split_and!; [|done| |done|done|done].
  - rewrite (cpu_allocate_found env r m cores Ht Hfind). unfold commit_cores.
    erewrite sbind_ok by reflexivity. cbv zeta. unfold allocate_cores.
    rewrite (sbind_ok _ _ _ _ _ Ex). erewrite sbind_ok by reflexivity. exact E.
  - intros n Hn (Hs & Hc & Hd). unfold count_allocation in Hok. simpl in Hok.
    rewrite arith_u_fits in Hok by lia. destruct (Hok eq_refl) as [-> [= Hst]]. split; [done|].
    unfold cpu_counts. rewrite Hall, <-Hst. simpl. rewrite map_size_insert_None by done. lia.
Qed.

Lemma cpu_allocate_refused env r m :
  resource_type r <> Cpu \/
  find_available_cores m (wrap_u 32 (amount r)) (wants_exclusive r) = Err InsufficientResources ->
  exists e, cpu_allocate env r m = (Err e, m).
Proof.
  unfold cpu_allocate, choose_cores. unfold_st. intros [Ht|Hf].
  - rewrite bool_decide_eq_false_2 by done. by eexists.
  - destruct (bool_decide (resource_type r = Cpu)); cbv beta iota delta [negb]; [rewrite Hf|]; by eexists.
Qed.

Lemma cpu_deallocate_run env id m a :
  cpu_wf m -> Z.of_nat (size (cpu_allocations m)) < 2 ^ 32 -> cpu_allocations m !! id = Some a ->
  exists o m', cpu_deallocate env id m = (o, m') /\
    (o = Ok tt \/ o = Panic) /\
    (forall n, 0 <= n -> cpu_counts (n + 1) m -> o = Ok tt /\ cpu_counts n m') /\
    cpu_wf m' /\ cpu_allocations m' = delete id (cpu_allocations m).
Proof.
  intros Hwf Hsize Ha. set (m1 := set_cpu_allocations (delete id (cpu_allocations m)) m).
  destruct (on_cores_run (free_core (exclusive a)) (freed (exclusive a)) (assigned_cores a) m1)
    as (x & Ex & Hx); [by eapply Hwf|by intros; unfold free_core, freed; destruct (exclusive a)|].
  assert (Hwf2 : cpu_wf (set_core_usage x m1)).
  { eapply (books_free _ (core_usage m) _ _ a); [exact Hwf|exact Ha|exact Hx]. }
  destruct (finish_run env count_deallocation tt _ count_deallocation_no_err Hwf2)
    as (o & m' & E & Ho & Hok & Hwf' & Hall & _).
  { simpl. rewrite map_size_delete_Some by done. lia. }
  exists o, m'. split_and!; [|done| |done|done].
  - unfold cpu_deallocate. erewrite sbind_ok by reflexivity. rewrite Ha.
    erewrite sbind_ok by reflexivity. fold m1. unfold deallocate_cores.
    rewrite (sbind_ok _ _ _ _ _ Ex). revert E. unfold sbind.
    destruct (cpu_update_usage_stats env _) as [[[]|?|] ?]; [|done|done].
    destruct (set_cpu_state_by count_deallocation _) as [[[]|?|] ?]; done.
  - intros n Hn (Hs & Hc & Hd). unfold count_deallocation in Hok. simpl in Hok.
    rewrite arith_u_fits in Hok by lia. destruct (Hok eq_refl) as [-> [= Hst]]. split; [done|].
    unfold cpu_counts. rewrite Hall, <-Hst. simpl. rewrite map_size_delete_Some by done. lia.
Qed.
End Invariant.

(** * The trait's promises *)

Section Histories.
Context {P : Profile} `{HashIter}.
Implicit Types (m : CpuResourceManager) (r : ResourceAllocationRequest).

(** [allocate] is refused without effect, or follows [cpu_allocate_run]. *)
Lemma cpu_allocate_cases env r m :
  (exists e, cpu_allocate env r m = (Err e, m)) \/
  (resource_type r = Cpu /\ exists cores,
     find_available_cores m (wrap_u 32 (amount r)) (wants_exclusive r) = Ok cores).
Proof.
  destruct (decide (resource_type r = Cpu)) as [Ht|Ht];
    [|left; apply cpu_allocate_refused; by left].
  destruct (find_available_cores_outcome m (wrap_u 32 (amount r)) (wants_exclusive r)) as [?|?].
  - by right.
  - left. apply cpu_allocate_refused. by right.
Qed.

Lemma sum_cores_no_err l e : sum_cores l <> Err e.
Proof. apply ofold_no_err. intros [t n] a e'. case_match; auto with no_err. Qed.

(** Once cores were found nothing is refused any more. *)
Lemma cpu_allocate_no_err env r m cores e m' :
  resource_type r = Cpu ->
  find_available_cores m (wrap_u 32 (amount r)) (wants_exclusive r) = Ok cores ->
  cpu_allocate env r m <> (Err e, m').
Proof.
  intros Ht Hf. rewrite (cpu_allocate_found env r m cores Ht Hf). unfold commit_cores.
  erewrite sbind_ok by reflexivity. cbv zeta.
  match goal with |- ?c m <> _ => cut (no_err c); [intros Hne; apply Hne|] end.
  unfold allocate_cores, cpu_update_usage_stats, set_cpu_state_by, on_core, take_core.
  repeat first [ apply no_err_bind; [|intros] | apply no_err_for; intros | case_match
               | progress auto using count_allocation_no_err, sum_cores_no_err with no_err ].
Qed.

(** The id a call gives its allocation does not depend on the cores. *)
Definition cpu_id (env : OpEnv) (r : ResourceAllocationRequest) : ResourceId :=
  show_alloc_id "cpu-" (tenant_id r) (oe_nanos env).

(** A successful [allocate] returns the allocation built from the cores found. *)
Lemma cpu_allocate_inv env r m a m' :
  cpu_allocate env r m = (Ok a, m') ->
  exists cores, find_available_cores m (wrap_u 32 (amount r)) (wants_exclusive r) = Ok cores /\
    a = base (new_cpu_allocation env m r cores).
Proof.
  unfold cpu_allocate. intros (s1 & m1 & [= <- <-] & E)%sbind_ok_inv.
  apply sbind_ok_inv in E as (cores & m2 & [= Hf <-] & E). unfold choose_cores in Hf. case_match; [done|].
  unfold commit_cores in E. apply sbind_ok_inv in E as (? & ? & [= <- <-] & E).
  apply sbind_ok_inv in E as (? & ? & _ & E). apply sbind_ok_inv in E as (? & ? & _ & E).
  apply sbind_ok_inv in E as (? & ? & _ & E). apply sbind_ok_inv in E as (? & ? & _ & [= <- _]).
  eauto.
Qed.

Lemma cpu_allocate_id env r m a m' :
  cpu_allocate env r m = (Ok a, m') -> allocation_id a = cpu_id env r.
Proof. by intros (? & _ & ->)%cpu_allocate_inv. Qed.

(** The listing of the table's allocations. *)
Lemma list_cpu_entries m :
  cpu_entries_ok (core_usage m) (cpu_allocations m) ->
  exists l, rm_get_allocations m = Ok l /\ NoDup (allocation_id <$> l) /\
    forall a, a ∈ l <-> rm_get_allocation (allocation_id a) m = Ok (Some a).
Proof.
  intros He. eexists. split; [done|].
  destruct (list_by_key (fun a => allocation_id (base a)) (cpu_allocations m)) as [Hn Hl].
  { intros id a Ha. by destruct (He id a Ha) as (_ & ? & _). }
  split; [by rewrite <-list_fmap_compose|]. intros a. simpl. split.
  - intros (ca & -> & Hin%Hl)%list_elem_of_fmap. by rewrite Hin.
  - intros [= (ca & Hca & ->)%fmap_Some]. apply list_elem_of_fmap. exists ca. split; [done|].
    by apply Hl.
Qed.

#[export] Instance cpu_manager_ok : ResourceManagerOk OpEnv CpuResourceManager.
Proof.
  refine {| rm_wf := fun m => cpu_wf m /\ Z.of_nat (size (cpu_allocations m)) < 2 ^ 32;
            rm_counts := cpu_counts |}.
  - unfold cpu_counts. lia.
  - intros id m. by eexists.
  - intros id m a [(_ & _ & He) _] [= (ca & Hca & ->)%fmap_Some].
    by destruct (He id ca Hca) as (_ & ? & _).
  - intros m [(_ & _ & He) _]. by apply list_cpu_entries.
  - intros env r n m a m' [Hwf _] Hn Hc Ha E Hfresh. simpl in *.
    destruct (cpu_allocate_cases env r m) as [[e E']|[Ht [cores Hf]]]; [congruence|].
    rewrite (cpu_allocate_id _ _ _ _ _ E) in Hfresh. injection Hfresh as Hfresh.
    apply fmap_None in Hfresh.
    assert (Hroom : cpu_room m) by (unfold cpu_room; destruct Hc; lia).
    destruct (cpu_allocate_run env r m cores Hwf Hroom Ht Hf Hfresh)
      as (o & m1 & E' & _ & Hok & Hwf' & Hall & _).
    rewrite E in E'. injection E' as <- <-. destruct (Hok n Hn Hc) as [[= ->] Hc'].
    rewrite Hall. split; [split; [done|]|split; [done|split]].
    + rewrite map_size_insert_None by done. unfold cpu_room in Hroom. lia.
    + by rewrite lookup_insert_eq.
    + intros id Hid. by rewrite lookup_insert_ne.
  - intros env r m e m' [Hwf Hsize] Ha E. simpl in *.
    destruct (cpu_allocate_cases env r m) as [[e' E']|[Ht [cores Hf]]]; [congruence|].
    by eapply cpu_allocate_no_err in E.
  - intros env id n m a [Hwf Hsize] Hn Hc Ha. simpl in *. injection Ha as Ha.
    apply fmap_Some in Ha as (ca & Ha & ->).
    destruct (cpu_deallocate_run env id m ca Hwf Hsize Ha) as (o & m' & E & _ & Hok & Hwf' & Hall).
    destruct (Hok n Hn Hc) as [-> Hc']. exists m'. rewrite Hall.
    split; [done|]. split; [split; [done|]|split; [done|split]].
    + rewrite map_size_delete_Some by done. lia.
    + by rewrite lookup_delete_eq.
    + intros id' Hid. by rewrite lookup_delete_ne.
  - intros env id m Ha. simpl in *. injection Ha as Ha%fmap_None. unfold cpu_deallocate. unfold_st.
    rewrite Ha. by eexists.
Defined.

(** One call, or one tick of a background task, after the other; a new
    allocation's id is not in use. *)
Inductive cpu_step : relation CpuResourceManager :=
| cstep_allocate env r m o m' :
    cpu_allocations m !! cpu_id env r = None -> cpu_room m ->
    rm_allocate env r m = (o, m') -> cpu_step m m'
| cstep_deallocate env id m o m' : rm_deallocate env id m = (o, m') -> cpu_step m m'
| cstep_initialize env m o m' : rm_initialize env m = (o, m') -> cpu_step m m'
| cstep_start env m o m' : rm_start env m = (o, m') -> cpu_step m m'
| cstep_stop env m o m' : rm_stop env m = (o, m') -> cpu_step m m'
| cstep_update_limits env l m o m' : rm_update_limits env l m = (o, m') -> cpu_step m m'
| cstep_update_config env c m o m' : rm_update_config env c m = (o, m') -> cpu_step m m'
| cstep_monitor random m o m' : cpu_monitor_tick random m = (o, m') -> cpu_step m m'
| cstep_health env m o m' : cpu_health_tick env m = (o, m') -> cpu_step m m'.

Definition cpu_inv m : Prop := cpu_wf m /\ Z.of_nat (size (cpu_allocations m)) < 2 ^ 32.

(** Operations that touch neither the cores nor the table. *)
Definition same_cores m m' : Prop :=
  total_cores m' = total_cores m /\ core_usage m' = core_usage m /\
  cpu_allocations m' = cpu_allocations m.

#[local] Instance same_cores_preorder : PreOrder same_cores.
Proof. split; [done|]. intros x y z (? & ? & ?) (? & ? & ?). split_and!; congruence. Qed.

Lemma same_cores_inv m m' : cpu_inv m -> same_cores m m' -> cpu_inv m'.
Proof. unfold cpu_inv, cpu_wf. by intros Hi (-> & -> & ->). Qed.

(** The monitoring task changes utilizations only. *)
Lemma monitor_inv random m o m' : cpu_inv m -> cpu_monitor_tick random m = (o, m') -> cpu_inv m'.
Proof.
  intros [(Ht & Hc & He) Hs] [= _ <-]. split; [|done]. split; [done|]. simpl. split.
  - intros i core. rewrite map_lookup_imap. intros (c & Hi & [= <-])%bind_Some.
    destruct (Hc i c Hi) as [? Hok]. split; [done|].
    unfold simulate_core, core_ok in *. by case_match.
  - intros id a Ha. destruct (He id a Ha) as (? & ? & ? & Hi). split_and!; [done|done|done|].
    intros i [c Hic]%Hi. rewrite map_lookup_imap, Hic. by eexists.
Qed.

Lemma initialize_cores env : moves same_cores (cpu_initialize env).
Proof. unfold cpu_initialize. moves_all. Qed.
Lemma start_cores env : moves same_cores (cpu_start env).
Proof. unfold cpu_start, cpu_start_monitoring, cpu_start_health_checks. moves_all. Qed.
Lemma stop_cores env : moves same_cores (cpu_stop env).
Proof. unfold cpu_stop. moves_all. Qed.
Lemma update_limits_cores env l : moves same_cores (cpu_update_limits env l).
Proof. unfold cpu_update_limits. moves_all. Qed.
Lemma health_tick_cores env : moves same_cores (cpu_health_tick env).
Proof. unfold cpu_health_tick. moves_all. Qed.

Lemma cpu_step_inv m m' : cpu_inv m -> cpu_step m m' -> cpu_inv m'.
Proof.
  intros Hinv Hs. pose proof Hinv as [Hwf Hsize].
  destruct Hs as [env r m o m' Hfresh Hroom E|env id m o m' E|env m o m' E|env m o m' E|
    env m o m' E|env l m o m' E|env c m o m' E|random m o m' E|env m o m' E]; simpl in E.
  - destruct (cpu_allocate_cases env r m) as [[e E']|[Ht [cores Hf]]].
    { rewrite E' in E. by simplify_eq. }
    destruct (cpu_allocate_run env r m cores Hwf Hroom Ht Hf Hfresh)
      as (? & ? & E' & _ & _ & Hwf' & Hall & _). rewrite E in E'. simplify_eq. split; [done|].
    rewrite Hall, map_size_insert_None by done. unfold cpu_room in Hroom. lia.
  - destruct (cpu_allocations m !! id) as [a|] eqn:Ea.
    + destruct (cpu_deallocate_run env id m a Hwf Hsize Ea) as (? & ? & E' & _ & _ & Hwf' & Hall).
      rewrite E in E'. simplify_eq. split; [done|]. rewrite Hall, map_size_delete_Some by done. lia.
    + unfold cpu_deallocate in E. unfold_st. rewrite Ea in E. by simplify_eq.
  - by eapply same_cores_inv, initialize_cores.
  - by eapply same_cores_inv, start_cores.
  - by eapply same_cores_inv, stop_cores.
  - by eapply same_cores_inv, update_limits_cores.
  - unfold slift in E. by simplify_eq.
  - by eapply monitor_inv.
  - by eapply same_cores_inv, health_tick_cores.
Qed.

Lemma cpu_build_inv now b : 0 <= cb_cores b < 2 ^ 32 -> cpu_inv (cpu_build now b).
Proof.
  intros Hb. split; [|simpl; by rewrite map_size_empty]. split; [done|]. simpl. split.
  - intros i core Hi. apply elem_of_list_to_map_2, list_elem_of_In, in_map_iff in Hi
      as (j & [= -> <-] & Hj%list_elem_of_In%elem_of_seqZ). split; [lia|].
    unfold core_ok, allocations_on. rewrite map_sum_empty. split_and!; [done|done|].
    intros id a Ha. by rewrite lookup_empty in Ha.
  - intros id a Ha. by rewrite lookup_empty in Ha.
Qed.

(** C33: Along every history of calls and background ticks that follow one another,
    from a new CPU manager of any policy, in which every new allocation has an id of
    its own and there are never 2^32 - 1 of them, the count kept for a core is the number of allocations on that core, and a
    core of an exclusive allocation belongs to no other allocation. *)
Theorem exclusive_cores_not_shared now b m :
  0 <= cb_cores b < 2 ^ 32 -> rtc cpu_step (cpu_build now b) m ->
  (forall i core, core_usage m !! i = Some core ->
     allocated_vcpus core = allocations_on i (cpu_allocations m)) /\
  (forall id1 id2 a1 a2 i,
     cpu_allocations m !! id1 = Some a1 -> cpu_allocations m !! id2 = Some a2 ->
     exclusive a1 = true -> i ∈ assigned_cores a1 -> i ∈ assigned_cores a2 -> id1 = id2).
Proof.
  intros Hb Hr. assert (Hinv : cpu_inv m).
  { eapply rtc_invariant; [exact cpu_step_inv|exact Hr|by apply cpu_build_inv]. }
  destruct Hinv as [(_ & Hc & He) _]. split.
  { intros i core Hi. by destruct (Hc i core Hi) as [_ [? _]]. }
  intros id1 id2 a1 a2 i Ha1 Ha2 Hex Hi1 Hi2.
  destruct (He id1 a1 Ha1) as (_ & _ & _ & Hs). destruct (Hs i Hi1) as [core Hcore].
  destruct (Hc i core Hcore) as [_ (Hv & Hone & Hall)].
  rewrite (Hall id1 a1 Ha1 Hi1) in Hex. specialize (Hone Hex).
  destruct (decide (id1 = id2)) as [|Hne]; [done|].
  rewrite (allocations_on_delete i _ id1 a1 Ha1) in Hv.
  assert (1 <= allocations_on i (delete id1 (cpu_allocations m))).
  { eapply allocations_on_elem; [|exact Hi2]. by rewrite lookup_delete_ne. }
  unfold lists in Hv. rewrite bool_decide_eq_true_2 in Hv by done. lia.
Qed.

(** The metrics the CPU manager reports are those it was created with: no
    operation or background task of it ever counts an allocation there. *)
Definition same_metrics m m' : Prop := base_metrics (cpu_metrics m') = base_metrics (cpu_metrics m).

#[local] Instance same_metrics_preorder : PreOrder same_metrics.
Proof. split; [done|]. intros x y z Hxy Hyz. unfold same_metrics in *. congruence. Qed.

Theorem cpu_metrics_never_counted now b m :
  rtc cpu_step (cpu_build now b) m ->
  rm_get_metrics (mkEnv None 0 0 f64_0 None) m = Ok (mkMetrics Cpu 0 0 0 f64_0 Stopped now ∅).
Proof.
  intros Hr. cut (same_metrics (cpu_build now b) m); [intros Hs; simpl; by rewrite Hs|].
  revert Hr. generalize (cpu_build now b). intros m0 Hr.
  induction Hr as [|x y z Hs _ IH]; [done|]. etrans; [|exact IH]. clear IH.
  destruct Hs as [? ? ? ? ? _ _ E|? ? ? ? ? E|? ? ? ? E|? ? ? ? E|? ? ? ? E|? ? ? ? ? E|? ? ? ? ? E|
    ? ? ? ? E|? ? ? ? E]; simpl in E;
  (match type of E with ?c _ = _ => cut (moves same_metrics c); [intros Hm; exact (Hm _ _ _ E)|] end);
  unfold cpu_allocate, commit_cores, cpu_deallocate, cpu_initialize, cpu_start, cpu_start_monitoring,
    cpu_start_health_checks, cpu_stop, cpu_update_limits, cpu_monitor_tick, cpu_health_tick,
    allocate_cores, deallocate_cores, cpu_update_usage_stats, set_cpu_state_by, on_core;
  repeat first [progress moves_all | apply moves_for; [typeclasses eauto|intros] | progress cbv zeta].
Qed.
End Histories.

(** * How much is granted *)

Section Grants.
Context {P : Profile} `{HashIter}.
Implicit Types (m : CpuResourceManager) (r : ResourceAllocationRequest).

Lemma first_fit_length ok needed acc ids :
  Z.of_nat (length acc) < needed -> Z.of_nat (length (first_fit ok needed acc ids)) <= needed.
Proof.
  revert acc. induction ids as [|i ids IH]; intros acc Hl; simpl; [lia|].
  destruct (ok i); [|by apply IH]. rewrite length_app. simpl.
  case_match; bools; [rewrite length_app; simpl; lia|]. apply IH. rewrite length_app. simpl. lia.
Qed.

(** No policy finds more cores than needed, when any are. *)
Lemma find_available_cores_length m needed excl cores :
  0 < needed -> find_available_cores m needed excl = Ok cores -> Z.of_nat (length cores) = needed.
Proof.
  intros Hpos E. destruct (find_available_cores_chosen _ _ _ _ E) as [_ Hge].
  assert (Z.of_nat (length cores) <= needed); [|lia].
  assert (Hen : forall found, enough needed found = Ok cores -> found = cores).
  { intros found. unfold enough. case_match; [done|]. by intros [= ->]. }
  revert E. unfold find_available_cores, find_available_cores_first_fit.
  destruct (scheduling_policy m); [| | |case_match]; intros <-%Hen.
  - apply first_fit_length. simpl. lia.
  - rewrite length_fmap, length_take. lia.
  - etrans; [apply inj_le, sublist_length, filter_sublist|]. rewrite length_take. lia.
  - rewrite length_take. lia.
  - apply first_fit_length. simpl. lia.
Qed.

(** A CPU request that is granted receives as many cores as the low 32 bits
    of the amount say, when those are not zero: exactly the amount requested
    when it fits 32 bits, and fewer cores than requested when it does not. *)
Theorem cpu_grants_low_bits env r m a m' :
  0 < wrap_u 32 (amount r) -> cpu_allocate env r m = (Ok a, m') ->
  allocated_amount a = amount r mod 2 ^ 32 /\
  (0 <= amount r < 2 ^ 32 -> allocated_amount a = amount r) /\
  (2 ^ 32 <= amount r -> allocated_amount a < amount r).
Proof.
  intros Hpos (cores & Hf & ->)%cpu_allocate_inv.
  apply find_available_cores_length in Hf; [|done]. simpl. rewrite Hf. unfold wrap_u.
  pose proof (Z.mod_pos_bound (amount r) (2 ^ 32) ltac:(lia)).
  split_and!; [done|intros; by apply Z.mod_small|lia].
Qed.

(** A request for zero cores is granted one, under the first-fit policy. *)
Theorem zero_cores_grants_one env r m a m' :
  scheduling_policy m = FirstFit -> wrap_u 32 (amount r) = 0 ->
  usable (can_use (wants_exclusive r)) (core_usage m) 0 = true -> 0 < total_cores m ->
  cpu_allocate env r m = (Ok a, m') -> allocated_amount a = 1.
Proof.
  intros Hp Hz Hu Ht (cores & Hf & ->)%cpu_allocate_inv. simpl. revert Hf.
  unfold find_available_cores. rewrite Hp, Hz. rewrite seqZ_cons by lia. simpl. rewrite Hu.
  unfold enough. simpl. by intros [= <-].
Qed.

Lemma first_fit_all ok needed acc ids :
  (forall i, i ∈ ids -> ok i = true) -> Z.of_nat (length acc) < needed ->
  needed <= Z.of_nat (length (acc ++ ids)) ->
  first_fit ok needed acc ids = firstn (Z.to_nat needed) (acc ++ ids).
Proof.
  revert acc. induction ids as [|i ids IH]; intros acc Hok Hl Hn; simpl.
  { rewrite app_nil_r in *. by rewrite take_ge by lia. }
  rewrite (Hok i) by left. rewrite length_app in *. simpl in *.
  case_match; bools.
  - replace (acc ++ i :: ids) with ((acc ++ [i]) ++ ids) by by rewrite <-app_assoc.
    replace (Z.to_nat needed) with (length (acc ++ [i])) by (rewrite length_app; simpl; lia).
    by rewrite take_app_length.
  - rewrite IH; [by rewrite <-app_assoc|intros; apply Hok; by right|..];
      rewrite ?length_app; simpl; lia.
Qed.

(** Neither the hard limit nor the overcommit ratio bounds shared use: while no
    core is exclusive, first fit grants every request of up to [total_cores]
    vCPUs, whatever is already allocated. *)
Theorem shared_cpu_never_exhausted m r :
  scheduling_policy m = FirstFit -> resource_type r = Cpu -> wants_exclusive r = false ->
  0 < amount r <= total_cores m -> total_cores m < 2 ^ 32 ->
  (forall i, 0 <= i < total_cores m -> usable (can_use false) (core_usage m) i = true) ->
  cpu_check_availability r m = Ok true.
Proof.
  intros Hp Ht Hx Ha Hn Hall. unfold cpu_check_availability.
  rewrite bool_decide_eq_true_2 by done. cbv beta iota delta [negb].
  unfold find_available_cores, wrap_u. rewrite Hp, Hx, Z.mod_small by lia.
  assert (Hlen : Z.of_nat (length (seqZ 0 (total_cores m))) = total_cores m)
    by (rewrite length_seqZ; lia).
  rewrite first_fit_all; [|intros i Hi%elem_of_seqZ; apply Hall; lia|simpl; lia|simpl; lia].
  unfold enough. simpl. rewrite length_take. destruct (Z.ltb_spec (Z.of_nat
    (Nat.min (Z.to_nat (amount r)) (length (seqZ 0 (total_cores m))))) (amount r)); [lia|done].
Qed.
End Grants.

(** * Examples *)

Section Examples.
#[local] Instance demo_profile : Profile := true.
#[local] Existing Instance canonical_iter.

Definition demo_cpu (policy : CpuSchedulingPolicy) (cores : Z) : CpuResourceManager :=
  cpu_build 0 (cpu_with_policy policy (cpu_builder cores)).
Definition demo_request (tenant : string) (excl : bool) (n : Z) : ResourceAllocationRequest :=
  mkRequest "req" tenant Cpu n 0 false None (if excl then {["exclusive" := "true"]} else ∅).
Definition demo_env (nanos : Z) : OpEnv := mkEnv (Some nanos) 0 0 f64_0 (Some 1000).

Lemma exclusive_cores_not_shared_witness :
  exists m, rtc cpu_step (demo_cpu BestFit 4) m /\
  (forall i core, core_usage m !! i = Some core ->
     allocated_vcpus core = allocations_on i (cpu_allocations m)) /\
  (forall id1 id2 a1 a2 i,
     cpu_allocations m !! id1 = Some a1 -> cpu_allocations m !! id2 = Some a2 ->
     exclusive a1 = true -> i ∈ assigned_cores a1 -> i ∈ assigned_cores a2 -> id1 = id2).
Proof.
  assert (Hs : rtc cpu_step (demo_cpu BestFit 4)
            (cpu_allocate (demo_env 1) (demo_request "a" true 2) (demo_cpu BestFit 4)).2).
  { apply rtc_once. eapply (cstep_allocate (demo_env 1) (demo_request "a" true 2));
      [done|by vm_compute|]. apply surjective_pairing. }
  eexists. split; [exact Hs|].
  apply (exclusive_cores_not_shared 0 (cpu_with_policy BestFit (cpu_builder 4))); [by vm_compute|].
  exact Hs.
Defined.

Definition granted (o : BlixardResult ResourceAllocation) : option Z :=
  match o with Ok a => Some (allocated_amount a) | _ => None end.

Lemma cpu_grants_low_bits_witness :
  exists a m', cpu_allocate (demo_env 1) (demo_request "a" false (2 ^ 32 + 1)) (demo_cpu FirstFit 4)
                 = (Ok a, m') /\
    allocated_amount a = (2 ^ 32 + 1) mod 2 ^ 32 /\
    (0 <= 2 ^ 32 + 1 < 2 ^ 32 -> allocated_amount a = 2 ^ 32 + 1) /\
    (2 ^ 32 <= 2 ^ 32 + 1 -> allocated_amount a < 2 ^ 32 + 1).
Proof.
  assert (Hg : granted (cpu_allocate (demo_env 1) (demo_request "a" false (2 ^ 32 + 1))
                 (demo_cpu FirstFit 4)).1 = Some 1) by by vm_compute.
  destruct (cpu_allocate (demo_env 1) (demo_request "a" false (2 ^ 32 + 1)) (demo_cpu FirstFit 4))
    as [o m'] eqn:E. simpl in Hg.
  destruct o as [a| |]; [|discriminate Hg..]. exists a, m'. split; [done|].
  apply (cpu_grants_low_bits (demo_env 1) (demo_request "a" false (2 ^ 32 + 1)) (demo_cpu FirstFit 4)
    a m'); [by vm_compute|exact E].
Defined.

(** The round-robin policy looks only at the least loaded cores, one of which
    may be exclusive, and refuses although enough shared cores remain. *)
Example round_robin_refuses_available :
  let run := (cpu_allocate (demo_env 1) (demo_request "a" true 1) ;*
              cpu_allocate (demo_env 2) (demo_request "b" false 2) ;*
              cpu_allocate (demo_env 3) (demo_request "c" false 2)) in
  granted (run (demo_cpu RoundRobin 3)).1 = None /\
  granted (run (demo_cpu FirstFit 3)).1 = Some 2.
Proof. split; by vm_compute. Qed.

(** Two calls that both look for cores before either takes them are given the same
    core, each of them exclusively. *)
Example overlapping_calls_share_exclusive_core :
  let r1 := demo_request "a" true 1 in
  let r2 := demo_request "b" true 1 in
  let m := demo_cpu FirstFit 2 in
  let m' := ((commit_cores (demo_env 1) r1 [0] ;* commit_cores (demo_env 2) r2 [0]) m).2 in
  choose_cores r1 m = Ok [0] /\ choose_cores r2 m = Ok [0] /\
  (fun a => (exclusive a, assigned_cores a)) <$> cpu_allocations m' !! cpu_id (demo_env 1) r1 = Some (true, [0]) /\
  (fun a => (exclusive a, assigned_cores a)) <$> cpu_allocations m' !! cpu_id (demo_env 2) r2 = Some (true, [0]).
Proof. split_and!; by vm_compute. Qed.

(** Two allocations of one tenant in the same nanosecond get the same id: the
    second replaces the first in the table, and the first one's core stays
    exclusively assigned after the id is released. *)
Example colliding_ids_leak_core :
  let run := (cpu_allocate (demo_env 1) (demo_request "a" true 1) ;*
              cpu_allocate (demo_env 1) (demo_request "a" true 1) ;*
              cpu_deallocate (demo_env 2) (cpu_id (demo_env 1) (demo_request "a" true 1))) in
  let m := (run (demo_cpu FirstFit 2)).2 in
  is_ok (run (demo_cpu FirstFit 2)).1 = true /\ size (cpu_allocations m) = 0%nat /\
  core_exclusive <$> core_usage m !! 0 = Some true.
Proof. split_and!; by vm_compute. Qed.
End Examples.
