(* ===== verification/ManagerFactory.v ===== *)
(** The resource managers put together
    (blixard-core/src/resource_managers/mod.rs and migration_utils.rs): the
    factory that creates a manager from a configuration, the standard composite
    of a memory and a CPU manager, and the wrapper that allocates and releases
    the resources of a VM on it.

    A [Box<dyn ResourceManager>] made by the factory is one of two managers:
    [AnyManager], which keeps the trait's promises because both do. *)

From Stdlib Require Import ZArith Lia List.
From stdpp Require Import base tactics numbers gmap strings pretty option.
From stdpp Require Import list relations.
From S2P Require Import Prelude Float64 Errors ResourceQuotas ResourceApi MemoryManager CpuManager.

Open Scope Z_scope.

(** * Boxed managers *)

Inductive AnyManager : Type :=
| AMemory (m : MemoryResourceManager)
| ACpu (m : CpuResourceManager).

(** A method of the boxed manager runs on the manager in the box. *)
Definition boxed {S A} (box : S -> AnyManager) (op : st S BlixardError A) (s : S)
    : outcome BlixardError A * AnyManager :=
  let '(o, s') := op s in (o, box s').

Section Managers.
Context {P : Profile} `{HashIter}.

Definition any {A} (mem : st MemoryResourceManager BlixardError A)
    (cpu : st CpuResourceManager BlixardError A) : st AnyManager BlixardError A :=
  fun m => match m with AMemory x => boxed AMemory mem x | ACpu x => boxed ACpu cpu x end.

Definition on_any {A} (mem : MemoryResourceManager -> A) (cpu : CpuResourceManager -> A)
    (m : AnyManager) : A := match m with AMemory x => mem x | ACpu x => cpu x end.

#[export] Instance any_manager : ResourceManager OpEnv AnyManager := {
  rm_resource_type := on_any rm_resource_type rm_resource_type;
  rm_config := on_any rm_config rm_config;
  rm_allocate := fun env r => any (rm_allocate env r) (rm_allocate env r);
  rm_deallocate := fun env id => any (rm_deallocate env id) (rm_deallocate env id);
  rm_check_availability := fun r => on_any (rm_check_availability r) (rm_check_availability r);
  rm_get_usage := fun env => on_any (rm_get_usage env) (rm_get_usage env);
  rm_get_allocations := on_any rm_get_allocations rm_get_allocations;
  rm_get_allocation := fun id => on_any (rm_get_allocation id) (rm_get_allocation id);
  rm_initialize := fun env => any (rm_initialize env) (rm_initialize env);
  rm_start := fun env => any (rm_start env) (rm_start env);
  rm_stop := fun env => any (rm_stop env) (rm_stop env);
  rm_health_check := on_any rm_health_check rm_health_check;
  rm_is_running := on_any rm_is_running rm_is_running;
  rm_get_metrics := fun env => on_any (rm_get_metrics env) (rm_get_metrics env);
  rm_update_limits := fun env l => any (rm_update_limits env l) (rm_update_limits env l);
  rm_get_limits := on_any rm_get_limits rm_get_limits;
  rm_validate_config := fun c => on_any (rm_validate_config c) (rm_validate_config c);
  rm_update_config := fun env c => any (rm_update_config env c) (rm_update_config env c)
}.

(** * The factory *)

Record DefaultResourceManagerFactory : Type := mkFactory {
  default_memory_capacity : Z;
  default_cpu_cores : Z
}.

Definition with_system_defaults : DefaultResourceManagerFactory := mkFactory 16384 8.

Definition factory_create (now : Z) (f : DefaultResourceManagerFactory) (c : ResourceManagerConfig)
    : BlixardResult AnyManager :=
  match config_type c with
  | Memory =>
      let capacity := if 0 <? hard_limit (limits c) then hard_limit (limits c)
                      else default_memory_capacity f in
      Ok (AMemory (memory_new now
        (with_health_checks (enable_health_checks c) (health_check_interval c)
          (with_monitoring (enable_monitoring c) (monitoring_interval c)
            (with_overcommit (ResourceApi.overcommit_ratio (limits c))
              (with_capacity capacity (builder_new Memory)))))))
  | Cpu =>
      let cores := if 0 <? hard_limit (limits c) then wrap_u 32 (hard_limit (limits c))
                   else default_cpu_cores f in
      Ok (ACpu (cpu_build now
        (cpu_with_monitoring (enable_monitoring c) (monitoring_interval c)
          (cpu_with_overcommit (ResourceApi.overcommit_ratio (limits c)) (cpu_builder cores)))))
  | Disk => Err (NotImplemented "Disk resource manager")
  | Network => Err (NotImplemented "Network resource manager")
  | Gpu => Err (NotImplemented "GPU resource manager")
  | Custom name => Err (NotImplemented ("Custom resource manager: " +:+ name))
  end.

Definition supported_types : list ResourceType := [Memory; Cpu].

(** [{:?}] of a resource type; the text of a custom name is quoted and escaped,
    [debug_str]. *)
Definition debug_resource_type (debug_str : string -> string) (t : ResourceType) : string :=
  match t with
  | Memory => "Memory" | Cpu => "Cpu" | Disk => "Disk" | Network => "Network" | Gpu => "Gpu"
  | Custom name => "Custom(" +:+ debug_str name +:+ ")"
  end.

Definition factory_validate_config (debug_str : string -> string) (t : ResourceType)
    (c : ResourceManagerConfig) : BlixardResult unit :=
  if negb (bool_decide (config_type c = t))
  then Err (ConfigurationError "resource_manager.resource_type") else
  let? _ := match t with
            | Memory => if hard_limit (limits c) =? 0
                        then Err (ConfigurationError "resource_manager.memory.hard_limit") else Ok tt
            | Cpu => if hard_limit (limits c) =? 0
                     then Err (ConfigurationError "resource_manager.cpu.hard_limit") else Ok tt
            | _ => Err (NotImplemented ("Validation for resource type: " +:+
                                        debug_resource_type debug_str t))
            end in
  if hard_limit (limits c) <? soft_limit (limits c)
  then Err (ConfigurationError "resource_manager.limits.soft_limit") else
  if f64_ltb (ResourceApi.overcommit_ratio (limits c)) f64_1
  then Err (ConfigurationError "resource_manager.limits.overcommit_ratio") else
  Ok tt.

Definition standard_memory_config (memory_capacity : Z) : ResourceManagerConfig :=
  with_monitoring_interval (seconds 30)
    (with_overcommit (f64_lit 12 10) (with_hard_limit memory_capacity (builder_new Memory))).

Definition standard_cpu_config (cpu_cores : Z) : ResourceManagerConfig :=
  with_monitoring_interval (seconds 30)
    (with_overcommit (f64_of_Z 2) (with_hard_limit cpu_cores (builder_new Cpu))).

Definition create_standard_composite_manager (now memory_capacity cpu_cores : Z)
    : BlixardResult (CompositeResourceManager AnyManager) :=
  let factory := mkFactory memory_capacity cpu_cores in
  let? memory := factory_create now factory (standard_memory_config memory_capacity) in
  let? cpu := factory_create now factory (standard_cpu_config cpu_cores) in
  Ok (set_manager Cpu cpu (set_manager Memory memory composite_new)).

Definition create_memory_manager (env : OpEnv) (capacity_mb : Z)
    : BlixardResult MemoryResourceManager :=
  let m := memory_new (oe_now env)
    (with_health_checks true (seconds 60)
      (with_monitoring true (seconds 30)
        (with_overcommit (f64_lit 12 10) (with_capacity capacity_mb (builder_new Memory))))) in
  let '(o, m') := memory_initialize env m in
  let? _ := o in Ok m'.

Definition create_cpu_manager (env : OpEnv) (cores : Z) : BlixardResult CpuResourceManager :=
  let m := cpu_build (oe_now env)
    (cpu_with_monitoring true (seconds 30)
      (cpu_with_policy FirstFit (cpu_with_overcommit (f64_of_Z 2) (cpu_builder cores)))) in
  let '(o, m') := cpu_initialize env m in
  let? _ := o in Ok m'.

(** * The resources of a VM *)

Definition simple_request (id tenant : string) (t : ResourceType) (n : Z) (temporary : bool)
    (expires : option Z) (meta : gmap string string) : ResourceAllocationRequest :=
  mkRequest id tenant t n 100 temporary expires meta.

Definition vm_request (kind : string) (vm_name tenant : string) (t : ResourceType) (n : Z)
    : ResourceAllocationRequest :=
  simple_request ("vm-" +:+ kind +:+ "-" +:+ vm_name) tenant t n false None
    (list_to_map [("vm_name", vm_name); ("resource_class", "vm_allocation")]).

(** The environments of the two allocations. *)
Definition allocate_for_vm (env1 env2 : CompositeEnv OpEnv) (vm_name tenant : string)
    (memory_mb vcpus : Z)
    : st (CompositeResourceManager AnyManager) BlixardError (list ResourceAllocation) :=
  let* memory := rm_allocate env1 (vm_request "memory" vm_name tenant Memory memory_mb) in
  let* cpu := rm_allocate env2 (vm_request "cpu" vm_name tenant Cpu vcpus) in
  sret [memory; cpu].

Definition of_vm (vm_name : string) (a : ResourceAllocation) : bool :=
  match metadata (request a) !! "vm_name" with
  | Some name => bool_decide (name = vm_name)
  | None => false
  end.

(** [env] gives the environment of each release. *)
Definition deallocate_for_vm (env : ResourceId -> CompositeEnv OpEnv) (vm_name : string)
    : st (CompositeResourceManager AnyManager) BlixardError unit :=
  let* c := sget in
  let* allocations := slift (rm_get_allocations c) in
  sfor (fun a => if of_vm vm_name a
                 then rm_deallocate (env (allocation_id a)) (allocation_id a)
                 else sret tt) allocations.

(** [now] is the clock at each of the two checks; adding to it panics beyond
    the range of [SystemTime], which the clock is far from. *)
Definition legacy_quota_check (now1 now2 : Z) (tenant : string) (memory_mb vcpus : Z)
    (c : CompositeResourceManager AnyManager) : BlixardResult bool :=
  let meta := {["operation" := "availability_check"]} in
  let? memory_available := rm_check_availability
    (simple_request ("check-memory-" +:+ tenant) tenant Memory memory_mb true
       (Some (now1 + seconds 1)) meta) c in
  let? cpu_available := rm_check_availability
    (simple_request ("check-cpu-" +:+ tenant) tenant Cpu vcpus true
       (Some (now2 + seconds 1)) meta) c in
  Ok (memory_available && cpu_available).

(** ** Conversions from the quota system *)

Definition convert_resource_request (nanos1 nanos2 : option Z) (r : ResourceRequest)
    : list ResourceAllocationRequest :=
  (if 0 <? rr_memory_mb r
   then [simple_request (show_alloc_id "mem-" (rr_tenant_id r) nanos1) (rr_tenant_id r) Memory
           (rr_memory_mb r) false None
           (list_to_map [("converted_from", "legacy_resource_request");
                         ("original_vcpus", pretty (rr_vcpus r));
                         ("original_disk_gb", pretty (rr_disk_gb r))])]
   else []) ++
  (if 0 <? rr_vcpus r
   then [simple_request (show_alloc_id "cpu-" (rr_tenant_id r) nanos2) (rr_tenant_id r) Cpu
           (rr_vcpus r) false None
           (list_to_map [("converted_from", "legacy_resource_request");
                         ("original_memory_mb", pretty (rr_memory_mb r));
                         ("original_disk_gb", pretty (rr_disk_gb r))])]
   else []).

Definition convert_quota_violation (v : QuotaViolation) : BlixardResult BlixardError :=
  match v with
  | VmLimitExceeded limit current requested =>
      let? sum := arith_u 32 (current + requested) in Ok (QuotaExceeded "VMs" limit sum)
  | CpuLimitExceeded _ _ _ | MemoryLimitExceeded _ _ _ | DiskLimitExceeded _ _ _
  | StorageLimitExceeded _ _ _ => Ok InsufficientResources
  | PerNodeVmLimitExceeded node_id limit current =>
      Ok (SchedulingError ("Node " +:+ pretty node_id +:+ " VM limit exceeded: " +:+ pretty current
                           +:+ "/" +:+ pretty limit +:+ " VMs"))
  | RateLimitExceeded operation limit current =>
      Ok (ResourceExhausted ("Rate limit for operation '" +:+ operation +:+ "': " +:+ pretty current
                             +:+ "/" +:+ pretty limit +:+ " per minute"))
  end.

Definition f64_of_f32 (x : f32) : f64 :=
  match x with
  | SpecFloat.S754_finite s m e => SpecFloat.binary_normalize 53 1024 (SpecFloat.cond_Zopp s (Zpos m)) e s
  | _ => x
  end.

Definition percent_of (n d limit : Z) : Z := f64_as_u 64 (f64_mul (f64_of_Z limit) (f64_lit n d)).

Definition convert_tenant_quota_to_limits (q : TenantQuota) : list ResourceLimits :=
  let l := vm_limits q in
  let ratio := ResourceQuotas.overcommit_ratio l in
  let over := SpecFloat.SFltb (f32_of_Z 1) ratio in
  [ mkLimits Memory (max_memory_mb l) (percent_of 8 10 (max_memory_mb l)) over (f64_of_f32 ratio)
      (percent_of 1 10 (max_memory_mb l));
    mkLimits Cpu (max_vcpus l) (percent_of 8 10 (max_vcpus l)) over (f64_of_f32 ratio) 1;
    mkLimits Disk (max_disk_gb l) (percent_of 9 10 (max_disk_gb l)) false f64_1
      (percent_of 5 100 (max_disk_gb l)) ].
End Managers.

(** * The boxed managers keep the trait's promises *)

Section Promises.
Context {P : Profile} `{HashIter}.

Lemma boxed_run {S A} (box : S -> AnyManager) (op : st S BlixardError A) s o s' :
  op s = (o, s') -> boxed box op s = (o, box s').
Proof. unfold boxed. by intros ->. Qed.

Lemma boxed_inv {S A} (box : S -> AnyManager) (op : st S BlixardError A) s o m' :
  boxed box op s = (o, m') -> exists s', op s = (o, s') /\ m' = box s'.
Proof. unfold boxed. destruct (op s) as [o' s']. intros [= -> <-]. eauto. Qed.

#[export] Instance any_manager_ok : ResourceManagerOk OpEnv AnyManager.
Proof.
  refine {| rm_wf := on_any rm_wf rm_wf;
            rm_counts := fun n => on_any (rm_counts n) (rm_counts n) |}.
  - intros n [m|m]; [apply (rm_counts_weaken (M:=MemoryResourceManager))
                    |apply (rm_counts_weaken (M:=CpuResourceManager))].
  - intros id [m|m]; [apply (rm_get_total (M:=MemoryResourceManager))
                     |apply (rm_get_total (M:=CpuResourceManager))].
  - intros id [m|m] a; [apply (rm_get_id (M:=MemoryResourceManager))
                       |apply (rm_get_id (M:=CpuResourceManager))].
  - intros [m|m]; [apply (rm_list_ok (M:=MemoryResourceManager))
                  |apply (rm_list_ok (M:=CpuResourceManager))].
  - intros env r n [m|m] a m' Hwf Hn Hc Ha E Hfresh; apply boxed_inv in E as (m1 & E & ->).
    + by eapply (rm_allocate_ok (M:=MemoryResourceManager)).
    + by eapply (rm_allocate_ok (M:=CpuResourceManager)).
  - intros env r [m|m] e m' Hwf Ha E; apply boxed_inv in E as (m1 & E & ->); f_equal.
    + by eapply (rm_allocate_err (M:=MemoryResourceManager)).
    + by eapply (rm_allocate_err (M:=CpuResourceManager)).
  - intros env id n [m|m] a Hwf Hn Hc Ha.
    + destruct (rm_deallocate_ok (M:=MemoryResourceManager) env id n m a Hwf Hn Hc Ha)
        as (m' & E & Hr). exists (AMemory m'). split; [by apply boxed_run|exact Hr].
    + destruct (rm_deallocate_ok (M:=CpuResourceManager) env id n m a Hwf Hn Hc Ha)
        as (m' & E & Hr). exists (ACpu m'). split; [by apply boxed_run|exact Hr].
  - intros env id [m|m] Ha.
    + destruct (rm_deallocate_unknown (M:=MemoryResourceManager) env id m Ha) as [e E].
      exists e. by apply boxed_run.
    + destruct (rm_deallocate_unknown (M:=CpuResourceManager) env id m Ha) as [e E].
      exists e. by apply boxed_run.
Defined.
End Promises.

(** * Theorems *)

Section Theorems.
Context {P : Profile} `{HashIter}.
Implicit Types (c : CompositeResourceManager AnyManager) (A : gmap ResourceId ResourceAllocation).

(** One iteration of [deallocate_for_vm]. *)
Lemma release_one env vm b c A n :
  represents c A -> composite_wf c -> 0 <= n -> composite_counts (n + 1) c ->
  A !! allocation_id b = Some b ->
  exists c1 A1,
    (if of_vm vm b then rm_deallocate (env (allocation_id b)) (allocation_id b) else sret tt) c
      = (Ok tt, c1) /\ represents c1 A1 /\ composite_wf c1 /\ composite_counts n c1 /\
    A1 = if of_vm vm b then delete (allocation_id b) A else A.
Proof.
  intros Hrep Hwf Hn Hc Hb. destruct (of_vm vm b) eqn:Eb.
  - pose proof (composite_deallocate_ok (env (allocation_id b)) c A n (allocation_id b)
      Hrep Hwf Hn Hc) as Hd.
    rewrite Hb in Hd. destruct Hd as (c1 & E & ? & ? & ?). eauto 10.
  - exists c, A. split_and!; [done|done|done| |done].
    intros t m Hm. by eapply rm_counts_weaken, Hc.
Qed.

(** The loop of [deallocate_for_vm] over allocations the table holds. *)
Lemma release_loop env vm l : forall c A,
  represents c A -> composite_wf c -> composite_counts (Z.of_nat (length l)) c ->
  NoDup (allocation_id <$> l) -> (forall a, a ∈ l -> A !! allocation_id a = Some a) ->
  exists c' A', sfor (fun a => if of_vm vm a
                               then rm_deallocate (env (allocation_id a)) (allocation_id a)
                               else sret tt) l c = (Ok tt, c') /\
    represents c' A' /\ composite_wf c' /\
    forall id a, A' !! id = Some a <->
      A !! id = Some a /\ ~ (of_vm vm a = true /\ exists b, b ∈ l /\ allocation_id b = id).
Proof.
  induction l as [|b l IH]; intros c A Hrep Hwf Hc Hnd Hl; simpl.
  { exists c, A. split_and!; [done|done|done|]. intros id a.
    setoid_rewrite elem_of_nil. naive_solver. }
  rewrite fmap_cons in Hnd. apply NoDup_cons in Hnd as [Hb Hnd].
  replace (Z.of_nat (length (b :: l))) with (Z.of_nat (length l) + 1) in Hc by (simpl; lia).
  destruct (release_one env vm b c A (Z.of_nat (length l)) Hrep Hwf ltac:(lia) Hc (Hl b ltac:(left)))
    as (c1 & A1 & E & Hrep1 & Hwf1 & Hc1 & HA1).
  assert (Hl1 : forall a, a ∈ l -> A1 !! allocation_id a = Some a).
  { intros a Ha. subst A1. destruct (of_vm vm b); [|apply Hl; by right].
    rewrite lookup_delete_ne; [apply Hl; by right|]. intros Eid. apply Hb. rewrite Eid.
    apply list_elem_of_fmap. eauto. }
  destruct (IH c1 A1 Hrep1 Hwf1 Hc1 Hnd Hl1) as (c' & A' & E' & Hrep' & Hwf' & HA').
  exists c', A'. split_and!; [by rewrite (sbind_ok _ _ _ _ _ E)|done|done|].
  intros id a. rewrite HA', HA1. clear -Hl Hb.
  setoid_rewrite elem_of_cons. pose proof (Hl b ltac:(left)) as Hlb.
  destruct (of_vm vm b) eqn:Eb.
  - rewrite lookup_delete_Some. split.
    + intros ([Hne Ha] & Hn). split; [done|]. intros (Hv & b' & [->|Hb'] & Hid); [done|].
      apply Hn. eauto.
    + intros (Ha & Hn). split; [split; [|done]|].
      * intros <-. rewrite Hlb in Ha. injection Ha as <-. apply Hn. eauto.
      * intros (Hv & b' & Hb' & Hid). apply Hn. eauto.
  - split.
    + intros (Ha & Hn). split; [done|]. intros (Hv & b' & [->|Hb'] & Hid).
      * subst id. rewrite Hlb in Ha. congruence.
      * apply Hn. eauto.
    + intros (Ha & Hn). split; [done|]. intros (Hv & b' & Hb' & Hid). apply Hn. eauto.
Qed.

(** A listing of the table has its size. *)
Lemma table_length c A l :
  represents c A -> composite_wf c -> NoDup (allocation_id <$> l) ->
  (forall a, a ∈ l <-> A !! allocation_id a = Some a) -> length l = size A.
Proof.
  intros Hrep Hwf Hnd Hl. rewrite <-(length_fmap allocation_id l), <-length_map_to_list.
  rewrite <-(length_fmap fst (map_to_list A)). apply Permutation_length, NoDup_Permutation.
  - done.
  - apply NoDup_fst_map_to_list.
  - intros id. rewrite !list_elem_of_fmap. split.
    + intros (a & -> & Ha%Hl). exists (allocation_id a, a). split; [done|].
      by apply elem_of_map_to_list.
    + intros ([k a] & -> & Ha%elem_of_map_to_list). exists a. simpl.
      pose proof (represents_id c A k a Hrep Hwf Ha) as Hid. rewrite Hl, Hid. done.
Qed.

(** Releasing a VM releases exactly the allocations whose request names the
    VM, in every manager of the composite and for every tenant, whatever the
    order in which the managers list them, and fails in no way. *)
Theorem deallocate_for_vm_exact env vm c A :
  represents c A -> composite_wf c -> composite_counts (Z.of_nat (size A)) c ->
  exists c', deallocate_for_vm env vm c = (Ok tt, c') /\ composite_wf c' /\
    represents c' (filter (fun p => of_vm vm p.2 = false) A).
Proof.
  intros Hrep Hwf Hc. destruct (composite_list_ok c A Hrep Hwf) as (l & El & Hnd & Hl).
  assert (Hlen : length l = size A) by (by eapply table_length).
  destruct (release_loop env vm l c A Hrep Hwf) as (c' & A' & E & Hrep' & Hwf' & HA').
  { by rewrite Hlen. }
  { done. }
  { intros a. apply Hl. }
  exists c'. split_and!; [|done|].
  - unfold deallocate_for_vm. erewrite sbind_ok by reflexivity. simpl rm_get_allocations.
    rewrite El. erewrite sbind_ok by reflexivity. exact E.
  - assert (A' = filter (fun p => of_vm vm p.2 = false) A) as <-; [|done].
    apply map_eq. intros id. apply option_eq. intros a.
    rewrite HA', map_lookup_filter_Some. simpl. split; intros [Ha Hn]; (split; [done|]).
    + destruct (of_vm vm a) eqn:Ev; [|done]. exfalso. apply Hn. split; [done|]. exists a.
      pose proof (represents_id c A id a Hrep Hwf Ha) as Hid. rewrite Hl, Hid. done.
    + intros [Hv _]. congruence.
Qed.

(** When the CPU of a VM is refused after its memory was granted,
    [allocate_for_vm] returns the error and leaves the memory allocated: the
    composite still holds the allocation the caller never received. *)
Theorem refused_vm_keeps_memory env1 env2 vm tenant memory_mb vcpus c A n a c1 e c2 :
  represents c A -> composite_wf c -> 0 <= n -> composite_counts (n + 1) c ->
  0 <= memory_mb < 2 ^ 64 -> 0 <= vcpus < 2 ^ 32 ->
  rm_allocate env1 (vm_request "memory" vm tenant Memory memory_mb) c = (Ok a, c1) ->
  A !! allocation_id a = None ->
  rm_allocate env2 (vm_request "cpu" vm tenant Cpu vcpus) c1 = (Err e, c2) ->
  allocate_for_vm env1 env2 vm tenant memory_mb vcpus c = (Err e, c1) /\
  rm_get_allocation (allocation_id a) c1 = Ok (Some a) /\
  represents c1 (<[allocation_id a := a]> A).
Proof.
  intros Hrep Hwf Hn Hc Hm Hv Ea Hfresh Ee.
  destruct (composite_allocate_ok env1 c A (vm_request "memory" vm tenant Memory memory_mb) n a c1
    Hrep Hwf Hn Hc Hm Ea Hfresh) as (Hrep1 & Hwf1 & _).
  assert (c2 = c1) as -> by (eapply composite_allocate_err; [done| |exact Ee]; simpl; lia).
  split_and!; [|simpl|done].
  - unfold allocate_for_vm. rewrite (sbind_ok _ _ _ _ _ Ea). unfold sbind. by rewrite Ee.
  - erewrite composite_lookup by done. by rewrite lookup_insert_eq.
Qed.

(** The standard composite starts as an empty table of well-formed managers. *)
Lemma standard_composite_ok now memory_mb cores n c :
  0 <= memory_mb < 2 ^ 64 -> 0 <= cores < 2 ^ 32 -> 0 <= n < 2 ^ 32 ->
  create_standard_composite_manager now memory_mb cores = Ok c ->
  represents c ∅ /\ composite_wf c /\ composite_counts n c.
Proof.
  intros Hm Hcores Hn [= <-].
  set (mem := memory_new _ _). set (cpu := cpu_build _ _).
  assert (Hmgr : forall t x, managers (set_manager Cpu (ACpu cpu) (set_manager Memory (AMemory mem)
            composite_new)) !! t = Some x -> x = ACpu cpu \/ x = AMemory mem).
  { intros t x. simpl. rewrite lookup_insert_Some, lookup_insert_Some, lookup_empty. naive_solver. }
  assert (Hnone : forall t id a, ~ owns (set_manager Cpu (ACpu cpu) (set_manager Memory (AMemory mem)
            composite_new)) t id a).
  { intros t id a (x & [-> | ->]%Hmgr & Hg); simpl in Hg; by rewrite lookup_empty in Hg. }
  split; [|split].
  - intros id a. rewrite lookup_empty. split; [done|]. intros [t Ho]. by apply Hnone in Ho.
  - split.
    + intros t x [-> | ->]%Hmgr; simpl.
      * apply cpu_build_inv. simpl. unfold wrap_u. case_match; [|done].
        apply Z.mod_pos_bound. lia.
      * apply memory_new_wf. split; simpl; [|lia]. case_match; lia.
    + intros id t1 a1 t2 a2 Ho. by apply Hnone in Ho.
  - intros t x [-> | ->]%Hmgr; simpl; unfold cpu_counts, memory_counts; simpl;
      rewrite ?map_size_empty; simpl; lia.
Qed.

(** The factory keeps of a memory configuration the capacity, the overcommit
    ratio and the intervals only: the system reserve is dropped and overcommit
    is allowed whatever the configuration says. *)
Theorem factory_ignores_reserve now f cfg m :
  config_type cfg = Memory -> factory_create now f cfg = Ok (AMemory m) ->
  system_reserve (limits (mem_config m)) = 0 /\ allow_overcommit (limits (mem_config m)) = true.
Proof. unfold factory_create. intros ->. by intros [= <-]. Qed.

(** The factory's own validation rejects the configurations with which
    [create_standard_composite_manager] calls it. *)
Theorem standard_config_invalid debug_str memory_mb cores :
  0 < memory_mb < u64_max / 2 -> 0 < cores < u64_max / 2 ->
  factory_validate_config debug_str Memory (standard_memory_config memory_mb) =
    Err (ConfigurationError "resource_manager.limits.soft_limit") /\
  factory_validate_config debug_str Cpu (standard_cpu_config cores) =
    Err (ConfigurationError "resource_manager.limits.soft_limit").
Proof.
  intros Hm Hc. unfold factory_validate_config. simpl.
  destruct (Z.eqb_spec memory_mb 0), (Z.eqb_spec cores 0); try lia. simpl.
  destruct (Z.ltb_spec memory_mb (u64_max / 2)), (Z.ltb_spec cores (u64_max / 2)); try lia. done.
Qed.

(** The limits a built CPU manager reports are typed as memory limits: given
    back to the composite, they resize the memory manager and leave the CPU
    manager alone. *)
Theorem cpu_limits_resize_memory now memory_mb cores c env l :
  create_standard_composite_manager now memory_mb cores = Ok c ->
  (exists cpu, managers c !! Cpu = Some (ACpu cpu) /\ rm_get_limits cpu = Ok l) ->
  exists c', rm_update_limits env l c = (Ok tt, c') /\ managers c' !! Cpu = managers c !! Cpu /\
    exists mem, managers c' !! Memory = Some (AMemory mem) /\
      total_capacity (mem_usage mem) = u64_max.
Proof.
  intros [= <-] (cpu & [= <-] & [= <-]). eexists. split; [reflexivity|]. split; [done|].
  by eexists.
Qed.
End Theorems.

(** * Examples *)

Section Examples.
#[local] Instance demo_profile : Profile := true.
#[local] Existing Instance canonical_iter.

Definition demo_env (nanos : Z) : CompositeEnv OpEnv :=
  mkCompositeEnv 0 (fun _ => mkEnv (Some nanos) 0 0 f64_0 None).
Definition demo_composite : CompositeResourceManager AnyManager :=
  match create_standard_composite_manager 0 100 2 with Ok c => c | _ => composite_new end.

Lemma demo_composite_ok n :
  0 <= n < 2 ^ 32 ->
  represents demo_composite ∅ /\ composite_wf demo_composite /\ composite_counts n demo_composite.
Proof. intros Hn. by apply (standard_composite_ok 0 100 2). Qed.

Lemma composite_refines_table_witness :
  let r := vm_request "memory" "web" "acme" Memory 60 in
  let c := demo_composite in
  (forall id, composite_get_allocation id c =
                Ok ((∅ : gmap ResourceId ResourceAllocation) !! id)) /\
  (forall a c', composite_allocate (demo_env 1) r c = (Ok a, c') ->
     (∅ : gmap ResourceId ResourceAllocation) !! allocation_id a = None ->
     represents c' (<[allocation_id a := a]> ∅) /\ composite_wf c' /\ composite_counts 10 c') /\
  (forall e c', composite_allocate (demo_env 1) r c = (Err e, c') -> c' = c) /\
  (forall id, match (∅ : gmap ResourceId ResourceAllocation) !! id with
              | Some _ => exists c', composite_deallocate (demo_env 1) id c = (Ok tt, c') /\
                            represents c' (delete id ∅) /\ composite_wf c' /\ composite_counts 10 c'
              | None => exists e, composite_deallocate (demo_env 1) id c = (Err e, c)
              end).
Proof.
  destruct (demo_composite_ok 11 ltac:(lia)) as (Hrep & Hwf & Hc).
  apply (composite_refines_table (demo_env 1) demo_composite ∅ 10
    (vm_request "memory" "web" "acme" Memory 60)); [exact Hrep|exact Hwf|lia|exact Hc|].
  simpl. lia.
Defined.

Definition granted_amount (o : BlixardResult ResourceAllocation) : option Z :=
  match o with Ok a => Some (allocated_amount a) | _ => None end.

Lemma refused_vm_keeps_memory_witness :
  exists a c1 e,
    allocate_for_vm (demo_env 1) (demo_env 2) "web" "acme" 60 3 demo_composite = (Err e, c1) /\
    rm_get_allocation (allocation_id a) c1 = Ok (Some a) /\
    represents c1 (<[allocation_id a := a]> ∅).
Proof.
  destruct (demo_composite_ok 11 ltac:(lia)) as (Hrep & Hwf & Hc).
  set (r1 := vm_request "memory" "web" "acme" Memory 60).
  set (r2 := vm_request "cpu" "web" "acme" Cpu 3).
  assert (H1 : granted_amount (rm_allocate (demo_env 1) r1 demo_composite).1 = Some 60)
    by by vm_compute.
  assert (H2 : (rm_allocate (demo_env 2) r2 (rm_allocate (demo_env 1) r1 demo_composite).2).1 =
               Err InsufficientResources) by by vm_compute.
  destruct (rm_allocate (demo_env 1) r1 demo_composite) as [o1 c1] eqn:E1. cbn [fst snd] in H1, H2.
  destruct o1 as [a| |]; [|discriminate H1..].
  destruct (rm_allocate (demo_env 2) r2 c1) as [o2 c2] eqn:E2. cbn [fst] in H2. subst o2.
  exists a, c1, InsufficientResources.
  apply (refused_vm_keeps_memory (demo_env 1) (demo_env 2) "web" "acme" 60 3 demo_composite ∅ 10 a c1
    InsufficientResources c2);
    [exact Hrep|exact Hwf|lia|exact Hc|lia|lia|exact E1|apply lookup_empty|exact E2].
Defined.

Lemma deallocate_for_vm_exact_witness :
  exists c A c', represents c A /\
    deallocate_for_vm (fun _ => demo_env 9) "web" c = (Ok tt, c') /\ composite_wf c' /\
    represents c' (filter (fun p => of_vm "web" p.2 = false) A).
Proof.
  destruct (demo_composite_ok 11 ltac:(lia)) as (Hrep & Hwf & Hc).
  set (r1 := vm_request "memory" "web" "acme" Memory 60).
  assert (H1 : granted_amount (rm_allocate (demo_env 1) r1 demo_composite).1 = Some 60)
    by by vm_compute.
  destruct (rm_allocate (demo_env 1) r1 demo_composite) as [o1 c1] eqn:E1. simpl in H1.
  destruct o1 as [a| |]; [|discriminate H1..].
  destruct (composite_allocate_ok (demo_env 1) demo_composite ∅ r1 10 a c1 Hrep Hwf ltac:(lia) Hc
    ltac:(simpl; lia) E1 (lookup_empty _)) as (Hrep1 & Hwf1 & Hc1).
  exists c1, (<[allocation_id a := a]> ∅).
  destruct (deallocate_for_vm_exact (fun _ => demo_env 9) "web" c1 (<[allocation_id a := a]> ∅) Hrep1
    Hwf1) as (c' & E & Hwf' & Hrep').
  - rewrite map_size_insert_None, map_size_empty by apply lookup_empty. simpl.
    intros t m Hm. do 9 apply rm_counts_weaken. by apply (Hc1 t).
  - exists c'. eauto.
Defined.
End Examples.
