(* ===== verification/ManagerLocks.v ===== *)
(** The locks of the memory manager
    (blixard-core/src/resource_managers/memory_manager.rs): the order in which
    [allocate], [deallocate] and a tick of the monitoring task take the four
    [tokio::sync::RwLock]s, with the queue in which tasks wait for each.

    What tokio documents of its lock is the class [FairLock]: readers share,
    a writer excludes everybody, a request at the front of the queue that
    conflicts with nobody is granted, and a read is not granted while a write
    that was requested before it still waits. *)

From Stdlib Require Import ZArith Lia List.
From stdpp Require Import base tactics numbers option.
From stdpp Require Import list relations.
From S2P Require Import Prelude.

Inductive lock : Type := LAllocations | LUsage | LState | LMetrics.
Inductive mode : Type := Read | Write.
Inductive action : Type := Acq (l : lock) (m : mode) | Rel (l : lock).

#[export] Instance lock_eq_dec : EqDecision lock.
Proof. solve_decision. Defined.
#[export] Instance mode_eq_dec : EqDecision mode.
Proof. solve_decision. Defined.

(** * The paths *)

(** [update_usage_stats] reads the allocations and writes the usage; both
    guards live until it returns. *)
Definition update_stats_path : list action :=
  [Acq LAllocations Read; Acq LUsage Write; Rel LUsage; Rel LAllocations].

(** [allocate]: the check, the insertion, the statistics, the counters. *)
Definition allocate_path : list action :=
  [Acq LUsage Read; Rel LUsage; Acq LAllocations Write; Rel LAllocations] ++
  update_stats_path ++ [Acq LState Write; Rel LState].

Definition deallocate_path : list action :=
  [Acq LAllocations Write; Rel LAllocations] ++ update_stats_path ++ [Acq LState Write; Rel LState].

(** A tick: the sum under the allocations' lock; then, with the usage locked,
    the number of allocations under their lock again; then the metrics. *)
Definition monitor_path : list action :=
  [Acq LAllocations Read; Rel LAllocations;
   Acq LUsage Write; Acq LAllocations Read; Rel LAllocations; Rel LUsage;
   Acq LState Read; Acq LMetrics Write; Rel LMetrics; Rel LState].

(** * Locks with queues *)

(** Tasks are numbered; a lock has its holders and, oldest first, the requests
    that wait for it. *)
Definition request : Type := nat * mode.

Definition compatible (holders : list request) (m : mode) : bool :=
  match m with
  | Read => forallb (fun h => bool_decide (h.2 = Read)) holders
  | Write => bool_decide (holders = [])
  end.

Class FairLock : Type := {
  grants : list request -> list request -> request -> bool;
  grants_compatible : forall hs before q, grants hs before q = true -> compatible hs q.2 = true;
  grants_front : forall hs q, compatible hs q.2 = true -> grants hs [] q = true;
  grants_fifo : forall hs before q, (exists w, w ∈ before /\ w.2 = Write) -> grants hs before q = false
}.

Record lock_state : Type := mkLock { holders : list request; waiting : list request }.

Record system : Type := mkSystem { locks : lock -> lock_state; progs : list (list action) }.

Definition set_lock (l : lock) (x : lock_state) (s : system) : lock -> lock_state :=
  fun l' => if bool_decide (l' = l) then x else locks s l'.

Definition start (ps : list (list action)) : system := mkSystem (fun _ => mkLock [] []) ps.

Section Scheduling.
Context `{FairLock}.

(** A task asks for its next lock, a queued request is granted, or a task
    releases a lock. *)
Inductive event : Type := Ask (i : nat) | Grant (l : lock) (i : nat) | Release (i : nat).

Definition is_waiting (i : nat) (x : lock_state) : bool :=
  existsb (fun q => Nat.eqb i q.1) (waiting x).

(** The requests before task [i]'s in the queue, its own, and those after. *)
Fixpoint split_queue (i : nat) (q : list request) : option (list request * request * list request) :=
  match q with
  | [] => None
  | r :: q' =>
      if Nat.eqb i r.1 then Some ([], r, q')
      else match split_queue i q' with
           | Some (before, x, after) => Some (r :: before, x, after)
           | None => None
           end
  end.

Definition fire (e : event) (s : system) : option system :=
  match e with
  | Ask i =>
      match progs s !! i with
      | Some (Acq l m :: _) =>
          let x := locks s l in
          if is_waiting i x then None
          else Some (mkSystem (set_lock l (mkLock (holders x) (waiting x ++ [(i, m)])) s) (progs s))
      | _ => None
      end
  | Grant l i =>
      let x := locks s l in
      match split_queue i (waiting x), progs s !! i with
      | Some (before, q, after), Some (_ :: rest) =>
          if grants (holders x) before q
          then Some (mkSystem (set_lock l (mkLock (q :: holders x) (before ++ after)) s)
                       (<[i := rest]> (progs s)))
          else None
      | _, _ => None
      end
  | Release i =>
      match progs s !! i with
      | Some (Rel l :: rest) =>
          let x := locks s l in
          Some (mkSystem (set_lock l (mkLock (List.filter (fun h => negb (Nat.eqb i h.1)) (holders x))
                                        (waiting x)) s)
                  (<[i := rest]> (progs s)))
      | _ => None
      end
  end.

Fixpoint run (es : list event) (s : system) : option system :=
  match es with
  | [] => Some s
  | e :: es' => match fire e s with Some s' => run es' s' | None => None end
  end.

Definition finished (s : system) : bool :=
  forallb (fun p => match p with [] => true | _ => false end) (progs s).

(** Somebody has work left and nothing can happen. *)
Definition deadlocked (s : system) : Prop := finished s = false /\ forall e, fire e s = None.

Lemma grants_free q : grants [] [] q = true.
Proof. apply grants_front. by destruct q as [? []]. Qed.

(** Task [i] takes a free lock. *)
Definition take (i : nat) (l : lock) : list event := [Ask i; Grant l i].

(** The first caller holds the allocations for reading and asks for the usage,
    the monitoring task holds the usage and asks for the allocations, and
    between the two a second caller has asked to write the allocations. *)
Definition crossing : list event :=
  take 0 LUsage ++ [Release 0] ++ take 0 LAllocations ++ [Release 0] ++
  take 1 LUsage ++ [Release 1] ++
  take 2 LAllocations ++ [Release 2] ++ take 2 LUsage ++
  take 0 LAllocations ++ [Ask 1; Ask 0; Ask 2].

(** Where the crossing ends. *)
Definition crossed : system :=
  mkSystem
    (fun l => match l with
              | LAllocations => mkLock [(0%nat, Read)] [(1%nat, Write); (2%nat, Read)]
              | LUsage => mkLock [(2%nat, Write)] [(0%nat, Write)]
              | _ => mkLock [] []
              end)
    [skipn 5 allocate_path; skipn 2 allocate_path; skipn 3 monitor_path].

(** Two systems whose locks and programs agree. *)
Definition same_system (s s' : system) : Prop :=
  (forall l, locks s l = locks s' l) /\ progs s = progs s'.

Lemma run_cons e es s s' s2 : fire e s = Some s' -> run es s' = Some s2 -> run (e :: es) s = Some s2.
Proof. intros E. simpl. by rewrite E. Qed.

Ltac fire_all :=
  repeat (eapply run_cons; [lazy -[grants]; rewrite ?grants_free; reflexivity|]); reflexivity.

Lemma crossing_runs :
  exists s, run crossing (start [allocate_path; allocate_path; monitor_path]) = Some s /\
    same_system s crossed.
Proof.
  eexists. split; [unfold crossing, take, start; simpl app; fire_all|]. split; [by intros []|done].
Qed.

Lemma crossed_stuck s : same_system s crossed -> deadlocked s.
Proof.
  intros [Hl Hp]. split; [unfold finished; by rewrite Hp|].
  assert (Hconf : forall hs before q, compatible hs q.2 = false -> grants hs before q = false).
  { intros hs before q Hc. destruct (grants hs before q) eqn:Eg; [|done].
    apply grants_compatible in Eg. congruence. }
  intros [i|l i|i]; simpl; rewrite Hp.
  - destruct i as [|[|[|i]]]; simpl; rewrite ?Hl; done.
  - rewrite Hl. destruct l; simpl; [| |done|done].
    + destruct i as [|[|[|i]]]; simpl; [done| | |done].
      * by rewrite Hconf.
      * rewrite grants_fifo; [done|]. exists (1%nat, Write). split; [left|done].
    + destruct i as [|i]; simpl; [|done]. by rewrite Hconf.
  - destruct i as [|[|[|i]]]; done.
Qed.

(** Two [allocate] calls and one tick of the monitoring task can deadlock,
    on any lock with the documented fairness: there is an interleaving after
    which all three wait for each other for ever. *)
Theorem monitor_deadlocks_allocate :
  exists es s, run es (start [allocate_path; allocate_path; monitor_path]) = Some s /\ deadlocked s.
Proof.
  destruct crossing_runs as (s & E & Hs). exists crossing, s. split; [done|by apply crossed_stuck].
Qed.
End Scheduling.

(** A lock that grants in strict order of request is such a lock. *)
#[refine] Instance fifo_lock : FairLock := {
  grants := fun hs before q => match before with [] => compatible hs q.2 | _ => false end
}.
Proof.
  - intros hs [|b before] q; done.
  - done.
  - intros hs [|b before] q; [|done]. by intros (w & ?%not_elem_of_nil & _).
Defined.

Lemma monitor_deadlocks_allocate_witness :
  exists es s, run es (start [allocate_path; allocate_path; monitor_path]) = Some s /\ deadlocked s.
Proof. exact monitor_deadlocks_allocate. Defined.
