(* ===== verification/VmBackend.v ===== *)
(** The backends that run virtual machines and what is kept of the machines over
    a restart (blixard-core/src/vm_backend.rs, vm_state_persistence.rs).

    A backend works on its own state beside the database of the node, which
    it shares with everything else; [Host] is the pair.  The lock around the
    states the mock backend simulates is held over no code that can panic, so it
    is never poisoned.  The features "failpoints" and "observability" are
    off.  A table is iterated in any order. *)

From Stdlib Require Import ZArith Lia List.
From stdpp Require Import base tactics numbers gmap strings option.
From stdpp Require Import list relations.
From S2P Require Import Prelude Wire Errors VmHealth Types RaftCodec Codecs Database.

Open Scope Z_scope.

(** * Reading a table *)

(** What redb does in a read transaction: it cannot be begun, the table cannot
    be opened, or reading the table fails. *)
Inductive read_fault : Type := ReadFine | ReadBeginFails | ReadOpenFails | ReadFails.

(** [redb::StorageError] converted with [?]. *)
Definition storage_error : BlixardError := Storage "storage_operation".

(** * The interface *)

Record Host (B : Type) : Type := mkHost { backend : B; host_db : Database }.
Arguments mkHost {B} backend host_db.
Arguments backend {B} h.
Arguments host_db {B} h.

Definition set_backend {B} (b : B) (h : Host B) : Host B := mkHost b (host_db h).

(** The time of a call, in nanoseconds, and what redb does during it. *)
Record CallEnv : Type := mkCallEnv { call_now : Z; call_read : read_fault }.

Class VmBackend (B : Type) : Type := {
  vb_create_vm : CallEnv -> VmConfig -> Z -> st (Host B) BlixardError unit;
  vb_start_vm : CallEnv -> string -> st (Host B) BlixardError unit;
  vb_stop_vm : CallEnv -> string -> st (Host B) BlixardError unit;
  vb_delete_vm : CallEnv -> string -> st (Host B) BlixardError unit;
  vb_update_vm_status : CallEnv -> string -> VmStatus -> st (Host B) BlixardError unit;
  vb_get_vm_status : CallEnv -> string -> st (Host B) BlixardError (option VmStatus);
  vb_list_vms : CallEnv -> st (Host B) BlixardError (list (VmConfig * VmStatus));
  vb_get_vm_ip : CallEnv -> string -> st (Host B) BlixardError (option string);
  vb_migrate_vm : CallEnv -> string -> Z -> bool -> st (Host B) BlixardError unit
}.

(** What a backend promises of creating and starting a machine: the call returns,
    does not touch the database of the node or other machines, and a machine that was
    started runs.  [machine] is what the backend has of a machine. *)
Class BackendView (B M : Type) : Type := { machine : B -> string -> M; runs : M -> Prop }.

Class BackendLaws (B M : Type) `{VmBackend B} `{BackendView B M} : Prop := {
  create_touches_one env c n h o h' : vb_create_vm env c n h = (o, h') ->
    o <> Panic /\ host_db h' = host_db h /\
    (forall name, name <> vm_name c -> machine (backend h') name = machine (backend h) name);
  start_runs_one env name h o h' : vb_start_vm env name h = (o, h') ->
    o <> Panic /\ host_db h' = host_db h /\
    (forall other, other <> name -> machine (backend h') other = machine (backend h) other) /\
    (o = Ok tt -> runs (machine (backend h') name))
}.

(** The methods with a body of their own in the trait. *)
Definition default_get_vm_ip {B} (_ : CallEnv) (_name : string) : st (Host B) BlixardError (option string) :=
  sret None.
Definition default_migrate_vm {B} (_ : CallEnv) (_name : string) (_target_node_id : Z) (_live : bool)
    : st (Host B) BlixardError unit :=
  sfail (NotImplemented "VM migration").

(** * The stored machines *)

Section Stored.
Context `{Codec VmState} `{HashIter}.

(** The rows of VM_STATE_TABLE. *)
Definition vm_rows (db : Database) : list (string * bytes) := hash_iter (strs db VM_STATE_TABLE).

(** The configurations and statuses of the stored machines: [VmManager::list_vms]
    and the mock backend's [list_vms]. *)
Definition read_vm_list (f : read_fault) (db : Database) : BlixardResult (list (VmConfig * VmStatus)) :=
  match f with
  | ReadBeginFails => Err StorageTransactionError
  | ReadOpenFails => Ok []
  | ReadFails => Err storage_error
  | ReadFine =>
      otraverse (fun '(_, value) =>
        let? vm_state := ok_or SerializationError (de value) in
        Ok (vs_config vm_state, vs_status vm_state)) (vm_rows db)
  end.

(** One stored machine; a failure to read the row counts as no row. *)
Definition read_vm_row (f : read_fault) (name : string) (db : Database) : BlixardResult (option VmState) :=
  match f with
  | ReadBeginFails => Err StorageTransactionError
  | ReadOpenFails | ReadFails => Ok None
  | ReadFine =>
      match strs db VM_STATE_TABLE !! name with
      | Some data => let? vm_state := ok_or SerializationError (de data) in Ok (Some vm_state)
      | None => Ok None
      end
  end.

(** * The mock backend *)

Record MockVmBackend : Type := mkMock { simulated_states : gmap string (VmStatus * Z) }.

Definition mock_new : MockVmBackend := mkMock ∅.

Definition mock_insert (name : string) (s : VmStatus) (now : Z) : st (Host MockVmBackend) BlixardError unit :=
  smodify (fun h => set_backend (mkMock (<[name := (s, now)]> (simulated_states (backend h)))) h).

Definition mock_create_vm (env : CallEnv) (config : VmConfig) (node_id : Z) : st (Host MockVmBackend) BlixardError unit :=
  mock_insert (vm_name config) Creating (call_now env).
Definition mock_start_vm (env : CallEnv) (name : string) : st (Host MockVmBackend) BlixardError unit :=
  mock_insert name Running (call_now env).
Definition mock_stop_vm (env : CallEnv) (name : string) : st (Host MockVmBackend) BlixardError unit :=
  mock_insert name Stopped (call_now env).
Definition mock_delete_vm (env : CallEnv) (name : string) : st (Host MockVmBackend) BlixardError unit := sret tt.
Definition mock_update_vm_status (env : CallEnv) (name : string) (status : VmStatus) : st (Host MockVmBackend) BlixardError unit :=
  sret tt.

(** [Instant::elapsed] saturates at zero; [as_secs] rounds down. *)
Definition elapsed_secs (created_at now : Z) : Z := sat_sub now created_at / 1000000000.

Definition mock_status_at (status : VmStatus) (created_at now : Z) : VmStatus :=
  match status with
  | Creating => if 1 <=? elapsed_secs created_at now then Running else status
  | _ => status
  end.

Definition mock_get_vm_status (env : CallEnv) (name : string) : st (Host MockVmBackend) BlixardError (option VmStatus) :=
  fun h =>
    match simulated_states (backend h) !! name with
    | Some (status, created_at) => (Ok (Some (mock_status_at status created_at (call_now env))), h)
    | None => (omap_ok (fun o => vs_status <$> o) (read_vm_row (call_read env) name (host_db h)), h)
    end.

Definition mock_list_vms (env : CallEnv) : st (Host MockVmBackend) BlixardError (list (VmConfig * VmStatus)) :=
  fun h => (read_vm_list (call_read env) (host_db h), h).

#[global] Instance mock_backend : VmBackend MockVmBackend := {
  vb_create_vm := mock_create_vm;
  vb_start_vm := mock_start_vm;
  vb_stop_vm := mock_stop_vm;
  vb_delete_vm := mock_delete_vm;
  vb_update_vm_status := mock_update_vm_status;
  vb_get_vm_status := mock_get_vm_status;
  vb_list_vms := mock_list_vms;
  vb_get_vm_ip := default_get_vm_ip;
  vb_migrate_vm := default_migrate_vm
}.

End Stored.

(** * The registry of backends *)

(** A factory, of which the registry uses the type it is registered under and its
    constructor. *)
Record VmBackendFactory (B : Type) : Type := mkBackendFactory {
  backend_type : string;
  create_backend : string -> string -> BlixardResult B
}.
Arguments mkBackendFactory {B} backend_type create_backend.
Arguments backend_type {B} v.
Arguments create_backend {B} v.

Definition registry_register {B} (f : VmBackendFactory B) (r : gmap string (VmBackendFactory B))
    : gmap string (VmBackendFactory B) :=
  <[backend_type f := f]> r.

Definition registry_create_backend {B} (type config_dir data_dir : string) (r : gmap string (VmBackendFactory B))
    : BlixardResult B :=
  let? factory := ok_or (ConfigurationError "vm_backend.type") (r !! type) in
  create_backend factory config_dir data_dir.

Definition mock_factory : VmBackendFactory MockVmBackend := mkBackendFactory "mock" (fun _ _ => Ok mock_new).
Definition registry_default : gmap string (VmBackendFactory MockVmBackend) := registry_register mock_factory ∅.

(** * Persistence *)

Record VmPersistenceConfig : Type := mkPersistenceConfig {
  auto_recovery_enabled : bool;
  max_parallel_recovery : nat;
  recovery_delay_secs : Z;
  skip_failed_vms : bool
}.

Definition default_persistence_config : VmPersistenceConfig := mkPersistenceConfig true 5 2 true.

Record VmStatePersistence : Type := mkPersistence {
  p_database : Database;
  p_config : VmPersistenceConfig;
  persisted_vms : gmap string VmState
}.

Definition persistence_new (db : Database) (config : VmPersistenceConfig) : VmStatePersistence :=
  mkPersistence db config ∅.

Definition set_p_database (db : Database) (p : VmStatePersistence) : VmStatePersistence :=
  mkPersistence db (p_config p) (persisted_vms p).
Definition set_persisted (m : gmap string VmState) (p : VmStatePersistence) : VmStatePersistence :=
  mkPersistence (p_database p) (p_config p) m.

(** A transaction on the database of the manager. *)
Definition on_p_db {A} (m : st Database BlixardError A) : st VmStatePersistence BlixardError A :=
  fun p => let '(o, db) := m (p_database p) in (o, set_p_database db p).

Record RecoveryReport : Type := mkReport {
  total_vms : nat;
  recovered_vms : list string;
  failed_recoveries : list (string * BlixardError);
  skipped_vms : list (string * string)
}.

Definition default_report : RecoveryReport := mkReport 0 [] [] [].

Record RecoveryStats : Type := mkStats {
  total_persisted : Z;
  running_vms : Z;
  stopped_vms : Z;
  failed_vms : Z;
  starting_vms : Z;
  stopping_vms : Z
}.

(** [format!("{:?}", status)] *)
Definition vm_status_debug (s : VmStatus) : string :=
  match s with
  | Creating => "Creating" | Starting => "Starting" | Running => "Running"
  | Stopping => "Stopping" | Stopped => "Stopped" | Failed => "Failed"
  end.

Section Persistence.
Context `{Codec VmState} `{HashIter}.

Definition persist_vm_state (fault : txn_fault) (vm_state : VmState) : st VmStatePersistence BlixardError unit :=
  on_p_db (run_txn begin_error commit_error fault
    (table_op fault
      (let* serialized := slift (ok_or SerializationError (ser vm_state)) in
       insert_str fault VM_STATE_TABLE (vs_name vm_state) serialized))) ;*
  smodify (fun p => set_persisted (<[vs_name vm_state := vm_state]> (persisted_vms p)) p).

Definition remove_vm_state (fault : txn_fault) (vm_name : string) : st VmStatePersistence BlixardError unit :=
  on_p_db (run_txn begin_error commit_error fault (remove_str fault VM_STATE_TABLE vm_name)) ;*
  smodify (fun p => set_persisted (delete vm_name (persisted_vms p)) p).

(** A row that cannot be decoded is left out. *)
Definition load_persisted_vms (f : read_fault) (db : Database) : BlixardResult (list VmState) :=
  match f with
  | ReadBeginFails => Err StorageTransactionError
  | ReadOpenFails => Ok []
  | ReadFails => Err storage_error
  | ReadFine => Ok (omap (fun '(_, value) => de value) (vm_rows db))
  end.

Definition get_recovery_stats (p : VmStatePersistence) : RecoveryStats :=
  fold_left (fun s '(_, vm) =>
    match vs_status vm with
    | Running => mkStats (total_persisted s) (running_vms s + 1) (stopped_vms s) (failed_vms s) (starting_vms s) (stopping_vms s)
    | Stopped => mkStats (total_persisted s) (running_vms s) (stopped_vms s + 1) (failed_vms s) (starting_vms s) (stopping_vms s)
    | Failed => mkStats (total_persisted s) (running_vms s) (stopped_vms s) (failed_vms s + 1) (starting_vms s) (stopping_vms s)
    | Starting | Creating =>
        mkStats (total_persisted s) (running_vms s) (stopped_vms s) (failed_vms s) (starting_vms s + 1) (stopping_vms s)
    | Stopping => mkStats (total_persisted s) (running_vms s) (stopped_vms s) (failed_vms s) (starting_vms s) (stopping_vms s + 1)
    end) (hash_iter (persisted_vms p)) (mkStats (Z.of_nat (size (persisted_vms p))) 0 0 0 0 0).

(** [update_vm_status]: a row that is missing, or cannot be read or decoded, is
    left alone. *)
Definition persistence_update_vm_status (f : read_fault) (fault : txn_fault) (now : Z) (vm_name : string)
    (new_status : VmStatus) : st VmStatePersistence BlixardError unit :=
  fun p =>
    match f with
    | ReadBeginFails => (Err StorageTransactionError, p)
    | ReadOpenFails | ReadFails => (Ok tt, p)
    | ReadFine =>
        match strs (p_database p) VM_STATE_TABLE !! vm_name ≫= de with
        | Some v => persist_vm_state fault
            (mkVmState (vs_name v) (vs_config v) new_status (vs_node_id v) (vs_created_at v) now) p
        | None => (Ok tt, p)
        end
    end.

(** * Recovery after a restart *)

(** Whether a machine is to be recovered, or why it is not. *)
Definition recovery_verdict (config : VmPersistenceConfig) (vm : VmState) : option string :=
  if negb (bool_decide (vs_status vm = Running)) && negb (bool_decide (vs_status vm = Starting)) then
    Some ("VM was in " +:+ vm_status_debug (vs_status vm) +:+ " state")
  else if skip_failed_vms config && bool_decide (vs_status vm = Failed) then
    Some "Skipping failed VM as per configuration"
  else None.

Definition vms_to_recover (config : VmPersistenceConfig) (vms : list VmState) : list VmState :=
  filter (fun vm => recovery_verdict config vm = None) vms.

Definition vms_to_skip (config : VmPersistenceConfig) (vms : list VmState) : list (string * string) :=
  omap (fun vm => pair (vs_name vm) <$> recovery_verdict config vm) vms.

(** [slice::chunks], for a size that is not zero. *)
Fixpoint chunks {A} (fuel size : nat) (l : list A) : list (list A) :=
  match fuel, l with
  | O, _ | _, [] => []
  | S fuel', _ => take size l :: chunks fuel' size (drop size l)
  end.

(** How far the recovery of one machine has come: between its calls of the
    backend it gives way to the others of its batch. *)
Inductive recovery_stage : Type := ToCreate | ToStart | Recovered | RecoveryFailed (e : BlixardError).

Section Recover.
Context {B : Type} `{VmBackend B}.

(** The next call of the [i]th machine of a batch. *)
Definition poll (env : CallEnv) (batch : list VmState) (i : nat) (stages : list recovery_stage)
    : st (Host B) BlixardError (list recovery_stage) :=
  match batch !! i, stages !! i with
  | Some vm, Some ToCreate => fun h =>
      match vb_create_vm env (vs_config vm) (vs_node_id vm) h with
      | (Panic, h') => (Panic, h')
      | (_, h') => (Ok (<[i := ToStart]> stages), h')
      end
  | Some vm, Some ToStart => fun h =>
      match vb_start_vm env (vs_name vm) h with
      | (Panic, h') => (Panic, h')
      | (Ok _, h') => (Ok (<[i := Recovered]> stages), h')
      | (Err e, h') => (Ok (<[i := RecoveryFailed e]> stages), h')
      end
  | _, _ => sret stages
  end.

Fixpoint poll_all (envs : nat -> CallEnv) (batch : list VmState) (schedule : list nat) (stages : list recovery_stage)
    : st (Host B) BlixardError (list recovery_stage) :=
  match schedule with
  | [] => sret stages
  | i :: schedule' =>
      let* stages' := poll (envs (length schedule)) batch i stages in
      poll_all envs batch schedule' stages'
  end.

(** Every machine twice, after whatever went before: all are done then. *)
Definition round_of (n : nat) : list nat := seq 0 n ++ seq 0 n.

Definition record_results (batch : list VmState) (stages : list recovery_stage) (report : RecoveryReport) : RecoveryReport :=
  fold_left (fun r '(vm, stage) =>
    match stage with
    | Recovered => mkReport (total_vms r) (recovered_vms r ++ [vs_name vm]) (failed_recoveries r) (skipped_vms r)
    | RecoveryFailed e => mkReport (total_vms r) (recovered_vms r) (failed_recoveries r ++ [(vs_name vm, e)]) (skipped_vms r)
    | _ => r
    end) (zip batch stages) report.

(** [join_all] on the recoveries of a batch: [schedule] says in which order they
    are polled before they are waited for. *)
Definition recover_batch (envs : nat -> CallEnv) (schedule : list nat) (batch : list VmState) (report : RecoveryReport)
    : st (Host B) BlixardError RecoveryReport :=
  let* stages := poll_all envs batch (schedule ++ round_of (length batch)) (replicate (length batch) ToCreate) in
  sret (record_results batch stages report).

(** The batches one after the other; [plan k] is what happens while the [k]th of
    them from the end runs. *)
Fixpoint recover_batches (plan : nat -> (nat -> CallEnv) * list nat) (batches : list (list VmState)) (report : RecoveryReport)
    : st (Host B) BlixardError RecoveryReport :=
  match batches with
  | [] => sret report
  | batch :: batches' =>
      let* report' := recover_batch (plan (length batches')).1 (plan (length batches')).2 batch report in
      recover_batches plan batches' report'
  end.

(** [chunks] panics on a size of zero. *)
Definition recover_vms (f : read_fault) (plan : nat -> (nat -> CallEnv) * list nat) (config : VmPersistenceConfig)
    : st (Host B) BlixardError RecoveryReport :=
  if negb (auto_recovery_enabled config) then sret default_report
  else
    let* h := sget in
    let* vms := slift (load_persisted_vms f (host_db h)) in
    let to_recover := vms_to_recover config vms in
    let report := mkReport (length vms) [] [] (vms_to_skip config vms) in
    if (max_parallel_recovery config =? 0)%nat then spanic
    else recover_batches plan (chunks (length to_recover) (max_parallel_recovery config) to_recover) report.

End Recover.

End Persistence.

(** * Specifications *)

Section Specs.
Context `{Codec VmState} `{HashIter}.

(** Every row is filed under the name of its machine. *)
Definition rows_wf (db : Database) : Prop :=
  forall k b v, strs db VM_STATE_TABLE !! k = Some b -> de b = Some v -> vs_name v = k /\ vm_name (vs_config v) = k.

(** The statuses from which a machine is recovered. *)
Definition was_up (v : VmState) : Prop := vs_status v = Running \/ vs_status v = Starting.

(** What the manager remembers of this session is what the table holds. *)
Definition persistence_agrees (p : VmStatePersistence) : Prop :=
  forall k v, persisted_vms p !! k = Some v -> vs_name v = k /\ strs (p_database p) VM_STATE_TABLE !! k ≫= de = Some v.

Definition stage_rank (s : recovery_stage) : nat :=
  match s with ToCreate => 0 | ToStart => 1 | _ => 2 end.

Definition stage_done (s : recovery_stage) : Prop := stage_rank s = 2%nat.

(** * Lemmas *)

Lemma chunks_concat {A} (l : list A) fuel size : (0 < size)%nat -> (length l <= fuel)%nat -> concat (chunks fuel size l) = l.
Proof.
  intros Hs. revert l. induction fuel as [|fuel IH]; intros [|x l] Hf; cbn [length] in Hf; try done; [lia|].
  cbn [chunks concat]. rewrite IH, take_drop; [done|]. rewrite length_drop. cbn. lia.
Qed.

Lemma recovery_verdict_none config v : recovery_verdict config v = None <-> was_up v.
Proof.
  unfold recovery_verdict, was_up. destruct (vs_status v) eqn:E, (skip_failed_vms config); cbn; split; intros; naive_solver.
Qed.

Lemma elem_of_to_recover config vms v : v ∈ vms_to_recover config vms <-> v ∈ vms /\ was_up v.
Proof.
  unfold vms_to_recover. rewrite list_elem_of_filter, recovery_verdict_none. tauto.
Qed.

(** Each machine is recovered or skipped. *)
Lemma split_verdicts config vms :
  (vs_name <$> vms_to_recover config vms) ++ (vms_to_skip config vms).*1 ≡ₚ vs_name <$> vms.
Proof.
  induction vms as [|v vms IH]; [done|]. unfold vms_to_recover, vms_to_skip in *. rewrite filter_cons. csimpl.
  destruct (recovery_verdict config v) eqn:E; csimpl.
  - by rewrite <- Permutation_middle, IH.
  - by rewrite IH.
Qed.

Section Generic.
Context {B : Type} `{VmBackend B}.

(** A call brings its machine one step on and leaves the others where they are. *)
Lemma poll_progress env batch i (stages stages' : list recovery_stage) (h h' : Host B) :
  length stages = length batch -> poll env batch i stages h = (Ok stages', h') ->
  length stages' = length batch /\
  (forall j s, stages !! j = Some s -> exists s', stages' !! j = Some s' /\
     (Nat.min 2 (stage_rank s + (if decide (j = i) then 1 else 0)) <= stage_rank s')%nat).
Proof.
  intros Hl. unfold poll. destruct (batch !! i) as [vm|] eqn:Eb, (stages !! i) as [si|] eqn:Es.
  - assert (Hi : (i < length stages)%nat) by by eapply lookup_lt_Some.
    assert (Hset : forall s', (S (stage_rank si) <= stage_rank s')%nat -> forall j s, stages !! j = Some s -> exists s'',
      <[i := s']> stages !! j = Some s'' /\ (Nat.min 2 (stage_rank s + (if decide (j = i) then 1 else 0)) <= stage_rank s'')%nat).
    { intros s' Hs' j s Hj. destruct (decide (j = i)) as [->|Hne].
      - exists s'. rewrite list_lookup_insert_eq by done. split; [done|]. rewrite Es in Hj. injection Hj as <-. lia.
      - exists s. rewrite list_lookup_insert_ne by done. split; [done|]. lia. }
    destruct si; [destruct (vb_create_vm _ _ _ h) as [[]]|destruct (vb_start_vm _ _ h) as [[]]| |];
      intros [= <- <-]; rewrite ?length_insert; split; try done; (try by apply Hset; cbn; lia);
      intros j s Hj; exists s; split; try done; destruct (decide (j = i)) as [->|]; try lia; rewrite Es in Hj;
      injection Hj as <-; cbn; lia.
  - exfalso. apply lookup_lt_Some in Eb. apply lookup_ge_None in Es. lia.
  - exfalso. apply lookup_lt_Some in Es. apply lookup_ge_None in Eb. lia.
  - intros [= <- <-]. split; [done|]. intros j s Hj. exists s. split; [done|].
    destruct (decide (j = i)) as [->|]; [congruence|lia].
Qed.

Lemma poll_all_progress envs batch schedule (stages stages' : list recovery_stage) (h h' : Host B) :
  length stages = length batch -> poll_all envs batch schedule stages h = (Ok stages', h') ->
  length stages' = length batch /\
  (forall j s, stages !! j = Some s -> exists s', stages' !! j = Some s' /\
     (Nat.min 2 (stage_rank s + count_occ Nat.eq_dec schedule j) <= stage_rank s')%nat).
Proof.
  revert stages h. induction schedule as [|i schedule IH]; intros stages h Hl; cbn [poll_all].
  { intros [= <- <-]. split; [done|]. intros j s Hj. exists s. split; [done|]. cbn [count_occ]. lia. }
  intros (stages1 & h1 & E1 & E2)%sbind_ok_inv.
  destruct (poll_progress _ _ _ _ _ _ _ Hl E1) as [Hl1 Hp1].
  destruct (IH _ _ Hl1 E2) as [Hl2 Hp2]. split; [done|]. intros j s Hj.
  destruct (Hp1 j s Hj) as (s1 & Hj1 & Hr1). destruct (Hp2 j s1 Hj1) as (s2 & Hj2 & Hr2).
  exists s2. split; [done|]. cbn [count_occ]. case_decide; destruct (Nat.eq_dec i j); lia.
Qed.

(** A batch that has been waited for is done, whatever the schedule. *)
Lemma batch_done envs schedule batch stages' (h h' : Host B) :
  poll_all envs batch (schedule ++ round_of (length batch)) (replicate (length batch) ToCreate) h = (Ok stages', h') ->
  length stages' = length batch /\ Forall stage_done stages'.
Proof.
  intros E. apply poll_all_progress in E as [Hl Hp]; [|by rewrite length_replicate]. split; [done|].
  apply Forall_lookup. intros j s Hj. pose proof (lookup_lt_Some _ _ _ Hj) as Hlt.
  destruct (Hp j ToCreate) as (s' & Hs' & Hr); [apply lookup_replicate; split; [done|congruence]|].
  rewrite Hj in Hs'. injection Hs' as <-. unfold stage_done.
  unfold round_of in Hr. rewrite !count_occ_app in Hr.
  assert (Hc : count_occ Nat.eq_dec (seq 0 (length batch)) j = 1%nat).
  { apply NoDup_count_occ'; [apply seq_NoDup|]. apply in_seq. lia. }
  rewrite Hc in Hr. destruct s; cbn [stage_rank] in *; lia.
Qed.

Lemma record_results_spec batch stages r :
  length stages = length batch -> Forall stage_done stages ->
  let r' := record_results batch stages r in
  total_vms r' = total_vms r /\ skipped_vms r' = skipped_vms r /\
  recovered_vms r' ++ (failed_recoveries r').*1 ≡ₚ recovered_vms r ++ (failed_recoveries r).*1 ++ (vs_name <$> batch).
Proof.
  intros Hl Hd. revert batch r Hl. induction Hd as [|s stages Hs Hd IH]; intros [|vm batch] r; cbn [length];
    intros Hl; simplify_eq; [unfold record_results; cbn; by rewrite app_nil_r|].
  cbn zeta. unfold record_results. cbn [zip_with fold_left].
  change (fold_left _ (zip batch stages) ?r1) with (record_results batch stages r1).
  destruct s as [| | |e]; try done.
  - destruct (IH batch (mkReport (total_vms r) (recovered_vms r ++ [vs_name vm]) (failed_recoveries r) (skipped_vms r)) Hl)
      as (-> & -> & ->). split_and!; [done..|]. csimpl. rewrite <- app_assoc. cbn [app]. apply Permutation_app_head. solve_Permutation.
  - destruct (IH batch (mkReport (total_vms r) (recovered_vms r) (failed_recoveries r ++ [(vs_name vm, e)]) (skipped_vms r)) Hl)
      as (-> & -> & ->). split_and!; [done..|]. csimpl. rewrite fmap_app. cbn. by rewrite <- app_assoc.
Qed.

Lemma recover_batches_report plan batches r r' (h h' : Host B) :
  recover_batches plan batches r h = (Ok r', h') ->
  total_vms r' = total_vms r /\ skipped_vms r' = skipped_vms r /\
  recovered_vms r' ++ (failed_recoveries r').*1 ≡ₚ recovered_vms r ++ (failed_recoveries r).*1 ++ (vs_name <$> concat batches).
Proof.
  revert r h. induction batches as [|batch batches IH]; intros r h; cbn [recover_batches].
  { intros [= <- <-]. split_and!; [done..|]. cbn. by rewrite app_nil_r. }
  intros (r1 & h1 & E1 & E2)%sbind_ok_inv. apply IH in E2 as (-> & -> & ->).
  unfold recover_batch in E1. apply sbind_ok_inv in E1 as (stages & h2 & E3 & [= <- <-]).
  apply batch_done in E3 as [Hl Hd]. destruct (record_results_spec batch stages r Hl Hd) as (-> & -> & Hp).
  split_and!; [done..|]. cbn [concat]. rewrite fmap_app, !(assoc_L _ (recovered_vms _)), Hp. by rewrite <- !app_assoc.
Qed.

(** A machine fails only when starting it does. *)
Definition unfailed (s : recovery_stage) : Prop := forall e, s <> RecoveryFailed e.

Lemma poll_all_unfailed envs batch schedule (stages stages' : list recovery_stage) (h h' : Host B) :
  (forall env n g, is_ok (fst (vb_start_vm (B:=B) env n g)) = true) ->
  Forall unfailed stages -> poll_all envs batch schedule stages h = (Ok stages', h') -> Forall unfailed stages'.
Proof.
  intros Hok. revert stages h. induction schedule as [|i schedule IH]; intros stages h Hf; cbn [poll_all]; [by intros [= <- <-]|].
  intros (s1 & h1 & E1 & E2)%sbind_ok_inv. eapply IH, E2. revert E1. unfold poll.
  destruct (batch !! i) as [vm|]; [|by intros [= <- <-]]. destruct (stages !! i) as [[]|]; try (by intros [= <- <-]).
  - destruct (vb_create_vm _ _ _ h) as [[]]; intros [= <- <-]; by apply Forall_insert.
  - specialize (Hok (envs (length (i :: schedule))) (vs_name vm) h). destruct (vb_start_vm _ _ h) as [[]]; try done.
    intros [= <- <-]; by apply Forall_insert.
Qed.

Lemma record_results_unfailed batch stages r :
  Forall unfailed stages -> failed_recoveries (record_results batch stages r) = failed_recoveries r.
Proof.
  intros Hf. revert batch r. induction Hf as [|s stages Hs Hf IH]; intros [|vm batch] r; try done.
  unfold record_results. cbn [zip_with fold_left]. change (fold_left _ (zip batch stages) ?r1) with (record_results batch stages r1).
  rewrite IH. destruct s; try done. by destruct (Hs e).
Qed.

(** A backend that does not panic is waited for to the end. *)
Section Returns.
Hypothesis create_returns : forall env c n h, fst (vb_create_vm (B:=B) env c n h) <> Panic.
Hypothesis start_returns : forall env n h, fst (vb_start_vm (B:=B) env n h) <> Panic.

Lemma poll_returns env batch i stages (h : Host B) : exists stages' h', poll env batch i stages h = (Ok stages', h').
Proof.
  unfold poll. destruct (batch !! i) as [vm|], (stages !! i) as [[]|]; try (by eexists _, _).
  - pose proof (create_returns env (vs_config vm) (vs_node_id vm) h). destruct (vb_create_vm _ _ _ h) as [[]]; by eauto.
  - pose proof (start_returns env (vs_name vm) h). destruct (vb_start_vm _ _ h) as [[]]; by eauto.
Qed.

Lemma poll_all_returns envs batch schedule stages (h : Host B) :
  exists stages' h', poll_all envs batch schedule stages h = (Ok stages', h').
Proof.
  revert stages h. induction schedule as [|i schedule IH]; intros stages h; cbn [poll_all]; [by eexists _, _|].
  destruct (poll_returns (envs (length (i :: schedule))) batch i stages h) as (s1 & h1 & E1).
  erewrite sbind_ok by exact E1. apply IH.
Qed.

Lemma recover_batches_returns plan batches r (h : Host B) :
  exists r' h', recover_batches plan batches r h = (Ok r', h').
Proof.
  revert r h. induction batches as [|batch batches IH]; intros r h; cbn [recover_batches]; [by eexists _, _|].
  unfold recover_batch. destruct (poll_all_returns (plan (length batches)).1 batch ((plan (length batches)).2 ++ round_of (length batch))
    (replicate (length batch) ToCreate) h) as (s1 & h1 & E1).
  unfold sbind at 1 2. rewrite E1. apply IH.
Qed.
End Returns.

End Generic.

(** * Recovery on a backend that keeps its promises *)

Definition named_alike (vm : VmState) : Prop := vm_name (vs_config vm) = vs_name vm.

Section Promises.
Context {B M : Type} `{BackendLaws B M}.

Lemma create_returns env c n (h : Host B) : fst (vb_create_vm env c n h) <> Panic.
Proof. destruct (vb_create_vm env c n h) as [o h'] eqn:E. by apply create_touches_one in E as [Hp _]. Qed.
Lemma start_returns env n (h : Host B) : fst (vb_start_vm env n h) <> Panic.
Proof. destruct (vb_start_vm env n h) as [o h'] eqn:E. by apply start_runs_one in E as [Hp _]. Qed.

Definition same_machine (n : string) (h h' : Host B) : Prop := machine (backend h') n = machine (backend h) n.
Definition running_on (h : Host B) (n : string) : Prop := runs (machine (backend h) n).

(** A call of a batch keeps the database and the other machines, and a machine it
    brings to the end runs. *)
Lemma poll_effect env batch i (stages stages' : list recovery_stage) (h h' : Host B) :
  Forall named_alike batch -> poll env batch i stages h = (Ok stages', h') ->
  host_db h' = host_db h /\
  (forall n, (forall vm, batch !! i = Some vm -> n <> vs_name vm) -> same_machine n h h') /\
  (forall j, j <> i -> stages' !! j = stages !! j) /\
  (forall vm, batch !! i = Some vm -> stages' !! i = Some Recovered -> running_on h' (vs_name vm) \/ h' = h /\ stages' = stages).
Proof.
  intros Hnm. unfold poll. destruct (batch !! i) as [vm|] eqn:Eb; [|intros [= <- <-]; by split_and!; try done; right].
  assert (Hn : vm_name (vs_config vm) = vs_name vm) by (eapply (Forall_lookup_1 named_alike); eauto).
  destruct (stages !! i) as [[]|] eqn:Es; try (intros [= <- <-]; by split_and!; try done; right);
    pose proof (lookup_lt_Some _ _ _ Es) as Hi.
  - destruct (vb_create_vm env _ _ h) as [o h1] eqn:E. apply create_touches_one in E as (Hp & Hdb & Ho).
    intros E1. assert (E2 : stages' = <[i := ToStart]> stages /\ h' = h1) by (destruct o; by simplify_eq). destruct E2 as [-> ->].
    split_and!; [done| |intros; by rewrite list_lookup_insert_ne|intros ? _; by rewrite list_lookup_insert_eq].
    intros n Hne. apply Ho. rewrite Hn. by apply Hne.
  - destruct (vb_start_vm env _ h) as [o h1] eqn:E. apply start_runs_one in E as (Hp & Hdb & Ho & Hr).
    intros E1. assert (E2 : h' = h1 /\ exists s, stages' = <[i := s]> stages /\ (s = Recovered -> o = Ok tt)).
    { destruct o as [[]| |]; simplify_eq; (split; [done|]); by eexists. }
    destruct E2 as (-> & s & -> & Hs). split_and!; [done| |intros; by rewrite list_lookup_insert_ne|].
    + intros n Hne. apply Ho. by apply Hne.
    + intros vm' [= <-]. rewrite list_lookup_insert_eq by done. intros [= ->]. left. by apply Hr, Hs.
Qed.

(** The machines of a batch that are done are running, and no other machine was
    touched. *)
Definition batch_state (batch : list VmState) (stages : list recovery_stage) (h0 h : Host B) : Prop :=
  host_db h = host_db h0 /\
  (forall i vm, batch !! i = Some vm -> stages !! i = Some Recovered -> running_on h (vs_name vm)) /\
  (forall n, n ∉ vs_name <$> batch -> same_machine n h0 h).

Lemma poll_keeps_state env batch i stages stages' h0 h h' :
  NoDup (vs_name <$> batch) -> Forall named_alike batch -> batch_state batch stages h0 h ->
  poll env batch i stages h = (Ok stages', h') -> batch_state batch stages' h0 h'.
Proof.
  intros Hnd Hnm (Hdb & Hr & Ho) E. destruct (poll_effect _ _ _ _ _ _ _ Hnm E) as (Hdb' & Hsame & Hst & Hrun).
  split; [congruence|]. split.
  - intros j vm Hj HR. destruct (decide (j = i)) as [->|Hne].
    { destruct (Hrun vm Hj HR) as [Hok|[-> ->]]; [done|]. by apply (Hr i). }
    rewrite Hst in HR by done. unfold running_on. rewrite (Hsame (vs_name vm)); [by apply (Hr j)|].
    intros vm' Hi Heq. apply Hne. eapply (NoDup_lookup _ _ _ (vs_name vm) Hnd); rewrite list_lookup_fmap, ?Hj, ?Hi; cbn; congruence.
  - intros n Hn. unfold same_machine. rewrite (Hsame n); [by apply Ho|]. intros vm Hi ->. apply Hn, list_elem_of_fmap_2.
    by eapply list_elem_of_lookup_2.
Qed.

Lemma poll_all_keeps_state envs batch schedule stages stages' h0 h h' :
  NoDup (vs_name <$> batch) -> Forall named_alike batch -> batch_state batch stages h0 h ->
  poll_all envs batch schedule stages h = (Ok stages', h') -> batch_state batch stages' h0 h'.
Proof.
  intros Hnd Hnm. revert stages h. induction schedule as [|i schedule IH]; intros stages h Hb; cbn [poll_all];
    [by intros [= <- <-]|].
  intros (s1 & h1 & E1 & E2)%sbind_ok_inv. eapply IH, E2. by eapply poll_keeps_state.
Qed.

Lemma recorded_as_recovered batch stages r n :
  n ∈ recovered_vms (record_results batch stages r) ->
  n ∈ recovered_vms r \/ exists i vm, batch !! i = Some vm /\ stages !! i = Some Recovered /\ n = vs_name vm.
Proof.
  revert stages r. induction batch as [|vm batch IH]; intros [|s stages] r; try (by left).
  unfold record_results. cbn [zip_with fold_left]. change (fold_left _ (zip batch stages) ?r1) with (record_results batch stages r1).
  intros [Hin|(i & vm' & Hi)]%IH; [|right; by exists (S i), vm'].
  destruct s; try (by left). cbn in Hin. apply elem_of_app in Hin as [Hin|Hin%list_elem_of_singleton]; [by left|].
  right. by exists 0%nat, vm.
Qed.

(** Recovered machines run, and machines that are in no batch are as they were. *)
Lemma recover_batches_state plan batches r r' (h h' : Host B) :
  NoDup (vs_name <$> concat batches) -> Forall named_alike (concat batches) ->
  recover_batches plan batches r h = (Ok r', h') ->
  host_db h' = host_db h /\
  (forall n, n ∈ recovered_vms r' -> n ∈ recovered_vms r \/ running_on h' n) /\
  (forall n, n ∉ vs_name <$> concat batches -> same_machine n h h').
Proof.
  revert r h. induction batches as [|batch batches IH]; intros r h; cbn [recover_batches concat].
  { intros _ _ [= <- <-]. split_and!; try done. by left. }
  rewrite fmap_app. intros [Hnd1 [Hdis Hnd2]]%NoDup_app [Hnm1 Hnm2]%Forall_app (r1 & h1 & E1 & E2)%sbind_ok_inv.
  unfold recover_batch in E1. apply sbind_ok_inv in E1 as (stages & h2 & E3 & [= <- <-]).
  apply (poll_all_keeps_state _ _ _ _ _ h) in E3 as (Hdb & Hr & Ho); [|done..|].
  2: { split; [done|]. split; [|done]. intros i vm _ Hi%lookup_replicate. by destruct Hi. }
  apply IH in E2 as (Hdb2 & Hr2 & Ho2); [|done..]. split_and!; [congruence|intros n Hn|intros n Hn].
  - destruct (Hr2 n Hn) as [Hin|Hup]; [|by right].
    apply recorded_as_recovered in Hin as [Hin|(i & vm & Hi & Hs & ->)]; [by left|]. right.
    unfold running_on. rewrite Ho2; [by apply (Hr i)|]. apply Hdis, list_elem_of_fmap_2. by eapply list_elem_of_lookup_2.
  - rewrite not_elem_of_app in Hn. destruct Hn as [Hn1 Hn2]. unfold same_machine. by rewrite Ho2, Ho.
Qed.

End Promises.

(** A batch on a backend whose starts succeed has no failures. *)
Lemma recover_batches_unfailed {B} `{VmBackend B} plan batches r r' (h h' : Host B) :
  (forall env n g, is_ok (fst (vb_start_vm (B:=B) env n g)) = true) ->
  recover_batches plan batches r h = (Ok r', h') -> failed_recoveries r' = failed_recoveries r.
Proof.
  intros Hok. revert r h. induction batches as [|batch batches IH]; intros r h; cbn [recover_batches]; [by intros [= <- <-]|].
  intros (r1 & h1 & E1 & E2)%sbind_ok_inv. rewrite (IH _ _ E2). unfold recover_batch in E1.
  apply sbind_ok_inv in E1 as (stages & h2 & E3 & [= <- <-]). apply record_results_unfailed.
  eapply poll_all_unfailed; [done| |exact E3]. by apply Forall_replicate.
Qed.

(** ** The mock backend keeps them *)

#[global] Instance mock_view : BackendView MockVmBackend (option (VmStatus * Z)) := {|
  machine b n := simulated_states b !! n;
  runs m := exists t, m = Some (Running, t)
|}.

#[global] Instance mock_laws : BackendLaws MockVmBackend (option (VmStatus * Z)).
Proof.
  constructor.
  - intros env c n h o h' [= <- <-]. split_and!; [done|done|]. intros name Hne. by apply lookup_insert_ne.
  - intros env n h o h' [= <- <-]. split_and!; [done|done|intros other Hne; by apply lookup_insert_ne|].
    intros _. exists (call_now env). apply lookup_insert_eq.
Qed.

(** * Properties *)

(** Rows *)

Lemma loaded_spec db vms v :
  rows_wf db -> load_persisted_vms ReadFine db = Ok vms ->
  v ∈ vms <-> strs db VM_STATE_TABLE !! vs_name v ≫= de = Some v.
Proof.
  intros Hwf [= <-]. rewrite list_elem_of_omap. split.
  - intros ([k b] & Hin & Hde). apply elem_of_hash_iter in Hin. destruct (Hwf k b v Hin Hde) as [-> _]. by rewrite Hin.
  - intros (b & Hb & Hde)%bind_Some. exists (vs_name v, b). split; [by apply elem_of_hash_iter|done].
Qed.

Lemma loaded_names db vms :
  rows_wf db -> load_persisted_vms ReadFine db = Ok vms ->
  NoDup (vs_name <$> vms) /\ Forall named_alike vms.
Proof.
  intros Hwf [= <-].
  assert (Hrows : forall k b, (k, b) ∈ vm_rows db -> strs db VM_STATE_TABLE !! k = Some b) by (intros ?? ?; by apply elem_of_hash_iter).
  assert (Hnd : NoDup (vm_rows db).*1) by (unfold vm_rows; rewrite hash_iter_perm; apply NoDup_fst_map_to_list).
  revert Hrows Hnd. generalize (vm_rows db). intros l Hrows. induction l as [|[k b] l IH]; csimpl; [by repeat constructor|].
  intros [Hk Hnd]%NoDup_cons. destruct IH as [IH1 IH2]; [intros; apply Hrows; by right|done|].
  destruct (de b) as [v|] eqn:Ev; csimpl; [|done].
  destruct (Hwf k b v) as [<- Hname]; [apply Hrows; by left|done|]. split; [|by constructor].
  constructor; [|done]. intros (v' & Hv' & Hin)%list_elem_of_fmap. apply Hk.
  apply list_elem_of_omap in Hin as ([k' b'] & Hin & Hde). destruct (Hwf k' b' v') as [Hn _]; [apply Hrows; by right|done|].
  rewrite Hv', Hn. by apply (list_elem_of_fmap_2 fst _ (k', b')).
Qed.

(** Recovery after a restart, on any backend that does not panic and under any
    interleaving of the calls of a batch, ends with a report that accounts for
    every stored machine exactly once: it was recovered, it could not be started,
    or it was skipped with a reason, and only machines that were not up are
    skipped. *)
Theorem recovery_report_complete {B} `{VmBackend B} f plan config (h : Host B) vms :
  (forall env c n g, fst (vb_create_vm (B:=B) env c n g) <> Panic) ->
  (forall env n g, fst (vb_start_vm (B:=B) env n g) <> Panic) ->
  auto_recovery_enabled config = true -> (0 < max_parallel_recovery config)%nat ->
  load_persisted_vms f (host_db h) = Ok vms ->
  exists r h', recover_vms f plan config h = (Ok r, h') /\ total_vms r = length vms /\
    skipped_vms r = vms_to_skip config vms /\
    recovered_vms r ++ (failed_recoveries r).*1 ++ (skipped_vms r).*1 ≡ₚ vs_name <$> vms.
Proof.
  intros Hc Hs Ha Hm Hl. unfold recover_vms. rewrite Ha. cbn [negb]. unfold sbind, sget, slift. rewrite Hl.
  destruct (Nat.eqb_spec (max_parallel_recovery config) 0) as [|_]; [lia|].
  destruct (recover_batches_returns Hc Hs plan (chunks (length (vms_to_recover config vms)) (max_parallel_recovery config)
    (vms_to_recover config vms)) (mkReport (length vms) [] [] (vms_to_skip config vms)) h) as (r & h' & E).
  exists r, h'. split; [done|]. apply recover_batches_report in E as (-> & Hk & Hp). rewrite Hk. split_and!; [done..|].
  cbn in Hp. rewrite chunks_concat in Hp by (done || lia). cbn [skipped_vms]. rewrite (assoc_L app), Hp. apply split_verdicts.
Qed.


(** Failed machines are skipped whatever [skip_failed_vms] says: the test for
    machines that were not up comes first. *)
Theorem skip_failed_has_no_effect {B} `{VmBackend B} f plan enabled parallel delay skip skip' (h : Host B) :
  recover_vms f plan (mkPersistenceConfig enabled parallel delay skip) h =
  recover_vms f plan (mkPersistenceConfig enabled parallel delay skip') h.
Proof.
  assert (Hv : forall vm, recovery_verdict (mkPersistenceConfig enabled parallel delay skip) vm =
    recovery_verdict (mkPersistenceConfig enabled parallel delay skip') vm).
  { intros vm. unfold recovery_verdict. cbn. destruct (vs_status vm), skip, skip'; done. }
  assert (Hr : forall vms, vms_to_recover (mkPersistenceConfig enabled parallel delay skip) vms =
    vms_to_recover (mkPersistenceConfig enabled parallel delay skip') vms).
  { intros vms. apply list_filter_iff. intros vm. by rewrite Hv. }
  assert (Hs : forall vms, vms_to_skip (mkPersistenceConfig enabled parallel delay skip) vms =
    vms_to_skip (mkPersistenceConfig enabled parallel delay skip') vms).
  { intros vms. induction vms as [|vm vms IH]; [done|]. unfold vms_to_skip in *. cbn [omap list_omap]. by rewrite Hv, IH. }
  unfold recover_vms. cbn [auto_recovery_enabled max_parallel_recovery]. case_match; [done|].
  unfold sbind, sget, slift. case_match; [|done..]. by rewrite Hr, Hs.
Qed.

(** ** The persistence manager *)

Section Agreement.
Context `{!CodecOk VmState}.

Inductive persistence_op : Type :=
| OpPersist (fault : txn_fault) (v : VmState)
| OpRemove (fault : txn_fault) (name : string)
| OpUpdate (f : read_fault) (fault : txn_fault) (now : Z) (name : string) (s : VmStatus).

Definition run_persistence_op (op : persistence_op) : st VmStatePersistence BlixardError unit :=
  match op with
  | OpPersist fault v => persist_vm_state fault v
  | OpRemove fault name => remove_vm_state fault name
  | OpUpdate f fault now name s => persistence_update_vm_status f fault now name s
  end.

Lemma persist_run fault v p :
  exists o p', persist_vm_state fault v p = (o, p') /\
    ((is_ok o = false /\ p' = p) \/
     (exists b, o = Ok tt /\ ser v = Some b /\ p_config p' = p_config p /\ persisted_vms p' = <[vs_name v := v]> (persisted_vms p) /\
       strs (p_database p') VM_STATE_TABLE = <[vs_name v := b]> (strs (p_database p) VM_STATE_TABLE))).
Proof.
  unfold persist_vm_state. destruct p as [db c m]. unfold sbind at 1, on_p_db, run_txn, table_op, insert_str. cbn [p_database].
  destruct fault; cbn [begin_error]; try (by eexists _, _; split; [done|left]);
    unfold sbind, slift, ok_or; destruct (ser v) as [b|]; try (by eexists _, _; split; [done|left]).
  eexists _, _. split; [done|]. right. exists b. split_and!; done.
Qed.

Lemma remove_run fault name p :
  exists o p', remove_vm_state fault name p = (o, p') /\
    ((is_ok o = false /\ p' = p) \/
     (o = Ok tt /\ persisted_vms p' = delete name (persisted_vms p) /\
       strs (p_database p') VM_STATE_TABLE = delete name (strs (p_database p) VM_STATE_TABLE))).
Proof.
  unfold remove_vm_state. destruct p as [db c m]. unfold sbind, on_p_db, run_txn, remove_str, table_op. cbn [p_database].
  destruct fault; cbn; try (by eexists _, _; split; [done|left]).
  eexists _, _. split; [done|]. right. split_and!; done.
Qed.

Lemma persist_agrees fault v p : persistence_agrees p -> persistence_agrees (snd (persist_vm_state fault v p)).
Proof.
  intros Ha. destruct (persist_run fault v p) as (o & p' & -> & [[_ ->]|(b & _ & Hb & _ & Hm & Ht)]); [done|].
  cbn [snd]. intros k w. rewrite Hm, Ht. destruct (decide (k = vs_name v)) as [->|Hne].
  - rewrite !lookup_insert_eq. intros [= <-]. split; [done|]. cbn. by apply de_ser.
  - rewrite !lookup_insert_ne by done. apply Ha.
Qed.

(** Whatever fails in the database, what the persistence manager remembers of
    a session is what the table holds: for every machine it lists, the row
    of that name decodes to the state it has. *)
Theorem persistence_stays_in_agreement ops p :
  persistence_agrees p -> persistence_agrees (fold_left (fun q op => snd (run_persistence_op op q)) ops p).
Proof.
  revert p. induction ops as [|op ops IH]; intros p Ha; [done|]. cbn [fold_left]. apply IH.
  destruct op as [fault v|fault name|f fault now name s]; cbn [run_persistence_op].
  - by apply persist_agrees.
  - destruct (remove_run fault name p) as (o & p' & -> & [[_ ->]|(_ & Hm & Ht)]); [done|]. cbn [snd]. intros k w.
    rewrite Hm, Ht. intros [Hne Hk]%lookup_delete_Some. rewrite lookup_delete_ne by done. by apply Ha.
  - unfold persistence_update_vm_status. destruct f; try done. case_match; [|done]. by apply persist_agrees.
Qed.

(** An update that succeeds changes the status and the time of the row it finds
    and nothing else; without a row it does nothing. *)
Theorem update_status_row fault now name s p v :
  rows_wf (p_database p) -> strs (p_database p) VM_STATE_TABLE !! name ≫= de = Some v ->
  is_ok (fst (persistence_update_vm_status ReadFine fault now name s p)) = true ->
  let p' := snd (persistence_update_vm_status ReadFine fault now name s p) in
  strs (p_database p') VM_STATE_TABLE !! name ≫= de =
    Some (mkVmState name (vs_config v) s (vs_node_id v) (vs_created_at v) now) /\
  (forall k, k <> name -> strs (p_database p') VM_STATE_TABLE !! k = strs (p_database p) VM_STATE_TABLE !! k).
Proof.
  intros Hwf Hv. unfold persistence_update_vm_status. rewrite Hv. apply bind_Some in Hv as (b & Hb & Hde).
  destruct (Hwf _ _ _ Hb Hde) as [-> _].
  destruct (persist_run fault (mkVmState name (vs_config v) s (vs_node_id v) (vs_created_at v) now) p)
    as (o & p' & -> & [[Ho _]|(b' & _ & Hs & _ & _ & Ht)]); cbn [fst snd]; [by rewrite Ho|]. intros _. cbn zeta. rewrite Ht. cbn [vs_name].
  split; [|intros k Hk; by rewrite lookup_insert_ne]. rewrite lookup_insert_eq. cbn. by apply de_ser.
Qed.

End Agreement.

End Specs.

(** * Witnesses *)

#[local] Existing Instance canonical_iter.
#[local] Existing Instance wire_codec.
#[local] Existing Instance wire_codec_ok.

Definition demo_config (name : string) : VmConfig :=
  mkVmConfig name "" 1 512 "default" None None None 500 true default_locality None.
Definition demo_state (name : string) (s : VmStatus) (node : Z) : VmState :=
  mkVmState name (demo_config name) s node 0 0.

Definition demo_rows : gmap string VmState :=
  <["cache" := demo_state "cache" Starting 3]> (<["db" := demo_state "db" Stopped 1]> {["web" := demo_state "web" Running 2]}).

Definition demo_db : Database :=
  set_strs VM_STATE_TABLE (omap (fun v : VmState => ser v) demo_rows) empty_database.

Lemma demo_db_wf : rows_wf demo_db.
Proof.
  intros k b v. unfold demo_db. rewrite strs_set_same, lookup_omap. intros (w & Hw & Hb)%bind_Some Hv.
  rewrite (de_ser w b Hb) in Hv. injection Hv as <-. unfold demo_rows in Hw.
  apply lookup_insert_Some in Hw as [[<- <-]|[_ Hw]]; [done|].
  apply lookup_insert_Some in Hw as [[<- <-]|[_ Hw]]; [done|].
  by apply lookup_singleton_Some in Hw as [<- <-].
Qed.

Definition demo_host : Host MockVmBackend := mkHost mock_new demo_db.
Definition demo_plan (_ : nat) : (nat -> CallEnv) * list nat := (fun k => mkCallEnv (Z.of_nat k) ReadFine, [1%nat; 0%nat; 1%nat]).

Lemma recovery_report_complete_witness :
  exists r h', recover_vms ReadFine demo_plan default_persistence_config demo_host = (Ok r, h') /\ total_vms r = 3%nat /\
    skipped_vms r = [("db", "VM was in Stopped state")] /\
    recovered_vms r ++ (failed_recoveries r).*1 ++ (skipped_vms r).*1 ≡ₚ ["web"; "db"; "cache"].
Proof.
  destruct (recovery_report_complete ReadFine demo_plan default_persistence_config demo_host
    (match load_persisted_vms ReadFine demo_db with Ok l => l | _ => [] end) create_returns start_returns eq_refl
    ltac:(cbn; lia) ltac:(vm_compute; reflexivity)) as (r & h' & E & Ht & Hs & Hp).
  exists r, h'. split; [exact E|]. split; [rewrite Ht; vm_compute; reflexivity|].
  split; [rewrite Hs; vm_compute; reflexivity|]. rewrite Hp. vm_compute. solve_Permutation.
Defined.


Lemma persistence_stays_in_agreement_witness :
  persistence_agrees (fold_left (fun q op => snd (run_persistence_op op q))
    [OpPersist NoFault (demo_state "web" Running 2); OpUpdate ReadFine CommitFails 5 "web" Stopped; OpRemove NoFault "db"]
    (persistence_new demo_db default_persistence_config)).
Proof. apply persistence_stays_in_agreement. intros k v Hk. discriminate Hk. Defined.
