(* ===== verification/NetworkIsolation.v ===== *)
(** The firewall rules that isolate VMs (blixard-core/src/vm_network_isolation.rs)
    and the backend that applies them
    (blixard-core/src/network_isolated_backend.rs).

    The programs nft and iptables and the kernel that filters packets are parameters:
    [FirewallTools] has what the code runs and what becomes of a packet, and
    [FirewallLaws] what the manuals document of it and the theorems rely on: rules are
    appended or inserted, rules are tried in their order and a jump to a chain that
    gives a verdict gives it, nft deletes rules by handle only, deletes no chain that
    has rules and makes no chain jump to itself, iptables deletes the first rule that
    equals a given one.  Whether a text names a network an address lies in is a parameter.
    Every command may also fail without effect or be lost by the executor. *)

From Stdlib Require Import ZArith Lia List Ascii.
From stdpp Require Import base tactics numbers gmap strings pretty option.
From stdpp Require Import list.
From S2P Require Import Prelude Wire Errors VmHealth Types RaftCodec Codecs Database VmBackend.

Open Scope Z_scope.

(** * Rules and packets *)

(** [in_net net a]: address [a] lies in the network, or is the address, [net]. *)
Class NetText : Type := in_net : string -> string -> bool.

Record packet : Type := mkPacket {
  p_src : string;
  p_dst : string;
  p_protocol : string;
  p_port : Z;
  p_established : bool
}.

Inductive verdict : Type := Accept | Drop.

Inductive target : Type := Verdict (v : verdict) | Jump (chain : string).

(** The conditions of a rule: source, destination (or its negation), protocol and
    port, and connection state. *)
Record rule : Type := mkRule {
  r_src : option string;
  r_dst : option (bool * string);
  r_port : option (string * Z);
  r_established : bool;
  r_target : target
}.

#[export] Instance verdict_eq_dec : EqDecision verdict.
Proof. solve_decision. Defined.
#[export] Instance target_eq_dec : EqDecision target.
Proof. solve_decision. Defined.
#[export] Instance rule_eq_dec : EqDecision rule.
Proof. solve_decision. Defined.

Section Packets.
Context `{NetText}.

Definition rule_matches (r : rule) (p : packet) : bool :=
  match r_src r with Some net => in_net net (p_src p) | None => true end &&
  match r_dst r with Some (negated, net) => xorb negated (in_net net (p_dst p)) | None => true end &&
  match r_port r with Some (protocol, port) => String.eqb protocol (p_protocol p) && (port =? p_port p) | None => true end &&
  (negb (r_established r) || p_established p).

(** Rules tried in their order give a packet a verdict: the first that matches
    decides, and a jump decides when the chain does, [depth] jumps deep at most. *)
Inductive gives (t : gmap string (list rule)) (p : packet) (v : verdict) : nat -> list rule -> Prop :=
| gives_next depth r rules : rule_matches r p = false -> gives t p v depth rules -> gives t p v depth (r :: rules)
| gives_verdict depth r rules : rule_matches r p = true -> r_target r = Verdict v -> gives t p v depth (r :: rules)
| gives_jump depth r rules c inner : rule_matches r p = true -> r_target r = Jump c -> t !! c = Some inner ->
    gives t p v depth inner -> gives t p v (S depth) (r :: rules).

End Packets.

(** * The configuration *)

Inductive FirewallBackend : Type := Iptables | Nftables.

Inductive PortDirection : Type := Inbound | Outbound.

Record AllowedPort : Type := mkAllowedPort { ap_protocol : string; ap_port : Z; ap_direction : PortDirection }.

Record NetworkIsolationConfig : Type := mkIsolationConfig {
  fw_backend : FirewallBackend;
  cluster_networks : list string;
  vm_network : string;
  inter_vm_isolation : bool;
  tenant_isolation : bool;
  allow_internet : bool;
  allowed_ports : list AllowedPort
}.

Definition default_isolation_config : NetworkIsolationConfig :=
  mkIsolationConfig Nftables ["127.0.0.0/8"; "169.254.0.0/16"; "172.16.0.0/12"] "10.0.0.0/16" false true true
    [mkAllowedPort "udp" 53 Outbound; mkAllowedPort "tcp" 53 Outbound].

(** * The firewall *)

(** What happens to a command: it runs; it exits with a failure and no effect; or
    the executor reports an error (it cannot be started, or its time is up), after
    it took effect ([Lost true]) or not. *)
Inductive command_fate : Type := Runs | Fails | Lost (took_effect : bool).

Inductive nft_command : Type :=
| NftAddTable
| NftLoad (forward_rules : list rule)
| NftAddChain (chain : string)
| NftAddRule (chain : string) (r : rule)
| NftDeleteRule (chain : string) (r : rule)
| NftDeleteChain (chain : string).

Inductive ipt_command : Type :=
| IptNewChain (chain : string)
| IptAppend (chain : string) (r : rule)
| IptInsert (chain : string) (r : rule)
| IptDelete (chain : string) (r : rule).

Fixpoint remove_first (r : rule) (rules : list rule) : option (list rule) :=
  match rules with
  | [] => None
  | r' :: rules' => if decide (r' = r) then Some rules' else cons r' <$> remove_first r rules'
  end.

(** The rules of the host, the two programs (their success and the rules after
    them), what they list (nft the table inet blixard, when there is one), and what
    becomes of a forwarded packet: at the chain vm_forward of nft, and in the chain
    BLIXARD_VM_FWD ([None]: the rest of FORWARD decides). *)
Class FirewallTools : Type := {
  Firewall : Type;
  nft : nft_command -> Firewall -> bool * Firewall;
  iptables : ipt_command -> Firewall -> bool * Firewall;
  nft_table : Firewall -> option (gmap string (list rule));
  ipt_chains : Firewall -> gmap string (list rule);
  nft_forward : Firewall -> packet -> verdict;
  iptables_forward : Firewall -> packet -> option verdict
}.

(** The table before and after a command of nft that succeeded. *)
Definition nft_effect (c : nft_command) (t t' : option (gmap string (list rule))) : Prop :=
  match c with
  | NftAddTable => t' = Some (default ∅ t)
  | NftLoad rules =>
      let m := default ∅ t in
      let old chain := default [] (m !! chain) in
      t' = Some (<["vm_input" := old "vm_input"]> (<["vm_output" := old "vm_output"]> (<["vm_forward" := old "vm_forward" ++ rules]> m)))
  | NftAddChain chain => exists m, t = Some m /\ t' = Some (<[chain := default [] (m !! chain)]> m)
  | NftAddRule chain r =>
      exists m rules, t = Some m /\ m !! chain = Some rules /\ r_target r <> Jump chain /\ t' = Some (<[chain := rules ++ [r]]> m)
  | NftDeleteRule _ _ => False
  | NftDeleteChain chain => exists m, t = Some m /\ m !! chain = Some [] /\ t' = Some (delete chain m)
  end.

(** The chains before and after a command of iptables that succeeded. *)
Definition ipt_effect (c : ipt_command) (m m' : gmap string (list rule)) : Prop :=
  match c with
  | IptNewChain chain => m !! chain = None /\ m' = <[chain := []]> m
  | IptAppend chain r => exists rules, m !! chain = Some rules /\ m' = <[chain := rules ++ [r]]> m
  | IptInsert chain r => exists rules, m !! chain = Some rules /\ m' = <[chain := r :: rules]> m
  | IptDelete chain r => exists rules, m !! chain ≫= remove_first r = Some rules /\ m' = <[chain := rules]> m
  end.

(** nft nests jumps sixteen deep, the first chain included. *)
Class FirewallLaws {net_text : NetText} {tools : FirewallTools} : Prop := {
  nft_refused c fw fw' : nft c fw = (false, fw') -> nft_table fw' = nft_table fw;
  nft_succeeds c fw fw' : nft c fw = (true, fw') -> nft_effect c (nft_table fw) (nft_table fw');
  nft_apart c fw : ipt_chains (snd (nft c fw)) = ipt_chains fw;
  ipt_refused c fw fw' : iptables c fw = (false, fw') -> ipt_chains fw' = ipt_chains fw;
  ipt_succeeds c fw fw' : iptables c fw = (true, fw') -> ipt_effect c (ipt_chains fw) (ipt_chains fw');
  ipt_apart c fw : nft_table (snd (iptables c fw)) = nft_table fw;
  nft_decides fw p t rules v :
    nft_table fw = Some t -> t !! "vm_forward" = Some rules -> gives t p v 15 rules -> nft_forward fw p = v;
  ipt_drops fw p :
    iptables_forward fw p = Some Drop ->
    exists r, r ∈ default [] (ipt_chains fw !! "BLIXARD_VM_FWD") /\ rule_matches r p = true /\
      (r_target r = Verdict Drop \/ exists c, r_target r = Jump c)
}.

(** * The manager *)

Section Manager.
Context `{FirewallTools}.

(** [fates]: what happens to the commands to come; commands past the list run. *)
Record NetworkIsolationManager : Type := mkIsolation {
  ni_config : NetworkIsolationConfig;
  tenant_networks : gmap string (list string);
  firewall : Firewall;
  fates : list command_fate
}.

Definition isolation (A : Type) : Type := st NetworkIsolationManager BlixardError A.

Definition run_command (not_run failed : string) (exec : Firewall -> bool * Firewall) (ignore_errors : bool) : isolation unit := fun m =>
  let fate := default Runs (head (fates m)) in
  let '(success, fw) := match fate with Runs | Lost true => exec (firewall m) | _ => (false, firewall m) end in
  let m' := mkIsolation (ni_config m) (tenant_networks m) fw (tail (fates m)) in
  match fate with
  | Lost _ => (Err (Internal not_run), m')
  | _ => if negb success && negb ignore_errors then (Err (Internal failed), m') else (Ok tt, m')
  end.

Definition run_nft (c : nft_command) (ignore_errors : bool) : isolation unit :=
  run_command "Failed to run nft" "nft command failed" (nft c) ignore_errors.
Definition run_nft_rules (rules : list rule) : isolation unit :=
  run_command "Failed to run nft with rules" "nft rules failed" (nft (NftLoad rules)) false.
Definition run_iptables (c : ipt_command) (ignore_errors : bool) : isolation unit :=
  run_command "Failed to run iptables" "iptables command failed" (iptables c) ignore_errors.

(** ** Rules the code writes *)

Definition drop_cluster (config : NetworkIsolationConfig) (net : string) : rule :=
  mkRule (Some (vm_network config)) (Some (false, net)) None false (Verdict Drop).
Definition accept_established : rule := mkRule None None None true (Verdict Accept).
Definition from (ip : string) (t : target) : rule := mkRule (Some ip) None None false t.
Definition to_net (net : string) (v : verdict) : rule := mkRule None (Some (false, net)) None false (Verdict v).
Definition outside (net : string) (v : verdict) : rule := mkRule None (Some (true, net)) None false (Verdict v).
Definition to_port (port : AllowedPort) : rule := mkRule None None (Some (ap_protocol port, ap_port port)) false (Verdict Accept).
Definition with_src (ip : string) (r : rule) : rule := mkRule (Some ip) (r_dst r) (r_port r) (r_established r) (r_target r).

(** ** Initialization *)

Definition init_iptables : isolation unit :=
  let* m := sget in
  sfor (fun chain => run_iptables (IptNewChain chain) true) ["BLIXARD_VM_IN"; "BLIXARD_VM_OUT"; "BLIXARD_VM_FWD"] ;*
  run_iptables (IptInsert "FORWARD" (mkRule None None None false (Jump "BLIXARD_VM_FWD"))) false ;*
  run_iptables (IptInsert "INPUT" (mkRule None None None false (Jump "BLIXARD_VM_IN"))) false ;*
  run_iptables (IptInsert "OUTPUT" (mkRule None None None false (Jump "BLIXARD_VM_OUT"))) false ;*
  sfor (fun net => run_iptables (IptAppend "BLIXARD_VM_FWD" (drop_cluster (ni_config m) net)) false) (cluster_networks (ni_config m)) ;*
  run_iptables (IptAppend "BLIXARD_VM_FWD" accept_established) false.

Definition init_nftables : isolation unit :=
  let* m := sget in
  run_nft NftAddTable true ;*
  run_nft_rules (map (drop_cluster (ni_config m)) (cluster_networks (ni_config m)) ++ [accept_established]).

Definition initialize : isolation unit :=
  let* m := sget in
  match fw_backend (ni_config m) with Iptables => init_iptables | Nftables => init_nftables end.

(** ** Rules of a VM *)

Fixpoint replace_dash (s : string) : string :=
  match s with
  | EmptyString => EmptyString
  | String a s' => String (if Ascii.eqb a "-" then "_"%char else a) (replace_dash s')
  end.

Definition vm_chain (name : string) : string := "vm_" +:+ replace_dash name.

Definition is_outbound (port : AllowedPort) : bool := match ap_direction port with Outbound => true | Inbound => false end.

(** The other addresses of the tenant. *)
Definition tenant_peers (tenant ip : string) (m : NetworkIsolationManager) : list string :=
  List.filter (fun a => negb (String.eqb a ip)) (default [] (tenant_networks m !! tenant)).

Definition add_vm_iptables_rules (ip tenant : string) : isolation unit :=
  let* m := sget in
  let config := ni_config m in
  run_iptables (IptAppend "BLIXARD_VM_IN" (from ip (Verdict Drop))) false ;*
  (if inter_vm_isolation config then run_iptables (IptAppend "BLIXARD_VM_FWD" (with_src ip (to_net (vm_network config) Drop))) false else sret tt) ;*
  (if tenant_isolation config then
     sfor (fun peer => run_iptables (IptInsert "BLIXARD_VM_FWD" (with_src ip (to_net peer Accept))) false) (tenant_peers tenant ip m)
   else sret tt) ;*
  sfor (fun port => run_iptables (IptAppend "BLIXARD_VM_FWD" (with_src ip (to_port port))) false) (List.filter is_outbound (allowed_ports config)) ;*
  (if allow_internet config then run_iptables (IptAppend "BLIXARD_VM_FWD" (with_src ip (outside (vm_network config) Accept))) false else sret tt).

Definition add_vm_nftables_rules (name ip tenant : string) : isolation unit :=
  let* m := sget in
  let config := ni_config m in
  let chain := vm_chain name in
  let add r := run_nft (NftAddRule chain r) false in
  run_nft (NftAddChain chain) false ;*
  run_nft (NftAddRule "vm_forward" (from ip (Jump chain))) false ;*
  run_nft (NftAddRule "vm_input" (from ip (Verdict Drop))) false ;*
  (if inter_vm_isolation config then add (to_net (vm_network config) Drop) else sret tt) ;*
  (if tenant_isolation config then
     sfor (fun peer => add (to_net peer Accept)) (tenant_peers tenant ip m) ;*
     add (to_net (vm_network config) Drop)
   else sret tt) ;*
  sfor (fun port => add (to_port port)) (List.filter is_outbound (allowed_ports config)) ;*
  (if allow_internet config then add (outside (vm_network config) Accept) else sret tt).

Definition set_tenant_networks (t : gmap string (list string)) (m : NetworkIsolationManager) : NetworkIsolationManager :=
  mkIsolation (ni_config m) t (firewall m) (fates m).

Definition add_vm_rules (name ip tenant : string) : isolation unit :=
  smodify (fun m => set_tenant_networks (<[tenant := default [] (tenant_networks m !! tenant) ++ [ip]]> (tenant_networks m)) m) ;*
  let* m := sget in
  match fw_backend (ni_config m) with
  | Iptables => add_vm_iptables_rules ip tenant
  | Nftables => add_vm_nftables_rules name ip tenant
  end.

Definition remove_vm_iptables_rules (ip : string) : isolation unit :=
  run_iptables (IptDelete "BLIXARD_VM_IN" (from ip (Verdict Drop))) true.

Definition remove_vm_nftables_rules (name ip : string) : isolation unit :=
  run_nft (NftDeleteRule "vm_forward" (from ip (Jump (vm_chain name)))) true ;*
  run_nft (NftDeleteChain (vm_chain name)) true ;*
  run_nft (NftDeleteRule "vm_input" (from ip (Verdict Drop))) true.

Definition remove_vm_rules (name ip tenant : string) : isolation unit :=
  smodify (fun m => set_tenant_networks
    (alter (List.filter (fun a => negb (String.eqb a ip))) tenant (tenant_networks m)) m) ;*
  let* m := sget in
  match fw_backend (ni_config m) with
  | Iptables => remove_vm_iptables_rules ip
  | Nftables => remove_vm_nftables_rules name ip
  end.

End Manager.

(** * Privileges *)

(** Does [s] contain [sub]? *)
Fixpoint contains (sub s : string) : bool :=
  String.prefix sub s || match s with EmptyString => false | String _ s' => contains sub s' end.

(** [id_u], [capsh]: the trimmed output of the commands ([None]: it could not be
    run; [Some None]: the output is not UTF-8). *)
Definition check_firewall_privileges (id_u capsh : option (option string)) : BlixardResult unit :=
  match id_u with
  | None => Err Security
  | Some None => Err (Internal "Invalid UTF-8 in stdout")
  | Some (Some uid) =>
      if negb (String.eqb uid "0") then
        match capsh with
        | Some (Some caps) => if negb (contains "cap_net_admin" caps) then Err Security else Ok tt
        | Some None => Err (Internal "Invalid UTF-8 in stdout")
        | None => Err Security
        end
      else Ok tt
  end.

(** * The backend *)

Section IsolatedBackend.
Context `{FirewallTools}.

Record NetworkIsolatedBackend (B : Type) : Type := mkIsolated {
  inner : B;
  isolation_manager : NetworkIsolationManager;
  enabled : bool
}.
#[global] Arguments mkIsolated {B} inner isolation_manager enabled.
#[global] Arguments inner {B} n.
#[global] Arguments isolation_manager {B} n.
#[global] Arguments enabled {B} n.

(** A fresh manager over the rules the host has. *)
Definition isolation_manager_new (config : NetworkIsolationConfig) (fw : Firewall) (fs : list command_fate)
    : NetworkIsolationManager := mkIsolation config ∅ fw fs.

Definition isolated_backend_new {B} (b : B) (config : NetworkIsolationConfig) (fw : Firewall) (fs : list command_fate)
    (id_u capsh : option (option string)) : BlixardResult (NetworkIsolatedBackend B) :=
  let enabled := match check_firewall_privileges id_u capsh with Ok _ => true | _ => false end in
  let manager := isolation_manager_new config fw fs in
  if enabled then
    match initialize manager with
    | (Ok _, manager') => Ok (mkIsolated b manager' enabled)
    | (Err e, _) => Err e
    | (Panic, _) => Panic
    end
  else Ok (mkIsolated b manager enabled).

Section Backend.
Context {B : Type} `{VmBackend B}.

(** The value the standard library's hasher gives a name, below [2 ^ 64]. *)
Context (hash : string -> Z).

Definition host (A : Type) : Type := st (Host (NetworkIsolatedBackend B)) BlixardError A.

(** A call of the inner backend. *)
Definition on_inner {A} (c : st (Host B) BlixardError A) : host A := fun h =>
  let '(o, h') := c (mkHost (inner (backend h)) (host_db h)) in
  (o, mkHost (mkIsolated (backend h') (isolation_manager (backend h)) (enabled (backend h))) (host_db h')).

(** The call under the manager's lock whose error is logged. *)
Definition on_isolation (c : isolation unit) : host unit := fun h =>
  let '(o, m) := c (isolation_manager (backend h)) in
  (match o with Panic => Panic | _ => Ok tt end, mkHost (mkIsolated (inner (backend h)) m (enabled (backend h))) (host_db h)).

Definition hashed_ip (name : string) : string :=
  let octet3 := Z.land (Z.shiftr (hash name) 8) 255 in
  let octet4 := Z.land (hash name) 255 mod 254 + 1 in
  "10.0." +:+ pretty octet3 +:+ "." +:+ pretty octet4.

(** The address of a machine: configured, known to the backend, or made up. *)
Definition isolated_ip (env : CallEnv) (config : VmConfig) (name : string) : host string :=
  match ip_address config with
  | Some ip => sret ip
  | None => fun h =>
      match on_inner (vb_get_vm_ip env name) h with
      | (Ok (Some ip), h') => (Ok ip, h')
      | (Panic, h') => (Panic, h')
      | (_, h') => (Ok (hashed_ip name), h')
      end
  end.

Definition isolated_create_vm (env : CallEnv) (config : VmConfig) (node_id : Z) : host unit :=
  on_inner (vb_create_vm env config node_id) ;*
  let* h := sget in
  if enabled (backend h) then
    let* vm_ip := isolated_ip env config (vm_name config) in
    on_isolation (add_vm_rules (vm_name config) vm_ip (tenant_id config))
  else sret tt.

Definition isolated_delete_vm (env : CallEnv) (name : string) : host unit :=
  let* vms := on_inner (vb_list_vms env) in
  let vm_info := List.find (fun '(config, _) => String.eqb (vm_name config) name) vms in
  on_inner (vb_delete_vm env name) ;*
  let* h := sget in
  if enabled (backend h) then
    match vm_info with
    | Some (config, _) =>
        let* vm_ip := isolated_ip env config name in
        on_isolation (remove_vm_rules name vm_ip (tenant_id config))
    | None => sret tt
    end
  else sret tt.

Definition isolated_migrate_vm (env : CallEnv) (name : string) (target_node_id : Z) (live : bool) : host unit :=
  let* h := sget in
  if enabled (backend h) then sfail (NotImplemented "VM migration with network isolation")
  else on_inner (vb_migrate_vm env name target_node_id live).

#[export] Instance isolated_backend : VmBackend (NetworkIsolatedBackend B) := {
  vb_create_vm := isolated_create_vm;
  vb_start_vm env name := on_inner (vb_start_vm env name);
  vb_stop_vm env name := on_inner (vb_stop_vm env name);
  vb_delete_vm := isolated_delete_vm;
  vb_update_vm_status env name status := on_inner (vb_update_vm_status env name status);
  vb_get_vm_status env name := on_inner (vb_get_vm_status env name);
  vb_list_vms env := on_inner (vb_list_vms env);
  vb_get_vm_ip env name := on_inner (vb_get_vm_ip env name);
  vb_migrate_vm := isolated_migrate_vm
}.

End Backend.

End IsolatedBackend.

(** * Runs of the manager *)

Inductive isolation_op : Type :=
| AddVm (name ip tenant : string)
| RemoveVm (name ip tenant : string).

Section Runs.
Context `{FirewallTools}.

(** Operations one after the other, as the backend calls them: errors are logged. *)
Definition isolation_step (m : NetworkIsolationManager) (op : isolation_op) : NetworkIsolationManager :=
  match op with
  | AddVm name ip tenant => snd (add_vm_rules name ip tenant m)
  | RemoveVm name ip tenant => snd (remove_vm_rules name ip tenant m)
  end.
Definition isolation_run (ops : list isolation_op) (m : NetworkIsolationManager) : NetworkIsolationManager :=
  fold_left isolation_step ops m.

End Runs.

(** * Lemmas *)

(** Rules that give a packet the verdict [v] or none, without a jump. *)
Definition only `{NetText} (v : verdict) (p : packet) (r : rule) : Prop :=
  rule_matches r p = true -> r_target r = Verdict v.

(** ** Commands *)

Section Laws.
Context {net_text : NetText} {tools : FirewallTools} {laws : FirewallLaws}.

Lemma run_command_shape a b exec ign m o m' :
  run_command a b exec ign m = (o, m') ->
  ni_config m' = ni_config m /\ tenant_networks m' = tenant_networks m /\
  (firewall m' = firewall m \/ firewall m' = snd (exec (firewall m))).
Proof.
  unfold run_command. destruct (default Runs (head (fates m))) as [| |[]];
    destruct (exec (firewall m)) as [[] fw] eqn:E; simpl; repeat case_match; intros; simplify_eq; simpl; auto.
Qed.

(** A command whose failure counts has succeeded when it returns. *)
Lemma run_command_ok a b exec m u m' :
  run_command a b exec false m = (Ok u, m') -> exec (firewall m) = (true, firewall m').
Proof.
  unfold run_command. destruct (default Runs (head (fates m))) as [| |[]]; try done;
    destruct (exec (firewall m)) as [[] fw] eqn:E; simpl; intros; by simplify_eq.
Qed.

(** Chains that have rules keep them, in their order. *)
Definition table_grows (t t' : gmap string (list rule)) : Prop :=
  forall c rules, t !! c = Some rules -> rules <> [] -> exists ext, t' !! c = Some (rules ++ ext).

#[export] Instance table_grows_preorder : PreOrder table_grows.
Proof.
  split.
  - intros t c rules E _. exists []. by rewrite app_nil_r.
  - intros x y z H1 H2 c rules E Hn. destruct (H1 c rules E Hn) as [e1 E1].
    destruct (H2 c _ E1) as [e2 E2]; [destruct rules; [done|discriminate]|].
    exists (e1 ++ e2). by rewrite app_assoc.
Qed.

Lemma table_grows_insert t c rules ext :
  t !! c = Some rules -> table_grows t (<[c := rules ++ ext]> t).
Proof.
  intros E c' rules' E' Hn. destruct (decide (c = c')) as [->|].
  - simplify_eq. exists ext. apply lookup_insert_eq.
  - exists []. by rewrite lookup_insert_ne, app_nil_r.
Qed.

Lemma table_grows_fresh t c : table_grows t (<[c := default [] (t !! c)]> t).
Proof.
  intros c' rules' E' Hn. exists []. rewrite app_nil_r. destruct (decide (c = c')) as [->|].
  - by rewrite E', lookup_insert_eq.
  - by rewrite lookup_insert_ne.
Qed.

Lemma table_grows_delete t c : t !! c = Some [] -> table_grows t (delete c t).
Proof.
  intros E c' rules' E' Hn. exists []. rewrite app_nil_r, lookup_delete_ne; [done|]. intros ->. by simplify_eq.
Qed.

(** Every command of nft the code runs once there is a table. *)
Lemma nft_exec_grows c fw t :
  (forall rules, c <> NftLoad rules) -> nft_table fw = Some t ->
  exists t', nft_table (snd (nft c fw)) = Some t' /\ table_grows t t'.
Proof.
  intros Hc Et. destruct (nft c fw) as [[] fw'] eqn:E; cbn [snd]; [|apply nft_refused in E; exists t; split; [congruence|done]].
  apply nft_succeeds in E. rewrite Et in E. destruct c as [|rules|c|c r|c r|c]; simpl in E; try done; [| by destruct (Hc rules) | | |].
  - by exists t.
  - destruct E as (m & [= <-] & ->). eexists. split; [done|apply table_grows_fresh].
  - destruct E as (m & rules & [= <-] & Er & _ & ->). eexists. split; [done|by apply table_grows_insert].
  - destruct E as (m & [= <-] & Er & ->). eexists. split; [done|by apply table_grows_delete].
Qed.

(** ** What no operation takes back *)

Definition nft_grows (m m' : NetworkIsolationManager) : Prop :=
  forall t, nft_table (firewall m) = Some t ->
  exists t', nft_table (firewall m') = Some t' /\ table_grows t t'.

#[export] Instance nft_grows_preorder : PreOrder nft_grows.
Proof.
  split.
  - intros m t E. by exists t.
  - intros x y z H1 H2 t E. destruct (H1 t E) as (t1 & E1 & G1). destruct (H2 t1 E1) as (t2 & E2 & G2).
    exists t2. split; [done|]. by etransitivity.
Qed.

Lemma run_nft_grows c ign : (forall rules, c <> NftLoad rules) -> moves nft_grows (run_nft c ign).
Proof.
  intros Hc m o m' (_ & _ & [E|E])%run_command_shape t Et; rewrite E; [by exists t|]. by apply nft_exec_grows.
Qed.

Lemma run_iptables_grows c ign : moves nft_grows (run_iptables c ign).
Proof. intros m o m' (_ & _ & [E|E])%run_command_shape t Et; rewrite E, ?ipt_apart; by exists t. Qed.

#[local] Hint Extern 1 (moves nft_grows (run_nft _ _)) => (apply run_nft_grows; intros ? ?; discriminate) : moves.
#[local] Hint Resolve run_iptables_grows : moves.

(** Every part of a sequence is a command. *)
Ltac moves_commands :=
  repeat first [ progress intros | solve [auto with moves] | apply moves_bind; [typeclasses eauto| |]
               | apply moves_for; [typeclasses eauto|] | apply moves_get; typeclasses eauto
               | apply moves_ret; typeclasses eauto | case_match ].

Lemma set_tenant_grows f : moves nft_grows (smodify (fun m => set_tenant_networks (f m) m) : isolation unit).
Proof. apply moves_modify. intros m t E. by exists t. Qed.
#[local] Hint Resolve set_tenant_grows : moves.

Lemma add_vm_rules_grows name ip tenant : moves nft_grows (add_vm_rules name ip tenant).
Proof. unfold add_vm_rules, add_vm_iptables_rules, add_vm_nftables_rules. moves_commands. Qed.
Lemma remove_vm_rules_grows name ip tenant : moves nft_grows (remove_vm_rules name ip tenant).
Proof. unfold remove_vm_rules, remove_vm_iptables_rules, remove_vm_nftables_rules. moves_commands. Qed.

Lemma isolation_step_grows m op : nft_grows m (isolation_step m op).
Proof.
  destruct op; simpl; [destruct (add_vm_rules _ _ _ _) eqn:E|destruct (remove_vm_rules _ _ _ _) eqn:E];
    [by eapply add_vm_rules_grows|by eapply remove_vm_rules_grows].
Qed.
Lemma isolation_run_grows ops m : nft_grows m (isolation_run ops m).
Proof.
  revert m. induction ops as [|op ops IH]; intros m; [reflexivity|].
  change (nft_grows m (isolation_run ops (isolation_step m op))).
  etransitivity; [apply isolation_step_grows|apply IH].
Qed.

(** Commands change neither the configuration nor the addresses of the tenants. *)
Definition same_book (m m' : NetworkIsolationManager) : Prop :=
  ni_config m' = ni_config m /\ tenant_networks m' = tenant_networks m.
#[export] Instance same_book_preorder : PreOrder same_book.
Proof. split; [done|]. intros x y z [] []. split; congruence. Qed.

Lemma run_command_book a b exec ign : moves same_book (run_command a b exec ign).
Proof. intros m o m' (? & ? & _)%run_command_shape. done. Qed.
#[local] Hint Resolve run_command_book : moves.
#[local] Hint Extern 1 (moves same_book (run_nft _ _)) => apply run_command_book : moves.
#[local] Hint Extern 1 (moves same_book (run_iptables _ _)) => apply run_command_book : moves.

(** The addresses of a tenant after some operations. *)
Definition track (tenant : string) (ips : list string) (op : isolation_op) : list string :=
  match op with
  | AddVm _ ip t => if String.eqb t tenant then ips ++ [ip] else ips
  | RemoveVm _ ip t => if String.eqb t tenant then List.filter (fun a => negb (String.eqb a ip)) ips else ips
  end.
Definition members (tenant : string) (ops : list isolation_op) : list string := fold_left (track tenant) ops [].

(** Tracking first, then commands. *)
Lemma book_after f (c : NetworkIsolationManager -> isolation unit) m :
  (forall x, moves same_book (c x)) ->
  let m' := snd ((smodify (fun m => set_tenant_networks (f m) m) ;* let* x := sget in c x) m) in
  ni_config m' = ni_config m /\ tenant_networks m' = f m.
Proof.
  intros Hc. unfold smodify, sbind, sget. cbn.
  destruct (c _ _) as [o m'] eqn:E. apply Hc in E as [E1 E2].
  replace (snd _) with m' by (by destruct o). by rewrite E1, E2.
Qed.

Lemma step_book m op tenant :
  ni_config (isolation_step m op) = ni_config m /\
  default [] (tenant_networks (isolation_step m op) !! tenant) = track tenant (default [] (tenant_networks m !! tenant)) op.
Proof.
  destruct op as [name ip t|name ip t]; cbn [isolation_step].
  - unfold add_vm_rules. edestruct book_after as [-> ->].
    { intros x. unfold add_vm_iptables_rules, add_vm_nftables_rules. moves_commands. }
    split; [done|]. cbn. destruct (String.eqb_spec t tenant) as [->|]; [by rewrite lookup_insert_eq|by rewrite lookup_insert_ne].
  - unfold remove_vm_rules. edestruct book_after as [-> ->].
    { intros x. unfold remove_vm_iptables_rules, remove_vm_nftables_rules. moves_commands. }
    split; [done|]. cbn. destruct (String.eqb_spec t tenant) as [->|]; [|by rewrite lookup_alter_ne].
    rewrite lookup_alter_eq. by destruct (tenant_networks m !! tenant).
Qed.

Lemma run_book ops m tenant :
  ni_config (isolation_run ops m) = ni_config m /\
  default [] (tenant_networks (isolation_run ops m) !! tenant)
    = fold_left (track tenant) ops (default [] (tenant_networks m !! tenant)).
Proof.
  revert m. induction ops as [|op ops IH]; intros m; [done|].
  change (isolation_run (op :: ops) m) with (isolation_run ops (isolation_step m op)).
  destruct (IH (isolation_step m op)) as [-> ->], (step_book m op tenant) as [-> ->]. done.
Qed.

(** ** The verdict a chain settles *)

Section Settled.
Context (v : verdict) (p : packet).

(** The forward chain reaches a jump to [c] that the packet takes. *)
Definition led_to (c : string) (t : gmap string (list rule)) : Prop :=
  exists F r S, t !! "vm_forward" = Some (F ++ r :: S) /\ Forall (only v p) F /\
    rule_matches r p = true /\ r_target r = Jump c.

(** Nothing in [c] gives another verdict, so far. *)
Definition staged (c : string) (t : gmap string (list rule)) : Prop :=
  led_to c t /\ exists D, t !! c = Some D /\ Forall (only v p) D.

(** [c] gives the verdict. *)
Definition decided (c : string) (t : gmap string (list rule)) : Prop :=
  led_to c t /\ exists D d R, t !! c = Some (D ++ d :: R) /\ Forall (only v p) D /\
    rule_matches d p = true /\ r_target d = Verdict v.

Lemma led_to_grows c t t' : table_grows t t' -> led_to c t -> led_to c t'.
Proof.
  intros G (F & r & S & E & ?). destruct (G _ _ E) as [ext E']; [by destruct F|].
  exists F, r, (S ++ ext). by rewrite E', <- app_assoc.
Qed.

Lemma decided_grows c t t' : table_grows t t' -> decided c t -> decided c t'.
Proof.
  intros G [L (D & d & R & E & ?)]. split; [by eapply led_to_grows|].
  destruct (G _ _ E) as [ext E']; [by destruct D|]. exists D, d, (R ++ ext). by rewrite E', <- app_assoc.
Qed.

Lemma gives_past t depth rules r rest :
  Forall (only v p) rules -> rule_matches r p = true ->
  (r_target r = Verdict v \/ exists c inner, r_target r = Jump c /\ t !! c = Some inner /\ gives t p v depth inner) ->
  gives t p v (S depth) (rules ++ r :: rest).
Proof.
  intros Hall Hm Ht. induction Hall as [|r0 rules H0 _ IH]; cbn [app].
  - destruct Ht as [Hv|(c & inner & Hj & Hi & Hg)]; [by apply gives_verdict|by eapply gives_jump].
  - destruct (rule_matches r0 p) eqn:E; [apply gives_verdict; auto|by apply gives_next].
Qed.

Lemma decided_verdict c fw t : nft_table fw = Some t -> decided c t -> nft_forward fw p = v.
Proof.
  intros Et [(F & r & S & EF & HF & Hr & Hj) (D & d & R & ED & HD & Hd & Hv)].
  apply (nft_decides fw p t _ v Et EF), gives_past; [done|done|]. right. exists c, (D ++ d :: R).
  split_and!; [done|done|]. apply gives_past; auto.
Qed.

(** Appending to the chain. *)
Lemma staged_append c t r D :
  c <> "vm_forward" -> t !! c = Some D -> staged c t -> only v p r -> staged c (<[c := D ++ [r]]> t).
Proof.
  intros Hc E [L (D' & ED & HD)] Hr. simplify_eq. split.
  - eapply led_to_grows; [by apply table_grows_insert|done].
  - exists (D ++ [r]). rewrite lookup_insert_eq. split; [done|]. apply Forall_app. auto.
Qed.
Lemma decided_append c t r D :
  t !! c = Some D -> staged c t -> rule_matches r p = true -> r_target r = Verdict v -> decided c (<[c := D ++ [r]]> t).
Proof.
  intros E [L (D' & ED & HD)] Hr Ht. simplify_eq. split.
  - eapply led_to_grows; [by apply table_grows_insert|done].
  - exists D, r, []. by rewrite lookup_insert_eq.
Qed.

(** Before the rules of the machine: nothing gives another verdict, and its chain
    has no rules. *)
Definition quiet_table (c : string) (t : gmap string (list rule)) : Prop :=
  exists F, t !! "vm_forward" = Some F /\ F <> [] /\ Forall (only v p) F /\ default [] (t !! c) = [].
Definition quiet (c : string) (m : NetworkIsolationManager) : Prop :=
  exists t, nft_table (firewall m) = Some t /\ quiet_table c t.

Definition keeps_quiet (c : string) (m m' : NetworkIsolationManager) : Prop := quiet c m -> quiet c m'.

#[local] Instance keeps_quiet_preorder c : PreOrder (keeps_quiet c).
Proof. split; [by intros m ?|]. intros x y z H1 H2 ?. auto. Qed.

Definition harmless (c : string) (k : nft_command) : Prop :=
  match k with
  | NftAddRule c' r => c' <> c /\ (c' = "vm_forward" -> only v p r)
  | NftLoad _ => False
  | _ => True
  end.

Lemma quiet_append c c' t r rules F :
  c' <> c -> (c' = "vm_forward" -> only v p r) -> t !! c' = Some rules ->
  t !! "vm_forward" = Some F -> F <> [] -> Forall (only v p) F -> default [] (t !! c) = [] ->
  quiet_table c (<[c' := rules ++ [r]]> t).
Proof.
  intros Hne Hr E EF HF Hall Ec. destruct (decide (c' = "vm_forward")) as [->|].
  - rewrite EF in E. injection E as <-. exists (F ++ [r]). rewrite lookup_insert_eq, lookup_insert_ne by done.
    split_and!; [done|by destruct F| |done]. apply Forall_app. auto.
  - exists F. by rewrite !lookup_insert_ne by done.
Qed.

Lemma harmless_exec c k fw t :
  c <> "vm_forward" -> harmless c k -> nft_table fw = Some t -> quiet_table c t ->
  exists t', nft_table (snd (nft k fw)) = Some t' /\ quiet_table c t'.
Proof.
  intros Hc Hk Et Q. destruct (nft k fw) as [[] fw'] eqn:E; cbn [snd]; [|apply nft_refused in E; exists t; split; [congruence|done]].
  apply nft_succeeds in E. rewrite Et in E. destruct Q as (F & EF & HF & Hall & Ec).
  destruct k as [|rules|c'|c' r|c' r|c']; simpl in *; try done.
  - eexists. split; [done|]. by exists F.
  - destruct E as (m & [= <-] & ->). eexists. split; [done|]. exists F. split_and!; try done.
    + destruct (decide (c' = "vm_forward")) as [->|]; [by rewrite EF, lookup_insert_eq|by rewrite lookup_insert_ne].
    + destruct (decide (c' = c)) as [->|]; [by rewrite Ec, lookup_insert_eq|by rewrite lookup_insert_ne].
  - destruct Hk as [Hne Hr], E as (m & rules & [= <-] & Er & _ & ->). eauto using quiet_append.
  - destruct E as (m & [= <-] & Er & ->). eexists. split; [done|].
    exists F. rewrite lookup_delete_ne by (intros ->; congruence). split_and!; try done.
    destruct (decide (c' = c)) as [->|]; [by rewrite lookup_delete_eq|by rewrite lookup_delete_ne].
Qed.

Lemma harmless_keeps c k ign : c <> "vm_forward" -> harmless c k -> moves (keeps_quiet c) (run_nft k ign).
Proof.
  intros Hc Hk m o m' (_ & _ & [E|E])%run_command_shape (t & Et & Q); unfold quiet; rewrite E; [eauto|]. by eapply harmless_exec.
Qed.

Lemma iptables_keeps c k ign : moves (keeps_quiet c) (run_iptables k ign).
Proof. intros m o m' (_ & _ & [E|E])%run_command_shape (t & Et & Q); unfold quiet; rewrite E, ?ipt_apart; eauto. Qed.

(** A chain cannot jump to itself. *)
Lemma jump_to_self c ip m u m' : run_nft (NftAddRule c (from ip (Jump c))) false m <> (Ok u, m').
Proof. by intros (? & ? & _ & _ & Hne & _)%run_command_ok%nft_succeeds. Qed.

(** The operations before, on other chains and addresses. *)
Definition elsewhere (c : string) (op : isolation_op) : Prop :=
  match op with
  | AddVm name ip _ => vm_chain name <> c /\ in_net ip (p_src p) = false
  | RemoveVm _ _ _ => True
  end.

Lemma only_other ip t : in_net ip (p_src p) = false -> only v p (from ip t).
Proof. unfold only, rule_matches. simpl. by intros ->. Qed.

Lemma add_nft_keeps c name ip tenant :
  c <> "vm_forward" -> c <> "vm_input" -> vm_chain name <> c -> in_net ip (p_src p) = false ->
  moves (keeps_quiet c) (add_vm_nftables_rules name ip tenant).
Proof.
  intros Hf Hi Hn Hip. unfold add_vm_nftables_rules. moves_seq; [apply moves_get; typeclasses eauto|]. intros m0.
  assert (forall r c', c' <> c -> c' <> "vm_forward" -> moves (keeps_quiet c) (run_nft (NftAddRule c' r) false)) as Hr.
  { intros r c' ??. by apply harmless_keeps. }
  moves_seq; [by apply harmless_keeps|]. intros _.
  destruct (decide (vm_chain name = "vm_forward")) as [E|E].
  - rewrite E. intros m o m' [(u & m1 & E1 & _)|(_ & o1 & E1 & _)]%sbind_inv; [by apply jump_to_self in E1|].
    eapply harmless_keeps, E1; [done|]. simpl. auto using only_other.
  - moves_seq; [apply harmless_keeps; [done|]; simpl; auto using only_other|]. intros _.
    repeat first [progress intros | apply Hr; done | moves_seq | apply moves_for; [typeclasses eauto|]
                 | apply moves_ret; typeclasses eauto | case_match].
Qed.

Lemma set_tenant_keeps c f : moves (keeps_quiet c) (smodify (fun m => set_tenant_networks (f m) m) : isolation unit).
Proof. apply moves_modify. intros m Q. exact Q. Qed.

Lemma add_keeps c name ip tenant :
  c <> "vm_forward" -> c <> "vm_input" -> vm_chain name <> c -> in_net ip (p_src p) = false ->
  moves (keeps_quiet c) (add_vm_rules name ip tenant).
Proof.
  intros Hf Hi Hn Hip. unfold add_vm_rules. moves_seq; [apply set_tenant_keeps|intros _].
  moves_seq; [apply moves_get; typeclasses eauto|]. intros m1. case_match; [|by apply add_nft_keeps].
  unfold add_vm_iptables_rules.
  repeat first [progress intros | apply iptables_keeps | moves_seq | apply moves_for; [typeclasses eauto|]
               | apply moves_ret; typeclasses eauto | apply moves_get; typeclasses eauto | case_match].
Qed.

Lemma remove_keeps c name ip tenant : c <> "vm_forward" -> moves (keeps_quiet c) (remove_vm_rules name ip tenant).
Proof.
  intros Hf. unfold remove_vm_rules. moves_seq; [apply set_tenant_keeps|intros _].
  moves_seq; [apply moves_get; typeclasses eauto|]. intros m1. case_match; [apply iptables_keeps|].
  unfold remove_vm_nftables_rules. repeat first [apply harmless_keeps; done | moves_seq; [|intros _]].
Qed.

Lemma step_keeps c op m :
  c <> "vm_forward" -> c <> "vm_input" -> elsewhere c op -> quiet c m -> quiet c (isolation_step m op).
Proof.
  intros Hf Hi He. destruct op as [name ip t|name ip t]; simpl in *.
  - destruct (add_vm_rules name ip t m) as [o m'] eqn:E. destruct He. eapply add_keeps, E; done.
  - destruct (remove_vm_rules name ip t m) as [o m'] eqn:E. eapply remove_keeps, E; done.
Qed.

Lemma run_keeps c ops m :
  c <> "vm_forward" -> c <> "vm_input" -> Forall (elsewhere c) ops -> quiet c m -> quiet c (isolation_run ops m).
Proof.
  intros Hf Hi Hops. revert m. induction Hops as [|op ops Hop _ IH]; intros m Q; [done|].
  apply (IH (isolation_step m op)). by apply step_keeps.
Qed.

(** ** Setting up *)

Lemma initialize_quiet c m u m' :
  fw_backend (ni_config m) = Nftables -> nft_table (firewall m) = None ->
  c <> "vm_forward" -> p_established p = false ->
  Forall (fun net => only v p (drop_cluster (ni_config m) net)) (cluster_networks (ni_config m)) ->
  initialize m = (Ok u, m') -> quiet c m' /\ ni_config m' = ni_config m /\ tenant_networks m' = tenant_networks m.
Proof.
  intros Hb Ht Hf Hp Hall. unfold initialize, init_nftables.
  intros (m0 & m1 & [= <- <-] & E)%sbind_ok_inv. rewrite Hb in E.
  apply sbind_ok_inv in E as (m0 & m1 & [= <- <-] & E).
  apply sbind_ok_inv in E as ([] & m1 & (C1 & T1 & F1)%run_command_shape & E).
  pose proof E as (C2 & T2 & _)%run_command_shape. apply run_command_ok in E.
  split; [|by rewrite C2, T2]. apply nft_succeeds in E. simpl in E.
  assert (default ∅ (nft_table (firewall m1)) = ∅) as Ht1.
  { destruct F1 as [->|F1]; [by rewrite Ht|]. destruct (nft NftAddTable (firewall m)) as [[] fw1] eqn:En; cbn [snd] in F1; rewrite F1.
    - apply nft_succeeds in En. simpl in En. by rewrite En, Ht.
    - apply nft_refused in En. by rewrite En, Ht. }
  rewrite Ht1 in E. eexists. split; [exact E|].
  eexists. rewrite !lookup_insert_ne, lookup_insert_eq by done. split_and!; [done| | |].
  - rewrite lookup_empty. simpl. by destruct (map _ _).
  - rewrite lookup_empty. simpl. apply Forall_app. split; [by apply Forall_map|].
    constructor; [|done]. unfold only, rule_matches. simpl. by rewrite Hp.
  - destruct (decide (c = "vm_input")) as [->|]; [by rewrite lookup_insert_eq|rewrite lookup_insert_ne by done].
    destruct (decide (c = "vm_output")) as [->|]; [by rewrite lookup_insert_eq|].
    by rewrite !lookup_insert_ne by done.
Qed.

(** ** Adding a machine *)

Definition in_table (P : gmap string (list rule) -> Prop) (m : NetworkIsolationManager) : Prop :=
  exists t, nft_table (firewall m) = Some t /\ P t.

Lemma add_rule_ok c r m u m' t :
  nft_table (firewall m) = Some t -> run_nft (NftAddRule c r) false m = (Ok u, m') ->
  exists rules, t !! c = Some rules /\ nft_table (firewall m') = Some (<[c := rules ++ [r]]> t).
Proof.
  intros Et (t0 & rules & E0 & E1 & _ & E2)%run_command_ok%nft_succeeds. rewrite Et in E0. injection E0 as <-. by exists rules.
Qed.

Lemma staged_rule c r m u m' :
  c <> "vm_forward" -> only v p r -> in_table (staged c) m -> run_nft (NftAddRule c r) false m = (Ok u, m') ->
  in_table (staged c) m'.
Proof.
  intros Hc Hr (t & Et & S) E. destruct (add_rule_ok _ _ _ _ _ _ Et E) as (rules & E1 & E2).
  eexists. split; [exact E2|]. by apply staged_append.
Qed.

Lemma staged_rules c {A} (f : A -> rule) l m u m' :
  c <> "vm_forward" -> Forall (fun a => only v p (f a)) l -> in_table (staged c) m ->
  sfor (fun a => run_nft (NftAddRule c (f a)) false) l m = (Ok u, m') -> in_table (staged c) m'.
Proof.
  intros Hc Hl. revert m. induction Hl as [|a l Ha _ IH]; simpl; intros m S E.
  - unfold sret in E. by injection E as _ <-.
  - apply sbind_ok_inv in E as ([] & m1 & E1 & E2). eapply IH; [|exact E2]. by eapply staged_rule.
Qed.

Lemma decided_rule c r m u m' :
  rule_matches r p = true -> r_target r = Verdict v -> in_table (staged c) m ->
  run_nft (NftAddRule c r) false m = (Ok u, m') -> in_table (decided c) m'.
Proof.
  intros Hm Hr (t & Et & S) E. destruct (add_rule_ok _ _ _ _ _ _ Et E) as (rules & E1 & E2).
  eexists. split; [exact E2|]. by apply decided_append.
Qed.

Lemma decided_later c m m' : nft_grows m m' -> in_table (decided c) m -> in_table (decided c) m'.
Proof. intros G (t & Et & D). destruct (G t Et) as (t' & Et' & Gt). exists t'. split; [done|]. by eapply decided_grows. Qed.

(** The chain is made and led to, and the host is closed to the machine. *)
Lemma staged_open c ip m u1 m1 u2 m2 u3 m3 :
  c <> "vm_forward" -> c <> "vm_input" -> in_net ip (p_src p) = true -> quiet c m ->
  run_nft (NftAddChain c) false m = (Ok u1, m1) ->
  run_nft (NftAddRule "vm_forward" (from ip (Jump c))) false m1 = (Ok u2, m2) ->
  run_nft (NftAddRule "vm_input" (from ip (Verdict Drop))) false m2 = (Ok u3, m3) ->
  in_table (staged c) m3.
Proof.
  intros Hf Hi Hip (t & Et & F & EF & _ & HF & Ec) E1 E2 E3.
  assert (nft_table (firewall m1) = Some (<[c := []]> t)) as Et1.
  { apply run_command_ok, nft_succeeds in E1 as (t0 & E0 & E1). rewrite Et in E0. injection E0 as <-. by rewrite Ec in E1. }
  destruct (add_rule_ok _ _ _ _ _ _ Et1 E2) as (F' & EF' & Et2). rewrite lookup_insert_ne in EF' by done. simplify_eq.
  destruct (add_rule_ok _ _ _ _ _ _ Et2 E3) as (I & EI & Et3).
  eexists. split; [exact Et3|]. split.
  - eexists F, _, []. rewrite lookup_insert_ne, lookup_insert_eq by done. split_and!; try done.
    unfold rule_matches. simpl. by rewrite Hip.
  - exists []. rewrite !lookup_insert_ne, lookup_insert_eq by done. auto.
Qed.

End Settled.

Lemma sfor_app {S E A} (f : A -> st S E unit) l1 l2 s u s' :
  sfor f (l1 ++ l2) s = (Ok u, s') -> exists s1, sfor f l1 s = (Ok tt, s1) /\ sfor f l2 s1 = (Ok u, s').
Proof.
  revert s. induction l1 as [|a l1 IH]; simpl; intros s Ef; [by exists s|].
  apply sbind_ok_inv in Ef as ([] & s1 & E1 & (s2 & E2 & E3)%IH). exists s2. by rewrite (sbind_ok _ _ _ _ _ E1).
Qed.

Section Isolates.
Context (p : packet).

Lemma only_accepting r : rule_matches r p = false -> only Drop p r.
Proof. unfold only. by intros ->. Qed.

(** A machine that was added: other addresses of the network are closed. *)
Lemma add_drops name ip tenant m u m' :
  let c := vm_chain name in
  c <> "vm_forward" -> c <> "vm_input" -> in_net ip (p_src p) = true -> quiet Drop p c m ->
  tenant_isolation (ni_config m) = true -> in_net (vm_network (ni_config m)) (p_dst p) = true ->
  Forall (fun a => in_net a (p_dst p) = false) (tenant_peers tenant ip m) ->
  add_vm_nftables_rules name ip tenant m = (Ok u, m') -> in_table (decided Drop p c) m'.
Proof.
  intros c Hf Hi Hip Q Hiso Hdst Hpeers E. unfold add_vm_nftables_rules in E.
  apply sbind_ok_inv in E as (m0 & m0' & [= <- <-] & E). fold c in E.
  apply sbind_ok_inv in E as ([] & m1 & E1 & E). apply sbind_ok_inv in E as ([] & m2 & E2 & E).
  apply sbind_ok_inv in E as ([] & m3 & E3 & E). pose proof (staged_open _ _ _ _ _ _ _ _ _ _ _ Hf Hi Hip Q E1 E2 E3) as S3.
  apply sbind_ok_inv in E as ([] & m4 & E4 & E).
  assert (in_table (staged Drop p c) m4) as S4.
  { destruct (inter_vm_isolation _); [|by injection E4 as <-]. by eapply staged_rule; [..|exact E4]. }
  rewrite Hiso in E. apply sbind_ok_inv in E as ([] & m6 & E56 & E).
  apply sbind_ok_inv in E56 as ([] & m5 & E5 & E6).
  assert (in_table (staged Drop p c) m5) as S5.
  { eapply (staged_rules Drop p c (fun a => to_net a Accept)); [done| |exact S4|exact E5].
    eapply Forall_impl; [exact Hpeers|]. intros a Ha. apply only_accepting. unfold rule_matches. simpl. by rewrite Ha. }
  apply (decided_later Drop p c m6).
  - revert E. apply (moves_bind nft_grows); moves_commands.
  - eapply decided_rule; [..|exact S5|exact E6]; [|done]. unfold rule_matches. simpl. by rewrite Hdst.
Qed.

(** ... and the addresses its tenant had are open, unless machines are isolated from each other. *)
Lemma add_accepts name ip tenant m u m' a :
  let c := vm_chain name in
  c <> "vm_forward" -> c <> "vm_input" -> in_net ip (p_src p) = true -> quiet Accept p c m ->
  tenant_isolation (ni_config m) = true -> inter_vm_isolation (ni_config m) = false ->
  a ∈ tenant_peers tenant ip m -> in_net a (p_dst p) = true ->
  add_vm_nftables_rules name ip tenant m = (Ok u, m') -> in_table (decided Accept p c) m'.
Proof.
  intros c Hf Hi Hip Q Hiso Hinter Ha Hdst E. unfold add_vm_nftables_rules in E.
  apply sbind_ok_inv in E as (m0 & m0' & [= <- <-] & E). fold c in E.
  apply sbind_ok_inv in E as ([] & m1 & E1 & E). apply sbind_ok_inv in E as ([] & m2 & E2 & E).
  apply sbind_ok_inv in E as ([] & m3 & E3 & E). pose proof (staged_open _ _ _ _ _ _ _ _ _ _ _ Hf Hi Hip Q E1 E2 E3) as S3.
  rewrite Hinter, Hiso in E. apply sbind_ok_inv in E as ([] & m4 & [= <-] & E).
  apply sbind_ok_inv in E as ([] & m6 & E56 & E). apply sbind_ok_inv in E56 as ([] & m5 & E5 & E6).
  apply (decided_later Accept p c m5).
  { transitivity m6; [revert E6|revert E]; [apply run_nft_grows; discriminate|apply (moves_bind nft_grows); moves_commands]. }
  apply list_elem_of_split in Ha as (l1 & l2 & El). rewrite El in E5.
  apply sfor_app in E5 as (m7 & E7 & E8). cbn [sfor] in E8. apply sbind_ok_inv in E8 as ([] & m8 & E8 & E9).
  apply (decided_later Accept p c m8); [revert E9; apply (moves_for nft_grows); moves_commands|].
  eapply decided_rule; [..|exact E8]; [unfold rule_matches; simpl; by rewrite Hdst|done|].
  eapply (staged_rules Accept p c (fun a => to_net a Accept)); [done| |exact S3|exact E7]. by apply Forall_true.
Qed.

Lemma added_not_forward name ip tenant m u m' :
  add_vm_nftables_rules name ip tenant m = (Ok u, m') -> vm_chain name <> "vm_forward".
Proof.
  intros E Hf. unfold add_vm_nftables_rules in E. rewrite Hf in E.
  apply sbind_ok_inv in E as (? & ? & _ & E). apply sbind_ok_inv in E as ([] & m1 & _ & E).
  apply sbind_ok_inv in E as ([] & m2 & E2 & _). by apply jump_to_self in E2.
Qed.

(** Adding after other operations: the table and the tracked addresses are then as follows. *)
Lemma added_after v config fw fs u m1 before name ip tenant u2 m2 :
  fw_backend config = Nftables -> nft_table fw = None -> p_established p = false ->
  Forall (fun net => only v p (drop_cluster config net)) (cluster_networks config) ->
  vm_chain name <> "vm_input" ->
  initialize (isolation_manager_new config fw fs) = (Ok u, m1) ->
  Forall (elsewhere p (vm_chain name)) before ->
  add_vm_rules name ip tenant (isolation_run before m1) = (Ok u2, m2) ->
  exists m, ni_config m = config /\ quiet v p (vm_chain name) m /\ vm_chain name <> "vm_forward" /\
    tenant_peers tenant ip m = List.filter (fun a => negb (String.eqb a ip)) (members tenant before ++ [ip]) /\
    add_vm_nftables_rules name ip tenant m = (Ok u2, m2).
Proof.
  intros Hb Ht Hp Hall Hi E1 Hbefore E2.
  assert (ni_config m1 = config /\ tenant_networks m1 = ∅) as [C1 T1].
  { by destruct (initialize_quiet v p "x" (isolation_manager_new config fw fs) _ _ Hb Ht ltac:(done) Hp Hall E1) as (_ & -> & ->). }
  destruct (run_book before m1 tenant) as [C2 T2]. rewrite T1, lookup_empty in T2. rewrite C1 in C2.
  unfold add_vm_rules in E2. apply sbind_ok_inv in E2 as ([] & m & [= Em] & E).
  apply sbind_ok_inv in E as (? & ? & [= <- <-] & E).
  assert (ni_config m = config) as Cm by (rewrite <- Em; done). rewrite Cm, Hb in E.
  pose proof (added_not_forward _ _ _ _ _ _ E) as Hf. exists m. split_and!; try done.
  - rewrite <- Em. apply (run_keeps v p (vm_chain name) before m1); [done..|].
    by destruct (initialize_quiet v p (vm_chain name) (isolation_manager_new config fw fs) _ _ Hb Ht Hf Hp Hall E1).
  - unfold tenant_peers. rewrite <- Em. cbn [set_tenant_networks tenant_networks].
    rewrite lookup_insert_eq. cbn [default from_option id]. by rewrite T2.
Qed.

(** C19: tenants are isolated by the rules of nftables.  Once a machine's rules were
    added, after any operations on other chains and addresses, a first packet it sends
    to an address of the machines' network that is not among the addresses its
    tenant had is dropped, whatever machines are added or removed later and
    whatever commands fail.  The configuration has tenant isolation and nftables, and
    the host has no table of that name before the manager sets its own up; setting up
    and adding the rules succeed; the machines of the other operations are named so
    that they use other chains, and have addresses the packet does not come from; the
    machine's own chain is not vm_input.  Proved for nft as its manual documents it. *)
Theorem nft_isolates_tenants config fw fs u m1 before name ip tenant u2 m2 after :
  fw_backend config = Nftables -> tenant_isolation config = true -> nft_table fw = None ->
  initialize (isolation_manager_new config fw fs) = (Ok u, m1) ->
  Forall (elsewhere p (vm_chain name)) before -> vm_chain name <> "vm_input" ->
  add_vm_rules name ip tenant (isolation_run before m1) = (Ok u2, m2) ->
  in_net ip (p_src p) = true -> p_established p = false -> in_net (vm_network config) (p_dst p) = true ->
  (forall a, a ∈ members tenant before -> a <> ip -> in_net a (p_dst p) = false) ->
  nft_forward (firewall (isolation_run after m2)) p = Drop.
Proof.
  intros Hb Hiso Ht E1 Hbefore Hi E2 Hip Hp Hdst Hpeers.
  destruct (added_after Drop config fw fs u m1 before name ip tenant u2 m2) as (m & Cm & Q & Hf & Ep & E); try done.
  { apply Forall_forall. by intros net _ _. }
  apply add_drops in E; rewrite ?Cm, ?Ep; try done.
  - apply (decided_later _ _ _ _ _ (isolation_run_grows after m2)) in E as (t & Et & D). by eapply decided_verdict.
  - apply Forall_forall. intros a [Ha Hne]%list_elem_of_In%filter_In. apply list_elem_of_In, elem_of_app in Ha as [Ha|Ha].
    + apply Hpeers; [done|]. intros ->. by rewrite String.eqb_refl in Hne.
    + apply list_elem_of_singleton in Ha as ->. by rewrite String.eqb_refl in Hne.
Qed.

(** The rules of a machine outlive it.  What the rules of a machine let through
    stays let through: a first packet from its address to an address its tenant
    had is accepted after any later operations, its own removal and the use of the
    address by another tenant's machine included. *)
Theorem nft_rules_outlive_machine config fw fs u m1 before name ip tenant u2 m2 after a :
  fw_backend config = Nftables -> tenant_isolation config = true -> inter_vm_isolation config = false ->
  nft_table fw = None ->
  initialize (isolation_manager_new config fw fs) = (Ok u, m1) ->
  Forall (elsewhere p (vm_chain name)) before -> vm_chain name <> "vm_input" ->
  add_vm_rules name ip tenant (isolation_run before m1) = (Ok u2, m2) ->
  in_net ip (p_src p) = true -> p_established p = false ->
  (forall net, net ∈ cluster_networks config -> in_net net (p_dst p) = false) ->
  a ∈ members tenant before -> a <> ip -> in_net a (p_dst p) = true ->
  nft_forward (firewall (isolation_run after m2)) p = Accept.
Proof.
  intros Hb Hiso Hinter Ht E1 Hbefore Hi E2 Hip Hp Hnets Ha Hne Hdst.
  destruct (added_after Accept config fw fs u m1 before name ip tenant u2 m2) as (m & Cm & Q & Hf & Ep & E); try done.
  { apply Forall_forall. intros net Hnet Hm. unfold rule_matches in Hm. simpl in Hm.
    rewrite Hnets in Hm by done. by rewrite andb_false_r in Hm. }
  apply add_accepts with (a := a) in E; rewrite ?Cm, ?Ep; try done.
  - apply (decided_later _ _ _ _ _ (isolation_run_grows after m2)) in E as (t & Et & D). by eapply decided_verdict.
  - apply list_elem_of_In, filter_In. split; [apply in_or_app; left; by apply list_elem_of_In|].
    by destruct (String.eqb_spec a ip).
Qed.

(** ** The rules of iptables *)

Lemma moves_for_in {S E A} (R : relation S) `{!PreOrder R} (f : A -> st S E unit) l :
  (forall a, a ∈ l -> moves R (f a)) -> moves R (sfor f l).
Proof.
  induction l as [|a l IH]; simpl; intros Hf; [by apply moves_ret|].
  apply moves_bind; [done|apply Hf; left|]. intros _. apply IH. intros b Hb. apply Hf. by right.
Qed.

Section ClusterDrops.
Context (config : NetworkIsolationConfig).

(** A rule without a jump that drops, if it does, packets to a cluster network. *)
Definition cluster_drop (r : rule) : Prop :=
  match r_target r with
  | Verdict Drop => exists net, net ∈ cluster_networks config /\ r = drop_cluster config net
  | Verdict Accept => True
  | Jump _ => False
  end.

Definition drops_cluster_only (m : NetworkIsolationManager) : Prop :=
  ni_config m = config /\ Forall cluster_drop (default [] (ipt_chains (firewall m) !! "BLIXARD_VM_FWD")).

Definition keeps_drops (m m' : NetworkIsolationManager) : Prop := drops_cluster_only m -> drops_cluster_only m'.
#[local] Instance keeps_drops_preorder : PreOrder keeps_drops.
Proof. split; [by intros m ?|]. intros x y z H1 H2 ?. auto. Qed.

Definition permitted (k : ipt_command) : Prop :=
  match k with
  | IptAppend c r | IptInsert c r => c = "BLIXARD_VM_FWD" -> cluster_drop r
  | _ => True
  end.

Lemma remove_first_forall r rules rules' (Q : rule -> Prop) : remove_first r rules = Some rules' -> Forall Q rules -> Forall Q rules'.
Proof.
  revert rules'. induction rules as [|r' rules IH]; simpl; intros rules' E Hall; [done|].
  apply Forall_cons in Hall as [H1 H2]. case_decide; [by injection E as <-|].
  apply fmap_Some in E as (l & El & ->). constructor; [done|]. by apply IH.
Qed.

Lemma permitted_exec k m m' :
  permitted k -> ipt_effect k m m' -> Forall cluster_drop (default [] (m !! "BLIXARD_VM_FWD")) ->
  Forall cluster_drop (default [] (m' !! "BLIXARD_VM_FWD")).
Proof.
  intros Hk E Hall. set (fwd := "BLIXARD_VM_FWD") in *.
  assert (forall c rules, (c = fwd -> Forall cluster_drop rules) -> Forall cluster_drop (default [] (<[c := rules]> m !! fwd))) as Hins.
  { intros c rules Hr. destruct (decide (c = fwd)) as [->|]; [rewrite lookup_insert_eq; by apply Hr|by rewrite lookup_insert_ne]. }
  destruct k as [c|c r|c r|c r]; simpl in *.
  - destruct E as [_ ->]. by apply Hins.
  - destruct E as (rules & E & ->). apply Hins. intros ->. rewrite E in Hall. apply Forall_app. auto.
  - destruct E as (rules & E & ->). apply Hins. intros ->. rewrite E in Hall. auto.
  - destruct E as (rules & (old & Eo & Er)%bind_Some & ->). apply Hins. intros ->. rewrite Eo in Hall. by eapply remove_first_forall.
Qed.

Lemma permitted_keeps k ign : permitted k -> moves keeps_drops (run_iptables k ign).
Proof.
  intros Hk m o m' (C & _ & [E|E])%run_command_shape [Hc Hall]; split; rewrite ?C, ?E; try done.
  destruct (iptables k (firewall m)) as [[] fw] eqn:Ek; cbn [snd].
  - apply ipt_succeeds in Ek. by eapply permitted_exec.
  - apply ipt_refused in Ek. by rewrite Ek.
Qed.

Lemma nft_keeps_drops k ign : moves keeps_drops (run_nft k ign).
Proof. intros m o m' (C & _ & [E|E])%run_command_shape [Hc Hall]; split; rewrite ?C, ?E, ?nft_apart; done. Qed.

Lemma set_tenant_keeps_drops f : moves keeps_drops (smodify (fun m => set_tenant_networks (f m) m) : isolation unit).
Proof. apply moves_modify. intros m D. exact D. Qed.

(** Every part is a command that keeps the invariant. *)
Ltac keeps_drops_all :=
  repeat first [ progress intros | apply nft_keeps_drops | apply set_tenant_keeps_drops
               | apply permitted_keeps; done | moves_seq | apply moves_for; [typeclasses eauto|]
               | apply moves_ret; typeclasses eauto | apply moves_get; typeclasses eauto | case_match ].

Context (Hinter : inter_vm_isolation config = false).

Lemma add_iptables_keeps_drops ip tenant : moves keeps_drops (add_vm_iptables_rules ip tenant).
Proof.
  unfold add_vm_iptables_rules. apply moves_read. intros m o m' E D. pose proof D as [Hc _].
  rewrite Hc, Hinter in E. revert D. change (keeps_drops m m'). revert E.
  apply (moves_bind keeps_drops); keeps_drops_all.
Qed.

Lemma add_keeps_drops name ip tenant : moves keeps_drops (add_vm_rules name ip tenant).
Proof.
  unfold add_vm_rules. moves_seq; [apply set_tenant_keeps_drops|]. intros _.
  moves_seq; [apply moves_get; typeclasses eauto|]. intros m. case_match; [apply add_iptables_keeps_drops|].
  unfold add_vm_nftables_rules. keeps_drops_all.
Qed.

Lemma remove_keeps_drops name ip tenant : moves keeps_drops (remove_vm_rules name ip tenant).
Proof. unfold remove_vm_rules, remove_vm_iptables_rules, remove_vm_nftables_rules. keeps_drops_all. Qed.

Lemma run_keeps_drops ops m : drops_cluster_only m -> drops_cluster_only (isolation_run ops m).
Proof.
  revert m. induction ops as [|op ops IH]; intros m D; [done|]. apply (IH (isolation_step m op)).
  destruct op as [name ip t|name ip t]; cbn [isolation_step].
  - destruct (add_vm_rules name ip t m) as [o m'] eqn:E. by apply (add_keeps_drops _ _ _ _ _ _ E).
  - destruct (remove_vm_rules name ip t m) as [o m'] eqn:E. by apply (remove_keeps_drops _ _ _ _ _ _ E).
Qed.

Lemma init_keeps_drops : moves keeps_drops init_iptables.
Proof.
  unfold init_iptables. apply moves_read. intros m o m' E D. pose proof D as [Hc _]. rewrite Hc in E.
  revert D. change (keeps_drops m m'). revert E.
  apply (moves_bind keeps_drops); [keeps_drops_all|]. intros _.
  do 3 (moves_seq; [keeps_drops_all|intros _]). moves_seq; [|keeps_drops_all].
  apply moves_for_in; [typeclasses eauto|]. intros net Hnet. apply permitted_keeps. intros _. by exists net.
Qed.

Lemma initialize_drops fw fs o m :
  fw_backend config = Iptables -> ipt_chains fw !! "BLIXARD_VM_FWD" = None ->
  initialize (isolation_manager_new config fw fs) = (o, m) -> drops_cluster_only m.
Proof.
  intros Hb Hc E.
  assert (init_iptables (isolation_manager_new config fw fs) = (o, m)) as Ei.
  { unfold initialize, sbind at 1, sget in E. cbn [isolation_manager_new ni_config] in E. by rewrite Hb in E. }
  apply (init_keeps_drops _ _ _ Ei). split; [done|]. simpl. by rewrite Hc.
Qed.

(** With iptables and machines not isolated from each other, no packet outside the cluster
    networks is ever dropped on its way, whatever the tenants of the machines
    and whatever [tenant_isolation] says. *)
Theorem iptables_isolates_no_tenants fw fs o m ops :
  fw_backend config = Iptables -> ipt_chains fw !! "BLIXARD_VM_FWD" = None ->
  initialize (isolation_manager_new config fw fs) = (o, m) ->
  (forall net, net ∈ cluster_networks config -> in_net net (p_dst p) = false) ->
  iptables_forward (firewall (isolation_run ops m)) p <> Some Drop.
Proof.
  intros Hb Hc E Hnets. apply initialize_drops in E; [|done|done].
  apply (run_keeps_drops ops) in E as [_ Hall]. intros (r & Hin & Hm & Ht)%ipt_drops.
  eapply Forall_forall in Hall; [|exact Hin]. unfold cluster_drop in Hall.
  destruct Ht as [Ht|[c Ht]]; rewrite Ht in Hall; [|done]. destruct Hall as (net & Hnet & ->).
  unfold rule_matches in Hm. simpl in Hm. rewrite Hnets in Hm by done. by rewrite andb_false_r in Hm.
Qed.

End ClusterDrops.

End Isolates.

End Laws.

(** * The backend *)

Section Unisolated.
Context `{FirewallTools}.

(** A command that the firewall refuses is an error, and changes no rule. *)
Lemma run_command_refused a b exec m fs :
  fates m = Fails :: fs ->
  run_command a b exec false m = (Err (Internal b), mkIsolation (ni_config m) (tenant_networks m) (firewall m) fs).
Proof. intros E. unfold run_command. by rewrite E. Qed.

Lemma add_vm_rules_refused name ip tenant m fs :
  fates m = Fails :: fs ->
  exists e m', add_vm_rules name ip tenant m = (Err e, m') /\ firewall m' = firewall m.
Proof.
  intros E. unfold add_vm_rules, add_vm_iptables_rules, add_vm_nftables_rules, sbind, smodify, sget.
  cbn -[run_nft run_iptables sfor]. unfold run_nft, run_iptables.
  destruct (fw_backend (ni_config m)); rewrite (run_command_refused _ _ _ _ fs) by done; eauto.
Qed.

(** A machine runs although it could not be isolated.  When the firewall
    refuses the first command for a machine the inner backend made, the machine is created
    all the same, successfully, and no rule was written for it. *)
Theorem create_runs_unisolated {B} `{VmBackend B} (hash : string -> Z) env config node_id ip fs
    (h : Host (NetworkIsolatedBackend B)) (b : Host B) :
  vb_create_vm env config node_id (mkHost (inner (backend h)) (host_db h)) = (Ok tt, b) ->
  enabled (backend h) = true -> ip_address config = Some ip -> fates (isolation_manager (backend h)) = Fails :: fs ->
  exists h', vb_create_vm (VmBackend := isolated_backend hash) env config node_id h = (Ok tt, h') /\
    inner (backend h') = backend b /\ host_db h' = host_db b /\
    firewall (isolation_manager (backend h')) = firewall (isolation_manager (backend h)).
Proof.
  intros E He Hip Hf. destruct (add_vm_rules_refused (vm_name config) ip (tenant_id config) _ _ Hf) as (e & m & Em & Efw).
  eexists. cbn -[add_vm_rules]. unfold isolated_create_vm, on_inner, sbind, sget, isolated_ip, on_isolation. rewrite E. cbn -[add_vm_rules].
  rewrite He, Hip. cbn -[add_vm_rules]. rewrite Em. done.
Qed.

End Unisolated.

(** * Witnesses *)


(** A firewall that keeps two tables as the manuals describe it. *)
Section Manual.
Context `{NetText}.

Record manual_rules : Type := mkManual { m_nft : option (gmap string (list rule)); m_ipt : gmap string (list rule) }.

Fixpoint walk (into : string -> option verdict) (rules : list rule) (p : packet) : option verdict :=
  match rules with
  | [] => None
  | r :: rules' =>
      if rule_matches r p then
        match r_target r with
        | Verdict v => Some v
        | Jump chain => match into chain with Some v => Some v | None => walk into rules' p end
        end
      else walk into rules' p
  end.

Fixpoint chain_verdict (depth : nat) (t : gmap string (list rule)) (p : packet) (chain : string) : option verdict :=
  match depth with
  | O => None
  | S depth' => walk (chain_verdict depth' t p) (default [] (t !! chain)) p
  end.

Definition jumps_to (chain : string) (rules : list rule) : bool :=
  existsb (fun r => bool_decide (r_target r = Jump chain)) rules.

Definition manual_nft (c : nft_command) (t : option (gmap string (list rule))) : option (option (gmap string (list rule))) :=
  match c, t with
  | NftAddTable, _ => Some (Some (default ∅ t))
  | NftLoad rules, _ =>
      let m := default ∅ t in
      let old chain := default [] (m !! chain) in
      Some (Some (<["vm_input" := old "vm_input"]> (<["vm_output" := old "vm_output"]> (<["vm_forward" := old "vm_forward" ++ rules]> m))))
  | NftAddChain chain, Some m => Some (Some (<[chain := default [] (m !! chain)]> m))
  | NftAddRule chain r, Some m =>
      rules ← m !! chain;
      if decide (r_target r = Jump chain) then None
      else if match r_target r with Jump to => bool_decide (is_Some (m !! to)) | Verdict _ => true end
      then Some (Some (<[chain := rules ++ [r]]> m)) else None
  | NftDeleteChain chain, Some m =>
      if bool_decide (m !! chain = Some []) && negb (existsb (fun x => jumps_to chain (snd x)) (map_to_list m))
      then Some (Some (delete chain m)) else None
  | _, _ => None
  end.

Definition manual_iptables (c : ipt_command) (m : gmap string (list rule)) : option (gmap string (list rule)) :=
  match c with
  | IptNewChain chain => match m !! chain with None => Some (<[chain := []]> m) | Some _ => None end
  | IptAppend chain r => rules ← m !! chain; Some (<[chain := rules ++ [r]]> m)
  | IptInsert chain r => rules ← m !! chain; Some (<[chain := r :: rules]> m)
  | IptDelete chain r => rules ← m !! chain ≫= remove_first r; Some (<[chain := rules]> m)
  end.

Definition manual_tools : FirewallTools := {|
  Firewall := manual_rules;
  nft c fw := match manual_nft c (m_nft fw) with Some t => (true, mkManual t (m_ipt fw)) | None => (false, fw) end;
  iptables c fw := match manual_iptables c (m_ipt fw) with Some m => (true, mkManual (m_nft fw) m) | None => (false, fw) end;
  nft_table := m_nft;
  ipt_chains := m_ipt;
  nft_forward fw p := match m_nft fw with Some t => default Accept (chain_verdict 16 t p "vm_forward") | None => Accept end;
  iptables_forward fw p := walk (fun _ => None) (default [] (m_ipt fw !! "BLIXARD_VM_FWD")) p
|}.

Lemma gives_walk t p v depth rules : gives t p v depth rules -> walk (chain_verdict depth t p) rules p = Some v.
Proof.
  induction 1 as [depth r rules Hm _ IH|depth r rules Hm Ht|depth r rules c inner Hm Ht Hc _ IH]; cbn [walk]; rewrite Hm; [done|by rewrite Ht|].
  rewrite Ht. cbn [chain_verdict]. rewrite Hc. cbn [default from_option id]. by rewrite IH.
Qed.

Lemma walk_drops rules p :
  walk (fun _ => None) rules p = Some Drop -> exists r, r ∈ rules /\ rule_matches r p = true /\ r_target r = Verdict Drop.
Proof.
  induction rules as [|r rules IH]; cbn [walk]; [done|]. intros E.
  destruct (rule_matches r p) eqn:Em; [destruct (r_target r) as [v|] eqn:Et|].
  1: { injection E as ->. exists r. split; [left|done]. }
  all: destruct (IH E) as (r' & Hin & ?); exists r'; split; [by right|done].
Qed.

Lemma manual_nft_effect c t t' : manual_nft c t = Some t' -> nft_effect c t t'.
Proof.
  destruct c as [|rules|c|c r|c r|c]; cbn [manual_nft nft_effect]; [by intros [= <-]|by intros [= <-]|..]; destruct t as [m|]; try done.
  - intros [= <-]. by exists m.
  - intros (rules & Er & E)%bind_Some. case_decide; [done|]. case_match; [|done]. injection E as <-. by exists m, rules.
  - intros E. destruct (bool_decide _) eqn:Eb; [|done]. apply bool_decide_eq_true in Eb. cbn in E. case_match; [|done].
    injection E as <-. by exists m.
Qed.

Lemma manual_ipt_effect c m m' : manual_iptables c m = Some m' -> ipt_effect c m m'.
Proof.
  destruct c as [c|c r|c r|c r]; cbn [manual_iptables ipt_effect]; [destruct (m !! c) eqn:E; [done|by intros [= <-]]|..];
    intros (rules & Er & [= <-])%bind_Some; by exists rules.
Qed.

Lemma manual_laws : FirewallLaws (tools := manual_tools).
Proof.
  constructor; cbn.
  - intros c fw fw'. destruct (manual_nft _ _); by intros [= <-].
  - intros c fw fw'. destruct (manual_nft _ _) eqn:E; [|done]. intros [= <-]. by apply manual_nft_effect.
  - intros c fw. by destruct (manual_nft _ _).
  - intros c fw fw'. destruct (manual_iptables _ _); by intros [= <-].
  - intros c fw fw'. destruct (manual_iptables _ _) eqn:E; [|done]. intros [= <-]. by apply manual_ipt_effect.
  - intros c fw. by destruct (manual_iptables _ _).
  - intros fw p t rules v -> Hr Hg%gives_walk. cbn [chain_verdict] in *. by rewrite Hr; cbn [default from_option id]; rewrite Hg.
  - intros fw p (r & Hin & Hm & Ht)%walk_drops. exists r. auto.
Qed.

End Manual.

#[local] Instance demo_net : NetText := fun net a =>
  String.eqb net a || (String.eqb net "10.0.0.0/16" && String.prefix "10.0." a).
#[local] Existing Instance manual_tools.
#[local] Existing Instance manual_laws.
Definition demo_packet (src dst : string) : packet := mkPacket src dst "tcp" 80 false.
Definition demo_host : Firewall := mkManual None (<["FORWARD" := []]> (<["INPUT" := []]> {["OUTPUT" := []]})).

(** The state after running a computation. *)
Definition after {A} (c : isolation A) (m : NetworkIsolationManager) : NetworkIsolationManager := snd (c m).
Definition demo_started : NetworkIsolationManager := after initialize (isolation_manager_new default_isolation_config demo_host []).
Definition demo_before : list isolation_op := [AddVm "a1" "10.0.0.1" "a"; AddVm "b1" "10.0.0.2" "b"].
Definition demo_added : NetworkIsolationManager := after (add_vm_rules "a2" "10.0.0.3" "a") (isolation_run demo_before demo_started).

Lemma runs_to {A} (c : isolation A) m a : fst (c m) = Ok a -> c m = (Ok a, after c m).
Proof. unfold after. destruct (c m). by intros <-. Qed.

Lemma nft_isolates_tenants_witness :
  nft_forward (firewall (isolation_run [RemoveVm "b1" "10.0.0.2" "b"; AddVm "a3" "10.0.0.2" "a"] demo_added))
    (demo_packet "10.0.0.3" "10.0.0.2") = Drop.
Proof.
  apply (nft_isolates_tenants (demo_packet "10.0.0.3" "10.0.0.2") default_isolation_config demo_host []
    tt demo_started demo_before "a2" "10.0.0.3" "a" tt demo_added).
  - reflexivity.
  - reflexivity.
  - reflexivity.
  - apply (runs_to initialize). vm_compute. reflexivity.
  - repeat constructor; vm_compute; congruence.
  - vm_compute; congruence.
  - exact (runs_to (add_vm_rules "a2" "10.0.0.3" "a") (isolation_run demo_before demo_started) tt ltac:(vm_compute; reflexivity)).
  - reflexivity.
  - reflexivity.
  - reflexivity.
  - intros a Ha _. vm_compute in Ha. apply list_elem_of_singleton in Ha as ->. reflexivity.
Defined.

(** The address of the machine of tenant a is given to one of tenant b. *)
Lemma nft_rules_outlive_machine_witness :
  nft_forward (firewall (isolation_run [RemoveVm "a2" "10.0.0.3" "a"; AddVm "b2" "10.0.0.3" "b"] demo_added))
    (demo_packet "10.0.0.3" "10.0.0.1") = Accept.
Proof.
  apply (nft_rules_outlive_machine (demo_packet "10.0.0.3" "10.0.0.1") default_isolation_config demo_host []
    tt demo_started demo_before "a2" "10.0.0.3" "a" tt demo_added _ "10.0.0.1").
  - reflexivity.
  - reflexivity.
  - reflexivity.
  - reflexivity.
  - apply (runs_to initialize). vm_compute. reflexivity.
  - repeat constructor; vm_compute; congruence.
  - vm_compute; congruence.
  - exact (runs_to (add_vm_rules "a2" "10.0.0.3" "a") (isolation_run demo_before demo_started) tt ltac:(vm_compute; reflexivity)).
  - reflexivity.
  - reflexivity.
  - intros net Hnet. vm_compute in Hnet.
    repeat (apply elem_of_cons in Hnet as [->|Hnet]; [reflexivity|]). by apply not_elem_of_nil in Hnet.
  - vm_compute. left.
  - vm_compute; congruence.
  - reflexivity.
Defined.

Definition demo_iptables : NetworkIsolationConfig :=
  mkIsolationConfig Iptables ["172.16.0.0/12"] "10.0.0.0/16" false true true [].

Lemma iptables_isolates_no_tenants_witness :
  iptables_forward
    (firewall (isolation_run demo_before (after initialize (isolation_manager_new demo_iptables demo_host []))))
    (demo_packet "10.0.0.2" "10.0.0.1") <> Some Drop.
Proof.
  apply (iptables_isolates_no_tenants (demo_packet "10.0.0.2" "10.0.0.1") demo_iptables eq_refl demo_host [] (Ok tt)).
  - reflexivity.
  - vm_compute; reflexivity.
  - apply (runs_to initialize). vm_compute. reflexivity.
  - intros net Hnet. vm_compute in Hnet. apply list_elem_of_singleton in Hnet as ->. reflexivity.
Defined.

#[local] Existing Instance canonical_iter.
#[local] Existing Instance wire_codec.

Lemma create_runs_unisolated_witness :
  let h := mkHost (mkIsolated mock_new (mkIsolation default_isolation_config ∅ demo_host [Fails]) true) empty_database in
  let config := mkVmConfig "v" "" 1 1024 "a" (Some "10.0.0.1") None None 500 true default_locality None in
  exists h', vb_create_vm (VmBackend := isolated_backend (fun _ => 0)) (mkCallEnv 0 ReadFine) config 1 h = (Ok tt, h') /\
    inner (backend h') = backend (mkHost (mkMock {["v" := (Creating, 0)]}) empty_database) /\
    host_db h' = host_db (mkHost (mkMock {["v" := (Creating, 0)]}) empty_database) /\
    firewall (isolation_manager (backend h')) = demo_host.
Proof.
  intros h config.
  apply (create_runs_unisolated (fun _ => 0) (mkCallEnv 0 ReadFine) config 1 "10.0.0.1" [] h); [vm_compute; reflexivity|reflexivity..].
Defined.
