(* ===== verification/NodeShared.v ===== *)
(** The state the components of a node share (blixard-core/src/node_shared/mod.rs)
    and the registry of the addresses of nodes (blixard-core/src/node_registry.rs).

    The textual forms of iroh's node ids and relay urls, and of socket addresses,
    are the functions of a class; of these nothing is assumed here.  A channel
    keeps what was sent on it, and whether its receiver is still there.  A task
    that is spawned is recorded, and runs in steps of its own. *)

From Stdlib Require Import ZArith Lia List.
From stdpp Require Import base tactics numbers gmap strings pretty option.
From stdpp Require Import list relations.
From S2P Require Import Prelude Wire Errors Types RaftCodec IpPool Proposals Codecs Database RaftCore VmBackend.

Open Scope Z_scope.

(** * Addresses *)

Record SocketAddr : Type := mkSocketAddr { sa_ip : IpAddr; sa_port : Z }.

(** [iroh::NodeAddr]; a node id is the number its bytes make. *)
Record NodeAddr : Type := mkNodeAddr {
  addr_node_id : Z;
  direct_addresses : list SocketAddr;
  relay_url : option string
}.

Class AddrText : Type := {
  parse_node_id : string -> option Z;
  node_id_text : Z -> string;
  parse_socket : string -> option SocketAddr;
  socket_text : SocketAddr -> string;
  parse_relay : string -> option string
}.

Definition node_addr_new (node_id : Z) : NodeAddr := mkNodeAddr node_id [] None.
Definition with_direct_addresses (l : list SocketAddr) (a : NodeAddr) : NodeAddr :=
  mkNodeAddr (addr_node_id a) l (relay_url a).
Definition with_relay_url (u : string) (a : NodeAddr) : NodeAddr :=
  mkNodeAddr (addr_node_id a) (direct_addresses a) (Some u).

(** What an iroh endpoint answers: its id, its address when it is known, the
    sockets it is bound to and the direct addresses it has found. *)
Record Endpoint : Type := mkEndpoint {
  ep_node_id : Z;
  ep_node_addr : option NodeAddr;
  bound_sockets : list SocketAddr;
  ep_direct_addresses : option (list SocketAddr)
}.

(** * Peers and the registry *)

(** The capabilities, the shared resources and the connection quality of a peer,
    which nothing here reads, are left out. *)
Record PeerInfo : Type := mkPeerInfo {
  peer_node_id : string;
  peer_address : string;
  last_seen : Z;
  p2p_node_id : option string;
  p2p_addresses : list string;
  p2p_relay_url : option string;
  is_connected : bool
}.

Record NodeRegistryEntry : Type := mkEntryOf {
  cluster_node_id : Z;
  iroh_node_id : Z;
  entry_addr : NodeAddr;
  bind_address : option string
}.

(** * Channels *)

Record Channel (A : Type) : Type := mkChannel { sent : list A; receiver : bool }.
Arguments mkChannel {A} sent receiver.
Arguments sent {A} c.
Arguments receiver {A} c.

(** [UnboundedSender::send]: an error when the receiver is gone. *)
Definition chan_send {A} (x : A) (c : Channel A) : option (Channel A) :=
  if receiver c then Some (mkChannel (sent c ++ [x]) true) else None.

(** * The state *)

Record SharedRaftStatus : Type := mkSharedStatus {
  sr_is_leader : bool;
  sr_node_id : Z;
  sr_leader_id : option Z;
  sr_term : Z;
  sr_state : string
}.

(** The task [update_raft_status] spawns: what it has to write, and whether the
    leader has been written. *)
Record StatusTask : Type := mkStatusTask {
  task_leader : option Z;
  task_state : string;
  leader_written : bool
}.

Section Node.
Context {Bd : Type} `{IpNetLib}.

(** [n_vm_manager]: whether a backend has been set. *)
Record SharedNodeState : Type := mkNode {
  n_id : Z;
  n_bind_addr : option SocketAddr;
  n_database : option Database;
  n_initialized : Z;
  n_members : gmap Z PeerInfo;
  n_leader_id : option Z;
  n_is_leader : Z;
  n_term : Z;
  n_state : string;
  n_endpoint : option Endpoint;
  n_node_addr : option NodeAddr;
  n_vm_manager : bool;
  n_proposal_tx : option (Channel RaftProposal);
  n_conf_change_tx : option (Channel RaftConfChange);
  n_message_tx : option (Channel (Z * Message Bd));
  n_registry : gmap Z NodeRegistryEntry;
  n_tasks : list StatusTask
}.

Definition set_database (x : option Database) (n : SharedNodeState) : SharedNodeState :=
  mkNode (n_id n) (n_bind_addr n) x (n_initialized n) (n_members n) (n_leader_id n) (n_is_leader n) (n_term n)
    (n_state n) (n_endpoint n) (n_node_addr n) (n_vm_manager n) (n_proposal_tx n) (n_conf_change_tx n) (n_message_tx n) (n_registry n) (n_tasks n).
Definition set_n_initialized (x : Z) (n : SharedNodeState) : SharedNodeState :=
  mkNode (n_id n) (n_bind_addr n) (n_database n) x (n_members n) (n_leader_id n) (n_is_leader n) (n_term n)
    (n_state n) (n_endpoint n) (n_node_addr n) (n_vm_manager n) (n_proposal_tx n) (n_conf_change_tx n) (n_message_tx n) (n_registry n) (n_tasks n).
Definition set_members (x : gmap Z PeerInfo) (n : SharedNodeState) : SharedNodeState :=
  mkNode (n_id n) (n_bind_addr n) (n_database n) (n_initialized n) x (n_leader_id n) (n_is_leader n) (n_term n)
    (n_state n) (n_endpoint n) (n_node_addr n) (n_vm_manager n) (n_proposal_tx n) (n_conf_change_tx n) (n_message_tx n) (n_registry n) (n_tasks n).
Definition set_leader_id (x : option Z) (n : SharedNodeState) : SharedNodeState :=
  mkNode (n_id n) (n_bind_addr n) (n_database n) (n_initialized n) (n_members n) x (n_is_leader n) (n_term n)
    (n_state n) (n_endpoint n) (n_node_addr n) (n_vm_manager n) (n_proposal_tx n) (n_conf_change_tx n) (n_message_tx n) (n_registry n) (n_tasks n).
Definition set_n_is_leader (x : Z) (n : SharedNodeState) : SharedNodeState :=
  mkNode (n_id n) (n_bind_addr n) (n_database n) (n_initialized n) (n_members n) (n_leader_id n) x (n_term n)
    (n_state n) (n_endpoint n) (n_node_addr n) (n_vm_manager n) (n_proposal_tx n) (n_conf_change_tx n) (n_message_tx n) (n_registry n) (n_tasks n).
Definition set_n_term (x : Z) (n : SharedNodeState) : SharedNodeState :=
  mkNode (n_id n) (n_bind_addr n) (n_database n) (n_initialized n) (n_members n) (n_leader_id n) (n_is_leader n) x
    (n_state n) (n_endpoint n) (n_node_addr n) (n_vm_manager n) (n_proposal_tx n) (n_conf_change_tx n) (n_message_tx n) (n_registry n) (n_tasks n).
Definition set_n_state (x : string) (n : SharedNodeState) : SharedNodeState :=
  mkNode (n_id n) (n_bind_addr n) (n_database n) (n_initialized n) (n_members n) (n_leader_id n) (n_is_leader n) (n_term n)
    x (n_endpoint n) (n_node_addr n) (n_vm_manager n) (n_proposal_tx n) (n_conf_change_tx n) (n_message_tx n) (n_registry n) (n_tasks n).
Definition set_n_endpoint (x : option Endpoint) (n : SharedNodeState) : SharedNodeState :=
  mkNode (n_id n) (n_bind_addr n) (n_database n) (n_initialized n) (n_members n) (n_leader_id n) (n_is_leader n) (n_term n)
    (n_state n) x (n_node_addr n) (n_vm_manager n) (n_proposal_tx n) (n_conf_change_tx n) (n_message_tx n) (n_registry n) (n_tasks n).
Definition set_n_node_addr (x : option NodeAddr) (n : SharedNodeState) : SharedNodeState :=
  mkNode (n_id n) (n_bind_addr n) (n_database n) (n_initialized n) (n_members n) (n_leader_id n) (n_is_leader n) (n_term n)
    (n_state n) (n_endpoint n) x (n_vm_manager n) (n_proposal_tx n) (n_conf_change_tx n) (n_message_tx n) (n_registry n) (n_tasks n).
Definition set_n_vm_manager (x : bool) (n : SharedNodeState) : SharedNodeState :=
  mkNode (n_id n) (n_bind_addr n) (n_database n) (n_initialized n) (n_members n) (n_leader_id n) (n_is_leader n) (n_term n)
    (n_state n) (n_endpoint n) (n_node_addr n) x (n_proposal_tx n) (n_conf_change_tx n) (n_message_tx n) (n_registry n) (n_tasks n).
Definition set_n_proposal_tx (x : option (Channel RaftProposal)) (n : SharedNodeState) : SharedNodeState :=
  mkNode (n_id n) (n_bind_addr n) (n_database n) (n_initialized n) (n_members n) (n_leader_id n) (n_is_leader n) (n_term n)
    (n_state n) (n_endpoint n) (n_node_addr n) (n_vm_manager n) x (n_conf_change_tx n) (n_message_tx n) (n_registry n) (n_tasks n).
Definition set_n_conf_change_tx (x : option (Channel RaftConfChange)) (n : SharedNodeState) : SharedNodeState :=
  mkNode (n_id n) (n_bind_addr n) (n_database n) (n_initialized n) (n_members n) (n_leader_id n) (n_is_leader n) (n_term n)
    (n_state n) (n_endpoint n) (n_node_addr n) (n_vm_manager n) (n_proposal_tx n) x (n_message_tx n) (n_registry n) (n_tasks n).
Definition set_n_message_tx (x : option (Channel (Z * Message Bd))) (n : SharedNodeState) : SharedNodeState :=
  mkNode (n_id n) (n_bind_addr n) (n_database n) (n_initialized n) (n_members n) (n_leader_id n) (n_is_leader n) (n_term n)
    (n_state n) (n_endpoint n) (n_node_addr n) (n_vm_manager n) (n_proposal_tx n) (n_conf_change_tx n) x (n_registry n) (n_tasks n).
Definition set_n_registry (x : gmap Z NodeRegistryEntry) (n : SharedNodeState) : SharedNodeState :=
  mkNode (n_id n) (n_bind_addr n) (n_database n) (n_initialized n) (n_members n) (n_leader_id n) (n_is_leader n) (n_term n)
    (n_state n) (n_endpoint n) (n_node_addr n) (n_vm_manager n) (n_proposal_tx n) (n_conf_change_tx n) (n_message_tx n) x (n_tasks n).
Definition set_n_tasks (x : list StatusTask) (n : SharedNodeState) : SharedNodeState :=
  mkNode (n_id n) (n_bind_addr n) (n_database n) (n_initialized n) (n_members n) (n_leader_id n) (n_is_leader n) (n_term n)
    (n_state n) (n_endpoint n) (n_node_addr n) (n_vm_manager n) (n_proposal_tx n) (n_conf_change_tx n) (n_message_tx n) (n_registry n) x.

Definition node_new (id : Z) (bind_addr : option SocketAddr) : SharedNodeState :=
  mkNode id bind_addr None 0 ∅ None 0 0 "follower" None None false None None None ∅ [].

Definition node (A : Type) : Type := st SharedNodeState BlixardError A.

(** * Flags *)

Definition is_initialized (n : SharedNodeState) : bool := 0 <? n_initialized n.
Definition set_initialized (initialized : bool) : SharedNodeState -> SharedNodeState :=
  set_n_initialized (if initialized then 1 else 0).
Definition is_leader (n : SharedNodeState) : bool := 0 <? n_is_leader n.
Definition set_leader (is_leader : bool) : SharedNodeState -> SharedNodeState :=
  set_n_is_leader (if is_leader then 1 else 0).

(** [7000 + id] in [u64]. *)
Definition get_bind_addr `{Profile} `{AddrText} (n : SharedNodeState) : BlixardResult string :=
  match n_bind_addr n with
  | Some addr => Ok (socket_text addr)
  | None => let? port := arith_u 64 (7000 + n_id n) in Ok ("127.0.0.1:" +:+ pretty port)
  end.

(** * Members *)

Definition add_cluster_member (node_id : Z) (peer : PeerInfo) (n : SharedNodeState) : SharedNodeState :=
  set_members (<[node_id := peer]> (n_members n)) n.
Definition remove_cluster_member (node_id : Z) (n : SharedNodeState) : SharedNodeState :=
  set_members (delete node_id (n_members n)) n.
Definition get_peer (node_id : Z) (n : SharedNodeState) : option PeerInfo := n_members n !! node_id.
Definition get_peers `{HashIter} (n : SharedNodeState) : list PeerInfo := (hash_iter (n_members n)).*2.
Definition cluster_member_count (n : SharedNodeState) : nat := size (n_members n).

(** * The registry *)

Definition register_node (id iroh_id : Z) (addr : NodeAddr) (bind : option string) (n : SharedNodeState) : SharedNodeState :=
  set_n_registry (<[id := mkEntryOf id iroh_id addr bind]> (n_registry n)) n.
Definition get_node_addr (id : Z) (n : SharedNodeState) : BlixardResult NodeAddr :=
  ok_or (NotFound ("Node " +:+ pretty id +:+ " in registry")) (entry_addr <$> n_registry n !! id).
Definition list_nodes `{HashIter} (n : SharedNodeState) : list NodeRegistryEntry := (hash_iter (n_registry n)).*2.

(** * The Raft status *)

Definition get_raft_status (n : SharedNodeState) : SharedRaftStatus :=
  mkSharedStatus (is_leader n) (n_id n) (n_leader_id n) (n_term n) (n_state n).

Definition update_raft_status (s : SharedRaftStatus) (n : SharedNodeState) : SharedNodeState :=
  let n := set_leader (sr_is_leader s) n in
  let n := set_n_term (sr_term s) n in
  set_n_tasks (n_tasks n ++ [mkStatusTask (sr_leader_id s) (sr_state s) false]) n.

(** The next step of the [i]th task that is running: it writes the leader, then
    the state, and ends. *)
Definition task_step (i : nat) (n : SharedNodeState) : SharedNodeState :=
  match n_tasks n !! i with
  | Some t =>
      if leader_written t then set_n_tasks (delete i (n_tasks n)) (set_n_state (task_state t) n)
      else set_n_tasks (<[i := mkStatusTask (task_leader t) (task_state t) true]> (n_tasks n)) (set_leader_id (task_leader t) n)
  | None => n
  end.

(** * The endpoint *)

(** An unspecified address is replaced by the local host. *)
Definition connectable (a : SocketAddr) : SocketAddr :=
  match sa_ip a with
  | V4 0 => mkSocketAddr (V4 (127 * 2 ^ 24 + 1)) (sa_port a)
  | V6 0 => mkSocketAddr (V6 1) (sa_port a)
  | _ => a
  end.

Definition endpoint_addr (ep : Endpoint) : NodeAddr :=
  match ep_node_addr ep with
  | Some node_addr => node_addr
  | None =>
      match bound_sockets ep with
      | [] =>
          match ep_direct_addresses ep with
          | Some addrs => with_direct_addresses addrs (node_addr_new (ep_node_id ep))
          | None => node_addr_new (ep_node_id ep)
          end
      | bound => with_direct_addresses (map connectable bound) (node_addr_new (ep_node_id ep))
      end
  end.

Definition set_iroh_endpoint `{Profile} `{AddrText} (endpoint : option Endpoint) : node unit :=
  smodify (set_n_endpoint endpoint) ;*
  match endpoint with
  | Some ep =>
      let* n := sget in
      let* bind := slift (get_bind_addr n) in
      smodify (register_node (n_id n) (ep_node_id ep) (endpoint_addr ep) (Some bind)) ;*
      smodify (set_n_node_addr (Some (endpoint_addr ep)))
  | None => sret tt
  end.

(** * Proposals *)

Definition send_raft_proposal (p : RaftProposal) : node string := fun n =>
  match n_proposal_tx n with
  | Some tx =>
      match chan_send p tx with
      | Some tx' => (Ok "Proposal submitted", set_n_proposal_tx (Some tx') n)
      | None => (Err (Internal "Failed to send Raft proposal"), n)
      end
  | None => (Err (NotInitialized "RaftManager"), n)
  end.

(** [id] is the id generated for the proposal. *)
Definition register_worker_through_raft (id : bytes) (node_id : Z) (address : string) (capabilities : WorkerCapabilities)
    (topology : NodeTopology) : node unit :=
  send_raft_proposal (mkProposal id (RegisterWorker node_id address capabilities topology) None) ;* sret tt.

Definition update_vm_status_through_raft (_vm_name _status : string) : node unit :=
  sfail (NotImplemented "update_vm_status_through_raft in SharedNodeState").
Definition create_vm_through_raft (_config : VmConfig) : node string :=
  sfail (NotImplemented "create_vm_through_raft in SharedNodeState").
Definition submit_task (_task_id : string) (_task : TaskSpec) : node Z :=
  sfail (NotImplemented "submit_task in SharedNodeState").
Definition get_task_status (_task_id : string) : node (option (string * option TaskResult)) :=
  sfail (NotImplemented "get_task_status in SharedNodeState").

Definition get_worker_capabilities : BlixardResult WorkerCapabilities := Ok (mkCapabilities 8 16384 100 ["microvm"]).

(** * Changes of the membership *)

(** The address of a peer with the texts of it that can be parsed. *)
Definition peer_addr `{AddrText} (iroh_node_id : Z) (addresses : list string) (relay : option string) : NodeAddr :=
  let node_addr := node_addr_new iroh_node_id in
  let addrs := omap parse_socket addresses in
  let node_addr := match addrs with [] => node_addr | _ => with_direct_addresses addrs node_addr end in
  match relay ≫= parse_relay with
  | Some url => with_relay_url url node_addr
  | None => node_addr
  end.

(** What a request says of the address of the node it is about. *)
Definition record_peer `{AddrText} (now : Z) (node_id : Z) (ctx : ConfChangeContext) (n : SharedNodeState) : SharedNodeState :=
  match ctx_p2p_node_id ctx with
  | Some p2p_id =>
      match parse_node_id p2p_id with
      | Some iroh_node_id =>
          let node_addr := peer_addr iroh_node_id (ctx_p2p_addresses ctx) (ctx_p2p_relay_url ctx) in
          add_cluster_member node_id
            (mkPeerInfo p2p_id (ctx_address ctx) now (Some p2p_id) (ctx_p2p_addresses ctx) (ctx_p2p_relay_url ctx) false)
            (register_node node_id iroh_node_id node_addr (Some (ctx_address ctx)) n)
      | None => n
      end
  | None => n
  end.

(** [response] is the number of the oneshot channel the manager is to answer on,
    and [answer] what has arrived on it when [try_recv] looks, which is right
    after the request was sent. *)
Definition propose_conf_change_with_p2p `{AddrText} (now : Z) (response : Z) (answer : option (BlixardResult unit))
    (change_type : ConfChangeType) (node_id : Z) (ctx : ConfChangeContext) : node unit :=
  smodify (record_peer now node_id ctx) ;*
  fun n =>
    match n_conf_change_tx n with
    | None => (Err (NotInitialized "Raft conf change channel"), n)
    | Some tx =>
        match chan_send (mkConfChangeRequest change_type node_id ctx (Some response)) tx with
        | None => (Err (Internal "Failed to send configuration change to Raft"), n)
        | Some tx' =>
            (match answer with
             | Some (Err e) => Err e
             | _ => Ok tt
             end, set_n_conf_change_tx (Some tx') n)
        end
    end.

Definition propose_conf_change (_change_type : ConfChangeType) (_node_id : Z) (_context : string) : node unit :=
  sfail (NotImplemented "propose_conf_change in SharedNodeState").

Definition get_current_voters `{HashIter} (n : SharedNodeState) : list Z :=
  fold_left (fun voters e =>
    if negb (cluster_node_id e =? 1) && negb (existsb (Z.eqb (cluster_node_id e)) voters) then voters ++ [cluster_node_id e]
    else voters) (list_nodes n) [1].

(** * Machines *)

Section Machines.
Context {B : Type} `{VmBackend B}.

Definition no_manager {A} : st (Host B) BlixardError A := sfail (NotImplemented "VM manager not initialized").

Definition shared_create_vm (n : SharedNodeState) (env : CallEnv) (config : VmConfig) : st (Host B) BlixardError string :=
  if n_vm_manager n then vb_create_vm env config (n_id n) ;* sret (vm_name config) else no_manager.
Definition shared_start_vm (n : SharedNodeState) (env : CallEnv) (name : string) : st (Host B) BlixardError unit :=
  if n_vm_manager n then vb_start_vm env name else no_manager.
Definition shared_stop_vm (n : SharedNodeState) (env : CallEnv) (name : string) : st (Host B) BlixardError unit :=
  if n_vm_manager n then vb_stop_vm env name else no_manager.
Definition shared_delete_vm (n : SharedNodeState) (env : CallEnv) (name : string) : st (Host B) BlixardError unit :=
  if n_vm_manager n then vb_delete_vm env name else no_manager.

(** The state made up of a configuration and a status: this node's id, and the
    present time twice. *)
Definition listed_state (n : SharedNodeState) (now : Z) (p : VmConfig * VmStatus) : VmState :=
  mkVmState (vm_name p.1) p.1 p.2 (n_id n) now now.

Definition shared_list_vms (n : SharedNodeState) (env : CallEnv) : st (Host B) BlixardError (list VmState) :=
  if n_vm_manager n then
    let* vms := vb_list_vms env in sret (map (listed_state n (call_now env)) vms)
  else no_manager.

Definition shared_get_vm_info (n : SharedNodeState) (env : CallEnv) (name : string) : st (Host B) BlixardError VmState :=
  if n_vm_manager n then
    let* vms := vb_list_vms env in
    match find (fun p => String.eqb (vm_name p.1) name) vms with
    | Some p => sret (listed_state n (call_now env) p)
    | None => sfail (NotFound ("VM: " +:+ name))
    end
  else no_manager.

Definition shared_get_vm_status (n : SharedNodeState) (env : CallEnv) (name : string) : st (Host B) BlixardError string :=
  if n_vm_manager n then
    let* status := vb_get_vm_status env name in
    match status with
    | Some s => sret (vm_status_debug s)
    | None => sfail (NotFound ("VM: " +:+ name))
    end
  else no_manager.

Definition shared_get_vm_ip (n : SharedNodeState) (env : CallEnv) (name : string) : st (Host B) BlixardError string :=
  if n_vm_manager n then
    let* ip := vb_get_vm_ip env name in
    slift (ok_or (NotFound ("VM IP: " +:+ name)) ip)
  else no_manager.

Definition shared_migrate_vm (_vm_name : string) (_target_node : Z) : BlixardResult unit :=
  Err (NotImplemented "migrate_vm in SharedNodeState").

End Machines.

End Node.
Arguments SharedNodeState Bd {_}.

(** * Specifications *)

Section Specs.
Context {Bd : Type} `{IpNetLib}.

(** What happens to the status: the manager reports one, or a task takes a step. *)
Inductive status_event : Type := Report (s : SharedRaftStatus) | TaskStep (i : nat).

Definition status_step (e : status_event) : SharedNodeState Bd -> SharedNodeState Bd :=
  match e with Report s => update_raft_status s | TaskStep i => task_step i end.

Definition run_status (events : list status_event) (n : SharedNodeState Bd) : SharedNodeState Bd :=
  fold_left (fun n e => status_step e n) events n.

(** The status a node shows when its tasks are done in the order they were
    spawned. *)
Definition settle (n : SharedNodeState Bd) : SharedNodeState Bd :=
  run_status (replicate (2 * length (n_tasks n)) (TaskStep 0)) n.

(** Every operation on the membership and the registry. *)
Inductive member_op : Type :=
| OpAddPeer (id : Z) (p : PeerInfo)
| OpRemovePeer (id : Z)
| OpConfChange (now response : Z) (answer : option (BlixardResult unit)) (t : ConfChangeType) (id : Z) (ctx : ConfChangeContext)
| OpSetEndpoint (ep : option Endpoint).

Definition run_member_op `{Profile} `{AddrText} (op : member_op) (n : SharedNodeState Bd) : SharedNodeState Bd :=
  match op with
  | OpAddPeer id p => add_cluster_member id p n
  | OpRemovePeer id => remove_cluster_member id n
  | OpConfChange now response answer t id ctx => snd (propose_conf_change_with_p2p now response answer t id ctx n)
  | OpSetEndpoint ep => snd (set_iroh_endpoint ep n)
  end.

(** The registry files an entry under the id it is about. *)
Definition registry_wf (n : SharedNodeState Bd) : Prop :=
  forall id e, n_registry n !! id = Some e -> cluster_node_id e = id.

(** * Lemmas *)

Lemma voters_fold (es : list NodeRegistryEntry) acc :
  NoDup acc -> 1 ∈ acc ->
  let r := fold_left (fun voters e =>
    if negb (cluster_node_id e =? 1) && negb (existsb (Z.eqb (cluster_node_id e)) voters) then voters ++ [cluster_node_id e]
    else voters) es acc in
  NoDup r /\ forall id, id ∈ r <-> id ∈ acc \/ id ∈ cluster_node_id <$> es.
Proof.
  revert acc. induction es as [|e es IH]; intros acc Hnd H1; cbn [fold_left]; [set_solver|].
  set (acc' := if _ : bool then _ else _).
  assert (Hacc : NoDup acc' /\ forall id, id ∈ acc' <-> id ∈ acc \/ id = cluster_node_id e).
  { unfold acc'. destruct (Z.eqb_spec (cluster_node_id e) 1) as [->|_]; cbn; [set_solver|].
    destruct (existsb (Z.eqb (cluster_node_id e)) acc) eqn:Ex; cbn.
    - apply existsb_exists in Ex as (x & Hx%list_elem_of_In & ->%Z.eqb_eq). set_solver.
    - assert (Hn : cluster_node_id e ∉ acc).
      { intros Hin%list_elem_of_In. rewrite <- not_true_iff_false in Ex. apply Ex. apply existsb_exists. eexists. split; [done|]. apply Z.eqb_refl. }
      split; [|set_solver]. apply NoDup_app. split; [done|]. split; [set_solver|apply NoDup_singleton]. }
  destruct Hacc as [Hnd' Hin']. destruct (IH acc' Hnd') as [Hnd2 Hin2]; [by apply Hin'; left|]. split; [done|]. intros id. rewrite Hin2, Hin'. csimpl. set_solver.
Qed.

(** The voters of a node are node 1 and the registered nodes. *)
Lemma voters_spec `{HashIter} (n : SharedNodeState Bd) :
  registry_wf n -> NoDup (get_current_voters n) /\
  forall id, id ∈ get_current_voters n <-> id = 1 \/ is_Some (n_registry n !! id).
Proof.
  intros Hwf. unfold get_current_voters. destruct (voters_fold (list_nodes n) [1]) as [Hnd Hin]; [apply NoDup_singleton|by left|].
  split; [done|]. intros id. rewrite Hin. unfold list_nodes.
  assert (Hr : id ∈ cluster_node_id <$> (hash_iter (n_registry n)).*2 <-> is_Some (n_registry n !! id)); [|set_solver].
  rewrite <- list_fmap_compose, list_elem_of_fmap. split.
  - intros ([k e] & -> & Hke%elem_of_hash_iter). cbn. rewrite (Hwf k e Hke). by eexists.
  - intros [e He]. exists (id, e). split; [cbn; symmetry; by apply Hwf|by apply elem_of_hash_iter].
Qed.

(** The steps the running tasks still have to take. *)
Definition pending_steps (ts : list StatusTask) : nat :=
  sum_list_with (fun t => if leader_written t then 1%nat else 2%nat) ts.

(** The leader and the state that are shown once the tasks have ended in order:
    those of the last task.  A task that has written its leader is behind its
    successors only. *)
Definition last_leader (n : SharedNodeState Bd) : option Z :=
  match last (n_tasks n) with
  | Some t => if leader_written t then n_leader_id n else task_leader t
  | None => n_leader_id n
  end.
Definition last_state (n : SharedNodeState Bd) : string :=
  match last (n_tasks n) with Some t => task_state t | None => n_state n end.

(** Only the task at the front can have written its leader. *)
Definition front_only (n : SharedNodeState Bd) : Prop := Forall (fun t => leader_written t = false) (tail (n_tasks n)).

Definition shown (n : SharedNodeState Bd) : SharedRaftStatus :=
  mkSharedStatus (is_leader n) (n_id n) (last_leader n) (n_term n) (last_state n).

Lemma last_unwritten t ts :
  Forall (fun t => leader_written t = false) (t :: ts) ->
  exists t', last (t :: ts) = Some t' /\ leader_written t' = false.
Proof.
  intros Hf. destruct (last (t :: ts)) as [t'|] eqn:El; [|by apply last_None in El]. exists t'. split; [done|].
  rewrite Forall_forall in Hf. apply Hf. apply last_Some in El as [l' ->]. set_solver.
Qed.

Lemma front_step_shown (n : SharedNodeState Bd) :
  front_only n -> front_only (task_step 0 n) /\ shown (task_step 0 n) = shown n /\
  pending_steps (n_tasks (task_step 0 n)) = pred (pending_steps (n_tasks n)).
Proof.
  destruct n as [id ba db ini mem ld il term state ep na vm p c m reg ts]. unfold front_only, shown, last_leader, last_state, task_step.
  cbn [n_tasks]. destruct ts as [|[tl tstate w] ts]; [done|]. cbn [tail]. intros Hf.
  destruct w; cbn -[last]; (split; [|split; [|done]]); try done.
  - by destruct Hf.
  - destruct ts as [|t ts]; [done|]. destruct (last_unwritten t ts Hf) as (t' & El & Ht').
    rewrite last_cons_cons, El, Ht'. done.
  - destruct ts as [|t ts]; [done|]. destruct (last_unwritten t ts Hf) as (t' & El & Ht').
    rewrite !last_cons_cons, El, Ht'. done.
Qed.

Definition in_order (e : status_event) : Prop := match e with Report _ => True | TaskStep i => i = 0%nat end.

Lemma report_shown s (n : SharedNodeState Bd) :
  front_only n -> front_only (update_raft_status s n) /\
  shown (update_raft_status s n) = mkSharedStatus (sr_is_leader s) (n_id n) (sr_leader_id s) (sr_term s) (sr_state s).
Proof.
  destruct n as [id ba db ini mem ld il term state ep na vm p c m reg ts].
  unfold front_only, shown, last_leader, last_state, update_raft_status. cbn -[last]. intros Hf. split.
  - destruct ts as [|t ts]; cbn in *; [done|]. apply Forall_app. by repeat constructor.
  - rewrite last_snoc. cbn. unfold is_leader. cbn. by destruct (sr_is_leader s).
Qed.

Lemma in_order_front events (n : SharedNodeState Bd) :
  Forall in_order events -> front_only n -> front_only (run_status events n).
Proof.
  intros He. revert n. induction He as [|e events He _ IH]; intros n Hf; [done|]. cbn [run_status fold_left]. apply IH.
  destruct e as [s|i]; cbn in He |- *; [by apply report_shown|subst i; by apply front_step_shown].
Qed.

Lemma run_front m (n : SharedNodeState Bd) :
  front_only n ->
  let n' := run_status (replicate m (TaskStep 0)) n in
  front_only n' /\ shown n' = shown n /\ pending_steps (n_tasks n') = (pending_steps (n_tasks n) - m)%nat.
Proof.
  revert n. induction m as [|m IH]; intros n Hf; [cbn; split_and!; [done..|lia]|]. cbn [replicate run_status fold_left status_step].
  destruct (front_step_shown n Hf) as (Hf1 & Hs1 & Hp1). destruct (IH _ Hf1) as (Hf2 & Hs2 & Hp2).
  unfold run_status in *. split; [done|]. split; [by rewrite Hs2|]. rewrite Hp2, Hp1. lia.
Qed.

Lemma pending_bound ts : (length ts <= pending_steps ts <= 2 * length ts)%nat.
Proof.
  unfold pending_steps. induction ts as [|t ts IH]; cbn [length sum_list_with]; [lia|]. destruct (leader_written t); lia.
Qed.

Lemma settle_shown (n : SharedNodeState Bd) : front_only n -> n_tasks (settle n) = [] /\ get_raft_status (settle n) = shown n.
Proof.
  intros Hf. unfold settle. destruct (run_front (2 * length (n_tasks n)) n Hf) as (_ & Hs & Hp).
  pose proof (pending_bound (n_tasks n)). set (n' := run_status _ n) in *. pose proof (pending_bound (n_tasks n')).
  assert (Ht : n_tasks n' = []) by (apply length_zero_iff_nil; lia). split; [done|].
  rewrite <- Hs. unfold shown, last_leader, last_state. by rewrite Ht.
Qed.

Lemma run_status_app es es' (n : SharedNodeState Bd) : run_status (es ++ es') n = run_status es' (run_status es n).
Proof. apply fold_left_app. Qed.

Lemma run_status_id es (n : SharedNodeState Bd) : n_id (run_status es n) = n_id n.
Proof.
  revert n. induction es as [|e es IH]; intros n; [done|]. change (run_status (e :: es) n) with (run_status es (status_step e n)).
  rewrite IH. destruct e as [s|i]; [done|]. cbn [status_step]. unfold task_step. destruct (n_tasks n !! i) as [t|]; [|done].
  by destruct (leader_written t).
Qed.

(** * Properties *)

(** C16: as long as the tasks that write the leader and the state run in the order
    they were spawned, the status a node shows settles on the status that was
    reported last, however reports and steps of tasks were interleaved. *)
Theorem status_settles events s k (n : SharedNodeState Bd) :
  n_tasks n = [] -> Forall in_order events ->
  let n' := settle (run_status (events ++ Report s :: replicate k (TaskStep 0)) n) in
  n_tasks n' = [] /\ get_raft_status n' = mkSharedStatus (sr_is_leader s) (n_id n) (sr_leader_id s) (sr_term s) (sr_state s).
Proof.
  intros Hn He. cbn zeta. rewrite run_status_app.
  assert (Hf : front_only (run_status events n)) by (apply in_order_front; [done|]; unfold front_only; by rewrite Hn).
  change (run_status (Report s :: ?es) ?m) with (run_status es (update_raft_status s m)).
  destruct (report_shown s _ Hf) as [Hf1 Hs1]. destruct (run_front k _ Hf1) as (Hf2 & Hs2 & _).
  destruct (settle_shown _ Hf2) as [Ht Hg]. split; [exact Ht|]. rewrite Hg, Hs2, Hs1, run_status_id. reflexivity.
Qed.

(** Two tasks that overtake each other leave the status a mixture for good: the
    role and the term of the last report, the leader and the state of the one
    before. *)
Theorem overtaken_status_stays (n : SharedNodeState Bd) s1 s2 :
  n_tasks n = [] ->
  let n' := run_status [Report s1; Report s2; TaskStep 1; TaskStep 1; TaskStep 0; TaskStep 0] n in
  n_tasks n' = [] /\ get_raft_status n' = mkSharedStatus (sr_is_leader s2) (n_id n) (sr_leader_id s1) (sr_term s2) (sr_state s1).
Proof.
  destruct n as [id ba db ini mem ld il term state ep na vm p c m reg ts]. cbn [n_tasks]. intros ->. cbn zeta. split; [reflexivity|].
  transitivity (mkSharedStatus (0 <? (if sr_is_leader s2 then 1 else 0)) id (sr_leader_id s1) (sr_term s2) (sr_state s1)); [reflexivity|].
  by destruct (sr_is_leader s2).
Qed.

Section Membership.
Context `{Profile} `{AddrText} `{HashIter}.

Lemma record_peer_registry now id ctx (n : SharedNodeState Bd) i p2p :
  ctx_p2p_node_id ctx = Some p2p -> parse_node_id p2p = Some i ->
  n_registry (record_peer now id ctx n) =
    <[id := mkEntryOf id i (peer_addr i (ctx_p2p_addresses ctx) (ctx_p2p_relay_url ctx)) (Some (ctx_address ctx))]> (n_registry n) /\
  n_members (record_peer now id ctx n) =
    <[id := mkPeerInfo p2p (ctx_address ctx) now (Some p2p) (ctx_p2p_addresses ctx) (ctx_p2p_relay_url ctx) false]> (n_members n).
Proof. intros Hp Hi. unfold record_peer. by rewrite Hp, Hi. Qed.

(** Sending the request touches neither the members nor the registry. *)
Lemma propose_conf_change_keeps now response answer t id ctx (n : SharedNodeState Bd) :
  let n' := snd (propose_conf_change_with_p2p now response answer t id ctx n) in
  n_registry n' = n_registry (record_peer now id ctx n) /\ n_members n' = n_members (record_peer now id ctx n).
Proof.
  unfold propose_conf_change_with_p2p, sbind, smodify. cbn zeta.
  destruct (n_conf_change_tx (record_peer now id ctx n)) as [tx|]; [|done]. unfold chan_send. by destruct (receiver tx).
Qed.

Lemma register_wf id i addr b (n : SharedNodeState Bd) : registry_wf n -> registry_wf (register_node id i addr b n).
Proof.
  intros Hwf k e. cbn. intros [[<- <-]|[_ He]]%lookup_insert_Some; [done|by apply Hwf].
Qed.

Lemma register_grows id i addr b (n : SharedNodeState Bd) k :
  is_Some (n_registry n !! k) -> is_Some (n_registry (register_node id i addr b n) !! k).
Proof. cbn. intros Hk. destruct (decide (k = id)) as [->|]; [rewrite lookup_insert_eq; by eexists|by rewrite lookup_insert_ne]. Qed.

Lemma member_op_grows op (n : SharedNodeState Bd) :
  registry_wf n -> registry_wf (run_member_op op n) /\
  forall k, is_Some (n_registry n !! k) -> is_Some (n_registry (run_member_op op n) !! k).
Proof.
  intros Hwf. destruct op as [id p|id|now response answer t id ctx|ep]; cbn [run_member_op]; [done|done|..].
  - destruct (propose_conf_change_keeps now response answer t id ctx n) as [Hr _]. unfold registry_wf. rewrite Hr.
    unfold record_peer. destruct (ctx_p2p_node_id ctx) as [p2p|]; [|done]. destruct (parse_node_id p2p) as [i|]; [|done].
    change (n_registry (add_cluster_member _ _ ?m)) with (n_registry m). split; [by apply register_wf|]. intros k. apply register_grows.
  - unfold set_iroh_endpoint, sbind, smodify, sget, slift. destruct ep as [ep|]; [|done].
    destruct (get_bind_addr _) as [b| |]; [|done..]. cbn [snd]. change (n_registry (set_n_node_addr _ ?m)) with (n_registry m).
    split; [|intros k; apply (register_grows _ _ _ _ (set_n_endpoint (Some ep) n))].
    apply (register_wf _ _ _ _ (set_n_endpoint (Some ep) n)). exact Hwf.
Qed.

(** A request about a node with an iroh id makes the node known, whatever
    becomes of the request: its peer entry and its address can be looked up and
    it counts as a voter. That holds for a request to remove the node as well. *)
Theorem conf_change_makes_known now response answer t id ctx (n : SharedNodeState Bd) i p2p :
  registry_wf n -> ctx_p2p_node_id ctx = Some p2p -> parse_node_id p2p = Some i ->
  let n' := snd (propose_conf_change_with_p2p now response answer t id ctx n) in
  get_peer id n' = Some (mkPeerInfo p2p (ctx_address ctx) now (Some p2p) (ctx_p2p_addresses ctx) (ctx_p2p_relay_url ctx) false) /\
  get_node_addr id n' = Ok (peer_addr i (ctx_p2p_addresses ctx) (ctx_p2p_relay_url ctx)) /\
  id ∈ get_current_voters n'.
Proof.
  intros Hwf Hp Hi. cbn zeta. pose proof (member_op_grows (OpConfChange now response answer t id ctx) n Hwf) as [Hwf' _].
  cbn [run_member_op] in Hwf'. destruct (propose_conf_change_keeps now response answer t id ctx n) as [Hr Hm].
  destruct (record_peer_registry now id ctx n i p2p Hp Hi) as [Hr' Hm']. rewrite Hr' in Hr. rewrite Hm' in Hm.
  unfold get_peer, get_node_addr. rewrite (proj2 (voters_spec _ Hwf')), Hr, Hm, !lookup_insert_eq. split_and!; [done..|]. right. by eexists.
Qed.

(** The voters a node reports never become fewer: no operation on the
    membership takes a node from the registry they are read from, so a node
    that has been removed is still reported. *)
Theorem voters_never_shrink ops (n : SharedNodeState Bd) :
  registry_wf n ->
  let n' := fold_left (fun m op => run_member_op op m) ops n in
  NoDup (get_current_voters n') /\ get_current_voters n ⊆ get_current_voters n'.
Proof.
  intros Hwf. cbn zeta.
  assert (H' : registry_wf (fold_left (fun m op => run_member_op op m) ops n) /\
    forall k, is_Some (n_registry n !! k) -> is_Some (n_registry (fold_left (fun m op => run_member_op op m) ops n) !! k)).
  { revert n Hwf. induction ops as [|op ops IH]; intros n Hwf; [done|]. cbn [fold_left].
    destruct (member_op_grows op n Hwf) as [Hwf1 Hg1]. destruct (IH _ Hwf1) as [Hwf2 Hg2]. auto. }
  destruct H' as [Hwf' Hg]. destruct (voters_spec _ Hwf') as [Hnd Hv']. split; [done|].
  intros k. rewrite Hv', (proj2 (voters_spec _ Hwf)). naive_solver.
Qed.

(** A request that has not been answered when it was just sent counts as carried
    out. *)
Theorem unanswered_change_succeeds now response t id ctx (n : SharedNodeState Bd) tx :
  n_conf_change_tx n = Some tx -> receiver tx = true ->
  let '(o, n') := propose_conf_change_with_p2p now response None t id ctx n in
  o = Ok tt /\ n_conf_change_tx n' = Some (mkChannel (sent tx ++ [mkConfChangeRequest t id ctx (Some response)]) true).
Proof.
  intros Htx Hr. unfold propose_conf_change_with_p2p, sbind, smodify.
  assert (E : n_conf_change_tx (record_peer now id ctx n) = Some tx).
  { unfold record_peer. destruct (ctx_p2p_node_id ctx) as [p2p|]; [|done]. by destruct (parse_node_id p2p). }
  rewrite E. unfold chan_send. by rewrite Hr.
Qed.

End Membership.

Section MachineProperties.
Context `{Codec VmState} `{HashIter}.

(** A machine that was made through the shared state has a status, and is
    neither listed nor found: the lists are read from the database, where nobody
    has put it. *)
Theorem created_vm_not_found (n : SharedNodeState Bd) env env' config (h : Host MockVmBackend) l :
  n_vm_manager n = true -> read_vm_list (call_read env') (host_db h) = Ok l ->
  Forall (fun p => vm_name p.1 <> vm_name config) l ->
  exists h', shared_create_vm n env config h = (Ok (vm_name config), h') /\
    fst (shared_get_vm_info n env' (vm_name config) h') = Err (NotFound ("VM: " +:+ vm_name config)) /\
    fst (shared_list_vms n env' h') = Ok (map (listed_state n (call_now env')) l) /\
    is_ok (fst (shared_get_vm_status n env' (vm_name config) h')) = true.
Proof.
  intros Hm Hl Hn. unfold shared_create_vm, shared_get_vm_info, shared_list_vms, shared_get_vm_status. rewrite Hm.
  eexists. split; [reflexivity|]. unfold sbind. cbn [vb_list_vms vb_get_vm_status mock_backend].
  unfold mock_list_vms, mock_get_vm_status. cbn [host_db backend set_backend simulated_states fst snd].
  rewrite Hl, lookup_insert_eq.
  split_and!; [|done..]. destruct (find _ l) as [p|] eqn:Ef; [|done]. apply find_some in Ef as [Hin Heq].
  apply String.eqb_eq in Heq. rewrite Forall_forall in Hn. by destruct (Hn p); [apply list_elem_of_In|].
Qed.

(** Every machine of the cluster is listed as one of this node. *)
Theorem listed_vms_claim_node (n : SharedNodeState Bd) env (h : Host MockVmBackend) l :
  fst (shared_list_vms n env h) = Ok l -> Forall (fun v => vs_node_id v = n_id n) l.
Proof.
  unfold shared_list_vms. destruct (n_vm_manager n); [|done]. unfold sbind. cbn. destruct (read_vm_list _ _) as [vms| |]; [|done..].
  intros [= <-]. apply Forall_forall. intros v (p & <- & _)%list_elem_of_In%in_map_iff. done.
Qed.

End MachineProperties.
End Specs.

(** * Witnesses *)

#[local] Instance demo_net : IpNetLib := {| IpNet := unit; net_contains := fun _ _ => true |}.
#[local] Instance demo_profile : Profile := true.
#[local] Existing Instance canonical_iter.

(** Texts of node ids of one letter, and of the port of the local host. *)
#[local] Instance demo_text : AddrText := {|
  parse_node_id := fun s => match s with String a EmptyString => Some (Z.of_nat (Ascii.nat_of_ascii a)) | _ => None end;
  node_id_text := fun i => String (Ascii.ascii_of_nat (Z.to_nat i)) EmptyString;
  parse_socket := fun s => match s with String a EmptyString => Some (mkSocketAddr (V4 0) (Z.of_nat (Ascii.nat_of_ascii a))) | _ => None end;
  socket_text := fun a => String (Ascii.ascii_of_nat (Z.to_nat (sa_port a))) EmptyString;
  parse_relay := Some
|}.

Definition demo_node : SharedNodeState unit := node_new 1 None.
Definition demo_ctx : ConfChangeContext := mkConfContext "x" (Some "k") ["p"; "??"] None.
Definition old_status : SharedRaftStatus := mkSharedStatus false 1 (Some 2) 3 "follower".
Definition new_status : SharedRaftStatus := mkSharedStatus true 1 (Some 1) 4 "leader".

Lemma status_settles_witness :
  let n' := settle (run_status ([Report old_status; TaskStep 0] ++ Report new_status :: replicate 1 (TaskStep 0)) demo_node) in
  n_tasks n' = [] /\ get_raft_status n' = new_status.
Proof.
  apply (status_settles [Report old_status; TaskStep 0] new_status 1 demo_node).
  - reflexivity.
  - constructor; [exact I|]. constructor; [reflexivity|]. constructor.
Defined.

Lemma demo_registry_wf : registry_wf demo_node.
Proof. intros id e He. cbn [demo_node node_new n_registry] in He. exfalso. apply (lookup_empty_Some id e He). Qed.

Lemma conf_change_makes_known_witness :
  let n' := snd (propose_conf_change_with_p2p 9 0 None RemoveNode 7 demo_ctx demo_node) in
  get_peer 7 n' = Some (mkPeerInfo "k" "x" 9 (Some "k") ["p"; "??"] None false) /\
  get_node_addr 7 n' = Ok (mkNodeAddr 107 [mkSocketAddr (V4 0) 112] None) /\ 7 ∈ get_current_voters n'.
Proof. exact (conf_change_makes_known 9 0 None RemoveNode 7 demo_ctx demo_node 107 "k" demo_registry_wf eq_refl eq_refl). Defined.

Lemma voters_never_shrink_witness :
  let n' := fold_left (fun m op => run_member_op op m) [OpConfChange 9 0 None AddNode 7 demo_ctx; OpRemovePeer 7] demo_node in
  NoDup (get_current_voters n') /\ get_current_voters demo_node ⊆ get_current_voters n'.
Proof. apply voters_never_shrink. exact demo_registry_wf. Defined.
