(* ===== verification/VmManager.v ===== *)
(** The manager that carries out VM commands on a backend (VmManager of
    blixard-core/src/vm_backend.rs), and its composition with the scheduler and the
    shared state of the node when a machine is created with scheduling.  The comments
    of process_command say that the state machine forwards committed commands to it;
    no code of the repository calls it, so the theorems about it concern one command
    handed to the manager.

    The manager works on the host (the backend and the database of the node) and
    on the node's shared state.  A monitor it spawns is recorded, and runs in a
    loop of its own; what other tasks do while the loop sleeps is an argument.  The
    feature "observability" is off. *)

From Stdlib Require Import ZArith Lia List.
From stdpp Require Import base tactics numbers gmap strings pretty option.
From stdpp Require Import list relations.
From S2P Require Import Prelude Wire Errors Types RaftCodec ResourceQuotas QuotaManager IpPool IpPoolManager Proposals Codecs.
From S2P Require Import Database RaftStorage StateMachine RaftCore.
From S2P Require Import Scheduler VmBackend NodeShared.

Open Scope Z_scope.

(** * The manager *)

Record VmStatusMonitorConfig : Type := mkMonitorConfig {
  initial_delay_ms : Z;
  poll_interval_ms : Z;
  max_attempts : nat
}.

Definition default_monitor_config : VmStatusMonitorConfig := mkMonitorConfig 500 500 20.

Inductive MonitoringResult : Type := StatusUpdated | StableStateReached | ContinueMonitoring | ErrorOccurred.

(** The state the manager's methods work on; [monitors] are the machines whose
    monitoring has been spawned. *)
Record VmManager (B Bd : Type) `{IpNetLib} : Type := mkVmManager {
  vm_host : Host B;
  vm_node : SharedNodeState Bd;
  monitors : list string
}.
Arguments mkVmManager {B Bd _} vm_host vm_node monitors.
Arguments vm_host {B Bd _} v.
Arguments vm_node {B Bd _} v.
Arguments monitors {B Bd _} v.

Definition is_stable_state (s : VmStatus) : bool :=
  match s with Running | Stopped | Failed => true | _ => false end.

Section Manager.
Context {B Bd : Type} `{IpNetLib} `{VmBackend B} `{Codec VmState}.

Definition vmm (A : Type) : Type := st (VmManager B Bd) BlixardError A.

Definition set_vm_host (h : Host B) (w : VmManager B Bd) : VmManager B Bd := mkVmManager h (vm_node w) (monitors w).
Definition set_vm_node (n : SharedNodeState Bd) (w : VmManager B Bd) : VmManager B Bd := mkVmManager (vm_host w) n (monitors w).

Definition on_host {A} (m : st (Host B) BlixardError A) : vmm A :=
  fun w => let '(o, h) := m (vm_host w) in (o, set_vm_host h w).
Definition on_node {A} (m : st (SharedNodeState Bd) BlixardError A) : vmm A :=
  fun w => let '(o, n) := m (vm_node w) in (o, set_vm_node n w).

Definition monitor_vm_status_after_operation (name : string) : vmm unit :=
  smodify (fun w => mkVmManager (vm_host w) (vm_node w) (monitors w ++ [name])).

(** ** Commands *)

Definition handle_create_command (env : CallEnv) (config : VmConfig) (node_id : Z) : vmm unit :=
  on_host (vb_create_vm env config node_id) ;* monitor_vm_status_after_operation (vm_name config).
Definition handle_start_command (env : CallEnv) (name : string) : vmm unit :=
  on_host (vb_start_vm env name) ;* monitor_vm_status_after_operation name.
Definition handle_stop_command (env : CallEnv) (name : string) : vmm unit :=
  on_host (vb_stop_vm env name) ;* monitor_vm_status_after_operation name.
Definition handle_delete_command (env : CallEnv) (name : string) : vmm unit := on_host (vb_delete_vm env name).
Definition handle_update_status_command (env : CallEnv) (name : string) (status : VmStatus) : vmm unit :=
  on_host (vb_update_vm_status env name status).

Definition handle_migrate_command (env : CallEnv) (task : VmMigrationTask) : vmm unit :=
  let* w := sget in
  if source_node_id task =? n_id (vm_node w) then
    (if negb (live_migration task) then on_host (vb_stop_vm env (mt_vm_name task)) else sret tt) ;*
    on_host (vb_migrate_vm env (mt_vm_name task) (target_node_id task) (live_migration task))
  else sret tt.

Definition vm_process_command (env : CallEnv) (command : VmCommand) : vmm unit :=
  match command with
  | VmCreate config node_id => handle_create_command env config node_id
  | VmStart name => handle_start_command env name
  | VmStop name => handle_stop_command env name
  | VmDelete name => handle_delete_command env name
  | VmUpdateStatus name status => handle_update_status_command env name status
  | VmMigrate task => handle_migrate_command env task
  end.

Definition manager_get_vm_ip (env : CallEnv) (name : string) : vmm (option string) := on_host (vb_get_vm_ip env name).

(** ** Monitoring *)

Definition get_actual_vm_status (env : CallEnv) (name : string) : vmm (option VmStatus) := fun w =>
  match vb_get_vm_status env name (vm_host w) with
  | (Ok status, h) => (Ok status, set_vm_host h w)
  | (Err _, h) => (Ok None, set_vm_host h w)
  | (Panic, h) => (Panic, set_vm_host h w)
  end.

Definition get_stored_vm_status (f : read_fault) (name : string) (db : Database) : option (option VmStatus) :=
  match f with
  | ReadBeginFails => None
  | ReadOpenFails | ReadFails => Some None
  | ReadFine =>
      match strs db VM_STATE_TABLE !! name with
      | Some data => match de data with Some v => Some (Some (vs_status v)) | None => None end
      | None => Some None
      end
  end.

(** The answer of the node is only logged. *)
Definition trigger_status_update (name : string) (new_status : VmStatus) : vmm unit := fun w =>
  match on_node (update_vm_status_through_raft name (vm_status_debug new_status)) w with
  | (Panic, w') => (Panic, w')
  | (_, w') => (Ok tt, w')
  end.

Definition check_and_update_status (env : CallEnv) (name : string) : vmm MonitoringResult :=
  let* actual_status := get_actual_vm_status env name in
  match actual_status with
  | None => sret ErrorOccurred
  | Some actual =>
      let* w := sget in
      match get_stored_vm_status (call_read env) name (host_db (vm_host w)) with
      | None => sret ErrorOccurred
      | Some None => sret ContinueMonitoring
      | Some (Some stored) =>
          if bool_decide (actual <> stored) then trigger_status_update name actual ;* sret StatusUpdated
          else if is_stable_state actual then sret StableStateReached
          else sret ContinueMonitoring
      end
  end.

(** [attempts] more checks; [None] when they are used up. *)
Fixpoint monitoring_attempts (envs : nat -> CallEnv) (sleep : nat -> VmManager B Bd -> VmManager B Bd) (name : string)
    (attempts : nat) : vmm (option MonitoringResult) :=
  match attempts with
  | O => sret None
  | S k =>
      let* r := check_and_update_status (envs k) name in
      match r with
      | ContinueMonitoring => smodify (sleep k) ;* monitoring_attempts envs sleep name k
      | _ => sret (Some r)
      end
  end.

Definition run_monitoring_loop (envs : nat -> CallEnv) (sleep : nat -> VmManager B Bd -> VmManager B Bd) (name : string)
    : vmm (option MonitoringResult) :=
  let config := default_monitor_config in
  smodify (sleep (max_attempts config)) ;* monitoring_attempts envs sleep name (max_attempts config).

End Manager.

(** ** Placement and recovery *)

Section Placing.
Context {B Bd : Type} `{IpNetLib} `{VmBackend B} `{Codec VmState}.
Context `{Profile} `{HashIter} `{Codec VmConfig} `{Codec WorkerCapabilities} `{Codec WorkerStatus} (string_hash : string -> Z).

Definition manager_schedule_placement (config : VmConfig) (strategy : PlacementStrategy) : vmm (B:=B) (Bd:=Bd) PlacementDecision :=
  let* w := sget in slift (schedule_vm_placement string_hash (scheduler_new (host_db (vm_host w))) config strategy).

Definition manager_resource_summary : vmm (B:=B) (Bd:=Bd) ClusterResourceSummary :=
  let* w := sget in slift (get_cluster_resource_summary (scheduler_new (host_db (vm_host w)))).

(** [id] is the id generated for the proposal. *)
Definition create_vm_with_scheduling (id : bytes) (config : VmConfig) (strategy : PlacementStrategy)
    : vmm (B:=B) (Bd:=Bd) PlacementDecision :=
  let* placement := manager_schedule_placement config strategy in
  on_node (send_raft_proposal (mkProposal id (CreateVm (VmCreate config (target_node placement))) None)) ;*
  sret placement.

Definition manager_create_vm (id : bytes) (config : VmConfig) : vmm (B:=B) (Bd:=Bd) PlacementDecision :=
  create_vm_with_scheduling id config MostAvailable.

Definition recover_persisted_vms (f : read_fault) (plan : nat -> (nat -> CallEnv) * list nat) : vmm (B:=B) (Bd:=Bd) unit :=
  on_host (recover_vms f plan default_persistence_config) ;* sret tt.

End Placing.

(** * The manager on the mock backend *)

Section OnMock.
Context {Bd : Type} `{IpNetLib} `{HashIter} `{Codec VmState}.

Abbreviation Manager := (VmManager MockVmBackend Bd).

Definition sim_states (w : Manager) : gmap string (VmStatus * Z) := simulated_states (backend (vm_host w)).

(** ** Monitoring *)

Lemma stored_status name v db : vms db !! name = Some v -> get_stored_vm_status ReadFine name db = Some (Some (vs_status v)).
Proof. unfold vms, get_stored_vm_status. rewrite lookup_omap. intros (b & Hb & Hd)%bind_Some. rewrite Hb. cbn in Hd. by rewrite Hd. Qed.

Lemma monitoring_reports envs sleep name (w : Manager) actual stored :
  (forall w, sleep 20%nat w = w) -> call_read (envs 19%nat) = ReadFine ->
  mock_get_vm_status (envs 19%nat) name (vm_host w) = (Ok (Some actual), vm_host w) ->
  get_stored_vm_status ReadFine name (host_db (vm_host w)) = Some (Some stored) -> actual <> stored ->
  run_monitoring_loop envs sleep name w = (Ok (Some StatusUpdated), w).
Proof.
  intros Hs Hr Ha Hst Hne. unfold run_monitoring_loop, default_monitor_config. cbn [max_attempts monitoring_attempts].
  unfold sbind, smodify. rewrite Hs. unfold check_and_update_status, get_actual_vm_status, sbind.
  cbn [vb_get_vm_status mock_backend]. rewrite Ha. unfold sget. cbn [vm_host set_vm_host]. rewrite Hr, Hst, bool_decide_true by done.
  by destruct w as [[] ? ?].
Qed.

(** A machine that was started stays "Starting" in the registry.  Where the
    registry records the start, the manager that carries the start out has the mock
    backend run the machine; the monitor notices the difference at its first look and
    reports that it updated the status, and nothing has changed, because the request to
    update is not implemented. *)
Theorem started_vm_stays_starting call name v (w : Manager) envs :
  vms (host_db (vm_host w)) !! name = Some v -> vs_status v = Starting -> (forall k, call_read (envs k) = ReadFine) ->
  exists w', vm_process_command call (VmStart name) w = (Ok tt, w') /\ monitors w' = monitors w ++ [name] /\
    run_monitoring_loop envs (fun _ w => w) name w' = (Ok (Some StatusUpdated), w') /\
    get_stored_vm_status ReadFine name (host_db (vm_host w')) = Some (Some Starting) /\
    fst (mock_get_vm_status call name (vm_host w')) = Ok (Some Running).
Proof.
  intros Hv Hst0 Hr. pose proof (stored_status name v _ Hv) as Hst. rewrite Hst0 in Hst.
  assert (Hrun : forall call' t db, mock_get_vm_status call' name (mkHost (mkMock (<[name := (Running, t)]> (sim_states w))) db) =
    (Ok (Some Running), mkHost (mkMock (<[name := (Running, t)]> (sim_states w))) db)).
  { intros. unfold mock_get_vm_status. cbn [backend simulated_states]. by rewrite lookup_insert_eq. }
  eexists. split; [reflexivity|]. split; [reflexivity|].
  split; [|split; [exact Hst|exact (f_equal fst (Hrun call (call_now call) (host_db (vm_host w))))]].
  eapply (monitoring_reports _ _ _ _ Running Starting); [done|done|exact (Hrun _ _ _)|exact Hst|discriminate].
Qed.

(** ** Migration *)

(** A migration moves nothing: the source stops the machine (when the migration is
    not live) and then fails, because the mock backend does not implement the
    transfer; the target does nothing. *)
Theorem migration_moves_nothing call task (source target : Manager) :
  n_id (vm_node source) = source_node_id task -> n_id (vm_node target) = target_node_id task ->
  source_node_id task <> target_node_id task ->
  exists source',
    vm_process_command call (VmMigrate task) source = (Err (NotImplemented "VM migration"), source') /\
    vm_process_command call (VmMigrate task) target = (Ok tt, target) /\
    sim_states source' = (if live_migration task then sim_states source
                          else <[mt_vm_name task := (Stopped, call_now call)]> (sim_states source)).
Proof.
  intros Hs Ht Hne. cbn [vm_process_command]. unfold handle_migrate_command, sbind, sget.
  rewrite Hs, Ht, Z.eqb_refl. apply Z.eqb_neq in Hne as ->.
  destruct (live_migration task); cbn [negb]; (eexists; split; [reflexivity|]; split; reflexivity).
Qed.

End OnMock.

(** * From a request to the registry *)

Section Scheduled.
Context {B Bd : Type} `{VmBackend B} `{Profile} `{IpNetLib} `{HashIter} `{UuidText}.
Context `{Codec TenantQuota} `{Codec NodeTopology} `{Codec TaskSpec} `{Codec TaskResult}.
Context `{Codec (string * WorkerCapabilities)} `{Codec VmState} `{Codec IpAllocation}.
Context `{Codec (list IpAddr)} `{Codec TenantUsage} `{Codec ProposalData}.
Context `{Codec VmConfig} `{Codec WorkerCapabilities} `{Codec WorkerStatus} `{!CodecOk VmState} `{!CodecOk ProposalData}.
Context (vm_states_serialize : forall v : VmState, is_Some (ser v)) (string_hash : string -> Z).


(** A machine for which there is no place is not proposed. *)
Theorem unplaced_vm_not_proposed id config strategy (w : VmManager B Bd) e :
  schedule_vm_placement string_hash (scheduler_new (host_db (vm_host w))) config strategy = Err e ->
  create_vm_with_scheduling string_hash id config strategy w = (Err e, w).
Proof. intros Hd. unfold create_vm_with_scheduling, manager_schedule_placement, sbind, sget, slift. by rewrite Hd. Qed.

End Scheduled.

(** * Witnesses *)

#[local] Instance demo_profile : Profile := true.
#[local] Existing Instance demo_uuid.
#[local] Existing Instance prefix_nets.
#[local] Existing Instance canonical_iter.
#[local] Existing Instance StateMachine.wire_net.
#[local] Existing Instance wire_codec.
#[local] Existing Instance wire_codec_ok.

Lemma wire_states_serialize (v : VmState) : is_Some (ser v).
Proof. by eexists. Qed.

Definition demo_manager (id : Z) : VmManager MockVmBackend unit :=
  mkVmManager (mkHost mock_new empty_database) (set_n_proposal_tx (Some (mkChannel [] true)) (node_new id None)) [].
Definition demo_call : CallEnv := mkCallEnv 5 ReadFine.
Lemma empty_vms_wf : vms_wf (database fresh_node).
Proof. intros k b Hb. change (strs (database fresh_node) VM_STATE_TABLE) with (∅ : gmap string bytes) in Hb. exfalso. exact (lookup_empty_Some k b Hb). Qed.

(** A manager whose registry has the machine "web" as starting. *)
Definition started_manager : VmManager MockVmBackend unit :=
  set_vm_host (mkHost mock_new (set_strs VM_STATE_TABLE {["web" := put (mkVmState "web" web_vm Starting 1 1 2)]} empty_database)) (demo_manager 1).

Lemma started_vm_stays_starting_witness :
  exists w', vm_process_command demo_call (VmStart "web") started_manager = (Ok tt, w') /\
    monitors w' = ["web"] /\
    run_monitoring_loop (fun _ => demo_call) (fun _ w => w) "web" w' = (Ok (Some StatusUpdated), w') /\
    get_stored_vm_status ReadFine "web" (host_db (vm_host w')) = Some (Some Starting) /\
    fst (mock_get_vm_status demo_call "web" (vm_host w')) = Ok (Some Running).
Proof.
  apply (started_vm_stays_starting demo_call "web" (mkVmState "web" web_vm Starting 1 1 2) started_manager (fun _ => demo_call));
    [vm_compute; reflexivity|reflexivity|reflexivity].
Defined.

Definition demo_task : VmMigrationTask := mkMigration "web" 1 2 false false.

Lemma migration_moves_nothing_witness :
  exists source',
    vm_process_command demo_call (VmMigrate demo_task) (demo_manager 1) = (Err (NotImplemented "VM migration"), source') /\
    vm_process_command demo_call (VmMigrate demo_task) (demo_manager 2) = (Ok tt, demo_manager 2) /\
    sim_states source' = <["web" := (Stopped, 5)]> ∅.
Proof.
  apply (migration_moves_nothing demo_call demo_task (demo_manager 1) (demo_manager 2)); [reflexivity|reflexivity|discriminate].
Defined.

(** A node with one worker, which the scheduler knows as node 7. *)
Definition worker_db : Database :=
  set_byts WORKER_STATUS_TABLE {[ to_be_bytes 7 := default [] (ser Online) ]}
    (set_byts WORKER_TABLE {[ to_be_bytes 7 := default [] (ser (mkCapabilities 8 16384 100 ["microvm"])) ]} empty_database).
Definition placing_manager : VmManager MockVmBackend unit := set_vm_host (mkHost mock_new worker_db) (demo_manager 1).
Definition demo_placement : BlixardResult PlacementDecision :=
  schedule_vm_placement (fun _ => 0) (scheduler_new worker_db) web_vm MostAvailable.

Lemma demo_placement_ok : exists d, demo_placement = Ok d /\ target_node d = 7.
Proof. eexists. split; [vm_compute; reflexivity|reflexivity]. Qed.

