(* ===== verification/Lifecycle.v ===== *)
(** The life cycle of managers (blixard-core/src/patterns/lifecycle.rs): states and
    statistics, the interface [LifecycleManager] with its provided methods, the
    shared base [LifecycleBase], and the coordinator that starts and stops a list
    of managers.

    Times are nanoseconds; a system time that went backwards gives no uptime. *)

From Stdlib Require Import ZArith Lia List.
From stdpp Require Import base tactics numbers gmap strings option.
From stdpp Require Import list.
From S2P Require Import Prelude Errors.

Open Scope Z_scope.

(** * States and statistics *)

Inductive LifecycleState : Type :=
| LCreated | LInitializing | LReady | LStarting | LRunning | LStopping | LStopped
| LFailed (error : string).

#[export] Instance LifecycleState_eq_dec : EqDecision LifecycleState.
Proof. solve_decision. Defined.

Inductive ManagerHealth : Type :=
| MHealthy
| MDegraded (why : string)
| MUnhealthy (why : string).

Record LifecycleStats : Type := mkLifecycleStats {
  start_time : option Z;
  uptime : option Z;
  restart_count : Z;
  ls_last_error : option string
}.

Definition stats_new : LifecycleStats := mkLifecycleStats None None 0 None.

(** [start.elapsed().ok()] *)
Definition elapsed_since (now start : Z) : option Z := if start <=? now then Some (now - start) else None.

Definition record_start (now : Z) (s : LifecycleStats) : LifecycleStats :=
  mkLifecycleStats (Some now) None (restart_count s) (ls_last_error s).

Definition record_stop (now : Z) (s : LifecycleStats) : LifecycleStats :=
  mkLifecycleStats None (match start_time s with Some t => elapsed_since now t | None => uptime s end)
    (restart_count s) (ls_last_error s).

Definition record_restart `{Profile} (now : Z) (s : LifecycleStats) : BlixardResult LifecycleStats :=
  let? n := arith_u 32 (restart_count s + 1) in
  Ok (record_start now (mkLifecycleStats (start_time s) (uptime s) n (ls_last_error s))).

Definition stats_record_error (error : string) (s : LifecycleStats) : LifecycleStats :=
  mkLifecycleStats (start_time s) (uptime s) (restart_count s) (Some error).

Definition current_uptime (now : Z) (s : LifecycleStats) : option Z := start_time s ≫= elapsed_since now.

(** * The interface *)

Class LifecycleManager (M : Type) : Type := {
  lm_start : st M BlixardError unit;
  lm_stop : st M BlixardError unit;
  lm_state : M -> LifecycleState;
  lm_name : M -> string
}.

Section Provided.
Context {M : Type} `{LifecycleManager M}.

Definition lm_restart : st M BlixardError unit := lm_stop ;* lm_start.

Definition lm_health (m : M) : ManagerHealth :=
  match lm_state m with
  | LRunning => MHealthy
  | LFailed err => MUnhealthy err
  | LStarting | LStopping => MDegraded "State transition in progress"
  | _ => MDegraded "Not running"
  end.

Definition lm_is_running (m : M) : bool := bool_decide (lm_state m = LRunning).

Definition lm_is_healthy (m : M) : bool := match lm_health m with MHealthy => true | _ => false end.

Definition update_config (m : M) : BlixardResult unit :=
  Err (NotImplemented ("Dynamic reconfiguration for " +:+ lm_name m)).

(** The manager as the [i]-th look at it finds it, and the time passed by then.  The
    name of the state is left out of the error, as is the text of the cause in the
    errors of the coordinator. *)
Fixpoint wait_for_state (fuel : nat) (seen : nat -> M) (elapsed : nat -> Z) (target : LifecycleState) (timeout : Z) (i : nat)
    : option (BlixardResult unit) :=
  match fuel with
  | O => None
  | S fuel' =>
      if elapsed i <? timeout then
        if bool_decide (lm_state (seen i) = target) then Some (Ok tt) else wait_for_state fuel' seen elapsed target timeout (S i)
      else Some (Err (Timeout "wait_for_state" timeout))
  end.

(** * The coordinator *)

(** [for manager in &mut self.managers { op(manager).map_err(..)?; }] *)
Fixpoint each_manager (op : st M BlixardError unit) (what : string) (ms : list M) : BlixardResult unit * list M :=
  match ms with
  | [] => (Ok tt, [])
  | m :: rest =>
      match op m with
      | (Ok _, m') => let '(o, rest') := each_manager op what rest in (o, m' :: rest')
      | (Err e, m') => (Err (Internal ("Failed to " +:+ what +:+ " manager " +:+ lm_name m')), m' :: rest)
      | (Panic, m') => (Panic, m' :: rest)
      end
  end.

Definition start_all : list M -> BlixardResult unit * list M := each_manager lm_start "start".
Definition stop_all : list M -> BlixardResult unit * list M := each_manager lm_stop "stop".

Definition health_check_all (ms : list M) : list (string * ManagerHealth) := map (fun m => (lm_name m, lm_health m)) ms.

End Provided.

(** * The base *)

Record LifecycleBase (C : Type) : Type := mkBase {
  base_config : C;
  base_state : LifecycleState;
  base_stats : LifecycleStats;
  shutdown_tx : bool;
  shutdown_rx : bool
}.
Arguments mkBase {C} base_config base_state base_stats shutdown_tx shutdown_rx.
Arguments base_config {C} l.
Arguments base_state {C} l.
Arguments base_stats {C} l.
Arguments shutdown_tx {C} l.
Arguments shutdown_rx {C} l.

Section Base.
Context {C : Type} `{Profile}.

Definition base_new (config : C) : LifecycleBase C := mkBase config LCreated stats_new true true.

(** A panic of the counter leaves the state as it was. *)
Definition transition_state (now : Z) (new_state : LifecycleState) : st (LifecycleBase C) BlixardError unit := fun b =>
  let stats :=
    match base_state b, new_state with
    | LRunning, LStarting => record_restart now (base_stats b)
    | _, LStarting => Ok (record_start now (base_stats b))
    | _, LStopped => Ok (record_stop now (base_stats b))
    | _, _ => Ok (base_stats b)
    end in
  match stats with
  | Ok s => (Ok tt, mkBase (base_config b) new_state s (shutdown_tx b) (shutdown_rx b))
  | Err e => (Err e, b)
  | Panic => (Panic, b)
  end.

Definition base_record_error (error : string) (b : LifecycleBase C) : LifecycleBase C :=
  mkBase (base_config b) (LFailed error) (stats_record_error error (base_stats b)) (shutdown_tx b) (shutdown_rx b).

(** Sending fails when the receiver is gone; the sender is used up. *)
Definition trigger_shutdown (b : LifecycleBase C) : bool * LifecycleBase C :=
  (shutdown_tx b && shutdown_rx b, mkBase (base_config b) (base_state b) (base_stats b) false (shutdown_rx b)).

Definition is_shutdown_signaled (b : LifecycleBase C) : bool := negb (shutdown_tx b).

(** The transitions of a list of states, at times of their own. *)
Fixpoint transitions (l : list (Z * LifecycleState)) : st (LifecycleBase C) BlixardError unit :=
  match l with
  | [] => sret tt
  | (now, s) :: l' => transition_state now s ;* transitions l'
  end.

End Base.

(** * Theorems *)

Section Facts.
Context {M : Type} `{LifecycleManager M}.

Lemma elapsed_mono (elapsed : nat -> Z) i j :
  (forall i, elapsed i + 100000000 <= elapsed (S i)) -> (i <= j)%nat -> elapsed i <= elapsed j.
Proof. intros Hs. induction 1 as [|j _ IH]; [lia|]. specialize (Hs j). lia. Qed.

Lemma wait_from (seen : nat -> M) elapsed target timeout f i :
  (forall i, elapsed i + 100000000 <= elapsed (S i)) -> timeout <= elapsed i + Z.of_nat f * 100000000 ->
  exists r, wait_for_state (S f) seen elapsed target timeout i = Some r /\
    (r = Ok tt <-> exists j, (i <= j)%nat /\ elapsed j < timeout /\ lm_state (seen j) = target).
Proof.
  intros Hs. revert i. induction f as [|f IH]; intros i Hi; cbn [wait_for_state].
  all: destruct (Z.ltb_spec (elapsed i) timeout) as [Hlt|Hge].
  - lia.
  - eexists. split; [done|]. split; [done|]. intros (j & Hj & Ht & _).
    pose proof (elapsed_mono elapsed i j Hs Hj). lia.
  - case_bool_decide as Hst; [eexists; split; [done|]; split; [|done]; intros _; by exists i|].
    destruct (IH (S i)) as (r & Hr & Hiff); [specialize (Hs i); lia|]. exists r. split; [exact Hr|]. rewrite Hiff.
    split; intros (j & Hj & Ht & Hst'); exists j; (split; [|done]); [lia|].
    destruct (decide (j = i)) as [->|]; [done|lia].
  - eexists. split; [done|]. split; [done|]. intros (j & Hj & Ht & _).
    pose proof (elapsed_mono elapsed i j Hs Hj). lia.
Qed.

(** Waiting for a state ends: the loop sleeps a tenth of a second per turn, so
    one turn per tenth of a second of the timeout, and one more, give an answer;
    it is a success exactly when a look before the timeout found the state. *)
Theorem wait_for_state_ends (seen : nat -> M) elapsed target timeout fuel :
  0 <= elapsed O -> (forall i, elapsed i + 100000000 <= elapsed (S i)) -> timeout <= Z.of_nat fuel * 100000000 ->
  exists r, wait_for_state (S fuel) seen elapsed target timeout 0 = Some r /\
    (r = Ok tt <-> exists j, elapsed j < timeout /\ lm_state (seen j) = target).
Proof.
  intros H0 Hs Hf. destruct (wait_from seen elapsed target timeout fuel 0 Hs) as (r & Hr & Hiff); [lia|].
  exists r. split; [done|]. rewrite Hiff. split; [intros (j & _ & ?)|intros (j & ?)]; exists j; [done|]. split; [lia|done].
Qed.

Lemma each_manager_stops (op : st M BlixardError unit) what ms o ms' :
  each_manager op what ms = (o, ms') ->
  (o = Ok tt /\ Forall2 (fun m m' => op m = (Ok tt, m')) ms ms') \/
  exists pre m post pre' m', ms = pre ++ m :: post /\ ms' = pre' ++ m' :: post /\
    Forall2 (fun m m' => op m = (Ok tt, m')) pre pre' /\ fst (op m) <> Ok tt /\ snd (op m) = m' /\ o <> Ok tt.
Proof.
  revert o ms'. induction ms as [|m ms IH]; cbn; intros o ms'; [intros [= <- <-]; left; by split|].
  destruct (op m) as [[[]|e|] m'] eqn:E.
  - destruct (each_manager op what ms) as [o1 ms1] eqn:E1. intros [= <- <-].
    destruct (IH _ _ eq_refl) as [[-> Hall]|(pre & x & post & pre' & x' & -> & -> & Hpre & Hx & Hx' & Ho)].
    + left. split; [done|]. by constructor.
    + right. exists (m :: pre), x, post, (m' :: pre'), x'. split_and!; [done|done|by constructor|done..].
  - intros [= <- <-]. right. exists [], m, ms, [], m'. rewrite E. by split_and!.
  - intros [= <- <-]. right. exists [], m, ms, [], m'. rewrite E. by split_and!.
Qed.

(** A start of all that fails leaves every manager before the failing one
    started, and the ones after it as they were; nothing is rolled back. *)
Theorem failed_start_leaves_started ms o ms' :
  start_all ms = (o, ms') -> o <> Ok tt ->
  exists pre m post pre' m', ms = pre ++ m :: post /\ ms' = pre' ++ m' :: post /\
    Forall2 (fun m m' => lm_start m = (Ok tt, m')) pre pre' /\ fst (lm_start m) <> Ok tt.
Proof.
  intros [[-> _]|(pre & m & post & pre' & m' & ? & ? & ? & ? & _)]%each_manager_stops Ho; [done|].
  by exists pre, m, post, pre', m'.
Qed.

(** A stop of all that fails leaves every manager after the failing one as it
    was, running if it ran. *)
Theorem failed_stop_leaves_running ms o ms' :
  stop_all ms = (o, ms') -> o <> Ok tt ->
  exists pre m post pre' m', ms = pre ++ m :: post /\ ms' = pre' ++ m' :: post /\ fst (lm_stop m) <> Ok tt.
Proof.
  intros [[-> _]|(pre & m & post & pre' & m' & ? & ? & _ & ? & _)]%each_manager_stops Ho; [done|].
  by exists pre, m, post, pre', m'.
Qed.

End Facts.

Section BaseFacts.
Context {C : Type} `{Profile}.

(** One restart as [restart] makes it, a stop and a start. *)
Definition restart_round (now : Z) : list (Z * LifecycleState) :=
  [(now, LStopping); (now, LStopped); (now, LStarting); (now, LRunning)].

(** Restarts are never counted: the count goes up on a change from running to
    starting, and a restart stops first. *)
Theorem restarts_not_counted (times : list Z) (b : LifecycleBase C) :
  exists b', transitions (times ≫= restart_round) b = (Ok tt, b') /\
    restart_count (base_stats b') = restart_count (base_stats b).
Proof.
  revert b. induction times as [|now times IH]; intros b; [by exists b|].
  destruct b as [c s st tx rx]. cbn -[restart_count]. destruct s; cbn -[restart_count].
  all: match goal with |- exists b', transitions _ ?b = _ /\ _ => destruct (IH b) as (b' & -> & Hb') end.
  all: exists b'; split; [reflexivity|]; by rewrite Hb'.
Qed.

End BaseFacts.

(** * Witnesses *)

(** A manager that starts, or fails to. *)
#[local] Instance demo_manager : LifecycleManager (LifecycleState * bool) := {|
  lm_start := fun '(s, fails) => if fails : bool then (Err (Internal "start"), (LFailed "start", true)) else (Ok tt, (LRunning, false));
  lm_stop := fun '(s, fails) => if fails : bool then (Err (Internal "stop"), (s, true)) else (Ok tt, (LStopped, false));
  lm_state := fst;
  lm_name := fun _ => "demo"
|}.

Lemma wait_for_state_ends_witness :
  exists r, wait_for_state 4 (fun i => (if Nat.eqb i 2 then LRunning else LStarting, false)) (fun i => Z.of_nat i * 100000000)
    LRunning 300000000 0 = Some r /\
    (r = Ok tt <-> exists j, Z.of_nat j * 100000000 < 300000000 /\
       lm_state (M := LifecycleState * bool) (if Nat.eqb j 2 then LRunning else LStarting, false) = LRunning).
Proof.
  apply (wait_for_state_ends (fun i => (if Nat.eqb i 2 then LRunning else LStarting, false)) (fun i => Z.of_nat i * 100000000) LRunning 300000000 3); lia.
Defined.

Definition demo_managers : list (LifecycleState * bool) := [(LStopped, false); (LStopped, true); (LRunning, false)].

Lemma failed_start_leaves_started_witness :
  exists pre m post pre' m',
    demo_managers = pre ++ m :: post /\ [(LRunning, false); (LFailed "start", true); (LRunning, false)] = pre' ++ m' :: post /\
    Forall2 (fun m m' => lm_start m = (Ok tt, m')) pre pre' /\ fst (lm_start m) <> Ok tt.
Proof.
  apply (failed_start_leaves_started demo_managers (Err (Internal "Failed to start manager demo"))
    [(LRunning, false); (LFailed "start", true); (LRunning, false)]); [vm_compute; reflexivity|discriminate].
Defined.

Lemma failed_stop_leaves_running_witness :
  exists pre m post pre' m',
    demo_managers = pre ++ m :: post /\ [(LStopped, false); (LStopped, true); (LRunning, false)] = pre' ++ m' :: post /\
    fst (lm_stop m) <> Ok tt.
Proof.
  apply (failed_stop_leaves_running demo_managers (Err (Internal "Failed to stop manager demo"))
    [(LStopped, false); (LStopped, true); (LRunning, false)]); [vm_compute; reflexivity|discriminate].
Defined.
