(* ===== verification/HealthScheduler.v ===== *)
(** The periodic health checks of VMs (blixard-core/src/vm_health_scheduler.rs, with the
    configuration of vm_health_config.rs and the health methods of the backend
    interface in vm_backend.rs).

    A cycle works on the VM manager, which has the backend, the database and the
    node's state, and on the automatic recovery.  What other tasks do between the
    steps of a cycle, what redb does at each read, and how each health check ends
    are arguments.  Metrics and logging are left out. *)

From Stdlib Require Import ZArith Lia List.
From stdpp Require Import base tactics numbers gmap strings option.
From stdpp Require Import list relations.
From S2P Require Import Prelude Wire Float64 Errors VmHealth Types RaftCodec IpPool Proposals Codecs Database StateMachine RaftCore.
From S2P Require Import Scheduler VmRecovery VmBackend NodeShared VmManager.

Open Scope Z_scope.

(** * Configuration *)

Record HealthCheckSchedulerConfig : Type := mkSchedulerConfig {
  check_interval : Z;
  max_concurrent_checks : Z;
  health_check_timeout : Z;
  enable_process_checks : bool;
  enable_detailed_checks : bool
}.

Definition default_scheduler_config : HealthCheckSchedulerConfig :=
  mkSchedulerConfig (30 * 1000000000) 10 (10 * 1000000000) true true.

(** * The backend's part *)

(** The health methods of the backend interface. *)
Class HealthBackend (B : Type) : Type := {
  hb_perform_health_check : CallEnv -> string -> string -> HealthCheckType -> st (Host B) BlixardError HealthCheckResult;
  hb_update_vm_health_status : string -> VmHealthStatus -> st (Host B) BlixardError unit
}.

(** The methods with a body of their own in the trait. *)
Definition default_perform_health_check {B} (_ : CallEnv) (_vm_name _check_name : string) (_ : HealthCheckType)
    : st (Host B) BlixardError HealthCheckResult :=
  sfail (NotImplemented "Health check type").
Definition default_update_vm_health_status {B} (_vm_name : string) (_ : VmHealthStatus) : st (Host B) BlixardError unit :=
  sret tt.

#[export] Instance mock_health : HealthBackend MockVmBackend := {
  hb_perform_health_check := default_perform_health_check;
  hb_update_vm_health_status := default_update_vm_health_status
}.

(** * A cycle *)

(** How a check ends: within its time, or not, after or before the backend had
    done its work. *)
Inductive check_fate : Type := Answered | TimedOut (worked : bool).

Record CheckEnv : Type := mkCheckEnv {
  ce_call : CallEnv;
  ce_fate : check_fate;
  ce_elapsed_ms : Z;
  ce_unix_secs : Z
}.

(** What one turn of the cycle, for one VM, meets. *)
Record TurnEnv : Type := mkTurnEnv {
  te_node_read : read_fault;
  te_status_read : read_fault;
  te_recovery : RecoveryEnv;
  te_checks : nat -> CheckEnv;
  te_now : Z
}.

Record HealthWorld (B Bd : Type) `{IpNetLib} : Type := mkHealthWorld {
  hw_manager : VmManager B Bd;
  hw_recovery : VmAutoRecovery
}.
Arguments mkHealthWorld {B Bd _} hw_manager hw_recovery.
Arguments hw_manager {B Bd _} h.
Arguments hw_recovery {B Bd _} h.

(** [as_millis() as u64] of a duration in nanoseconds. *)
Definition as_millis_u64 (d : Z) : Z := wrap_u 64 (d / 1000000).

Section Cycle.
Context {B Bd : Type} `{Profile} `{IpNetLib} `{HashIter} `{VmBackend B} `{HealthBackend B} `{Codec VmState}.
Context `{Codec VmConfig} `{Codec WorkerCapabilities} `{Codec WorkerStatus} (string_hash : string -> Z).

Definition cycle (A : Type) : Type := st (HealthWorld B Bd) stop A.

Definition world_db (w : HealthWorld B Bd) : Database := host_db (vm_host (hw_manager w)).

Definition set_hw_manager (m : VmManager B Bd) (w : HealthWorld B Bd) : HealthWorld B Bd := mkHealthWorld m (hw_recovery w).
Definition set_hw_recovery (r : VmAutoRecovery) (w : HealthWorld B Bd) : HealthWorld B Bd := mkHealthWorld (hw_manager w) r.

Definition on_backend {A} (m : st (Host B) BlixardError A) : st (HealthWorld B Bd) BlixardError A :=
  fun w => let '(o, h) := m (vm_host (hw_manager w)) in (o, set_hw_manager (set_vm_host h (hw_manager w)) w).

(** An error that is only logged; a task that waits for ever does not go on. *)
Definition try_recovery (env : RecoveryEnv) (c : VmConfig) : cycle unit := fun w =>
  let '(o, r) := trigger_recovery string_hash env (vm_name c) c (hw_recovery w) in
  (match o with Err Blocks => Err Blocks | Panic => Panic | _ => Ok tt end, set_hw_recovery r w).

Definition get_vm_node_id (f : read_fault) (name : string) (n : SharedNodeState Bd) : BlixardResult (option Z) :=
  match n_database n with
  | None => Err (Internal "Database not initialized")
  | Some db =>
      match f with
      | ReadBeginFails => Err StorageTransactionError
      | ReadOpenFails | ReadFails => Err storage_error
      | ReadFine =>
          match strs db VM_STATE_TABLE !! name with
          | Some data => let? v := ok_or SerializationError (de data) in Ok (Some (vs_node_id v))
          | None => Ok None
          end
      end
  end.

(** The result recorded for a check that gave none. *)
Definition failed_check (name : string) (duration secs : Z) : HealthCheckResult :=
  mkCheckResult name false duration secs Quick false None.

Definition run_check (config : HealthCheckSchedulerConfig) (env : CheckEnv) (vm : string) (check : HealthCheck)
    : st (HealthWorld B Bd) BlixardError HealthCheckResult := fun w =>
  let call := on_backend (hb_perform_health_check (ce_call env) vm (hc_name check) (check_type check)) in
  match ce_fate env with
  | Answered =>
      match call w with
      | (Ok r, w') => (Ok r, w')
      | (Err _, w') => (Ok (failed_check (hc_name check) (wrap_u 64 (ce_elapsed_ms env)) (ce_unix_secs env)), w')
      | (Panic, w') => (Panic, w')
      end
  | TimedOut worked =>
      (Ok (failed_check (hc_name check) (as_millis_u64 (health_check_timeout config)) (ce_unix_secs env)),
       if worked then snd (call w) else w)
  end.

Fixpoint run_checks (config : HealthCheckSchedulerConfig) (envs : nat -> CheckEnv) (vm : string) (l : list HealthCheck)
    : st (HealthWorld B Bd) BlixardError (list HealthCheckResult) :=
  match l with
  | [] => sret []
  | check :: l' =>
      let* r := run_check config (envs (length l')) vm check in
      let* rs := run_checks config envs vm l' in
      sret (r :: rs)
  end.

Definition perform_vm_health_checks (config : HealthCheckSchedulerConfig) (env : TurnEnv) (c : VmConfig)
    : st (HealthWorld B Bd) BlixardError VmHealthStatus :=
  match health_check_config c with
  | None => sret default_health_status
  | Some health_config =>
      let* rs := run_checks config (te_checks env) (vm_name c) (checks health_config) in
      slift (update_state health_config (te_now env) (calculate_score (with_results rs default_health_status)))
  end.

Definition is_unhealthy (s : HealthState) : bool :=
  match s with Unhealthy | Unresponsive => true | _ => false end.

(** The detailed checks of a running VM; an error of them is logged. *)
Definition detailed_checks (config : HealthCheckSchedulerConfig) (env : TurnEnv) (c : VmConfig) : cycle unit := fun w =>
  match perform_vm_health_checks config env c w with
  | (Ok status, w1) =>
      ((if is_unhealthy (state status) && (3 <=? consecutive_failures status) then try_recovery (te_recovery env) c else sret tt) ;*
       fun w2 =>
         match on_backend (hb_update_vm_health_status (vm_name c) status) w2 with
         | (Panic, w3) => (Panic, w3)
         | (_, w3) => (Ok tt, w3)
         end) w1
  | (Err _, w1) => (Ok tt, w1)
  | (Panic, w1) => (Panic, w1)
  end.

Definition returned {A} (m : BlixardResult A) : outcome stop A :=
  match m with Ok a => Ok a | Err e => Err (Returned e) | Panic => Panic end.

(** The turn of one VM of the list. *)
Definition check_vm (config : HealthCheckSchedulerConfig) (env : TurnEnv) (vm : VmConfig * VmStatus) : cycle unit :=
  let '(c, stored_status) := vm in
  let* w := sget in
  match get_vm_node_id (te_node_read env) (vm_name c) (vm_node (hw_manager w)) with
  | Ok (Some vm_node_id) =>
      if negb (vm_node_id =? n_id (vm_node (hw_manager w))) then sret tt
      else if negb (enable_process_checks config) && negb (enable_detailed_checks config) then sret tt
      else
        let* row := slift (returned (read_vm_row (te_status_read env) (vm_name c) (world_db w))) in
        let process_status := match row with Some v => vs_status v | None => Failed end in
        if enable_process_checks config && negb (bool_decide (process_status = Running)) then
          if bool_decide (stored_status = Running) then
            signore (fun w => let '(o, n) := update_vm_status_through_raft (vm_name c) (vm_status_debug process_status) (vm_node (hw_manager w)) in
                      (returned o, set_hw_manager (set_vm_node n (hw_manager w)) w)) ;*
            try_recovery (te_recovery env) c
          else sret tt
        else if enable_detailed_checks config && bool_decide (process_status = Running) then detailed_checks config env c
        else sret tt
  | Panic => spanic
  | _ => sret tt
  end.

(** [turns]: what each turn meets, and what other tasks did before it. *)
Fixpoint check_vms (config : HealthCheckSchedulerConfig) (turns : nat -> TurnEnv * (HealthWorld B Bd -> HealthWorld B Bd))
    (l : list (VmConfig * VmStatus)) : cycle unit :=
  match l with
  | [] => sret tt
  | vm :: l' =>
      smodify (snd (turns (length l'))) ;*
      check_vm config (fst (turns (length l'))) vm ;*
      check_vms config turns l'
  end.

Definition run_health_check_cycle (config : HealthCheckSchedulerConfig) (f : read_fault)
    (turns : nat -> TurnEnv * (HealthWorld B Bd -> HealthWorld B Bd)) : cycle unit :=
  let* w := sget in
  let* vms := slift (returned (read_vm_list f (world_db w))) in
  check_vms config turns vms.

End Cycle.

(** * What a cycle does *)

(** Health methods that do not write the table of VMs, which only the state
    machine does. *)
Class HealthQuiet (B : Type) `{HealthBackend B} : Prop := {
  perform_quiet env vm check type h o h' :
    hb_perform_health_check env vm check type h = (o, h') -> strs (host_db h') VM_STATE_TABLE = strs (host_db h) VM_STATE_TABLE;
  update_quiet vm status h o h' :
    hb_update_vm_health_status vm status h = (o, h') -> strs (host_db h') VM_STATE_TABLE = strs (host_db h) VM_STATE_TABLE
}.

#[export] Instance mock_health_quiet : HealthQuiet MockVmBackend.
Proof. split; intros *; cbn; by intros [= _ <-]. Qed.

Section Properties.
Context {B Bd : Type} `{Profile} `{IpNetLib} `{HashIter} `{VmBackend B} `{HealthBackend B} `{!HealthQuiet B} `{Codec VmState}.
Context `{Codec VmConfig} `{Codec WorkerCapabilities} `{Codec WorkerStatus} (string_hash : string -> Z).
Abbreviation World := (HealthWorld B Bd).

Definition world_rows (w : World) : gmap string bytes := strs (world_db w) VM_STATE_TABLE.

(** The recovery is not touched, nor are the rows of the VMs. *)
Definition no_recovery (w w' : World) : Prop :=
  hw_recovery w' = hw_recovery w /\ world_rows w' = world_rows w.

#[local] Instance no_recovery_preorder : PreOrder no_recovery.
Proof. split; [done|]. intros x y z [? ?] [? ?]. split; congruence. Qed.

Lemma on_backend_quiet {A} (m : st (Host B) BlixardError A) :
  (forall h o h', m h = (o, h') -> strs (host_db h') VM_STATE_TABLE = strs (host_db h) VM_STATE_TABLE) ->
  moves no_recovery (on_backend (Bd:=Bd) m).
Proof.
  intros Hm w o w'. unfold on_backend. destruct (m (vm_host (hw_manager w))) as [o1 h1] eqn:E. intros [= <- <-].
  split; [done|]. by apply Hm in E.
Qed.

Lemma run_check_quiet config env vm check : moves no_recovery (run_check (B:=B) (Bd:=Bd) config env vm check).
Proof.
  intros w o w'. unfold run_check.
  pose proof (on_backend_quiet (hb_perform_health_check (ce_call env) vm (hc_name check) (check_type check)) ltac:(intros; by eapply perform_quiet)) as Hq.
  destruct (on_backend _ w) as [o1 w1] eqn:E. apply Hq in E.
  destruct (ce_fate env) as [|[]]; [destruct o1|..]; by intros [= <- <-].
Qed.

Lemma run_checks_quiet config envs vm l : moves no_recovery (run_checks (B:=B) (Bd:=Bd) config envs vm l).
Proof.
  induction l as [|check l IH]; cbn [run_checks]; [apply moves_ret; typeclasses eauto|].
  moves_seq; [apply run_check_quiet|]. intros r. moves_seq; [done|]. intros. apply moves_ret; typeclasses eauto.
Qed.

(** A status starts afresh in every cycle, so it counts at most one failure. *)
Lemma fresh_status_failures config env c (w : World) status w' :
  perform_vm_health_checks config env c w = (Ok status, w') -> no_recovery w w' /\ consecutive_failures status <= 1.
Proof.
  unfold perform_vm_health_checks. destruct (health_check_config c) as [hc|]; [|by intros [= <- <-]].
  intros (rs & w1 & E & Hu)%sbind_ok_inv. apply run_checks_quiet in E. unfold slift in Hu.
  injection Hu as Hu <-. split; [done|]. unfold update_state in Hu. apply obind_ok in Hu as (t & _ & Hu).
  destruct (bool_decide _); apply obind_ok in Hu as (f & Hf & [= <-]); cbn; [lia|].
  cbn in Hf. rewrite arith_u_fits in Hf by lia. injection Hf as <-. lia.
Qed.
Lemma check_detailed_quiet config env c : moves no_recovery (detailed_checks (B:=B) (Bd:=Bd) string_hash config env c).
Proof.
  intros w o w'. unfold detailed_checks. destruct (perform_vm_health_checks config env c w) as [[status|e|] w1] eqn:E.
  - apply fresh_status_failures in E as [Hq Hf]. rewrite (proj2 (Z.leb_gt _ _)) by lia. rewrite andb_false_r. unfold sbind, sret.
    pose proof (on_backend_quiet (hb_update_vm_health_status (vm_name c) status) ltac:(intros; by eapply update_quiet)) as Hb.
    destruct (on_backend _ w1) as [o2 w2] eqn:E2. apply Hb in E2. destruct o2; intros [= _ <-]; by transitivity w1.
  - intros [= _ <-]. revert E. unfold perform_vm_health_checks. destruct (health_check_config c); [|done].
    intros [(rs & w2 & E & Hu)|(_ & o1 & E & _)]%sbind_inv; apply run_checks_quiet in E; [|done]. by injection Hu as _ <-.
  - intros [= _ <-]. revert E. unfold perform_vm_health_checks. destruct (health_check_config c); [|done].
    intros [(rs & w2 & E & Hu)|(_ & o1 & E & _)]%sbind_inv; apply run_checks_quiet in E; [|done]. by injection Hu as _ <-.
Qed.

(** The row of a listed VM. *)
Definition listed_in (rows : gmap string bytes) (vm : VmConfig * VmStatus) : Prop :=
  exists b v, rows !! vm_name vm.1 = Some b /\ de b = Some v /\ vs_status v = vm.2.

Lemma check_vm_quiet config env vm (w : World) o w' :
  listed_in (world_rows w) vm -> te_status_read env = ReadFine ->
  check_vm string_hash config env vm w = (o, w') -> no_recovery w w'.
Proof.
  destruct vm as [c stored]. intros (b & v & Hb & Hv & Hs) Hr. cbn [fst snd] in *. unfold check_vm, sbind at 1, sget.
  destruct (get_vm_node_id _ _ _) as [[id|]| |]; try (by intros [= _ <-]). destruct (negb (id =? _)); [by intros [= _ <-]|].
  destruct (negb _ && negb _); [by intros [= _ <-]|]. rewrite Hr. unfold read_vm_row. unfold world_rows in Hb. rewrite Hb, Hv. cbn [ok_or obind returned].
  unfold sbind at 1, slift. rewrite Hs. destruct (decide (stored = Running)) as [->|Hne].
  - rewrite bool_decide_true by done. cbn [negb]. rewrite andb_false_r. destruct (_ && true); [apply check_detailed_quiet|by intros [= _ <-]].
  - rewrite bool_decide_false by done. cbn [negb]. destruct (_ && true); [by intros [= _ <-]|]. rewrite andb_false_r. by intros [= _ <-].
Qed.

Lemma check_vms_quiet config turns l (w : World) o w' :
  Forall (listed_in (world_rows w)) l ->
  (forall k, te_status_read (fst (turns k)) = ReadFine) -> (forall k x, no_recovery x (snd (turns k) x)) ->
  check_vms string_hash config turns l w = (o, w') -> no_recovery w w'.
Proof.
  intros Hl Hr Hq. revert w Hl. induction l as [|vm l IH]; intros w Hl; cbn [check_vms]; [by intros [= _ <-]|].
  apply Forall_cons in Hl as [Hvm Hl]. pose proof (Hq (length l) w) as Hw1. unfold sbind at 1, smodify. set (w1 := snd (turns (length l)) w) in *.
  intros [(u & w2 & E & E2)|(_ & o1 & E & _)]%sbind_inv; (apply check_vm_quiet in E as Hw2; [|by rewrite (proj2 Hw1)|done]); [|by transitivity w1].
  transitivity w1; [done|]. transitivity w2; [done|]. apply (IH w2); [|done]. by rewrite (proj2 Hw2), (proj2 Hw1).
Qed.

Lemma listed_rows f (db : Database) l :
  rows_wf db -> read_vm_list f db = Ok l -> Forall (listed_in (strs db VM_STATE_TABLE)) l.
Proof.
  intros Hwf. destruct f; cbn; [|done|by intros [= <-]|done]. intros Hl. apply otraverse_ok in Hl.
  assert (Hrows : Forall (fun kb : string * bytes => strs db VM_STATE_TABLE !! kb.1 = Some kb.2) (vm_rows db)).
  { apply Forall_forall. intros [k b] Hk. by apply elem_of_hash_iter. }
  revert Hrows. induction Hl as [|[k b] vm rows l E Hl IH]; intros Hrows; [constructor|]. apply Forall_cons in Hrows as [Hk Hrows].
  constructor; [|by apply IH]. cbn in *. destruct (de b) as [v|] eqn:Ed; [|done]. injection E as <-.
  exists b, v. cbn. destruct (Hwf k b v Hk Ed) as [_ ->]. done.
Qed.

(** The health checks never recover a VM: as long as the table of VMs can be
    read and is not changed during the cycle, no cycle touches the automatic
    recovery, whatever the processes of the VMs do and whatever the configured
    checks answer.  The status of a process is read from the same table it is
    compared with, and the failures of the detailed checks are counted from zero
    in every cycle. *)
Theorem health_cycle_never_recovers config f turns (w : World) o w' :
  rows_wf (world_db w) ->
  (forall k, te_status_read (fst (turns k)) = ReadFine) -> (forall k x, no_recovery x (snd (turns k) x)) ->
  run_health_check_cycle string_hash config f turns w = (o, w') -> hw_recovery w' = hw_recovery w.
Proof.
  intros Hwf Hr Hq. unfold run_health_check_cycle, sbind at 1, sget.
  destruct (read_vm_list f (world_db w)) as [l| |] eqn:El; [|by intros [= _ <-]..].
  unfold sbind, slift. cbn [returned]. intros E. by apply check_vms_quiet in E as [? _]; [|apply (listed_rows f)|..].
Qed.

(** A failure to read the table counts as the death of the VM: when the row of
    a VM that is recorded as running cannot be read, the recovery of the VM is
    started, although its process was never asked about. *)
Theorem read_failure_starts_recovery config env c (w : World) :
  enable_process_checks config = true -> (te_status_read env = ReadOpenFails \/ te_status_read env = ReadFails) ->
  get_vm_node_id (te_node_read env) (vm_name c) (vm_node (hw_manager w)) = Ok (Some (n_id (vm_node (hw_manager w)))) ->
  hw_recovery (snd (check_vm string_hash config env (c, Running) w)) =
    snd (trigger_recovery string_hash (te_recovery env) (vm_name c) c (hw_recovery w)).
Proof.
  intros Hp Hr Hn. unfold check_vm, sbind at 1, sget. rewrite Hn, Z.eqb_refl, Hp. cbn [negb andb].
  assert (Hrow : read_vm_row (te_status_read env) (vm_name c) (world_db w) = Ok None) by (by destruct Hr as [-> | ->]).
  unfold sbind, slift. rewrite Hrow. cbn [returned]. rewrite bool_decide_false by done. cbn [negb andb].
  rewrite bool_decide_true by done. unfold signore. cbn. unfold try_recovery. cbn. by destruct (trigger_recovery _ _ _ _ _).
Qed.

(** One row that cannot be decoded stops the checks of every VM: the cycle
    ends with the error before the first of them. *)
Theorem undecodable_row_stops_checks config turns (w : World) k b :
  world_rows w !! k = Some b -> de (A:=VmState) b = None ->
  run_health_check_cycle string_hash config ReadFine turns w = (Err (Returned SerializationError), w).
Proof.
  intros Hk Hb. unfold run_health_check_cycle, sbind at 1, sget, sbind, slift.
  assert (Hl : read_vm_list ReadFine (world_db w) = Err SerializationError); [|by rewrite Hl].
  cbn. assert (Hin : (k, b) ∈ vm_rows (world_db w)) by (by apply elem_of_hash_iter). revert Hin.
  induction (vm_rows (world_db w)) as [|[k' b'] l IH]; [by intros ?%elem_of_nil|]. cbn [otraverse].
  intros [[= <- <-]|Hin]%elem_of_cons; [by rewrite Hb|]. destruct (de b'); [|done]. cbn. by rewrite (IH Hin).
Qed.

End Properties.

(** * Witnesses *)

#[local] Instance demo_profile : Profile := true.
#[local] Instance demo_net : IpNetLib := {| IpNet := unit; net_contains := fun _ _ => true |}.
#[local] Existing Instance canonical_iter.
#[local] Existing Instance wire_codec.
#[local] Existing Instance wire_codec_ok.

(** Node 2, whose machine "web" is recorded as running and does not run. *)
Definition demo_health_world : HealthWorld MockVmBackend unit :=
  mkHealthWorld (mkVmManager (mkHost (mkMock {["web" := (Stopped, 0)]}) demo_db) (NodeShared.set_database (Some demo_db) (node_new 2 None)) [])
    (recovery_new 2 None default_recovery_policy).

Definition demo_turn (f : read_fault) : TurnEnv :=
  mkTurnEnv ReadFine f (mkRecoveryEnv 0 0 0 (Some (Ok tt))) (fun _ => mkCheckEnv (mkCallEnv 0 ReadFine) Answered 5 0) 0.

Lemma health_cycle_never_recovers_witness :
  hw_recovery (snd (run_health_check_cycle (fun _ => 0) default_scheduler_config ReadFine (fun _ => (demo_turn ReadFine, fun w => w)) demo_health_world)) =
  recovery_new 2 None default_recovery_policy.
Proof.
  apply (health_cycle_never_recovers (fun _ => 0) default_scheduler_config ReadFine (fun _ => (demo_turn ReadFine, fun w => w)) demo_health_world
    (fst (run_health_check_cycle (fun _ => 0) default_scheduler_config ReadFine (fun _ => (demo_turn ReadFine, fun w => w)) demo_health_world))).
  - exact demo_db_wf.
  - reflexivity.
  - intros k x. split; reflexivity.
  - apply surjective_pairing.
Defined.

Lemma read_failure_starts_recovery_witness :
  hw_recovery (snd (check_vm (fun _ => 0) default_scheduler_config (demo_turn ReadFails) (demo_config "web", Running) demo_health_world)) =
  snd (trigger_recovery (fun _ => 0) (mkRecoveryEnv 0 0 0 (Some (Ok tt))) "web" (demo_config "web") (recovery_new 2 None default_recovery_policy)).
Proof.
  apply (read_failure_starts_recovery (fun _ => 0) default_scheduler_config (demo_turn ReadFails) (demo_config "web") demo_health_world);
    [reflexivity|right; reflexivity|vm_compute; reflexivity].
Defined.

Lemma undecodable_row_stops_checks_witness :
  let w := set_hw_manager (mkVmManager (mkHost mock_new (set_strs VM_STATE_TABLE {["bad" := []]} empty_database)) (node_new 2 None) []) demo_health_world in
  run_health_check_cycle (fun _ => 0) default_scheduler_config ReadFine (fun _ => (demo_turn ReadFine, fun w => w)) w =
    (Err (Returned SerializationError), w).
Proof.
  apply (undecodable_row_stops_checks (fun _ => 0) default_scheduler_config (fun _ => (demo_turn ReadFine, fun w => w)) _ "bad" []);
    vm_compute; reflexivity.
Defined.
