(* ===== verification/HealthState.v ===== *)
(** The store of the health of VMs (blixard-core/src/vm_health_state_manager.rs): the
    checks configured for a VM, its last status and whether it is monitored.

    The task that cleans up old statuses makes a manager of its own, and so has
    maps of its own; the model has both.  Persisting a status is a call of the
    backend.  Times are nanoseconds, system times count from the Unix epoch. *)

From Stdlib Require Import ZArith Lia List.
From stdpp Require Import base tactics numbers gmap strings option.
From stdpp Require Import list relations.
From S2P Require Import Prelude Errors VmHealth VmBackend HealthScheduler.

Open Scope Z_scope.

(** * State *)

Record HealthStateManagerConfig : Type := mkStateConfig {
  max_state_age : Z;
  cleanup_interval : Z;
  max_results_per_vm : Z;
  enable_persistence : bool
}.

Definition default_state_config : HealthStateManagerConfig :=
  mkStateConfig (24 * 3600 * 1000000000) (3600 * 1000000000) 50 false.

Record HealthMaps : Type := mkHealthMaps {
  health_configs : gmap string VmHealthCheckConfig;
  health_statuses : gmap string VmHealthStatus;
  monitoring_enabled : gmap string bool
}.

Definition empty_maps : HealthMaps := mkHealthMaps ∅ ∅ ∅.

(** [cleaner]: the maps of the manager the cleanup task has made for itself, while
    the task runs. *)
Record HealthStateManager : Type := mkStateManager {
  hsm_config : HealthStateManagerConfig;
  maps : HealthMaps;
  cleaner : option HealthMaps;
  hsm_running : bool
}.

Definition state_manager_new (config : HealthStateManagerConfig) : HealthStateManager :=
  mkStateManager config empty_maps None false.

Definition set_maps (m : HealthMaps) (s : HealthStateManager) : HealthStateManager :=
  mkStateManager (hsm_config s) m (cleaner s) (hsm_running s).
Definition set_cleaner (c : option HealthMaps) (s : HealthStateManager) : HealthStateManager :=
  mkStateManager (hsm_config s) (maps s) c (hsm_running s).
Definition set_hsm_running (b : bool) (s : HealthStateManager) : HealthStateManager :=
  mkStateManager (hsm_config s) (maps s) (cleaner s) b.
Definition set_configs (x : gmap string VmHealthCheckConfig) (m : HealthMaps) : HealthMaps :=
  mkHealthMaps x (health_statuses m) (monitoring_enabled m).
Definition set_statuses (x : gmap string VmHealthStatus) (m : HealthMaps) : HealthMaps :=
  mkHealthMaps (health_configs m) x (monitoring_enabled m).
Definition set_enabled (x : gmap string bool) (m : HealthMaps) : HealthMaps :=
  mkHealthMaps (health_configs m) (health_statuses m) x.

(** * Operations *)

Definition get_health_status (vm : string) (s : HealthStateManager) : option VmHealthStatus :=
  health_statuses (maps s) !! vm.

Definition list_health_checks (vm : string) (s : HealthStateManager) : list HealthCheck :=
  from_option checks [] (health_configs (maps s) !! vm).

Definition is_monitoring_enabled (vm : string) (s : HealthStateManager) : bool :=
  default true (monitoring_enabled (maps s) !! vm).

Definition check_exists (vm check_name : string) : BlixardError :=
  ServiceAlreadyExists ("Health check '" +:+ check_name +:+ "' already exists for VM '" +:+ vm +:+ "'").

Definition no_checks (vm : string) : BlixardError :=
  NotFound ("VM '" +:+ vm +:+ "' has no health checks configured").

Section Operations.
Context {B : Type} `{HealthBackend B}.

Definition hsm (A : Type) : Type := st (HealthStateManager * Host B) BlixardError A.

Definition on_maps (f : HealthMaps -> HealthMaps) : hsm unit := smodify (fun '(s, h) => (set_maps (f (maps s)) s, h)).

(** An error of the backend is logged. *)
Definition persist_health_status (vm : string) (status : VmHealthStatus) : hsm unit := fun '(s, h) =>
  match hb_update_vm_health_status vm status h with
  | (Panic, h') => (Panic, (s, h'))
  | (_, h') => (Ok tt, (s, h'))
  end.

Definition update_health_status (vm : string) (status : VmHealthStatus) : hsm unit :=
  let* w := sget in
  let s := fst w in
  let statuses := health_statuses (maps s) in
  let full := (max_results_per_vm (hsm_config s) <=? Z.of_nat (size statuses)) && negb (bool_decide (is_Some (statuses !! vm))) in
  if bool_decide (is_Some (statuses !! vm)) && full then sret tt
  else
    on_maps (set_statuses (<[vm := status]> statuses)) ;*
    if enable_persistence (hsm_config s) then persist_health_status vm status else sret tt.

Definition add_check (check : HealthCheck) (c : VmHealthCheckConfig) : VmHealthCheckConfig :=
  mkHealthConfig (checks c ++ [check]) (check_interval_secs c) (failure_threshold c) (success_threshold c) (initial_delay_secs c).

(** The default configuration is stored also when the check is refused. *)
Definition add_health_check (vm : string) (check : HealthCheck) : hsm unit :=
  let* w := sget in
  let config := default default_health_config (health_configs (maps (fst w)) !! vm) in
  on_maps (fun m => set_configs (<[vm := config]> (health_configs m)) m) ;*
  if existsb (fun c => String.eqb (hc_name c) (hc_name check)) (checks config) then sfail (check_exists vm (hc_name check))
  else
    on_maps (fun m => set_configs (<[vm := add_check check config]> (health_configs m)) m) ;*
    on_maps (fun m => set_enabled (<[vm := true]> (monitoring_enabled m)) m).

Definition keep_checks (check_name : string) (c : VmHealthCheckConfig) : VmHealthCheckConfig :=
  mkHealthConfig (List.filter (fun x => negb (String.eqb (hc_name x) check_name)) (checks c))
    (check_interval_secs c) (failure_threshold c) (success_threshold c) (initial_delay_secs c).

Definition remove_health_check (vm check_name : string) : hsm unit :=
  let* w := sget in
  match health_configs (maps (fst w)) !! vm with
  | Some config => on_maps (fun m => set_configs (<[vm := keep_checks check_name config]> (health_configs m)) m)
  | None => sfail (no_checks vm)
  end.

Definition toggle_monitoring (vm : string) (enable : bool) : hsm unit :=
  on_maps (fun m => set_enabled (<[vm := enable]> (monitoring_enabled m)) m).

End Operations.

(** * Cleaning up *)

(** [Duration::from_secs(u64::MAX / 2)] *)
Definition very_old : Z := (u64_max / 2) * 1000000000.

(** The age of a status; [UNIX_EPOCH + duration] panics when it is no system time. *)
Definition status_age (now : Z) (status : VmHealthStatus) : BlixardResult Z :=
  match last_healthy_at_secs status with
  | Some at_secs =>
      let secs := wrap_u 64 at_secs in
      if secs <? 2 ^ 63 then Ok (sat_sub now (secs * 1000000000)) else Panic
  | None => Ok very_old
  end.

(** The name of a status older than [max_age]. *)
Definition mark (now max_age : Z) (x : string * VmHealthStatus) : BlixardResult (option string) :=
  let '(vm, status) := x in let? age := status_age now status in Ok (if max_age <? age then Some vm else None).

Section Cleanup.
Context `{HashIter}.

Definition cleanup_old_entries (now : Z) (config : HealthStateManagerConfig) (m : HealthMaps) : BlixardResult HealthMaps :=
  let? marks := otraverse (mark now (max_state_age config)) (hash_iter (health_statuses m)) in
  Ok (set_statuses (fold_left (fun acc vm => delete vm acc) (omap id marks) (health_statuses m)) m).

(** A tick of the cleanup task: it works on the maps the task has, and a panic
    ends the task. *)
Definition cleanup_tick (now : Z) (s : HealthStateManager) : HealthStateManager :=
  match cleaner s with
  | Some m => set_cleaner (match cleanup_old_entries now (hsm_config s) m with Ok m' => Some m' | Err _ => Some m | Panic => None end) s
  | None => s
  end.

(** * Life cycle *)

Definition start_cleanup_task (s : HealthStateManager) : HealthStateManager := set_cleaner (Some empty_maps) s.

Definition state_manager_start (s : HealthStateManager) : HealthStateManager :=
  if hsm_running s then s
  else set_hsm_running true (if 0 <? cleanup_interval (hsm_config s) / 1000000000 then start_cleanup_task s else s).

Definition state_manager_stop (s : HealthStateManager) : HealthStateManager := set_hsm_running false (set_cleaner None s).

Definition state_manager_restart (s : HealthStateManager) : HealthStateManager := state_manager_start (state_manager_stop s).

End Cleanup.

(** * Histories *)

Inductive hsm_op : Type :=
| OpUpdate (vm : string) (status : VmHealthStatus)
| OpAdd (vm : string) (check : HealthCheck)
| OpRemove (vm check_name : string)
| OpToggle (vm : string) (enable : bool)
| OpStart | OpStop | OpRestart
| OpTick (now : Z).

Section History.
Context {B : Type} `{HealthBackend B} `{HashIter}.

Definition hsm_run (w : HealthStateManager * Host B) (op : hsm_op) : HealthStateManager * Host B :=
  match op with
  | OpUpdate vm status => snd (update_health_status vm status w)
  | OpAdd vm check => snd (add_health_check vm check w)
  | OpRemove vm check_name => snd (remove_health_check vm check_name w)
  | OpToggle vm enable => snd (toggle_monitoring vm enable w)
  | OpStart => (state_manager_start (fst w), snd w)
  | OpStop => (state_manager_stop (fst w), snd w)
  | OpRestart => (state_manager_restart (fst w), snd w)
  | OpTick now => (cleanup_tick now (fst w), snd w)
  end.

Definition hsm_history (ops : list hsm_op) (w : HealthStateManager * Host B) : HealthStateManager * Host B :=
  fold_left hsm_run ops w.

End History.

(** The status of the last update of a VM, [old] when there is none. *)
Definition last_update (vm : string) (old : option VmHealthStatus) (ops : list hsm_op) : option VmHealthStatus :=
  fold_left (fun acc op => match op with OpUpdate v status => if String.eqb v vm then Some status else acc | _ => acc end) ops old.

Definition names_unique (m : HealthMaps) : Prop :=
  forall vm config, health_configs m !! vm = Some config -> NoDup (hc_name <$> checks config).

(** * Theorems *)

Section Facts.
Context {B : Type} `{HealthBackend B}.
Implicit Types (w : HealthStateManager * Host B).

(** The test for a full store asks for a VM that is stored and not stored. *)
Lemma update_maps vm status w :
  maps (fst (snd (update_health_status vm status w)))
  = set_statuses (<[vm := status]> (health_statuses (maps (fst w)))) (maps (fst w)).
Proof.
  destruct w as [s h]. unfold update_health_status, sbind, sget, on_maps, smodify. cbn [fst snd].
  replace (_ && _) with false
    by (destruct (bool_decide _); cbn; [rewrite andb_false_r|]; done).
  destruct (enable_persistence _); [|done].
  unfold persist_health_status. cbn. by destruct (hb_update_vm_health_status _ _ _) as [[] ?].
Qed.

Lemma add_statuses vm check w :
  health_statuses (maps (fst (snd (add_health_check vm check w)))) = health_statuses (maps (fst w)).
Proof. destruct w as [s h]. unfold add_health_check, sbind, sget, on_maps, smodify. cbn. by case_match. Qed.

Lemma add_configs vm check w :
  let old := default default_health_config (health_configs (maps (fst w)) !! vm) in
  health_configs (maps (fst (snd (add_health_check vm check w))))
  = <[vm := if existsb (fun c => String.eqb (hc_name c) (hc_name check)) (checks old) then old else add_check check old]>
      (health_configs (maps (fst w))).
Proof.
  destruct w as [s h]. unfold add_health_check, sbind, sget, on_maps, smodify. cbn.
  case_match; cbn; [done|]. by rewrite insert_insert_eq.
Qed.

Lemma remove_statuses vm name w :
  health_statuses (maps (fst (snd (remove_health_check vm name w)))) = health_statuses (maps (fst w)).
Proof. destruct w as [s h]. unfold remove_health_check, sbind, sget, on_maps, smodify. cbn. by case_match. Qed.

Lemma remove_configs vm name w :
  health_configs (maps (fst (snd (remove_health_check vm name w))))
  = match health_configs (maps (fst w)) !! vm with
    | Some config => <[vm := keep_checks name config]> (health_configs (maps (fst w)))
    | None => health_configs (maps (fst w))
    end.
Proof. destruct w as [s h]. unfold remove_health_check, sbind, sget, on_maps, smodify. cbn. by case_match. Qed.

Context `{HashIter}.

(** The operations of the life cycle and the ticks of the cleanup task leave the
    maps of the manager alone. *)
Lemma start_maps s : maps (state_manager_start s) = maps s.
Proof. unfold state_manager_start. by repeat case_match. Qed.

Lemma tick_maps now s : maps (cleanup_tick now s) = maps s.
Proof. unfold cleanup_tick. by repeat case_match. Qed.

Lemma run_statuses vm op w :
  health_statuses (maps (fst (hsm_run w op))) !! vm
  = last_update vm (health_statuses (maps (fst w)) !! vm) [op].
Proof.
  destruct op as [v status|v check|v name|v b| | | |now]; cbn [hsm_run last_update fold_left fst].
  - rewrite update_maps. cbn. destruct (String.eqb_spec v vm) as [->|?].
    + apply lookup_insert_eq.
    + by apply lookup_insert_ne.
  - by rewrite add_statuses.
  - by rewrite remove_statuses.
  - by destruct w.
  - by rewrite start_maps.
  - done.
  - unfold state_manager_restart. by rewrite start_maps.
  - by rewrite tick_maps.
Qed.

Lemma existsb_name name l :
  existsb (fun c => String.eqb (hc_name c) name) l = false -> name ∉ (hc_name <$> l).
Proof.
  intros Hno [c [-> Hc]]%list_elem_of_fmap.
  assert (existsb (fun x => String.eqb (hc_name x) (hc_name c)) l = true) as Hyes; [|congruence].
  apply existsb_exists. exists c. rewrite <- list_elem_of_In. by rewrite String.eqb_refl.
Qed.

Lemma add_check_unique check config :
  existsb (fun c => String.eqb (hc_name c) (hc_name check)) (checks config) = false ->
  NoDup (hc_name <$> checks config) -> NoDup (hc_name <$> checks (add_check check config)).
Proof.
  intros Hno%existsb_name Hnd. cbn. rewrite fmap_app. apply NoDup_app.
  split; [done|]. split; [|apply NoDup_singleton].
  intros x Hx ->%list_elem_of_singleton. done.
Qed.

Lemma keep_checks_unique name config :
  NoDup (hc_name <$> checks config) -> NoDup (hc_name <$> checks (keep_checks name config)).
Proof.
  cbn. induction (checks config) as [|c l IH]; cbn; [done|].
  intros [Hc Hl]%NoDup_cons. destruct (negb _); [|auto].
  cbn. apply NoDup_cons. split; [|auto].
  intros [d [Hd Hin]]%list_elem_of_fmap. apply Hc. rewrite Hd. apply list_elem_of_fmap_2.
  apply list_elem_of_In. by apply list_elem_of_In, filter_In in Hin as [? _].
Qed.

Lemma names_unique_insert vm config (m : gmap string VmHealthCheckConfig) :
  (forall v c, m !! v = Some c -> NoDup (hc_name <$> checks c)) ->
  NoDup (hc_name <$> checks config) ->
  forall v c, <[vm := config]> m !! v = Some c -> NoDup (hc_name <$> checks c).
Proof. intros Hm Hc v c [[<- <-]|[_ ?]]%lookup_insert_Some; eauto. Qed.

Lemma names_unique_old m vm :
  names_unique m -> NoDup (hc_name <$> checks (default default_health_config (health_configs m !! vm))).
Proof. intros Hm. destruct (_ !! _) eqn:E; cbn; [by eapply Hm|constructor]. Qed.

Lemma run_unique op w : names_unique (maps (fst w)) -> names_unique (maps (fst (hsm_run w op))).
Proof.
  intros Hm. pose proof (fun vm => names_unique_old _ vm Hm) as Hold. unfold names_unique.
  destruct op as [v status|v check|v name|v b| | | |now]; cbn [hsm_run fst].
  - by rewrite update_maps.
  - rewrite add_configs. apply names_unique_insert; [done|].
    case_match; [apply Hold|]. apply add_check_unique; [done|apply Hold].
  - rewrite remove_configs. case_match eqn:E; [|done].
    apply names_unique_insert; [done|]. apply keep_checks_unique. by eapply Hm.
  - by destruct w.
  - by rewrite start_maps.
  - done.
  - unfold state_manager_restart. by rewrite start_maps.
  - by rewrite tick_maps.
Qed.

(** The store only grows: whatever was done with it since it was made, the status
    it gives for a VM is the one of the last update of that VM.  The configured
    limit on the number of statuses never refuses one, and neither the cleanup
    task, a stop nor a restart ever drops one. *)
Theorem status_is_last_update config (h : Host B) ops vm :
  get_health_status vm (fst (hsm_history ops (state_manager_new config, h))) = last_update vm None ops.
Proof.
  unfold get_health_status, hsm_history, last_update.
  induction ops as [|op ops IH] using rev_ind; [done|].
  rewrite !fold_left_app. cbn [fold_left]. rewrite <- IH. apply run_statuses.
Qed.

(** C27: the checks of a VM have different names after any history: a second check
    of a name is refused, and no operation copies one. *)
Theorem check_names_unique config (h : Host B) ops vm :
  NoDup (hc_name <$> list_health_checks vm (fst (hsm_history ops (state_manager_new config, h)))).
Proof.
  assert (Hm : names_unique (maps (fst (hsm_history ops (state_manager_new config, h))))).
  { induction ops as [|op ops IH] using rev_ind; [by intros ??|].
    unfold hsm_history in *. rewrite fold_left_app. by apply run_unique. }
  unfold list_health_checks. destruct (_ !! _) eqn:E; [by eapply Hm|constructor].
Qed.

End Facts.

Section CleanupFacts.
Context `{HashIter}.

Lemma mark_ok now max_age vm status o :
  mark now max_age (vm, status) = Ok o <->
  exists age, status_age now status = Ok age /\ o = if max_age <? age then Some vm else None.
Proof.
  cbn. rewrite obind_ok. split; intros (age & Ha & Ho); exists age; (split; [done|]); congruence.
Qed.

Lemma marked_old now max_age l marks vm :
  Forall2 (fun x y => mark now max_age x = Ok y) l marks -> vm ∈ omap id marks ->
  exists status age, (vm, status) ∈ l /\ status_age now status = Ok age /\ max_age < age.
Proof.
  induction 1 as [|[v status] o l marks Hx _ IH]; [set_solver|].
  apply mark_ok in Hx as (age & Ha & ->). cbn. destruct (Z.ltb_spec max_age age); cbn.
  - intros [->|Hin]%elem_of_cons; [exists status, age; by rewrite list_elem_of_In; auto using in_eq|].
    destruct (IH Hin) as (st' & age' & ? & ?). exists st', age'. split; [by right|done].
  - intros Hin. destruct (IH Hin) as (st' & age' & ? & ?). exists st', age'. split; [by right|done].
Qed.

Lemma old_marked now max_age l marks vm status :
  Forall2 (fun x y => mark now max_age x = Ok y) l marks -> (vm, status) ∈ l ->
  exists age, status_age now status = Ok age /\ (max_age < age -> vm ∈ omap id marks).
Proof.
  induction 1 as [|[v status'] o l marks Hx _ IH]; [set_solver|].
  apply mark_ok in Hx as (age & Ha & ->). intros [[= <- <-]|Hin]%elem_of_cons.
  - exists age. split; [done|]. intros Hlt. cbn. apply Z.ltb_lt in Hlt as ->. set_solver.
  - destruct (IH Hin) as (age' & ? & Hin'). exists age'. split; [done|]. cbn.
    destruct (max_age <? age); cbn; set_solver.
Qed.

(** A cleanup that ends keeps exactly the statuses that are not older than the
    configured age. *)
Theorem cleanup_keeps_young now config m m' vm status :
  cleanup_old_entries now config m = Ok m' ->
  health_statuses m' !! vm = Some status <->
  health_statuses m !! vm = Some status /\ exists age, status_age now status = Ok age /\ age <= max_state_age config.
Proof.
  unfold cleanup_old_entries. intros (marks & Hm & [= <-])%obind_ok.
  apply (otraverse_ok (mark now (max_state_age config))) in Hm. cbn. rewrite lookup_delete_keys. case_decide as Hin.
  - destruct (marked_old _ _ _ _ _ Hm Hin) as (st' & age & Hst & Ha & Hlt). apply elem_of_hash_iter in Hst.
    split; [done|]. intros (? & age' & ? & ?). assert (st' = status) as -> by congruence.
    assert (age' = age) as -> by congruence. lia.
  - split; [|tauto]. intros Hst. split; [done|].
    destruct (old_marked _ _ _ _ vm status Hm) as (age & Ha & Hlt); [by apply elem_of_hash_iter|].
    exists age. split; [done|]. destruct (decide (max_state_age config < age)); [tauto|lia].
Qed.

End CleanupFacts.

(** * Witnesses *)

Definition healthy_at (secs : Z) : VmHealthStatus := mkHealthStatus Healthy (score default_health_status) [] (Some secs) 0 1.

Lemma cleanup_keeps_young_witness :
  exists m', cleanup_old_entries (H := canonical_iter) (100000 * 1000000000) default_state_config
    (set_statuses {["old" := healthy_at 10; "new" := healthy_at 99000]} empty_maps) = Ok m' /\
  (health_statuses m' !! "new" = Some (healthy_at 99000)) /\ health_statuses m' !! "old" = None.
Proof.
  eexists. split; [vm_compute; reflexivity|]. split; [|vm_compute; reflexivity].
  apply (cleanup_keeps_young (H := canonical_iter) (100000 * 1000000000) default_state_config
    (set_statuses {["old" := healthy_at 10; "new" := healthy_at 99000]} empty_maps)); [vm_compute; reflexivity|].
  split; [vm_compute; reflexivity|]. exists (1000 * 1000000000). split; vm_compute; congruence.
Defined.
