(* ===== verification/RecoveryCoordinator.v ===== *)
(** The coordinator of VM recoveries
    (blixard-core/src/vm_health_recovery_coordinator.rs), as a step relation.

    A call of [trigger_recovery] looks into the map of recoveries under the read
    lock and, later, writes it under the write lock and spawns a task; calls of
    several tasks interleave between the two.  The spawned tasks share the map and
    the semaphore, whose waiting tasks get permits in the order in which they
    queued.  What the recovery of a VM (VmRecovery) answers, whether it panics and
    whether its time runs out is part of the step that ends it. *)

From Stdlib Require Import ZArith Lia List.
From stdpp Require Import base tactics numbers gmap strings option.
From stdpp Require Import list relations fin_maps.
From S2P Require Import Prelude Errors VmRecovery.

Open Scope Z_scope.

(** * Data *)

Inductive RecoveryStatus : Type := RPending | RInProgress | RCompleted | RFailed | RTimedOut.

Record RecoveryOperation : Type := mkRecoveryOperation {
  ro_vm_name : string;
  ro_started_at : Z;
  ro_status : RecoveryStatus;
  ro_attempts : Z;
  ro_last_error : option string
}.

Record RecoveryCoordinatorConfig : Type := mkCoordinatorConfig {
  recovery_policy : RecoveryPolicy;
  max_concurrent_recoveries : nat;
  enable_auto_recovery : bool;
  rc_enable_migration : bool;
  recovery_timeout : Z
}.

Definition default_coordinator_config : RecoveryCoordinatorConfig :=
  mkCoordinatorConfig default_recovery_policy 3 true true (300 * 1000000000).

Definition op_live (op : RecoveryOperation) : bool :=
  match ro_status op with RPending | RInProgress => true | _ => false end.

Definition set_op_status (s : RecoveryStatus) (op : RecoveryOperation) : RecoveryOperation :=
  mkRecoveryOperation (ro_vm_name op) (ro_started_at op) s (ro_attempts op) (ro_last_error op).
Definition set_op_error (e : string) (op : RecoveryOperation) : RecoveryOperation :=
  mkRecoveryOperation (ro_vm_name op) (ro_started_at op) (ro_status op) (ro_attempts op) (Some e).
Definition set_op_attempts (n : Z) (op : RecoveryOperation) : RecoveryOperation :=
  mkRecoveryOperation (ro_vm_name op) (ro_started_at op) (ro_status op) n (ro_last_error op).

(** Where a call of [trigger_recovery], and then the task it spawns, has got to:
    it has found no recovery in progress; the task is spawned; it waits for a
    permit; it has one; it has marked the recovery as in progress and runs it; it
    has marked the end and still has its permit. *)
Inductive phase : Type := Checked | Spawned | Queued | Granted | Recovering | Marked.

Record task : Type := mkTask { task_vm : string; task_phase : phase }.

Record Coordinator : Type := mkCoordinator {
  rc_config : RecoveryCoordinatorConfig;
  permits : nat;
  queue : list nat;
  active : gmap string RecoveryOperation;
  tasks : gmap nat task
}.

Definition coordinator_new (config : RecoveryCoordinatorConfig) : Coordinator :=
  mkCoordinator config (max_concurrent_recoveries config) [] ∅ ∅.

Definition set_active (m : gmap string RecoveryOperation) (s : Coordinator) : Coordinator :=
  mkCoordinator (rc_config s) (permits s) (queue s) m (tasks s).
Definition set_tasks (t : gmap nat task) (s : Coordinator) : Coordinator :=
  mkCoordinator (rc_config s) (permits s) (queue s) (active s) t.
Definition set_permits (n : nat) (s : Coordinator) : Coordinator :=
  mkCoordinator (rc_config s) n (queue s) (active s) (tasks s).
Definition set_queue (q : list nat) (s : Coordinator) : Coordinator :=
  mkCoordinator (rc_config s) (permits s) q (active s) (tasks s).

(** * The operations on the map *)

Definition in_progress (vm : string) (s : Coordinator) : bool :=
  match active s !! vm with Some op => op_live op | None => false end.

Definition new_operation (vm : string) (now : Z) : RecoveryOperation := mkRecoveryOperation vm now RPending 0 None.

(** [attempts += 1] on a [u32]: every insert sets the count back, so it is at most the
    number of tasks alive. *)
Definition update_recovery_status (vm : string) (status : RecoveryStatus) (s : Coordinator) : Coordinator :=
  set_active (alter (fun op => set_op_attempts (ro_attempts op + 1) (set_op_status status op)) vm (active s)) s.

Definition mark_recovery_completed (vm : string) (s : Coordinator) : Coordinator :=
  set_active (alter (set_op_status RCompleted) vm (active s)) s.

Definition mark_recovery_failed (vm error : string) (s : Coordinator) : Coordinator :=
  set_active (alter (fun op => set_op_error error (set_op_status RFailed op)) vm (active s)) s.

Definition mark_recovery_timeout (vm : string) (s : Coordinator) : Coordinator :=
  set_active (alter (fun op => set_op_error "Recovery operation timed out" (set_op_status RTimedOut op)) vm (active s)) s.

Definition get_recovery_status (vm : string) (s : Coordinator) : option RecoveryOperation := active s !! vm.

Definition cleanup_completed_recoveries (s : Coordinator) : Coordinator :=
  set_active (filter (fun x => op_live (snd x) = true) (active s)) s.

(** A placeholder. *)
Definition coordinator_attempt_migration (vm : string) : BlixardResult unit := Err (NotImplemented "VM migration").

(** * The semaphore *)

(** [try_acquire]: a permit, unless there is none. *)
Definition try_acquire (s : Coordinator) : option Coordinator :=
  match permits s with O => None | S n => Some (set_permits n s) end.

(** A permit is dropped: the first task that waits gets it. *)
Definition release (s : Coordinator) : Coordinator :=
  match queue s with
  | [] => set_permits (S (permits s)) s
  | i :: q => set_queue q (set_tasks (alter (fun t => mkTask (task_vm t) Granted) i (tasks s)) s)
  end.

(** * Steps *)

Definition put_task (i : nat) (vm : string) (p : phase) (s : Coordinator) : Coordinator :=
  set_tasks (<[i := mkTask vm p]> (tasks s)) s.
Definition drop_task (i : nat) (s : Coordinator) : Coordinator := set_tasks (delete i (tasks s)) s.

(** How [auto_recovery.trigger_recovery] under its timeout ends. *)
Inductive recovery_end : Type :=
| EndOk
| EndErr (message : string)
| EndTimeout.

Definition mark_end (vm : string) (e : recovery_end) (s : Coordinator) : Coordinator :=
  match e with
  | EndOk => mark_recovery_completed vm s
  | EndErr message => mark_recovery_failed vm message s
  | EndTimeout => mark_recovery_timeout vm s
  end.

Inductive cstep (s : Coordinator) : Coordinator -> Prop :=
(** [trigger_recovery]: the test, and the write and spawn. *)
| c_check i vm :
    enable_auto_recovery (rc_config s) = true -> in_progress vm s = false -> tasks s !! i = None ->
    cstep s (put_task i vm Checked s)
| c_spawn i vm now :
    tasks s !! i = Some (mkTask vm Checked) ->
    cstep s (put_task i vm Spawned (set_active (<[vm := new_operation vm now]> (active s)) s))
(** [execute_recovery]; the semaphore is never closed. *)
| c_acquire i vm s' :
    tasks s !! i = Some (mkTask vm Spawned) -> try_acquire s = Some s' ->
    cstep s (put_task i vm Granted s')
| c_queue i vm :
    tasks s !! i = Some (mkTask vm Spawned) -> try_acquire s = None ->
    cstep s (put_task i vm Queued (set_queue (queue s ++ [i]) s))
| c_give_up i vm :
    tasks s !! i = Some (mkTask vm Queued) ->
    cstep s (drop_task i (mark_recovery_failed vm "Timeout waiting for recovery slot"
      (set_queue (List.filter (fun j => negb (Nat.eqb j i)) (queue s)) s)))
| c_begin i vm :
    tasks s !! i = Some (mkTask vm Granted) ->
    cstep s (put_task i vm Recovering (update_recovery_status vm RInProgress s))
| c_end i vm e :
    tasks s !! i = Some (mkTask vm Recovering) ->
    cstep s (put_task i vm Marked (mark_end vm e s))
| c_exit i vm :
    tasks s !! i = Some (mkTask vm Marked) -> cstep s (release (drop_task i s))
(** [cleanup_completed_recoveries] *)
| c_cleanup : cstep s (cleanup_completed_recoveries s).

(** A panic of the recovery ends the task; its permit is given back. *)
Inductive ccrash (s : Coordinator) : Coordinator -> Prop :=
| c_panic i vm : tasks s !! i = Some (mkTask vm Recovering) -> ccrash s (release (drop_task i s)).

Definition astep (s s' : Coordinator) : Prop := cstep s s' \/ ccrash s s'.

(** No two calls for one VM are between the test and the write. *)
Definition lone_callers (s : Coordinator) : Prop :=
  forall i j vm, tasks s !! i = Some (mkTask vm Checked) -> tasks s !! j = Some (mkTask vm Checked) -> i = j.

Definition lone_step (s s' : Coordinator) : Prop := astep s s' /\ lone_callers s'.

(** * Specifications *)

Definition has_permit (p : phase) : bool :=
  match p with Granted | Recovering | Marked => true | _ => false end.

(** The tasks that hold a permit, and those that recover a VM. *)
Definition holders (t : gmap nat task) : gmap nat task := filter (fun x => has_permit (task_phase (snd x)) = true) t.

Definition is_recovering (p : phase) : bool := match p with Recovering => true | _ => false end.
Definition recovering (t : gmap nat task) : gmap nat task := filter (fun x => is_recovering (task_phase (snd x)) = true) t.

(** Before the mark of the end. *)
Definition open_phase (p : phase) : bool := match p with Marked => false | _ => true end.

(** From the write to the mark of the end. *)
Definition works (p : phase) : bool := match p with Checked | Marked => false | _ => true end.

Definition queue_ok (q : list nat) (t : gmap nat task) : Prop :=
  NoDup q /\ forall i, i ∈ q <-> exists vm, t !! i = Some (mkTask vm Queued).

Definition permits_ok (s : Coordinator) : Prop :=
  (permits s + size (holders (tasks s)) = max_concurrent_recoveries (rc_config s))%nat /\ queue_ok (queue s) (tasks s).

Definition one_open (t : gmap nat task) : Prop :=
  forall i j ti tj, t !! i = Some ti -> t !! j = Some tj -> task_vm ti = task_vm tj ->
    open_phase (task_phase ti) = true -> open_phase (task_phase tj) = true -> i = j.

Definition shown (t : gmap nat task) (s : Coordinator) : Prop :=
  forall i x, t !! i = Some x -> works (task_phase x) = true -> in_progress (task_vm x) s = true.

(** One open task per VM, and the map shows the VMs that have one. *)
Definition exclusive (s : Coordinator) : Prop := one_open (tasks s) /\ shown (tasks s) s.

(** A VM whose recovery is in progress has a task that works on it. *)
Definition attended (s : Coordinator) : Prop :=
  forall vm, in_progress vm s = true -> exists i t, tasks s !! i = Some t /\ task_vm t = vm /\ works (task_phase t) = true.

(** A VM whose recovery is in progress and has no task. *)
Definition abandoned (vm : string) (s : Coordinator) : Prop :=
  in_progress vm s = true /\ forall i t, tasks s !! i = Some t -> task_vm t = vm -> task_phase t = Marked.

(** * Lemmas *)

Definition held (o : option task) : nat :=
  match o with Some t => if has_permit (task_phase t) then 1 else 0 | None => 0 end%nat.

Lemma holders_delete i t : (size (holders (delete i t)) + held (t !! i) = size (holders t))%nat.
Proof.
  unfold holders. rewrite map_filter_delete, map_size_delete.
  destruct (filter _ t !! i) as [x|] eqn:E.
  - assert (size (filter (fun y : nat * task => has_permit (task_phase y.2) = true) t) <> O)
      by (apply (map_size_ne_0_lookup_2 _ i); by rewrite E).
    apply map_lookup_filter_Some in E as [-> Hp]. cbn in Hp. cbn [held]. rewrite Hp. lia.
  - apply map_lookup_filter_None in E. destruct (t !! i) as [x|]; cbn [held]; unfold id; [|lia].
    destruct E as [?|E]; [done|]. specialize (E x eq_refl). cbn in E. destruct (has_permit _); [done|lia].
Qed.

Lemma holders_put i x t : (size (holders (<[i := x]> t)) + held (t !! i) = size (holders t) + held (Some x))%nat.
Proof.
  pose proof (holders_delete i t) as Hd. pose proof (holders_delete i (<[i:=x]> t)) as Hi.
  rewrite delete_insert_eq, lookup_insert_eq in Hi. lia.
Qed.

Lemma not_queued q t i :
  queue_ok q t -> (forall vm, t !! i <> Some (mkTask vm Queued)) -> i ∉ q.
Proof. intros [_ Hq] Hi [vm Hvm]%Hq. by eapply Hi. Qed.

Lemma queue_ok_put q t i vm p : queue_ok q t -> i ∉ q -> p <> Queued -> queue_ok q (<[i := mkTask vm p]> t).
Proof.
  intros [Hnd Hq] Hi Hp. split; [done|]. intros j. destruct (decide (i = j)) as [<-|Hne].
  - rewrite lookup_insert_eq. split; [tauto|]. intros [? [= ? ?]]. congruence.
  - rewrite lookup_insert_ne by done. apply Hq.
Qed.

Lemma queue_ok_drop q t i : queue_ok q t -> i ∉ q -> queue_ok q (delete i t).
Proof.
  intros [Hnd Hq] Hi. split; [done|]. intros j. destruct (decide (i = j)) as [<-|Hne].
  - rewrite lookup_delete_eq. split; [tauto|]. by intros [? ?].
  - rewrite lookup_delete_ne by done. apply Hq.
Qed.

Lemma queue_ok_push q t i vm : queue_ok q t -> i ∉ q -> queue_ok (q ++ [i]) (<[i := mkTask vm Queued]> t).
Proof.
  intros [Hnd Hq] Hi. split.
  - apply NoDup_app. split; [done|]. split; [|apply NoDup_singleton]. by intros x Hx ->%list_elem_of_singleton.
  - intros j. rewrite elem_of_app, list_elem_of_singleton. destruct (decide (j = i)) as [->|Hne].
    + rewrite lookup_insert_eq. split; [eauto|tauto].
    + rewrite lookup_insert_ne by done. rewrite Hq. naive_solver.
Qed.

Lemma queue_ok_pop i q t vm : queue_ok (i :: q) t -> queue_ok q (<[i := mkTask vm Granted]> t).
Proof.
  intros [[Hi Hnd]%NoDup_cons Hq]. split; [done|]. intros j. destruct (decide (j = i)) as [->|Hne].
  - rewrite lookup_insert_eq. split; [done|]. by intros [? [=]].
  - rewrite lookup_insert_ne by done. rewrite <- Hq. set_solver.
Qed.

Lemma queue_ok_remove i q t : queue_ok q t -> queue_ok (List.filter (fun j => negb (Nat.eqb j i)) q) (delete i t).
Proof.
  intros [Hnd Hq]. split.
  - apply NoDup_ListNoDup, List.NoDup_filter, NoDup_ListNoDup, Hnd.
  - intros j. rewrite list_elem_of_In, filter_In, <- list_elem_of_In, Hq, negb_true_iff, Nat.eqb_neq.
    destruct (decide (j = i)) as [->|Hne].
    + rewrite lookup_delete_eq. split; [tauto|]. by intros [? ?].
    + rewrite lookup_delete_ne by done. tauto.
Qed.

Lemma grant_put (t : gmap nat task) i vm p :
  t !! i = Some (mkTask vm p) -> alter (fun x => mkTask (task_vm x) Granted) i t = <[i := mkTask vm Granted]> t.
Proof.
  intros Hi. apply map_eq. intros j. destruct (decide (i = j)) as [<-|?].
  - by rewrite lookup_alter_eq, lookup_insert_eq, Hi.
  - by rewrite lookup_alter_ne, lookup_insert_ne.
Qed.

Lemma release_keeps_permits s :
  queue_ok (queue s) (tasks s) ->
  (permits (release s) + size (holders (tasks (release s))) = S (permits s + size (holders (tasks s))))%nat /\
  queue_ok (queue (release s)) (tasks (release s)) /\ rc_config (release s) = rc_config s.
Proof.
  intros Hq. unfold release. destruct (queue s) as [|i q] eqn:E; cbn; [split_and!; [lia|by rewrite E|done]|].
  destruct (proj1 (proj2 Hq i) ltac:(set_solver)) as [vm Hi].
  rewrite (grant_put _ _ _ _ Hi).
  pose proof (holders_put i (mkTask vm Granted) (tasks s)) as Hh. rewrite Hi in Hh. cbn in Hh.
  split_and!; [lia|by apply queue_ok_pop|done].
Qed.

Ltac off_queue Hq Hi := apply (not_queued _ _ _ Hq); let Hb := fresh in intros ? Hb; rewrite Hi in Hb; by simplify_eq.

Lemma exit_ok s i vm p :
  permits_ok s -> tasks s !! i = Some (mkTask vm p) -> has_permit p = true -> permits_ok (release (drop_task i s)).
Proof.
  intros [Hc Hq] Hi Hp.
  assert (i ∉ queue s) by (off_queue Hq Hi).
  destruct (release_keeps_permits (drop_task i s)) as (Hc' & Hq' & Hcfg); [by apply queue_ok_drop|].
  pose proof (holders_delete i (tasks s)) as Hh. rewrite Hi in Hh. cbn in Hh. rewrite Hp in Hh. cbn in Hc'.
  split; [|done]. rewrite Hcfg. cbn. lia.
Qed.

(** A task moves on without a change of the permits or of the queue. *)
Lemma move_ok s i vm p p' a :
  permits_ok s -> tasks s !! i = Some (mkTask vm p) -> has_permit p = has_permit p' -> p <> Queued -> p' <> Queued ->
  permits_ok (put_task i vm p' (set_active a s)).
Proof.
  intros [Hc Hq] Hi Hp Hn Hn'. assert (i ∉ queue s) by (off_queue Hq Hi).
  pose proof (holders_put i (mkTask vm p') (tasks s)) as Hh. rewrite Hi in Hh. cbn in Hh. rewrite Hp in Hh.
  split; [cbn; lia|by apply queue_ok_put].
Qed.

Lemma mark_end_active vm e s : exists f, mark_end vm e s = set_active (alter f vm (active s)) s /\ forall op, op_live (f op) = false.
Proof. destruct e; cbn; eexists; (split; [reflexivity|done]). Qed.

Lemma cstep_permits s s' : cstep s s' -> permits_ok s -> permits_ok s'.
Proof.
  intros Hs Hok. pose proof Hok as [Hc Hq].
  destruct Hs as [i vm _ _ Hi|i vm now Hi|i vm s' Hi Ha|i vm Hi Ha|i vm Hi|i vm Hi|i vm e Hi|i vm Hi|];
    cbn in *.
  - assert (i ∉ queue s) by (off_queue Hq Hi).
    pose proof (holders_put i (mkTask vm Checked) (tasks s)) as Hh. rewrite Hi in Hh. cbn in Hh.
    split; [cbn; lia|by apply queue_ok_put].
  - by eapply move_ok.
  - assert (i ∉ queue s) by (off_queue Hq Hi).
    unfold try_acquire in Ha. destruct (permits s) as [|n] eqn:En; [done|]. injection Ha as <-.
    pose proof (holders_put i (mkTask vm Granted) (tasks s)) as Hh. rewrite Hi in Hh. cbn in Hh.
    split; [cbn; lia|by apply queue_ok_put].
  - pose proof (holders_put i (mkTask vm Queued) (tasks s)) as Hh. rewrite Hi in Hh. cbn in Hh.
    split; [cbn; lia|]. apply queue_ok_push; [done|off_queue Hq Hi].
  - pose proof (holders_delete i (tasks s)) as Hh. rewrite Hi in Hh. cbn in Hh.
    split; [cbn; lia|by apply queue_ok_remove].
  - by eapply move_ok.
  - destruct (mark_end_active vm e s) as (f & -> & _). by eapply move_ok.
  - by eapply exit_ok.
  - done.
Qed.

Lemma new_permits config : permits_ok (coordinator_new config).
Proof.
  split; [cbn; unfold holders; rewrite map_filter_empty, map_size_empty; lia|].
  split; [constructor|]. intros i. cbn. rewrite lookup_empty. split; [set_solver|by intros [? ?]].
Qed.

Lemma reach_permits config s : rtc astep (coordinator_new config) s -> permits_ok s.
Proof.
  intros Hr. refine (rtc_invariant astep permits_ok _ _ _ Hr (new_permits config)).
  intros x y Hx [Hs|[i vm Hi]]; [by eapply cstep_permits|by eapply exit_ok].
Qed.

Lemma cstep_config s s' : astep s s' -> rc_config s' = rc_config s.
Proof.
  assert (forall x, rc_config (release x) = rc_config x) as Hr by (intros x; unfold release; by case_match).
  intros [[]|[]]; rewrite ?Hr; try done.
  - unfold try_acquire in *. by case_match; simplify_eq.
  - by destruct e.
Qed.

(** ** One task per VM *)

Lemma one_open_put t i x p :
  one_open t -> t !! i = Some x -> open_phase (task_phase x) = true -> one_open (<[i := mkTask (task_vm x) p]> t).
Proof.
  intros Ho Hx Hp j k tj tk [[<- <-]|[? Hj]]%lookup_insert_Some [[<- <-]|[? Hk]]%lookup_insert_Some Hv Hpj Hpk;
    [done|..]; cbn in *; eauto.
Qed.

Lemma one_open_delete t i : one_open t -> one_open (delete i t).
Proof. intros Ho j k tj tk [_ Hj]%lookup_delete_Some [_ Hk]%lookup_delete_Some. by eapply Ho. Qed.

Lemma works_open p : works p = true -> open_phase p = true.
Proof. by destruct p. Qed.

Lemma in_progress_alter f v vm s :
  in_progress vm (set_active (alter f v (active s)) s)
  = if decide (v = vm) then match active s !! vm with Some op => op_live (f op) | None => false end else in_progress vm s.
Proof.
  unfold in_progress. cbn. case_decide; subst; [rewrite lookup_alter_eq|by rewrite lookup_alter_ne].
  by destruct (active s !! vm).
Qed.

(** The end of task [i] shows its VM as free: no other task works on it. *)
Lemma shown_end f s i x t' :
  exclusive s -> tasks s !! i = Some x -> works (task_phase x) = true ->
  (forall j y, t' !! j = Some y -> works (task_phase y) = true -> j <> i /\ tasks s !! j = Some y) ->
  shown t' (set_active (alter f (task_vm x) (active s)) s).
Proof.
  intros [Ho Hs] Hx Hw Ht j y Hy Hwy. destruct (Ht _ _ Hy Hwy) as [Hne Hy'].
  rewrite in_progress_alter, decide_False; [by eapply Hs|].
  intros Hv. apply Hne. symmetry. by eapply Ho; eauto using works_open.
Qed.

Lemma shown_put s t i x p :
  shown t s -> t !! i = Some x -> works (task_phase x) = true -> shown (<[i := mkTask (task_vm x) p]> t) s.
Proof. intros Hs Hx Hw j y [[<- <-]|[_ Hy]]%lookup_insert_Some Hwy; [exact (Hs _ _ Hx Hw)|by eapply Hs]. Qed.

Lemma shown_delete s t i : shown t s -> shown (delete i t) s.
Proof. intros Hs j y [_ Hy]%lookup_delete_Some. by eapply Hs. Qed.

(** A task that works moves on, and keeps working. *)
Lemma exclusive_put s i vm p p' a :
  exclusive s -> tasks s !! i = Some (mkTask vm p) -> works p = true ->
  (forall v, in_progress v s = true -> in_progress v (set_active a s) = true) ->
  exclusive (put_task i vm p' (set_active a s)).
Proof.
  intros [Ho Hs] Hi Hw Ha. split.
  - by apply (one_open_put _ _ _ p' Ho Hi), works_open.
  - intros j y Hy Hwy. apply Ha. by eapply (shown_put s _ _ _ p' Hs Hi Hw).
Qed.

(** Giving a permit back moves a task that waits to one that has it. *)
Lemma release_exclusive s : queue_ok (queue s) (tasks s) -> exclusive s -> exclusive (release s).
Proof.
  intros [_ Hq] He. unfold release. destruct (queue s) as [|i q] eqn:E; [done|].
  destruct (proj1 (Hq i) ltac:(set_solver)) as [vm Hi]. rewrite (grant_put _ _ _ _ Hi).
  by apply (exclusive_put s i vm Queued Granted (active s) He Hi).
Qed.

Lemma exit_exclusive s i vm p :
  permits_ok s -> exclusive s -> tasks s !! i = Some (mkTask vm p) -> p <> Queued -> exclusive (release (drop_task i s)).
Proof.
  intros [_ Hq] [Ho Hs] Hi Hp. apply release_exclusive.
  - apply queue_ok_drop; [done|]. off_queue Hq Hi.
  - split; [by apply one_open_delete|by apply shown_delete].
Qed.

(** A new call: no open task of its VM is there, as the map shows none that works
    and there is no other call for the VM. *)
Lemma check_exclusive s i vm :
  exclusive s -> in_progress vm s = false -> lone_callers (put_task i vm Checked s) -> tasks s !! i = None ->
  exclusive (put_task i vm Checked s).
Proof.
  intros [Ho Hsh] Hno Hl Hi.
  assert (Hfree : forall k tk, tasks s !! k = Some tk -> task_vm tk = vm -> open_phase (task_phase tk) = false).
  { intros k [v p] Hk Hv. cbn in Hv. subst v. destruct (works p) eqn:Hw; [by specialize (Hsh _ _ Hk Hw); cbn in Hsh; congruence|].
    destruct p; try done. assert (i = k); [|congruence].
    apply (Hl i k vm); cbn; [by rewrite lookup_insert_eq|]. rewrite lookup_insert_ne by congruence. done. }
  unfold exclusive, put_task. cbn [tasks set_tasks]. split.
  - intros j k tj tk [[<- <-]|[? Hj]]%lookup_insert_Some [[<- <-]|[? Hk]]%lookup_insert_Some Hv Hpj Hpk; cbn in *; [done|..].
    + by rewrite (Hfree _ _ Hk) in Hpk.
    + by rewrite (Hfree _ _ Hj) in Hpj.
    + by eapply Ho.
  - intros j y [[<- <-]|[_ Hy]]%lookup_insert_Some Hw; [done|by eapply Hsh].
Qed.

Lemma cstep_exclusive s s' : cstep s s' -> lone_callers s' -> permits_ok s -> exclusive s -> exclusive s'.
Proof.
  intros Hs Hl Hok He. pose proof He as [Ho Hsh].
  destruct Hs as [i vm _ Hno Hi|i vm now Hi|i vm s' Hi Ha|i vm Hi Ha|i vm Hi|i vm Hi|i vm e Hi|i vm Hi|].
  - by apply check_exclusive.
  - split.
    + apply (one_open_put _ _ _ Spawned Ho Hi). done.
    + unfold put_task. cbn [tasks set_tasks set_active]. intros j y Hy Hw. unfold in_progress. cbn. destruct (decide (vm = task_vm y)) as [<-|Hne]; [by rewrite lookup_insert_eq|].
      rewrite lookup_insert_ne by done. apply lookup_insert_Some in Hy as [[<- <-]|[_ Hy]]; [done|by eapply Hsh].
  - unfold try_acquire in Ha. case_match; simplify_eq. by apply (exclusive_put s i vm Spawned Granted (active s) He Hi).
  - by apply (exclusive_put s i vm Spawned Queued (active s) He Hi).
  - split; [by apply one_open_delete|]. apply (shown_end _ _ _ _ _ He Hi); [done|].
    cbn. intros j y [? Hy]%lookup_delete_Some _. done.
  - apply (exclusive_put s i vm Granted Recovering _ He Hi); [done|]. intros v Hv. rewrite in_progress_alter.
    case_decide; subst; [|done]. unfold in_progress in Hv. by case_match.
  - destruct (mark_end_active vm e s) as (f & -> & _). split; [by apply (one_open_put _ _ _ Marked Ho Hi)|].
    apply (shown_end _ _ _ _ _ He Hi); [done|].
    cbn. intros j y [[<- <-]|[? Hy]]%lookup_insert_Some Hw; [done|done].
  - by eapply exit_exclusive.
  - split; [done|]. intros j y Hy Hw. specialize (Hsh _ _ Hy Hw). revert Hsh. unfold in_progress. cbn.
    destruct (active s !! task_vm y) as [op|] eqn:E; [|done]. intros Hlive.
    by rewrite (proj2 (map_lookup_filter_Some _ _ _ _) (conj E Hlive)).
Qed.

(** ** Operations in progress and their tasks *)

Definition worker (v : string) (t : gmap nat task) : Prop :=
  exists i x, t !! i = Some x /\ task_vm x = v /\ works (task_phase x) = true.

Lemma worker_other v t t' i :
  worker v t -> (forall x, t !! i = Some x -> task_vm x = v -> works (task_phase x) = false) ->
  (forall j, j <> i -> t' !! j = t !! j) -> worker v t'.
Proof.
  intros (j & x & Hx & Hv & Hw) Hi Ht. exists j, x. rewrite Ht; [done|].
  intros ->. by rewrite (Hi _ Hx Hv) in Hw.
Qed.

Lemma worker_put v t i vm p p' :
  worker v t -> t !! i = Some (mkTask vm p) -> works p' = true -> worker v (<[i := mkTask vm p']> t).
Proof.
  intros (j & x & Hx & Hv & Hw) Hi Hp. destruct (decide (j = i)) as [->|Hne].
  - exists i, (mkTask vm p'). rewrite lookup_insert_eq. by simplify_eq.
  - exists j, x. by rewrite lookup_insert_ne.
Qed.

Lemma worker_release v s : worker v (tasks s) -> worker v (tasks (release s)).
Proof.
  intros Hw. unfold release. destruct (queue s) as [|i q]; [done|]. cbn.
  destruct (tasks s !! i) as [[vm p]|] eqn:E; [rewrite (grant_put _ _ _ _ E); by eapply worker_put|].
  eapply (worker_other _ _ _ i); [done|by intros; simplify_eq|]. intros j Hj. by rewrite lookup_alter_ne.
Qed.

Lemma in_progress_end f v vm s :
  (forall op, op_live (f op) = false) -> in_progress v (set_active (alter f vm (active s)) s) = true -> vm <> v /\ in_progress v s = true.
Proof. intros Hf. rewrite in_progress_alter. case_decide; [case_match; by rewrite ?Hf|done]. Qed.

Lemma in_progress_release v s : in_progress v (release s) = in_progress v s.
Proof. unfold release. by destruct (queue s). Qed.

Lemma in_progress_cleanup v s : in_progress v (cleanup_completed_recoveries s) = in_progress v s.
Proof.
  unfold in_progress. cbn. rewrite map_lookup_filter. destruct (active s !! v) as [op|] eqn:E; [|done]. cbn.
  destruct (op_live op) eqn:El; [by rewrite option_guard_True|by rewrite option_guard_False by congruence].
Qed.

Lemma cstep_attended s s' : cstep s s' -> attended s -> attended s'.
Proof.
  intros Hs Hat v Hv. fold (worker v (tasks s')).
  destruct Hs as [i vm _ Hno Hi|i vm now Hi|i vm s' Hi Ha|i vm Hi Ha|i vm Hi|i vm Hi|i vm e Hi|i vm Hi|].
  - eapply (worker_other _ _ _ i); [by apply Hat|by rewrite Hi|]. intros j Hj. by apply lookup_insert_ne.
  - destruct (decide (vm = v)) as [->|Hne]; [by exists i, (mkTask v Spawned); cbn; rewrite lookup_insert_eq|].
    eapply (worker_other _ _ _ i); [apply Hat|..].
    + revert Hv. unfold in_progress. cbn. by rewrite lookup_insert_ne.
    + intros x Hx. by simplify_eq.
    + intros j Hj. by apply lookup_insert_ne.
  - unfold try_acquire in Ha. case_match; simplify_eq. eapply worker_put; [by apply Hat|done|done].
  - eapply worker_put; [by apply Hat|done|done].
  - apply in_progress_end in Hv as [Hne Hv]; [|done].
    eapply (worker_other _ _ _ i); [by apply Hat|by intros; simplify_eq|]. intros j Hj. cbn. by apply lookup_delete_ne.
  - destruct (decide (vm = v)) as [->|Hne]; [by exists i, (mkTask v Recovering); cbn; rewrite lookup_insert_eq|].
    eapply worker_put; [apply Hat|done|done]. revert Hv. unfold in_progress. cbn. by rewrite lookup_alter_ne.
  - destruct (mark_end_active vm e s) as (f & Hf & Hl). rewrite Hf in *. apply in_progress_end in Hv as [Hne Hv]; [|done].
    eapply (worker_other _ _ _ i); [by apply Hat|by intros; simplify_eq|]. intros j Hj. cbn. by apply lookup_insert_ne.
  - apply worker_release. eapply (worker_other _ _ _ i); [apply Hat|by intros; simplify_eq|].
    + by rewrite in_progress_release in Hv.
    + intros j Hj. by apply lookup_delete_ne.
  - apply Hat. by rewrite <- in_progress_cleanup.
Qed.

Lemma release_marked vm s :
  (forall i t, tasks s !! i = Some t -> task_vm t = vm -> task_phase t = Marked) -> queue_ok (queue s) (tasks s) ->
  forall i t, tasks (release s) !! i = Some t -> task_vm t = vm -> task_phase t = Marked.
Proof.
  intros Hm [_ Hq]. unfold release. destruct (queue s) as [|i q] eqn:E; [done|].
  destruct (proj1 (Hq i) ltac:(set_solver)) as [v Hi]. cbn. rewrite (grant_put _ _ _ _ Hi).
  intros j t [[<- <-]|[? Hj]]%lookup_insert_Some Hv; [|by eapply Hm]. by specialize (Hm _ _ Hi Hv).
Qed.

(** A task of another VM changes nothing for [vm]. *)
Lemma abandoned_put vm s i v p a :
  abandoned vm s -> v <> vm -> a !! vm = active s !! vm -> abandoned vm (put_task i v p (set_active a s)).
Proof.
  intros [Hp Hm] Hne Ha. split; [unfold in_progress; cbn; by rewrite Ha|].
  cbn. intros j t [[<- <-]|[? Hj]]%lookup_insert_Some Hv; [done|by eapply Hm].
Qed.

Lemma abandoned_not vm s i v p : abandoned vm s -> tasks s !! i = Some (mkTask v p) -> p <> Marked -> v <> vm.
Proof. intros [_ Hm] Hi Hp ->. by apply Hp, (Hm _ _ Hi). Qed.

Lemma abandoned_exit vm s i v p :
  permits_ok s -> abandoned vm s -> tasks s !! i = Some (mkTask v p) -> p <> Queued -> abandoned vm (release (drop_task i s)).
Proof.
  intros [_ Hq] [Hp Hm] Hi Hn. split; [by rewrite in_progress_release|].
  apply release_marked; cbn.
  - intros j t [_ Hj]%lookup_delete_Some. by eapply Hm.
  - apply queue_ok_drop; [done|]. off_queue Hq Hi.
Qed.

Lemma astep_abandoned vm s s' : permits_ok s -> abandoned vm s -> astep s s' -> abandoned vm s'.
Proof.
  intros Hok Hab [Hs|[i v Hi]]; [|by eapply abandoned_exit].
  pose proof (fun i v p => abandoned_not vm s i v p Hab) as Hother.
  destruct Hs as [i v _ Hno Hi|i v now Hi|i v s' Hi Ha|i v Hi Ha|i v Hi|i v Hi|i v e Hi|i v Hi|].
  - apply (abandoned_put vm s i v Checked (active s)); [done| |done]. intros ->. destruct Hab. congruence.
  - apply abandoned_put; [done|by eapply Hother|]. apply lookup_insert_ne. by eapply Hother.
  - unfold try_acquire in Ha. case_match; simplify_eq. apply (abandoned_put vm s i v Granted (active s)); [done|by eapply Hother|done].
  - apply (abandoned_put vm s i v Queued (active s)); [done|by eapply Hother|done].
  - destruct Hab as [Hp Hm]. split.
    + revert Hp. unfold in_progress. cbn. rewrite lookup_alter_ne; [done|by eapply Hother].
    + cbn. intros j t [_ Hj]%lookup_delete_Some. by eapply Hm.
  - apply abandoned_put; [done|by eapply Hother|]. apply lookup_alter_ne. by eapply Hother.
  - destruct (mark_end_active v e s) as (f & -> & _). apply abandoned_put; [done|by eapply Hother|].
    apply lookup_alter_ne. by eapply Hother.
  - by eapply abandoned_exit.
  - destruct Hab. split; [by rewrite in_progress_cleanup|done].
Qed.

(** * Theorems *)

(** C24: permits are neither lost nor made: however calls, tasks, timeouts and panics
    interleave, the free permits and the tasks that hold one add up to the
    configured limit, and so no more VMs are recovered at a time. *)
Theorem recoveries_bounded config s :
  rtc astep (coordinator_new config) s ->
  (permits s + size (holders (tasks s)) = max_concurrent_recoveries config /\
   size (recovering (tasks s)) <= max_concurrent_recoveries config)%nat.
Proof.
  intros Hr. pose proof (reach_permits _ _ Hr) as [Hc _].
  assert (rc_config s = config) as Hcfg.
  { refine (rtc_invariant astep (fun x => rc_config x = config) _ _ _ Hr eq_refl). intros x y <- ?. by apply cstep_config. }
  rewrite Hcfg in Hc. split; [done|].
  assert (size (recovering (tasks s)) <= size (holders (tasks s)))%nat; [|lia].
  apply map_subseteq_size, map_subseteq_spec. intros i t [Hi Hp]%map_lookup_filter_Some.
  apply map_lookup_filter_Some. split; [done|]. cbn in *. by destruct (task_phase t).
Qed.

(** As long as no two calls for one VM are between the test and the write, a VM
    is recovered by one task at a time, and the map shows it as in progress. *)
Theorem recoveries_exclusive config s i j vm :
  rtc lone_step (coordinator_new config) s ->
  tasks s !! i = Some (mkTask vm Recovering) -> tasks s !! j = Some (mkTask vm Recovering) ->
  i = j /\ in_progress vm s = true.
Proof.
  intros Hr Hi Hj.
  assert (permits_ok s /\ exclusive s) as [_ [Ho Hs]].
  { refine (rtc_invariant lone_step (fun x => permits_ok x /\ exclusive x) _ _ _ Hr (conj (new_permits config) _)).
    - intros x y [Hp He] [[Hc|[k v Hk]] Hl].
      + split; [by eapply cstep_permits|by eapply cstep_exclusive].
      + split; [by eapply exit_ok|by eapply exit_exclusive].
    - split; [intros i0 j0 ti tj Hx|intros i0 x Hx]; cbn in Hx; by apply lookup_empty_Some in Hx. }
  split; [by eapply Ho|by apply (Hs _ _ Hi)].
Qed.

(** An operation shown as pending or in progress has a task that works on it,
    in every run without a panic: no VM is left waiting. *)
Theorem recoveries_attended config s vm :
  rtc cstep (coordinator_new config) s -> in_progress vm s = true ->
  exists i t, tasks s !! i = Some t /\ task_vm t = vm /\ works (task_phase t) = true.
Proof.
  intros Hr. revert vm. refine (rtc_invariant cstep attended _ _ _ Hr _); [eauto using cstep_attended|done].
Qed.

(** A VM whose task panicked stays in progress for ever: every later call for it
    finds a recovery in progress and starts none, and no cleanup removes it. *)
Theorem panicked_recovery_blocks config s s' vm :
  rtc astep (coordinator_new config) s -> abandoned vm s -> rtc astep s s' ->
  in_progress vm s' = true /\ forall i, tasks s' !! i <> Some (mkTask vm Checked).
Proof.
  intros Hr Hab Hr'.
  assert (permits_ok s' /\ abandoned vm s') as [_ [Hp Hm]].
  { refine (rtc_invariant astep (fun x => permits_ok x /\ abandoned vm x) _ _ _ Hr' (conj (reach_permits _ _ Hr) Hab)).
    intros x y [Hx Ha] Hs. split; [|by eapply astep_abandoned].
    destruct Hs as [Hs|[i v Hi]]; [by eapply cstep_permits|by eapply exit_ok]. }
  split; [done|]. intros i Hi. by specialize (Hm _ _ Hi eq_refl).
Qed.

(** Two calls for one VM that both look before either writes recover the VM
    twice at the same time, whenever two recoveries may run at a time. *)
Theorem recovery_runs_twice config vm :
  enable_auto_recovery config = true -> (2 <= max_concurrent_recoveries config)%nat ->
  exists s, rtc cstep (coordinator_new config) s /\
    tasks s !! 0%nat = Some (mkTask vm Recovering) /\ tasks s !! 1%nat = Some (mkTask vm Recovering).
Proof.
  intros Hen Hmax. destruct (max_concurrent_recoveries config) as [|[|n]] eqn:Em; [lia|lia|].
  eexists. split; [|split].
  - eapply rtc_l; [apply (c_check _ 0 vm); [done|unfold in_progress; cbn; by rewrite lookup_empty|done]|].
    eapply rtc_l; [apply (c_check _ 1 vm); [done|unfold in_progress; cbn; by rewrite lookup_empty|done]|].
    eapply rtc_l; [apply (c_spawn _ 0 vm 0); done|].
    eapply rtc_l; [apply (c_spawn _ 1 vm 0); done|].
    eapply rtc_l; [eapply (c_acquire _ 0 vm); [done|unfold try_acquire; cbn; rewrite Em; reflexivity]|].
    eapply rtc_l; [eapply (c_acquire _ 1 vm); [done|unfold try_acquire; cbn; reflexivity]|].
    eapply rtc_l; [apply (c_begin _ 0 vm); done|].
    eapply rtc_l; [apply (c_begin _ 1 vm); done|].
    apply rtc_refl.
  - done.
  - done.
Qed.

(** * Witnesses *)

(** One call for the VM "web", up to the recovery. *)
Definition solo_check : Coordinator := put_task 0 "web" Checked (coordinator_new default_coordinator_config).
Definition solo_spawn : Coordinator :=
  put_task 0 "web" Spawned (set_active (<["web" := new_operation "web" 7]> (active solo_check)) solo_check).
Definition solo_granted : Coordinator := put_task 0 "web" Granted (set_permits 2 solo_spawn).
Definition solo_run : Coordinator := put_task 0 "web" Recovering (update_recovery_status "web" RInProgress solo_granted).

Lemma lone_single s t : tasks s = {[ 0%nat := t ]} -> lone_callers s.
Proof. intros E i j vm. rewrite E. intros [<- _]%lookup_singleton_Some [<- _]%lookup_singleton_Some. done. Qed.

Lemma solo_reach : rtc (fun x y => cstep x y /\ lone_callers y) (coordinator_new default_coordinator_config) solo_run.
Proof.
  apply (rtc_l _ _ solo_check); [split; [by apply c_check|by eapply lone_single]|].
  apply (rtc_l _ _ solo_spawn); [split; [by apply c_spawn|by eapply lone_single]|].
  apply (rtc_l _ _ solo_granted); [split; [by eapply c_acquire|by eapply lone_single]|].
  apply (rtc_l _ _ solo_run); [split; [by apply c_begin|by eapply lone_single]|]. apply rtc_refl.
Qed.

Lemma solo_astep : rtc astep (coordinator_new default_coordinator_config) solo_run.
Proof. eapply rtc_subrel; [|apply solo_reach]. intros x y [? _]. by left. Qed.

Lemma recoveries_bounded_witness :
  (permits solo_run + size (holders (tasks solo_run)) = 3 /\ size (recovering (tasks solo_run)) <= 3)%nat.
Proof. apply (recoveries_bounded default_coordinator_config solo_run). apply solo_astep. Defined.

Lemma recoveries_exclusive_witness : 0%nat = 0%nat /\ in_progress "web" solo_run = true.
Proof.
  apply (recoveries_exclusive default_coordinator_config solo_run 0 0 "web"); [|reflexivity|reflexivity].
  eapply rtc_subrel; [|apply solo_reach]. intros x y [? ?]. split; [by left|done].
Defined.

Lemma recoveries_attended_witness :
  exists i t, tasks solo_run !! i = Some t /\ task_vm t = "web" /\ works (task_phase t) = true.
Proof.
  apply (recoveries_attended default_coordinator_config solo_run "web"); [|reflexivity].
  eapply rtc_subrel; [|apply solo_reach]. by intros x y [? _].
Defined.

(** The recovery of "web" panics, then its map entry is cleaned up. *)
Lemma panicked_recovery_blocks_witness :
  let s := release (drop_task 0 solo_run) in
  in_progress "web" (cleanup_completed_recoveries s) = true /\
  forall i, tasks (cleanup_completed_recoveries s) !! i <> Some (mkTask "web" Checked).
Proof.
  intros s. apply (panicked_recovery_blocks default_coordinator_config s).
  - eapply rtc_r; [apply solo_astep|]. right. by apply (c_panic _ 0 "web").
  - split; [reflexivity|]. intros i t Hi. vm_compute in Hi. discriminate.
  - apply rtc_once. left. apply c_cleanup.
Defined.

Lemma recovery_runs_twice_witness :
  exists s, rtc cstep (coordinator_new default_coordinator_config) s /\
    tasks s !! 0%nat = Some (mkTask "web" Recovering) /\ tasks s !! 1%nat = Some (mkTask "web" Recovering).
Proof. apply (recovery_runs_twice default_coordinator_config "web"); [reflexivity|cbn; lia]. Defined.
