(* ===== verification/HealthMonitor.v ===== *)
(** The health monitor of a node (blixard-core/src/vm_health_monitor.rs), which puts
    together the scheduler of checks, the health store and the recovery coordinator,
    and the life cycle of these parts.

    A background task belongs to the component that keeps its handle: stopping or
    dropping the component aborts the task, so the model keeps with a component
    whether its task is alive.  The methods [start] and [stop] that a node calls
    spawn a task that works on a copy of the monitor; the model has these tasks,
    each with its copy. *)

From Stdlib Require Import ZArith Lia List.
From stdpp Require Import base tactics numbers gmap strings option.
From stdpp Require Import list relations.
From S2P Require Import Prelude Errors VmHealth Database VmBackend Lifecycle HealthScheduler HealthState RecoveryCoordinator.

Open Scope Z_scope.

(** * The parts and their life cycles *)

(** [hs_loop]: whether the loop of checks behind the handle is alive. *)
Record HealthCheckScheduler : Type := mkScheduler {
  hs_config : HealthCheckSchedulerConfig;
  hs_loop : option bool;
  hs_running : bool
}.

Definition scheduler_new (config : HealthCheckSchedulerConfig) : HealthCheckScheduler := mkScheduler config None false.

(** The spawned task panics on an interval of zero, which the caller does not see. *)
Definition scheduler_start : st HealthCheckScheduler BlixardError unit := fun s =>
  if hs_running s then (Ok tt, s)
  else (Ok tt, mkScheduler (hs_config s) (Some (negb (check_interval (hs_config s) =? 0))) true).

Definition scheduler_stop : st HealthCheckScheduler BlixardError unit := fun s =>
  match hs_loop s with
  | Some _ => (Ok tt, mkScheduler (hs_config s) None false)
  | None => (Ok tt, s)
  end.

Definition state_of_running (b : bool) : LifecycleState := if b then LRunning else LStopped.

#[export] Instance scheduler_lifecycle : LifecycleManager HealthCheckScheduler := {|
  lm_start := scheduler_start;
  lm_stop := scheduler_stop;
  lm_state := fun s => state_of_running (hs_running s);
  lm_name := fun _ => "HealthCheckScheduler"
|}.

#[export] Instance state_manager_lifecycle : LifecycleManager HealthStateManager := {|
  lm_start := fun s => (Ok tt, state_manager_start s);
  lm_stop := fun s => (Ok tt, state_manager_stop s);
  lm_state := fun s => state_of_running (hsm_running s);
  lm_name := fun _ => "HealthStateManager"
|}.

Record RecoveryPart : Type := mkRecoveryPart {
  rp_coordinator : Coordinator;
  rp_running : bool
}.

Definition coordinator_start : st RecoveryPart BlixardError unit := fun s => (Ok tt, mkRecoveryPart (rp_coordinator s) true).

(** A coordinator with recoveries in its map waits five seconds first. *)
Definition coordinator_stop : st RecoveryPart BlixardError unit := fun s => (Ok tt, mkRecoveryPart (rp_coordinator s) false).

#[export] Instance coordinator_lifecycle : LifecycleManager RecoveryPart := {|
  lm_start := coordinator_start;
  lm_stop := coordinator_stop;
  lm_state := fun s => state_of_running (rp_running s);
  lm_name := fun _ => "RecoveryCoordinator"
|}.

(** * The monitor *)

Record VmHealthMonitorConfig : Type := mkMonitorConfig {
  mc_scheduler : HealthCheckSchedulerConfig;
  mc_state_manager : HealthStateManagerConfig;
  mc_recovery : RecoveryCoordinatorConfig
}.

Record VmHealthMonitor : Type := mkMonitor {
  hm_config : VmHealthMonitorConfig;
  hm_scheduler : option HealthCheckScheduler;
  hm_state_manager : option HealthStateManager;
  hm_coordinator : option RecoveryPart;
  hm_running : bool
}.

Definition with_config (config : VmHealthMonitorConfig) : VmHealthMonitor := mkMonitor config None None None false.

Definition with_interval (interval : Z) (c : HealthCheckSchedulerConfig) : HealthCheckSchedulerConfig :=
  mkSchedulerConfig interval (max_concurrent_checks c) (health_check_timeout c) (enable_process_checks c) (enable_detailed_checks c).

Definition monitor_new (check_interval : Z) : VmHealthMonitor :=
  with_config (mkMonitorConfig (with_interval check_interval default_scheduler_config) default_state_config default_coordinator_config).

Definition initialize_components (m : VmHealthMonitor) : VmHealthMonitor :=
  let c := hm_config m in
  mkMonitor c (Some (scheduler_new (mc_scheduler c))) (Some (state_manager_new (mc_state_manager c)))
    (Some (mkRecoveryPart (coordinator_new (mc_recovery c)) false)) (hm_running m).

(** [if let Some(part) = &mut self.part { op(part)?; }] *)
Definition on_part {P} (op : st P BlixardError unit) (p : option P) : BlixardResult unit * option P :=
  match p with Some x => let '(o, x') := op x in (o, Some x') | None => (Ok tt, None) end.

Definition on_scheduler (op : st HealthCheckScheduler BlixardError unit) : st VmHealthMonitor BlixardError unit := fun m =>
  let '(o, p) := on_part op (hm_scheduler m) in
  (o, mkMonitor (hm_config m) p (hm_state_manager m) (hm_coordinator m) (hm_running m)).
Definition on_state_manager (op : st HealthStateManager BlixardError unit) : st VmHealthMonitor BlixardError unit := fun m =>
  let '(o, p) := on_part op (hm_state_manager m) in
  (o, mkMonitor (hm_config m) (hm_scheduler m) p (hm_coordinator m) (hm_running m)).
Definition on_coordinator (op : st RecoveryPart BlixardError unit) : st VmHealthMonitor BlixardError unit := fun m =>
  let '(o, p) := on_part op (hm_coordinator m) in
  (o, mkMonitor (hm_config m) (hm_scheduler m) (hm_state_manager m) p (hm_running m)).

Definition set_hm_running (b : bool) (m : VmHealthMonitor) : VmHealthMonitor :=
  mkMonitor (hm_config m) (hm_scheduler m) (hm_state_manager m) (hm_coordinator m) b.

Definition has_components (m : VmHealthMonitor) : bool :=
  match hm_scheduler m, hm_state_manager m, hm_coordinator m with Some _, Some _, Some _ => true | _, _, _ => false end.

(** [LifecycleManager::start] *)
Definition monitor_start : st VmHealthMonitor BlixardError unit :=
  let* m := sget in
  if hm_running m then sret tt
  else
    (if has_components m then sret tt else smodify initialize_components) ;*
    on_scheduler lm_start ;*
    on_state_manager lm_start ;*
    on_coordinator lm_start ;*
    smodify (set_hm_running true).

(** [LifecycleManager::stop]: errors of the parts are logged. *)
Definition monitor_stop : st VmHealthMonitor BlixardError unit :=
  let* m := sget in
  if negb (hm_running m) then sret tt
  else
    signore (on_coordinator lm_stop) ;*
    signore (on_state_manager lm_stop) ;*
    signore (on_scheduler lm_stop) ;*
    smodify (set_hm_running false).

#[export] Instance monitor_lifecycle : LifecycleManager VmHealthMonitor := {|
  lm_start := monitor_start;
  lm_stop := monitor_stop;
  lm_state := fun m => state_of_running (hm_running m);
  lm_name := fun _ => "VmHealthMonitor"
|}.

(** ** Calls the monitor passes on *)

Definition not_initialized (what : string) : BlixardError := Internal (what +:+ " not initialized").

Definition monitor_get_health_status (vm : string) (m : VmHealthMonitor) : option VmHealthStatus :=
  hm_state_manager m ≫= get_health_status vm.

Definition monitor_list_health_checks (vm : string) (m : VmHealthMonitor) : BlixardResult (list HealthCheck) :=
  match hm_state_manager m with
  | Some s => Ok (list_health_checks vm s)
  | None => Err (not_initialized "HealthStateManager")
  end.

Section Calls.
Context {B : Type} `{HealthBackend B}.

(** A call on the health store, if there is one. *)
Definition delegate (op : hsm (B:=B) unit) : st (VmHealthMonitor * Host B) BlixardError unit := fun '(m, h) =>
  match hm_state_manager m with
  | Some s =>
      let '(o, (s', h')) := op (s, h) in
      (o, (mkMonitor (hm_config m) (hm_scheduler m) (Some s') (hm_coordinator m) (hm_running m), h'))
  | None => (Err (not_initialized "HealthStateManager"), (m, h))
  end.

Definition monitor_add_health_check (vm : string) (check : HealthCheck) : st (VmHealthMonitor * Host B) BlixardError unit :=
  delegate (add_health_check vm check).
Definition monitor_remove_health_check (vm check_name : string) : st (VmHealthMonitor * Host B) BlixardError unit :=
  delegate (remove_health_check vm check_name).
Definition monitor_toggle_monitoring (vm : string) (enable : bool) : st (VmHealthMonitor * Host B) BlixardError unit :=
  delegate (toggle_monitoring vm enable).

End Calls.

Definition monitor_get_recovery_status (vm : string) (m : VmHealthMonitor) : option RecoveryOperation :=
  hm_coordinator m ≫= fun p => get_recovery_status vm (rp_coordinator p).

(** ** [start] and [stop] as a node calls them *)

Definition clone_for_start (m : VmHealthMonitor) : VmHealthMonitor := mkMonitor (hm_config m) None None None false.
Definition clone_for_stop (m : VmHealthMonitor) : VmHealthMonitor := mkMonitor (hm_config m) None None None (hm_running m).

(** A spawned task: it is yet to call the life cycle method on its copy, or has
    called it and is about to end, which drops the copy. *)
Inductive spawned : Type :=
| ToStart (copy : VmHealthMonitor)
| ToStop (copy : VmHealthMonitor)
| Called (copy : VmHealthMonitor).

Record NodeMonitor : Type := mkNodeMonitor {
  nm_monitor : VmHealthMonitor;
  nm_spawned : list spawned
}.

Definition legacy_start (n : NodeMonitor) : NodeMonitor :=
  mkNodeMonitor (nm_monitor n) (nm_spawned n ++ [ToStart (clone_for_start (nm_monitor n))]).
Definition legacy_stop (n : NodeMonitor) : NodeMonitor :=
  mkNodeMonitor (nm_monitor n) (nm_spawned n ++ [ToStop (clone_for_stop (nm_monitor n))]).

(** An error of the method is logged. *)
Definition run_spawned (t : spawned) : option spawned :=
  match t with
  | ToStart m => Some (Called (snd (monitor_start m)))
  | ToStop m => Some (Called (snd (monitor_stop m)))
  | Called _ => None
  end.

Inductive nstep (n : NodeMonitor) : NodeMonitor -> Prop :=
| n_start : nstep n (legacy_start n)
| n_stop : nstep n (legacy_stop n)
| n_run before t after :
    nm_spawned n = before ++ t :: after ->
    nstep n (mkNodeMonitor (nm_monitor n) (before ++ option_list (run_spawned t) ++ after)).

(** * Specifications *)

(** The background tasks of a monitor. *)
Definition loops (m : VmHealthMonitor) : nat :=
  ((match hm_scheduler m with Some s => if hs_loop s is Some true then 1 else 0 | None => 0 end) +
   (match hm_state_manager m with Some s => if cleaner s is Some _ then 1 else 0 | None => 0 end))%nat.

Definition spawned_loops (t : spawned) : nat := match t with ToStart m | ToStop m | Called m => loops m end.

Definition all_loops (n : NodeMonitor) : nat := (loops (nm_monitor n) + sum_list (map spawned_loops (nm_spawned n)))%nat.

Inductive monitor_op : Type := MStart | MStop | MRestart.

Definition monitor_run (op : monitor_op) : st VmHealthMonitor BlixardError unit :=
  match op with MStart => lm_start | MStop => lm_stop | MRestart => lm_restart end.

Definition monitor_history (ops : list monitor_op) (m : VmHealthMonitor) : VmHealthMonitor :=
  fold_left (fun m op => snd (monitor_run op m)) ops m.

(** What the last operation asks for. *)
Definition wanted (ops : list monitor_op) : bool :=
  match last ops with Some MStop | None => false | _ => true end.

(** The loops a running monitor of a configuration has. *)
Definition loops_wanted (c : VmHealthMonitorConfig) : nat :=
  Nat.add (if check_interval (mc_scheduler c) =? 0 then 0%nat else 1%nat)
    (if 0 <? cleanup_interval (mc_state_manager c) / 1000000000 then 1%nat else 0%nat).

(** * Lemmas *)

(** The health store of a monitor of configuration [c] that runs or not. *)
Definition store_ok (c : VmHealthMonitorConfig) (b : bool) (s : HealthStateManager) : Prop :=
  hsm_config s = mc_state_manager c /\ hsm_running s = b /\
  cleaner s = if b && (0 <? cleanup_interval (mc_state_manager c) / 1000000000) then Some empty_maps else None.

Definition scheduler_of (c : VmHealthMonitorConfig) (b : bool) : HealthCheckScheduler :=
  mkScheduler (mc_scheduler c) (if b then Some (negb (check_interval (mc_scheduler c) =? 0)) else None) b.

Definition monitor_ok (c : VmHealthMonitorConfig) (b : bool) (m : VmHealthMonitor) : Prop :=
  (b = false /\ m = with_config c) \/
  exists s p, m = mkMonitor c (Some (scheduler_of c b)) (Some s) (Some p) b /\ store_ok c b s.

Lemma store_start c s : store_ok c false s -> store_ok c true (state_manager_start s).
Proof. intros (Hc & Hr & Hk). unfold state_manager_start. rewrite Hr, Hc. by destruct (0 <? _) eqn:E; split_and!; cbn; rewrite ?E. Qed.

Lemma store_stop c b s : store_ok c b s -> store_ok c false (state_manager_stop s).
Proof. intros (Hc & _). by split_and!. Qed.

Lemma store_new c : store_ok c false (state_manager_new (mc_state_manager c)).
Proof. by split_and!. Qed.

Lemma monitor_start_ok c b m : monitor_ok c b m -> exists m', monitor_start m = (Ok tt, m') /\ monitor_ok c true m'.
Proof.
  intros [[-> ->]|(s & p & -> & Hs)].
  - eexists. split; [reflexivity|]. right. do 2 eexists. split; [reflexivity|]. apply store_start, store_new.
  - destruct b; [eexists; split; [reflexivity|]; right; by exists s, p|].
    eexists. split; [reflexivity|]. right. do 2 eexists. split; [reflexivity|]. by apply store_start.
Qed.

Lemma monitor_stop_ok c b m : monitor_ok c b m -> exists m', monitor_stop m = (Ok tt, m') /\ monitor_ok c false m'.
Proof.
  intros [[-> ->]|(s & p & -> & Hs)].
  - eexists. split; [reflexivity|]. by left.
  - destruct b; [|eexists; split; [reflexivity|]; right; by exists s, p].
    eexists. split; [reflexivity|]. right. do 2 eexists. split; [reflexivity|]. by eapply store_stop.
Qed.

Lemma monitor_run_ok c b m op :
  monitor_ok c b m ->
  exists m', monitor_run op m = (Ok tt, m') /\ monitor_ok c (match op with MStop => false | _ => true end) m'.
Proof.
  intros Hm. destruct op; cbn; [by eapply monitor_start_ok|by eapply monitor_stop_ok|].
  destruct (monitor_stop_ok _ _ _ Hm) as (m1 & E1 & H1). unfold lm_restart, sbind.
  cbn [lm_stop lm_start monitor_lifecycle]. rewrite E1. by eapply monitor_start_ok.
Qed.

Lemma monitor_ok_loops c b m : monitor_ok c b m -> loops m = if b then loops_wanted c else O.
Proof.
  intros [[-> ->]|(s & p & -> & (_ & _ & Hk))]; [done|]. unfold loops. cbn. rewrite Hk.
  unfold loops_wanted. destruct b; cbn; [|done]. by destruct (_ =? _), (0 <? _).
Qed.

(** * Theorems *)

(** A monitor used through its life cycle interface runs exactly when the last
    call was a start or a restart, and then has its check loop and, where the
    configuration asks for one, its cleanup loop, each once; otherwise it has none. *)
Theorem monitor_follows_calls c ops :
  let m := monitor_history ops (with_config c) in
  hm_running m = wanted ops /\ loops m = if wanted ops then loops_wanted c else O.
Proof.
  assert (Hok : monitor_ok c (wanted ops) (monitor_history ops (with_config c))).
  { induction ops as [|op ops IH] using rev_ind; [by left|].
    unfold monitor_history in *. rewrite fold_left_app. cbn.
    destruct (monitor_run_ok _ _ _ op IH) as (m' & -> & Hm'). cbn.
    unfold wanted. rewrite last_snoc. by destruct op. }
  split; [|by apply monitor_ok_loops].
  by destruct Hok as [[Hb ->]|(s & p & -> & _)].
Qed.

(** The parts are kept, and the maps of the health store. *)
Definition keeps_store (m m' : VmHealthMonitor) : Prop :=
  has_components m = true -> has_components m' = true /\ maps <$> hm_state_manager m' = maps <$> hm_state_manager m.

#[local] Instance keeps_store_preorder : PreOrder keeps_store.
Proof. split; [by intros m ?|]. intros x y z Hxy Hyz [Hy E]%Hxy. destruct (Hyz Hy) as [? E']. split; [done|congruence]. Qed.

Lemma monitor_start_keeps m : keeps_store m (snd (monitor_start m)).
Proof.
  destruct m as [c [sc|] [s|] [p|] b]; try (by intros [=]). intros _. unfold monitor_start. destruct b; [done|].
  cbn -[lm_start]. unfold sbind, on_scheduler, on_state_manager, on_coordinator. cbn.
  unfold scheduler_start. destruct (hs_running sc); cbn; by rewrite start_maps.
Qed.

Lemma monitor_stop_keeps m : keeps_store m (snd (monitor_stop m)).
Proof.
  destruct m as [c [sc|] [s|] [p|] b]; try (by intros [=]). intros _. unfold monitor_stop. destruct b; [|done].
  unfold signore, sbind, on_scheduler, on_state_manager, on_coordinator. cbn.
  unfold scheduler_stop. by destruct (hs_loop sc).
Qed.

Lemma monitor_run_keeps op m : keeps_store m (snd (monitor_run op m)).
Proof.
  destruct op; [apply monitor_start_keeps|apply monitor_stop_keeps|]. cbn [monitor_run]. unfold lm_restart, sbind.
  cbn [lm_stop lm_start monitor_lifecycle]. pose proof (monitor_stop_keeps m) as Hk.
  destruct (monitor_stop m) as [[u|e|] m1]; cbn in *; [|done|done]. etrans; [exact Hk|apply monitor_start_keeps].
Qed.

(** The statuses and checks a monitor has survive stops, starts and restarts. *)
Theorem restart_keeps_health m ops vm :
  has_components m = true ->
  monitor_get_health_status vm (monitor_history ops m) = monitor_get_health_status vm m /\
  monitor_list_health_checks vm (monitor_history ops m) = monitor_list_health_checks vm m.
Proof.
  intros Hc.
  assert (Hk : keeps_store m (monitor_history ops m)).
  { clear. revert m. induction ops as [|op ops IH]; intros m; [done|]. etrans; [apply (monitor_run_keeps op)|apply IH]. }
  destruct (Hk Hc) as [_ E]. unfold monitor_get_health_status, monitor_list_health_checks.
  destruct (hm_state_manager (monitor_history ops m)) as [s'|], (hm_state_manager m) as [s|]; try done.
  cbn in *. unfold get_health_status, list_health_checks. by injection E as ->.
Qed.

(** A node that starts its monitor monitors nothing.  The monitor is started on
    a copy that the spawned task drops, which aborts its loops: once no spawned
    task is left there is no loop, however often start and stop were called, and
    the monitor the node has answers every call as one that was never started. *)
Theorem node_monitors_nothing `{HealthBackend B} c n vm check (h : Host B) :
  rtc nstep (mkNodeMonitor (with_config c) []) n -> nm_spawned n = [] ->
  all_loops n = O /\ monitor_get_health_status vm (nm_monitor n) = None /\
  fst (monitor_add_health_check vm check (nm_monitor n, h)) = Err (not_initialized "HealthStateManager").
Proof.
  intros Hr Hn.
  assert (nm_monitor n = with_config c) as Hm.
  { refine (rtc_invariant nstep (fun x => nm_monitor x = with_config c) _ _ _ Hr eq_refl). by intros x y Hx []. }
  unfold all_loops. rewrite Hm, Hn. by split_and!.
Qed.

(** * Witnesses *)

Definition demo_config : VmHealthMonitorConfig := mkMonitorConfig default_scheduler_config default_state_config default_coordinator_config.

Definition demo_started : VmHealthMonitor := snd (monitor_start (with_config demo_config)).

Lemma restart_keeps_health_witness :
  monitor_get_health_status "web" (monitor_history [MRestart; MStop] demo_started) = monitor_get_health_status "web" demo_started /\
  monitor_list_health_checks "web" (monitor_history [MRestart; MStop] demo_started) = monitor_list_health_checks "web" demo_started.
Proof. apply (restart_keeps_health demo_started [MRestart; MStop] "web"). reflexivity. Defined.

(** The node starts its monitor; the task of the call runs, and ends. *)
Definition demo_called : NodeMonitor := mkNodeMonitor (with_config demo_config) [Called demo_started].

Lemma node_monitors_nothing_witness :
  loops demo_started = 2%nat /\
  let n := mkNodeMonitor (with_config demo_config) [] in
  all_loops n = O /\ monitor_get_health_status "web" (nm_monitor n) = None /\
  fst (monitor_add_health_check (B:=MockVmBackend) "web" (mkHealthCheck "ping" (GuestAgent 5) true (score default_health_status) Quick None 3)
    (nm_monitor n, mkHost mock_new empty_database)) = Err (not_initialized "HealthStateManager").
Proof.
  split; [reflexivity|]. intros n. apply (node_monitors_nothing demo_config n); [|reflexivity].
  apply (rtc_l _ _ (legacy_start (mkNodeMonitor (with_config demo_config) []))); [apply n_start|].
  apply (rtc_l _ _ demo_called); [exact (n_run (legacy_start (mkNodeMonitor (with_config demo_config) [])) [] (ToStart (with_config demo_config)) [] eq_refl)|].
  apply rtc_once. exact (n_run demo_called [] (Called demo_started) [] eq_refl).
Defined.
