(* ===== verification/ClusterOps.v ===== *)
(** Joining and leaving a cluster, and what a node reports of it
    (blixard-core/src/transport/cluster_operations_adapter.rs), on the state the
    node shares.

    The node has no peer-to-peer manager to hand ([get_p2p_manager] gives none),
    so that the attempt to connect to a joining node does not take place.  While
    a join waits for the node to show up among the voters, anything else may
    happen to the state; it is an argument. *)

From Stdlib Require Import ZArith Lia List Ascii.
From stdpp Require Import base tactics numbers gmap strings pretty option.
From stdpp Require Import list relations.
From S2P Require Import Prelude Wire Errors Types RaftCodec IpPool Proposals Codecs Database RaftCore VmBackend NodeShared.

Open Scope Z_scope.

(** * Numbers as text *)

Definition digit_value (a : ascii) : option Z :=
  let n := Z.of_nat (nat_of_ascii a) in
  if (48 <=? n) && (n <=? 57) then Some (n - 48) else None.

Fixpoint parse_digits (acc : Z) (s : string) : option Z :=
  match s with
  | EmptyString => Some acc
  | String a s' =>
      match digit_value a with
      | Some d => if u64_max <? 10 * acc + d then None else parse_digits (10 * acc + d) s'
      | None => None
      end
  end.

(** [str::parse::<u64>]: at least one digit, after an optional plus sign, and no
    overflow. *)
Definition parse_u64 (s : string) : option Z :=
  match s with
  | EmptyString => None
  | String "+" EmptyString => None
  | String "+" s' => parse_digits 0 s'
  | _ => parse_digits 0 s
  end.

(** * Reports *)

Record NodeInfo : Type := mkNodeInfo {
  ni_id : Z;
  ni_address : string;
  ni_state : Z;
  ni_p2p_node_id : string;
  ni_p2p_addresses : list string;
  ni_p2p_relay_url : string
}.

Record TaskRequest : Type := mkTaskRequest {
  tr_task_id : string;
  tr_command : string;
  tr_args : list string;
  tr_cpu_cores : Z;
  tr_memory_mb : Z;
  tr_disk_gb : Z;
  tr_required_features : list string;
  tr_timeout_secs : Z
}.

Section Adapter.
Context {Bd : Type} `{IpNetLib} `{Profile} `{AddrText} `{HashIter}.

Abbreviation node := (st (SharedNodeState Bd) BlixardError).

(** The id, the addresses and the relay of this node's own endpoint. *)
Definition own_p2p (n : SharedNodeState Bd) : option string * list string * option string :=
  match n_node_addr n with
  | Some a => (Some (node_id_text (addr_node_id a)), map socket_text (direct_addresses a), relay_url a)
  | None => (None, [], None)
  end.

(** The entry of a voter: from the peer list, or this node's own, of which the
    addresses are given.  [peer_state] is what is reported of another node. *)
Definition voter_info (n : SharedNodeState Bd) (status : SharedRaftStatus) (our_addr : string)
    (our_p2p : option string * list string * option string) (peer_state : Z -> Z) (voter_id : Z) : option NodeInfo :=
  let own := if sr_is_leader status then 3 else 1 in
  let '(p2p_id, addresses, relay) := our_p2p in
  match get_peer voter_id n with
  | Some p => Some (mkNodeInfo (default voter_id (parse_u64 (peer_node_id p))) (peer_address p)
      (if voter_id =? n_id n then own else peer_state voter_id) (default "" (p2p_node_id p)) (p2p_addresses p) (default "" (p2p_relay_url p)))
  | None => if voter_id =? n_id n then Some (mkNodeInfo (n_id n) our_addr own (default "" p2p_id) addresses (default "" relay)) else None
  end.

Definition voter_infos (n : SharedNodeState Bd) (status : SharedRaftStatus) (our_addr : string)
    (our_p2p : option string * list string * option string) (peer_state : Z -> Z) : list NodeInfo :=
  stable_sort ni_id (omap (voter_info n status our_addr our_p2p peer_state) (get_current_voters n)).

(** * Joining *)

Record JoinRequest : Type := mkJoin {
  join_node_id : Z;
  join_bind_address : string;
  join_p2p_node_id : option string;
  join_p2p_addresses : list string;
  join_p2p_relay_url : option string
}.

Definition has_p2p_info (r : JoinRequest) : bool :=
  match join_p2p_node_id r, join_p2p_addresses r with None, [] => false | _, _ => true end.

(** The peer entry a join makes. *)
Definition joining_peer (now : Z) (addr : SocketAddr) (r : JoinRequest) : PeerInfo :=
  if has_p2p_info r then
    mkPeerInfo (default (pretty (join_node_id r)) (join_p2p_node_id r)) (socket_text addr) now
      (join_p2p_node_id r) (join_p2p_addresses r) (join_p2p_relay_url r) false
  else mkPeerInfo (pretty (join_node_id r)) (socket_text addr) now None [] None false.

(** A known peer is replaced only by one with addresses. *)
Definition add_joining_peer (now : Z) (addr : SocketAddr) (r : JoinRequest) (n : SharedNodeState Bd) : SharedNodeState Bd :=
  match get_peer (join_node_id r) n with
  | None => add_cluster_member (join_node_id r) (joining_peer now addr r) n
  | Some _ =>
      if has_p2p_info r then
        add_cluster_member (join_node_id r) (joining_peer now addr r) (remove_cluster_member (join_node_id r) n)
      else n
  end.

(** The wait for the node among the voters: [retries] looks, with a pause of a
    tenth of a second after each that fails. *)
Fixpoint wait_for_voter (pause : nat -> SharedNodeState Bd -> SharedNodeState Bd) (retries : nat) (id : Z) : node unit :=
  match retries with
  | O => sret tt
  | S k => fun n =>
      if existsb (Z.eqb id) (get_current_voters n) then (Ok tt, n)
      else wait_for_voter pause k id (pause k n)
  end.

Definition join_context (addr : SocketAddr) (r : JoinRequest) : ConfChangeContext :=
  mkConfContext (socket_text addr) (join_p2p_node_id r) (join_p2p_addresses r) (join_p2p_relay_url r).

Definition join_cluster (now response : Z) (answer : option (BlixardResult unit))
    (pause : nat -> SharedNodeState Bd -> SharedNodeState Bd) (r : JoinRequest) : node (bool * list NodeInfo * list Z) :=
  let* addr := slift (ok_or (Internal "Invalid bind address") (parse_socket (join_bind_address r))) in
  let* n0 := sget in
  let* our_addr := slift (get_bind_addr n0) in
  smodify (add_joining_peer now addr r) ;*
  fun n =>
    match propose_conf_change_with_p2p now response answer AddNode (join_node_id r) (join_context addr r) n with
    | (Ok _, n1) =>
        (wait_for_voter pause 10 (join_node_id r) ;*
         let* n2 := sget in
         sret (true, voter_infos n2 (get_raft_status n2) our_addr (own_p2p n0) (fun _ => 0), get_current_voters n2)) n1
    | (Err _, n1) => (Ok (false, [], []), n1)
    | (Panic, n1) => (Panic, n1)
    end.

Definition leave_cluster (node_id : Z) : node bool := fun n =>
  match propose_conf_change RemoveNode node_id "" n with
  | (Ok _, n1) => (Ok true, remove_cluster_member node_id n1)
  | (Err _, n1) => (Ok false, n1)
  | (Panic, n1) => (Panic, n1)
  end.

(** * Status and tasks *)

Definition get_cluster_status (n : SharedNodeState Bd) : BlixardResult (Z * list NodeInfo * Z) :=
  let status := get_raft_status n in
  let? our_addr := get_bind_addr n in
  Ok (default u64_max (sr_leader_id status),
      voter_infos n status our_addr (own_p2p n) (fun id => if bool_decide (sr_leader_id status = Some id) then 3 else 1),
      sr_term status).

Definition task_spec_of (t : TaskRequest) : TaskSpec :=
  mkTaskSpec (tr_command t) (tr_args t)
    (mkRequirements (tr_cpu_cores t) (tr_memory_mb t) (tr_disk_gb t) (tr_required_features t)) (tr_timeout_secs t).

Definition adapter_submit_task (t : TaskRequest) : node (bool * Z) := fun n =>
  match submit_task (tr_task_id t) (task_spec_of t) n with
  | (Ok assigned, n1) => (Ok (true, assigned), n1)
  | (Err _, n1) => (Ok (false, 0), n1)
  | (Panic, n1) => (Panic, n1)
  end.

(** * Specifications *)

(** The voters a report has an entry for. *)
Definition reportable (n : SharedNodeState Bd) (id : Z) : Prop := is_Some (get_peer id n) \/ id = n_id n.
#[global] Instance reportable_dec n id : Decision (reportable n id).
Proof. unfold reportable. apply _. Defined.

(** No peer goes by the number of another node. *)
Definition honest_ids (n : SharedNodeState Bd) : Prop :=
  forall id p, get_peer id n = Some p -> default id (parse_u64 (peer_node_id p)) = id.

(** The node takes itself for the leader exactly when it names itself. *)
Definition status_consistent (n : SharedNodeState Bd) : Prop := is_leader n = true <-> n_leader_id n = Some (n_id n).

(** * Lemmas *)

Lemma voter_info_some n status a own ps id :
  honest_ids n -> reportable n id -> exists i, voter_info n status a own ps id = Some i /\ ni_id i = id /\
    ni_state i = if id =? n_id n then (if sr_is_leader status then 3 else 1) else ps id.
Proof.
  intros Hh Hr. unfold voter_info. destruct own as [[p2p_id addresses] relay]. destruct (get_peer id n) as [p|] eqn:Ep.
  - eexists. split; [done|]. cbn. split; [by apply Hh|done].
  - destruct Hr as [[p Hp]| ->]; [congruence|]. rewrite Z.eqb_refl. eexists. split; [done|]. cbn. by rewrite ?Z.eqb_refl.
Qed.

Lemma voter_info_none n status a own ps id : ~ reportable n id -> voter_info n status a own ps id = None.
Proof.
  intros Hr. unfold voter_info. destruct own as [[p2p_id addresses] relay]. unfold reportable in Hr.
  destruct (get_peer id n) as [p|]; [destruct Hr; left; by eexists|]. destruct (Z.eqb_spec id (n_id n)); [tauto|done].
Qed.

Lemma voter_infos_ids n status a own ps :
  honest_ids n -> map ni_id (voter_infos n status a own ps) ≡ₚ filter (reportable n) (get_current_voters n).
Proof.
  intros Hh. unfold voter_infos. rewrite stable_sort_perm. induction (get_current_voters n) as [|id ids IH]; [done|].
  cbn [omap list_omap]. rewrite filter_cons. case_decide as Hr.
  - destruct (voter_info_some n status a own ps id Hh Hr) as (i & -> & Hi & _). cbn. rewrite Hi. by constructor.
  - by rewrite voter_info_none.
Qed.

Lemma wait_found pause k id n : id ∈ get_current_voters n -> wait_for_voter pause (S k) id n = (Ok tt, n).
Proof.
  intros Hin. cbn. assert (existsb (Z.eqb id) (get_current_voters n) = true) as ->; [|done].
  apply existsb_exists. exists id. split; [by apply list_elem_of_In|apply Z.eqb_refl].
Qed.

Lemma add_joining_keeps now addr r n :
  n_registry (add_joining_peer now addr r n) = n_registry n /\ n_conf_change_tx (add_joining_peer now addr r n) = n_conf_change_tx n /\
  n_id (add_joining_peer now addr r n) = n_id n /\ is_Some (get_peer (join_node_id r) (add_joining_peer now addr r n)).
Proof.
  unfold add_joining_peer. destruct (get_peer (join_node_id r) n) eqn:E.
  - destruct (has_p2p_info r); [|by rewrite E]. split_and!; try done. unfold get_peer. cbn. rewrite lookup_insert_eq. by eexists.
  - split_and!; try done. unfold get_peer. cbn. rewrite lookup_insert_eq. by eexists.
Qed.

(** * Properties *)

(** A report lists the voters that are known, each once, under its own id and
    in the order of the ids. *)
Theorem status_lists_voters n leader nodes term :
  registry_wf n -> honest_ids n -> get_cluster_status n = Ok (leader, nodes, term) ->
  key_sorted ni_id nodes /\ NoDup (map ni_id nodes) /\
  forall id, In id (map ni_id nodes) <-> id ∈ get_current_voters n /\ reportable n id.
Proof.
  intros Hwf Hh (a & _ & E)%obind_ok. injection E as _ <- _. destruct (voters_spec n Hwf) as [Hnd _].
  pose proof (voter_infos_ids n (get_raft_status n) a (own_p2p n)
    (fun id => if bool_decide (sr_leader_id (get_raft_status n) = Some id) then 3 else 1) Hh) as Hp.
  split; [apply stable_sort_spec|]. rewrite Hp. split; [by apply NoDup_filter|].
  intros id. rewrite <- list_elem_of_In, Hp, list_elem_of_filter. tauto.
Qed.

(** A node whose status is consistent reports at most one leader, and only
    the leader it names: every entry in the leader's state is the entry of
    that node. *)
Theorem one_leader_reported n leader nodes term :
  honest_ids n -> status_consistent n -> get_cluster_status n = Ok (leader, nodes, term) ->
  forall i, In i nodes -> ni_state i = 3 -> n_leader_id n = Some (ni_id i) /\ leader = ni_id i.
Proof.
  intros Hh Hc (a & _ & E)%obind_ok i Hin Hi. injection E as <- <- _.
  assert (Hl : n_leader_id n = Some (ni_id i)); [|split; [done|]; cbn; by rewrite Hl].
  unfold voter_infos in Hin. apply list_elem_of_In in Hin. rewrite stable_sort_perm in Hin.
  apply list_elem_of_omap in Hin as (id & _ & Hid).
  destruct (decide (reportable n id)) as [Hr|Hr]; [|by rewrite voter_info_none in Hid].
  destruct (voter_info_some n (get_raft_status n) a (own_p2p n)
    (fun id => if bool_decide (sr_leader_id (get_raft_status n) = Some id) then 3 else 1) id Hh Hr) as (i' & Hi' & Hn & Hs).
  pose proof (eq_trans (eq_sym Hid) Hi') as [= <-]. subst id. rewrite Hi in Hs. destruct (Z.eqb_spec (ni_id i) (n_id n)) as [Heq|].
  - rewrite Heq. apply Hc. cbn in Hs. by destruct (is_leader n).
  - by case_bool_decide.
Qed.

(** A status that mixes two reports makes a node report two leaders: itself, and
    the one it followed. *)
Theorem mixed_status_reports_two n other p leader nodes term :
  is_leader n = true -> n_leader_id n = Some other -> other <> n_id n ->
  registry_wf n -> honest_ids n -> get_peer other n = Some p ->
  other ∈ get_current_voters n -> n_id n ∈ get_current_voters n ->
  get_cluster_status n = Ok (leader, nodes, term) ->
  exists i j, In i nodes /\ In j nodes /\ ni_id i = n_id n /\ ni_id j = other /\ ni_state i = 3 /\ ni_state j = 3.
Proof.
  intros Hl Ho Hne Hwf Hh Hp Hin1 Hin2 (a & _ & E)%obind_ok. injection E as _ <- _.
  set (ps := fun id => if bool_decide (sr_leader_id (get_raft_status n) = Some id) then 3 else 1).
  destruct (voter_info_some n (get_raft_status n) a (own_p2p n) ps (n_id n) Hh) as (i & Ei & Hi & Hsi); [by right|].
  destruct (voter_info_some n (get_raft_status n) a (own_p2p n) ps other Hh) as (j & Ej & Hj & Hsj); [left; by eexists|].
  exists i, j. unfold voter_infos. rewrite <- !list_elem_of_In, !stable_sort_perm, !list_elem_of_omap.
  split_and!; [exists (n_id n); by split|exists other; by split|done|done|..].
  - rewrite Hsi, Z.eqb_refl. cbn. by rewrite Hl.
  - rewrite Hsj. destruct (Z.eqb_spec other (n_id n)); [done|]. unfold ps. by rewrite bool_decide_true.
Qed.

(** A join with an iroh id, when the request can be sent and is not refused at
    once, is answered with success: the node is among the voters that are
    returned and among the peers, and the change has been handed to the
    Raft manager, which has not carried it out yet. *)
Theorem join_reports_voter now response answer pause r n addr our_addr p2p i tx :
  parse_socket (join_bind_address r) = Some addr -> get_bind_addr n = Ok our_addr -> registry_wf n ->
  join_p2p_node_id r = Some p2p -> parse_node_id p2p = Some i ->
  n_conf_change_tx n = Some tx -> receiver tx = true -> (forall e, answer <> Some (Err e)) ->
  exists infos voters n', join_cluster now response answer pause r n = (Ok (true, infos, voters), n') /\
    join_node_id r ∈ voters /\ is_Some (get_peer (join_node_id r) n') /\
    n_conf_change_tx n' = Some (mkChannel (sent tx ++ [mkConfChangeRequest AddNode (join_node_id r) (join_context addr r) (Some response)]) true).
Proof.
  intros Ha Hb Hwf Hp Hi Htx Hrx Hans. unfold join_cluster, sbind, slift, sget, smodify. rewrite Ha, Hb. cbn [ok_or].
  destruct (add_joining_keeps now addr r n) as (Hreg & Hch & _ & _). set (n1 := add_joining_peer now addr r n) in *.
  assert (Hwf1 : registry_wf n1) by (unfold registry_wf; by rewrite Hreg).
  destruct (member_op_grows (OpConfChange now response answer AddNode (join_node_id r) (join_context addr r)) n1 Hwf1) as [Hwf2 _].
  destruct (record_peer_registry now (join_node_id r) (join_context addr r) n1 i p2p Hp Hi) as [Hr2 Hm2]. cbn [run_member_op] in Hwf2.
  assert (Hsent : propose_conf_change_with_p2p now response answer AddNode (join_node_id r) (join_context addr r) n1 =
    (Ok tt, set_n_conf_change_tx (Some (mkChannel (sent tx ++ [mkConfChangeRequest AddNode (join_node_id r) (join_context addr r) (Some response)]) true))
      (record_peer now (join_node_id r) (join_context addr r) n1))).
  { unfold propose_conf_change_with_p2p, sbind, smodify, record_peer. cbn [ctx_p2p_node_id join_context]. rewrite Hp, Hi.
    cbn [n_conf_change_tx add_cluster_member set_members register_node set_n_registry]. rewrite Hch, Htx. unfold chan_send. rewrite Hrx.
    destruct answer as [[|e|]|]; try done. by destruct (Hans e). }
  rewrite Hsent in *. cbn [snd] in Hwf2. set (n2 := set_n_conf_change_tx _ _) in *.
  assert (Hv : join_node_id r ∈ get_current_voters n2).
  { apply (voters_spec _ Hwf2). right. change (n_registry n2) with (n_registry (record_peer now (join_node_id r) (join_context addr r) n1)).
    rewrite Hr2, lookup_insert_eq. by eexists. }
  rewrite wait_found by done. eexists _, _, _. split; [reflexivity|]. split; [done|]. split; [|done].
  unfold get_peer. change (n_members n2) with (n_members (record_peer now (join_node_id r) (join_context addr r) n1)).
  rewrite Hm2, lookup_insert_eq. by eexists.
Qed.

Lemma wait_idle id k n : wait_for_voter (fun _ m => m) k id n = (Ok tt, n).
Proof.
  induction k as [|k IH]; [done|]. cbn. by destruct (existsb _ _).
Qed.

(** A node that joins without an iroh id is told that it has joined, although
    it never shows up among the voters. *)
Theorem join_without_id_reports_success now response r n addr our_addr tx :
  parse_socket (join_bind_address r) = Some addr -> get_bind_addr n = Ok our_addr -> registry_wf n ->
  join_p2p_node_id r = None -> join_node_id r <> 1 -> n_registry n !! join_node_id r = None ->
  n_conf_change_tx n = Some tx -> receiver tx = true ->
  exists infos voters n', join_cluster now response None (fun _ m => m) r n = (Ok (true, infos, voters), n') /\
    join_node_id r ∉ voters /\ is_Some (get_peer (join_node_id r) n').
Proof.
  intros Ha Hb Hwf Hp Hne Hnone Htx Hrx. unfold join_cluster, sbind, slift, sget, smodify. rewrite Ha, Hb. cbn [ok_or].
  destruct (add_joining_keeps now addr r n) as (Hreg & Hch & _ & Hpeer). set (n1 := add_joining_peer now addr r n) in *.
  unfold propose_conf_change_with_p2p, sbind, smodify, record_peer. cbn [ctx_p2p_node_id join_context]. rewrite Hp, Hch, Htx.
  unfold chan_send. rewrite Hrx. set (n2 := set_n_conf_change_tx _ n1).
  assert (Hv : join_node_id r ∉ get_current_voters n2).
  { rewrite (proj2 (voters_spec n2 ltac:(unfold registry_wf; change (n_registry n2) with (n_registry n1); by rewrite Hreg))).
    change (n_registry n2) with (n_registry n1). rewrite Hreg, Hnone. intros [?|[]%is_Some_None]. done. }
  rewrite wait_idle. eexists _, _, _. split; [reflexivity|]. by split.
Qed.

(** A join that fails for want of a Raft manager leaves the node among the
    peers. *)
Theorem failed_join_keeps_peer now response answer pause r n addr our_addr :
  parse_socket (join_bind_address r) = Some addr -> get_bind_addr n = Ok our_addr -> n_conf_change_tx n = None ->
  exists n', join_cluster now response answer pause r n = (Ok (false, [], []), n') /\ is_Some (get_peer (join_node_id r) n').
Proof.
  intros Ha Hb Htx. unfold join_cluster, sbind, slift, sget, smodify. rewrite Ha, Hb. cbn [ok_or].
  destruct (add_joining_keeps now addr r n) as (_ & Hch & _ & [p Hpeer]). set (n1 := add_joining_peer now addr r n) in *.
  set (n2 := record_peer now (join_node_id r) (join_context addr r) n1).
  assert (Hn2 : n_conf_change_tx n2 = None /\ is_Some (get_peer (join_node_id r) n2)).
  { unfold n2, record_peer. cbn [ctx_p2p_node_id join_context]. destruct (join_p2p_node_id r) as [p2p|]; [|split; [congruence|by eexists]].
    destruct (parse_node_id p2p); [|split; [congruence|by eexists]]. split; [cbn; congruence|].
    unfold get_peer. cbn. rewrite lookup_insert_eq. by eexists. }
  destruct Hn2 as [Htx2 Hpeer2]. exists n2. split; [|done]. unfold propose_conf_change_with_p2p, sbind, smodify. fold n2. by rewrite Htx2.
Qed.

(** No node ever leaves: the change that removes a node cannot be proposed. *)
Theorem leave_never_succeeds id n : leave_cluster id n = (Ok false, n).
Proof. done. Qed.

End Adapter.

(** * Witnesses *)

#[local] Instance demo_net : IpNetLib := {| IpNet := unit; net_contains := fun _ _ => true |}.
#[local] Instance demo_profile : Profile := true.
#[local] Existing Instance canonical_iter.
#[local] Instance demo_text : AddrText := {|
  parse_node_id := fun s => match s with String a EmptyString => Some (Z.of_nat (nat_of_ascii a)) | _ => None end;
  node_id_text := fun i => String (ascii_of_nat (Z.to_nat i)) EmptyString;
  parse_socket := fun s => match s with String a EmptyString => Some (mkSocketAddr (V4 0) (Z.of_nat (nat_of_ascii a))) | _ => None end;
  socket_text := fun a => String (ascii_of_nat (Z.to_nat (sa_port a))) EmptyString;
  parse_relay := Some
|}.

Definition demo_node : SharedNodeState unit :=
  set_n_conf_change_tx (Some (mkChannel [] true)) (node_new 1 (Some (mkSocketAddr (V4 0) 97))).

Definition demo_join (id : Z) (p2p : option string) : JoinRequest := mkJoin id "b" p2p [] None.

Lemma demo_node_wf : registry_wf demo_node.
Proof. intros id e He. exfalso. cbn [demo_node node_new set_n_conf_change_tx n_registry] in He. apply (lookup_empty_Some id e He). Qed.

Lemma join_reports_voter_witness :
  exists infos voters n', join_cluster 9 0 None (fun _ m => m) (demo_join 7 (Some "k")) demo_node = (Ok (true, infos, voters), n') /\
    7 ∈ voters /\ is_Some (get_peer 7 n') /\
    n_conf_change_tx n' = Some (mkChannel [mkConfChangeRequest AddNode 7 (mkConfContext "b" (Some "k") [] None) (Some 0)] true).
Proof.
  exact (join_reports_voter 9 0 None (fun _ m => m) (demo_join 7 (Some "k")) demo_node (mkSocketAddr (V4 0) 98) "a" "k" 107 (mkChannel [] true)
    eq_refl eq_refl demo_node_wf eq_refl eq_refl eq_refl eq_refl (fun e H => match H with end)).
Defined.

Lemma join_without_id_reports_success_witness :
  exists infos voters n', join_cluster 9 0 None (fun _ m => m) (demo_join 7 None) demo_node = (Ok (true, infos, voters), n') /\
    7 ∉ voters /\ is_Some (get_peer 7 n').
Proof.
  exact (join_without_id_reports_success 9 0 (demo_join 7 None) demo_node (mkSocketAddr (V4 0) 98) "a" (mkChannel [] true)
    eq_refl eq_refl demo_node_wf eq_refl ltac:(discriminate) eq_refl eq_refl eq_refl).
Defined.

(** A node that follows node 7, which has joined. *)
Definition demo_follower : SharedNodeState unit :=
  set_leader_id (Some 7) (snd (join_cluster 9 0 None (fun _ m => m) (demo_join 7 (Some "k")) demo_node)).

Lemma demo_follower_ok : registry_wf demo_follower /\ honest_ids demo_follower.
Proof.
  split.
  - intros id e. change (n_registry demo_follower) with (<[7 := mkEntryOf 7 107 (mkNodeAddr 107 [] None) (Some "b")]> (∅ : gmap Z NodeRegistryEntry)).
    intros [[<- <-]|[_ He]]%lookup_insert_Some; [reflexivity|]. exfalso. apply (lookup_empty_Some id e He).
  - intros id p. unfold get_peer.
    change (n_members demo_follower) with (<[7 := mkPeerInfo "k" "b" 9 (Some "k") [] None false]>
      (<[7 := mkPeerInfo "k" "b" 9 (Some "k") [] None false]> (∅ : gmap Z PeerInfo))). rewrite insert_insert_eq.
    intros [[<- <-]|[_ He]]%lookup_insert_Some; [reflexivity|]. exfalso. apply (lookup_empty_Some id p He).
Qed.

Lemma status_lists_voters_witness :
  exists nodes, get_cluster_status demo_follower = Ok (7, nodes, 0) /\ key_sorted ni_id nodes /\ NoDup (map ni_id nodes) /\
    forall id, In id (map ni_id nodes) <-> id ∈ get_current_voters demo_follower /\ reportable demo_follower id.
Proof.
  eexists. split; [reflexivity|].
  exact (status_lists_voters demo_follower 7 _ 0 (proj1 demo_follower_ok) (proj2 demo_follower_ok) eq_refl).
Defined.

Lemma one_leader_reported_witness :
  exists nodes, get_cluster_status demo_follower = Ok (7, nodes, 0) /\
    forall i, In i nodes -> ni_state i = 3 -> n_leader_id demo_follower = Some (ni_id i) /\ 7 = ni_id i.
Proof.
  eexists. split; [reflexivity|]. apply (one_leader_reported demo_follower 7 _ 0 (proj2 demo_follower_ok)).
  - split; intros E; discriminate E.
  - reflexivity.
Defined.
