(* ===== verification/TransactionLog.v ===== *)
(** The transaction log (blixard-core/src/transaction_log.rs): writing entries as
    lines of JSON to numbered files, rotating them, and reading them back.

    The log directory is a map from file names to contents; a listing may give the
    names in any order.  The JSON library is a parameter: a partial printer and a
    partial parser.  What the operating system does during a call is an argument of
    it.  Timestamps are nanoseconds. *)

From Stdlib Require Import ZArith Lia List Ascii.
From stdpp Require Import base tactics numbers gmap strings pretty option.
From stdpp Require Import list sorting.
From S2P Require Import Prelude Errors Types Proposals Database RaftCore ClusterOps.

Open Scope Z_scope.

(** * Entries *)

(** [V]: [serde_json::Value]. *)
Inductive TransactionOperation (V : Type) : Type :=
| TCreateVm (vm_name : string) (config : VmConfig) (node_id : Z)
| TUpdateVm (vm_name : string) (new_status : VmStatus)
| TDeleteVm (vm_name : string)
| TRegisterWorker (node_id : Z) (capabilities : WorkerCapabilities)
| TUpdateWorker (node_id : Z) (capabilities : WorkerCapabilities)
| TRemoveWorker (node_id : Z)
| TConfigChange (change_type : string) (details : V).

Record TransactionEntry (V : Type) : Type := mkEntry {
  te_id : string;
  timestamp : Z;
  raft_index : Z;
  te_operation : TransactionOperation V;
  success : bool;
  te_error : option string
}.
Arguments mkEntry {V} te_id timestamp raft_index te_operation success te_error.
Arguments timestamp {V} t.
Arguments raft_index {V} t.

(** [apply_transaction]: a match whose arms are empty. *)
Definition apply_transaction {V} (e : TransactionEntry V) : st Database BlixardError unit := sret tt.

(** * Text *)

Abbreviation text := (list ascii).

Definition newline : ascii := ascii_of_nat 10.
Definition byte_of (a : ascii) : Z := Z.of_nat (nat_of_ascii a).

(** A line without its end, which may be a carriage return and a newline. *)
Definition strip_cr (l : text) : text :=
  match rev l with a :: r => if byte_of a =? 13 then rev r else l | [] => [] end.

(** The lines of a file; [cur] is the line read so far, backwards. *)
Fixpoint lines_from (cur : text) (l : text) : list text :=
  match l with
  | [] => match cur with [] => [] | _ => [rev cur] end
  | a :: l' => if Ascii.eqb a newline then strip_cr (rev cur) :: lines_from [] l' else lines_from (a :: cur) l'
  end.
Definition lines : text -> list text := lines_from [].

(** [line.trim().is_empty()], for white space of one byte; a line of other white
    space is skipped as one that does not parse. *)
Definition is_blank (l : text) : bool :=
  forallb (fun a => (byte_of a =? 32) || ((9 <=? byte_of a) && (byte_of a <=? 13))) l.

(** Well-formed UTF-8 (the table of the Unicode standard). *)
Definition in_range (lo hi : Z) (a : ascii) : bool := (lo <=? byte_of a) && (byte_of a <=? hi).
Definition is_continuation : ascii -> bool := in_range 128 191.

Fixpoint utf8 (l : text) : bool :=
  match l with
  | [] => true
  | a :: l1 =>
      if in_range 0 127 a then utf8 l1
      else match l1 with
      | b :: l2 =>
          if in_range 194 223 a then is_continuation b && utf8 l2
          else match l2 with
          | c :: l3 =>
              if byte_of a =? 224 then in_range 160 191 b && is_continuation c && utf8 l3
              else if byte_of a =? 237 then in_range 128 159 b && is_continuation c && utf8 l3
              else if in_range 225 239 a then is_continuation b && is_continuation c && utf8 l3
              else match l3 with
              | d :: l4 =>
                  if byte_of a =? 240 then in_range 144 191 b && is_continuation c && is_continuation d && utf8 l4
                  else if in_range 241 243 a then is_continuation b && is_continuation c && is_continuation d && utf8 l4
                  else if byte_of a =? 244 then in_range 128 143 b && is_continuation c && is_continuation d && utf8 l4
                  else false
              | [] => false
              end
          | [] => false
          end
      | [] => false
      end
  end.

(** * File names *)

Definition ends_with (p s : string) : bool :=
  Nat.leb (String.length p) (String.length s) && String.eqb (String.substring (String.length s - String.length p) (String.length p) s) p.

Definition is_log_name (s : string) : bool := String.prefix "txn-" s && ends_with ".log" s.

(** [name[4..9].parse::<u64>()]: slicing panics past the end and inside a character. *)
Definition name_index (s : string) : BlixardResult (option Z) :=
  if Nat.ltb (String.length s) 9 then Panic
  else if match String.get 9 s with Some a => is_continuation a | None => false end then Panic
  else Ok (parse_u64 (String.substring 4 5 s)).

Definition digit (n : Z) : ascii := ascii_of_nat (48 + Z.to_nat (n mod 10)).

(** [{:05}] *)
Definition pad5 (n : Z) : string :=
  if n <? 100000 then
    String (digit (n / 10000)) (String (digit (n / 1000)) (String (digit (n / 100)) (String (digit (n / 10)) (String (digit n) EmptyString))))
  else pretty n.

Definition log_name (index : Z) : string := "txn-" +:+ pad5 index +:+ ".log".

(** * The writer *)

Abbreviation Dir := (gmap string text).

(** [current_file]: the name under which the open file was opened. *)
Record TransactionLogWriter : Type := mkLogWriter {
  current_file : option string;
  current_index : Z;
  rotation_size : Z
}.

(** One name of the listing, after [best]: the largest index and its file so far. *)
Definition consider (best : Z * option string) (name : string) : BlixardResult (Z * option string) :=
  if is_log_name name then
    let? index := name_index name in
    Ok (match index with Some i => if fst best <=? i then (i, Some name) else best | None => best end)
  else Ok best.

Fixpoint find_latest (best : Z * option string) (names : list string) : BlixardResult (Z * option string) :=
  match names with
  | [] => Ok best
  | name :: names' => let? best' := consider best name in find_latest best' names'
  end.

(** Opening for appending creates a file that is not there. *)
Definition touch (name : string) (d : Dir) : Dir := <[name := default [] (d !! name)]> d.
Definition append (name : string) (t : text) (d : Dir) : Dir := <[name := default [] (d !! name) ++ t]> d.

(** What the operating system does while a log is opened. *)
Inductive open_fault : Type := OpenFine | OpenFails (what : string).

Section Writer.
Context `{HashIter} {V : Type} (to_json : TransactionEntry V -> option text).

Definition find_latest_log (d : Dir) : BlixardResult (string * Z) :=
  let? best := find_latest (0, None) (fst <$> hash_iter d) in
  Ok (default (log_name (fst best + 1)) (snd best), fst best).

Definition log_writer_new (f : open_fault) (rotation : Z) : st Dir BlixardError TransactionLogWriter := fun d =>
  match f with
  | OpenFails what => (Err (Storage what), d)
  | OpenFine =>
      match find_latest_log d with
      | Ok (path, index) => (Ok (mkLogWriter (Some path) index rotation), touch path d)
      | Err e => (Err e, d)
      | Panic => (Panic, d)
      end
  end.

(** What the operating system does during a write: all goes well; the call [what]
    fails after [n] bytes of the line have reached the file; the size cannot be
    asked for; the next file cannot be opened. *)
Inductive write_fault : Type :=
| WriteFine
| WriteFails (what : string) (n : nat)
| MetadataFails
| RotateFails.

Definition log_state : Type := TransactionLogWriter * Dir.

(** The index stays far below its width: it comes from five characters of a name
    and grows by one per rotation. *)
Definition rotate (f : write_fault) : st log_state BlixardError unit := fun '(w, d) =>
  let index := current_index w + 1 in
  match f with
  | RotateFails => (Err (Storage "create new transaction log"), (mkLogWriter (current_file w) index (rotation_size w), d))
  | _ => (Ok tt, (mkLogWriter (Some (log_name index)) index (rotation_size w), touch (log_name index) d))
  end.

Definition log_write (f : write_fault) (e : TransactionEntry V) : st log_state BlixardError unit := fun '(w, d) =>
  match to_json e with
  | None => (Err (Serialization "serialize transaction entry"), (w, d))
  | Some json =>
      match current_file w with
      | None => (Ok tt, (w, d))
      | Some name =>
          match f with
          | WriteFails what n => (Err (Storage what), (w, append name (take n (json ++ [newline])) d))
          | _ =>
              let d' := append name (json ++ [newline]) d in
              match f with
              | MetadataFails => (Err (Storage "get transaction log metadata"), (w, d'))
              | _ =>
                  if rotation_size w <=? Z.of_nat (length (default [] (d' !! name))) then rotate f (w, d')
                  else (Ok tt, (w, d'))
              end
          end
      end
  end.

Definition log_close : st log_state BlixardError unit := fun '(w, d) => (Ok tt, (mkLogWriter None (current_index w) (rotation_size w), d)).

End Writer.

(** * The reader *)

Section Reader.
Context `{HashIter} {V : Type} (from_json : text -> option (TransactionEntry V)).

Definition list_log_files (d : Dir) : list string := List.filter is_log_name (fst <$> hash_iter d).

(** The lines of the files, in the order of their names. *)
Definition log_files (d : Dir) : list string := merge_sort String.le (list_log_files d).
Definition log_lines (d : Dir) : list text := log_files d ≫= fun name => lines (default [] (d !! name)).

(** The loop of [read_range] over the lines; it returns at an entry after the range. *)
Fixpoint scan_range (start_time end_time : Z) (ls : list text) : BlixardResult (list (TransactionEntry V)) :=
  match ls with
  | [] => Ok []
  | l :: ls' =>
      if negb (utf8 l) then Err (Storage "read transaction log line")
      else if is_blank l then scan_range start_time end_time ls'
      else match from_json l with
      | Some e =>
          if (start_time <=? timestamp e) && (timestamp e <=? end_time) then
            let? rest := scan_range start_time end_time ls' in Ok (e :: rest)
          else if end_time <? timestamp e then Ok []
          else scan_range start_time end_time ls'
      | None => scan_range start_time end_time ls'
      end
  end.

Fixpoint scan_after (after_index : Z) (ls : list text) : BlixardResult (list (TransactionEntry V)) :=
  match ls with
  | [] => Ok []
  | l :: ls' =>
      if negb (utf8 l) then Err (Storage "read transaction log line")
      else if is_blank l then scan_after after_index ls'
      else match from_json l with
      | Some e => if after_index <? raft_index e then let? rest := scan_after after_index ls' in Ok (e :: rest) else scan_after after_index ls'
      | None => scan_after after_index ls'
      end
  end.

Definition read_range (start_time end_time : Z) (d : Dir) : BlixardResult (list (TransactionEntry V)) := scan_range start_time end_time (log_lines d).
Definition read_after_index (after_index : Z) (d : Dir) : BlixardResult (list (TransactionEntry V)) := scan_after after_index (log_lines d).

End Reader.

(** * Specifications *)

(** What the code relies on of the JSON library for an entry: it prints to one
    line of text, and the text parses to the entry. *)
Definition json_good {V} (to_json : TransactionEntry V -> option text) (from_json : text -> option (TransactionEntry V))
    (e : TransactionEntry V) : Prop :=
  exists j, to_json e = Some j /\ from_json j = Some e /\ newline ∉ j /\ utf8 j = true /\ is_blank j = false /\ strip_cr j = j.

(** A use of the log: writes, and new writers on the same directory. *)
Inductive log_op (V : Type) : Type :=
| OpWrite (e : TransactionEntry V)
| OpReopen (rotation : Z).
Arguments OpWrite {V} e.
Arguments OpReopen {V} rotation.

Definition log_run1 `{HashIter} {V} (to_json : TransactionEntry V -> option text) (s : log_state) (op : log_op V)
    : BlixardResult log_state :=
  match op with
  | OpWrite e => match log_write to_json WriteFine e s with (Ok _, s') => Ok s' | (Err e, _) => Err e | (Panic, _) => Panic end
  | OpReopen rotation =>
      match log_writer_new OpenFine rotation (snd s) with (Ok w, d) => Ok (w, d) | (Err e, _) => Err e | (Panic, _) => Panic end
  end.

Fixpoint log_run `{HashIter} {V} (to_json : TransactionEntry V -> option text) (ops : list (log_op V)) (s : log_state)
    : BlixardResult log_state :=
  match ops with [] => Ok s | op :: ops' => let? s' := log_run1 to_json s op in log_run to_json ops' s' end.

Definition written {V} (ops : list (log_op V)) : list (TransactionEntry V) :=
  omap (fun op => match op with OpWrite e => Some e | OpReopen _ => None end) ops.

(** A file whose lines all ended. *)
Definition complete (c : text) : Prop := c = [] \/ exists c', c = c' ++ [newline].

(** The writer [w] appends to file [k], the last one. *)
Record log_ok (w : TransactionLogWriter) (d : Dir) (k : Z) : Prop := {
  lo_file : current_file w = Some (log_name k);
  lo_index : current_index w = k \/ (current_index w = 0 /\ k = 1);
  lo_range : 1 <= k < 100000;
  lo_names : forall n, n ∈ dom d -> is_log_name n = true -> exists j, 1 <= j <= k /\ n = log_name j;
  lo_last : log_name k ∈ dom d;
  lo_complete : forall n c, d !! n = Some c -> is_log_name n = true -> complete c
}.

(** * Lines *)

Lemma lines_split cur c rest :
  lines_from cur (c ++ newline :: rest) = lines_from cur (c ++ [newline]) ++ lines rest.
Proof.
  revert cur. induction c as [|a c IH]; intros cur; cbn; [done|].
  destruct (Ascii.eqb a newline); [by rewrite IH|apply IH].
Qed.

Lemma lines_one cur j : newline ∉ j -> lines_from cur (j ++ [newline]) = [strip_cr (rev cur ++ j)].
Proof.
  revert cur. induction j as [|a j IH]; intros cur Hj; cbn; [by rewrite app_nil_r|].
  apply not_elem_of_cons in Hj as [Ha Hj]. destruct (Ascii.eqb_spec a newline); [congruence|].
  rewrite IH by done. cbn. by rewrite <- app_assoc.
Qed.

Lemma lines_append c j :
  complete c -> newline ∉ j -> strip_cr j = j -> lines (c ++ j ++ [newline]) = lines c ++ [j].
Proof.
  intros Hc Hj Hs. assert (Hone : lines (j ++ [newline]) = [j]) by (unfold lines; rewrite lines_one by done; cbn; by rewrite Hs).
  destruct Hc as [->|[c' ->]]; [exact Hone|].
  rewrite <- app_assoc. cbn [app]. unfold lines at 1. rewrite lines_split. fold (lines (j ++ [newline])). by rewrite Hone.
Qed.

(** * File names *)

Lemma digits_cases (P : Z -> Prop) :
  P 0 -> P 1 -> P 2 -> P 3 -> P 4 -> P 5 -> P 6 -> P 7 -> P 8 -> P 9 -> forall x, 0 <= x < 10 -> P x.
Proof.
  intros. assert (x = 0 \/ x = 1 \/ x = 2 \/ x = 3 \/ x = 4 \/ x = 5 \/ x = 6 \/ x = 7 \/ x = 8 \/ x = 9) as Hx by lia.
  by destruct Hx as [->|[->|[->|[->|[->|[->|[->|[->|[->| ->]]]]]]]]].
Qed.

Lemma digit_compare x y : Ascii.compare (digit x) (digit y) = (x mod 10 ?= y mod 10).
Proof.
  unfold digit. pose proof (Z.mod_pos_bound x 10). pose proof (Z.mod_pos_bound y 10).
  generalize dependent (x mod 10). intros a Ha. generalize dependent (y mod 10). intros b Hb.
  revert b Hb. apply (digits_cases (fun a => forall b, _ -> Ascii.compare (ascii_of_nat (48 + Z.to_nat a)) _ = (a ?= b))); [..|lia].
  all: intros b Hb; apply (digits_cases (fun b => Ascii.compare _ (ascii_of_nat (48 + Z.to_nat b)) = (_ ?= b))); [reflexivity..|lia].
Qed.

Lemma digit_value_digit x : digit_value (digit x) = Some (x mod 10).
Proof.
  unfold digit. pose proof (Z.mod_pos_bound x 10). generalize dependent (x mod 10). intros a Ha.
  apply (digits_cases (fun a => digit_value (ascii_of_nat (48 + Z.to_nat a)) = Some a)); [reflexivity..|lia].
Qed.

Lemma digits_sum n :
  0 <= n < 100000 ->
  n = 10000 * (n / 10000 mod 10) + 1000 * (n / 1000 mod 10) + 100 * (n / 100 mod 10) + 10 * (n / 10 mod 10) + n mod 10.
Proof. intros. Z.to_euclidean_division_equations. lia. Qed.

Lemma log_name_text n : n < 100000 ->
  log_name n = String "t" (String "x" (String "n" (String "-" (String (digit (n / 10000)) (String (digit (n / 1000))
    (String (digit (n / 100)) (String (digit (n / 10)) (String (digit n) ".log")))))))).
Proof. intros Hn. unfold log_name, pad5. by rewrite (proj2 (Z.ltb_lt _ _) Hn). Qed.

Lemma compare_cons a s b t :
  String.compare (String a s) (String b t) = match Ascii.compare a b with Eq => String.compare s t | c => c end.
Proof. reflexivity. Qed.

Lemma log_name_le i j : 0 <= i <= j -> j < 100000 -> String.le (log_name i) (log_name j).
Proof.
  intros Hi Hj. rewrite !log_name_text by lia. unfold String.le, String.leb. rewrite !compare_cons, !digit_compare.
  pose proof (digits_sum i ltac:(lia)) as Di. pose proof (digits_sum j ltac:(lia)) as Dj.
  pose proof (fun x => Z.mod_pos_bound x 10 ltac:(lia)) as Hb.
  pose proof (Hb (i / 10000)); pose proof (Hb (i / 1000)); pose proof (Hb (i / 100)); pose proof (Hb (i / 10)); pose proof (Hb i).
  pose proof (Hb (j / 10000)); pose proof (Hb (j / 1000)); pose proof (Hb (j / 100)); pose proof (Hb (j / 10)); pose proof (Hb j).
  change (Ascii.compare "t" "t") with Eq. change (Ascii.compare "x" "x") with Eq.
  change (Ascii.compare "n" "n") with Eq. change (Ascii.compare "-" "-") with Eq. cbv iota.
  repeat match goal with |- context [?a mod 10 ?= ?b mod 10] => destruct (Z.compare_spec (a mod 10) (b mod 10)) end;
    try done; exfalso; lia.
Qed.

Lemma log_name_inj i j : 0 <= i < 100000 -> 0 <= j < 100000 -> log_name i = log_name j -> i = j.
Proof.
  intros Hi Hj. rewrite !log_name_text by lia. intros E. injection E as E1 E2 E3 E4 E5.
  apply (f_equal digit_value) in E1, E2, E3, E4, E5. rewrite !digit_value_digit in *. simplify_eq.
  rewrite (digits_sum i Hi), (digits_sum j Hj). congruence.
Qed.

Lemma log_name_is j : 0 <= j < 100000 -> is_log_name (log_name j) = true.
Proof. intros Hj. rewrite log_name_text by lia. reflexivity. Qed.

Lemma parse_five a b c d e :
  parse_u64 (String (digit a) (String (digit b) (String (digit c) (String (digit d) (String (digit e) EmptyString)))))
  = Some (10000 * (a mod 10) + 1000 * (b mod 10) + 100 * (c mod 10) + 10 * (d mod 10) + e mod 10).
Proof.
  assert (Hp : forall s, parse_u64 (String (digit a) s) = parse_digits 0 (String (digit a) s)).
  { intros s. unfold digit. pose proof (Z.mod_pos_bound a 10). generalize dependent (a mod 10). intros x Hx.
    apply (digits_cases (fun x => parse_u64 (String (ascii_of_nat (48 + Z.to_nat x)) s) = parse_digits 0 (String (ascii_of_nat (48 + Z.to_nat x)) s)));
      [reflexivity..|lia]. }
  rewrite Hp. cbn -[digit Z.modulo Z.mul Z.add Z.ltb]. rewrite !digit_value_digit.
  pose proof (fun x => Z.mod_pos_bound x 10 ltac:(lia)) as Hb.
  pose proof (Hb a); pose proof (Hb b); pose proof (Hb c); pose proof (Hb d); pose proof (Hb e).
  repeat (rewrite (proj2 (Z.ltb_ge _ _)) by (unfold u64_max; lia)). f_equal. lia.
Qed.

Lemma log_name_index j : 0 <= j < 100000 -> name_index (log_name j) = Ok (Some j).
Proof.
  intros Hj. rewrite log_name_text by lia. unfold name_index.
  change (String.substring 4 5 _) with (String (digit (j / 10000)) (String (digit (j / 1000)) (String (digit (j / 100)) (String (digit (j / 10)) (String (digit j) EmptyString))))).
  rewrite parse_five, <- (digits_sum j Hj). reflexivity.
Qed.

(** * The files of a directory *)

Section Files.
Context `{HashIter}.

Lemma elem_of_listed (d : Dir) n : n ∈ list_log_files d <-> n ∈ dom d /\ is_log_name n = true.
Proof.
  unfold list_log_files. rewrite list_elem_of_In, filter_In, <- list_elem_of_In, elem_of_dom. f_equiv.
  rewrite list_elem_of_fmap. split.
  - intros ([n' c] & -> & Hin%elem_of_hash_iter). by exists c.
  - intros [c Hc]. exists (n, c). split; [done|]. by apply elem_of_hash_iter.
Qed.

Lemma listed_NoDup (d : Dir) : NoDup (list_log_files d).
Proof.
  apply NoDup_ListNoDup, List.NoDup_filter, NoDup_ListNoDup. rewrite hash_iter_perm. apply NoDup_fst_map_to_list.
Qed.

Lemma log_files_perm (d : Dir) : log_files d ≡ₚ list_log_files d.
Proof. apply merge_sort_Permutation. Qed.

Lemma elem_of_log_files (d : Dir) n : n ∈ log_files d <-> n ∈ dom d /\ is_log_name n = true.
Proof. rewrite log_files_perm. apply elem_of_listed. Qed.

Lemma log_files_NoDup (d : Dir) : NoDup (log_files d).
Proof. rewrite log_files_perm. apply listed_NoDup. Qed.

Lemma log_files_sorted (d : Dir) : StronglySorted String.le (log_files d).
Proof. apply Sorted_StronglySorted; [typeclasses eauto|]. apply Sorted_merge_sort. typeclasses eauto. Qed.

(** The sorted list of names is determined by the names. *)
Lemma log_files_unique (d : Dir) l :
  NoDup l -> StronglySorted String.le l -> (forall n, n ∈ l <-> n ∈ dom d /\ is_log_name n = true) -> log_files d = l.
Proof.
  intros Hnd Hs Hl. apply (StronglySorted_unique String.le); [apply log_files_sorted|done|].
  apply NoDup_Permutation; [apply log_files_NoDup|done|]. intros n. by rewrite elem_of_log_files, Hl.
Qed.

Lemma log_files_same (d d' : Dir) : dom d' = dom d -> log_files d' = log_files d.
Proof.
  intros E. apply log_files_unique; [apply log_files_NoDup|apply log_files_sorted|]. intros n. by rewrite elem_of_log_files, E.
Qed.

(** A new file after all others. *)
Lemma log_files_new (d : Dir) n c :
  n ∉ dom d -> is_log_name n = true -> (forall m, m ∈ log_files d -> String.le m n) ->
  log_files (<[n := c]> d) = log_files d ++ [n].
Proof.
  intros Hn Hlog Hmax. apply log_files_unique.
  - apply NoDup_app. split; [apply log_files_NoDup|]. split; [|apply NoDup_singleton].
    intros m [Hm _]%elem_of_log_files ->%list_elem_of_singleton. done.
  - apply StronglySorted_app_2; [|apply log_files_sorted|repeat constructor].
    intros m x Hm ->%list_elem_of_singleton. auto.
  - intros m. rewrite elem_of_app, elem_of_log_files, list_elem_of_singleton, dom_insert. set_solver.
Qed.

(** The last file is last in the list. *)
Lemma log_files_last (d : Dir) n :
  n ∈ log_files d -> (forall m, m ∈ log_files d -> String.le m n) -> exists pre, log_files d = pre ++ [n] /\ n ∉ pre.
Proof.
  intros Hin Hmax. pose proof (log_files_sorted d) as Hs. pose proof (log_files_NoDup d) as Hnd.
  apply list_elem_of_split in Hin as (l1 & l2 & E). rewrite E in *.
  assert (l2 = []) as ->.
  { destruct l2 as [|y l2]; [done|]. exfalso.
    apply NoDup_app in Hnd as (_ & _ & [Hy _]%NoDup_cons). apply Hy.
    apply StronglySorted_app_1_r in Hs. inversion Hs as [|?? _ Hall]. inversion Hall as [|?? Hle _]. subst.
    assert (n = y) as <-; [|by left]. apply (anti_symm String.le); [done|]. apply Hmax. set_solver. }
  exists l1. split; [done|]. apply NoDup_app in Hnd as (_ & Hd & _). intros Hn. apply (Hd n Hn). by left.
Qed.

Lemma ok_files w d k :
  log_ok w d k -> (forall m, m ∈ log_files d -> String.le m (log_name k)) /\ log_name k ∈ log_files d.
Proof.
  intros Hok. pose proof (lo_range _ _ _ Hok). split.
  - intros m [Hm Hl]%elem_of_log_files. destruct (lo_names _ _ _ Hok m Hm Hl) as (j & Hj & ->). apply log_name_le; lia.
  - apply elem_of_log_files. split; [apply (lo_last _ _ _ Hok)|apply log_name_is; lia].
Qed.

(** Appending a line to the last file appends it to the lines of the log. *)
Lemma append_lines w d k j :
  log_ok w d k -> newline ∉ j -> strip_cr j = j ->
  log_lines (append (log_name k) (j ++ [newline]) d) = log_lines d ++ [j].
Proof.
  intros Hok Hj Hs. destruct (ok_files _ _ _ Hok) as [Hmax Hin].
  destruct (log_files_last d _ Hin Hmax) as (pre & E & Hpre).
  assert (Hsame : log_files (append (log_name k) (j ++ [newline]) d) = log_files d).
  { apply log_files_same. unfold append. rewrite dom_insert_L. pose proof (lo_last _ _ _ Hok). set_solver. }
  unfold log_lines. rewrite Hsame, E, !bind_app. cbn. rewrite !app_nil_r.
  unfold append at 2. rewrite lookup_insert_eq. cbn.
  destruct (proj1 (elem_of_dom _ _) (lo_last _ _ _ Hok)) as [c Ec]. rewrite Ec. cbn.
  rewrite lines_append; [|apply (lo_complete _ _ _ Hok _ _ Ec), log_name_is; pose proof (lo_range _ _ _ Hok); lia|done|done].
  rewrite app_assoc. f_equal. f_equal. apply Forall_bind_ext, Forall_forall. intros n Hn.
  unfold append. rewrite lookup_insert_ne; [done|]. by intros <-.
Qed.

Lemma append_ok w d k t :
  log_ok w d k -> complete (default [] (d !! log_name k) ++ t) -> log_ok w (append (log_name k) t d) k.
Proof.
  intros Hok Ht. pose proof (lo_last _ _ _ Hok) as Hl. destruct Hok as [Hf Hi Hr Hn _ Hc].
  split; [done|done|done|..].
  - intros n. unfold append. rewrite dom_insert_L. intros Hin. apply Hn. set_solver.
  - unfold append. rewrite dom_insert_L. set_solver.
  - intros n c. unfold append. intros [[<- <-]|[_ Hnc]]%lookup_insert_Some Hlog; [done|by eapply Hc].
Qed.

Lemma touch_same (d : Dir) n : n ∈ dom d -> touch n d = d.
Proof. intros [c Hc]%elem_of_dom. unfold touch. rewrite Hc. by apply insert_id. Qed.

(** A rotation opens the next file, or the same one when the writer had started on an
    empty directory. *)
Lemma rotate_ok w d k :
  log_ok w d k -> current_index w < 99999 ->
  exists w' d' k', rotate WriteFine (w, d) = (Ok tt, (w', d')) /\ log_ok w' d' k' /\ log_lines d' = log_lines d /\
    current_index w' = current_index w + 1.
Proof.
  intros Hok Hlt. pose proof Hok as [Hf Hi Hr Hn Hl Hc]. cbn. destruct Hi as [Hi|[Hi ->]].
  - rewrite Hi. do 3 eexists. split; [reflexivity|].
    assert (Hnew : log_name (k + 1) ∉ dom d).
    { intros Hin. destruct (Hn _ Hin) as (j & Hj & E); [apply log_name_is; lia|]. apply log_name_inj in E; lia. }
    assert (Hd : touch (log_name (k + 1)) d = <[log_name (k + 1) := []]> d).
    { unfold touch. by rewrite (not_elem_of_dom_1 _ _ Hnew). }
    rewrite Hd. split; [|split; [|done]].
    + split; cbn; [done|by left|lia|..].
      * intros n. rewrite dom_insert_L, elem_of_union, elem_of_singleton. intros [->|Hin] Hlog; [exists (k + 1); split; [lia|done]|].
        destruct (Hn n Hin Hlog) as (j & Hj & ->). exists j. split; [lia|done].
      * rewrite dom_insert_L. set_solver.
      * intros n c [[<- <-]|[_ Hnc]]%lookup_insert_Some Hlog; [by left|by eapply Hc].
    + unfold log_lines. rewrite log_files_new; [|done|apply log_name_is; lia|].
      * rewrite bind_app. cbn. rewrite lookup_insert_eq. cbn. rewrite app_nil_r. apply Forall_bind_ext, Forall_forall.
        intros n [Hin _]%elem_of_log_files. rewrite lookup_insert_ne; [done|]. by intros <-.
      * intros m Hm. etrans; [by apply (proj1 (ok_files _ _ _ Hok))|]. apply log_name_le; lia.
  - rewrite Hi. exists (mkLogWriter (Some (log_name 1)) 1 (rotation_size w)), d, 1.
    change (0 + 1) with 1. rewrite touch_same by done. split; [done|]. split; [|done]. split; cbn; auto with lia.
Qed.

End Files.

(** * Writing and reopening *)

Section Runs.
Context `{HashIter} {V : Type} (to_json : TransactionEntry V -> option text) (from_json : text -> option (TransactionEntry V)).

(** The lines of the log are the texts of the entries. *)
Definition holds (d : Dir) (es : list (TransactionEntry V)) : Prop :=
  Forall2 (fun l e => to_json e = Some l) (log_lines d) es.

Lemma write_step w d k e es :
  log_ok w d k -> current_index w < 99999 -> json_good to_json from_json e -> holds d es ->
  exists w' d' k', log_write to_json WriteFine e (w, d) = (Ok tt, (w', d')) /\ log_ok w' d' k' /\
    holds d' (es ++ [e]) /\ current_index w' <= current_index w + 1.
Proof.
  intros Hok Hlt (j & Hj & _ & Hnl & _ & _ & Hcr) Hh.
  set (d1 := append (log_name k) (j ++ [newline]) d).
  assert (Hok1 : log_ok w d1 k).
  { apply append_ok; [done|]. right. exists (default [] (d !! log_name k) ++ j). by rewrite <- app_assoc. }
  assert (Hh1 : holds d1 (es ++ [e])).
  { unfold holds, d1. rewrite (append_lines w) by done. apply Forall2_app; [done|]. by constructor. }
  unfold log_write. rewrite Hj, (lo_file _ _ _ Hok). fold d1. destruct (_ <=? _).
  - destruct (rotate_ok _ _ _ Hok1 Hlt) as (w' & d' & k' & E & Hok' & El & Ei).
    exists w', d', k'. split_and!; [done|done|unfold holds; by rewrite El|lia].
  - exists w, d1, k. split_and!; [done|done|done|lia].
Qed.

Lemma find_latest_spec names best :
  (forall n, n ∈ names -> is_log_name n = true -> exists j, 0 <= j < 100000 /\ n = log_name j) ->
  exists best', find_latest best names = Ok best' /\ fst best <= fst best' /\
    (forall j, 0 <= j < 100000 -> log_name j ∈ names -> j <= fst best') /\
    (best' = best \/ exists j, 0 <= j < 100000 /\ best' = (j, Some (log_name j)) /\ log_name j ∈ names).
Proof.
  revert best. induction names as [|n names IH]; intros best Hn; cbn.
  { exists best. split_and!; [done|lia|by intros ? _ ?%elem_of_nil|by left]. }
  assert (exists b1, consider best n = Ok b1 /\ fst best <= fst b1 /\ (forall j, 0 <= j < 100000 -> n = log_name j -> j <= fst b1) /\
    (b1 = best \/ exists j, 0 <= j < 100000 /\ b1 = (j, Some (log_name j)) /\ n = log_name j)) as (b1 & -> & Hle1 & Hj1 & Hb1).
  { unfold consider. destruct (is_log_name n) eqn:El.
    - destruct (Hn n ltac:(by left) El) as (j & Hj & ->). rewrite log_name_index by done. cbn.
      destruct (Z.leb_spec (fst best) j); eexists; (split; [reflexivity|]); cbn.
      + split_and!; [done|by intros i Hi <-%log_name_inj|eauto].
      + split_and!; [lia|by intros i Hi <-%log_name_inj; lia|by left].
    - exists best. split_and!; [done|lia| |by left]. intros j Hj ->. by rewrite log_name_is in El. }
  cbn. destruct (IH b1) as (b' & -> & Hle & Hj & Hb); [intros m Hm; apply Hn; by right|].
  exists b'. split_and!; [done|lia| |].
  - intros j Hj' [<-|Hin]%elem_of_cons; [|by apply Hj]. specialize (Hj1 j Hj' eq_refl). lia.
  - destruct Hb as [->|(j & Hr & -> & Hin)]; [|right; exists j; split_and!; [lia|lia|done|by right]].
    destruct Hb1 as [->|(j & Hr & -> & ->)]; [by left|right]. exists j. split_and!; [lia|lia|done|by left].
Qed.

Lemma elem_of_names (d : Dir) n : n ∈ (fst <$> hash_iter d) <-> n ∈ dom d.
Proof.
  rewrite list_elem_of_fmap, elem_of_dom. split.
  - intros ([n' c] & -> & Hin%elem_of_hash_iter). by exists c.
  - intros [c Hc]. exists (n, c). split; [done|]. by apply elem_of_hash_iter.
Qed.

(** A new writer continues with the last file. *)
Lemma reopen_step w d k rotation :
  log_ok w d k -> exists w', log_writer_new OpenFine rotation d = (Ok w', d) /\ log_ok w' d k /\ current_index w' = k.
Proof.
  intros Hok. pose proof Hok as [Hf Hi Hr Hn Hl Hc].
  destruct (find_latest_spec (fst <$> hash_iter d) (0, None)) as (b & E & _ & Hmax & Hb).
  { intros n Hin%elem_of_names Hlog. destruct (Hn n Hin Hlog) as (j & Hj & ->). exists j. split; [lia|done]. }
  assert (Hk : k <= fst b) by (apply Hmax; [lia|by apply elem_of_names]).
  destruct Hb as [->|(j & Hj' & -> & Hj%elem_of_names)]; cbn in Hk; [lia|].
  assert (j = k) as ->.
  { destruct (Hn _ Hj) as (i & Hi' & Ei); [by apply log_name_is|]. apply log_name_inj in Ei; lia. }
  exists (mkLogWriter (Some (log_name k)) k rotation). unfold log_writer_new, find_latest_log. rewrite E. cbn -[touch].
  rewrite touch_same by done. split_and!; [done| |done]. by split; auto.
Qed.

Lemma single_ok w : current_file w = Some (log_name 1) -> current_index w = 0 -> log_ok w {[log_name 1 := []]} 1.
Proof.
  intros Hf Hi. split; [done|by right|lia|..].
  - intros n. rewrite dom_singleton_L, elem_of_singleton. intros ->. exists 1. split; [lia|done].
  - rewrite dom_singleton_L. set_solver.
  - intros n c [<- <-]%lookup_singleton_Some _. by left.
Qed.

Lemma first_open rotation :
  exists w d, log_writer_new OpenFine rotation ∅ = (Ok w, d) /\ log_ok w d 1 /\ holds d [] /\ current_index w = 0.
Proof.
  assert (E : fst <$> hash_iter (∅ : Dir) = []).
  { apply elem_of_nil_inv. intros n. rewrite elem_of_names, dom_empty_L. set_solver. }
  unfold log_writer_new, find_latest_log. rewrite E. cbn -[touch log_name]. change (0 + 1) with 1.
  assert (Hd : touch (log_name 1) ∅ = {[log_name 1 := []]}) by done. rewrite Hd.
  do 2 eexists. split; [done|]. split_and!; [|unfold holds|done].
  - by apply single_ok.
  - unfold log_lines. rewrite (log_files_unique _ [log_name 1]); [|apply NoDup_singleton|repeat constructor|].
    + cbn -[log_name]. rewrite lookup_singleton_eq. constructor.
    + intros n. rewrite list_elem_of_singleton, dom_singleton_L, elem_of_singleton. split; [|tauto].
      intros ->. split; [done|reflexivity].
Qed.

Lemma run_steps ops w d k es :
  log_ok w d k -> current_index w + Z.of_nat (length ops) < 99999 -> holds d es ->
  Forall (json_good to_json from_json) (written ops) ->
  exists w' d', log_run to_json ops (w, d) = Ok (w', d') /\ holds d' (es ++ written ops).
Proof.
  revert w d k es. induction ops as [|op ops IH]; intros w d k es Hok Hlt Hh Hg.
  { exists w, d. by rewrite app_nil_r. }
  destruct op as [e|rotation]; cbn -[log_write log_writer_new] in *.
  - apply Forall_cons in Hg as [He Hg].
    destruct (write_step w d k e es Hok ltac:(lia) He Hh) as (w1 & d1 & k1 & -> & Hok1 & Hh1 & Hi1).
    destruct (IH w1 d1 k1 (es ++ [e]) Hok1) as (w' & d' & E & Hh'); [lia|done|done|].
    exists w', d'. split; [exact E|]. by rewrite <- app_assoc in Hh'.
  - destruct (reopen_step w d k rotation Hok) as (w1 & -> & Hok1 & Hi1).
    destruct (IH w1 d k es Hok1) as (w' & d' & E & Hh'); [destruct (lo_index _ _ _ Hok); lia|done|done|]. by exists w', d'.
Qed.

(** * Reading *)

Lemma scan_after_good a ls es :
  Forall2 (fun l e => to_json e = Some l) ls es -> Forall (json_good to_json from_json) es ->
  scan_after from_json a ls = Ok (List.filter (fun e => a <? raft_index e) es).
Proof.
  induction 1 as [|l e ls es Hl _ IH]; intros Hg; [done|]. apply Forall_cons in Hg as [(j & Hj & Hp & _ & Hu & Hb & _) Hg].
  assert (l = j) as -> by congruence. cbn. rewrite Hu, Hb, Hp, (IH Hg). cbn. by destruct (a <? raft_index e).
Qed.

(** The entries before the first one after [end_time]. *)
Fixpoint until (end_time : Z) (es : list (TransactionEntry V)) : list (TransactionEntry V) :=
  match es with [] => [] | e :: es' => if end_time <? timestamp e then [] else e :: until end_time es' end.

Lemma scan_range_good lo hi ls es :
  lo <= hi -> Forall2 (fun l e => to_json e = Some l) ls es -> Forall (json_good to_json from_json) es ->
  scan_range from_json lo hi ls = Ok (List.filter (fun e => (lo <=? timestamp e) && (timestamp e <=? hi)) (until hi es)).
Proof.
  intros Hlh. induction 1 as [|l e ls es Hl _ IH]; intros Hg; [done|]. apply Forall_cons in Hg as [(j & Hj & Hp & _ & Hu & Hb & _) Hg].
  assert (l = j) as -> by congruence. cbn. rewrite Hu, Hb, Hp. cbn.
  destruct (Z.ltb_spec hi (timestamp e)).
  - rewrite (proj2 (Z.leb_gt (timestamp e) hi)) by lia. by rewrite andb_false_r.
  - cbn. rewrite (IH Hg). by destruct (_ && _).
Qed.

(** C22: what was written to the log, by any sequence of writers one after the other
    and across any rotations up to the hundred thousandth file, is read back: all
    entries past an index, in the order they were written; and of a time range, the
    entries in it up to the first one written that is later. *)
Theorem log_reads_back_writes rotation ops after lo hi :
  Z.of_nat (length ops) < 99999 -> lo <= hi -> Forall (json_good to_json from_json) (written ops) ->
  exists w0 d0 w d, log_writer_new OpenFine rotation ∅ = (Ok w0, d0) /\ log_run to_json ops (w0, d0) = Ok (w, d) /\
    read_after_index from_json after d = Ok (List.filter (fun e => after <? raft_index e) (written ops)) /\
    read_range from_json lo hi d = Ok (List.filter (fun e => (lo <=? timestamp e) && (timestamp e <=? hi)) (until hi (written ops))).
Proof.
  intros Hlen Hlh Hg. destruct (first_open rotation) as (w0 & d0 & E0 & Hok & Hh & Hi).
  destruct (run_steps ops w0 d0 1 [] Hok) as (w & d & E & Hh'); [lia|done|done|].
  exists w0, d0, w, d. split_and!; [done|done|by apply scan_after_good|by apply scan_range_good].
Qed.

Lemma strip_cr_glue p j : strip_cr j = j -> j <> [] -> strip_cr (p ++ j) = p ++ j.
Proof.
  unfold strip_cr. rewrite rev_app_distr. destruct (rev j) as [|a r] eqn:E.
  - intros _ Hj. by rewrite <- (rev_involutive j), E in Hj.
  - cbn. destruct (byte_of a =? 13); [|done]. intros Hr. apply (f_equal length) in Hr.
    rewrite <- (rev_involutive j), E in Hr. rewrite !length_rev in Hr. cbn in Hr. lia.
Qed.

Lemma scan_after_app a ls l :
  utf8 l = true -> from_json l = None -> scan_after from_json a (ls ++ [l]) = scan_after from_json a ls.
Proof.
  intros Hu Hn. induction ls as [|x ls IH]; cbn; [rewrite Hu; cbn; by destruct (is_blank l); rewrite ?Hn|].
  by rewrite IH.
Qed.

(** An entry that is written after a failed write is lost, although its own write
    succeeds: the failed write left the start of a line, the entry is appended to
    it, and the line does not parse. *)
Theorem torn_write_loses_next w d k e1 j1 e2 j2 what n after :
  log_ok w d k -> rotation_size w > Z.of_nat (length (default [] (d !! log_name k)) + n + length j2 + 1) ->
  to_json e1 = Some j1 -> newline ∉ j1 -> (0 < n <= length j1)%nat ->
  json_good to_json from_json e2 -> to_json e2 = Some j2 ->
  utf8 (take n j1 ++ j2) = true -> from_json (take n j1 ++ j2) = None ->
  exists s1 s2, log_write to_json (WriteFails what n) e1 (w, d) = (Err (Storage what), s1) /\
    log_write to_json WriteFine e2 s1 = (Ok tt, s2) /\
    read_after_index from_json after (snd s2) = read_after_index from_json after d.
Proof.
  intros Hok Hrot Hj1 Hnl1 Hn (j & Hj & _ & Hnl & _ & Hb & Hcr) Hj2 Hu Hp. assert (j = j2) as -> by congruence.
  assert (Htake : take n (j1 ++ [newline]) = take n j1) by (apply take_app_le; lia).
  assert (Happ : append (log_name k) (j2 ++ [newline]) (append (log_name k) (take n j1) d)
    = append (log_name k) ((take n j1 ++ j2) ++ [newline]) d).
  { unfold append. rewrite lookup_insert_eq, insert_insert_eq. cbn. by rewrite <- !app_assoc. }
  do 2 eexists. unfold log_write. rewrite Hj1, (lo_file _ _ _ Hok), Htake. split; [reflexivity|].
  rewrite Hj2, (lo_file _ _ _ Hok), Happ. rewrite (proj2 (Z.leb_gt _ _)).
  - split; [reflexivity|]. cbn [snd]. unfold read_after_index. rewrite (append_lines w); [by apply scan_after_app|done|..].
    + rewrite not_elem_of_app. split; [|done]. intros (i & Hi & _)%elem_of_take. apply Hnl1. by eapply list_elem_of_lookup_2.
    + apply strip_cr_glue; [done|]. by intros ->.
  - unfold append. rewrite lookup_insert_eq. cbn. rewrite !length_app, length_take. cbn. lia.
Qed.

(** A closed log accepts entries and drops them. *)
Theorem closed_log_drops_writes w d e j f :
  to_json e = Some j ->
  let s := snd (log_close (w, d)) in log_write to_json f e s = (Ok tt, s) /\ snd s = d.
Proof. intros Hj. cbn. by rewrite Hj. Qed.

Lemma find_latest_short names best : "txn-.log" ∈ names -> find_latest best names = Panic.
Proof.
  revert best. induction names as [|n names IH]; intros best; [by intros ?%elem_of_nil|].
  intros [<-|Hin]%elem_of_cons; [reflexivity|]. cbn.
  destruct (consider best n) as [b|e|] eqn:E; cbn; [by apply IH| |done].
  unfold consider, name_index in E. by repeat case_match.
Qed.

(** A file named with no index between the fixed parts makes every later opening
    of the log panic. *)
Theorem short_name_panics rotation (d : Dir) :
  "txn-.log" ∈ dom d -> log_writer_new OpenFine rotation d = (Panic, d).
Proof. intros Hd. unfold log_writer_new, find_latest_log. by rewrite find_latest_short; [|apply elem_of_names]. Qed.

End Runs.

(** * Witnesses *)

#[local] Existing Instance canonical_iter.

(** Entries that differ in index and time only, printed as three characters. *)
Definition demo_entry (i t : nat) : TransactionEntry unit := mkEntry "" (Z.of_nat t) (Z.of_nat i) (TRemoveWorker unit 0) true None.
Definition demo_print (e : TransactionEntry unit) : option text :=
  Some ["{"%char; ascii_of_nat (48 + Z.to_nat (raft_index e)); ascii_of_nat (48 + Z.to_nat (timestamp e))].
Definition demo_parse (l : text) : option (TransactionEntry unit) :=
  match l with [_; i; t] => Some (demo_entry (nat_of_ascii i - 48) (nat_of_ascii t - 48)) | _ => None end.

Lemma demo_good i : i = 1%nat \/ i = 2%nat \/ i = 3%nat -> json_good demo_print demo_parse (demo_entry i i).
Proof.
  intros Hi. eexists. split; [reflexivity|].
  destruct Hi as [->|[->| ->]]; (split_and!; [reflexivity|vm_compute; set_solver|reflexivity..]).
Qed.

Definition demo_ops : list (log_op unit) := [OpWrite (demo_entry 1 1); OpWrite (demo_entry 2 2); OpReopen 5; OpWrite (demo_entry 3 3)].

Lemma log_reads_back_writes_witness :
  exists w0 d0 w d, log_writer_new OpenFine 1 ∅ = (Ok w0, d0) /\ log_run demo_print demo_ops (w0, d0) = Ok (w, d) /\
    read_after_index demo_parse 1 d = Ok [demo_entry 2 2; demo_entry 3 3] /\
    read_range demo_parse 1 2 d = Ok [demo_entry 1 1; demo_entry 2 2].
Proof.
  apply (log_reads_back_writes demo_print demo_parse 1 demo_ops 1 1 2); [vm_compute; reflexivity|lia|].
  repeat constructor; apply demo_good; lia.
Defined.

Definition demo_writer : TransactionLogWriter := mkLogWriter (Some (log_name 1)) 0 1000.
Definition demo_dir : Dir := {[log_name 1 := []]}.

Lemma demo_ok : log_ok demo_writer demo_dir 1.
Proof. by apply single_ok. Qed.

Lemma torn_write_loses_next_witness :
  exists s1 s2, log_write demo_print (WriteFails "write transaction entry" 2) (demo_entry 1 1) (demo_writer, demo_dir) = (Err (Storage "write transaction entry"), s1) /\
    log_write demo_print WriteFine (demo_entry 2 2) s1 = (Ok tt, s2) /\
    read_after_index demo_parse 0 (snd s2) = read_after_index demo_parse 0 demo_dir.
Proof.
  apply (torn_write_loses_next demo_print demo_parse demo_writer demo_dir 1 (demo_entry 1 1) ["{"; "1"; "1"]%char (demo_entry 2 2) ["{"; "2"; "2"]%char).
  - apply demo_ok.
  - vm_compute. reflexivity.
  - reflexivity.
  - vm_compute. set_solver.
  - cbn. lia.
  - apply demo_good; lia.
  - reflexivity.
  - reflexivity.
  - reflexivity.
Defined.

Lemma closed_log_drops_writes_witness :
  let s := snd (log_close (demo_writer, demo_dir)) in
  log_write demo_print WriteFine (demo_entry 1 1) s = (Ok tt, s) /\ snd s = demo_dir.
Proof. apply (closed_log_drops_writes demo_print demo_writer demo_dir (demo_entry 1 1) ["{"; "1"; "1"]%char WriteFine). reflexivity. Defined.

Lemma short_name_panics_witness : log_writer_new OpenFine 5 {["txn-.log" := []]} = (Panic, {["txn-.log" := []]}).
Proof. apply (short_name_panics 5 {["txn-.log" := []]}). rewrite dom_singleton_L. set_solver. Defined.
