(* ===== verification/Enrollment.v ===== *)
(** Enrolment of nodes (blixard-core/src/transport/iroh_identity_enrollment.rs) and
    the registry of node identities it fills (NodeIdentityRegistry of
    transport/iroh_middleware.rs).

    The state file is modelled by what reading it gives.  Random values (token
    ids and secrets) are arguments.  Times are nanoseconds since the Unix epoch;
    the system time ends at 2^63 seconds. *)

From Stdlib Require Import ZArith Lia List Ascii.
From stdpp Require Import base tactics numbers gmap strings option.
From stdpp Require Import list.
From S2P Require Import Prelude Errors.

Open Scope Z_scope.

(** * The registry of identities *)

Section Registry.
Context {NodeId : Type} `{Countable NodeId}.

Record NodeIdentityRegistry : Type := mkRegistry {
  node_to_user : gmap NodeId string;
  user_roles : gmap string (list string);
  user_tenants : gmap string string
}.

Definition registry_new : NodeIdentityRegistry := mkRegistry ∅ ∅ ∅.

Definition register_node (node : NodeId) (user : string) (roles : list string) (tenant : string) (r : NodeIdentityRegistry)
    : NodeIdentityRegistry :=
  mkRegistry (<[node := user]> (node_to_user r)) (<[user := roles]> (user_roles r)) (<[user := tenant]> (user_tenants r)).

Definition get_user_identity (node : NodeId) (r : NodeIdentityRegistry) : option (string * list string * string) :=
  match node_to_user r !! node with
  | Some user => Some (user, default [] (user_roles r !! user), default "default" (user_tenants r !! user))
  | None => None
  end.

End Registry.
Arguments NodeIdentityRegistry NodeId {_ _}.

(** * Tokens *)

Record EnrollmentToken : Type := mkToken {
  token_id : string;
  secret : string;
  tok_user_id : string;
  tok_roles : list string;
  tok_tenant_id : string;
  tok_expires_at : Z;
  multi_use : bool;
  max_uses : option Z;
  use_count : Z
}.

Record EnrollmentResult : Type := mkResult {
  er_success : bool;
  er_user_id : string;
  er_roles : list string;
  er_tenant_id : string
}.

Record CertRoleMapping : Type := mkMapping {
  cert_field : string;
  map_pattern : string;
  map_roles : list string;
  map_tenant : option string
}.

(** The path of the CA certificate and [allow_self_signed] are not read by the code. *)
Record CertificateEnrollmentConfig : Type := mkCertConfig {
  cert_role_mappings : list CertRoleMapping;
  default_tenant : string
}.

(** What reading the state file gives. *)
Inductive state_file : Type :=
| NoStateFile
| StateFile (tokens : gmap string EnrollmentToken)
| Unreadable.

Section Manager.
Context {NodeId : Type} `{Countable NodeId}.

Record IdentityEnrollmentManager : Type := mkEnrollment {
  em_registry : NodeIdentityRegistry NodeId;
  em_tokens : gmap string EnrollmentToken;
  cert_config : option CertificateEnrollmentConfig;
  has_state_path : bool;
  em_file : state_file
}.

Definition enroll_st (A : Type) : Type := st IdentityEnrollmentManager BlixardError A.

Definition enrollment_new (config : option CertificateEnrollmentConfig) (path : bool) (file : state_file) : IdentityEnrollmentManager :=
  mkEnrollment registry_new ∅ config path file.

Definition set_em_tokens (t : gmap string EnrollmentToken) (m : IdentityEnrollmentManager) : IdentityEnrollmentManager :=
  mkEnrollment (em_registry m) t (cert_config m) (has_state_path m) (em_file m).
Definition set_em_registry (r : NodeIdentityRegistry NodeId) (m : IdentityEnrollmentManager) : IdentityEnrollmentManager :=
  mkEnrollment r (em_tokens m) (cert_config m) (has_state_path m) (em_file m).
Definition set_em_file (f : state_file) (m : IdentityEnrollmentManager) : IdentityEnrollmentManager :=
  mkEnrollment (em_registry m) (em_tokens m) (cert_config m) (has_state_path m) f.

(** How a write of the state file ends; one that fails leaves some content. *)
Inductive save_fate : Type := Saved | SaveFails (content : state_file).

Definition save_state (fate : save_fate) : enroll_st unit := fun m =>
  if has_state_path m then
    match fate with
    | Saved => (Ok tt, set_em_file (StateFile (em_tokens m)) m)
    | SaveFails content => (Err (ConfigurationError "file_write"), set_em_file content m)
    end
  else (Ok tt, m).

Definition load_state : enroll_st unit := fun m =>
  if has_state_path m then
    match em_file m with
    | StateFile tokens => (Ok tt, set_em_tokens tokens m)
    | NoStateFile => (Ok tt, m)
    | Unreadable => (Err (ConfigurationError "json_parser"), m)
    end
  else (Ok tt, m).

(** [SystemTime + Duration] panics when the sum is no system time. *)
Definition time_add (now d : Z) : BlixardResult Z :=
  if (now + d) / 1000000000 <? 2 ^ 63 then Ok (now + d) else Panic.

Definition generate_enrollment_token (fate : save_fate) (now : Z) (id random_secret user : string) (roles : list string) (tenant : string)
    (validity : Z) (multi : bool) (limit : option Z) : enroll_st EnrollmentToken :=
  let* expires := slift (time_add now validity) in
  let token := mkToken id random_secret user roles tenant expires multi limit 0 in
  smodify (fun m => set_em_tokens (<[id := token]> (em_tokens m)) m) ;*
  save_state fate ;*
  sret token.

Definition set_use_count (n : Z) (t : EnrollmentToken) : EnrollmentToken :=
  mkToken (token_id t) (secret t) (tok_user_id t) (tok_roles t) (tok_tenant_id t) (tok_expires_at t) (multi_use t) (max_uses t) n.

(** The tests on a token, in their order. *)
Definition token_usable (now : Z) (given : string) (t : EnrollmentToken) : bool :=
  String.eqb (secret t) given && negb (tok_expires_at t <? now) &&
  (multi_use t || negb (0 <? use_count t)) &&
  match max_uses t with Some limit => negb (limit <=? use_count t) | None => true end.

Context `{Profile}.

Definition enroll_with_token (fate : save_fate) (now : Z) (node : NodeId) (id given : string) : enroll_st EnrollmentResult :=
  let* m := sget in
  match em_tokens m !! id with
  | None => sfail Security
  | Some t =>
      if negb (token_usable now given t) then sfail Security
      else
        smodify (fun m => set_em_registry (register_node node (tok_user_id t) (tok_roles t) (tok_tenant_id t) (em_registry m)) m) ;*
        let* n := slift (arith_u 32 (use_count t + 1)) in
        smodify (fun m => set_em_tokens (<[id := set_use_count n t]> (em_tokens m)) m) ;*
        (if multi_use t then sret tt else smodify (fun m => set_em_tokens (delete id (em_tokens m)) m)) ;*
        save_state fate ;*
        sret (mkResult true (tok_user_id t) (tok_roles t) (tok_tenant_id t))
  end.

Definition revoke_token (fate : save_fate) (id : string) : enroll_st unit :=
  smodify (fun m => set_em_tokens (delete id (em_tokens m)) m) ;*
  save_state fate.

End Manager.
Arguments IdentityEnrollmentManager NodeId {_ _}.

(** * Patterns *)

Abbreviation chars := (list ascii).

Definition star : ascii := "*".

(** [pattern.split('*')] *)
Fixpoint split_star (p : chars) : list chars :=
  match p with
  | [] => [[]]
  | c :: p' =>
      if Ascii.eqb c star then [] :: split_star p'
      else match split_star p' with part :: parts => (c :: part) :: parts | [] => [[c]] end
  end.

Fixpoint starts_with (part v : chars) : bool :=
  match part, v with
  | [], _ => true
  | a :: part', b :: v' => Ascii.eqb a b && starts_with part' v'
  | _ :: _, [] => false
  end.

Definition ends_with (part v : chars) : bool := starts_with (rev part) (rev v).

(** [find]: the first place where [part] occurs. *)
Fixpoint find (part v : chars) : option nat :=
  if starts_with part v then Some O
  else match v with [] => None | _ :: v' => S <$> find part v' end.

(** The loop over the parts; [rest] is [value[pos..]]. *)
Fixpoint match_parts (first : bool) (value rest : chars) (parts : list chars) : bool :=
  match parts with
  | [] => true
  | part :: parts' =>
      match part with
      | [] => match_parts false value rest parts'
      | _ =>
          if first && negb (starts_with part value) then false
          else match find part rest with
          | Some k => match_parts false value (drop (k + length part) rest) parts'
          | None => false
          end
      end
  end.

Definition match_chars (value pattern : chars) : bool :=
  if existsb (Ascii.eqb star) pattern then
    let parts := split_star pattern in
    match_parts true value value parts &&
    match last parts with Some part => match part with [] => true | _ => ends_with part value end | None => true end
  else bool_decide (value = pattern).

Definition matches_pattern (value pattern : string) : bool :=
  match_chars (String.list_ascii_of_string value) (String.list_ascii_of_string pattern).

(** * Certificates *)

Section Certificates.
Context {NodeId : Type} `{Countable NodeId} `{HashIter}.

Definition generate_user_id_from_cert (attrs : gmap string string) : string :=
  match attrs !! "CN" with
  | Some cn => cn
  | None =>
      match attrs !! "emailAddress" with
      | Some email => email
      | None =>
          match attrs !! "OU", attrs !! "O" with
          | Some ou, Some o => ou +:+ "@" +:+ o
          | _, _ => match hash_iter attrs with (_, v) :: _ => v | [] => "unknown" end
          end
      end
  end.

(** One mapping of the configuration. *)
Definition apply_mapping (attrs : gmap string string) (acc : list string * string) (m : CertRoleMapping) : list string * string :=
  match attrs !! cert_field m with
  | Some value => if matches_pattern value (map_pattern m) then (fst acc ++ map_roles m, default (snd acc) (map_tenant m)) else acc
  | None => acc
  end.

Definition enroll_with_certificate (node : NodeId) (attrs : gmap string string) : enroll_st (NodeId:=NodeId) EnrollmentResult :=
  let* m := sget in
  match cert_config m with
  | None => sfail (ConfigurationError "iroh_identity_enrollment.cert_config")
  | Some config =>
      let '(roles, tenant) := fold_left (apply_mapping attrs) (cert_role_mappings config) ([], default_tenant config) in
      match roles with
      | [] => sfail Security
      | _ =>
          let user := generate_user_id_from_cert attrs in
          smodify (fun m => set_em_registry (register_node node user roles tenant (em_registry m)) m) ;*
          sret (mkResult true user roles tenant)
      end
  end.

End Certificates.

(** * Histories *)

Section History.
Context {NodeId : Type} `{Countable NodeId} `{HashIter} `{Profile}.

Inductive enroll_op : Type :=
| EToken (fate : save_fate) (now : Z) (node : NodeId) (id given : string)
| ECert (node : NodeId) (attrs : gmap string string)
| ERevoke (fate : save_fate) (id : string)
| EGenerate (fate : save_fate) (now : Z) (id random_secret user : string) (roles : list string) (tenant : string)
    (validity : Z) (multi : bool) (limit : option Z).

Definition enroll_run (m : IdentityEnrollmentManager NodeId) (op : enroll_op) : IdentityEnrollmentManager NodeId :=
  match op with
  | EToken fate now node id given => snd (enroll_with_token fate now node id given m)
  | ECert node attrs => snd (enroll_with_certificate node attrs m)
  | ERevoke fate id => snd (revoke_token fate id m)
  | EGenerate fate now id random_secret user roles tenant validity multi limit =>
      snd (generate_enrollment_token fate now id random_secret user roles tenant validity multi limit m)
  end.

(** Whether an operation registers a node by token [tid], saved or not. *)
Definition admits (tid : string) (m : IdentityEnrollmentManager NodeId) (op : enroll_op) : bool :=
  match op with
  | EToken _ now _ id given =>
      String.eqb id tid && match em_tokens m !! id with Some t => token_usable now given t | None => false end
  | _ => false
  end.

(** The number of nodes a history registers by token [tid]. *)
Fixpoint admitted (tid : string) (ops : list enroll_op) (m : IdentityEnrollmentManager NodeId) : nat :=
  match ops with
  | [] => O
  | op :: ops' => ((if admits tid m op then 1 else 0) + admitted tid ops' (enroll_run m op))%nat
  end.

Definition generates (tid : string) (op : enroll_op) : bool :=
  match op with EGenerate _ _ id _ _ _ _ _ _ _ => String.eqb id tid | _ => false end.

End History.

(** * Specifications *)

(** A pattern with [*] for any sequence of characters. *)
Inductive glob : chars -> chars -> Prop :=
| glob_nil : glob [] []
| glob_char c p v : c <> star -> glob p v -> glob (c :: p) (c :: v)
| glob_star p u v : glob p v -> glob (star :: p) (u ++ v).

(** The parts of a pattern after a star, each found in what is left of the value. *)
Fixpoint star_parts (parts : list chars) (w : chars) : Prop :=
  match parts with
  | [] => False
  | [part] => exists u, w = u ++ part
  | part :: parts' => exists u w', w = u ++ part ++ w' /\ star_parts parts' w'
  end.

(** The uses a token has left. *)
Definition uses_left (t : EnrollmentToken) : option Z :=
  let limit := match max_uses t with Some limit => Some (limit - use_count t) | None => None end in
  if multi_use t then limit
  else Some (match limit with Some l => Z.min l (1 - use_count t) | None => 1 - use_count t end).

Definition token_wf (t : EnrollmentToken) : Prop :=
  0 <= use_count t /\ match max_uses t with Some limit => limit <= u32_max | None => True end.

(** At most [n] uses are left of a token, if it is there. *)
Definition bounded_by (n : Z) (o : option EnrollmentToken) : Prop :=
  match o with None => True | Some t => token_wf t /\ exists l, uses_left t = Some l /\ l <= n end.

(** * Patterns *)

Lemma starts_with_spec part v : starts_with part v = true <-> exists w, v = part ++ w.
Proof.
  revert v. induction part as [|a part IH]; intros v; cbn; [split; [by exists v|done]|].
  destruct v as [|b v]; [split; [done|by intros [w ?]]|].
  rewrite andb_true_iff, Ascii.eqb_eq, IH. split.
  - intros [-> [w ->]]. by exists w.
  - intros [w [= -> ->]]. split; [done|by exists w].
Qed.

Lemma ends_with_spec part v : ends_with part v = true <-> exists u, v = u ++ part.
Proof.
  unfold ends_with. rewrite starts_with_spec. split.
  - intros [w E]. exists (rev w). by rewrite <- (rev_involutive v), E, rev_app_distr, rev_involutive.
  - intros [u ->]. exists (rev u). by rewrite rev_app_distr.
Qed.

(** [find] gives the first occurrence. *)
Lemma find_some part v k :
  find part v = Some k -> exists u w, v = u ++ part ++ w /\ length u = k /\ forall u' w', v = u' ++ part ++ w' -> (k <= length u')%nat.
Proof.
  revert k. induction v as [|b v IH]; intros k; cbn; destruct (starts_with part _) eqn:E.
  - intros [= <-]. apply starts_with_spec in E as [w ->]. exists [], w. split_and!; [done|done|]. intros; lia.
  - done.
  - intros [= <-]. apply starts_with_spec in E as [w ->]. exists [], w. split_and!; [done|done|]. intros; lia.
  - intros (k' & Hk & ->)%fmap_Some. destruct (IH _ Hk) as (u & w & -> & <- & Hmin). exists (b :: u), w. split_and!; [done|done|].
    intros [|c u'] w' Hv; [|cbn in *; injection Hv as _ Hv; specialize (Hmin _ _ Hv); lia].
    assert (starts_with part (b :: u ++ part ++ w) = true); [|congruence]. apply starts_with_spec. by exists w'.
Qed.

Lemma find_none part v u w : find part v = None -> v <> u ++ part ++ w.
Proof.
  revert u. induction v as [|b v IH]; intros u; cbn; destruct (starts_with part _) eqn:E; try done.
  - intros _ Hv. assert (starts_with part [] = true); [|congruence]. apply starts_with_spec.
    by destruct u, part.
  - intros Hn%fmap_None Hv. destruct u as [|c u]; [|injection Hv as _ Hv; by eapply IH].
    assert (starts_with part (b :: v) = true); [|congruence]. apply starts_with_spec. by exists w.
Qed.

Lemma star_parts_cons part part2 parts w :
  star_parts (part :: part2 :: parts) w <-> exists u w', w = u ++ part ++ w' /\ star_parts (part2 :: parts) w'.
Proof. done. Qed.

(** More characters before the rest do no harm. *)
Lemma star_parts_prefix parts x w : star_parts parts w -> star_parts parts (x ++ w).
Proof.
  destruct parts as [|part [|part2 parts]]; [done|cbn|rewrite !star_parts_cons].
  - intros [u ->]. exists (x ++ u). by rewrite app_assoc.
  - intros (u & w' & -> & Hw). exists (x ++ u), w'. by rewrite <- app_assoc.
Qed.

Lemma star_parts_nil parts w : parts <> [] -> star_parts ([] :: parts) w <-> star_parts parts w.
Proof.
  destruct parts as [|part parts]; [done|]. intros _. rewrite star_parts_cons. split.
  - intros (u & w' & -> & Hw). by apply star_parts_prefix.
  - intros Hw. by exists [], w.
Qed.

(** A part is best matched at its first occurrence. *)
Lemma star_parts_first part parts w :
  parts <> [] ->
  star_parts (part :: parts) w <-> exists k, find part w = Some k /\ star_parts parts (drop (k + length part) w).
Proof.
  intros Hp. destruct parts as [|part2 parts]; [done|]. rewrite star_parts_cons. split.
  - intros (u & w' & -> & Hw). destruct (find part (u ++ part ++ w')) as [k|] eqn:E; [|by apply (find_none _ _ u w') in E].
    exists k. split; [done|]. apply find_some in E as (u0 & w0 & Hv & <- & Hmin). specialize (Hmin _ _ eq_refl).
    assert (exists x, drop (length u0 + length part) (u ++ part ++ w') = x ++ w') as [x ->]; [|by apply star_parts_prefix].
    exists (drop (length u0 + length part) (u ++ part)). rewrite app_assoc. rewrite drop_app_le; [done|]. rewrite length_app. lia.
  - intros (k & (u & w' & -> & <- & _)%find_some & Hw). exists u, w'. split; [done|].
    by rewrite app_assoc, drop_app_length' in Hw by by rewrite length_app.
Qed.

(** The last part: found after [pre], and at the end of the whole value. *)
Lemma star_parts_last part pre w :
  part <> [] -> star_parts [part] w <-> is_Some (find part w) /\ ends_with part (pre ++ w) = true.
Proof.
  intros Hp. cbn. rewrite ends_with_spec. split.
  - intros [u ->]. split; [|exists (pre ++ u); by rewrite app_assoc].
    destruct (find part (u ++ part)) eqn:E; [done|]. apply (find_none _ _ u []) in E. by rewrite app_nil_r in E.
  - intros [[k (u & w' & -> & _ & _)%find_some] [u' E]].
    assert (Hlen : (length part <= length (u ++ part ++ w'))%nat) by (rewrite !length_app; lia).
    set (v := u ++ part ++ w') in *. clearbody v.
    exists (take (length v - length part) v). rewrite <- (take_drop (length v - length part) v) at 1. f_equal.
    pose proof (f_equal length E) as El. rewrite !length_app in El.
    transitivity (drop (length u') (pre ++ v)); [rewrite drop_app_ge by lia; f_equal; lia|rewrite E; apply drop_app_length].
Qed.

Lemma match_parts_star parts pre w :
  parts <> [] ->
  star_parts parts w <->
  match_parts false (pre ++ w) w parts = true /\
  match last parts with Some part => match part with [] => true | _ => ends_with part (pre ++ w) end | None => true end = true.
Proof.
  revert pre w. induction parts as [|part parts IH]; intros pre w Hne; [done|].
  destruct parts as [|part2 parts].
  - destruct part as [|c part]; [cbn; split; [done|intros _; exists w; by rewrite app_nil_r]|].
    rewrite (star_parts_last _ pre) by done. cbn [last match_parts andb].
    destruct (find (c :: part) w); split; intros [Hf He]; (split; [done|exact He]) || by destruct Hf.
  - change (last (part :: part2 :: parts)) with (last (part2 :: parts)).
    destruct part as [|c part].
    + rewrite star_parts_nil by done. apply IH. done.
    + rewrite star_parts_first by done. cbn [match_parts andb].
      destruct (find (c :: part) w) as [k|] eqn:E.
      * specialize (IH (pre ++ take (k + length (c :: part)) w) (drop (k + length (c :: part)) w) ltac:(done)).
        rewrite <- app_assoc, take_drop in IH. rewrite <- IH. split; [by intros (k' & [= <-] & ?)|intros ?; by exists k].
      * split; [by intros (k' & ? & _)|by intros [? _]].
Qed.

Lemma split_star_cons p : exists part parts, split_star p = part :: parts.
Proof. destruct p as [|c p]; cbn; [eauto|]. destruct (Ascii.eqb c star); [eauto|]. destruct (split_star p); eauto. Qed.

Lemma glob_star_inv p v : glob (star :: p) v <-> exists u w, v = u ++ w /\ glob p w.
Proof.
  split.
  - inversion 1; simplify_eq; eauto.
  - intros (u & w & -> & Hw). by constructor.
Qed.

Lemma glob_char_inv c p v : c <> star -> glob (c :: p) v <-> exists w, v = c :: w /\ glob p w.
Proof.
  intros Hc. split.
  - inversion 1; simplify_eq; eauto.
  - intros (w & -> & Hw). by constructor.
Qed.

(** A pattern in terms of its parts. *)
Lemma glob_parts p v :
  glob p v <-> match split_star p with
               | [] => False
               | [part] => v = part
               | part :: parts => exists w, v = part ++ w /\ star_parts parts w
               end.
Proof.
  revert v. induction p as [|c p IH]; intros v; cbn [split_star].
  { split; [by inversion 1|intros ->; constructor]. }
  destruct (split_star_cons p) as (part & parts & E). rewrite E in *.
  destruct (Ascii.eqb_spec c star) as [->|Hc].
  - rewrite glob_star_inv. setoid_rewrite IH. split.
    + intros (u & w & -> & Hw). exists (u ++ w). split; [done|].
      destruct parts as [|part2 parts]; [by exists u; subst|]. rewrite star_parts_cons.
      destruct Hw as (w' & -> & Hw). by exists u, w'.
    + intros (w & -> & Hw). cbn [app]. destruct parts as [|part2 parts]; [destruct Hw as [u ->]; by exists u, part|].
      rewrite star_parts_cons in Hw. destruct Hw as (u & w' & -> & Hw). exists u, (part ++ w'). split; [done|]. by exists w'.
  - rewrite glob_char_inv by done. setoid_rewrite IH. destruct parts as [|part2 parts].
    + split; [by intros (w & -> & ->)|intros ->; by exists part].
    + split; [intros (w & -> & w' & -> & Hw); by exists w'|].
      intros (w & -> & Hw). exists (part ++ w). split; [done|]. by exists w.
Qed.

Lemma no_star p : existsb (Ascii.eqb star) p = false -> split_star p = [p].
Proof.
  induction p as [|c p IH]; cbn [existsb split_star]; [done|]. rewrite orb_false_iff. intros [Hc Hp].
  rewrite Ascii.eqb_sym, Hc. by rewrite IH.
Qed.

Lemma some_star p : existsb (Ascii.eqb star) p = true -> exists part part2 parts, split_star p = part :: part2 :: parts.
Proof.
  induction p as [|c p IH]; cbn [existsb split_star]; [done|]. rewrite orb_true_iff, (Ascii.eqb_sym star c).
  destruct (Ascii.eqb c star); [intros _; destruct (split_star_cons p) as (part & parts & ->); eauto|].
  intros [?|Hp]; [done|]. destruct (IH Hp) as (part & part2 & parts & ->). eauto.
Qed.

(** C25: the matcher decides exactly the language of the pattern, in which a star
    stands for any sequence of characters and every other character for itself. *)
Theorem matches_pattern_glob value pattern :
  matches_pattern value pattern = true <-> glob (String.list_ascii_of_string pattern) (String.list_ascii_of_string value).
Proof.
  unfold matches_pattern. generalize (String.list_ascii_of_string value), (String.list_ascii_of_string pattern). clear.
  intros v p. rewrite glob_parts. unfold match_chars. destruct (existsb (Ascii.eqb star) p) eqn:Es.
  2: { rewrite (no_star p Es). by rewrite bool_decide_eq_true. }
  destruct (some_star p Es) as (part & part2 & parts & ->). rewrite andb_true_iff.
  change (last (part :: part2 :: parts)) with (last (part2 :: parts)).
  destruct part as [|c part].
  - cbn [match_parts]. pose proof (match_parts_star (part2 :: parts) [] v ltac:(done)) as Hm. cbn [app] in Hm. rewrite <- Hm.
    split; [intros Hv; by exists v|by intros (w & -> & Hw)].
  - cbn [match_parts andb]. destruct (starts_with (c :: part) v) eqn:Ew.
    + apply starts_with_spec in Ew as [w ->]. cbn [negb].
      assert (find (c :: part) ((c :: part) ++ w) = Some O) as ->.
      { assert (starts_with (c :: part) ((c :: part) ++ w) = true) as Hs by (apply starts_with_spec; by exists w).
        cbn in *. by rewrite Hs. }
      rewrite Nat.add_0_l, drop_app_length.
      pose proof (match_parts_star (part2 :: parts) (c :: part) w ltac:(done)) as Hm. rewrite <- Hm.
      split; [intros Hw; by exists w|]. by intros (w' & ->%app_inv_head & Hw).
    + cbn [negb]. split; [by intros [? _]|]. intros (w & -> & _).
      assert (starts_with (c :: part) ((c :: part) ++ w) = true); [apply starts_with_spec; by exists w|congruence].
Qed.

(** * Tokens *)

Section Tokens.
Context {NodeId : Type} `{Countable NodeId} `{HashIter} `{Profile}.
Implicit Types m : IdentityEnrollmentManager NodeId.

Lemma save_tokens fate m : em_tokens (snd (save_state fate m)) = em_tokens m.
Proof. unfold save_state. by repeat case_match. Qed.

(** A use of a token with a limit: the count goes up and fits its width. *)
Lemma use_fits now given t l :
  token_wf t -> token_usable now given t = true -> uses_left t = Some l ->
  1 <= l /\ arith_u 32 (E:=BlixardError) (use_count t + 1) = Ok (use_count t + 1).
Proof.
  intros [Hc Hm] Hu Hl. unfold token_usable, uses_left in *. rewrite !andb_true_iff in Hu. destruct Hu as [[_ Hs] Hx].
  assert (1 <= l /\ use_count t + 1 <= u32_max) as [? ?].
  { destruct (multi_use t), (max_uses t) as [limit|]; cbn in Hs; simplify_eq;
      rewrite ?negb_true_iff, ?Z.ltb_ge, ?Z.leb_gt in *; unfold u32_max in *; lia. }
  split; [done|]. apply arith_u_fits. unfold u32_max in *. lia.
Qed.

Lemma used_bounded n t l :
  token_wf t -> multi_use t = true -> uses_left t = Some l -> l <= n -> bounded_by (n - 1) (Some (set_use_count (use_count t + 1) t)).
Proof.
  intros [Hc Hm] Hmu Hl Hle. unfold uses_left in Hl. rewrite Hmu in Hl. destruct (max_uses t) as [limit|] eqn:Em; [|done].
  injection Hl as <-. split; [split; cbn; [lia|by rewrite Em]|]. unfold uses_left. cbn. rewrite Hmu, Em. eexists. split; [done|lia].
Qed.

Lemma save_then {A} fate (r : A) m : em_tokens (snd ((save_state fate ;* sret r) m)) = em_tokens m.
Proof. unfold sbind. pose proof (save_tokens fate m). by destruct (save_state fate m) as [[]?]. Qed.

Lemma enroll_tokens fate now node id given m :
  em_tokens (snd (enroll_with_token fate now node id given m))
  = match em_tokens m !! id with
    | Some t =>
        if token_usable now given t then
          match arith_u 32 (E:=BlixardError) (use_count t + 1) with
          | Ok n => if multi_use t then <[id := set_use_count n t]> (em_tokens m) else delete id (em_tokens m)
          | _ => em_tokens m
          end
        else em_tokens m
    | None => em_tokens m
    end.
Proof.
  unfold enroll_with_token. unfold sbind at 1, sget. destruct (em_tokens m !! id) as [t|]; [|done].
  destruct (token_usable now given t); cbn [negb]; [|done]. unfold sbind at 1, smodify at 1. cbn [fst snd].
  unfold sbind at 1, slift at 1. destruct (arith_u 32 (use_count t + 1)) as [n|e|]; [|done|done].
  unfold sbind at 1, smodify at 1. destruct (multi_use t); unfold sbind at 1; cbn [sret smodify]; rewrite save_then; cbn; [done|].
  by rewrite delete_insert_eq.
Qed.

Lemma use_step n fate now node id given m tid :
  bounded_by n (em_tokens m !! tid) ->
  let op := EToken fate now node id given in
  if admits tid m op then 1 <= n /\ bounded_by (n - 1) (em_tokens (enroll_run m op) !! tid)
  else bounded_by n (em_tokens (enroll_run m op) !! tid).
Proof.
  intros Hb. cbn [admits enroll_run]. rewrite enroll_tokens.
  destruct (em_tokens m !! id) as [t|] eqn:Et; [|rewrite andb_false_r; done].
  destruct (token_usable now given t) eqn:Eu; [rewrite andb_true_r|by rewrite andb_false_r].
  destruct (String.eqb_spec id tid) as [->|Hne].
  - rewrite Et in Hb. destruct Hb as (Hwf & l & Hl & Hle). destruct (use_fits _ _ _ _ Hwf Eu Hl) as [Hl1 ->].
    split; [lia|]. destruct (multi_use t) eqn:Em; [rewrite lookup_insert_eq; by eapply used_bounded|by rewrite lookup_delete_eq].
  - destruct (arith_u 32 _); [|done|done]. destruct (multi_use t); [by rewrite lookup_insert_ne|by rewrite lookup_delete_ne].
Qed.

Lemma other_step n m op tid :
  bounded_by n (em_tokens m !! tid) -> generates tid op = false ->
  match op with EToken _ _ _ _ _ => True | _ => bounded_by n (em_tokens (enroll_run m op) !! tid) end.
Proof.
  intros Hb Hg. destruct op as [|node attrs|fate id|fate now id rs user roles tenant validity multi limit]; [done|..]; cbn [enroll_run].
  - assert (em_tokens (snd (enroll_with_certificate node attrs m)) = em_tokens m) as ->; [|done].
    unfold enroll_with_certificate, sbind, sget. destruct (cert_config m); [|done].
    destruct (fold_left _ _ _) as [[|r roles] tenant]; done.
  - unfold revoke_token. unfold sbind, smodify. cbn [fst snd]. rewrite save_tokens. cbn.
    destruct (decide (id = tid)) as [->|?]; [by rewrite lookup_delete_eq|by rewrite lookup_delete_ne].
  - unfold generate_enrollment_token. unfold sbind at 1, slift. destruct (time_add now validity); [|done|done].
    unfold sbind at 1, smodify. rewrite save_then. cbn in *. rewrite lookup_insert_ne; [done|].
    by destruct (String.eqb_spec id tid).
Qed.

(** C20: a token admits no more nodes than it has uses left: a single-use token one,
    a limited token its limit, in any history of enrolments, new tokens and
    revocations, and also when saving the state fails. *)
Theorem token_uses_bounded tid t n ops m :
  em_tokens m !! tid = Some t -> token_wf t -> uses_left t = Some n ->
  forallb (fun op => negb (generates tid op)) ops = true ->
  Z.of_nat (admitted tid ops m) <= Z.max 0 n.
Proof.
  intros Ht Hwf Hn Hg.
  assert (Hb : bounded_by n (em_tokens m !! tid)) by (rewrite Ht; split; [done|]; exists n; split; [done|lia]).
  clear t Ht Hwf Hn. revert n m Hb. induction ops as [|op ops IH]; intros n m Hb; cbn [admitted]; [lia|].
  cbn in Hg. apply andb_true_iff in Hg as [Hop Hg]. apply negb_true_iff in Hop. specialize (IH Hg).
  destruct op as [fate now node id given|node attrs|fate id|fate now id rs user roles tenant validity multi limit].
  - pose proof (use_step n fate now node id given m tid Hb) as Hs. cbn zeta in Hs. destruct (admits _ _ _).
    + destruct Hs as [? Hs]. specialize (IH _ _ Hs). lia.
    + specialize (IH _ _ Hs). lia.
  - specialize (IH _ _ (other_step n m _ tid Hb Hop)). cbn [admits]. lia.
  - specialize (IH _ _ (other_step n m _ tid Hb Hop)). cbn [admits]. lia.
  - specialize (IH _ _ (other_step n m _ tid Hb Hop)). cbn [admits]. lia.
Qed.

Lemma register_identity node user roles tenant (r : NodeIdentityRegistry NodeId) :
  get_user_identity node (register_node node user roles tenant r) = Some (user, roles, tenant).
Proof. unfold get_user_identity. cbn. by rewrite !lookup_insert_eq. Qed.

Lemma save_registry fate m : em_registry (snd (save_state fate m)) = em_registry m.
Proof. unfold save_state. by repeat case_match. Qed.

(** An enrolment with a usable token, up to the save. *)
Lemma enroll_usable fate now node id given m t n :
  em_tokens m !! id = Some t -> token_usable now given t = true -> arith_u 32 (E:=BlixardError) (use_count t + 1) = Ok n ->
  enroll_with_token fate now node id given m
  = (save_state fate ;* sret (mkResult true (tok_user_id t) (tok_roles t) (tok_tenant_id t)))
      (set_em_tokens (if multi_use t then <[id := set_use_count n t]> (em_tokens m) else delete id (em_tokens m))
         (set_em_registry (register_node node (tok_user_id t) (tok_roles t) (tok_tenant_id t) (em_registry m)) m)).
Proof.
  intros Ht Hu Hn. unfold enroll_with_token. unfold sbind at 1, sget. rewrite Ht, Hu. cbn [negb].
  unfold sbind at 1, smodify at 1. unfold sbind at 1, slift at 1. rewrite Hn.
  unfold sbind at 1, smodify at 1. destruct (multi_use t); unfold sbind at 1; cbn [sret smodify]; [done|].
  unfold set_em_tokens at 1. cbn. by rewrite delete_insert_eq.
Qed.

(** A node is enrolled only with the secret of a token that has not expired, and
    then has the identity of the token. *)
Theorem enrolled_by_token fate now node id given m r m' :
  enroll_with_token fate now node id given m = (Ok r, m') ->
  exists t, em_tokens m !! id = Some t /\ secret t = given /\ now <= tok_expires_at t /\
    r = mkResult true (tok_user_id t) (tok_roles t) (tok_tenant_id t) /\
    get_user_identity node (em_registry m') = Some (tok_user_id t, tok_roles t, tok_tenant_id t).
Proof.
  intros E. destruct (em_tokens m !! id) as [t|] eqn:Et; [|by unfold enroll_with_token, sbind, sget in E; rewrite Et in E].
  destruct (token_usable now given t) eqn:Eu; [|by unfold enroll_with_token, sbind, sget in E; rewrite Et, Eu in E].
  destruct (arith_u 32 (E:=BlixardError) (use_count t + 1)) as [n|e|] eqn:En.
  2, 3: by unfold enroll_with_token, sbind, sget, smodify, slift in E; rewrite Et, Eu in E; cbn [negb] in E; rewrite En in E.
  rewrite (enroll_usable _ _ _ _ _ _ _ _ Et Eu En) in E. apply sbind_ok_inv in E as (u & m1 & Es & [= <- <-]).
  unfold token_usable in Eu. rewrite !andb_true_iff, String.eqb_eq, negb_true_iff, Z.ltb_ge in Eu.
  exists t. split_and!; [done|by apply Eu|by apply Eu|done|].
  replace m1 with (snd (save_state fate (set_em_tokens (if multi_use t then <[id := set_use_count n t]> (em_tokens m) else delete id (em_tokens m))
         (set_em_registry (register_node node (tok_user_id t) (tok_roles t) (tok_tenant_id t) (em_registry m)) m)))) by (by rewrite Es).
  rewrite save_registry. cbn. apply register_identity.
Qed.

(** A save that fails makes a single-use token usable again: the first enrolment
    reports an error although its node is registered, and once the state is loaded
    from the file the token admits a second node. *)
Theorem unsaved_token_used_again now n1 n2 id given m tokens t :
  has_state_path m = true -> em_file m = StateFile tokens -> tokens !! id = Some t -> em_tokens m !! id = Some t ->
  token_usable now given t = true -> multi_use t = false -> use_count t = 0 -> n1 <> n2 ->
  exists m1 m2 m3 r, enroll_with_token (SaveFails (em_file m)) now n1 id given m = (Err (ConfigurationError "file_write"), m1) /\
    load_state m1 = (Ok tt, m2) /\ enroll_with_token Saved now n2 id given m2 = (Ok r, m3) /\
    node_to_user (em_registry m3) !! n1 = Some (tok_user_id t) /\ node_to_user (em_registry m3) !! n2 = Some (tok_user_id t).
Proof.
  intros Hp Hf Htok Ht Hu Hm Hc Hne.
  assert (Hn : arith_u 32 (E:=BlixardError) (use_count t + 1) = Ok 1) by (rewrite Hc; apply arith_u_fits; lia).
  do 4 eexists. split; [rewrite (enroll_usable _ _ _ _ _ _ _ _ Ht Hu Hn); unfold sbind, save_state; cbn; rewrite Hp; reflexivity|].
  split; [unfold load_state; cbn; rewrite Hp, Hf; reflexivity|].
  split; [erewrite enroll_usable; [|exact Htok|exact Hu|exact Hn]; unfold sbind, save_state; cbn; rewrite Hp; reflexivity|].
  cbn. rewrite lookup_insert_ne by done. by rewrite !lookup_insert_eq.
Qed.

(** Roles and tenant belong to the user: registering a node of a user changes the
    roles and the tenant of every node registered for that user before. *)
Theorem registering_changes_other_nodes (r : NodeIdentityRegistry NodeId) n1 n2 user roles1 tenant1 roles2 tenant2 :
  n1 <> n2 -> get_user_identity n1 r = Some (user, roles1, tenant1) ->
  get_user_identity n1 (register_node n2 user roles2 tenant2 r) = Some (user, roles2, tenant2).
Proof.
  intros Hne. unfold get_user_identity. cbn. rewrite lookup_insert_ne by done.
  destruct (node_to_user r !! n1); [|done]. intros [= -> _ _]. by rewrite !lookup_insert_eq.
Qed.

End Tokens.

(** * Witnesses *)

#[local] Existing Instance canonical_iter.
#[local] Instance release_profile : Profile := false.

Definition demo_token : EnrollmentToken := mkToken "enroll_1" "s3cret" "alice" ["operator"] "t1" 1000 false None 0.
Definition demo_manager : IdentityEnrollmentManager Z :=
  mkEnrollment registry_new {["enroll_1" := demo_token]} None true (StateFile {["enroll_1" := demo_token]}).

Lemma token_uses_bounded_witness :
  Z.of_nat (admitted "enroll_1" [EToken (SaveFails Unreadable) 5 7 "enroll_1" "s3cret"; EToken Saved 6 8 "enroll_1" "s3cret"] demo_manager) <= Z.max 0 1.
Proof.
  apply (token_uses_bounded "enroll_1" demo_token 1); [reflexivity|split; cbn; lia|reflexivity|reflexivity].
Defined.

Lemma enrolled_by_token_witness :
  exists t, em_tokens demo_manager !! "enroll_1" = Some t /\ secret t = "s3cret" /\ 5 <= tok_expires_at t /\
    mkResult true "alice" ["operator"] "t1" = mkResult true (tok_user_id t) (tok_roles t) (tok_tenant_id t) /\
    get_user_identity 7 (em_registry (snd (enroll_with_token Saved 5 7 "enroll_1" "s3cret" demo_manager))) = Some (tok_user_id t, tok_roles t, tok_tenant_id t).
Proof.
  apply (enrolled_by_token Saved 5 7 "enroll_1" "s3cret" demo_manager). vm_compute. reflexivity.
Defined.

Lemma unsaved_token_used_again_witness :
  exists m1 m2 m3 r, enroll_with_token (SaveFails (em_file demo_manager)) 5 7 "enroll_1" "s3cret" demo_manager = (Err (ConfigurationError "file_write"), m1) /\
    load_state m1 = (Ok tt, m2) /\ enroll_with_token Saved 5 8 "enroll_1" "s3cret" m2 = (Ok r, m3) /\
    node_to_user (em_registry m3) !! 7 = Some "alice" /\ node_to_user (em_registry m3) !! 8 = Some "alice".
Proof.
  apply (unsaved_token_used_again 5 7 8 "enroll_1" "s3cret" demo_manager {["enroll_1" := demo_token]} demo_token); try reflexivity. lia.
Defined.

Lemma registering_changes_other_nodes_witness :
  get_user_identity 7 (register_node 8 "alice" ["admin"] "t2" (register_node 7 "alice" ["operator"] "t1" registry_new)) = Some ("alice", ["admin"], "t2").
Proof.
  apply (registering_changes_other_nodes (register_node 7 "alice" ["operator"] "t1" registry_new) 7 8 "alice" ["operator"] "t1"); [lia|reflexivity].
Defined.
