(* ===== verification/Security.v ===== *)
(** Authentication, secrets and authorization: the security manager
    (blixard-core/src/security.rs), the calls of the Cedar engine
    (blixard-core/src/cedar_authz.rs), the middleware of the Iroh transport
    (transport/iroh_middleware.rs) and the VM service behind it
    (transport/iroh_secure_vm_service.rs).

    The cryptographic libraries and the Cedar engine are parameters: a hash of
    tokens, an authenticated cipher, and the parts of Cedar the code calls.  The
    VM service that is protected is an interface. *)

From Stdlib Require Import ZArith Lia List Ascii.
From stdpp Require Import base tactics numbers gmap strings option.
From stdpp Require Import list.
From S2P Require Import Prelude Wire Errors ResourceQuotas QuotaManager IrohProtocol Enrollment.

Open Scope Z_scope.

(** * The libraries *)

Class Crypto : Type := {
  hash_token : string -> string;
  aead_encrypt : list Z -> list Z -> string -> option (list Z);
  aead_decrypt : list Z -> list Z -> list Z -> option string
}.

(** What was encrypted decrypts under the same key and nonce. *)
Class CryptoOk `{Crypto} : Prop :=
  aead_round_trip : forall key nonce value c, aead_encrypt key nonce value = Some c -> aead_decrypt key nonce c = Some value.

(** The values of a Cedar context that the code builds. *)
Inductive context_value : Type :=
| CText (s : string)
| CNumber (n : Z)
| CTexts (l : list string).

(** [Uid]: entity names; [Pol]: policy sets.  A request is denied unless the policies
    allow it; the entities are the empty set. *)
Class CedarLib (Uid Pol : Type) : Type := {
  parse_uid : string -> option Uid;
  context_ok : gmap string context_value -> bool;
  request_ok : Uid -> Uid -> Uid -> gmap string context_value -> bool;
  cedar_allows : Pol -> Uid -> Uid -> Uid -> gmap string context_value -> bool
}.

(** * Tokens *)

(** Without the hash, which is the key of the map. *)
Record TokenInfo : Type := mkTokenInfo {
  ti_user : string;
  ti_expires_at : option Z;
  ti_created_at : Z;
  ti_active : bool
}.

Record AuthResult : Type := mkAuthResult {
  authenticated : bool;
  auth_user : option string;
  auth_method : string
}.

Definition not_authenticated : AuthResult := mkAuthResult false None "token".

Section Tokens.
Context `{Crypto}.

Definition auth_manager_authenticate (now : Z) (token : string) (tokens : gmap string TokenInfo) : AuthResult :=
  match tokens !! hash_token token with
  | Some info =>
      if negb (ti_active info) then not_authenticated
      else if match ti_expires_at info with Some expires => expires <? now | None => false end then not_authenticated
      else mkAuthResult true (Some (ti_user info)) "token"
  | None => not_authenticated
  end.

(** [token]: thirty-two random bytes in hexadecimal. *)
Definition auth_manager_generate (now : Z) (token user : string) (expires_in : option Z) : st (gmap string TokenInfo) BlixardError string :=
  let* expires_at := slift (match expires_in with Some d => let? t := time_add now d in Ok (Some t) | None => Ok None end) in
  smodify (fun tokens => <[hash_token token := mkTokenInfo user expires_at now true]> tokens) ;*
  sret token.

End Tokens.

(** * Secrets *)

Record EncryptedSecret : Type := mkSecret { ciphertext : list Z; iv : list Z }.

Record SecretsManager : Type := mkSecrets { secrets : gmap string EncryptedSecret; master_key : list Z }.

Definition hex_digit (a : ascii) : option Z :=
  let n := Z.of_nat (nat_of_ascii a) in
  if (48 <=? n) && (n <=? 57) then Some (n - 48)
  else if (65 <=? n) && (n <=? 70) then Some (n - 55)
  else if (97 <=? n) && (n <=? 102) then Some (n - 87)
  else None.

Fixpoint hex_decode (l : list ascii) : option (list Z) :=
  match l with
  | [] => Some []
  | [_] => None
  | a :: b :: l' =>
      match hex_digit a, hex_digit b, hex_decode l' with
      | Some x, Some y, Some rest => Some (16 * x + y :: rest)
      | _, _, _ => None
      end
  end.

(** [env]: the variable BLIXARD_MASTER_KEY. *)
Definition secrets_new (env : option string) : BlixardResult SecretsManager :=
  match env with
  | Some key_hex =>
      let? bytes := ok_or Security (hex_decode (String.list_ascii_of_string key_hex)) in
      if Nat.eqb (length bytes) 32 then Ok (mkSecrets ∅ bytes) else Err Security
  | None => Err Security
  end.

Section Secrets.
Context `{Crypto}.

(** [random]: the sixteen random bytes of the vector, of which the cipher takes twelve. *)
Definition encrypt_secret (random : list Z) (value : string) (s : SecretsManager) : BlixardResult EncryptedSecret :=
  let? c := ok_or Security (aead_encrypt (master_key s) (take 12 random) value) in
  Ok (mkSecret c random).

Definition decrypt_secret (e : EncryptedSecret) (s : SecretsManager) : BlixardResult string :=
  ok_or Security (aead_decrypt (master_key s) (take 12 (iv e)) (ciphertext e)).

Definition store_secret (random : list Z) (key value : string) : st SecretsManager BlixardError unit :=
  let* s := sget in
  let* e := slift (encrypt_secret random value s) in
  smodify (fun s => mkSecrets (<[key := e]> (secrets s)) (master_key s)).

Definition get_secret (key : string) (s : SecretsManager) : BlixardResult (option string) :=
  match secrets s !! key with
  | Some e => let? v := decrypt_secret e s in Ok (Some v)
  | None => Ok None
  end.

End Secrets.

(** * The security manager *)

Record AuthConfig : Type := mkAuthConfig { auth_enabled : bool; token_file : option (option (gmap string TokenInfo)) }.

Record SecurityManager (Pol : Type) : Type := mkSecurity {
  auth_manager : option (gmap string TokenInfo);
  secrets_manager : SecretsManager;
  cedar_authz : option Pol
}.
Arguments mkSecurity {Pol} auth_manager secrets_manager cedar_authz.
Arguments auth_manager {Pol} s.
Arguments secrets_manager {Pol} s.
Arguments cedar_authz {Pol} s.

(** [token_file]: the configured file, and what reading it gives; the file missing
    gives no tokens. *)
Definition load_tokens (file : option (option (gmap string TokenInfo))) : BlixardResult (gmap string TokenInfo) :=
  match file with
  | None => Ok ∅
  | Some (Some tokens) => Ok tokens
  | Some None => Err Security
  end.

Section Manager.
Context {Uid Pol : Type} `{Crypto} `{CedarLib Uid Pol}.

(** [cedar]: the policies, when the files are there and parse. *)
Definition security_new (config : AuthConfig) (env : option string) (cedar : option Pol) : BlixardResult (SecurityManager Pol) :=
  let? auth := if auth_enabled config then let? t := load_tokens (token_file config) in Ok (Some t) else Ok None in
  let? s := secrets_new env in
  Ok (mkSecurity auth s (if auth_enabled config then cedar else None)).

Definition authenticate_token (now : Z) (token : string) (s : SecurityManager Pol) : AuthResult :=
  match auth_manager s with
  | Some tokens => auth_manager_authenticate now token tokens
  | None => mkAuthResult true (Some "anonymous") "disabled"
  end.

Definition generate_token (now : Z) (token user : string) (expires_in : option Z) : st (SecurityManager Pol) BlixardError string := fun s =>
  match auth_manager s with
  | Some tokens =>
      let '(o, tokens') := auth_manager_generate now token user expires_in tokens in
      (o, mkSecurity (Some tokens') (secrets_manager s) (cedar_authz s))
  | None => (Err Security, s)
  end.

(** A double quote, which Cedar puts around the name of an entity. *)
Definition quote : string := String (ascii_of_nat 34) EmptyString.
Definition entity (type id : string) : string := type +:+ "::" +:+ quote +:+ id +:+ quote.

Definition build_resource_uid (resource_type resource_id : string) : string := entity resource_type resource_id.

Definition is_authorized (policies : Pol) (principal action resource : string) (context : gmap string context_value) : BlixardResult bool :=
  let? p := ok_or AuthorizationError (parse_uid principal) in
  let? a := ok_or AuthorizationError (parse_uid action) in
  let? r := ok_or AuthorizationError (parse_uid resource) in
  if negb (context_ok context) then Err AuthorizationError
  else if negb (request_ok p a r context) then Err AuthorizationError
  else Ok (cedar_allows policies p a r context).

(** [add_entity]: logged, not added. *)
Definition add_cedar_entity (entity_type entity_id : string) (attributes : gmap string context_value) (parents : list string)
    : st (SecurityManager Pol) BlixardError unit := sret tt.

Definition check_permission_cedar (user_id action resource : string) (context : gmap string context_value) (s : SecurityManager Pol)
    : BlixardResult bool :=
  match cedar_authz s with
  | Some policies => is_authorized policies (entity "User" user_id) (entity "Action" action) resource context
  | None => Err AuthorizationError
  end.

End Manager.

(** * The middleware *)

Record IrohAuthContext : Type := mkAuthContext {
  ac_user_id : string;
  ac_roles : list string;
  ac_tenant_id : string
}.

Section Middleware.
Context {NodeId Uid Pol S : Type} `{Countable NodeId} `{Crypto} `{CedarLib Uid Pol}.

Record IrohMiddleware : Type := mkMiddleware {
  im_security : option (SecurityManager Pol);
  im_quota : option (QuotaManager S);
  im_registry : NodeIdentityRegistry NodeId
}.

(** [remote]: the node id of the connection, when it has one.  No node counts as a
    node of the cluster ([is_cluster_node]). *)
Definition authenticate_connection (remote : option NodeId) (m : IrohMiddleware) : BlixardResult IrohAuthContext :=
  match remote with
  | None => Err Security
  | Some node =>
      match get_user_identity node (im_registry m) with
      | Some (user, roles, tenant) => Ok (mkAuthContext user roles tenant)
      | None => Err Security
      end
  end.

(** The clock: the time, the hour and the day of the week. *)
Record Clock : Type := mkClock { clock_now : Z; clock_hour : Z; clock_day : Z }.

Definition cedar_context (clock : Clock) (ctx : IrohAuthContext) (m : IrohMiddleware) : gmap string context_value :=
  let base : gmap string context_value :=
    {["tenant_id" := CText (ac_tenant_id ctx); "hour" := CNumber (clock_hour clock);
      "day_of_week" := CNumber (clock_day clock); "user_roles" := CTexts (ac_roles ctx)]} in
  match im_quota m with
  | Some q =>
      let u := vm_usage (get_tenant_usage (clock_now clock) (ac_tenant_id ctx) q) in
      <["current_memory_usage" := CNumber (used_memory_mb u)]>
        (<["current_cpu_usage" := CNumber (used_vcpus u)]> (<["current_vm_count" := CNumber (active_vms u)]> base))
  | None => base
  end.

Definition authorize_cedar (clock : Clock) (ctx : IrohAuthContext) (action resource_type resource_id : string) (m : IrohMiddleware)
    : BlixardResult bool :=
  match im_security m with
  | Some s => check_permission_cedar (ac_user_id ctx) action (build_resource_uid resource_type resource_id) (cedar_context clock ctx m) s
  | None => Err AuthorizationError
  end.

End Middleware.
Arguments IrohMiddleware NodeId Pol S {_ _}.

(** * The secure VM service *)

Record VmPlacementParams : Type := mkPlacementParams {
  vp_name : string;
  vp_vcpus : Z;
  vp_memory_mb : Z;
  vp_strategy : option string;
  vp_constraints : option (list string);
  vp_features : option (list string)
}.

(** [VmSchedulingParams] are placement parameters and a priority. *)
Inductive VmOperationRequest : Type :=
| VCreate (name config_path : string) (vcpus memory_mb : Z)
| VCreateWithScheduling (params : VmPlacementParams) (priority : option Z)
| VSchedulePlacement (params : VmPlacementParams)
| VStart (name : string)
| VStop (name : string)
| VDelete (name : string)
| VList
| VGetStatus (name : string)
| VMigrate (vm_name : string) (target_node_id : Z) (live_migration force : bool).

Inductive VmImageRequest : Type :=
| ShareImage (image_name image_path description : string) (tags : list string)
| GetImage (image_hash output_path : string)
| ListImages.

Inductive VmRequest : Type :=
| Operation (op : VmOperationRequest)
| Image (img : VmImageRequest).

(** The action, the type and the name of the resource a request needs. *)
Definition operation_permission (op : VmOperationRequest) : string * string * string :=
  match op with
  | VCreate _ _ _ _ => ("createVM", "Cluster", "default")
  | VStart name | VStop name => ("updateVM", "VM", name)
  | VDelete name => ("deleteVM", "VM", name)
  | VList => ("readVM", "Cluster", "default")
  | VGetStatus name => ("readVM", "VM", name)
  | VMigrate vm_name _ _ _ => ("updateVM", "VM", vm_name)
  | VCreateWithScheduling _ _ => ("createVM", "Cluster", "default")
  | VSchedulePlacement _ => ("readVM", "Cluster", "default")
  end.

Definition image_permission (img : VmImageRequest) : string * string * string :=
  match img with
  | ShareImage _ _ _ _ => ("createVM", "Cluster", "default")
  | GetImage _ _ | ListImages => ("readVM", "Cluster", "default")
  end.

Definition permission (r : VmRequest) : string * string * string :=
  match r with Operation op => operation_permission op | Image img => image_permission img end.

(** The service that is protected, on the state [W] of the node. *)
Class InnerVmService (W Resp : Type) : Type := {
  handle_vm_operation : VmOperationRequest -> st W BlixardError Resp;
  handle_image_request : VmImageRequest -> st W BlixardError Resp
}.

Section Service.
Context {NodeId Uid Pol S W Resp : Type} `{Countable NodeId} `{Crypto} `{CedarLib Uid Pol} `{InnerVmService W Resp}.
Context `{Codec VmRequest} `{Codec Resp}.
Implicit Types m : IrohMiddleware NodeId Pol S.

Definition run_inner (r : VmRequest) : st W BlixardError Resp :=
  match r with Operation op => handle_vm_operation op | Image img => handle_image_request img end.

(** [authorize_vm_operation] and [authorize_vm_image_operation] *)
Definition authorize_request (clock : Clock) (ctx : IrohAuthContext) (r : VmRequest) m : BlixardResult unit :=
  let '(action, type, name) := permission r in
  let? authorized := authorize_cedar clock ctx action type name m in
  if authorized then Ok tt else Err Security.

Definition handle_authorized_request (clock : Clock) (remote : option NodeId) (r : VmRequest) m : st W BlixardError Resp :=
  let* ctx := slift (authenticate_connection remote m) in
  let* _ := slift (authorize_request clock ctx r m) in
  run_inner r.

Definition known_method (method : string) : bool := String.eqb method "vm_operation" || String.eqb method "vm_image".

Definition handle_secure_call (clock : Clock) (remote : option NodeId) (method : string) (payload : list Z) m : st W BlixardError (list Z) :=
  if known_method method then
    let* r := slift (deserialize_payload payload) in
    let* response := handle_authorized_request clock remote r m in
    slift (serialize_payload response)
  else sfail P2PError.

(** The method of the plain service interface, which has no connection. *)
Definition handle_call (method : string) (payload : list Z) : st W BlixardError (list Z) :=
  if known_method method then
    let* r := slift (deserialize_payload payload) in
    let* response := run_inner r in
    slift (serialize_payload response)
  else sfail P2PError.

End Service.

(** * Theorems *)

Section TokenFacts.
Context {Pol : Type} `{Crypto}.

(** A token that was generated authenticates its user until it expires, and not
    after; what any token of another hash gives is as before. *)
Theorem generated_token_authenticates now token user expires_in (s s' : SecurityManager Pol) t :
  generate_token now token user expires_in s = (Ok t, s') ->
  t = token /\
  (forall later, authenticate_token later t s' =
     if match expires_in with Some d => now + d <? later | None => false end then not_authenticated
     else mkAuthResult true (Some user) "token") /\
  (forall later other, hash_token other <> hash_token token -> authenticate_token later other s' = authenticate_token later other s).
Proof.
  unfold generate_token, auth_manager_generate, sbind, slift, smodify, authenticate_token.
  destruct (auth_manager s) as [tokens|]; [|done].
  destruct expires_in as [d|]; cbn; [unfold time_add; destruct (_ <? _); cbn; [|done]|]; intros [= <- <-]; cbn.
  all: split_and!; [done|intros later; unfold auth_manager_authenticate; rewrite lookup_insert_eq; cbn; by repeat case_match|].
  all: intros later other Hne; unfold auth_manager_authenticate; by rewrite lookup_insert_ne.
Qed.

(** A secret that was stored is read back, whatever is stored under other names
    afterwards. *)
Theorem secret_round_trip `{!CryptoOk} random key value (l : list (list Z * string * string)) s s1 :
  store_secret random key value s = (Ok tt, s1) -> Forall (fun x => snd (fst x) <> key) l ->
  get_secret key (fold_left (fun s '(r, k, v) => snd (store_secret r k v s)) l s1) = Ok (Some value).
Proof.
  intros Hs Hl.
  assert (exists e, secrets s1 !! key = Some e /\ decrypt_secret e s1 = Ok value) as (e & He & Hd).
  { unfold store_secret, encrypt_secret, sbind, sget, slift in Hs.
    destruct (aead_encrypt _ _ _) as [c|] eqn:Ec; [|done]. injection Hs as <-. eexists. cbn. rewrite lookup_insert_eq.
    split; [done|]. unfold decrypt_secret. cbn. by rewrite (aead_round_trip _ _ _ _ Ec). }
  clear Hs. revert s1 He Hd. induction Hl as [|[[r k] v] l Hk _ IH]; intros s1 He Hd; cbn [fold_left].
  - unfold get_secret. by rewrite He, Hd.
  - cbn in Hk. apply IH; unfold store_secret, sbind, sget, slift; destruct (encrypt_secret r v s1); try done.
    cbn. by rewrite lookup_insert_ne.
Qed.

End TokenFacts.

Section ServiceFacts.
Context {NodeId Uid Pol S W Resp : Type} `{Countable NodeId} `{Crypto} `{CedarLib Uid Pol} `{InnerVmService W Resp}.
Context `{Codec VmRequest} `{Codec Resp}.
Implicit Types m : IrohMiddleware NodeId Pol S.

(** The policies allow the user registered for the node an action on a resource. *)
Definition may (clock : Clock) (node : NodeId) (action type name : string) m : Prop :=
  exists user roles tenant s policies p a x,
    get_user_identity node (im_registry m) = Some (user, roles, tenant) /\
    im_security m = Some s /\ cedar_authz s = Some policies /\
    parse_uid (entity "User" user) = Some p /\ parse_uid (entity "Action" action) = Some a /\ parse_uid (entity type name) = Some x /\
    cedar_allows policies p a x (cedar_context clock (mkAuthContext user roles tenant) m) = true.

(** What a request is about: it brings something new into the cluster, reads
    (the whole cluster, or one machine), changes a machine, or deletes one. *)
Inductive request_class : Type := Creates | Reads (vm : option string) | Updates (vm : string) | Deletes (vm : string).

Definition class_of (r : VmRequest) : request_class :=
  match r with
  | Operation (VCreate _ _ _ _) | Operation (VCreateWithScheduling _ _) | Image (ShareImage _ _ _ _) => Creates
  | Operation VList | Operation (VSchedulePlacement _) | Image (GetImage _ _) | Image ListImages => Reads None
  | Operation (VGetStatus name) => Reads (Some name)
  | Operation (VStart name) | Operation (VStop name) | Operation (VMigrate name _ _ _) => Updates name
  | Operation (VDelete name) => Deletes name
  end.

(** What the policies must allow for it. *)
Definition allowed (clock : Clock) (node : NodeId) (r : VmRequest) m : Prop :=
  match class_of r with
  | Creates => may clock node "createVM" "Cluster" "default" m
  | Reads None => may clock node "readVM" "Cluster" "default" m
  | Reads (Some vm) => may clock node "readVM" "VM" vm m
  | Updates vm => may clock node "updateVM" "VM" vm m
  | Deletes vm => may clock node "deleteVM" "VM" vm m
  end.

Lemma is_authorized_true policies p a x context :
  is_authorized policies p a x context = Ok true ->
  exists p' a' x', parse_uid p = Some p' /\ parse_uid a = Some a' /\ parse_uid x = Some x' /\ cedar_allows policies p' a' x' context = true.
Proof.
  unfold is_authorized. destruct (parse_uid p) as [p'|]; [cbn|done]. destruct (parse_uid a) as [a'|]; [cbn|done].
  destruct (parse_uid x) as [x'|]; [cbn|done]. destruct (context_ok context); [cbn|done]. destruct (request_ok _ _ _ _); [cbn|done].
  intros [= ?]. by exists p', a', x'.
Qed.

Lemma authorize_cedar_ok clock node user roles tenant action type name m :
  get_user_identity node (im_registry m) = Some (user, roles, tenant) ->
  authorize_cedar clock (mkAuthContext user roles tenant) action type name m = Ok true -> may clock node action type name m.
Proof.
  intros Hid. unfold authorize_cedar, check_permission_cedar, build_resource_uid. destruct (im_security m) as [s|] eqn:Es; [|done].
  destruct (cedar_authz s) as [policies|] eqn:Ep; [|done]. intros (p & a & x & Hp & Hpa & Hx & Hc)%is_authorized_true.
  by exists user, roles, tenant, s, policies, p, a, x.
Qed.

Lemma authorize_request_ok clock node user roles tenant r m :
  get_user_identity node (im_registry m) = Some (user, roles, tenant) ->
  authorize_request clock (mkAuthContext user roles tenant) r m = Ok tt -> allowed clock node r m.
Proof.
  intros Hid. unfold authorize_request. destruct (permission r) as [[action type] name] eqn:Er.
  intros ([|] & Ha & ?)%obind_ok; [|done]. apply (authorize_cedar_ok _ _ _ _ _ _ _ _ _ Hid) in Ha.
  destruct r as [[]|[]]; cbn in Er; injection Er as <- <- <-; exact Ha.
Qed.

Lemma secure_call_cases clock remote method payload m w o w' :
  handle_secure_call clock remote method payload m w = (o, w') ->
  (w' = w /\ is_ok o = false) \/
  exists node r, remote = Some node /\ de payload = Some r /\ allowed clock node r m /\ w' = snd (run_inner r w).
Proof.
  unfold handle_secure_call. destruct (known_method method); [|intros [= <- <-]; by left].
  unfold handle_authorized_request, deserialize_payload, sbind, slift. destruct (de payload) as [r|]; cbn; [|intros [= <- <-]; by left].
  unfold authenticate_connection. destruct remote as [node|]; [|intros [= <- <-]; by left].
  destruct (get_user_identity node (im_registry m)) as [[[user roles] tenant]|] eqn:Hid; [|intros [= <- <-]; by left].
  destruct (authorize_request _ _ r m) as [[]|e|] eqn:Ha; [|intros [= <- <-]; by left..].
  intros E. right. exists node, r. split_and!; [done|done|by eapply authorize_request_ok|].
  destruct (run_inner r w) as [[] w1]; by injection E as <- <-.
Qed.

(** C21: a call of the VM service through the secure protocol (handle_secure_call,
    which the secure protocol handler uses) changes the node, or gives an answer, only
    when the node at the other end is registered and the policies allow its user what
    the request is about: createVM on the cluster to create a machine or share an image,
    readVM on the cluster to list machines or images or to ask for a placement, readVM
    on the machine for its status, updateVM on the machine to start, stop or migrate
    it, deleteVM on the machine to delete it; and then it does to the node what the
    service behind it does.  The plain handle_call of the same service has no
    connection to authorize and is not covered. *)
Theorem secure_call_is_authorized clock remote method payload m w o w' :
  handle_secure_call clock remote method payload m w = (o, w') ->
  (w' = w /\ is_ok o = false) \/
  exists node r, remote = Some node /\ de payload = Some r /\ allowed clock node r m /\ w' = snd (run_inner r w).
Proof. apply secure_call_cases. Qed.

(** The plain call of the same service runs the request for anyone. *)
Theorem plain_call_bypasses method payload r w :
  known_method method = true -> de payload = Some r -> snd (handle_call method payload w) = snd (run_inner r w).
Proof.
  intros Hm Hd. unfold handle_call, deserialize_payload, sbind, slift. rewrite Hm, Hd. cbn.
  by destruct (run_inner r w) as [[] w1].
Qed.

(** With authentication switched off every token is accepted, and every call of
    the VM service is refused: there is no engine to authorize it. *)
Theorem disabled_auth_refuses_calls config env cedar s now token clock remote method payload registry quota w :
  auth_enabled config = false -> security_new config env cedar = Ok s ->
  authenticated (authenticate_token now token s) = true /\
  let '(o, w') := handle_secure_call clock remote method payload (mkMiddleware (Some s) quota registry : IrohMiddleware NodeId Pol S) w in
  is_ok o = false /\ w' = w.
Proof.
  intros Hoff. unfold security_new. rewrite Hoff. cbn. intros (sm & _ & [= <-])%obind_ok. split; [done|].
  destruct (handle_secure_call _ _ _ _ _ _) as [o w'] eqn:E.
  apply secure_call_cases in E as [[-> ->]|(node & r & _ & _ & Hal & _)]; [done|]. exfalso. revert Hal. unfold allowed, may.
  destruct (class_of r) as [|[]| |]; cbn; intros (?&?&?&?&?&?&?&?&_&[= <-]&?&_); done.
Qed.

End ServiceFacts.

(** * Witnesses *)

#[local] Instance demo_crypto : Crypto := {|
  hash_token := fun s => "h" +:+ s;
  aead_encrypt := fun key nonce v => Some (map (fun a => Z.of_nat (nat_of_ascii a)) (String.list_ascii_of_string v));
  aead_decrypt := fun key nonce c => Some (String.string_of_list_ascii (map (fun n => ascii_of_nat (Z.to_nat n)) c))
|}.

#[local] Instance demo_crypto_ok : CryptoOk.
Proof.
  intros key nonce value c [= <-]. cbn. f_equal. rewrite map_map.
  rewrite <- (String.string_of_list_ascii_of_string value) at 2. f_equal.
  induction (String.list_ascii_of_string value) as [|a l IH]; cbn; [done|]. by rewrite Nat2Z.id, ascii_nat_embedding, IH.
Qed.

(** Policies: the principals that may do everything. *)
#[local] Instance demo_cedar : CedarLib string (list string) := {|
  parse_uid := Some;
  context_ok := fun _ => true;
  request_ok := fun _ _ _ _ => true;
  cedar_allows := fun policies p _ _ _ => bool_decide (p ∈ policies)
|}.

(** A VM service that lists what it was asked to do. *)
#[local] Instance demo_inner : InnerVmService (list VmRequest) unit := {|
  handle_vm_operation := fun op w => (Ok tt, Operation op :: w);
  handle_image_request := fun img w => (Ok tt, Image img :: w)
|}.
#[local] Instance demo_request_codec : Codec VmRequest := {| ser := fun _ => None; de := fun b => match b with [1] => Some (Operation VList) | _ => None end |}.
#[local] Instance demo_unit_codec : Codec unit := {| ser := fun _ => Some []; de := fun _ => Some tt |}.

Definition demo_security : SecurityManager (list string) := mkSecurity (Some ∅) (mkSecrets ∅ []) (Some [entity "User" "alice"]).
Definition demo_middleware : IrohMiddleware Z (list string) unit :=
  mkMiddleware (Some demo_security) None (register_node 7 "alice" ["operator"] "t1" registry_new).
Definition demo_clock : Clock := mkClock 0 12 3.

Lemma generated_token_authenticates_witness :
  let s' := snd (generate_token 100 "abc" "alice" (Some 50) demo_security) in
  "abc" = "abc" /\
  (forall later, authenticate_token later "abc" s' = if 100 + 50 <? later then not_authenticated else mkAuthResult true (Some "alice") "token") /\
  (forall later other, hash_token other <> hash_token "abc" -> authenticate_token later other s' = authenticate_token later other demo_security).
Proof. intros s'. apply (generated_token_authenticates 100 "abc" "alice" (Some 50) demo_security s' "abc"). reflexivity. Defined.

Lemma secret_round_trip_witness :
  get_secret "db" (fold_left (fun s '(r, k, v) => snd (store_secret r k v s)) [([2], "other", "x")]
    (snd (store_secret [1] "db" "hunter2" (mkSecrets ∅ [])))) = Ok (Some "hunter2").
Proof.
  apply (secret_round_trip [1] "db" "hunter2" [([2], "other", "x")] (mkSecrets ∅ [])); [reflexivity|].
  repeat constructor. discriminate.
Defined.

Lemma secure_call_is_authorized_witness :
  ([Operation VList] = [] /\ is_ok (@Ok BlixardError (list Z) []) = false) \/
  exists node r, Some 7 = Some node /\ de [1] = Some r /\ allowed demo_clock node r demo_middleware /\
    [Operation VList] = snd (run_inner r []).
Proof.
  apply (secure_call_is_authorized demo_clock (Some 7) "vm_operation" [1] demo_middleware [] (Ok []) [Operation VList]). vm_compute. reflexivity.
Defined.

Lemma disabled_auth_refuses_calls_witness :
  exists s : SecurityManager (list string),
    authenticated (authenticate_token 0 "anything" s) = true /\
    let '(o, w') := handle_secure_call demo_clock (Some 7) "vm_operation" [1]
      (mkMiddleware (Some s) None (register_node 7 "alice" ["operator"] "t1" registry_new) : IrohMiddleware Z (list string) unit) [] in
    is_ok o = false /\ w' = [].
Proof.
  eexists (mkSecurity None (mkSecrets ∅ _) None).
  apply (disabled_auth_refuses_calls (mkAuthConfig false None)
    (Some "000102030405060708090a0b0c0d0e0f101112131415161718191a1b1c1d1e1f") (Some [])); [reflexivity|vm_compute; reflexivity].
Defined.
