(* ===== verification/VmService.v ===== *)
(** The VM service of a node (blixard-core/src/transport/services/vm.rs and
    transport/iroh_vm_service.rs), and what becomes of the proposals it submits.

    A call works on the shared state of the node, the quota manager it was given,
    the backend and the shared images.  The texts of responses are left out.  The
    managers the node never has (images, health, recovery) make their calls fail. *)

From Stdlib Require Import ZArith Lia List.
From stdpp Require Import base tactics numbers gmap strings option.
From stdpp Require Import list.
From S2P Require Import Prelude Wire Float64 Errors AntiAffinity VmHealth Types RaftCodec ResourceQuotas QuotaManager IpPool IpPoolManager.
From S2P Require Import Proposals Codecs Database RaftStorage StateMachine RaftCore VmBackend IrohProtocol NodeShared Security.

Open Scope Z_scope.

(** * Responses *)

Record VmInfoData : Type := mkVmInfo {
  vi_name : string;
  vi_state : string;
  vi_vcpus : Z;
  vi_memory_mb : Z;
  vi_node_id : Z;
  vi_ip_address : string
}.

Inductive VmOperationResponse : Type :=
| RCreate (success : bool) (vm_id : string)
| RCreateWithScheduling (success : bool) (vm_id : string) (assigned_node_id : Z)
| RSchedulePlacement (success : bool) (assigned_node_id : Z) (placement_score : f32) (alternative_nodes : list Z)
| RStart (success : bool)
| RStop (success : bool)
| RDelete (success : bool)
| RList (vms : list VmInfoData)
| RGetStatus (vm_info : option VmInfoData)
| RMigrate (success : bool) (source_node_id target_node_id status duration_ms : Z).

Record VmImageMetadata : Type := mkImage {
  im_name : string;
  im_hash : string;
  im_size : Z;
  im_shared_by : Z;
  im_created_at : Z;
  im_description : string;
  im_tags : list string
}.

Inductive VmImageResponse : Type :=
| RImageShared (image_hash : string) (size : Z)
| RImageRetrieved (path : string) (size : Z)
| RImageList (images : list VmImageMetadata).

Inductive VmResponse : Type :=
| ROperation (r : VmOperationResponse)
| RImage (r : VmImageResponse).

Section Service.
Context {B Bd S : Type} `{IpNetLib} `{VmBackend B} `{Profile} `{QuotaStorage S} `{HashIter}.

Record VmServiceState : Type := mkVmService {
  sv_node : SharedNodeState Bd;
  sv_quota : option (QuotaManager S);
  sv_host : Host B;
  sv_images : gmap string VmImageMetadata
}.

Definition service (A : Type) : Type := st VmServiceState BlixardError A.

(** The time of a call, the ids it generates, and what redb does. *)
Record ServiceEnv : Type := mkServiceEnv { se_now : Z; se_proposal_id : bytes; se_operation_id : VmId; se_call : CallEnv }.

Definition on_node {A} (c : st (SharedNodeState Bd) BlixardError A) : service A := fun s =>
  let '(o, n) := c (sv_node s) in (o, mkVmService n (sv_quota s) (sv_host s) (sv_images s)).
Definition on_host {A} (c : SharedNodeState Bd -> st (Host B) BlixardError A) : service A := fun s =>
  let '(o, h) := c (sv_node s) (sv_host s) in (o, mkVmService (sv_node s) (sv_quota s) h (sv_images s)).

(** * Operations *)

Definition config_path_of (name : string) : string := "/etc/blixard/vms/" +:+ name +:+ ".yaml".

Definition service_config (name : string) (vcpus memory_mb priority : Z) : VmConfig :=
  mkVmConfig name (config_path_of name) vcpus memory_mb "default" None None None priority
    (preemptible default_vm_config) (locality_preference default_vm_config) (health_check_config default_vm_config).

(** The check before a proposal; what is recorded counts for the rate limit. *)
Definition preflight (env : ServiceEnv) (node_id : option Z) (config : VmConfig) : service unit := fun s =>
  match sv_quota s with
  | None => (Ok tt, s)
  | Some q =>
      let request := mkResourceRequest (tenant_id config) node_id (vcpus config) (memory config) 0 (se_now env) in
      let put q' := mkVmService (sv_node s) (Some q') (sv_host s) (sv_images s) in
      match check_resource_quota (se_now env) request q with
      | (Err _, q') => (Err InsufficientResources, put q')
      | (Panic, q') => (Panic, put q')
      | (Ok _, q') =>
          let '(o, q'') := record_api_request (E := BlixardError) (se_now env) (tenant_id config) ApiVmCreate q' in
          (o, put q'')
      end
  end.

Definition create_batch (env : ServiceEnv) (node_id : Z) (config : VmConfig) : ProposalData :=
  Batch [CreateVm (VmCreate config node_id);
         UpdateTenantUsage (tenant_id config) (from_vm_create (se_now env) config) (se_operation_id env)].

Definition service_create_vm (env : ServiceEnv) (name : string) (vcpus memory_mb : Z) : service string :=
  let* s := sget in
  let config := service_config name vcpus memory_mb (vm_priority default_vm_config) in
  preflight env (Some (n_id (sv_node s))) config ;*
  on_node (send_raft_proposal (mkProposal (se_proposal_id env) (create_batch env (n_id (sv_node s)) config) None)) ;*
  sret name.

(** [SharedNodeState::send_vm_command] *)
Definition send_vm_command (_vm_name : string) (_command : VmCommand) : service string :=
  sfail (NotImplemented "send_vm_command in SharedNodeState").

Definition service_start_vm (name : string) : service unit := send_vm_command name (VmStart name) ;* sret tt.
Definition service_stop_vm (name : string) : service unit := send_vm_command name (VmStop name) ;* sret tt.

Definition delete_batch (env : ServiceEnv) (name : string) (config : VmConfig) (delta : ResourceUsageDelta) : ProposalData :=
  Batch [CreateVm (VmDelete name); UpdateTenantUsage (tenant_id config) delta (se_operation_id env)].

Definition service_delete_vm (env : ServiceEnv) (name : string) : service unit :=
  let* vm_states := on_host (fun n => shared_list_vms n (se_call env)) in
  match List.find (fun state => String.eqb (vm_name (vs_config state)) name) vm_states with
  | None => sfail (VmOperationError "delete" name)
  | Some state =>
      let* delta := slift (from_vm_delete (se_now env) (vs_config state)) in
      on_node (send_raft_proposal (mkProposal (se_proposal_id env) (delete_batch env name (vs_config state) delta) None)) ;*
      sret tt
  end.

Definition service_list_vms (env : ServiceEnv) : service (list (VmConfig * VmStatus)) :=
  let* vm_states := on_host (fun n => shared_list_vms n (se_call env)) in
  sret (map (fun state => (vs_config state, vs_status state)) vm_states).

Definition service_get_vm_status (env : ServiceEnv) (name : string) : service (option (VmConfig * VmStatus)) :=
  on_host (fun n => shared_get_vm_status n (se_call env) name) ;* sret None.

(** Constraints become hard rules; features one entry of the metadata. *)
Definition with_params (p : VmPlacementParams) (config : VmConfig) : VmConfig :=
  let rules := match vp_constraints p with Some (g :: gs) => Some (map rule_hard (g :: gs)) | _ => None end in
  let meta := match vp_features p with
              | Some features => Some {["required_features" := String.concat "," features]}
              | None => metadata config
              end in
  mkVmConfig (vm_name config) (config_path config) (vcpus config) (memory config) (tenant_id config) (ip_address config)
    meta rules (vm_priority config) (preemptible config) (locality_preference config) (health_check_config config).

(** [SharedNodeState::create_vm_with_scheduling] *)
Definition node_create_vm_with_scheduling (_config : VmConfig) : service string :=
  sfail (NotImplemented "create_vm_with_scheduling in SharedNodeState").

Definition service_create_with_scheduling (env : ServiceEnv) (p : VmPlacementParams) (priority : option Z) : service (string * Z * string) :=
  let config := service_config (vp_name p) (vp_vcpus p) (vp_memory_mb p) (default 100 priority) in
  preflight env None config ;*
  node_create_vm_with_scheduling (with_params p config) ;*
  sret (vp_name p, 1, "VM created with default placement").

Definition service_schedule_placement (p : VmPlacementParams) : service (Z * f32 * string * list Z) :=
  sret (1, f32_of_Z 100, "Default assignment", []).

Definition service_migrate_vm (vm_name : string) (target_node_id : Z) (live_migration force : bool) : service unit :=
  let* s := sget in
  if negb (NodeShared.is_leader (sv_node s)) then sfail (Internal "Not the leader")
  else
    send_vm_command vm_name (VmMigrate (mkMigration vm_name (n_id (sv_node s)) target_node_id live_migration force)) ;*
    sret tt.

(** * The service on the network *)

Definition config_to_vm_info (n : SharedNodeState Bd) (config : VmConfig) (status : VmStatus) : VmInfoData :=
  mkVmInfo (vm_name config) (vm_status_debug status) (vcpus config) (memory config) (n_id n) (default "" (ip_address config)).

(** A response that tells whether the operation succeeded. *)
Definition answer {A} (c : service A) (ok : A -> VmOperationResponse) (failed : VmOperationResponse) : service VmOperationResponse :=
  fun s => match c s with
           | (Ok a, s') => (Ok (ok a), s')
           | (Err _, s') => (Ok failed, s')
           | (Panic, s') => (Panic, s')
           end.

Definition vm_operation (env : ServiceEnv) (request : VmOperationRequest) : service VmOperationResponse :=
  let* s := sget in
  let n := sv_node s in
  match request with
  | VCreate name _ vcpus memory_mb =>
      answer (service_create_vm env name vcpus memory_mb) (RCreate true) (RCreate false "")
  | VStart name => answer (service_start_vm name) (fun _ => RStart true) (RStart false)
  | VStop name => answer (service_stop_vm name) (fun _ => RStop true) (RStop false)
  | VDelete name => answer (service_delete_vm env name) (fun _ => RDelete true) (RDelete false)
  | VList =>
      let* vms := service_list_vms env in
      sret (RList (map (fun '(config, status) => config_to_vm_info n config status) vms))
  | VGetStatus name =>
      let* status := service_get_vm_status env name in
      sret (RGetStatus ((fun '(config, status) => config_to_vm_info n config status) <$> status))
  | VMigrate vm_name target_node_id live_migration force =>
      answer (service_migrate_vm vm_name target_node_id live_migration force)
        (fun _ => RMigrate true (n_id n) target_node_id 1 0) (RMigrate false (n_id n) 0 5 0)
  | VCreateWithScheduling params priority =>
      answer (service_create_with_scheduling env params priority)
        (fun '(vm_id, node_id, _) => RCreateWithScheduling true vm_id node_id) (RCreateWithScheduling false "" 0)
  | VSchedulePlacement params =>
      answer (service_schedule_placement params)
        (fun '(node_id, score, _, alternatives) => RSchedulePlacement true node_id score alternatives)
        (RSchedulePlacement false 0 (f32_of_Z 0) [])
  end.

(** The node has no manager for images. *)
Definition vm_image_request (request : VmImageRequest) : service VmImageResponse :=
  match request with
  | ShareImage _ _ _ _ | GetImage _ _ => sfail P2PError
  | ListImages => let* s := sget in sret (RImageList (snd <$> hash_iter (sv_images s)))
  end.

Definition operation_methods : list string := ["create"; "start"; "stop"; "delete"; "list"; "get_status"; "migrate"].
Definition image_methods : list string := ["share_image"; "get_image"; "list_images"].
Definition health_methods : list string :=
  ["get_health_status"; "add_health_check"; "list_health_checks"; "remove_health_check";
   "toggle_health_monitoring"; "configure_recovery_policy"].

Section Calls.
Context `{Codec VmOperationRequest} `{Codec VmImageRequest} `{Codec VmOperationResponse} `{Codec VmImageResponse}.

(** [decodes]: is the payload of a health method the request it expects? *)
Definition vm_handle_call (env : ServiceEnv) (decodes : string -> list Z -> bool) (method : string) (payload : list Z)
    : service (list Z) :=
  if bool_decide (method ∈ operation_methods) then
    let* request := slift (deserialize_payload (A := VmOperationRequest) payload) in
    let* response := vm_operation env request in
    slift (serialize_payload response)
  else if bool_decide (method ∈ image_methods) then
    let* request := slift (deserialize_payload (A := VmImageRequest) payload) in
    let* response := vm_image_request request in
    slift (serialize_payload response)
  else if bool_decide (method ∈ health_methods) then
    if decodes method payload then
      sfail (Internal (if String.eqb method "configure_recovery_policy"
                       then "VM auto-recovery service not available" else "VM health monitor not available"))
    else sfail SerializationError
  else sfail (Internal ("Unknown method: " +:+ method)).

End Calls.

End Service.
Arguments VmServiceState B Bd S {_}.

(** What the secure service calls behind its authorization. *)
#[export] Instance iroh_vm_service {B Bd S} `{IpNetLib} `{VmBackend B} `{Profile} `{QuotaStorage S} `{HashIter} (env : ServiceEnv)
    : InnerVmService (VmServiceState B Bd S) VmResponse := {
  handle_vm_operation request := let* r := vm_operation env request in sret (ROperation r);
  handle_image_request request := let* r := vm_image_request request in sret (RImage r)
}.

(** * Specifications *)

(** What a tenant uses after machines were added ([k = 1]) or removed ([k = -1]). *)
Definition counted (k : Z) (config : VmConfig) (u : VmResourceUsage) : VmResourceUsage :=
  mkVmUsage (active_vms u + k) (used_vcpus u + k * vcpus config) (used_memory_mb u + k * memory config) (used_disk_gb u)
    (vms_per_node u).

(** The counters fit their types, as signed numbers. *)
Definition usage_fits (u : VmResourceUsage) : Prop :=
  0 <= active_vms u < 2 ^ 31 /\ 0 <= used_vcpus u < 2 ^ 31 /\ 0 <= used_memory_mb u < 2 ^ 63 /\ 0 <= used_disk_gb u < 2 ^ 63.

Definition config_fits (config : VmConfig) : Prop := 0 <= vcpus config < 2 ^ 31 /\ 0 <= memory config < 2 ^ 32.

(** * Lemmas *)

Lemma counted_back config u : counted (-1) config (counted 1 config u) = u.
Proof. destruct u. unfold counted. cbn -[Z.mul Z.add]. f_equal; lia. Qed.

Section Commit.
Context `{Profile} `{IpNetLib} `{HashIter} `{UuidText}.
Context `{Codec TenantQuota} `{Codec NodeTopology} `{Codec TaskSpec} `{Codec TaskResult}.
Context `{Codec (string * WorkerCapabilities)} `{Codec VmState} `{Codec IpAllocation}.
Context `{Codec (list IpAddr)} `{Codec TenantUsage} `{Codec ProposalData} `{!CodecOk VmState} `{!CodecOk TenantUsage}.
Context (vm_states_serialize : forall v : VmState, is_Some (ser v)).
Context (usages_serialize : forall u : TenantUsage, is_Some (ser u)).
Context (proposals_ok : proposals_serialize).

(** The usage stored for a tenant. *)
Definition stored_usage (t : TenantId) (now : Z) (db : Database) : VmResourceUsage :=
  vm_usage (default (tenant_usage_new now t) (strs db TENANT_USAGE_TABLE !! t ≫= de)).

(** How the last step of a usage proposal ends in an asynchronous task. *)
Definition usage_end (x : RaftStateMachine) : outcome stop unit :=
  match shared_state x with None => Ok tt | Some _ => Panic end.

Lemma usage_delta_counts now k config op time u :
  k = 1 \/ k = -1 -> config_fits config -> usage_fits (vm_usage u) -> usage_fits (counted k config (vm_usage u)) ->
  exists u', apply_usage_delta now (mkDelta k (k * vcpus config) (k * memory config) 0 op time) u = Ok u' /\
    vm_usage u' = counted k config (vm_usage u).
Proof.
  intros Hk [Hv Hm] (U1 & U2 & U3 & U4) (G1 & G2 & G3 & _). unfold counted in *. cbn in *.
  unfold apply_usage_delta. cbn. rewrite !apply_delta_ok by (cbn; lia). cbn. eexists. split; [done|].
  cbn. f_equal; lia.
Qed.

Lemma commit_usage env t delta id (x : RaftStateMachine) u' :
  fault env = NoFault -> runtime env = AsyncTask ->
  apply_usage_delta (now2 env) delta (default (tenant_usage_new (now1 env) t) (strs (database x) TENANT_USAGE_TABLE !! t ≫= de)) = Ok u' ->
  exists b, ser u' = Some b /\
    apply_single env (UpdateTenantUsage t delta id) x =
      (usage_end x, StateMachine.set_database (set_strs TENANT_USAGE_TABLE (<[t := b]> (strs (database x) TENANT_USAGE_TABLE)) (database x)) x).
Proof.
  intros Hf Hr Hu. destruct (usages_serialize u') as [b Hb]. exists b. split; [done|].
  cbn [apply_single]. unfold apply_update_tenant_usage.
  rewrite (sbind_ok _ _ x tt (StateMachine.set_database (set_strs TENANT_USAGE_TABLE (<[t := b]> (strs (database x) TENANT_USAGE_TABLE)) (database x)) x)).
  - unfold update_quota_manager, usage_end, sbind, sget. cbn. rewrite Hr. by destruct (shared_state x).
  - apply with_txn_run; [done|]. unfold on_db, get_str, insert_str, table_op. rewrite Hf. unfold_st.
    rewrite Hu. unfold serialize. unfold_st. rewrite Hb. done.
Qed.

(** Without admission control a VM command changes the database only. *)
Lemma vm_command_rest env c (x x' : RaftStateMachine) u :
  admission_controller x = false -> apply_vm_command env c x = (Ok u, x') ->
  shared_state x' = shared_state x /\ admission_controller x' = false.
Proof.
  intros Ha E. assert (exists db, x' = StateMachine.set_database db x) as [db ->]; [|done].
  destruct c; cbn [apply_vm_command] in E; unfold update_vm_status_internal in E; apply with_txn_ok in E.
  1: unfold sbind at 1, sget in E; rewrite Ha in E; unfold sbind at 1, sret in E.
  5: injection E as _ <-; exists (database x); by destruct x.
  all: unfold on_db in E; match type of E with (let '(_, _) := ?t in _) = _ => destruct t as [o db] end;
    injection E as _ <-; by exists db.
Qed.

(** The batch of a machine that is added or removed. *)
Lemma commit_vm_batch envs env entry c t k config op time id (x : RaftStateMachine) :
  let usage := stored_usage t (now1 (envs 1%nat)) (database x) in
  entry_data entry <> [] ->
  de (entry_data entry) = Some (Batch [CreateVm c; UpdateTenantUsage t (mkDelta k (k * vcpus config) (k * memory config) 0 op time) id]) ->
  fault env = NoFault -> (forall i, fault (envs i) = NoFault /\ runtime (envs i) = AsyncTask) ->
  admission_controller x = false -> vms_wf (database x) ->
  k = 1 \/ k = -1 -> config_fits config -> usage_fits usage -> usage_fits (counted k config usage) ->
  exists x', apply_entry envs env entry x = (usage_end x, x') /\
    vms (database x') = vm_command_spec (now2 (envs O)) c (vms (database x)) /\ vms_wf (database x') /\
    (forall now, stored_usage t now (database x') = counted k config usage) /\
    shared_state x' = shared_state x /\ admission_controller x' = false.
Proof.
  intros usage Hne Hd Hf Henv Ha Hwf Hk Hc Hu Hu'.
  erewrite batch_entry_in_order; [|exact proposals_ok| |exact Hne|exact Hd|exact Hf]; [|by repeat constructor].
  cbn [apply_in_order].
  destruct (vm_command_refines vm_states_serialize (envs O) c x (proj1 (Henv O)) Ha Hwf) as (x1 & E1 & V1 & W1 & O1).
  destruct (vm_command_rest _ _ _ _ _ Ha E1) as [S1 A1].
  assert (strs (database x1) TENANT_USAGE_TABLE = strs (database x) TENANT_USAGE_TABLE) as Et by (by apply O1).
  destruct (usage_delta_counts (now2 (envs 1%nat)) k config op time
    (default (tenant_usage_new (now1 (envs 1%nat)) t) (strs (database x) TENANT_USAGE_TABLE !! t ≫= de)) Hk Hc Hu Hu') as (u' & Eu & Cu).
  rewrite <- Et in Eu.
  destruct (commit_usage (envs 1%nat) t _ id x1 u' (proj1 (Henv 1%nat)) (proj2 (Henv 1%nat)) Eu) as (b & Hb & E2).
  exists (StateMachine.set_database (set_strs TENANT_USAGE_TABLE (<[t := b]> (strs (database x1) TENANT_USAGE_TABLE)) (database x1)) x1).
  split.
  - rewrite (sbind_ok _ _ x tt x1 E1). unfold sbind at 1. rewrite E2. unfold usage_end. rewrite S1.
    by destruct (shared_state x).
  - split_and!; try done. intros now. unfold stored_usage. cbn [database StateMachine.set_database].
    rewrite strs_set_same, lookup_insert_eq. cbn. by rewrite (de_ser _ _ Hb).
Qed.

(** * What the service submits *)

Section Submit.
Context {B Bd S : Type} `{VmBackend B} `{QuotaStorage S}.
Abbreviation State := (VmServiceState B Bd S).

Lemma send_ok p (n n' : SharedNodeState Bd) r :
  send_raft_proposal p n = (Ok r, n') ->
  exists tx, n_proposal_tx n = Some tx /\ n_proposal_tx n' = Some (mkChannel (sent tx ++ [p]) true) /\ n_id n' = n_id n.
Proof.
  unfold send_raft_proposal, chan_send. destruct (n_proposal_tx n) as [tx|]; [|done].
  destruct (receiver tx); [|done]. intros [= _ <-]. by exists tx.
Qed.

Lemma preflight_node env id config (s s' : State) o : preflight env id config s = (o, s') -> sv_node s' = sv_node s.
Proof. unfold preflight. repeat case_match; by intros [= _ <-]. Qed.

Lemma service_create_ok env name v mem (s s' : State) r :
  service_create_vm env name v mem s = (Ok r, s') ->
  exists tx, n_proposal_tx (sv_node s) = Some tx /\
    n_proposal_tx (sv_node s') = Some (mkChannel (sent tx ++ [mkProposal (se_proposal_id env)
      (create_batch env (n_id (sv_node s)) (service_config name v mem 500)) None]) true).
Proof.
  unfold service_create_vm. intros (? & ? & [= <- <-] & E)%sbind_ok_inv.
  apply sbind_ok_inv in E as ([] & s1 & E1 & E). apply preflight_node in E1.
  apply sbind_ok_inv in E as (r1 & s2 & E2 & [= _ <-]). unfold on_node in E2.
  destruct (send_raft_proposal _ (sv_node s1)) as [o n] eqn:Es. injection E2 as -> <-.
  apply send_ok in Es as (tx & Etx & Etx' & _). rewrite E1 in Etx. by exists tx.
Qed.

Lemma service_delete_listed env name (s s' : State) l h :
  vb_list_vms (se_call env) (sv_host s) = (Ok l, h) -> n_vm_manager (sv_node s) = true ->
  service_delete_vm env name s = (Ok tt, s') ->
  exists tx config status delta, (config, status) ∈ l /\ vm_name config = name /\
    from_vm_delete (se_now env) config = Ok delta /\
    n_proposal_tx (sv_node s') = Some (mkChannel (sent tx ++ [mkProposal (se_proposal_id env) (delete_batch env name config delta) None]) true).
Proof.
  intros El Hm. unfold service_delete_vm. intros (l' & s1 & E1 & E)%sbind_ok_inv.
  unfold on_host, shared_list_vms in E1. rewrite Hm in E1. unfold sbind in E1. rewrite El in E1. injection E1 as <- <-.
  destruct (List.find _ _) as [v|] eqn:Ev; [|done]. apply find_some in Ev as [Hin Ev%String.eqb_eq].
  apply in_map_iff in Hin as ([c st] & <- & Hin). cbn [listed_state vs_config fst] in Ev, E.
  apply sbind_ok_inv in E as (delta & s2 & E2 & E). unfold slift in E2. injection E2 as Ed <-.
  apply sbind_ok_inv in E as (r1 & s3 & E3 & [= <-]). unfold on_node in E3.
  destruct (send_raft_proposal _ _) as [o n] eqn:Es. injection E3 as -> <-.
  apply send_ok in Es as (tx & Etx & Etx' & _). exists tx, c, st, delta. split_and!; try done. by apply list_elem_of_In.
Qed.

Lemma from_create_delta now config :
  config_fits config -> from_vm_create now config = mkDelta 1 (1 * vcpus config) (1 * memory config) 0 OperationCreate now.
Proof.
  intros [Hv _]. unfold from_vm_create, wrap_s. rewrite Z.mod_small by lia. f_equal; lia.
Qed.

Lemma from_delete_delta now config delta :
  config_fits config -> from_vm_delete now config = Ok delta ->
  delta = mkDelta (-1) (-1 * vcpus config) (-1 * memory config) 0 OperationDelete now.
Proof.
  intros [Hv _]. unfold from_vm_delete, wrap_s. rewrite Z.mod_small by lia. rewrite arith_s_fits by (cbn; lia).
  intros [= <-]. f_equal; lia.
Qed.

(** * Theorems *)

(** The requests that can submit a proposal. *)
Definition submits (request : VmOperationRequest) : bool :=
  match request with VCreate _ _ _ _ | VDelete _ => true | _ => false end.

(** What a node is like where an entry is applied: nothing fails, the entry is
    applied in an asynchronous task, as the Raft manager does, and there is no
    admission control. *)
Definition plain (envs : nat -> Env) (env : Env) (x : RaftStateMachine) : Prop :=
  fault env = NoFault /\ (forall i, fault (envs i) = NoFault /\ runtime (envs i) = AsyncTask) /\
  admission_controller x = false /\ vms_wf (database x).

Definition carries (entry : Entry) (p : ProposalData) : Prop := entry_data entry <> [] /\ de (entry_data entry) = Some p.


(** C18: a machine that is created and deleted again through the service leaves
    nothing behind: applying both entries one after the other leaves the machines and
    what the tenant uses as they were before, and each application ends as the one of
    a creation does, in a panic after its writes where the node's shared state is
    there.  The name is not in use before, the service that deletes has a VM manager
    whose backend lists under the name the configuration that was created, if any, the
    database does not fail, there is no admission control, every stored VM row
    decodes, and the counters of the tenant fit their types as signed numbers. *)
Theorem created_and_deleted env1 env2 name v mem (s s1 t t1 : State) r l h :
  let config := service_config name v mem 500 in
  service_create_vm env1 name v mem s = (Ok r, s1) ->
  vb_list_vms (se_call env2) (sv_host t) = (Ok l, h) -> n_vm_manager (sv_node t) = true ->
  Forall (fun '(c, _) => vm_name c = name -> c = config) l ->
  service_delete_vm env2 name t = (Ok tt, t1) ->
  exists p q, last (sent (default (mkChannel [] true) (n_proposal_tx (sv_node s1)))) = Some p /\
    last (sent (default (mkChannel [] true) (n_proposal_tx (sv_node t1)))) = Some q /\
  forall envs cenv entry1 entry2 x, carries entry1 (prop_data p) -> carries entry2 (prop_data q) -> plain envs cenv x ->
    vms (database x) !! name = None ->
    let usage := stored_usage "default" (now1 (envs 1%nat)) (database x) in
    config_fits config -> usage_fits usage -> usage_fits (counted 1 config usage) ->
    exists x1 x2, apply_entry envs cenv entry1 x = (usage_end x, x1) /\ apply_entry envs cenv entry2 x1 = (usage_end x, x2) /\
      vms (database x2) = vms (database x) /\ forall now, stored_usage "default" now (database x2) = usage.
Proof.
  intros config E1 El Hm Hl E2. apply service_create_ok in E1 as (tx & _ & Etx1).
  apply (service_delete_listed env2 name t t1 l h El Hm) in E2 as (ty & c & stt & delta & Hin & Hc & Hdel & Ety).
  assert (c = config) as ->. { rewrite Forall_forall in Hl. by apply (Hl (c, stt)). }
  eexists _, _. split_and!; [rewrite Etx1; apply last_snoc|rewrite Ety; apply last_snoc|].
  intros envs cenv entry1 entry2 x [Hne1 Hd1] [Hne2 Hd2] (Hf & Henv & Ha & Hwf) Hfree usage Hc' Hu Hu'.
  cbn [prop_data] in Hd1, Hd2. unfold create_batch in Hd1. unfold delete_batch in Hd2.
  rewrite from_create_delta in Hd1 by done. apply from_delete_delta in Hdel as ->; [|done].
  destruct (commit_vm_batch envs cenv entry1 _ "default" 1 config _ _ _ x Hne1 Hd1 Hf Henv Ha Hwf (or_introl eq_refl) Hc' Hu Hu')
    as (x1 & Ex1 & V1 & W1 & U1 & S1 & A1).
  assert (counted (-1) config (stored_usage "default" (now1 (envs 1%nat)) (database x1)) = usage) as Eback.
  { rewrite U1. apply counted_back. }
  destruct (commit_vm_batch envs cenv entry2 _ "default" (-1) config _ _ _ x1 Hne2 Hd2 Hf Henv A1 W1 (or_intror eq_refl) Hc')
    as (x2 & Ex2 & V2 & _ & U2 & _); [by rewrite U1|by rewrite Eback|].
  exists x1, x2. unfold usage_end in *. rewrite S1 in Ex2. split_and!; [done|done| |by rewrite <- Eback].
  rewrite V2, V1. cbn. by apply delete_insert_id.
Qed.

(** A machine created again under its name is counted again: when both entries are
    committed there is one machine of the name, the second one, and its tenant pays
    for both. *)
Theorem recreated_vm_counted_twice env1 env2 name v1 mem1 v2 mem2 (s s1 t t1 : State) r1 r2 :
  let c1 := service_config name v1 mem1 500 in
  let c2 := service_config name v2 mem2 500 in
  service_create_vm env1 name v1 mem1 s = (Ok r1, s1) -> service_create_vm env2 name v2 mem2 t = (Ok r2, t1) ->
  exists p q, last (sent (default (mkChannel [] true) (n_proposal_tx (sv_node s1)))) = Some p /\
    last (sent (default (mkChannel [] true) (n_proposal_tx (sv_node t1)))) = Some q /\
  forall envs cenv entry1 entry2 x, carries entry1 (prop_data p) -> carries entry2 (prop_data q) -> plain envs cenv x ->
    let usage := stored_usage "default" (now1 (envs 1%nat)) (database x) in
    config_fits c1 -> config_fits c2 -> usage_fits usage -> usage_fits (counted 1 c1 usage) ->
    usage_fits (counted 1 c2 (counted 1 c1 usage)) ->
    exists x1 x2, apply_entry envs cenv entry1 x = (usage_end x, x1) /\ apply_entry envs cenv entry2 x1 = (usage_end x, x2) /\
      vms (database x2) = <[name := mkVmState name c2 Creating (n_id (sv_node t)) (now2 (envs O)) (now2 (envs O))]> (vms (database x)) /\
      forall now, stored_usage "default" now (database x2) = counted 1 c2 (counted 1 c1 usage).
Proof.
  intros c1 c2 E1 E2. apply service_create_ok in E1 as (tx & _ & Etx1), E2 as (ty & _ & Ety1).
  eexists _, _. split_and!; [rewrite Etx1; apply last_snoc|rewrite Ety1; apply last_snoc|].
  intros envs cenv entry1 entry2 x [Hne1 Hd1] [Hne2 Hd2] (Hf & Henv & Ha & Hwf) usage Hc1 Hc2 Hu Hu1 Hu2.
  cbn [prop_data] in Hd1, Hd2. unfold create_batch in Hd1, Hd2. rewrite from_create_delta in Hd1, Hd2 by done.
  destruct (commit_vm_batch envs cenv entry1 _ "default" 1 c1 _ _ _ x Hne1 Hd1 Hf Henv Ha Hwf (or_introl eq_refl) Hc1 Hu Hu1)
    as (x1 & Ex1 & V1 & W1 & U1 & S1 & A1).
  destruct (commit_vm_batch envs cenv entry2 _ "default" 1 c2 _ _ _ x1 Hne2 Hd2 Hf Henv A1 W1 (or_introl eq_refl) Hc2)
    as (x2 & Ex2 & V2 & _ & U2 & _); [by rewrite U1|by rewrite U1|].
  exists x1, x2. unfold usage_end in *. rewrite S1 in Ex2. split_and!; [done|done| |].
  - rewrite V2, V1. cbn. apply insert_insert_eq.
  - intros now. by rewrite U2, U1.
Qed.

(** Starting, stopping, migrating and scheduled creation never succeed, and no
    status is ever found: the service answers so and, as for listing and placement,
    submits nothing. *)
Theorem unsupported_operations_fail env request (s s' : State) r :
  submits request = false -> vm_operation env request s = (Ok r, s') ->
  n_proposal_tx (sv_node s') = n_proposal_tx (sv_node s) /\
  match request with
  | VStart _ => r = RStart false
  | VStop _ => r = RStop false
  | VMigrate _ _ _ _ => r = RMigrate false (n_id (sv_node s)) 0 5 0
  | VCreateWithScheduling _ _ => r = RCreateWithScheduling false "" 0
  | VGetStatus _ => r = RGetStatus None
  | _ => True
  end.
Proof.
  intros Hs. unfold vm_operation, sbind at 1, sget. cbn.
  destruct request as [name path v mem|p pr|p|name|name|name| |name|name target live force]; try done; intros E.
  - unfold answer, service_create_with_scheduling in E. unfold sbind at 1 in E.
    destruct (preflight _ _ _ s) as [[[]|e|] s1] eqn:Ep; apply preflight_node in Ep; cbn in E; simplify_eq; by rewrite Ep.
  - cbn in E. by simplify_eq.
  - cbn in E. by simplify_eq.
  - cbn in E. by simplify_eq.
  - unfold service_list_vms, on_host in E. unfold sbind in E.
    destruct (shared_list_vms _ _ _) as [[|?|] h]; cbn in E; unfold sret in E; by simplify_eq.
  - unfold service_get_vm_status, on_host in E. unfold sbind in E.
    destruct (shared_get_vm_status _ _ _ _) as [[|?|] h]; cbn in E; unfold sret in E; by simplify_eq.
  - unfold answer, service_migrate_vm, sbind, sget in E. destruct (NodeShared.is_leader _); cbn in E; by simplify_eq.
Qed.

(** ** Behind the secure protocol *)

Definition queue_of (s : State) : option (Channel RaftProposal) := n_proposal_tx (sv_node s).

(** At most one proposal is submitted, of the given kind. *)
Definition submitted (P : ProposalData -> Prop) (s s' : State) : Prop :=
  queue_of s' = queue_of s \/
  exists tx p, queue_of s = Some tx /\ queue_of s' = Some (mkChannel (sent tx ++ [p]) true) /\ P (prop_data p).

Lemma send_submits (P : ProposalData -> Prop) p (s s' : State) o :
  on_node (send_raft_proposal p) s = (o, s') -> P (prop_data p) -> submitted P s s'.
Proof.
  unfold on_node, send_raft_proposal, chan_send, submitted, queue_of. intros E HP.
  destruct (n_proposal_tx (sv_node s)) as [tx|] eqn:Etx; [|injection E as <- <-; by left].
  destruct (receiver tx); injection E as <- <-; [right; by exists tx, p|by left].
Qed.

Definition creation (name : string) (d : ProposalData) : Prop :=
  exists config id rest, d = Batch (CreateVm (VmCreate config id) :: rest) /\ vm_name config = name.
Definition deletion (name : string) (d : ProposalData) : Prop := exists rest, d = Batch (CreateVm (VmDelete name) :: rest).

Lemma create_submits env name v mem (s s' : State) o :
  service_create_vm env name v mem s = (o, s') -> submitted (creation name) s s'.
Proof.
  unfold service_create_vm. unfold sbind at 1, sget. intros [([] & s1 & E1 & E)|(_ & o1 & E1 & _)]%sbind_inv; apply preflight_node in E1.
  - assert (submitted (creation name) s1 s') as Hs.
    { apply sbind_inv in E as [(r & s2 & E2 & [= _ <-])|(_ & o2 & E2 & _)]; eapply send_submits; try exact E2; by repeat eexists. }
    unfold submitted, queue_of in *. by rewrite E1 in Hs.
  - left. unfold queue_of. by rewrite E1.
Qed.

Lemma delete_submits env name (s s' : State) o :
  service_delete_vm env name s = (o, s') -> submitted (deletion name) s s'.
Proof.
  assert (Hhost : forall A (c : SharedNodeState Bd -> st (Host B) BlixardError A) (t t' : State) o', on_host c t = (o', t') -> sv_node t' = sv_node t).
  { intros A c t t' o'. unfold on_host. destruct (c _ _). by intros [= _ <-]. }
  unfold service_delete_vm. intros [(l & s1 & E1 & E)|(_ & o1 & E1 & _)]%sbind_inv; apply Hhost in E1.
  2: { left. unfold queue_of. by rewrite E1. }
  destruct (List.find _ _) as [v|]; [|injection E as _ <-; left; unfold queue_of; by rewrite E1].
  assert (submitted (deletion name) s1 s') as Hs; [|unfold submitted, queue_of in *; by rewrite E1 in Hs].
  apply sbind_inv in E as [(delta & s2 & [= _ <-] & E)|(_ & o2 & [= _ <-] & _)]; [|by left].
  apply sbind_inv in E as [(r & s3 & E3 & [= _ <-])|(_ & o3 & E3 & _)]; eapply send_submits; try exact E3; by repeat eexists.
Qed.

Lemma answer_state {A} (c : service A) ok failed (s s' : State) o :
  answer c ok failed s = (o, s') -> snd (c s) = s'.
Proof. unfold answer. destruct (c s) as [[] t]; by intros [= _ <-]. Qed.

(** What each request may submit. *)
Lemma operation_submits env request (s s' : State) o :
  vm_operation env request s = (o, s') ->
  match request with
  | VCreate name _ _ _ => submitted (creation name) s s'
  | VDelete name => submitted (deletion name) s s'
  | _ => queue_of s' = queue_of s
  end.
Proof.
  unfold vm_operation, sbind at 1, sget, queue_of. destruct request as [name path v mem|p pr|p|name|name|name| |name|name target live force]; intros E.
  - apply answer_state in E. destruct (service_create_vm _ _ _ _ s) eqn:Ec. cbn in E. subst. by eapply create_submits.
  - apply answer_state in E. unfold service_create_with_scheduling, sbind at 1 in E. destruct (preflight _ _ _ s) as [[] s1] eqn:Ep;
      apply preflight_node in Ep; cbn in E; subst; by rewrite Ep.
  - by injection E as _ <-.
  - by injection E as _ <-.
  - by injection E as _ <-.
  - apply answer_state in E. destruct (service_delete_vm _ _ s) eqn:Ec. cbn in E. subst. by eapply delete_submits.
  - unfold service_list_vms, on_host, sbind in E. destruct (shared_list_vms _ _ _) as [[] h]; by injection E as _ <-.
  - unfold service_get_vm_status, on_host, sbind in E. destruct (shared_get_vm_status _ _ _ _) as [[] h]; by injection E as _ <-.
  - apply answer_state in E. unfold service_migrate_vm, sbind, sget in E. by destruct (NodeShared.is_leader _); cbn in E; subst.
Qed.

Section Secure.
Context {NodeId Uid Pol S' : Type} `{Countable NodeId} `{Crypto} `{CedarLib Uid Pol} `{Codec VmRequest} `{Codec VmResponse}.


End Secure.

End Submit.

End Commit.

(** * Witnesses *)

#[local] Instance demo_profile : Profile := true.
#[local] Existing Instance demo_uuid.
#[local] Existing Instance prefix_nets.
#[local] Existing Instance canonical_iter.
#[local] Existing Instance StateMachine.wire_net.
#[local] Existing Instance wire_codec.
#[local] Existing Instance wire_codec_ok.
#[local] Instance demo_quota_storage : QuotaStorage Database := redb_storage NoFault.

Lemma wire_serializes {A} `{Wire A} (a : A) : is_Some (ser a).
Proof. by eexists. Qed.
Lemma wire_proposals : proposals_serialize.
Proof.
  intros p. exists (put p). split_and!; [done|apply put_proposal_nonempty|]. by apply (wire_codec_ok _ p (put p)).
Qed.
Lemma demo_carries p : carries (entry_of p) p.
Proof. split; [apply put_proposal_nonempty|apply entry_of_decodes]. Qed.

Definition demo_service (db : Database) : VmServiceState MockVmBackend unit Database :=
  mkVmService (set_n_proposal_tx (Some (mkChannel [] true)) (set_n_vm_manager true (node_new 7 None))) None (mkHost mock_new db) ∅.
Definition demo_env : ServiceEnv := mkServiceEnv 3 [1; 2] [] (mkCallEnv 5 ReadFine).

(** A node without quota manager, and one whose shared state is gone. *)
Definition demo_machine (shared : option (option (QuotaManager Database))) : RaftStateMachine :=
  mkMachine empty_database shared false manager_new.

Lemma demo_plain shared : plain task_envs (task_env 5) (demo_machine shared).
Proof. split_and!; [done|by intros i|done|]. intros k b Hb. exfalso. exact (lookup_empty_Some k b Hb). Qed.


Lemma ok_pair {E A S} (x : outcome E A * S) a : fst x = Ok a -> x = (Ok a, snd x).
Proof. destruct x. by intros <-. Qed.

(** The database in which the machine is recorded. *)
Definition demo_recorded : Database :=
  set_strs VM_STATE_TABLE {["web" := put (mkVmState "web" (service_config "web" 2 2048 500) Creating 7 0 0)]} empty_database.

Lemma created_and_deleted_witness :
  exists p q x1 x2, apply_entry task_envs (task_env 5) (entry_of (prop_data p)) (demo_machine (Some None)) = (Panic, x1) /\
    apply_entry task_envs (task_env 5) (entry_of (prop_data q)) x1 = (Panic, x2) /\
    vms (database x2) = ∅ /\ stored_usage "default" 0 (database x2) = mkVmUsage 0 0 0 0 ∅.
Proof.
  destruct (created_and_deleted (fun v => wire_serializes v) (fun u => wire_serializes u) wire_proposals demo_env demo_env "web" 2 2048
    (demo_service empty_database) (snd (service_create_vm demo_env "web" 2 2048 (demo_service empty_database)))
    (demo_service demo_recorded) (snd (service_delete_vm demo_env "web" (demo_service demo_recorded))) "web"
    [(service_config "web" 2 2048 500, Creating)] (mkHost mock_new demo_recorded)) as (p & q & _ & _ & Hc).
  - reflexivity.
  - apply ok_pair. vm_compute. reflexivity.
  - reflexivity.
  - repeat constructor.
  - apply ok_pair. vm_compute. reflexivity.
  - destruct (Hc task_envs (task_env 5) (entry_of (prop_data p)) (entry_of (prop_data q)) (demo_machine (Some None))
      (demo_carries _) (demo_carries _) (demo_plain _)) as (x1 & x2 & E1 & E2 & V & U).
    + reflexivity.
    + split; cbn; lia.
    + repeat split; vm_compute; congruence.
    + repeat split; vm_compute; congruence.
    + exists p, q, x1, x2. split_and!; [exact E1|exact E2|rewrite V; reflexivity|rewrite U; reflexivity].
Defined.

Lemma recreated_vm_counted_twice_witness :
  exists p q x1 x2, apply_entry task_envs (task_env 5) (entry_of (prop_data p)) (demo_machine (Some None)) = (Panic, x1) /\
    apply_entry task_envs (task_env 5) (entry_of (prop_data q)) x1 = (Panic, x2) /\
    size (vms (database x2)) = 1%nat /\ stored_usage "default" 0 (database x2) = mkVmUsage 2 3 3072 0 ∅.
Proof.
  destruct (recreated_vm_counted_twice (fun v => wire_serializes v) (fun u => wire_serializes u) wire_proposals demo_env demo_env "web" 2 2048 1 1024
    (demo_service empty_database) (snd (service_create_vm demo_env "web" 2 2048 (demo_service empty_database)))
    (demo_service empty_database) (snd (service_create_vm demo_env "web" 1 1024 (demo_service empty_database))) "web" "web"
    eq_refl eq_refl) as (p & q & _ & _ & Hc).
  destruct (Hc task_envs (task_env 5) (entry_of (prop_data p)) (entry_of (prop_data q)) (demo_machine (Some None))
    (demo_carries _) (demo_carries _) (demo_plain _)) as (x1 & x2 & E1 & E2 & V & U).
  - split; cbn; lia.
  - split; cbn; lia.
  - repeat split; vm_compute; congruence.
  - repeat split; vm_compute; congruence.
  - repeat split; vm_compute; congruence.
  - exists p, q, x1, x2. split_and!; [exact E1|exact E2|rewrite V; reflexivity|rewrite U; reflexivity].
Defined.

Lemma unsupported_operations_fail_witness :
  n_proposal_tx (sv_node (demo_service empty_database)) = n_proposal_tx (sv_node (demo_service empty_database)) /\ RStart false = RStart false.
Proof.
  apply (unsupported_operations_fail demo_env (VStart "web") (demo_service empty_database) (demo_service empty_database) (RStart false));
    reflexivity.
Defined.

(** A request to create a machine, from the node of a user who may do anything. *)
#[local] Existing Instance Security.demo_cedar.
#[local] Instance demo_request : Codec VmRequest :=
  {| ser := fun _ => None; de := fun b => match b with [1] => Some (Operation (VCreate "web" "" 2 2048)) | _ => None end |}.
#[local] Instance demo_response : Codec VmResponse := {| ser := fun _ => Some []; de := fun _ => None |}.
Definition demo_called : outcome BlixardError (list Z) * VmServiceState MockVmBackend unit Database :=
  handle_secure_call (H2 := iroh_vm_service demo_env) demo_clock (Some 7) "vm_operation" [1] demo_middleware (demo_service empty_database).

