(* ===== verification/RpcService.v ===== *)
(** Remote calls and the services behind them
    (blixard-core/src/transport/iroh_service.rs, iroh_service_runner.rs,
    iroh_raft_service.rs, iroh_health_service.rs, iroh_cluster_service.rs).

    A service works on a state [W] that all services of a node share.  What
    arrives on a stream is a list of bytes, what is sent on one is kept by its
    sending end (IrohProtocol).  The text of an error, which only a human reads,
    is a function of a class. *)

From Stdlib Require Import ZArith Lia List.
From stdpp Require Import base tactics numbers gmap strings pretty option.
From stdpp Require Import list relations.
From S2P Require Import Prelude Wire Errors Types RaftCodec IpPool Proposals Codecs Database RaftCore VmBackend.
From S2P Require Import IrohProtocol NodeShared ClusterOps.

Open Scope Z_scope.

Class ErrorText : Type := error_text : BlixardError -> string.

(** * Messages *)

Record RpcRequest : Type := mkRpcRequest { req_service : string; req_method : string; req_payload : bytes }.
Record RpcResponse : Type := mkRpcResponse { resp_success : bool; resp_payload : option bytes; resp_error : option string }.

(** * Services *)

Record IrohService (W : Type) : Type := mkService {
  service_name : string;
  handle_call : string -> bytes -> st W BlixardError bytes
}.
Arguments mkService {W} service_name handle_call.
Arguments service_name {W} i.
Arguments handle_call {W} i.

Section Server.
Context {W : Type} `{ErrorText} `{Codec RpcRequest} `{Codec RpcResponse}.

Definition registry_get (name : string) (services : gmap string (IrohService W)) : option (IrohService W) := services !! name.

(** [ServiceRegistry::register] replaces a service of the same name. *)
Definition registry_replace (s : IrohService W) (services : gmap string (IrohService W)) : gmap string (IrohService W) :=
  <[service_name s := s]> services.

(** [IrohServiceRunner::register_service] refuses it. *)
Definition register_service (s : IrohService W) (services : gmap string (IrohService W))
    : BlixardResult (gmap string (IrohService W)) :=
  match services !! service_name s with
  | Some _ => Err (Internal "Service already registered")
  | None => Ok (<[service_name s := s]> services)
  end.

Definition register_services (l : list (IrohService W)) : BlixardResult (gmap string (IrohService W)) :=
  ofold (fun m s => register_service s m) ∅ l.

(** An operation on the sending end of the stream, and one on the shared state. *)
Definition on_stream {A} (m : st SendStream BlixardError A) : st (SendStream * W) BlixardError A :=
  fun sw => let '(o, s) := m sw.1 in (o, (s, sw.2)).
Definition on_world {A} (m : st W BlixardError A) : st (SendStream * W) BlixardError A :=
  fun sw => let '(o, w) := m sw.2 in (o, (sw.1, w)).

(** What a call of a service is answered with. *)
Definition respond_with (service : IrohService W) (r : RpcRequest) : st W BlixardError RpcResponse :=
  fun w =>
    match handle_call service (req_method r) (req_payload r) w with
    | (Ok payload, w') => (Ok (mkRpcResponse true (Some payload) None), w')
    | (Err e, w') => (Ok (mkRpcResponse false None (Some (error_text e))), w')
    | (Panic, w') => (Panic, w')
    end.

(** [handle_rpc_stream]; [flushed] says whether the response can be flushed. *)
Definition handle_rpc_stream (flushed : bool) (services : gmap string (IrohService W)) (recv : bytes)
    : st (SendStream * W) BlixardError unit :=
  let* hp := slift (fst (read_message recv)) in
  let '(header, payload) := hp in
  match msg_type header with
  | Request =>
      let* request := slift (deserialize_payload payload) in
      let* service := slift (ok_or (ServiceNotFound (req_service request)) (services !! req_service request)) in
      let* response := on_world (respond_with service request) in
      let* response_bytes := slift (serialize_payload response) in
      on_stream (write_message Response (request_id header) response_bytes) ;*
      if flushed then sret tt else sfail (Internal "Failed to flush response stream")
  | _ => sfail (Internal "Expected Request")
  end.

(** * Calling a service *)

(** The connections to nodes a client has, by the id of the node.  What happens
    on the network during a call: the connection that is made when one is
    needed, the stream a connection gives, whether it can be finished, and what
    arrives on a connection in answer to what was written. *)
Record CallNet : Type := mkCallNet {
  net_connect : option Z;
  net_open_bi : Z -> option SendStream;
  net_finish : bool;
  net_answer : Z -> bytes -> bytes;
  net_request_id : bytes
}.

Definition IrohRpcClient : Type := gmap Z Z.

Definition client_get_or_create_connection (net : CallNet) (node_id : Z) : st IrohRpcClient BlixardError Z :=
  fun c =>
    match c !! node_id with
    | Some conn => (Ok conn, c)
    | None =>
        match net_connect net with
        | Some conn => (Ok conn, <[node_id := conn]> c)
        | None => (Err NetworkError, c)
        end
    end.

Definition close_connection (node_id : Z) (c : IrohRpcClient) : IrohRpcClient := delete node_id c.

(** From the response to the result. *)
Definition result_of_response {Res} `{Codec Res} (response : RpcResponse) : BlixardResult Res :=
  if resp_success response then
    let? payload := ok_or (Internal "Success response missing payload") (resp_payload response) in
    deserialize_payload payload
  else Err (Internal (default "Unknown error" (resp_error response))).

Definition call {Req Res} `{Codec Req} `{Codec Res} (net : CallNet) (node_id : Z) (service method : string) (request : Req)
    : st IrohRpcClient BlixardError Res :=
  let* conn := client_get_or_create_connection net node_id in
  let* stream := slift (ok_or NetworkError (net_open_bi net conn)) in
  let* request_bytes := slift (serialize_payload request) in
  let* rpc_bytes := slift (serialize_payload (mkRpcRequest service method request_bytes)) in
  let '(o, stream') := write_message Request (net_request_id net) rpc_bytes stream in
  slift o ;*
  slift (if net_finish net then Ok tt else Err NetworkError) ;*
  let* hp := slift (fst (read_message (net_answer net conn (written stream')))) in
  let '(header, payload) := hp in
  if negb (bool_decide (request_id header = net_request_id net)) then sfail (Internal "Request ID mismatch")
  else
    match msg_type header with
    | Response => let* response := slift (deserialize_payload payload) in slift (result_of_response response)
    | _ => sfail (Internal "Expected response")
    end.

(** What arrives in answer when a server with these services, in the state [w],
    handles the stream. *)
Definition served (services : gmap string (IrohService W)) (w : W) (request : bytes) : bytes :=
  written (snd (handle_rpc_stream true services request (mkSend [] None, w))).1.

(** The state of the server afterwards. *)
Definition served_state (services : gmap string (IrohService W)) (w : W) (request : bytes) : W :=
  (snd (handle_rpc_stream true services request (mkSend [] None, w))).2.

End Server.
Arguments handle_rpc_stream {W _ _ _}.

(** * The services of a node *)

Section Services.
Context {Bd : Type} `{IpNetLib}.

(** ** Raft messages *)

Definition extract_sender_from_message (m : Message Bd) : option Z :=
  if msg_from m =? 0 then None else Some (msg_from m).

Definition raft_ok : bytes := [79; 75].

Definition raft_handle_call `{Codec (Message Bd)} (method : string) (payload : bytes) : st (SharedNodeState Bd) BlixardError bytes :=
  if String.eqb method "raft.message" then
    fun n =>
      match de payload with
      | None => (Err (Internal "Failed to deserialize Raft message"), n)
      | Some message =>
          match extract_sender_from_message message with
          | None => (Err (Internal "Cannot determine sender ID from Raft message"), n)
          | Some sender_id =>
              match n_message_tx n with
              | None => (Err (NotInitialized "RaftManager message channel"), n)
              | Some tx =>
                  match chan_send (sender_id, message) tx with
                  | None => (Err (Internal "Failed to forward message to RaftManager - channel closed"), n)
                  | Some tx' => (Ok raft_ok, set_n_message_tx (Some tx') n)
                  end
              end
          end
      end
  else sfail (Internal "Unknown Raft method").

Definition raft_service `{Codec (Message Bd)} : IrohService (SharedNodeState Bd) := mkService "raft" raft_handle_call.

(** ** Health *)

Record HealthCheckResponse : Type := mkHealthResponse { healthy : bool; health_message : string }.

Definition pong : bytes := [112; 111; 110; 103].

(** The request of a check has no fields. *)
Definition health_handle_call `{Codec unit} `{Codec HealthCheckResponse} (method : string) (payload : bytes)
    : st (SharedNodeState Bd) BlixardError bytes :=
  if String.eqb method "check" then
    let* _ := slift (deserialize_payload (A:=unit) payload) in
    let* n := sget in
    slift (serialize_payload (mkHealthResponse true ("Node " +:+ pretty (n_id n) +:+ " is healthy")))
  else if String.eqb method "ping" then sret pong
  else sfail (Internal "Unknown method").

Definition health_service `{Codec unit} `{Codec HealthCheckResponse} : IrohService (SharedNodeState Bd) :=
  mkService "health" health_handle_call.

(** [IrohHealthClient::check] and [ping]; [from_utf8_lossy] is left to the
    caller. *)
Definition health_check `{Codec RpcRequest} `{Codec RpcResponse} `{Codec unit} `{Codec HealthCheckResponse} (net : CallNet) (node_id : Z)
    : st IrohRpcClient BlixardError HealthCheckResponse :=
  call net node_id "health" "check" tt.
Definition health_ping `{Codec RpcRequest} `{Codec RpcResponse} `{Codec unit} `{Codec bytes} (net : CallNet) (node_id : Z)
    : st IrohRpcClient BlixardError bytes :=
  call net node_id "health" "ping" tt.

(** ** The cluster *)

Inductive ClusterRequest : Type :=
| ReqJoinCluster (r : JoinRequest)
| ReqLeaveCluster (node_id : Z)
| ReqGetClusterStatus
| ReqSubmitTask (r : TaskRequest)
| ReqGetTaskStatus (task_id : string)
| ReqProposeTask (id command : string) (args : list string) (cpu_cores memory_mb : Z).

Inductive ClusterResponse : Type :=
| RespJoinCluster (success : bool) (peers : list NodeInfo) (voters : list Z)
| RespLeaveCluster (success : bool)
| RespGetClusterStatus (leader_id : Z) (nodes : list NodeInfo) (term : Z)
| RespSubmitTask (accepted : bool) (assigned_node : Z)
| RespGetTaskStatus (found : bool) (output error : string) (execution_time_ms : Z)
| RespProposeTask (success : bool).

Section Cluster.
Context `{Profile} `{AddrText} `{HashIter} `{Codec ClusterRequest} `{Codec ClusterResponse}.

(** What is needed of the time and the Raft manager while a node joins. *)
Record JoinEnv : Type := mkJoinEnv {
  join_now : Z;
  join_channel : Z;
  join_answer : option (BlixardResult unit);
  join_pause : nat -> SharedNodeState Bd -> SharedNodeState Bd
}.

Definition cluster_handle_call (env : JoinEnv) (method : string) (payload : bytes) : st (SharedNodeState Bd) BlixardError bytes :=
  if String.eqb method "join_cluster" then
    let* request := slift (deserialize_payload payload) in
    match request with
    | ReqJoinCluster req =>
        let* r := join_cluster (join_now env) (join_channel env) (join_answer env) (join_pause env) req in
        let '(success, peers, voters) := r in
        slift (serialize_payload (RespJoinCluster success peers voters))
    | _ => sfail (Internal "Unexpected request type for join_cluster")
    end
  else if String.eqb method "leave_cluster" then
    let* request := slift (deserialize_payload payload) in
    match request with
    | ReqLeaveCluster node_id =>
        let* success := leave_cluster node_id in
        slift (serialize_payload (RespLeaveCluster success))
    | _ => sfail (Internal "Unexpected request type for leave_cluster")
    end
  else if String.eqb method "get_cluster_status" then
    let* n := sget in
    let* s := slift (get_cluster_status n) in
    let '(leader_id, nodes, term) := s in
    slift (serialize_payload (RespGetClusterStatus leader_id nodes term))
  else sfail (NotImplemented ("Cluster service method: " +:+ method)).

Definition cluster_service (env : JoinEnv) : IrohService (SharedNodeState Bd) := mkService "cluster" (cluster_handle_call env).

End Cluster.

End Services.
Arguments JoinEnv : clear implicits.
Arguments JoinEnv Bd {_}.

Section ClusterClient.
Context `{Codec RpcRequest} `{Codec RpcResponse} `{Codec ClusterRequest} `{Codec ClusterResponse}.

(** The result of a call whose response has arrived.  Unlike [call] these clients
    do not look at the request id. *)
Definition cluster_response (recv : bytes) : BlixardResult ClusterResponse :=
  let? hp := fst (read_message recv) in
  match msg_type hp.1 with
  | Response =>
      let? rpc_response := deserialize_payload hp.2 in
      if negb (resp_success rpc_response) then Err (Internal (default "Unknown error" (resp_error rpc_response)))
      else
        let? payload := ok_or (Internal "Missing response payload") (resp_payload rpc_response) in
        deserialize_payload payload
  | _ => Err (Internal "Expected response message")
  end.

(** [answer] is what arrives in answer to what was written. *)
Definition client_exchange (answer : bytes -> bytes) (id : bytes) (method : string) (request : ClusterRequest)
    : st SendStream BlixardError ClusterResponse :=
  let* payload := slift (serialize_payload request) in
  let* rpc := slift (serialize_payload (mkRpcRequest "cluster" method payload)) in
  write_message Request id rpc ;*
  let* s := sget in
  slift (cluster_response (answer (written s))).

Definition client_join_cluster (answer : bytes -> bytes) (id : bytes) (r : JoinRequest)
    : st SendStream BlixardError (bool * list NodeInfo * list Z) :=
  let* response := client_exchange answer id "join_cluster" (ReqJoinCluster r) in
  match response with
  | RespJoinCluster success peers voters => sret (success, peers, voters)
  | _ => sfail (Internal "Unexpected response type")
  end.

Definition client_get_cluster_status (answer : bytes -> bytes) (id : bytes) : st SendStream BlixardError (Z * list NodeInfo * Z) :=
  let* response := client_exchange answer id "get_cluster_status" ReqGetClusterStatus in
  match response with
  | RespGetClusterStatus leader_id nodes term => sret (leader_id, nodes, term)
  | _ => sfail (Internal "Unexpected response type")
  end.

End ClusterClient.

(** * Lemmas *)

Section Exchange.
Context {W : Type} `{ErrorText} `{Codec RpcRequest} `{Codec RpcResponse} `{!CodecOk RpcRequest} `{!CodecOk RpcResponse}.

(** A message that is not too large, with an id of sixteen bytes. *)
Definition sendable (id payload : bytes) : Prop := length id = 16%nat /\ Z.of_nat (length payload) <= MAX_MESSAGE_SIZE.

(** The response a handler's outcome turns into, unless it panics. *)
Definition response_of (o : BlixardResult bytes) : RpcResponse :=
  match o with
  | Ok payload => mkRpcResponse true (Some payload) None
  | Err e => mkRpcResponse false None (Some (error_text e))
  | Panic => mkRpcResponse false None None
  end.

(** What the caller makes of the outcome. *)
Definition outcome_seen {Res} `{Codec Res} (o : BlixardResult bytes) : BlixardResult Res :=
  match o with
  | Ok payload => deserialize_payload payload
  | Err e => Err (Internal (error_text e))
  | Panic => Panic
  end.

(** A request that arrives whole is answered by the service it names. *)
Lemma handle_request_frame (services : gmap string (IrohService W)) w id r qb service o w' rb :
  sendable id qb -> ser r = Some qb -> services !! req_service r = Some service ->
  handle_call service (req_method r) (req_payload r) w = (o, w') -> o <> Panic ->
  ser (response_of o) = Some rb -> sendable id rb ->
  handle_rpc_stream true services (frame (Request, id, qb)) (mkSend [] None, w) =
  (Ok tt, (mkSend (frame (Response, id, rb)) None, w')).
Proof.
  intros Hq Hser Hsvc Hcall Hnp Hrb Hr. unfold handle_rpc_stream.
  rewrite <- (app_nil_r (frame (Request, id, qb))), read_frame by exact Hq. cbn [fst received]. unfold sbind at 1, slift.
  cbn [msg_type header_new]. unfold deserialize_payload. rewrite (de_ser r qb Hser). unfold sbind at 1, slift, ok_or at 1.
  rewrite Hsvc. unfold sbind at 1, slift, ok_or at 1.
  assert (Hw : on_world (respond_with service r) (mkSend [] None, w) = (Ok (response_of o), (mkSend [] None, w'))).
  { unfold on_world, respond_with. cbn [fst snd]. rewrite Hcall. by destruct o. }
  erewrite sbind_ok by exact Hw. unfold serialize_payload. rewrite Hrb. unfold sbind at 1, slift, ok_or.
  unfold sbind, on_stream. cbn [fst snd request_id header_new]. rewrite (write_message_frame (Response, id, rb)) by done. done.
Qed.

Lemma served_frame (services : gmap string (IrohService W)) w id r qb service o w' rb :
  sendable id qb -> ser r = Some qb -> services !! req_service r = Some service ->
  handle_call service (req_method r) (req_payload r) w = (o, w') -> o <> Panic ->
  ser (response_of o) = Some rb -> sendable id rb ->
  served services w (frame (Request, id, qb)) = frame (Response, id, rb) /\
  served_state services w (frame (Request, id, qb)) = w'.
Proof. intros. unfold served, served_state. by erewrite handle_request_frame. Qed.

Lemma result_of_response_seen {Res} `{Codec Res} o : o <> Panic -> result_of_response (Res:=Res) (response_of o) = outcome_seen o.
Proof. by destruct o. Qed.

(** A registry that was built without an error has every service under its name. *)
Lemma register_services_lookup (l : list (IrohService W)) m s :
  register_services l = Ok m -> s ∈ l -> m !! service_name s = Some s.
Proof.
  unfold register_services.
  assert (Hgen : forall m0, ofold (fun m s => register_service s m) m0 l = Ok m ->
    (forall k x, m0 !! k = Some x -> m !! k = Some x) /\ (s ∈ l -> m !! service_name s = Some s)).
  { induction l as [|x l IH]; intros m0; cbn [ofold]; [intros [= ->]; split; [done|by intros ?%elem_of_nil]|].
    intros (m1 & E1 & E2)%obind_ok. unfold register_service in E1. destruct (m0 !! service_name x) eqn:Ex; [done|]. injection E1 as <-.
    destruct (IH _ E2) as [Hkeep Hin]. split.
    - intros k y Hk. apply Hkeep. rewrite lookup_insert_ne; [done|]. intros <-. congruence.
    - intros [->|Hs]%elem_of_cons; [apply Hkeep, lookup_insert_eq|by apply Hin]. }
  intros E. by apply (Hgen ∅).
Qed.

End Exchange.

(** * Properties *)

Section Calls.
Context {W : Type} `{ErrorText} `{Codec RpcRequest} `{Codec RpcResponse} `{!CodecOk RpcRequest} `{!CodecOk RpcResponse}.

(** A remote call gives its caller what the service gave: the value the
    handler returned, or its error as text; and it runs the handler once, on
    the state the node was in. *)
Theorem call_returns_result {Req Res} `{Codec Req} `{Codec Res} (services : gmap string (IrohService W)) w net c c' node_id conn
    service method (request : Req) svc b qb o w' rb :
  client_get_or_create_connection net node_id c = (Ok conn, c') ->
  net_open_bi net conn = Some (mkSend [] None) -> net_finish net = true -> net_answer net conn = served services w ->
  ser request = Some b -> ser (mkRpcRequest service method b) = Some qb -> sendable (net_request_id net) qb ->
  services !! service = Some svc -> handle_call svc method b w = (o, w') -> o <> Panic ->
  ser (response_of o) = Some rb -> sendable (net_request_id net) rb ->
  call net node_id service method request c = (outcome_seen (Res:=Res) o, c') /\
  served_state services w (frame (Request, net_request_id net, qb)) = w'.
Proof.
  intros Hc Ho Hf Ha Hb Hqb Hq Hs Hh Hnp Hrb Hr.
  destruct (served_frame services w (net_request_id net) (mkRpcRequest service method b) qb svc o w' rb Hq Hqb Hs Hh Hnp Hrb Hr)
    as [Hserved Hstate]. split; [|done].
  unfold call. erewrite sbind_ok by exact Hc. rewrite Ho. unfold sbind at 1, slift, ok_or.
  unfold serialize_payload. rewrite Hb. unfold sbind at 1, slift, ok_or. rewrite Hqb. unfold sbind at 1, slift, ok_or.
  rewrite (write_message_frame (Request, net_request_id net, qb)) by done. cbn [written app]. rewrite Hf, Ha.
  unfold sbind at 1, slift. unfold sbind at 1, slift. rewrite Hserved, <- (app_nil_r (frame _)), read_frame by exact Hr.
  cbn [fst received]. unfold sbind at 1, slift. cbn [request_id msg_type header_new]. rewrite bool_decide_true by done. cbn [negb].
  unfold deserialize_payload at 1. rewrite (de_ser _ _ Hrb). unfold sbind, slift, ok_or. by rewrite result_of_response_seen.
Qed.

(** A connection that is cached is used for every later call to the node, also
    when it is dead: each of them fails and none replaces it. *)
Theorem dead_connection_is_kept {Req Res} `{Codec Req} `{Codec Res} net node_id conn c service method (request : Req) :
  c !! node_id = Some conn -> net_open_bi net conn = None ->
  call (Res:=Res) net node_id service method request c = (Err NetworkError, c).
Proof. intros Hc Ho. unfold call, sbind, client_get_or_create_connection, slift. rewrite Hc. by rewrite Ho. Qed.

End Calls.

Section NodeServices.
Context {Bd : Type} `{IpNetLib} `{ErrorText} `{Codec RpcRequest} `{Codec RpcResponse} `{!CodecOk RpcRequest} `{!CodecOk RpcResponse}.

(** A message from a known sender is put into the channel, once, and nothing else
    of the node changes. *)
Lemma raft_call_forwards `{Codec (Message Bd)} `{!CodecOk (Message Bd)} (n : SharedNodeState Bd) m mb tx :
  ser m = Some mb -> msg_from m <> 0 -> n_message_tx n = Some tx -> receiver tx = true ->
  raft_handle_call "raft.message" mb n = (Ok raft_ok, set_n_message_tx (Some (mkChannel (sent tx ++ [(msg_from m, m)]) true)) n).
Proof.
  intros Hm Hf Htx Hr. unfold raft_handle_call. cbn [String.eqb Ascii.eqb Bool.eqb]. rewrite (de_ser m mb Hm).
  unfold extract_sender_from_message. destruct (Z.eqb_spec (msg_from m) 0); [done|]. rewrite Htx. unfold chan_send. by rewrite Hr.
Qed.

(** A call the Raft service refuses changes nothing. *)
Lemma raft_call_refuses `{Codec (Message Bd)} method payload (n : SharedNodeState Bd) :
  is_ok (fst (raft_handle_call method payload n)) = false -> snd (raft_handle_call method payload n) = n.
Proof. unfold raft_handle_call, chan_send, sfail. repeat case_goal; cbn; congruence. Qed.

(** A Raft message that reaches a node whole, in a request to its Raft service,
    is handed to its Raft manager exactly once, with the sender the message
    names, after the messages that came before. *)
Theorem raft_request_delivered `{Codec (Message Bd)} `{!CodecOk (Message Bd)} services (n : SharedNodeState Bd) id m mb qb rb tx :
  services !! "raft" = Some raft_service -> ser m = Some mb -> ser (mkRpcRequest "raft" "raft.message" mb) = Some qb ->
  sendable id qb -> ser (mkRpcResponse true (Some raft_ok) None) = Some rb -> sendable id rb ->
  msg_from m <> 0 -> n_message_tx n = Some tx -> receiver tx = true ->
  n_message_tx (served_state services n (frame (Request, id, qb))) = Some (mkChannel (sent tx ++ [(msg_from m, m)]) true).
Proof.
  intros Hs Hm Hqb Hq Hrb Hr Hf Htx Hrx.
  destruct (served_frame services n id (mkRpcRequest "raft" "raft.message" mb) qb raft_service (Ok raft_ok)
    (set_n_message_tx (Some (mkChannel (sent tx ++ [(msg_from m, m)]) true)) n) rb Hq Hqb Hs) as [_ ->]; [|done..].
  by apply raft_call_forwards.
Qed.

(** A ping never succeeds, whatever the node answers: the four letters of the
    answer are read as a byte string with its length in front. *)
Theorem ping_always_fails `{Codec unit} `{Codec HealthCheckResponse} `{Codec bytes} services (n : SharedNodeState Bd) net c c' node_id conn
    b qb rb :
  de (A:=bytes) pong = None ->
  client_get_or_create_connection net node_id c = (Ok conn, c') ->
  net_open_bi net conn = Some (mkSend [] None) -> net_finish net = true -> net_answer net conn = served services n ->
  ser tt = Some b -> ser (mkRpcRequest "health" "ping" b) = Some qb -> sendable (net_request_id net) qb ->
  services !! "health" = Some health_service ->
  ser (mkRpcResponse true (Some pong) None) = Some rb -> sendable (net_request_id net) rb ->
  health_ping net node_id c = (Err SerializationError, c').
Proof.
  intros Hpong Hc Ho Hf Ha Hb Hqb Hq Hs Hrb Hr. unfold health_ping, call.
  destruct (served_frame services n (net_request_id net) (mkRpcRequest "health" "ping" b) qb health_service (Ok pong) n rb Hq Hqb Hs)
    as [Hserved _]; [done..|].
  erewrite sbind_ok by exact Hc. rewrite Ho. unfold sbind at 1, slift, ok_or.
  unfold serialize_payload. rewrite Hb. unfold sbind at 1, slift, ok_or. rewrite Hqb. unfold sbind at 1, slift, ok_or.
  rewrite (write_message_frame (Request, net_request_id net, qb)) by done. cbn [written app]. rewrite Hf, Ha.
  unfold sbind at 1, slift. unfold sbind at 1, slift. rewrite Hserved, <- (app_nil_r (frame _)), read_frame by exact Hr.
  cbn [fst received]. unfold sbind at 1, slift. cbn [request_id msg_type header_new]. rewrite bool_decide_true by done. cbn [negb].
  unfold deserialize_payload at 1. rewrite (de_ser _ _ Hrb). unfold sbind, slift, ok_or, result_of_response. cbn [resp_success resp_payload].
  unfold ok_or, obind, deserialize_payload, ok_or. by rewrite Hpong.
Qed.

Section Joining.
Context `{Profile} `{AddrText} `{HashIter} `{Codec ClusterRequest} `{Codec ClusterResponse}.
Context `{!CodecOk ClusterRequest} `{!CodecOk ClusterResponse}.

(** C9: joining over the network is joining: the client gets the answer the
    operation on the node's state gives, and the node is left in the state
    the operation leaves it in. *)
Theorem join_over_network services (n n' : SharedNodeState Bd) env id r success peers voters b qb pb rb :
  join_cluster (join_now env) (join_channel env) (join_answer env) (join_pause env) r n = (Ok (success, peers, voters), n') ->
  services !! "cluster" = Some (cluster_service env) ->
  ser (ReqJoinCluster r) = Some b -> ser (mkRpcRequest "cluster" "join_cluster" b) = Some qb -> sendable id qb ->
  ser (RespJoinCluster success peers voters) = Some pb -> ser (mkRpcResponse true (Some pb) None) = Some rb -> sendable id rb ->
  fst (client_join_cluster (served services n) id r (mkSend [] None)) = Ok (success, peers, voters) /\
  served_state services n (frame (Request, id, qb)) = n'.
Proof.
  intros Hjoin Hs Hb Hqb Hq Hpb Hrb Hr.
  assert (Hh : cluster_handle_call env "join_cluster" b n = (Ok pb, n')).
  { unfold cluster_handle_call. cbn [String.eqb Ascii.eqb Bool.eqb]. unfold deserialize_payload. rewrite (de_ser _ _ Hb).
    unfold sbind at 1, slift, ok_or. erewrite sbind_ok by exact Hjoin. unfold serialize_payload. rewrite Hpb. done. }
  destruct (served_frame services n id (mkRpcRequest "cluster" "join_cluster" b) qb (cluster_service env) (Ok pb) n' rb Hq Hqb Hs)
    as [Hserved Hstate]; [done..|]. split; [|done].
  unfold client_join_cluster, client_exchange. unfold serialize_payload. rewrite Hb. unfold sbind at 1. unfold sbind at 1, slift, ok_or.
  rewrite Hqb. unfold sbind at 1, slift, ok_or. unfold sbind at 1. rewrite (write_message_frame (Request, id, qb)) by done.
  unfold sbind at 1, sget. cbn [written app]. unfold cluster_response. rewrite Hserved, <- (app_nil_r (frame _)), read_frame by exact Hr.
  cbn [fst snd received obind msg_type header_new]. unfold deserialize_payload. rewrite (de_ser _ _ Hrb). cbn [ok_or obind resp_success negb resp_payload].
  by rewrite (de_ser _ _ Hpb).
Qed.

End Joining.

End NodeServices.

(** * Witnesses *)

#[local] Instance demo_net : IpNetLib := {| IpNet := unit; net_contains := fun _ _ => true |}.
#[local] Instance demo_profile : Profile := true.
#[local] Existing Instance canonical_iter.
#[local] Existing Instance wire_codec.
#[local] Existing Instance wire_codec_ok.
#[local] Existing Instance ClusterOps.demo_text.
#[local] Instance demo_error_text : ErrorText := fun _ => "error".

#[local] Instance wire_rpc_request : Wire RpcRequest :=
  wire_via (fun r => (req_service r, req_method r, req_payload r)) (fun '(s, m, p) => mkRpcRequest s m p)
    (fun r => match r with mkRpcRequest _ _ _ => eq_refl end).
#[local] Instance wire_rpc_response : Wire RpcResponse :=
  wire_via (fun r => (resp_success r, resp_payload r, resp_error r)) (fun '(s, m, p) => mkRpcResponse s m p)
    (fun r => match r with mkRpcResponse _ _ _ => eq_refl end).
#[local] Instance wire_health_response : Wire HealthCheckResponse :=
  wire_via (fun r => (healthy r, health_message r)) (fun '(s, m) => mkHealthResponse s m)
    (fun r => match r with mkHealthResponse _ _ => eq_refl end).
#[local] Instance wire_message : Wire (Message unit) :=
  wire_via (fun m : Message unit => (msg_to m, msg_from m, msg_body m)) (fun '(t, f, b) => mkMessage t f b)
    (fun m => match m with mkMessage _ _ _ => eq_refl end).
#[local] Instance wire_join : Wire JoinRequest :=
  wire_via (fun r => (join_node_id r, join_bind_address r, join_p2p_node_id r, join_p2p_addresses r, join_p2p_relay_url r))
    (fun '(i, b, p, a, u) => mkJoin i b p a u) (fun r => match r with mkJoin _ _ _ _ _ => eq_refl end).
#[local] Instance wire_node_info : Wire NodeInfo :=
  wire_via (fun r => (ni_id r, ni_address r, ni_state r, ni_p2p_node_id r, ni_p2p_addresses r, ni_p2p_relay_url r))
    (fun '(i, b, s, p, a, u) => mkNodeInfo i b s p a u) (fun r => match r with mkNodeInfo _ _ _ _ _ _ => eq_refl end).

(** Of the requests and responses of the cluster service only those about joining
    are written. *)
#[local] Instance demo_request_codec : Codec ClusterRequest := {|
  ser := fun r => match r with ReqJoinCluster j => ser j | _ => None end;
  de := fun b => ReqJoinCluster <$> de b
|}.
#[local] Instance demo_request_codec_ok : CodecOk ClusterRequest.
Proof.
  intros [] b E; try discriminate E. cbn [ser demo_request_codec] in E. cbn [de demo_request_codec].
  by rewrite (wire_codec_ok JoinRequest _ _ E).
Qed.

#[local] Instance demo_response_codec : Codec ClusterResponse := {|
  ser := fun r => match r with RespJoinCluster s p v => ser (s, p, v) | _ => None end;
  de := fun b => (fun '(s, p, v) => RespJoinCluster s p v) <$> de b
|}.
#[local] Instance demo_response_codec_ok : CodecOk ClusterResponse.
Proof.
  intros [] b E; try discriminate E. cbn [ser demo_response_codec] in E. cbn [de demo_response_codec].
  by rewrite (wire_codec_ok (bool * list NodeInfo * list Z) _ _ E).
Qed.

Definition demo_id : bytes := replicate 16 7.
Definition demo_node : SharedNodeState unit :=
  set_n_message_tx (Some (mkChannel [] true)) (set_n_conf_change_tx (Some (mkChannel [] true)) (node_new 1 (Some (mkSocketAddr (V4 0) 97)))).
Definition demo_join_env : JoinEnv unit := mkJoinEnv 9 0 None (fun _ n => n).

Definition demo_services : gmap string (IrohService (SharedNodeState unit)) :=
  <["raft" := raft_service]> (<["cluster" := cluster_service demo_join_env]> {["health" := health_service]}).

Definition demo_call : CallNet :=
  mkCallNet (Some 3) (fun _ => Some (mkSend [] None)) true (fun _ => served demo_services demo_node) demo_id.

Ltac sendable := split; [reflexivity|vm_compute; discriminate].

Lemma call_returns_result_witness :
  call demo_call 5 "health" "check" tt ∅ = (Ok (mkHealthResponse true "Node 1 is healthy"), {[5 := 3]} : IrohRpcClient).
Proof.
  refine (proj1 (call_returns_result (Res:=HealthCheckResponse) demo_services demo_node demo_call ∅ {[5 := 3]} 5 3 "health" "check" tt
    health_service _ _ _ demo_node _ eq_refl eq_refl eq_refl eq_refl eq_refl eq_refl _ eq_refl eq_refl _ eq_refl _)).
  - sendable.
  - discriminate.
  - sendable.
Defined.

Definition demo_message : Message unit := mkMessage 1 4 tt.

Lemma raft_request_delivered_witness :
  exists qb, ser (mkRpcRequest "raft" "raft.message" (put demo_message)) = Some qb /\
    n_message_tx (served_state demo_services demo_node (frame (Request, demo_id, qb))) = Some (mkChannel [(4, demo_message)] true).
Proof.
  eexists. split; [reflexivity|].
  refine (raft_request_delivered demo_services demo_node demo_id demo_message _ _ _ (mkChannel [] true)
    eq_refl eq_refl eq_refl _ eq_refl _ _ eq_refl eq_refl).
  - sendable.
  - sendable.
  - discriminate.
Defined.

Lemma join_over_network_witness :
  exists peers, fst (client_join_cluster (served demo_services demo_node) demo_id (mkJoin 7 "b" (Some "k") [] None) (mkSend [] None)) =
    Ok (true, peers, [1; 7]).
Proof.
  eexists. refine (proj1 (join_over_network demo_services demo_node _ demo_join_env demo_id (mkJoin 7 "b" (Some "k") [] None) true _ [1; 7]
    _ _ _ _ eq_refl eq_refl eq_refl eq_refl _ eq_refl eq_refl _)).
  - sendable.
  - sendable.
Defined.
