(* ===== verification/RaftTransport.v ===== *)
(** Sending Raft messages to other nodes
    (blixard-core/src/transport/iroh_raft_transport.rs): the buffer of messages
    that wait, the connections, and the two background tasks that send what is
    buffered and drop what is old.

    What iroh and the clock answer is an argument, a [NetEnv]: its functions take
    the number of questions asked before, which the state counts.  A connection
    is a number.  The bytes written on every stream that was opened are kept in
    [t_wire].  Counters of messages do not reach 2^64. *)

From Stdlib Require Import ZArith Lia List.
From stdpp Require Import base tactics numbers gmap strings pretty option.
From stdpp Require Import list relations.
From S2P Require Import Prelude Wire Errors Types RaftCodec IpPool Proposals Codecs Database RaftCore VmBackend.
From S2P Require Import IrohProtocol NodeShared ClusterOps RpcService.

Open Scope Z_scope.

(** * Priorities *)

(** The types of message the code tells apart; any other goes by its name. *)
Inductive MsgType : Type :=
| MsgRequestVote | MsgRequestVoteResponse | MsgHeartbeat | MsgHeartbeatResponse | MsgSnapshot | MsgOther (name : string).

(** [format!("{:?}", msg_type)] *)
Definition msg_type_debug (t : MsgType) : string :=
  match t with
  | MsgRequestVote => "MsgRequestVote" | MsgRequestVoteResponse => "MsgRequestVoteResponse"
  | MsgHeartbeat => "MsgHeartbeat" | MsgHeartbeatResponse => "MsgHeartbeatResponse"
  | MsgSnapshot => "MsgSnapshot" | MsgOther name => name
  end.

Class MessageBody (Bd : Type) : Type := body_type : Bd -> MsgType.

Inductive RaftMessagePriority : Type := Election | Heartbeat | LogAppend | SnapshotPriority.

#[export] Instance RaftMessagePriority_eq_dec : EqDecision RaftMessagePriority.
Proof. solve_decision. Defined.

Definition as_u8 (p : RaftMessagePriority) : Z :=
  match p with Election => 0 | Heartbeat => 1 | LogAppend => 2 | SnapshotPriority => 3 end.

#[export, refine] Instance RaftMessagePriority_countable : Countable RaftMessagePriority :=
  inj_countable' as_u8 (fun z => if z =? 0 then Election else if z =? 1 then Heartbeat else if z =? 2 then LogAppend else SnapshotPriority) _.
Proof. by intros []. Defined.

Definition from_raft_message {Bd} `{MessageBody Bd} (m : Message Bd) : RaftMessagePriority :=
  match body_type (msg_body m) with
  | MsgRequestVote | MsgRequestVoteResponse => Election
  | MsgHeartbeat | MsgHeartbeatResponse => Heartbeat
  | MsgSnapshot => SnapshotPriority
  | MsgOther _ => LogAppend
  end.

(** * State *)

Record BufferedRaftMessage (Bd : Type) : Type := mkBuffered {
  buf_message : Message Bd;
  buf_priority : RaftMessagePriority;
  buf_timestamp : Z;
  buf_attempts : Z
}.
Arguments mkBuffered {Bd}.
Arguments buf_message {Bd} b.
Arguments buf_priority {Bd} b.
Arguments buf_timestamp {Bd} b.
Arguments buf_attempts {Bd} b.

(** The streams of a connection for the four priorities are never opened. *)
Record PeerConnection : Type := mkPeerConnection {
  pc_node_id : Z;
  pc_iroh_id : Z;
  pc_connection : Z;
  last_activity : Z
}.

Inductive connect_answer : Type := Connected (conn : Z) | ConnectFails | ConnectTimesOut.

Record NetEnv : Type := mkNetEnv {
  clock : nat -> Z;
  connecting : nat -> NodeAddr -> connect_answer;
  opening : nat -> Z -> option SendStream;
  finishing : nat -> bool;
  request_ids : nat -> bytes;
  counting : nat -> bool;
  max_buffered_messages : option nat
}.

Definition secs (n : Z) : Z := n * 1000000000.

Section Transport.
Context {Bd : Type} `{MessageBody Bd} `{IpNetLib} `{AddrText} `{HashIter}.
Context `{Codec (Message Bd)} `{Codec RpcRequest}.

Record IrohRaftTransport : Type := mkTransport {
  t_node : SharedNodeState Bd;
  t_connections : gmap Z PeerConnection;
  t_buffer : gmap Z (list (BufferedRaftMessage Bd));
  t_sent : gmap string Z;
  t_wire : list (Z * bytes);
  t_asked : nat
}.

Definition transport_new (n : SharedNodeState Bd) : IrohRaftTransport := mkTransport n ∅ ∅ ∅ [] 0.

Definition transport (A : Type) : Type := st IrohRaftTransport BlixardError A.

Definition set_t_node (n : SharedNodeState Bd) (t : IrohRaftTransport) : IrohRaftTransport :=
  mkTransport n (t_connections t) (t_buffer t) (t_sent t) (t_wire t) (t_asked t).
Definition set_connections (c : gmap Z PeerConnection) (t : IrohRaftTransport) : IrohRaftTransport :=
  mkTransport (t_node t) c (t_buffer t) (t_sent t) (t_wire t) (t_asked t).
Definition set_buffer (b : gmap Z (list (BufferedRaftMessage Bd))) (t : IrohRaftTransport) : IrohRaftTransport :=
  mkTransport (t_node t) (t_connections t) b (t_sent t) (t_wire t) (t_asked t).
Definition set_sent (m : gmap string Z) (t : IrohRaftTransport) : IrohRaftTransport :=
  mkTransport (t_node t) (t_connections t) (t_buffer t) m (t_wire t) (t_asked t).
Definition set_wire (w : list (Z * bytes)) (t : IrohRaftTransport) : IrohRaftTransport :=
  mkTransport (t_node t) (t_connections t) (t_buffer t) (t_sent t) w (t_asked t).

(** The next answer of the surroundings. *)
Definition ask {A} (f : nat -> A) : transport A := fun t =>
  (Ok (f (t_asked t)), mkTransport (t_node t) (t_connections t) (t_buffer t) (t_sent t) (t_wire t) (S (t_asked t))).

(** * The buffer *)

Definition buffer_message (env : NetEnv) (to : Z) (message : Message Bd) (priority : RaftMessagePriority) : transport unit :=
  let* now := ask (clock env) in
  smodify (fun t => set_buffer (<[to := stable_insert (fun b => as_u8 (buf_priority b)) (mkBuffered message priority now 0)
    (default [] (t_buffer t !! to))]> (t_buffer t)) t) ;*
  let* max := slift (ok_or (ConfigurationError "config_global.access") (max_buffered_messages env)) in
  smodify (fun t => set_buffer (<[to := take max (default [] (t_buffer t !! to))]> (t_buffer t)) t).

(** * Connections *)

(** The address of a peer: from the registry, or else from the members of the
    cluster, which puts it into the registry. *)
Definition find_address (peer_id : Z) : transport NodeAddr := fun t =>
  match get_node_addr peer_id (t_node t) with
  | Ok addr => (Ok addr, t)
  | _ =>
      match get_peer peer_id (t_node t) with
      | Some p =>
          match p2p_node_id p with
          | Some text =>
              match parse_node_id text with
              | Some iroh_id =>
                  let addr := peer_addr iroh_id (p2p_addresses p) (p2p_relay_url p) in
                  (Ok addr, set_t_node (register_node peer_id iroh_id addr (Some (peer_address p)) (t_node t)) t)
              | None => (Err ClusterError, t)
              end
          | None => (Err ClusterError, t)
          end
      | None => (Err ClusterError, t)
      end
  end.

(** The connection, with the time of its last activity as far as it is known. *)
Definition get_or_create_connection (env : NetEnv) (peer_id : Z) : transport PeerConnection :=
  let* t := sget in
  match t_connections t !! peer_id with
  | Some conn => sret conn
  | None =>
      let* addr := find_address peer_id in
      let* answer := ask (fun k => connecting env k addr) in
      match answer with
      | Connected conn =>
          let* now := ask (clock env) in
          let stored := mkPeerConnection peer_id (addr_node_id addr) conn now in
          smodify (fun t => set_connections (<[peer_id := stored]> (t_connections t)) t) ;*
          let* now' := ask (clock env) in
          sret (mkPeerConnection peer_id (addr_node_id addr) conn now')
      | ConnectFails => sfail (Internal "Connection error to peer")
      | ConnectTimesOut => sfail (Timeout ("connect to peer " +:+ pretty peer_id) (secs 10))
      end
  end.

(** The batch processor connects by the node id of the member alone. *)
Definition create_connection_for_peer (env : NetEnv) (peer_id : Z) : transport PeerConnection :=
  let* t := sget in
  let* peer := slift (ok_or ClusterError (get_peer peer_id (t_node t))) in
  let* text := slift (ok_or (Internal "Peer has no P2P node ID") (p2p_node_id peer)) in
  let* iroh_id := slift (ok_or (Internal "Invalid Iroh node ID") (parse_node_id text)) in
  let* answer := ask (fun k => connecting env k (node_addr_new iroh_id)) in
  match answer with
  | Connected conn => let* now := ask (clock env) in sret (mkPeerConnection peer_id iroh_id conn now)
  | ConnectFails => sfail (Internal "Failed to connect to peer")
  | ConnectTimesOut => sfail (Timeout ("connect to peer " +:+ pretty peer_id) (secs 10))
  end.

(** * Sending *)

Definition record_sent (m : Message Bd) (t : IrohRaftTransport) : IrohRaftTransport :=
  let key := msg_type_debug (body_type (msg_body m)) in
  set_sent (<[key := default 0 (t_sent t !! key) + 1]> (t_sent t)) t.

(** A request on a stream that was opened, to its end. *)
Definition write_request (env : NetEnv) (conn : Z) (stream : SendStream) (id request_bytes : bytes) : transport unit :=
  let '(o, stream') := write_message Request id request_bytes stream in
  smodify (fun t => set_wire (t_wire t ++ [(conn, written stream')]) t) ;*
  slift o ;*
  let* finished := ask (finishing env) in
  if finished : bool then sret tt else sfail (Internal "Failed to finish send stream").

Definition raft_request (m : Message Bd) : BlixardResult RpcRequest :=
  let? msg_data := ok_or (Serialization "serialize raft message") (ser m) in
  Ok (mkRpcRequest "raft" "raft.message" msg_data).

(** The response is awaited and not looked at; the time of the activity is noted
    on the caller's copy of the connection, and lost with it. *)
Definition try_send_immediate (env : NetEnv) (to : Z) (message : Message Bd) : transport unit :=
  let* conn := get_or_create_connection env to in
  let* request := slift (raft_request message) in
  let* id := ask (request_ids env) in
  let* request_bytes := slift (serialize_payload request) in
  let* opened := ask (fun k => opening env k (pc_connection conn)) in
  let* stream := slift (ok_or (Internal "Failed to open bi stream") opened) in
  write_request env (pc_connection conn) stream id request_bytes ;*
  let* counted := ask (counting env) in
  (if counted : bool then smodify (record_sent message) else sret tt).

Definition send_message (env : NetEnv) (to : Z) (message : Message Bd) : transport unit := fun t =>
  match get_peer to (t_node t) with
  | None => (Ok tt, t)
  | Some _ =>
      let priority := from_raft_message message in
      match priority with
      | Election | Heartbeat | LogAppend =>
          match try_send_immediate env to message t with
          | (Err _, t') => buffer_message env to message priority t'
          | (o, t') => (o, t')
          end
      | SnapshotPriority => buffer_message env to message priority t
      end
  end.

(** * The batch processor *)

Fixpoint send_message_batch (env : NetEnv) (conn : Z) (messages : list (Message Bd)) : transport unit :=
  match messages with
  | [] => sret tt
  | message :: messages' =>
      let* request := slift (raft_request message) in
      let* id := ask (request_ids env) in
      let* opened := ask (fun k => opening env k conn) in
      let* stream := slift (ok_or (Internal "Failed to open bi stream") opened) in
      let* request_bytes := slift (serialize_payload request) in
      write_request env conn stream id request_bytes ;*
      smodify (record_sent message) ;*
      send_message_batch env conn messages'
  end.

Definition BATCH_LIMIT : nat := 100.

(** The loop that takes messages from the front of a queue: those that have waited
    for more than half a minute are dropped, and it ends after a hundred others. *)
Fixpoint take_batch (env : NetEnv) (queue : list (BufferedRaftMessage Bd)) (count : nat)
    (groups : gmap RaftMessagePriority (list (Message Bd)))
    : transport (gmap RaftMessagePriority (list (Message Bd)) * list (BufferedRaftMessage Bd)) :=
  match queue with
  | [] => sret (groups, [])
  | b :: queue' =>
      let* now := ask (clock env) in
      if secs 30 <? sat_sub now (buf_timestamp b) then take_batch env queue' count groups
      else
        let groups' := <[buf_priority b := default [] (groups !! buf_priority b) ++ [buf_message b]]> groups in
        if (BATCH_LIMIT <=? S count)%nat then sret (groups', queue') else take_batch env queue' (S count) groups'
  end.

(** A failure is logged. *)
Definition try_batch (env : NetEnv) (conn : Z) (group : RaftMessagePriority * list (Message Bd)) : transport unit :=
  signore (send_message_batch env conn group.2).

Definition process_peer (env : NetEnv) (peer_id : Z) : transport unit :=
  let* t := sget in
  match default [] (t_buffer t !! peer_id) with
  | [] => sret tt
  | messages =>
      let* found :=
        match t_connections t !! peer_id with
        | Some c => sret (Some (pc_connection c))
        | None => fun t =>
            match create_connection_for_peer env peer_id t with
            | (Ok c, t') => (Ok (Some (pc_connection c)), set_connections (<[peer_id := c]> (t_connections t')) t')
            | (Err _, t') => (Ok None, t')
            | (Panic, t') => (Panic, t')
            end
        end in
      match found with
      | None => sret tt
      | Some conn =>
          let* taken := take_batch env messages 0 ∅ in
          smodify (fun t => set_buffer (<[peer_id := taken.2]> (t_buffer t)) t) ;*
          sfor (try_batch env conn) (hash_iter taken.1)
      end
  end.

Definition process_message_batches (env : NetEnv) : transport unit :=
  let* t := sget in
  sfor (process_peer env) (hash_iter (t_buffer t)).*1.

(** * Health and the end *)

(** The peers whose connections have been idle for more than a minute. *)
Fixpoint stale_peers (env : NetEnv) (l : list (Z * PeerConnection)) : transport (list Z) :=
  match l with
  | [] => sret []
  | (peer_id, conn) :: l' =>
      let* now := ask (clock env) in
      let* rest := stale_peers env l' in
      sret (if secs 60 <? sat_sub now (last_activity conn) then peer_id :: rest else rest)
  end.

Definition check_connection_health (env : NetEnv) : transport unit :=
  let* t := sget in
  let* to_remove := stale_peers env (hash_iter (t_connections t)) in
  smodify (fun t => set_connections (fold_left (fun c peer_id => delete peer_id c) to_remove (t_connections t)) t).

Definition get_metrics (t : IrohRaftTransport) : nat * Z := (size (t_connections t), fold_right Z.add 0 (hash_iter (t_sent t)).*2).

Definition shutdown (t : IrohRaftTransport) : IrohRaftTransport := set_connections ∅ t.

End Transport.
Arguments IrohRaftTransport Bd {_}.

(** * The buffer as a priority queue *)

Section Buffering.
Context {Bd : Type} `{MessageBody Bd} `{IpNetLib}.

Definition message_key (m : Message Bd) : Z := as_u8 (from_raft_message m).
Definition buffered_key (b : BufferedRaftMessage Bd) : Z := as_u8 (buf_priority b).
Definition buffered_as_sent (b : BufferedRaftMessage Bd) : Prop := buf_priority b = from_raft_message (buf_message b).

(** The messages that wait for a peer. *)
Definition queued (to : Z) (t : IrohRaftTransport Bd) : list (Message Bd) := map buf_message (default [] (t_buffer t !! to)).

Lemma take_stable_insert {A} (key : A -> Z) x l m : take m (stable_insert key x (take m l)) = take m (stable_insert key x l).
Proof.
  revert m. induction l as [|y l IH]; intros m; [by rewrite take_nil|]. destruct m as [|m]; [done|]. cbn.
  destruct (key x <? key y); cbn; [|by rewrite IH]. f_equal. destruct m; [done|]. cbn. by rewrite take_take, Nat.min_l by lia.
Qed.

Lemma map_stable_insert {A B} (f : A -> B) (key : A -> Z) (key' : B -> Z) x l :
  (forall y, y ∈ x :: l -> key y = key' (f y)) -> map f (stable_insert key x l) = stable_insert key' (f x) (map f l).
Proof.
  induction l as [|y l IH]; intros Hk; [done|]. cbn [stable_insert map].
  rewrite (Hk x), (Hk y) by set_solver. destruct (_ <? _); [done|]. cbn. f_equal. apply IH. set_solver.
Qed.

Lemma stable_sort_snoc {A} (key : A -> Z) l x : stable_sort key (l ++ [x]) = stable_insert key x (stable_sort key l).
Proof. unfold stable_sort. by rewrite fold_left_app. Qed.

Lemma buffer_message_queue env to m t max :
  max_buffered_messages env = Some max -> Forall buffered_as_sent (default [] (t_buffer t !! to)) ->
  exists t', buffer_message env to m (from_raft_message m) t = (Ok tt, t') /\
    queued to t' = take max (stable_insert message_key m (queued to t)) /\
    Forall buffered_as_sent (default [] (t_buffer t' !! to)) /\
    (forall p, p <> to -> t_buffer t' !! p = t_buffer t !! p) /\ t_connections t' = t_connections t /\ t_wire t' = t_wire t.
Proof.
  intros Hmax Hq. unfold buffer_message, sbind, ask, smodify, slift. rewrite Hmax. cbn [ok_or]. eexists. split; [reflexivity|].
  unfold queued. cbn [t_buffer set_buffer t_connections t_wire]. rewrite !lookup_insert_eq. cbn [from_option Datatypes.id].
  set (b := mkBuffered m (from_raft_message m) (clock env (t_asked t)) 0) in *. set (q := default [] (t_buffer t !! to)) in *.
  assert (Hb : Forall buffered_as_sent (b :: q)) by (constructor; [done|done]).
  split_and!; try done.
  - rewrite <- firstn_map. f_equal. apply (map_stable_insert buf_message _ message_key b q).
    intros y Hy. rewrite Forall_forall in Hb. unfold message_key. by rewrite (Hb y Hy).
  - apply Forall_take. by rewrite stable_insert_perm.
  - intros p Hp. by rewrite !lookup_insert_ne.
Qed.

(** C12: the messages that wait for a peer are the most urgent ones that were
    buffered: the queue is the list of all of them sorted by priority, those of
    equal priority in the order they came, cut after the number that may be
    buffered. *)
Theorem buffer_is_priority_queue env to ms t max :
  max_buffered_messages env = Some max -> t_buffer t !! to = None ->
  exists t', sfor (fun m => buffer_message env to m (from_raft_message m)) ms t = (Ok tt, t') /\
    queued to t' = take max (stable_sort message_key ms).
Proof.
  intros Hmax Hnone.
  assert (Hgen : forall l t0, Forall buffered_as_sent (default [] (t_buffer t0 !! to)) -> queued to t0 = take max (stable_sort message_key l) ->
    exists t', sfor (fun m => buffer_message env to m (from_raft_message m)) ms t0 = (Ok tt, t') /\
    queued to t' = take max (stable_sort message_key (l ++ ms))).
  { induction ms as [|m ms IH]; intros l t0 Hq Hl; [exists t0; by rewrite app_nil_r|]. cbn [sfor].
    destruct (buffer_message_queue env to m t0 max Hmax Hq) as (t1 & E1 & Hq1 & Hs1 & _). erewrite sbind_ok by exact E1.
    destruct (IH (l ++ [m]) t1 Hs1) as (t2 & E2 & Hq2).
    - by rewrite Hq1, Hl, take_stable_insert, stable_sort_snoc.
    - exists t2. by rewrite <- app_assoc in Hq2. }
  apply (Hgen [] t); unfold queued; rewrite Hnone; cbn; [constructor|by rewrite take_nil].
Qed.

End Buffering.

(** * Sending over a network that works *)

Section Sending.
Context {Bd : Type} `{MessageBody Bd} `{IpNetLib} `{AddrText} `{HashIter}.
Context `{Codec (Message Bd)} `{Codec RpcRequest}.

(** Every stream can be opened, takes what is written, and can be finished. *)
Definition net_fine (env : NetEnv) : Prop :=
  (forall k conn, opening env k conn = Some (mkSend [] None)) /\ (forall k, finishing env k = true) /\
  (forall k, length (request_ids env k) = 16%nat).

(** The bytes of the request that carries a message. *)
Definition request_bytes (m : Message Bd) : option bytes :=
  mb ← ser m; ser (mkRpcRequest "raft" "raft.message" mb).
Definition encodable (m : Message Bd) : Prop :=
  exists qb, request_bytes m = Some qb /\ Z.of_nat (length qb) <= MAX_MESSAGE_SIZE.

(** A stream on [conn] that carries the message [m] and nothing else. *)
Definition carries (conn : Z) (m : Message Bd) (stream : Z * bytes) : Prop :=
  exists id qb, stream = (conn, frame (Request, id, qb)) /\ request_bytes m = Some qb /\ sendable id qb.

Lemma write_request_fine env conn id qb (t : IrohRaftTransport Bd) :
  net_fine env -> sendable id qb ->
  exists t', write_request env conn (mkSend [] None) id qb t = (Ok tt, t') /\
    t_wire t' = t_wire t ++ [(conn, frame (Request, id, qb))] /\ t_buffer t' = t_buffer t /\ t_connections t' = t_connections t /\
    t_node t' = t_node t.
Proof.
  intros (_ & Hf & _) Hs. unfold write_request. rewrite (write_message_frame (Request, id, qb)) by done.
  unfold sbind, smodify, slift, ask. cbn [written app t_asked set_wire]. rewrite Hf. eexists. by split.
Qed.

Lemma encodable_request m qb : request_bytes m = Some qb ->
  exists mb, ser m = Some mb /\ raft_request m = Ok (mkRpcRequest "raft" "raft.message" mb) /\
    serialize_payload (mkRpcRequest "raft" "raft.message" mb) = Ok qb.
Proof.
  unfold request_bytes, raft_request, serialize_payload. intros (mb & Hm & Hq)%bind_Some. exists mb. by rewrite Hm, Hq.
Qed.

(** The rest of an immediate send, once there is a connection. *)
Lemma send_on_connection env to m (t t1 : IrohRaftTransport Bd) c :
  net_fine env -> encodable m -> get_or_create_connection env to t = (Ok c, t1) ->
  exists t' w, try_send_immediate env to m t = (Ok tt, t') /\ t_wire t' = t_wire t1 ++ [w] /\ carries (pc_connection c) m w /\
    t_buffer t' = t_buffer t1 /\ t_connections t' = t_connections t1 /\ t_node t' = t_node t1.
Proof.
  intros Hn (qb & Hqb & Hlen) Hc. destruct (encodable_request m qb Hqb) as (mb & Hm & Hr & Hs).
  unfold try_send_immediate. erewrite sbind_ok by exact Hc. rewrite Hr. unfold sbind at 1, slift. unfold sbind at 1, ask.
  rewrite Hs. unfold sbind at 1, slift. unfold sbind at 1, ask. rewrite (proj1 Hn). unfold sbind at 1, slift, ok_or.
  set (id := request_ids env (t_asked t1)). set (t2 := mkTransport _ _ _ _ _ _).
  assert (Hid : sendable id qb) by (split; [apply Hn|done]).
  destruct (write_request_fine env (pc_connection c) id qb t2 Hn Hid) as (t3 & E3 & Hw & Hb & Hcn & Hnd).
  erewrite sbind_ok by exact E3. unfold sbind, ask.
  exists (if counting env (t_asked t3) then record_sent m (mkTransport (t_node t3) (t_connections t3) (t_buffer t3) (t_sent t3) (t_wire t3) (S (t_asked t3)))
    else mkTransport (t_node t3) (t_connections t3) (t_buffer t3) (t_sent t3) (t_wire t3) (S (t_asked t3))), (pc_connection c, frame (Request, id, qb)).
  split; [by destruct (counting env (t_asked t3))|]. split; [destruct (counting env _); cbn; by rewrite Hw|].
  split; [by exists id, qb|]. destruct (counting env _); cbn; by rewrite Hb, Hcn, Hnd.
Qed.

(** With an address and an endpoint that connects there is a connection. *)
Lemma connection_to_registered env to (t : IrohRaftTransport Bd) addr conn :
  get_node_addr to (t_node t) = Ok addr -> t_connections t !! to = None ->
  (forall k, connecting env k addr = Connected conn) ->
  exists c t1, get_or_create_connection env to t = (Ok c, t1) /\ pc_connection c = conn /\ t_wire t1 = t_wire t /\
    t_buffer t1 = t_buffer t /\ t_node t1 = t_node t.
Proof.
  intros Ha Hc Hk. unfold get_or_create_connection, sbind at 1, sget. rewrite Hc. unfold find_address, sbind at 1. rewrite Ha.
  unfold sbind at 1, ask. rewrite Hk. unfold sbind, ask, smodify, sret. eexists _, _. split; [reflexivity|]. done.
Qed.

Lemma cached_connection env to (t : IrohRaftTransport Bd) c :
  t_connections t !! to = Some c -> get_or_create_connection env to t = (Ok c, t).
Proof. intros Hc. unfold get_or_create_connection, sbind, sget. by rewrite Hc. Qed.

Lemma send_immediate env to m (t t' : IrohRaftTransport Bd) :
  is_Some (get_peer to (t_node t)) -> from_raft_message m <> SnapshotPriority ->
  try_send_immediate env to m t = (Ok tt, t') -> send_message env to m t = (Ok tt, t').
Proof. intros [p Hp] Hm E. unfold send_message. rewrite Hp, E. by destruct (from_raft_message m). Qed.

Lemma send_snapshot env to m (t t' : IrohRaftTransport Bd) :
  is_Some (get_peer to (t_node t)) -> from_raft_message m = SnapshotPriority ->
  buffer_message env to m (from_raft_message m) t = (Ok tt, t') -> send_message env to m t = (Ok tt, t').
Proof. intros [p Hp] Hm E. unfold send_message. by rewrite Hp, Hm in *. Qed.

(** Either way there is a connection. *)
Lemma connection_available env to (t : IrohRaftTransport Bd) addr conn :
  get_node_addr to (t_node t) = Ok addr -> (forall k, connecting env k addr = Connected conn) ->
  exists c t1, get_or_create_connection env to t = (Ok c, t1) /\ t_wire t1 = t_wire t /\ t_buffer t1 = t_buffer t.
Proof.
  intros Ha Hk. destruct (t_connections t !! to) as [c|] eqn:Hc; [exists c, t; split; [by apply cached_connection|done]|].
  destruct (connection_to_registered env to t addr conn Ha Hc Hk) as (c & t1 & E & _ & Hw & Hb & _). by exists c, t1.
Qed.

(** What a membership change makes known: the address and the member. *)
Lemma known_after_change now response answer (n0 : SharedNodeState Bd) id ctx p2p i n :
  ctx_p2p_node_id ctx = Some p2p -> parse_node_id p2p = Some i ->
  n = snd (propose_conf_change_with_p2p now response answer AddNode id ctx n0) ->
  get_node_addr id n = Ok (peer_addr i (ctx_p2p_addresses ctx) (ctx_p2p_relay_url ctx)) /\ is_Some (get_peer id n).
Proof.
  intros Hp Hi ->. destruct (propose_conf_change_keeps now response answer AddNode id ctx n0) as [Hreg Hmem].
  destruct (record_peer_registry now id ctx n0 i p2p Hp Hi) as [Hr' Hm']. rewrite Hr' in Hreg. rewrite Hm' in Hmem.
  unfold get_node_addr, get_peer. rewrite Hreg, Hmem, !lookup_insert_eq. by split; [|eexists].
Qed.

(** ** At the other end *)

Section Receiving.
Context `{ErrorText} `{Codec RpcResponse} `{!CodecOk RpcRequest} `{!CodecOk RpcResponse} `{!CodecOk (Message Bd)}.

(** A node that takes Raft messages: it has the service and a Raft manager that
    listens, and its answers can be written. *)
Definition receives (services : gmap string (IrohService (SharedNodeState Bd))) : Prop :=
  services !! "raft" = Some raft_service /\
  exists rb, ser (mkRpcResponse true (Some raft_ok) None) = Some rb /\ Z.of_nat (length rb) <= MAX_MESSAGE_SIZE.

(** The node after it has handled the streams one after the other. *)
Definition handled (services : gmap string (IrohService (SharedNodeState Bd))) (streams : list (Z * bytes)) (n : SharedNodeState Bd)
    : SharedNodeState Bd :=
  fold_left (fun n s => served_state services n s.2) streams n.

Lemma stream_delivered services conn m s (n : SharedNodeState Bd) tx :
  receives services -> carries conn m s -> msg_from m <> 0 -> n_message_tx n = Some tx -> receiver tx = true ->
  served_state services n s.2 = set_n_message_tx (Some (mkChannel (sent tx ++ [(msg_from m, m)]) true)) n.
Proof.
  intros [Hsvc (rb & Hrb & Hrl)] (id & qb & -> & Hqb & Hs) Hf Htx Hr. destruct (encodable_request m qb Hqb) as (mb & Hm & _ & _).
  assert (Hq : ser (mkRpcRequest "raft" "raft.message" mb) = Some qb) by (unfold request_bytes in Hqb; by rewrite Hm in Hqb).
  cbn [snd]. refine (proj2 (served_frame services n id _ qb raft_service (Ok raft_ok) _ rb Hs Hq Hsvc _ _ Hrb _)).
  - by apply raft_call_forwards.
  - done.
  - split; [apply Hs|done].
Qed.

(** Streams that carry messages put these into the channel, in their order. *)
Lemma streams_delivered services conn ms streams (n : SharedNodeState Bd) tx :
  receives services -> Forall2 (carries conn) ms streams -> Forall (fun m => msg_from m <> 0) ms ->
  n_message_tx n = Some tx -> receiver tx = true ->
  n_message_tx (handled services streams n) = Some (mkChannel (sent tx ++ map (fun m => (msg_from m, m)) ms) true).
Proof.
  intros Hs Hms. revert n tx. induction Hms as [|m s ms streams Hc Hms IH]; intros n tx Hf Htx Hr.
  { cbn. rewrite app_nil_r, Htx. destruct tx; cbn in *. by subst. }
  inversion_clear Hf as [|?? Hf1 Hf2]. cbn [map].
  change (handled services (s :: streams) n) with (handled services streams (served_state services n s.2)).
  rewrite (stream_delivered services conn m s n tx Hs Hc Hf1 Htx Hr).
  erewrite IH; [|done|reflexivity|reflexivity]. cbn. by rewrite <- app_assoc.
Qed.


End Receiving.

End Sending.

(** * The batch processor *)

Section Batches.
Context {Bd : Type} `{MessageBody Bd} `{IpNetLib} `{AddrText} `{HashIter}.
Context `{Codec (Message Bd)} `{Codec RpcRequest}.

(** The message is not older than half a minute at the reading [k] of the clock. *)
Definition fresh_at (env : NetEnv) (k : nat) (b : BufferedRaftMessage Bd) : Prop :=
  sat_sub (clock env k) (buf_timestamp b) <= secs 30.
#[global] Instance fresh_at_dec env k b : Decision (fresh_at env k b) := Z_le_dec _ _.

(** No message of the queue is older than half a minute, whenever one looks. *)
Definition fresh (env : NetEnv) (q : list (BufferedRaftMessage Bd)) : Prop := forall k b, b ∈ q -> fresh_at env k b.

(** The messages that are not too old when the queue is gone through from the
    front, with one reading of the clock for each, the first of them number [k]. *)
Fixpoint fresh_of (env : NetEnv) (k : nat) (q : list (BufferedRaftMessage Bd)) : list (BufferedRaftMessage Bd) :=
  match q with
  | [] => []
  | b :: q' => if decide (fresh_at env k b) then b :: fresh_of env (S k) q' else fresh_of env (S k) q'
  end.

Lemma fresh_of_sublist env k q : fresh_of env k q `sublist_of` q.
Proof. revert k. induction q as [|b q IH]; intros k; cbn; [done|]. case_decide; by constructor. Qed.

Lemma fresh_of_all env k q : fresh env q -> fresh_of env k q = q.
Proof.
  revert k. induction q as [|b q IH]; intros k Hf; [done|]. cbn. rewrite decide_True by (apply Hf; by left). f_equal.
  apply IH. intros k' b' Hb'. apply Hf. by right.
Qed.

Definition add_to_group (g : gmap RaftMessagePriority (list (Message Bd))) (b : BufferedRaftMessage Bd)
    : gmap RaftMessagePriority (list (Message Bd)) :=
  <[buf_priority b := default [] (g !! buf_priority b) ++ [buf_message b]]> g.

Definition set_asked (k : nat) (t : IrohRaftTransport Bd) : IrohRaftTransport Bd :=
  mkTransport (t_node t) (t_connections t) (t_buffer t) (t_sent t) (t_wire t) k.

(** The loop goes through a part of the queue from the front, takes the messages
    of it that are not too old, and ends with the queue or with a full batch. *)
Lemma take_batch_run env q count g (t : IrohRaftTransport Bd) :
  (count < BATCH_LIMIT)%nat ->
  exists seen rest k, q = seen ++ rest /\
    take_batch env q count g t = (Ok (fold_left add_to_group (fresh_of env (t_asked t) seen) g, rest), set_asked k t) /\
    (count + length (fresh_of env (t_asked t) seen) <= BATCH_LIMIT)%nat /\
    (rest = [] \/ (count + length (fresh_of env (t_asked t) seen) = BATCH_LIMIT)%nat).
Proof.
  revert count g t. induction q as [|b q IH]; intros count g t Hc; cbn [take_batch].
  { exists [], [], (t_asked t). cbn. split_and!; [done|by destruct t|lia|by left]. }
  unfold sbind, ask. set (t1 := mkTransport _ _ _ _ _ _). assert (E1 : set_asked (S (t_asked t)) t = t1) by done.
  destruct (Z.ltb_spec (secs 30) (sat_sub (clock env (t_asked t)) (buf_timestamp b))) as [Hold|Hnew].
  - destruct (IH count g t1 Hc) as (seen & rest & k & -> & E & Hle & Hend). exists (b :: seen), rest, k. cbn [fresh_of].
    rewrite decide_False by (unfold fresh_at; lia). done.
  - destruct (Nat.leb_spec BATCH_LIMIT (S count)) as [Hfull|Hroom].
    + exists [b], q, (S (t_asked t)). cbn [fresh_of]. rewrite decide_True by done. cbn [length fold_left]. split_and!; [done|done|lia|right; lia].
    + destruct (IH (S count) (add_to_group g b) t1 Hroom) as (seen & rest & k & -> & E & Hle & Hend). exists (b :: seen), rest, k.
      cbn [fresh_of]. rewrite decide_True by done. cbn [length fold_left]. split_and!; [done|exact E|cbn in Hle; lia|].
      destruct Hend as [->|Hend]; [by left|right; cbn in Hend; lia].
Qed.

(** A group is what the queue has of its priority, in the order of the queue. *)
Lemma groups_lookup q (g : gmap RaftMessagePriority (list (Message Bd))) p :
  default [] (fold_left add_to_group q g !! p) = default [] (g !! p) ++ map buf_message (filter (fun b => buf_priority b = p) q).
Proof.
  revert g. induction q as [|b q IH]; intros g; cbn [fold_left]; [by rewrite app_nil_r|]. rewrite IH, filter_cons. unfold add_to_group.
  case_decide as Hp; [subst p; rewrite lookup_insert_eq; cbn; by rewrite <- app_assoc|by rewrite lookup_insert_ne].
Qed.

Lemma filter_same_priority (l : list (Message Bd)) q p :
  Forall (fun m => from_raft_message m = q) l -> filter (fun m => from_raft_message m = p) l = if decide (q = p) then l else [].
Proof. induction 1 as [|m l Hm _ IH]; [by case_decide|]. rewrite filter_cons, IH, Hm. by repeat case_decide. Qed.

(** Groups that hold messages of their priority only. *)
Definition grouped (L : list (RaftMessagePriority * list (Message Bd))) : Prop :=
  forall p l, (p, l) ∈ L -> Forall (fun m => from_raft_message m = p) l.

Lemma filter_concat_absent L p : grouped L -> p ∉ L.*1 -> filter (fun m => from_raft_message m = p) (concat L.*2) = [].
Proof.
  induction L as [|[p' l'] L IH]; intros Hg Hn; [done|]. csimpl in *. apply not_elem_of_cons in Hn as [Hne Hn].
  rewrite filter_app, (filter_same_priority l' p' p (Hg p' l' ltac:(by left))), decide_False, IH; [done| |done|congruence].
  intros p2 l2 Hl2. apply Hg. by right.
Qed.

Lemma filter_concat_groups L p l :
  NoDup L.*1 -> grouped L -> (p, l) ∈ L -> filter (fun m => from_raft_message m = p) (concat L.*2) = l.
Proof.
  induction L as [|[p' l'] L IH]; intros Hnd Hg Hin; [by apply elem_of_nil in Hin|]. csimpl in *. rewrite filter_app.
  assert (HgL : grouped L) by (intros p2 l2 Hl2; apply Hg; by right).
  rewrite (filter_same_priority l' p' p (Hg p' l' ltac:(by left))). apply NoDup_cons in Hnd as [Hn Hnd].
  apply elem_of_cons in Hin as [[= -> ->]|Hin].
  - by rewrite decide_True, filter_concat_absent, app_nil_r.
  - rewrite decide_False; [by apply IH|]. intros ->. apply Hn. by apply (list_elem_of_fmap_2 fst _ (p, l)).
Qed.

(** A list is determined up to order by what it has of each priority. *)
Lemma split_by_priority (l : list (Message Bd)) :
  l ≡ₚ filter (fun m => from_raft_message m = Election) l ++ filter (fun m => from_raft_message m = Heartbeat) l ++
       filter (fun m => from_raft_message m = LogAppend) l ++ filter (fun m => from_raft_message m = SnapshotPriority) l.
Proof.
  induction l as [|m l IH]; [done|]. rewrite !filter_cons. destruct (from_raft_message m) eqn:E; repeat case_decide; try congruence;
    rewrite IH at 1; solve_Permutation.
Qed.

(** One group after the other, over a network that works. *)
Lemma send_batch_fine env conn ms (t : IrohRaftTransport Bd) :
  net_fine env -> Forall encodable ms ->
  exists t' ws, send_message_batch env conn ms t = (Ok tt, t') /\ t_wire t' = t_wire t ++ ws /\ Forall2 (carries conn) ms ws /\
    t_buffer t' = t_buffer t.
Proof.
  intros Hn He. revert t. induction He as [|m ms (qb & Hqb & Hlen) He IH]; intros t.
  { exists t, []. by rewrite app_nil_r. }
  cbn [send_message_batch]. destruct (encodable_request m qb Hqb) as (mb & _ & Hr & Hs).
  rewrite Hr. unfold sbind at 1, slift. unfold sbind at 1, ask. unfold sbind at 1, ask. rewrite (proj1 Hn). unfold sbind at 1, slift, ok_or.
  rewrite Hs. unfold sbind at 1, slift. set (id := request_ids env (t_asked t)). set (t2 := mkTransport _ _ _ _ _ _).
  assert (Hid : sendable id qb) by (split; [apply Hn|done]).
  destruct (write_request_fine env conn id qb t2 Hn Hid) as (t3 & E3 & Hw & Hb & _). erewrite sbind_ok by exact E3.
  unfold sbind at 1, smodify. destruct (IH (record_sent m t3)) as (t' & ws & E & Hw' & Hc & Hb').
  exists t', ((conn, frame (Request, id, qb)) :: ws). split; [done|]. split; [rewrite Hw'; cbn; by rewrite Hw, <- app_assoc|].
  split; [constructor; [by exists id, qb|done]|by rewrite Hb'].
Qed.

Lemma send_groups_fine env conn L (t : IrohRaftTransport Bd) :
  net_fine env -> Forall encodable (concat L.*2) ->
  exists t' ws, sfor (try_batch env conn) L t = (Ok tt, t') /\ t_wire t' = t_wire t ++ ws /\ Forall2 (carries conn) (concat L.*2) ws /\
    t_buffer t' = t_buffer t.
Proof.
  intros Hn. revert t. induction L as [|[p ms] L IH]; intros t He; [exists t, []; by rewrite app_nil_r|].
  csimpl in He. apply Forall_app in He as [He1 He2]. cbn [sfor]. unfold try_batch at 1. cbn [snd].
  destruct (send_batch_fine env conn ms t Hn He1) as (t1 & w1 & E1 & Hw1 & Hc1 & Hb1).
  assert (Ei : signore (send_message_batch env conn ms) t = (Ok tt, t1)) by (unfold signore; by rewrite E1).
  erewrite sbind_ok by exact Ei. destruct (IH t1 He2) as (t2 & w2 & E2 & Hw2 & Hc2 & Hb2).
  exists t2, (w1 ++ w2). split; [done|]. split; [by rewrite Hw2, Hw1, app_assoc|]. split; [by apply Forall2_app|congruence].
Qed.

Lemma queued_priority q p :
  Forall buffered_as_sent q ->
  filter (fun m => from_raft_message m = p) (map buf_message q) = map buf_message (filter (fun b => buf_priority b = p) q).
Proof.
  induction 1 as [|b q Hb _ IH]; [done|]. cbn [map]. rewrite !filter_cons, <- Hb. case_decide; cbn [map]; by rewrite IH.
Qed.

(** The messages of a batch in the order they are sent. *)
Definition batch_order (q : list (BufferedRaftMessage Bd)) : list (Message Bd) :=
  concat (hash_iter (fold_left add_to_group q ∅)).*2.

Lemma batch_order_spec q :
  Forall buffered_as_sent q ->
  (forall p, filter (fun m => from_raft_message m = p) (batch_order q) = filter (fun m => from_raft_message m = p) (map buf_message q)) /\
  batch_order q ≡ₚ map buf_message q.
Proof.
  intros Hq. set (g := fold_left add_to_group q ∅).
  assert (Hg : forall p, default [] (g !! p) = map buf_message (filter (fun b => buf_priority b = p) q)).
  { intros p. unfold g. by rewrite groups_lookup, lookup_empty. }
  assert (Hgr : grouped (hash_iter g)).
  { intros p l Hpl%elem_of_hash_iter. specialize (Hg p). rewrite Hpl in Hg. cbn in Hg. subst l. rewrite <- queued_priority by done.
    apply Forall_forall. intros m [Hm _]%list_elem_of_filter. done. }
  assert (Hnd : NoDup (hash_iter g).*1) by (rewrite hash_iter_perm; apply NoDup_fst_map_to_list).
  assert (Hf : forall p, filter (fun m => from_raft_message m = p) (batch_order q) = filter (fun m => from_raft_message m = p) (map buf_message q)).
  { intros p. rewrite queued_priority, <- Hg by done. unfold batch_order. fold g. destruct (g !! p) as [l|] eqn:El.
    - cbn. apply filter_concat_groups; [done|done|by apply elem_of_hash_iter].
    - cbn. apply filter_concat_absent; [done|]. intros ([p' l'] & -> & Hin)%list_elem_of_fmap. apply elem_of_hash_iter in Hin. cbn in El. congruence. }
  split; [done|]. rewrite (split_by_priority (batch_order q)), !Hf. symmetry. apply split_by_priority.
Qed.

(** A connection is cached, or the batch processor can make one: the member is
    known with a node id, and connecting to that succeeds. *)
Definition connectable (env : NetEnv) (to : Z) (t : IrohRaftTransport Bd) : Prop :=
  is_Some (t_connections t !! to) \/
  exists p text i conn, get_peer to (t_node t) = Some p /\ p2p_node_id p = Some text /\ parse_node_id text = Some i /\
    forall k, connecting env k (node_addr_new i) = Connected conn.

(** What a round does before it sends: the part of the queue it has seen leaves the
    buffer, and what it has of messages that are not too old is grouped. *)
Lemma process_peer_connected env to b q (t : IrohRaftTransport Bd) :
  connectable env to t -> t_buffer t !! to = Some (b :: q) ->
  exists seen rest k conn t1, b :: q = seen ++ rest /\
    process_peer env to t = sfor (try_batch env conn) (hash_iter (fold_left add_to_group (fresh_of env k seen) ∅)) t1 /\
    (length (fresh_of env k seen) <= BATCH_LIMIT)%nat /\ (rest = [] \/ length (fresh_of env k seen) = BATCH_LIMIT) /\
    t_buffer t1 = <[to := rest]> (t_buffer t) /\ t_wire t1 = t_wire t /\
    (forall c, t_connections t !! to = Some c -> conn = pc_connection c).
Proof.
  intros Hc Hq. unfold process_peer, sbind at 1, sget. rewrite Hq. cbn [from_option Datatypes.id].
  destruct (t_connections t !! to) as [c|] eqn:Ec.
  - destruct (take_batch_run env (b :: q) 0 ∅ t ltac:(unfold BATCH_LIMIT; lia)) as (seen & rest & k & Es & E & Hle & Hend).
    exists seen, rest, (t_asked t), (pc_connection c). unfold sbind at 1, sret. erewrite sbind_ok by exact E.
    eexists. split_and!; [done|reflexivity|done|done|done|done|by intros ? [= <-]].
  - destruct Hc as [[c Hc]|(p & text & i & conn & Hp & Ht & Hi & Hk)]; [congruence|].
    unfold create_connection_for_peer, sbind at 1, sbind at 1, sget. rewrite Hp. unfold sbind at 1, slift at 1, ok_or at 1.
    rewrite Ht. unfold sbind at 1, slift at 1, ok_or at 1. rewrite Hi. unfold sbind at 1, slift, ok_or. unfold sbind at 1, ask. rewrite Hk.
    unfold sbind at 1, ask, sret. cbn [pc_connection]. set (t1 := set_connections _ _).
    destruct (take_batch_run env (b :: q) 0 ∅ t1 ltac:(unfold BATCH_LIMIT; lia)) as (seen & rest & k & Es & E & Hle & Hend).
    exists seen, rest, (t_asked t1), conn. erewrite sbind_ok by exact E.
    eexists. by split_and!; [|reflexivity|..].
Qed.


(** A batch that cannot be sent is gone: the messages have left the buffer
    before they are sent, and none is put back. *)
Lemma send_batch_dead env conn ms (t : IrohRaftTransport Bd) :
  (forall k, opening env k conn = None) ->
  exists t', signore (send_message_batch env conn ms) t = (Ok tt, t') /\ t_wire t' = t_wire t /\ t_buffer t' = t_buffer t.
Proof.
  intros Ho. destruct ms as [|m ms]; [by exists t|]. unfold signore. cbn [send_message_batch]. unfold sbind, slift, ask.
  destruct (raft_request m) eqn:Er; [rewrite Ho; cbn; by eexists|by eexists|].
  unfold raft_request in Er. by destruct (ser m).
Qed.

Theorem failed_batch_is_lost env to c q (t : IrohRaftTransport Bd) :
  t_connections t !! to = Some c -> t_buffer t !! to = Some q -> fresh env q -> (length q <= BATCH_LIMIT)%nat ->
  (forall k, opening env k (pc_connection c) = None) ->
  exists t', process_peer env to t = (Ok tt, t') /\ queued to t' = [] /\ t_wire t' = t_wire t.
Proof.
  intros Hc Hq Hf Hl Ho. destruct q as [|b q].
  { exists t. unfold process_peer, sbind, sget, queued. by rewrite Hq. }
  destruct (process_peer_connected env to b q t ltac:(left; by eexists) Hq) as (seen & rest & k & conn & t1 & Es & -> & _ & Hend & Hb1 & Hw1 & Hcn).
  rewrite (Hcn c Hc) in *.
  assert (Hrest : rest = []).
  { destruct Hend as [->|Hend]; [done|]. rewrite fresh_of_all in Hend by (intros k' b' Hb'; apply Hf; rewrite Es; set_solver).
    apply (f_equal length) in Es. rewrite length_app in Es. destruct rest; [done|]. cbn [length] in *. lia. }
  subst rest. assert (Hst : queued to t1 = [] /\ t_wire t1 = t_wire t) by (split; [unfold queued; by rewrite Hb1, lookup_insert_eq|done]).
  clear Hw1 Hb1. generalize (hash_iter (fold_left add_to_group (fresh_of env k seen) ∅)). intros L.
  revert t1 Hst. induction L as [|[p ms] L IH]; intros t1 [Hq1 Hw1]; [by exists t1|]. cbn [sfor]. unfold try_batch at 1. cbn [snd].
  destruct (send_batch_dead env (pc_connection c) ms t1 Ho) as (t2 & E2 & Hw2 & Hb2). erewrite sbind_ok by exact E2.
  apply IH. split; [unfold queued; by rewrite Hb2|congruence].
Qed.

End Batches.

(** * What never changes, and what does *)

Section Invariants.
Context {Bd : Type} `{MessageBody Bd} `{IpNetLib} `{AddrText} `{HashIter}.
Context `{Codec (Message Bd)} `{Codec RpcRequest}.

(** The buffer as it was, and every connection that was there. *)
Definition quiet_send (t t' : IrohRaftTransport Bd) : Prop :=
  t_buffer t' = t_buffer t /\ forall id c, t_connections t !! id = Some c -> t_connections t' !! id = Some c.

#[global] Instance quiet_send_preorder : PreOrder quiet_send.
Proof.
  split; [by split|]. intros t1 t2 t3 [Hb1 Hc1] [Hb2 Hc2]. split; [congruence|auto].
Qed.

Lemma ask_quiet {A} (f : nat -> A) : moves quiet_send (ask (Bd:=Bd) f).
Proof. intros t o t' [= _ <-]. by split. Qed.

Lemma write_request_quiet env conn stream id b : moves quiet_send (write_request (Bd:=Bd) env conn stream id b).
Proof.
  unfold write_request. destruct (write_message _ _ _ _) as [o stream']. moves_seq; [apply moves_modify; by split|intros _].
  moves_seq; [apply moves_lift, _|intros _]. moves_seq; [apply ask_quiet|intros []]; [apply moves_ret, _|apply moves_fail, _].
Qed.

Lemma find_address_quiet id : moves quiet_send (find_address (Bd:=Bd) id).
Proof. intros t o t'. unfold find_address. repeat case_match; intros [= _ <-]; by split. Qed.

Lemma get_connection_quiet env id : moves quiet_send (get_or_create_connection (Bd:=Bd) env id).
Proof.
  apply moves_read. intros t o t'. destruct (t_connections t !! id) as [c|] eqn:Ec; [intros [= _ <-]; reflexivity|].
  intros [(addr & t1 & E1 & E2)|(_ & o1 & E1 & _)]%sbind_inv; [|by eapply find_address_quiet].
  assert (Hq1 : t_connections t1 = t_connections t /\ t_buffer t1 = t_buffer t).
  { revert E1. unfold find_address. repeat case_match; intros [= _ <-]; done. }
  destruct Hq1 as [Hc1 Hb1]. unfold sbind at 1, ask in E2. destruct (connecting env (t_asked t1) addr).
  - unfold sbind, ask, smodify, sret in E2. injection E2 as _ <-. split; [done|]. cbn. intros id' c' Hc'. rewrite Hc1.
    rewrite lookup_insert_ne; [done|]. congruence.
  - injection E2 as _ <-. split; [done|]. cbn. by rewrite Hc1.
  - injection E2 as _ <-. split; [done|]. cbn. by rewrite Hc1.
Qed.

Lemma try_send_quiet env to m : moves quiet_send (try_send_immediate (Bd:=Bd) env to m).
Proof.
  unfold try_send_immediate. moves_seq; [apply get_connection_quiet|intros c].
  repeat (moves_seq; [first [apply moves_lift, _|apply ask_quiet|apply write_request_quiet]|intros ?]).
  case_match; [apply moves_modify; by split|apply moves_ret, _].
Qed.

(** Every queue holds messages under their own priority, in order of urgency, and
    not more than may be buffered. *)
Definition buffer_ok (max : nat) (t : IrohRaftTransport Bd) : Prop :=
  forall id q, t_buffer t !! id = Some q ->
    Forall buffered_as_sent q /\ key_sorted (fun b => as_u8 (buf_priority b)) q /\ (length q <= max)%nat.

Definition keeps_buffer (max : nat) (t t' : IrohRaftTransport Bd) : Prop := buffer_ok max t -> buffer_ok max t'.

#[global] Instance keeps_buffer_preorder max : PreOrder (keeps_buffer max).
Proof. split; [by intros t Hok|]. intros t1 t2 t3 H12 H23 Hok. auto. Qed.

Lemma quiet_keeps max t t' : quiet_send t t' -> keeps_buffer max t t'.
Proof. intros [Hb _] Hok id q. rewrite Hb. apply Hok. Qed.

Lemma key_sorted_suffix {A} (key : A -> Z) l k : key_sorted key (l ++ k) -> key_sorted key k.
Proof. unfold key_sorted. induction l as [|x l IH]; [done|]. cbn. intros Hs. inversion_clear Hs. auto. Qed.

Lemma key_sorted_take {A} (key : A -> Z) l n : key_sorted key l -> key_sorted key (take n l).
Proof.
  intros Hs. revert n. induction Hs as [|x l Hs IH Hx]; intros [|n]; cbn; try constructor; [apply IH|]. by apply Forall_take.
Qed.

Lemma buffer_message_keeps max env to m :
  max_buffered_messages env = Some max -> moves (keeps_buffer max) (buffer_message (Bd:=Bd) env to m (from_raft_message m)).
Proof.
  intros Hmax t o t' E Hok.
  unfold buffer_message, sbind, ask, smodify, slift in E. rewrite Hmax in E. cbn [ok_or] in E. injection E as _ <-.
  intros id q. cbn [t_buffer set_buffer]. rewrite lookup_insert_eq. cbn [from_option Datatypes.id]. intros [[<- <-]|[Hne Hq]]%lookup_insert_Some.
  - set (q0 := default [] (t_buffer t !! to)).
    assert (Hq0 : Forall buffered_as_sent q0 /\ key_sorted (fun b => as_u8 (buf_priority b)) q0).
    { unfold q0. destruct (t_buffer t !! to) as [q|] eqn:E; cbn; [by destruct (Hok to q E) as (? & ? & _)|split; constructor]. }
    destruct Hq0 as [Ha Hs]. split_and!.
    + apply Forall_take. rewrite stable_insert_perm. by constructor.
    + by apply key_sorted_take, stable_insert_sorted.
    + rewrite length_take. lia.
  - rewrite lookup_insert_ne in Hq by done. by apply (Hok id).
Qed.

Lemma send_message_keeps max env to m :
  max_buffered_messages env = Some max -> moves (keeps_buffer max) (send_message (Bd:=Bd) env to m).
Proof.
  intros Hmax t o t'. unfold send_message. destruct (get_peer to (t_node t)); [|by intros [= _ <-]].
  destruct (try_send_immediate env to m t) as [o1 t1] eqn:E1. pose proof (try_send_quiet env to m t o1 t1 E1) as Hq.
  destruct (from_raft_message m) eqn:Ep; rewrite <- Ep; [destruct o1..|]; intros E;
    try (injection E as _ <-; by apply quiet_keeps);
    try (etransitivity; [by apply quiet_keeps|by eapply buffer_message_keeps]).
  by eapply buffer_message_keeps.
Qed.

Lemma take_batch_suffix env q count g (t t' : IrohRaftTransport Bd) g' rest :
  take_batch env q count g t = (Ok (g', rest), t') -> (exists pre, q = pre ++ rest) /\ t_buffer t' = t_buffer t.
Proof.
  revert count g t. induction q as [|b q IH]; intros count g t; cbn [take_batch].
  { intros [= <- <- <-]. split; [by exists []|done]. }
  unfold sbind, ask. case_match; [|case_match].
  - intros [[pre ->] Hb]%IH. split; [by exists (b :: pre)|done].
  - intros [= <- <- <-]. split; [by exists [b]|done].
  - intros [[pre ->] Hb]%IH. split; [by exists (b :: pre)|done].
Qed.

Lemma send_batch_quiet env conn ms : moves quiet_send (send_message_batch (Bd:=Bd) env conn ms).
Proof.
  induction ms as [|m ms IH]; cbn [send_message_batch]; [apply moves_ret, _|].
  repeat (moves_seq; [first [apply moves_lift, _|apply ask_quiet|apply write_request_quiet|apply moves_modify; by split]|intros ?]).
  exact IH.
Qed.

Lemma try_batch_quiet env conn g : moves quiet_send (try_batch (Bd:=Bd) env conn g).
Proof.
  intros t o t'. unfold try_batch, signore. destruct (send_message_batch env conn g.2 t) as [o1 t1] eqn:E.
  pose proof (send_batch_quiet env conn g.2 t o1 t1 E). destruct o1; by intros [= _ <-].
Qed.

Lemma create_connection_buffer env id (t : IrohRaftTransport Bd) o t' :
  create_connection_for_peer env id t = (o, t') -> t_buffer t' = t_buffer t.
Proof.
  unfold create_connection_for_peer, sbind, sget, slift, ask, sfail, sret. repeat case_match; intros; simplify_eq; done.
Qed.

Lemma process_peer_keeps max env id : moves (keeps_buffer max) (process_peer (Bd:=Bd) env id).
Proof.
  intros t o t'. unfold process_peer, sbind at 1, sget. destruct (default [] (t_buffer t !! id)) as [|b q] eqn:Eq; [by intros [= _ <-]|].
  assert (Hq : t_buffer t !! id = Some (b :: q)) by (destruct (t_buffer t !! id); cbn in Eq; congruence).
  intros [(found & t1 & E1 & E2)|(_ & o1 & E1 & _)]%sbind_inv Hok.
  2: { intros id' q'. assert (t_buffer t' = t_buffer t) as ->; [|apply Hok]. revert E1. destruct (t_connections t !! id); [by intros [= _ <-]|].
       destruct (create_connection_for_peer env id t) as [oc tc] eqn:Ec. apply create_connection_buffer in Ec. destruct oc; by intros [= _ <-]. }
  assert (Hb1 : t_buffer t1 = t_buffer t).
  { revert E1. destruct (t_connections t !! id); [unfold sret; intros; by simplify_eq|].
    destruct (create_connection_for_peer env id t) as [oc tc] eqn:Ec. apply create_connection_buffer in Ec.
    destruct oc; intros; by simplify_eq. }
  destruct found as [conn|]; [|injection E2 as _ <-; intros id' q'; rewrite Hb1; apply Hok].
  apply sbind_inv in E2 as [([g rest] & t2 & E3 & E4)|(_ & o1 & E3 & _)].
  - apply take_batch_suffix in E3 as [[pre Hpre] Hb2]. unfold sbind at 1, smodify in E4.
    pose proof (moves_for _ _ (hash_iter g) (try_batch_quiet env conn) _ _ _ E4) as [Hb4 _].
    intros id' q'. rewrite Hb4. cbn [t_buffer set_buffer snd]. rewrite Hb2, Hb1.
    intros [[<- <-]|[_ Hq']]%lookup_insert_Some; [|by apply (Hok id')].
    destruct (Hok id _ Hq) as (Ha & Hs & Hl). rewrite Hpre in Ha, Hs, Hl. apply Forall_app in Ha as [_ Ha]. rewrite length_app in Hl.
    split_and!; [done|by eapply key_sorted_suffix|lia].
  - assert (t_buffer t' = t_buffer t) as Hbt; [|intros id' q'; rewrite Hbt; apply Hok].
    rewrite <- Hb1. clear -E3. revert E3. generalize (b :: q), 0%nat, (∅ : gmap RaftMessagePriority (list (Message Bd))).
    intros l. revert t1. induction l as [|b' l IH]; intros t1 k g; cbn [take_batch]; [by intros [= _ <-]|].
    unfold sbind, ask. case_match; [by intros ->%IH|]. case_match; [by intros [= _ <-]|by intros ->%IH].
Qed.

(** What the transport is asked to do. *)
Inductive transport_op : Type :=
| OpSend (to : Z) (m : Message Bd)
| OpBatches
| OpHealth
| OpShutdown.

Definition run_transport_op (env : NetEnv) (op : transport_op) (t : IrohRaftTransport Bd) : IrohRaftTransport Bd :=
  match op with
  | OpSend to m => snd (send_message env to m t)
  | OpBatches => snd (process_message_batches env t)
  | OpHealth => snd (check_connection_health env t)
  | OpShutdown => shutdown t
  end.

Lemma stale_peers_run env l (t : IrohRaftTransport Bd) :
  exists ids t', stale_peers env l t = (Ok ids, t') /\ t_buffer t' = t_buffer t /\ t_connections t' = t_connections t /\
    (forall id c, (id, c) ∈ l -> (forall k, secs 60 < sat_sub (clock env k) (last_activity c)) -> id ∈ ids).
Proof.
  revert t. induction l as [|[id c] l IH]; intros t; cbn [stale_peers].
  { exists [], t. split_and!; try done. by intros ?? ?%elem_of_nil. }
  unfold sbind at 1, ask. set (t1 := mkTransport _ _ _ _ _ _). destruct (IH t1) as (ids & t2 & E & Hb & Hc & Hin).
  erewrite sbind_ok by exact E. eexists _, t2. split; [reflexivity|]. split_and!; [done..|].
  intros id' c' [[= -> ->]|Hl]%elem_of_cons Hk.
  - destruct (Z.ltb_spec (secs 60) (sat_sub (clock env (t_asked t)) (last_activity c))); [by left|]. specialize (Hk (t_asked t)). lia.
  - case_match; [right|]; by eapply Hin.
Qed.

(** Whatever is sent, and whenever the background tasks run, every queue of
    the buffer is in order of urgency and no longer than what may be buffered. *)
Theorem buffer_stays_ok max (envs : nat -> NetEnv) ops (t : IrohRaftTransport Bd) :
  (forall k, max_buffered_messages (envs k) = Some max) -> buffer_ok max t ->
  buffer_ok max (fold_left (fun t kop => run_transport_op (envs kop.1) kop.2 t) ops t).
Proof.
  intros Hmax. revert t. induction ops as [|[k op] ops IH]; intros t Hok; [done|]. cbn [fold_left]. apply IH. clear IH.
  destruct op as [to m| | |]; cbn [run_transport_op fst snd].
  - destruct (send_message (envs k) to m t) as [o t'] eqn:E. by eapply send_message_keeps.
  - destruct (process_message_batches (envs k) t) as [o t'] eqn:E. revert Hok. change (keeps_buffer max t t').
    unfold process_message_batches, sbind at 1, sget in E. eapply (moves_for (keeps_buffer max)); [|exact E]. intros id. apply process_peer_keeps.
  - unfold check_connection_health, sbind at 1, sget. destruct (stale_peers_run (envs k) (hash_iter (t_connections t)) t) as (ids & t1 & E & Hb & _).
    erewrite sbind_ok by exact E. intros id q. cbn. rewrite Hb. apply Hok.
  - exact Hok.
Qed.

Lemma fold_delete_lookup (ids : list Z) (m : gmap Z PeerConnection) id : id ∈ ids -> fold_left (fun c i => delete i c) ids m !! id = None.
Proof.
  assert (Hkeep : forall (l : list Z) (m' : gmap Z PeerConnection), m' !! id = None -> fold_left (fun c i => delete i c) l m' !! id = None).
  { intros l. induction l as [|i l IH]; intros m' Hm; [done|]. cbn. apply IH. destruct (decide (i = id)) as [->|];
      [apply lookup_delete_eq|by rewrite lookup_delete_ne]. }
  revert m. induction ids as [|i ids IH]; intros m Hin; [by apply elem_of_nil in Hin|]. cbn. apply elem_of_cons in Hin as [->|Hin]; [|by apply IH].
  apply Hkeep, lookup_delete_eq.
Qed.

(** A connection is dropped a minute after it was made, however many messages
    were sent on it in the meantime: sending does not touch the time it is
    judged by. *)
Theorem active_connection_dropped env env' ms (t : IrohRaftTransport Bd) id c :
  t_connections t !! id = Some c -> (forall k, secs 60 < sat_sub (clock env' k) (last_activity c)) ->
  let t' := fold_left (fun t tm => snd (send_message env tm.1 tm.2 t)) ms t in
  t_connections t' !! id = Some c /\ t_connections (snd (check_connection_health env' t')) !! id = None.
Proof.
  intros Hc Hk. cbn zeta. set (t' := fold_left _ ms t). assert (Hc' : t_connections t' !! id = Some c).
  { unfold t'. clear t'. revert t Hc. induction ms as [|[to m] ms IH]; intros t Hc; [done|]. cbn [fold_left fst snd]. apply IH.
    unfold send_message. destruct (get_peer to (t_node t)); [|done].
    destruct (try_send_immediate env to m t) as [o1 t1] eqn:E1. pose proof (try_send_quiet env to m t o1 t1 E1) as [_ Hq].
    assert (Hbuf : forall t2, t_connections (snd (buffer_message env to m (from_raft_message m) t2)) = t_connections t2).
    { intros t2. unfold buffer_message, sbind, ask, smodify, slift. by destruct (max_buffered_messages env). }
    destruct (from_raft_message m) eqn:Ep; rewrite <- Ep in *; [destruct o1..|]; cbn [snd]; rewrite ?Hbuf; auto. }
  split; [done|]. unfold check_connection_health, sbind at 1, sget.
  destruct (stale_peers_run env' (hash_iter (t_connections t')) t') as (ids & t1 & E & _ & _ & Hin).
  erewrite sbind_ok by exact E. cbn. apply fold_delete_lookup. eapply Hin; [by apply elem_of_hash_iter|done].
Qed.

(** A message to a node that is not known is dropped, and that counts as sent. *)
Theorem unknown_peer_dropped env to m (t : IrohRaftTransport Bd) :
  get_peer to (t_node t) = None -> send_message env to m t = (Ok tt, t).
Proof. intros Hp. unfold send_message. by rewrite Hp. Qed.

End Invariants.

(** * Witnesses *)

#[local] Instance demo_net : IpNetLib := {| IpNet := unit; net_contains := fun _ _ => true |}.
#[local] Existing Instance canonical_iter.
#[local] Existing Instance wire_codec.
#[local] Existing Instance wire_codec_ok.
#[local] Existing Instance ClusterOps.demo_text.
#[local] Existing Instance RpcService.wire_rpc_request.
#[local] Existing Instance RpcService.wire_rpc_response.
#[local] Existing Instance RpcService.demo_error_text.

(** Bodies that are numbers: 0 for a heartbeat, 1 for a snapshot. *)
#[local] Instance demo_body : MessageBody Z :=
  fun b => if b =? 0 then MsgHeartbeat else if b =? 1 then MsgSnapshot else MsgOther "MsgAppend".
#[local] Instance wire_demo_message : Wire (Message Z) :=
  wire_via (fun m : Message Z => (msg_to m, msg_from m, msg_body m)) (fun '(t, f, b) => mkMessage t f b)
    (fun m => match m with mkMessage _ _ _ => eq_refl end).

Definition demo_env : NetEnv :=
  mkNetEnv (fun k => Z.of_nat k) (fun _ _ => Connected 5) (fun _ _ => Some (mkSend [] None)) (fun _ => true)
    (fun _ => replicate 16 7) (fun _ => true) (Some 2%nat).

Lemma demo_env_fine : net_fine demo_env.
Proof. split; [done|]. split; done. Qed.

Definition demo_heartbeat : Message Z := mkMessage 7 1 0.
Definition demo_snapshot : Message Z := mkMessage 7 1 1.
Definition demo_append : Message Z := mkMessage 7 1 2.

Lemma demo_encodable m : m = demo_heartbeat \/ m = demo_snapshot \/ m = demo_append -> encodable m.
Proof. intros [->|[->| ->]]; (eexists; split; [reflexivity|vm_compute; discriminate]). Qed.

Definition demo_ctx : ConfChangeContext := mkConfContext "b" (Some "k") [] None.
Definition demo_joined : SharedNodeState Z := snd (propose_conf_change_with_p2p 9 0 None AddNode 7 demo_ctx (node_new 1 None)).
Definition demo_peer : SharedNodeState Z := set_n_message_tx (Some (mkChannel [] true)) (node_new 7 None).
Definition demo_services : gmap string (IrohService (SharedNodeState Z)) := {["raft" := raft_service]}.

Lemma demo_receives : receives demo_services.
Proof. split; [reflexivity|]. eexists. split; [reflexivity|vm_compute; discriminate]. Qed.

Lemma buffer_is_priority_queue_witness :
  exists t', sfor (fun m => buffer_message demo_env 7 m (from_raft_message m)) [demo_snapshot; demo_append; demo_heartbeat] (transport_new demo_joined) = (Ok tt, t') /\
    queued 7 t' = [demo_heartbeat; demo_append].
Proof. exact (buffer_is_priority_queue demo_env 7 [demo_snapshot; demo_append; demo_heartbeat] (transport_new demo_joined) 2 eq_refl eq_refl). Defined.


Definition demo_queue : list (BufferedRaftMessage Z) := [mkBuffered demo_heartbeat Heartbeat 0 0; mkBuffered demo_snapshot SnapshotPriority 0 0].
Definition demo_waiting : IrohRaftTransport Z :=
  set_buffer {[7 := demo_queue]} (set_connections {[7 := mkPeerConnection 7 107 5 0]} (transport_new demo_joined)).

(** The clock stands still. *)
Definition still_env : NetEnv :=
  mkNetEnv (fun _ => 0) (connecting demo_env) (opening demo_env) (finishing demo_env) (request_ids demo_env) (counting demo_env) (Some 2%nat).


Lemma buffer_stays_ok_witness :
  buffer_ok 2 (fold_left (fun t kop => run_transport_op demo_env kop.2 t)
    [(0%nat, OpSend 7 demo_snapshot); (1%nat, OpBatches); (2%nat, OpHealth); (3%nat, OpShutdown)] (transport_new demo_joined)).
Proof.
  apply (buffer_stays_ok 2 (fun _ => demo_env)); [reflexivity|]. intros id q Hq. exfalso. apply (lookup_empty_Some id q Hq).
Defined.

(** The groups of a batch are sent in the order of a hash map, which may send the
    snapshots before the heartbeats. *)
Lemma batch_may_invert_priorities :
  exists iter : HashIter, batch_order (H2:=iter) demo_queue = [demo_snapshot; demo_heartbeat].
Proof.
  assert (Hrev : forall (K V : Type) (E : EqDecision K) (C : Countable K) (m : gmap K V), rev (map_to_list m) ≡ₚ map_to_list m)
    by (intros; symmetry; apply Permutation_rev).
  first [by exists canonical_iter; vm_compute
        |by exists {| hash_iter := fun K V E C m => rev (map_to_list m); hash_iter_perm := Hrev |}; vm_compute].
Qed.
